(* ===== verification/_CoqProject ===== *)
-Q . S2P
Prelude.v
Params.v
StringC.v
FsState.v
KState.v
Spinlock.v
Mmu.v
Kalloc.v
Sched.v
Runs.v
Bio.v
BioSpec.v
BioThm.v
Log.v
LogSpec.v
LogThm.v
Fs.v
BlockThm.v
Inode.v
InodeThm.v
PathThm.v
Mkfs.v
MkfsThm.v
Mp.v
MpThm.v
Devices.v
DevicesThm.v
Boot.v
BootThm.v
Console.v
Pipe.v
PipeThm.v
ConsoleIn.v
ConsoleThm.v
File.v
FileThm.v
ReadThm.v
NameiThm.v
MkfsFs.v
Vm.v
VmSpec.v
Semaphore.v
SharedMem.v
SharedMemThm.v
Proc.v
Exec.v
Syscall.v
SyscallThm.v
Sysfile.v
Kbd.v
Trap.v
TrapThm.v
Gates.v
SemSystem.v
Prodcons.v
Ulib.v
Umalloc.v
UmallocThm.v
Unix.v
Progs.v
ProgsThm.v
Usertests.v
UsertestsThm.v
KernelRun.v
Smalltests.v
Grep.v
GrepMain.v
Sh.v
ShThm.v
ShRun.v
ShMain.v
