(* ===== verification/Prelude.v ===== *)
(** * A verification development for the xv6 kernel of this repository

    The program is xv6, a Unix-like teaching kernel for x86 written in C, with
    a multi-level feedback scheduler, semaphores and shared memory added, and
    its user library, shell and utilities.  This library translates the C
    routines into Rocq functions, one definition for each routine (loops that are
    not structural are definitions of their own), and proves what the routines
    promise to their callers.

    ** How the code is represented

    - A C routine is a function in the monad [M kst] of this file: it takes the
      state of the kernel and returns ([Ret]), calls [panic] ([Panic]), touches
      memory that is not there ([Stuck]), spins for ever on a lock ([Spin]), runs
      out of the bound given for a loop ([Fuel]), or gives the CPU away in [swtch]
      ([Swtch s k], with [k] the rest of the routine, to be run in the state at
      which the process is resumed).  User programs are pure functions, functions
      to [option], or interaction trees over the system calls they make ([Unix]).
    - [KState] has the state, [kst]: memory as a function from addresses to bytes,
      the process table, queues, semaphores, shared memory table, locks with
      the CPU's interrupt state, and in its field [fs] ([FsState]) the disks, buffer
      cache, log, inodes, open files, pipes and the console.
    - Machine integers are [Z] with [u8], [u16], [u32], [s32] written where the C code
      wraps around.  Constants of [param.h], [mmu.h], [memlayout.h], [fcntl.h] are in
      [Params].
    - A pointer to a table entry is its index; a pointer to memory its address.
      [Mmu] translates user addresses through the page tables as the processor does, and
      has what the kernel reads from and stores into buffers of a process.

    ** The files

    Kernel, basic services
    - [StringC] ([string.c], the string instructions of [x86.h]): the memory routines
      and strings; copies agree with a copy through a buffer, names fit their field.
    - [Spinlock] ([spinlock.c]): [acquire], [release], [pushcli], [popcli] for one CPU,
      and in its module [Smp] a step relation of the two routines for any number of
      CPUs, whose invariant is mutual exclusion.
    - [Kalloc] ([kalloc.c]): the free list refines a pool of pages.
    - [Sched] (the queues, [scheduler], [sched], [yield], [sleep], [wakeup], [kill] of
      [proc.c]): the linked queues refine lists of processes ([mlfq]); what each
      routine does to them.  [Proc] has the rest of [proc.c] ([allocproc], [userinit],
      [growproc], [fork], [exit], [wait], [forkret], [procdump]).
    - [Semaphore] ([semaphore.c]) and [SemSystem]: the operations, and a system of
      processes that create, use and free semaphores and kill each other under the
      scheduler and the timer, with the counting contract as an invariant of all its runs.
    - [Vm] and [VmSpec] ([vm.c]): page tables as maps from page numbers to entries;
      [mappages], [allocuvm] extend the map.  [SharedMem], [SharedMemThm]
      ([sharedmem.c], [syssharedmem.c]).
    - [Trap], [TrapThm] ([trap.c], [traps.h]): the dispatch of traps; a process loses the
      CPU at the end of its quantum and not before.
    - [Gates] (the descriptors of [mmu.h], [seginit] of [vm.c], [tvinit] of [trap.c]): the
      processor reads from the tables the segments and gates the code means, and
      [idtinit] tells it where the table is.
    - [Syscall], [SyscallThm] ([syscall.c], [sysproc.c]): arguments of system calls stay
      inside the process.  [Sysfile] ([sysfile.c]), [Exec] ([exec.c], [elf.h]).

    Files and devices
    - [Bio], [BioSpec], [BioThm] ([bio.c], [ide.c], [memide.c], [buf.h]): the buffer
      cache with its list; with the driver of [memide.c], any sequence of reads and writes
      through the cache behaves as on the disk and never gives up the CPU.  The class
      [Disk] is what the cache needs from a driver, [DiskLaws] what it promises; [memide.c]
      is shown to meet the laws, [CrashDisk] is a driver that meets them and can lose
      power at every write; [ide.c] is modelled, and not shown to meet them.
    - [Log], [LogSpec], [LogThm] ([log.c]): transactions are atomic and durable under
      power failures at any write, also while recovering.  The rules [bread_hold],
      [log_hold], [brelse_hold] give clients a logical disk inside a transaction, with the
      buffers they hold.
    - [Fs] ([fs.c], [fs.h], [stat.h]), [BlockThm] (the block allocator refines the set
      of blocks in use), [PathThm] (paths and directory entries).  [Inode], [InodeThm]:
      a disk that is a file system ([fsys]: inodes with their blocks, disjoint, none of
      them free), and what [bmap], [readi] and [writei] do to its files.  [NameiThm]: the
      tree of directories on such a disk, and that [namex] follows it.
    - [Mkfs], [MkfsThm] ([mkfs.c]): the first image of the disk, its files and that the
      kernel boots from it, and what becomes of the root directory when its entries fill
      its blocks.  [MkfsFs]: the image is a file system with a tree, and the
      booted kernel reads each file by its path.
    - [File] ([file.c] and [pipealloc]), [FileThm] ([filewrite] writes a file that is there
      after a crash), [ReadThm] ([readi] delivers what is in a file, to the kernel or into
      the memory of a process), [Pipe], [PipeThm] ([pipe.c]: a bounded queue of
      bytes whose counters wrap around).
    - [Console], [ConsoleIn], [ConsoleThm] ([console.c], [uart.c]): what [cprintf] prints
      and shows on the screen, [panic] too, and the line editor of the keyboard interrupt.
      [Kbd] ([kbd.c], [kbd.h]): the keyboard driver and its tables.
    - [Mp], [MpThm] ([mp.c], [mp.h]): the processors and the interrupt controller found
      in the tables of the firmware.  [Devices], [DevicesThm] ([picirq.c], [ioapic.c],
      [lapic.c], [timer.c], [uartinit], [ideinit]): drivers over a class [Device] of port
      and register accesses, with the behaviour of each chip as a class of laws and
      a machine that obeys them.  [Boot], [BootThm] ([bootmain.c]): the kernel image
      is in memory when the loader jumps to it.
    - [Runs] has the program logic of these proofs: weakest preconditions that also
      hold at every switch point ([wp], where a crash is a switch), and triples over
      the file system part of the state with the locks that are held.

    User programs
    - [Ulib] ([user/ulib.c], [user/printf.c]), [Umalloc], [UmallocThm] ([user/umalloc.c]: the
      heap is a tiling of the memory from the first break on), [Grep], [GrepMain]
      ([user/grep.c]: the matcher decides the language of its patterns, and the program
      prints the lines it selects), [Sh], [ShThm], [ShRun], [ShMain] ([user/sh.c]: parser
      against a printer, the plumbing of pipes and redirections with what is waited
      for, and the loop over the lines that are typed).
    - [Prodcons] ([user/prodcons-test.c]): all interleavings of producers and consumers.
    - [Unix] (programs, machines that answer system calls, runs), [Progs] ([cat], [wc],
      [cp], [echo], [ls], [init], [forktest] and the other small programs under [user/]) and
      [ProgsThm]: on every machine that keeps the promises of the class [Volume], whose
      files may have limits, or of [Files], without limits, the programs do their work
      and end; [Disk] in that file is such a machine.
    - [Usertests], [UsertestsThm] ([user/usertests.c]): the tests as programs, an evaluator
      for programs, and a machine in memory that passes the tests of files.  [KernelRun]:
      the model of the kernel as a machine for programs, booted from an image of [mkfs],
      whose calls go through [syscall], the page tables, the file system and the
      console; it passes tests and prints a file.  [Smalltests] ([user/sema-test.c],
      [user/sema-prue.c], [user/lseek-test.c], [user/stressfs.c], [user/quantum-test.c],
      [user/zz.c]): the other tests, some of them run on that kernel.

    ** What the theorems show

    Refinements: the log of atomic updates, the buffer cache of a disk, the
    allocator of a pool, the run queues of lists, the block bitmap of a set, the
    user heap of a tiling, a write to a file of its contents, path names of a walk in
    the tree of directories, a pipe of a queue, the console buffer of the lines typed, the
    shell's processes of the meaning of the command.  Safety: one CPU at a time in a
    critical section, semaphores never negative, system call arguments inside the
    process.  Composition: an image
    made by [mkfs] is booted and its files are read by name; programs run on the kernel.
    Liveness and termination: preemption at the end of the quantum, loops
    over lists and inputs, producers and consumers that all finish.  Round trips: numbers
    printed and read, commands printed and parsed, semaphores taken and freed.  Some theorems state behaviour that is
    not what the code means to do: [semup_negative_keeps_lock], [shm_get_maps_slot],
    [mpinit_unexpected], [allocuvm_unmapped_page], [grep_rereads_input],
    [u_memmove_upwards], [writetest1_misses_blocks]; [cp_copies] shows that [cp] does not truncate,
    [shm_create_spec] what happens without a free page, and [mkfs_image] the root directory
    that is too long.

    The theorems on files ([FileThm], [NameiThm]) are about disks whose bitmap is one block,
    as that of [mkfs] is, and a log that holds a transaction; a write has enough free
    blocks, a path is absolute, and two entries of the table of inodes are free.  The
    theorems of [KernelRun] and [Smalltests] are evaluations on one disk image.  The
    semaphores of [SemSystem] are not created with negative values, and not freed under
    a process that waits; no process is created or exits in a run.  The processes of
    [ShRun] are those of a shell that gets the processes and pipes it asks for.  In
    [Prodcons] a semaphore is the counter that [SemSystem] shows it to be.

    ** Bounds

    Loops over tables and buffers recurse on their length.  The bounds that are
    left ([Fuel]) are for loops whose end depends on other processes: [waits] in the
    loops around [sleep] counts wake-ups in vain, and the theorems that go through
    such a loop hold for every bound.  [freerange], [parsecmd], [free], [malloc] and the
    reading loops of user programs take a bound for which the theorems show that it
    is enough.

    ** Not modelled

    Assembly ([bootasm.S], [entry.S], [entryother.S], [swtch.S], [trapasm.S], [initcode.S]) and
    [main.c]: each routine it calls is modelled, but the drivers, the segments and the
    kernel have states of their own, and setting up all of memory does not evaluate; the
    part of the sequence that concerns files is in [KernelRun].  Of [usertests.c]: [mem],
    which keeps a list inside the blocks of [malloc]; [validatetest], which calls the kernel
    with a stack pointer set in assembly; [main], which calls the tests.  [shared-test.c],
    whose [main] only exits.  [sysshared.c] is an older copy of [syssharedmem.c] that is not
    linked.  A process of [KernelRun] is alone: [fork], [exec] and [wait] have no answer
    there.  That the kernel keeps the promises of [Volume] for every program is not proved.
    Several CPUs run at once only in [Spinlock.Smp]; elsewhere one CPU runs the
    kernel and other processes run when it is given away, which is what the
    locks establish for code inside critical sections.  Time, device latency and
    the contents of uninitialised memory are not modelled. *)

From stdpp Require Import base list numbers strings tactics.
From Stdlib Require Import Lia.

Declare Scope xv6_scope.
Delimit Scope xv6_scope with xv6.

Local Open Scope Z_scope.

(** ** Machine integers *)

(** [unsigned int] and the other unsigned C types wrap modulo their width. *)
Definition u32 (z : Z) : Z := z mod 2 ^ 32.
Definition u16 (z : Z) : Z := z mod 2 ^ 16.
Definition u8 (z : Z) : Z := z mod 2 ^ 8.

(** [int] as the compiler stores it: two's complement on 32 bits. *)
Definition s32 (z : Z) : Z := (z + 2 ^ 31) mod 2 ^ 32 - 2 ^ 31.

(** The same for [char] and [short]. *)
Definition s8 (z : Z) : Z := (z + 2 ^ 7) mod 2 ^ 8 - 2 ^ 7.
Definition s16 (z : Z) : Z := (z + 2 ^ 15) mod 2 ^ 16 - 2 ^ 15.

Definition is_u32 (z : Z) : Prop := 0 <= z < 2 ^ 32.
Definition is_s32 (z : Z) : Prop := - 2 ^ 31 <= z < 2 ^ 31.

Lemma u32_range z : is_u32 (u32 z).
Proof. apply Z.mod_pos_bound. lia. Qed.

Lemma u32_small z : is_u32 z -> u32 z = z.
Proof. apply Z.mod_small. Qed.

Lemma u32_idemp z : u32 (u32 z) = u32 z.
Proof. apply u32_small, u32_range. Qed.

Lemma s32_range z : is_s32 (s32 z).
Proof.
  unfold s32, is_s32. pose proof (Z.mod_pos_bound (z + 2 ^ 31) (2 ^ 32)). lia.
Qed.

Lemma s32_small z : is_s32 z -> s32 z = z.
Proof. unfold s32, is_s32. intros H. rewrite Z.mod_small; lia. Qed.

Lemma u32_add_l a b : u32 (u32 a + b) = u32 (a + b).
Proof. unfold u32. apply Zplus_mod_idemp_l. Qed.

Lemma u32_add_r a b : u32 (a + u32 b) = u32 (a + b).
Proof. unfold u32. apply Zplus_mod_idemp_r. Qed.

Lemma u32_sub_l a b : u32 (u32 a - b) = u32 (a - b).
Proof. unfold u32. apply Zminus_mod_idemp_l. Qed.

Lemma u32_sub_r a b : u32 (a - u32 b) = u32 (a - b).
Proof. unfold u32. apply Zminus_mod_idemp_r. Qed.

(** ** Outcomes and the resumption monad

    A kernel routine runs on a state [S] and either returns, panics, does
    something the C language leaves undefined (an access outside an array, a
    null dereference), spins on a lock that another CPU holds, runs out of the
    fuel of the model, or gives up the CPU: [Swtch s k] is a [swtch()] into the
    scheduler in state [s], and [k s'] is the rest of the routine once the
    process is resumed in a state [s'] that the other processes left behind. *)
Inductive res (S A : Type) : Type :=
| Ret (a : A) (s : S)
| Panic (msg : string)
| Stuck (why : string)
| Spin
| Fuel
| Swtch (s : S) (k : S -> res S A).

Arguments Ret {S A} a s.
Arguments Panic {S A} msg.
Arguments Stuck {S A} why.
Arguments Spin {S A}.
Arguments Fuel {S A}.
Arguments Swtch {S A} s k.

Fixpoint rbind {S A B} (r : res S A) (f : A -> S -> res S B) : res S B :=
  match r with
  | Ret a s => f a s
  | Panic m => Panic m
  | Stuck w => Stuck w
  | Spin => Spin
  | Fuel => Fuel
  | Swtch s k => Swtch s (fun s' => rbind (k s') f)
  end.

Definition M (S A : Type) : Type := S -> res S A.

Definition ret {S A} (a : A) : M S A := fun s => Ret a s.
Definition bind {S A B} (m : M S A) (f : A -> M S B) : M S B :=
  fun s => rbind (m s) f.
Definition panic {S A} (msg : string) : M S A := fun _ => Panic msg.
Definition stuck {S A} (why : string) : M S A := fun _ => Stuck why.
Definition get {S} : M S S := fun s => Ret s s.
Definition gets {S A} (f : S -> A) : M S A := fun s => Ret (f s) s.
Definition modify {S} (f : S -> S) : M S unit := fun s => Ret tt (f s).
Definition outoffuel {S A} : M S A := fun _ => Fuel.

(** Read through a pointer that may be null or out of its array. *)
Definition deref {S A} (o : option A) : M S A :=
  match o with Some a => ret a | None => stuck "invalid pointer" end.

Definition when {S} (b : bool) (m : M S unit) : M S unit :=
  if b then m else ret tt.

Notation "x <- m ;; k" := (bind m (fun x => k))
  (at level 20, m at level 99, k at level 200, only parsing) : xv6_scope.
Notation "' p <- m ;; k" := (bind m (fun x => match x with p => k end))
  (at level 20, p pattern, m at level 99, k at level 200, only parsing) : xv6_scope.
Notation "m ;;; k" := (bind m (fun _ => k))
  (at level 100, k at level 200, only parsing) : xv6_scope.

Local Open Scope xv6_scope.

Lemma bind_ret {S A B} (m : M S A) (f : A -> M S B) s a s' :
  m s = Ret a s' -> bind m f s = f a s'.
Proof. unfold bind. now intros ->. Qed.

Lemma bind_panic {S A B} (m : M S A) (f : A -> M S B) s msg :
  m s = Panic msg -> bind m f s = Panic msg.
Proof. unfold bind. now intros ->. Qed.

Lemma bind_stuck {S A B} (m : M S A) (f : A -> M S B) s msg :
  m s = Stuck msg -> bind m f s = Stuck msg.
Proof. unfold bind. now intros ->. Qed.

Lemma bind_swtch {S A B} (m : M S A) (f : A -> M S B) s s1 k :
  m s = Swtch s1 k -> bind m f s = Swtch s1 (fun s' => rbind (k s') f).
Proof. unfold bind. now intros ->. Qed.

Lemma bind_get {S B} (f : S -> M S B) s : bind get f s = f s s.
Proof. reflexivity. Qed.

Lemma bind_gets {S A B} (g : S -> A) (f : A -> M S B) s :
  bind (gets g) f s = f (g s) s.
Proof. reflexivity. Qed.

Lemma bind_modify {S B} (g : S -> S) (f : unit -> M S B) s :
  bind (modify g) f s = f tt (g s).
Proof. reflexivity. Qed.

Lemma bind_retm {S A B} (a : A) (f : A -> M S B) s : bind (ret a) f s = f a s.
Proof. reflexivity. Qed.

Lemma bind_bind {S A B C} (m : M S A) (f : A -> M S B) (g : B -> M S C) s a s' :
  m s = Ret a s' -> bind (bind m f) g s = bind (f a) g s'.
Proof. unfold bind. now intros ->. Qed.

(** Two outcomes that agree up to the continuations they suspend on. *)
Fixpoint req {S A} (r1 r2 : res S A) : Prop :=
  match r1, r2 with
  | Ret a s, Ret b t => a = b /\ s = t
  | Panic m, Panic n => m = n
  | Stuck m, Stuck n => m = n
  | Spin, Spin => True
  | Fuel, Fuel => True
  | Swtch s k, Swtch t l => s = t /\ forall x, req (k x) (l x)
  | _, _ => False
  end.

Lemma req_refl {S A} (r : res S A) : req r r.
Proof. induction r; simpl; auto. Qed.

Lemma rbind_assoc {S A B C} (r : res S A) (f : A -> S -> res S B)
    (g : B -> S -> res S C) :
  req (rbind (rbind r f) g) (rbind r (fun a s => rbind (f a s) g)).
Proof. induction r; simpl; auto using req_refl. Qed.

(** Run a routine that works on a part [S] of a larger state [T]. *)
Fixpoint rzoom {T S A} (g : T -> S) (put : S -> T -> T) (t : T) (r : res S A) : res T A :=
  match r with
  | Ret a s => Ret a (put s t)
  | Panic m => Panic m
  | Stuck w => Stuck w
  | Spin => Spin
  | Fuel => Fuel
  | Swtch s k => Swtch (put s t) (fun t' => rzoom g put t' (k (g t')))
  end.

Definition zoom {T S A} (g : T -> S) (put : S -> T -> T) (m : M S A) : M T A :=
  fun t => rzoom g put t (m (g t)).

Lemma zoom_ret {T S A} (g : T -> S) put (m : M S A) t a s :
  m (g t) = Ret a s -> zoom g put m t = Ret a (put s t).
Proof. unfold zoom. now intros ->. Qed.

Lemma zoom_panic {T S A} (g : T -> S) put (m : M S A) t msg :
  m (g t) = Panic msg -> zoom g put m t = Panic msg.
Proof. unfold zoom. now intros ->. Qed.

Lemma zoom_spin {T S A} (g : T -> S) put (m : M S A) t :
  m (g t) = Spin -> zoom g put m t = Spin.
Proof. unfold zoom. now intros ->. Qed.

(** ** Scans of a C array

    [scan p l] is the index of the first element that satisfies [p], the
    result of a [for] loop over an array that stops at the first match. *)
Fixpoint scan {A} (p : A -> bool) (l : list A) : option nat :=
  match l with
  | [] => None
  | x :: l' => if p x then Some 0%nat else S <$> scan p l'
  end.

Lemma scan_Some {A} (p : A -> bool) (l : list A) i :
  scan p l = Some i <->
  (exists x, l !! i = Some x /\ p x = true) /\
  forall j y, (j < i)%nat -> l !! j = Some y -> p y = false.
Proof.
  revert i. induction l as [|a l IH]; intros i; simpl.
  - split; [done | intros [[x [Hx _]] _]; by rewrite lookup_nil in Hx].
  - destruct (p a) eqn:Ha.
    + split.
      * intros [= <-]. split; [eauto | lia].
      * intros [[x [Hx Hp]] Hmin]. destruct i as [|i]; [done|].
        specialize (Hmin 0%nat a ltac:(lia) eq_refl). congruence.
    + rewrite fmap_Some. split.
      * intros (k & Hk & ->). apply IH in Hk as [[x [Hx Hp]] Hmin].
        split; [eauto|]. intros [|j] y Hj Hy; simpl in Hy; [congruence|].
        eapply Hmin; [|done]. lia.
      * intros [[x [Hx Hp]] Hmin]. destruct i as [|i]; simpl in Hx; [congruence|].
        exists i. split; [|done]. apply IH. split; [eauto|].
        intros j y Hj Hy. apply (Hmin (S j) y); [lia | done].
Qed.

Lemma scan_None {A} (p : A -> bool) (l : list A) :
  scan p l = None <-> forall i x, l !! i = Some x -> p x = false.
Proof.
  induction l as [|a l IH]; simpl.
  - split; [intros _ i x H; by rewrite lookup_nil in H | done].
  - destruct (p a) eqn:Ha.
    + split; [done|]. intros H. specialize (H 0%nat a eq_refl). congruence.
    + rewrite fmap_None, IH. split.
      * intros H [|i] x Hx; simpl in Hx; [congruence | eauto].
      * intros H i x Hx. apply (H (S i) x Hx).
Qed.

Lemma scan_lt {A} (p : A -> bool) (l : list A) i :
  scan p l = Some i -> (i < length l)%nat.
Proof. intros [[x [Hx _]] _]%scan_Some. by eapply lookup_lt_Some. Qed.

(** A C array indexed by an [int]: defined only inside its bounds. *)
Definition aget {A} (l : list A) (z : Z) : option A :=
  if (0 <=? z) && (z <? Z.of_nat (length l)) then l !! Z.to_nat z else None.

Definition aset {A} (l : list A) (z : Z) (x : A) : list A :=
  if 0 <=? z then <[Z.to_nat z := x]> l else l.

Lemma aget_Some {A} (l : list A) z x :
  aget l z = Some x <-> 0 <= z /\ l !! Z.to_nat z = Some x.
Proof.
  unfold aget. split.
  - destruct (Z.leb_spec 0 z); simpl; [|done].
    destruct (Z.ltb_spec z (Z.of_nat (length l))); simpl; [|done]. auto.
  - intros [Hz Hx]. pose proof (lookup_lt_Some _ _ _ Hx).
    destruct (Z.leb_spec 0 z); simpl; [|lia].
    destruct (Z.ltb_spec z (Z.of_nat (length l))); simpl; [done | lia].
Qed.

Lemma aget_in {A} (l : list A) z :
  0 <= z < Z.of_nat (length l) -> exists x, aget l z = Some x.
Proof.
  intros Hz. destruct (lookup_lt_is_Some_2 l (Z.to_nat z)) as [x Hx]; [lia|].
  exists x. apply aget_Some. split; [lia | done].
Qed.

Lemma length_aset {A} (l : list A) z x : length (aset l z x) = length l.
Proof. unfold aset. destruct (0 <=? z); [apply length_insert | done]. Qed.

Lemma aget_aset_eq {A} (l : list A) z x y :
  aget l z = Some y -> aget (aset l z x) z = Some x.
Proof.
  intros [Hz Hy]%aget_Some. apply aget_Some. split; [done|]. unfold aset.
  destruct (Z.leb_spec 0 z); [|lia].
  apply list_lookup_insert_eq. by eapply lookup_lt_Some.
Qed.

Lemma aget_aset_ne {A} (l : list A) z z' x :
  z <> z' -> aget (aset l z x) z' = aget l z'.
Proof.
  intros Hne. unfold aget. rewrite length_aset. unfold aset.
  destruct (Z.leb_spec 0 z'); simpl; [|done].
  destruct (z' <? Z.of_nat (length l)); [|done].
  destruct (Z.leb_spec 0 z); [|done].
  apply list_lookup_insert_ne. lia.
Qed.

Lemma alter_as_insert {A} (f : A -> A) (l : list A) i x :
  l !! i = Some x -> alter f i l = <[i := f x]> l.
Proof.
  revert i. induction l as [|a l IH]; intros [|i] H; simpl in *; simplify_eq; [done|].
  f_equal. by apply IH.
Qed.

Lemma alter_alter {A} (f g : A -> A) (l : list A) i :
  alter f i (alter g i l) = alter (fun x => f (g x)) i l.
Proof.
  revert i. induction l as [|a l IH]; intros [|i]; simpl; try done. f_equal. apply IH.
Qed.

Lemma alter_insert_same {A} (f : A -> A) (l : list A) i x :
  alter f i (<[i := x]> l) = <[i := f x]> l.
Proof.
  revert i. induction l as [|a l IH]; intros [|i]; simpl; try done. f_equal. apply IH.
Qed.

(** ** Automation *)

Create HintDb xv6.

#[export] Hint Resolve u32_range s32_range req_refl : xv6.
#[export] Hint Rewrite @length_insert @length_aset : xv6.

(** Run the administrative steps of a routine. *)
Ltac msimp :=
  repeat first
    [ rewrite bind_get | rewrite bind_gets | rewrite bind_modify | rewrite bind_retm
    | progress cbn beta iota delta [negb andb orb when deref fst snd] ].

(** Run one bound step of a routine whose outcome is known. *)
Ltac rstep H := rewrite (bind_ret _ _ _ _ _ H).

(** Decide every comparison of a goal that is settled by its hypotheses. *)
Ltac bdestr :=
  repeat match goal with
  | |- context [Z.ltb ?a ?b] => destruct (Z.ltb_spec a b); try lia
  | |- context [Z.leb ?a ?b] => destruct (Z.leb_spec a b); try lia
  | |- context [Z.eqb ?a ?b] => destruct (Z.eqb_spec a b); try lia
  end; simpl.
