(* ===== verification/Params.v ===== *)
(** * Constants and address arithmetic

    The limits of [param.h], the interrupt numbers of [traps.h], the memory layout of [memlayout.h] and the page
    macros of [mmu.h], as functions on 32-bit values, with the arithmetic facts
    that the virtual-memory proofs use. *)

From stdpp Require Import base list numbers strings tactics.
From Stdlib Require Import Lia Btauto.
From S2P Require Import Prelude.

Local Open Scope Z_scope.

(** ** param.h *)
Definition NPROC : Z := 64.
Definition KSTACKSIZE : Z := 4096.
Definition NCPU : Z := 8.
Definition NOFILE : Z := 16.
Definition NFILE : Z := 100.
Definition NBUF : Z := 10.
Definition NINODE : Z := 50.
Definition NDEV : Z := 10.
Definition ROOTDEV : Z := 1.
Definition MAXARG : Z := 32.
Definition LOGSIZE : Z := 10.
Definition QUANTUM : Z := 6.
Definition MLF_LEVELS : Z := 4.
Definition SIZEMLF : Z := 4.
Definition MAXSEM : Z := 16.
Definition MAXSEMPROC : Z := 4.
Definition MAXSHM : Z := 12.
Definition MAXSHMPROC : Z := 4.

(** ** traps.h *)
Definition T_SYSCALL : Z := 64.
Definition T_IRQ0 : Z := 32.
Definition IRQ_TIMER : Z := 0.
Definition IRQ_KBD : Z := 1.
Definition IRQ_COM1 : Z := 4.
Definition IRQ_IDE : Z := 14.
Definition IRQ_ERROR : Z := 19.
Definition IRQ_SPURIOUS : Z := 31.

(** ** memlayout.h *)
Definition EXTMEM : Z := 0x100000.
Definition PHYSTOP : Z := 0xE000000.
Definition DEVSPACE : Z := 0xFE000000.
Definition KERNBASE : Z := 0x80000000.
Definition KERNLINK : Z := KERNBASE + EXTMEM.
Definition v2p (a : Z) : Z := u32 (a - KERNBASE).
Definition p2v (a : Z) : Z := u32 (a + KERNBASE).

(** ** mmu.h *)
Definition NPDENTRIES : Z := 1024.
Definition NPTENTRIES : Z := 1024.
Definition PGSIZE : Z := 4096.
Definition PTXSHIFT : Z := 12.
Definition PDXSHIFT : Z := 22.
Definition PDX (va : Z) : Z := Z.land (Z.shiftr (u32 va) PDXSHIFT) 0x3FF.
Definition PTX (va : Z) : Z := Z.land (Z.shiftr (u32 va) PTXSHIFT) 0x3FF.
Definition PGADDR (d t o : Z) : Z :=
  u32 (Z.lor (Z.lor (Z.shiftl d PDXSHIFT) (Z.shiftl t PTXSHIFT)) o).
Definition PGROUNDUP (sz : Z) : Z :=
  Z.land (u32 (sz + PGSIZE - 1)) (u32 (Z.lnot (PGSIZE - 1))).
Definition PGROUNDDOWN (a : Z) : Z := Z.land (u32 a) (u32 (Z.lnot (PGSIZE - 1))).
Definition PTE_P : Z := 0x001.
Definition PTE_W : Z := 0x002.
Definition PTE_U : Z := 0x004.
Definition PTE_ADDR (pte : Z) : Z := Z.land (u32 pte) (u32 (Z.lnot 0xFFF)).
Definition PTE_FLAGS (pte : Z) : Z := Z.land (u32 pte) 0xFFF.

(** [x & flag], read as a C condition. *)
Definition bset (x flag : Z) : bool := negb (Z.land x flag =? 0).

(** ** Arithmetic of the macros *)

Lemma land_page_mask x : is_u32 x -> Z.land x 0xFFFFF000 = x - x mod 4096.
Proof.
  intros Hx.
  rewrite (Z.div_mod x 4096) at 2 by lia.
  replace (4096 * (x / 4096) + x mod 4096 - x mod 4096) with (x / 4096 * 2 ^ 12) by lia.
  rewrite <- Z.shiftl_mul_pow2 by lia.
  change 4096 with (2 ^ 12). rewrite <- Z.shiftr_div_pow2 by lia.
  apply Z.bits_inj'. intros n Hn.
  rewrite Z.land_spec, Z.shiftl_spec by done.
  change 0xFFFFF000 with (Z.shiftl (Z.ones 20) 12). rewrite Z.shiftl_spec by done.
  destruct (Z.lt_ge_cases n 12).
  - rewrite !(Z.testbit_neg_r _ (n - 12)) by lia. btauto.
  - rewrite Z.shiftr_spec by lia. replace (n - 12 + 12) with n by lia.
    destruct (Z.lt_ge_cases n 32).
    + rewrite Z.ones_spec_low by lia. btauto.
    + destruct (Z.eq_dec x 0) as [->|Hx0]; [now rewrite Z.bits_0|].
      rewrite (Z.bits_above_log2 x n); [btauto | unfold is_u32 in Hx; lia |].
      assert (Z.log2 x < 32); [|lia]. apply Z.log2_lt_pow2; unfold is_u32 in Hx; lia.
Qed.

Lemma land_ones10 x : Z.land x 0x3FF = x mod 1024.
Proof. change 0x3FF with (Z.ones 10). now rewrite Z.land_ones by lia. Qed.

Lemma land_ones12 x : Z.land x 0xFFF = x mod 4096.
Proof. change 0xFFF with (Z.ones 12). now rewrite Z.land_ones by lia. Qed.

Lemma PGROUNDDOWN_eq a : is_u32 a -> PGROUNDDOWN a = a - a mod 4096.
Proof.
  intros Ha. unfold PGROUNDDOWN. rewrite u32_small by done.
  now apply land_page_mask.
Qed.

Lemma PGROUNDUP_eq sz : 0 <= sz <= 2 ^ 32 - 4096 ->
  PGROUNDUP sz = (sz + 4095) / 4096 * 4096.
Proof.
  intros Hs. unfold PGROUNDUP, PGSIZE.
  rewrite (u32_small (sz + 4096 - 1)) by (unfold is_u32; lia).
  change (u32 (Z.lnot (4096 - 1))) with 0xFFFFF000.
  rewrite land_page_mask by (unfold is_u32; lia).
  replace (sz + 4096 - 1) with (sz + 4095) by lia.
  pose proof (Z.div_mod (sz + 4095) 4096). lia.
Qed.

Lemma PTE_ADDR_eq p : is_u32 p -> PTE_ADDR p = p - p mod 4096.
Proof. apply PGROUNDDOWN_eq. Qed.

Lemma PTE_FLAGS_eq p : is_u32 p -> PTE_FLAGS p = p mod 4096.
Proof. intros Hp. unfold PTE_FLAGS. now rewrite u32_small, land_ones12. Qed.

Lemma PDX_eq va : is_u32 va -> PDX va = va / 2 ^ 22.
Proof.
  intros Ha. unfold PDX, PDXSHIFT. rewrite u32_small by done.
  rewrite Z.shiftr_div_pow2, land_ones10 by lia.
  apply Z.mod_small. unfold is_u32 in Ha. split; [apply Z.div_pos; lia|].
  apply Z.div_lt_upper_bound; lia.
Qed.

Lemma PTX_eq va : is_u32 va -> PTX va = va / 4096 mod 1024.
Proof.
  intros Ha. unfold PTX, PTXSHIFT. rewrite u32_small by done.
  now rewrite Z.shiftr_div_pow2, land_ones10 by lia.
Qed.

Lemma PDX_range va : 0 <= PDX va < 1024.
Proof. unfold PDX. rewrite land_ones10. apply Z.mod_pos_bound. lia. Qed.

Lemma PTX_range va : 0 <= PTX va < 1024.
Proof. unfold PTX. rewrite land_ones10. apply Z.mod_pos_bound. lia. Qed.

(** A page-aligned number and one below 4096 have no common bit. *)
Lemma lor_page_flags pa f : pa mod 4096 = 0 -> 0 <= f < 4096 -> Z.lor pa f = pa + f.
Proof.
  intros Hpa Hf.
  rewrite <- Z.lxor_lor, Z.add_nocarry_lxor; [done| |].
  all: replace pa with (Z.shiftl (pa / 4096) 12)
    by (rewrite Z.shiftl_mul_pow2 by lia; change (2 ^ 12) with 4096;
        pose proof (Z.div_mod pa 4096); lia).
  all: apply Z.bits_inj'; intros n Hn; rewrite Z.land_spec, Z.shiftl_spec, Z.bits_0 by done.
  all: destruct (Z.lt_ge_cases n 12);
    [ rewrite (Z.testbit_neg_r _ (n - 12)) by lia; done |].
  all: destruct (Z.eq_dec f 0) as [->|]; [rewrite Z.bits_0; btauto|].
  all: rewrite (Z.bits_above_log2 f n); [btauto | lia |].
  all: assert (Z.log2 f < 12); [apply Z.log2_lt_pow2; lia | lia].
Qed.

(** Modes of [open] ([fcntl.h]). *)
Definition O_RDONLY : Z := 0x000.
Definition O_WRONLY : Z := 0x001.
Definition O_RDWR : Z := 0x002.
Definition O_CREATE : Z := 0x200.
