(* ===== verification/StringC.v ===== *)
(** * Memory and string routines

    [string.c]: [memset], [memcmp], [memmove], [strncmp], [strncpy],
    [safestrcpy] and [strlen] on byte-addressed memory, loop by loop as the
    source writes them, with the functional behaviour of each.  The word
    accesses of [x86.h] ([stosl]) and of C ([uint] loads and stores) are
    little-endian. *)

From stdpp Require Import base list numbers strings tactics.
From Stdlib Require Import Lia.
From S2P Require Import Prelude Params.

Local Open Scope Z_scope.

(** Memory: the byte at each address. *)
Definition memory := Z -> Z.

Definition wr (m : memory) (a v : Z) : memory := fun x => if x =? a then v else m x.

Definition load32 (m : memory) (a : Z) : Z :=
  m a + 256 * m (a + 1) + 65536 * m (a + 2) + 16777216 * m (a + 3).

Definition store32 (m : memory) (a v : Z) : memory :=
  wr (wr (wr (wr m a (u8 v)) (a + 1) (u8 (v / 256)))
       (a + 2) (u8 (v / 65536))) (a + 3) (u8 (v / 16777216)).

(** [n] times the same byte, or the same word ([rep stosb], [rep stosl]). *)
Fixpoint stosb (m : memory) (a c : Z) (n : nat) : memory :=
  match n with
  | O => m
  | S n => stosb (wr m a (u8 c)) (a + 1) c n
  end.

Fixpoint stosl (m : memory) (a c : Z) (n : nat) : memory :=
  match n with
  | O => m
  | S n => stosl (store32 m a c) (a + 4) c n
  end.

Definition memset (m : memory) (dst c n : Z) : memory :=
  if (dst mod 4 =? 0) && (n mod 4 =? 0) then
    let c := Z.land c 0xFF in
    stosl m dst
      (Z.lor (Z.lor (Z.lor (Z.shiftl c 24) (Z.shiftl c 16)) (Z.shiftl c 8)) c)
      (Z.to_nat (n / 4))
  else stosb m dst c (Z.to_nat n).

Fixpoint memcmp (m : memory) (s1 s2 : Z) (n : nat) : Z :=
  match n with
  | O => 0
  | S n => if negb (m s1 =? m s2) then m s1 - m s2 else memcmp m (s1 + 1) (s2 + 1) n
  end.

(** [while(n-- > 0) *--d = *--s;] *)
Fixpoint copy_down (m : memory) (d s : Z) (n : nat) : memory :=
  match n with
  | O => m
  | S n => copy_down (wr m (d - 1) (m (s - 1))) (d - 1) (s - 1) n
  end.

(** [while(n-- > 0) *d++ = *s++;] *)
Fixpoint copy_up (m : memory) (d s : Z) (n : nat) : memory :=
  match n with
  | O => m
  | S n => copy_up (wr m d (m s)) (d + 1) (s + 1) n
  end.

Definition memmove (m : memory) (dst src n : Z) : memory :=
  if (src <? dst) && (dst <? src + n)
  then copy_down m (dst + n) (src + n) (Z.to_nat n)
  else copy_up m dst src (Z.to_nat n).

Definition memcpy (m : memory) (dst src n : Z) : memory := memmove m dst src n.

Fixpoint strncmp (m : memory) (p q : Z) (n : nat) : Z :=
  match n with
  | O => 0
  | S n' =>
      if negb (m p =? 0) && (m p =? m q) then strncmp m (p + 1) (q + 1) n'
      else u8 (m p) - u8 (m q)
  end.

(** [while(n-- > 0) *s++ = 0;] *)
Fixpoint zero_up (m : memory) (s : Z) (n : nat) : memory :=
  match n with
  | O => m
  | S n => zero_up (wr m s 0) (s + 1) n
  end.

(** [while(n-- > 0 && ( *s++ = *t++ ) != 0);] followed by the zero fill. *)
Fixpoint strncpy (m : memory) (s t : Z) (n : nat) : memory :=
  match n with
  | O => m
  | S n =>
      let m := wr m s (m t) in
      if m s =? 0 then zero_up m (s + 1) n else strncpy m (s + 1) (t + 1) n
  end.

(** [while(--n > 0 && ( *s++ = *t++ ) != 0); *s = 0;] for [n] already decremented. *)
Fixpoint safestrcpy_loop (m : memory) (s t : Z) (n : nat) : memory :=
  match n with
  | O => wr m s 0
  | S n =>
      let m := wr m s (m t) in
      if m s =? 0 then wr m (s + 1) 0 else safestrcpy_loop m (s + 1) (t + 1) n
  end.

Definition safestrcpy (m : memory) (s t n : Z) : memory :=
  if n <=? 0 then m else safestrcpy_loop m s t (Z.to_nat (n - 1)).

Fixpoint strlen (fuel : nat) (m : memory) (s : Z) (n : Z) : option Z :=
  match fuel with
  | O => None
  | S fuel => if m (s + n) =? 0 then Some n else strlen fuel m s (n + 1)
  end.

(** ** Single accesses *)

Lemma wr_eq m a v : wr m a v a = v.
Proof. unfold wr. by rewrite Z.eqb_refl. Qed.

Lemma wr_ne m a v x : x <> a -> wr m a v x = m x.
Proof. intros. unfold wr. destruct (Z.eqb_spec x a); done. Qed.

(** Memory whose cells hold bytes. *)
Definition bytes (m : memory) : Prop := forall x, 0 <= m x < 256.

Lemma u8_range v : 0 <= u8 v < 256.
Proof. apply Z.mod_pos_bound. lia. Qed.

Lemma u8_small v : 0 <= v < 256 -> u8 v = v.
Proof. apply Z.mod_small. Qed.

Lemma bytes_wr m a v : bytes m -> 0 <= v < 256 -> bytes (wr m a v).
Proof. intros H Hv x. unfold wr. destruct (x =? a); auto. Qed.

Lemma bytes_store32 m a v : bytes m -> bytes (store32 m a v).
Proof. intros H. unfold store32. auto 10 using bytes_wr, u8_range. Qed.

Lemma store32_other m a v x : x < a \/ a + 4 <= x -> store32 m a v x = m x.
Proof. intros H. unfold store32. rewrite !wr_ne by lia. done. Qed.

Lemma load32_ext m m' a :
  (forall x, a <= x < a + 4 -> m x = m' x) -> load32 m a = load32 m' a.
Proof. intros H. unfold load32. rewrite !H by lia. done. Qed.

Lemma load32_range m a : bytes m -> is_u32 (load32 m a).
Proof.
  intros H. unfold load32, is_u32.
  pose proof (H a). pose proof (H (a + 1)). pose proof (H (a + 2)). pose proof (H (a + 3)). lia.
Qed.

Lemma load_store32_eq m a v : is_u32 v -> load32 (store32 m a v) a = v.
Proof.
  intros Hv. unfold load32, store32, wr, u8, is_u32 in *.
  repeat match goal with |- context [?x =? ?y] => destruct (Z.eqb_spec x y); try lia end.
  change (2 ^ 8) with 256. Z.div_mod_to_equations. lia.
Qed.

Lemma load_store32_ne m a b v :
  b + 4 <= a \/ a + 4 <= b -> load32 (store32 m a v) b = load32 m b.
Proof. intros H. apply load32_ext. intros x Hx. apply store32_other. lia. Qed.

(** ** Fills *)

(** The specification of a fill: bytes [a .. a+n) become [c]. *)
Definition fill (m : memory) (a n c : Z) : memory :=
  fun x => if (a <=? x) && (x <? a + n) then c else m x.

(** The specification of a copy: as if through a temporary buffer. *)
Definition copied (m : memory) (dst src n : Z) : memory :=
  fun x => if (dst <=? x) && (x <? dst + n) then m (src + (x - dst)) else m x.

Lemma stosb_spec m a c n x : stosb m a c n x = fill m a (Z.of_nat n) (u8 c) x.
Proof.
  revert m a. induction n as [|n IH]; intros m a; simpl.
  - unfold fill. bdestr; done.
  - rewrite IH. unfold fill, wr. rewrite Nat2Z.inj_succ. bdestr; done.
Qed.

Lemma byte_of_splat c k : 0 <= c < 256 ->
  k = 0 \/ k = 8 \/ k = 16 \/ k = 24 ->
  u8 (Z.lor (Z.lor (Z.lor (Z.shiftl c 24) (Z.shiftl c 16)) (Z.shiftl c 8)) c / 2 ^ k) = c.
Proof.
  intros Hc Hk. unfold u8. rewrite <- Z.shiftr_div_pow2 by lia.
  rewrite <- Z.land_ones by lia. apply Z.bits_inj'. intros n Hn.
  rewrite Z.land_spec, Z.shiftr_spec, !Z.lor_spec, !Z.shiftl_spec by lia.
  assert (Hz : forall i, 8 <= i -> Z.testbit c i = false).
  { intros i Hi. destruct (Z.eq_dec c 0) as [->|]; [apply Z.bits_0|].
    apply Z.bits_above_log2; [lia|]. assert (Z.log2 c < 8); [|lia].
    apply Z.log2_lt_pow2; lia. }
  destruct (Z.lt_ge_cases n 8).
  - rewrite Z.ones_spec_low, andb_true_r by lia.
    destruct Hk as [ -> | [ -> | [ -> | -> ]]].
    + rewrite !(Z.testbit_neg_r c (_ - _)) by lia. simpl. f_equal. lia.
    + rewrite (Hz (n + 8)) by lia. rewrite (Z.testbit_neg_r c (n + 8 - 24)) by lia.
      rewrite (Z.testbit_neg_r c (n + 8 - 16)) by lia.
      simpl. rewrite orb_false_r. f_equal. lia.
    + rewrite (Hz (n + 16)), (Hz (n + 16 - 8)) by lia.
      rewrite (Z.testbit_neg_r c (n + 16 - 24)) by lia.
      simpl. rewrite !orb_false_r. f_equal. lia.
    + rewrite (Hz (n + 24)), (Hz (n + 24 - 8)), (Hz (n + 24 - 16)) by lia.
      rewrite !orb_false_r. f_equal. lia.
  - rewrite Z.ones_spec_high, andb_false_r, Hz by lia. done.
Qed.

Lemma stosl_spec m a c n x : 0 <= c < 256 ->
  stosl m a (Z.lor (Z.lor (Z.lor (Z.shiftl c 24) (Z.shiftl c 16)) (Z.shiftl c 8)) c) n x
  = fill m a (4 * Z.of_nat n) c x.
Proof.
  intros Hc. revert m a. induction n as [|n IH]; intros m a; simpl stosl.
  - unfold fill. bdestr; done.
  - rewrite IH. unfold fill, store32.
    pose proof (byte_of_splat c 0 Hc ltac:(auto)) as B0.
    pose proof (byte_of_splat c 8 Hc ltac:(auto)) as B1.
    pose proof (byte_of_splat c 16 Hc ltac:(auto)) as B2.
    pose proof (byte_of_splat c 24 Hc ltac:(auto)) as B3.
    rewrite Z.pow_0_r, Z.div_1_r in B0. change (2 ^ 8) with 256 in B1.
    change (2 ^ 16) with 65536 in B2. change (2 ^ 24) with 16777216 in B3.
    rewrite B0, B1, B2, B3. unfold wr. rewrite Nat2Z.inj_succ. bdestr; done.
Qed.

(** Both paths of [memset] fill the range with the low byte of [c]. *)
Lemma memset_fill m dst c n x : 0 <= n -> memset m dst c n x = fill m dst n (u8 c) x.
Proof.
  intros Hn. unfold memset.
  destruct (Z.eqb_spec (dst mod 4) 0) as [Hd|]; simpl; [destruct (Z.eqb_spec (n mod 4) 0) as [Hm|]|].
  - assert (Hc : Z.land c 0xFF = u8 c) by now (change 0xFF with (Z.ones 8); rewrite Z.land_ones by lia).
    rewrite Hc, stosl_spec by apply u8_range. f_equal. pose proof (Z.div_mod n 4). lia.
  - rewrite stosb_spec. by rewrite Z2Nat.id.
  - rewrite stosb_spec. by rewrite Z2Nat.id.
Qed.

(** ** Copies *)

Lemma copy_up_spec m d s n x :
  d <= s \/ s + Z.of_nat n <= d -> copy_up m d s n x = copied m d s (Z.of_nat n) x.
Proof.
  revert m d s. induction n as [|n IH]; intros m d s H.
  - unfold copied. simpl. bdestr; done.
  - simpl. rewrite IH by lia. unfold copied, wr. rewrite Nat2Z.inj_succ in *.
    bdestr; try done; f_equal; lia.
Qed.

Lemma copy_down_spec m d s n x :
  s <= d -> copy_down m d s n x = copied m (d - Z.of_nat n) (s - Z.of_nat n) (Z.of_nat n) x.
Proof.
  revert m d s. induction n as [|n IH]; intros m d s H.
  - unfold copied. simpl. bdestr; done.
  - simpl. rewrite IH by lia. unfold copied, wr. rewrite Nat2Z.inj_succ in *.
    bdestr; try done; f_equal; lia.
Qed.

Lemma memmove_copied m dst src n x : 0 <= n -> memmove m dst src n x = copied m dst src n x.
Proof.
  intros Hn. unfold memmove.
  destruct (Z.ltb_spec src dst); simpl; [destruct (Z.ltb_spec dst (src + n))|].
  - rewrite copy_down_spec by lia. rewrite Z2Nat.id by done. f_equal; lia.
  - rewrite copy_up_spec by lia. by rewrite Z2Nat.id.
  - rewrite copy_up_spec by lia. by rewrite Z2Nat.id.
Qed.

(** ** Strings *)

(** The bytes of the string at [p], cut at the first NUL or after [n] bytes. *)
Fixpoint cstr (m : memory) (p : Z) (n : nat) : list Z :=
  match n with
  | O => []
  | S n => if m p =? 0 then [] else m p :: cstr m (p + 1) n
  end.

Lemma cstr_ext m m' p n :
  (forall x, p <= x < p + Z.of_nat n -> m x = m' x) -> cstr m p n = cstr m' p n.
Proof.
  revert p. induction n as [|n IH]; intros p H; [done|]. simpl.
  rewrite (H p) by lia. destruct (m' p =? 0); [done|]. f_equal.
  apply IH. intros x Hx. apply H. lia.
Qed.

Lemma length_cstr m p n : (length (cstr m p n) <= n)%nat.
Proof. revert p. induction n as [|n IH]; intros p; simpl; [lia|].
  destruct (m p =? 0); simpl; [lia|]. pose proof (IH (p + 1)). lia. Qed.

Lemma cstr_short m p n :
  (length (cstr m p (Z.to_nat n)) < Z.to_nat n)%nat ->
  exists i, 0 <= i < n /\ m (p + i) = 0.
Proof.
  intros H. remember (Z.to_nat n) as k eqn:E. revert n p E H.
  induction k as [|k IH]; intros n p E H; [lia|]. simpl in H.
  destruct (Z.eqb_spec (m p) 0) as [H0|H0].
  - exists 0. rewrite Z.add_0_r. split; [lia | done].
  - destruct (IH (n - 1) (p + 1)) as (i & Hi & Hm); [lia | simpl in H; lia |].
    exists (i + 1). split; [lia|]. by replace (p + (i + 1)) with (p + 1 + i) by lia.
Qed.

Lemma strncmp_zero m p q n :
  bytes m -> (strncmp m p q n = 0 <-> cstr m p n = cstr m q n).
Proof.
  intros Hb. revert p q. induction n as [|n IH]; intros p q; [done|]. simpl.
  pose proof (Hb p). pose proof (Hb q).
  destruct (Z.eqb_spec (m p) 0) as [Hp|Hp]; simpl.
  - rewrite Hp. rewrite (u8_small (m q)) by lia. change (u8 0) with 0.
    destruct (Z.eqb_spec (m q) 0); split; intros; try done; lia.
  - destruct (Z.eqb_spec (m p) (m q)) as [E|E].
    + rewrite IH, <- E. destruct (Z.eqb_spec (m p) 0); [lia|].
      split; [by intros -> | by intros [= ->]].
    + rewrite !u8_small by lia. split; [lia|].
      destruct (Z.eqb_spec (m q) 0); [done|]. intros [= ? ?]. lia.
Qed.

Lemma zero_up_spec m s n x : zero_up m s n x = fill m s (Z.of_nat n) 0 x.
Proof.
  revert m s. induction n as [|n IH]; intros m s; simpl.
  - unfold fill. bdestr; done.
  - rewrite IH. unfold fill, wr. rewrite Nat2Z.inj_succ. bdestr; done.
Qed.

Lemma strncpy_outside m s t n x :
  x < s \/ s + Z.of_nat n <= x -> strncpy m s t n x = m x.
Proof.
  revert m s t. induction n as [|n IH]; intros m s t H; [done|]. simpl.
  destruct (wr m s (m t) s =? 0).
  - rewrite zero_up_spec. unfold fill, wr. rewrite Nat2Z.inj_succ in *. bdestr; done.
  - rewrite IH by lia. apply wr_ne. lia.
Qed.

(** [strncpy] between disjoint buffers: the copied string, then zeros. *)
Lemma strncpy_inside m s t n i :
  s + Z.of_nat n <= t \/ t + Z.of_nat n <= s -> (i < n)%nat ->
  strncpy m s t n (s + Z.of_nat i) = default 0 (cstr m t n !! i).
Proof.
  revert m s t i. induction n as [|n IH]; intros m s t i Hd Hi; [lia|]. simpl.
  rewrite wr_eq. destruct (Z.eqb_spec (m t) 0) as [Ht|Ht].
  - rewrite zero_up_spec, lookup_nil. unfold fill, wr. rewrite Ht. simpl. bdestr; done.
  - destruct i as [|i].
    + rewrite strncpy_outside by lia. rewrite Z.add_0_r, wr_eq. done.
    + simpl. replace (s + Z.of_nat (S i)) with (s + 1 + Z.of_nat i) by lia.
      rewrite IH by lia. f_equal. f_equal. apply cstr_ext. intros x Hx.
      apply wr_ne. lia.
Qed.

Lemma cstr_lookup m p n i b :
  cstr m p n !! i = Some b -> m (p + Z.of_nat i) = b /\ b <> 0.
Proof.
  revert p i. induction n as [|n IH]; intros p i; simpl; [done|].
  destruct (Z.eqb_spec (m p) 0); [done|].
  destruct i as [|i]; simpl.
  - intros [= <-]. by rewrite Z.add_0_r.
  - intros H%IH. by replace (p + Z.of_nat (S i)) with (p + 1 + Z.of_nat i) by lia.
Qed.

(** A buffer whose cells are a string padded with zeros holds that string. *)
Lemma cstr_of_cells m p n (l : list Z) :
  (length l <= n)%nat -> Forall (fun b => b <> 0) l ->
  (forall i, (i < n)%nat -> m (p + Z.of_nat i) = default 0 (l !! i)) -> cstr m p n = l.
Proof.
  revert p l. induction n as [|n IH]; intros p l Hl Hf H.
  - destruct l; [done | simpl in Hl; lia].
  - simpl. pose proof (H 0%nat ltac:(lia)) as H0. rewrite Z.add_0_r in H0. rewrite H0.
    destruct l as [|b l]; simpl; [done|].
    inversion Hf as [|? ? Hb Hf']; subst; clear Hf; rename Hf' into Hf. destruct (Z.eqb_spec b 0); [done|]. f_equal.
    apply IH; [simpl in Hl; lia | done |]. intros i Hi.
    specialize (H (S i) ltac:(lia)). simpl in H. rewrite <- H. f_equal. lia.
Qed.

Lemma Forall_cstr m p n : Forall (fun b => b <> 0) (cstr m p n).
Proof.
  revert p. induction n as [|n IH]; intros p; simpl; [constructor|].
  destruct (Z.eqb_spec (m p) 0); constructor; auto.
Qed.

Lemma strncpy_cstr m s t n :
  s + Z.of_nat n <= t \/ t + Z.of_nat n <= s ->
  cstr (strncpy m s t n) s n = cstr m t n.
Proof.
  intros Hd. apply cstr_of_cells; auto using length_cstr, Forall_cstr, strncpy_inside.
Qed.

Lemma bytes_strncpy m s t n : bytes m -> bytes (strncpy m s t n).
Proof.
  revert m s t. induction n as [|n IH]; intros m s t H; [done|]. simpl.
  assert (H' : bytes (wr m s (m t))) by auto using bytes_wr.
  destruct (wr m s (m t) s =? 0); [|auto].
  intros x. rewrite zero_up_spec. unfold fill. destruct (_ && _); [lia | apply H'].
Qed.

(** A name copied with [strncpy] into a fixed-width field compares equal to
    the original with [strncmp], and to no string that differs from it within
    the width; the copy needs no terminating zero. *)
Lemma strncpy_strncmp m s t n :
  bytes m -> s + Z.of_nat n <= t \/ t + Z.of_nat n <= s ->
  strncmp (strncpy m s t n) t s n = 0 /\
  forall u, u + Z.of_nat n <= s \/ s + Z.of_nat n <= u ->
    strncmp (strncpy m s t n) u s n = 0 -> cstr m u n = cstr m t n.
Proof.
  intros Hb Hd.
  assert (Hout : forall u, u + Z.of_nat n <= s \/ s + Z.of_nat n <= u ->
            cstr (strncpy m s t n) u n = cstr m u n).
  { intros u Hu. apply cstr_ext. intros x Hx. apply strncpy_outside. lia. }
  split.
  - apply strncmp_zero; [by apply bytes_strncpy|]. rewrite strncpy_cstr by done.
    apply Hout. lia.
  - intros u Hu H. apply strncmp_zero in H; [|by apply bytes_strncpy].
    rewrite Hout in H by done. by rewrite H, strncpy_cstr.
Qed.

(** A memory with the string ab at address 100. *)
Definition demo_mem : memory := fun x => if x =? 100 then 97 else if x =? 101 then 98 else 0.

Lemma safestrcpy_loop_outside m s t n x :
  x < s \/ s + Z.of_nat n < x -> safestrcpy_loop m s t n x = m x.
Proof.
  revert m s t. induction n as [|n IH]; intros m s t H; simpl.
  - apply wr_ne. lia.
  - destruct (wr m s (m t) s =? 0).
    + rewrite !wr_ne by lia. done.
    + rewrite IH by lia. apply wr_ne. lia.
Qed.

Lemma safestrcpy_loop_cstr m s t n :
  s + Z.of_nat n < t \/ t + Z.of_nat n <= s ->
  cstr (safestrcpy_loop m s t n) s (S n) = cstr m t n.
Proof.
  revert m s t. induction n as [|n IH]; intros m s t H.
  - simpl. by rewrite wr_eq.
  - cbn [safestrcpy_loop]. rewrite wr_eq. remember (S n) as k. simpl. subst k.
    destruct (Z.eqb_spec (m t) 0) as [Ht|Ht].
    + rewrite wr_ne, wr_eq, Ht by lia. simpl. by rewrite Ht.
    + rewrite safestrcpy_loop_outside, wr_eq by lia.
      destruct (Z.eqb_spec (m t) 0); [done|].
      rewrite IH by lia. simpl. destruct (Z.eqb_spec (m t) 0); [done|].
      f_equal. apply cstr_ext. intros x Hx. apply wr_ne. lia.
Qed.

(** [safestrcpy] copies at most [n-1] bytes of the string, always ends the
    copy with a zero byte, and writes nothing outside the [n] bytes of the
    destination. *)
Theorem safestrcpy_terminates m s t n :
  0 < n -> s + n <= t \/ t + n <= s ->
  cstr (safestrcpy m s t n) s (Z.to_nat n) = cstr m t (Z.to_nat (n - 1)) /\
  (exists i, 0 <= i < n /\ safestrcpy m s t n (s + i) = 0) /\
  forall x, x < s \/ s + n <= x -> safestrcpy m s t n x = m x.
Proof.
  intros Hn Hd. unfold safestrcpy. destruct (Z.leb_spec n 0); [lia|].
  assert (E : cstr (safestrcpy_loop m s t (Z.to_nat (n - 1))) s (Z.to_nat n)
              = cstr m t (Z.to_nat (n - 1))).
  { replace (Z.to_nat n) with (S (Z.to_nat (n - 1))) by lia.
    apply safestrcpy_loop_cstr. lia. }
  split; [done|]. split.
  - apply cstr_short. rewrite E. pose proof (length_cstr m t (Z.to_nat (n - 1))). lia.
  - intros x Hx. apply safestrcpy_loop_outside. lia.
Qed.

(** [memmove] copies as if through a temporary buffer, also when source and
    destination overlap in either direction: afterwards the destination holds
    the bytes the source held before, and nothing else changed. *)
Theorem memmove_spec m dst src n :
  0 <= n ->
  (forall i, 0 <= i < n -> memmove m dst src n (dst + i) = m (src + i)) /\
  (forall x, x < dst \/ dst + n <= x -> memmove m dst src n x = m x).
Proof.
  intros Hn. split.
  - intros i Hi. rewrite memmove_copied by done. unfold copied. bdestr. f_equal. lia.
  - intros x Hx. rewrite memmove_copied by done. unfold copied. bdestr; done.
Qed.

(** [memset] writes the byte to exactly the [n] bytes of the block, by the
    word-wise [stosl] when block and length are word-aligned and by the
    byte-wise [stosb] otherwise. *)
Lemma memset_spec m dst c n :
  0 <= n ->
  (forall x, dst <= x < dst + n -> memset m dst c n x = u8 c) /\
  (forall x, x < dst \/ dst + n <= x -> memset m dst c n x = m x).
Proof.
  intros Hn. split; intros x Hx; rewrite memset_fill by done; unfold fill; bdestr; done.
Qed.

