(* ===== verification/FsState.v ===== *)
(** * File system and device state

    The [struct]s of [buf.h], [file.h], [log.c], [pipe.c] and [console.c] as
    records, and one record [fsst] with the global variables of the buffer
    cache, the disk driver, the log, the inode cache, the open-file table, the
    pipes, the console and the keyboard, together with the disk itself, the bytes
    sent to the serial port ([tty]) and the screen ([cga_pos], [cga_crt]).

    A buffer pointer is an index into [bufs]: the buffers of [bcache.buf]
    followed by [bcache.head].  A pipe is found under the address of the page
    that holds it. *)

From stdpp Require Import base list numbers strings tactics gmap.
From Stdlib Require Import Lia.
From S2P Require Import Prelude Params.

Local Open Scope Z_scope.

(** ** fs.h, buf.h *)
Definition ROOTINO : Z := 1.
Definition BSIZE : Z := 512.
Definition NDIRECT : Z := 12.
Definition NINDIRECT : Z := BSIZE / 4.
Definition MAXFILE : Z := NDIRECT + NINDIRECT.
Definition DIRSIZ : Z := 14.
Definition B_BUSY : Z := 1.
Definition B_VALID : Z := 2.
Definition B_DIRTY : Z := 4.
Definition I_BUSY : Z := 1.
Definition I_VALID : Z := 2.
Definition T_DIR : Z := 1.
Definition T_FILE : Z := 2.
Definition T_DEV : Z := 3.
Definition CONSOLE : Z := 1.
Definition PIPESIZE : Z := 512.
Definition INPUT_BUF : Z := 128.

(** A buffer ([buf.h]). *)
Record buf := mkbuf {
  b_flags : Z;
  b_dev : Z;
  b_sector : Z;
  b_prev : nat;
  b_next : nat;
  b_qnext : option nat;
  b_data : list Z;
}.

(** The log, its in-memory header included ([log.c]). *)
Record log := mklog {
  l_start : Z;
  l_size : Z;
  l_busy : Z;
  l_dev : Z;
  l_n : Z;
  l_sector : list Z;
}.

(** In-memory copy of an inode ([file.h]). *)
Record inode := mkinode {
  i_dev : Z;
  i_inum : Z;
  i_ref : Z;
  i_flags : Z;
  i_type : Z;
  i_major : Z;
  i_minor : Z;
  i_nlink : Z;
  i_size : Z;
  i_addrs : list Z;
}.

Inductive fdtype := FD_NONE | FD_PIPE | FD_INODE.

#[export] Instance fdtype_eq_dec : EqDecision fdtype.
Proof. solve_decision. Defined.

(** An open file ([file.h]); [f_pipe] is the page of the pipe. *)
Record file := mkfile {
  f_type : fdtype;
  f_ref : Z;
  f_readable : Z;
  f_writable : Z;
  f_pipe : Z;
  f_ip : option nat;
  f_off : Z;
}.

(** A pipe ([pipe.c]). *)
Record pipe := mkpipe {
  pp_data : list Z;
  pp_nread : Z;
  pp_nwrite : Z;
  pp_readopen : Z;
  pp_writeopen : Z;
}.

(** The console input buffer ([console.c]). *)
Record inputst := mkinput {
  in_buf : list Z;
  in_r : Z;
  in_w : Z;
  in_e : Z;
}.

(** Global variables of the file system and the devices. *)
Record fsst := mkfsst {
  bufs : list buf;
  idequeue : option nat;
  havedisk1 : Z;
  disk : Z -> Z -> list Z;
  lg : log;
  inodes : list inode;
  files : list file;
  pipes : gmap Z pipe;
  input : inputst;
  cons_locking : Z;
  uart : Z;
  tty : list Z;
  cga_pos : Z;
  cga_crt : list Z;
  kbd_shift : Z;
}.

(** ** Field assignments *)

Definition set_b_flags (x : Z) (r : buf) : buf :=
  mkbuf x (r.(b_dev)) (r.(b_sector)) (r.(b_prev)) (r.(b_next)) (r.(b_qnext))
  (r.(b_data)).
Definition set_b_dev (x : Z) (r : buf) : buf :=
  mkbuf (r.(b_flags)) x (r.(b_sector)) (r.(b_prev)) (r.(b_next)) (r.(b_qnext))
  (r.(b_data)).
Definition set_b_sector (x : Z) (r : buf) : buf :=
  mkbuf (r.(b_flags)) (r.(b_dev)) x (r.(b_prev)) (r.(b_next)) (r.(b_qnext))
  (r.(b_data)).
Definition set_b_prev (x : nat) (r : buf) : buf :=
  mkbuf (r.(b_flags)) (r.(b_dev)) (r.(b_sector)) x (r.(b_next)) (r.(b_qnext))
  (r.(b_data)).
Definition set_b_next (x : nat) (r : buf) : buf :=
  mkbuf (r.(b_flags)) (r.(b_dev)) (r.(b_sector)) (r.(b_prev)) x (r.(b_qnext))
  (r.(b_data)).
Definition set_b_qnext (x : option nat) (r : buf) : buf :=
  mkbuf (r.(b_flags)) (r.(b_dev)) (r.(b_sector)) (r.(b_prev)) (r.(b_next)) x
  (r.(b_data)).
Definition set_b_data (x : list Z) (r : buf) : buf :=
  mkbuf (r.(b_flags)) (r.(b_dev)) (r.(b_sector)) (r.(b_prev)) (r.(b_next))
  (r.(b_qnext)) x.

Definition set_l_start (x : Z) (r : log) : log :=
  mklog x (r.(l_size)) (r.(l_busy)) (r.(l_dev)) (r.(l_n)) (r.(l_sector)).
Definition set_l_size (x : Z) (r : log) : log :=
  mklog (r.(l_start)) x (r.(l_busy)) (r.(l_dev)) (r.(l_n)) (r.(l_sector)).
Definition set_l_busy (x : Z) (r : log) : log :=
  mklog (r.(l_start)) (r.(l_size)) x (r.(l_dev)) (r.(l_n)) (r.(l_sector)).
Definition set_l_dev (x : Z) (r : log) : log :=
  mklog (r.(l_start)) (r.(l_size)) (r.(l_busy)) x (r.(l_n)) (r.(l_sector)).
Definition set_l_n (x : Z) (r : log) : log :=
  mklog (r.(l_start)) (r.(l_size)) (r.(l_busy)) (r.(l_dev)) x (r.(l_sector)).
Definition set_l_sector (x : list Z) (r : log) : log :=
  mklog (r.(l_start)) (r.(l_size)) (r.(l_busy)) (r.(l_dev)) (r.(l_n)) x.

Definition set_i_dev (x : Z) (r : inode) : inode :=
  mkinode x (r.(i_inum)) (r.(i_ref)) (r.(i_flags)) (r.(i_type)) (r.(i_major))
  (r.(i_minor)) (r.(i_nlink)) (r.(i_size)) (r.(i_addrs)).
Definition set_i_inum (x : Z) (r : inode) : inode :=
  mkinode (r.(i_dev)) x (r.(i_ref)) (r.(i_flags)) (r.(i_type)) (r.(i_major))
  (r.(i_minor)) (r.(i_nlink)) (r.(i_size)) (r.(i_addrs)).
Definition set_i_ref (x : Z) (r : inode) : inode :=
  mkinode (r.(i_dev)) (r.(i_inum)) x (r.(i_flags)) (r.(i_type)) (r.(i_major))
  (r.(i_minor)) (r.(i_nlink)) (r.(i_size)) (r.(i_addrs)).
Definition set_i_flags (x : Z) (r : inode) : inode :=
  mkinode (r.(i_dev)) (r.(i_inum)) (r.(i_ref)) x (r.(i_type)) (r.(i_major))
  (r.(i_minor)) (r.(i_nlink)) (r.(i_size)) (r.(i_addrs)).
Definition set_i_type (x : Z) (r : inode) : inode :=
  mkinode (r.(i_dev)) (r.(i_inum)) (r.(i_ref)) (r.(i_flags)) x (r.(i_major))
  (r.(i_minor)) (r.(i_nlink)) (r.(i_size)) (r.(i_addrs)).
Definition set_i_major (x : Z) (r : inode) : inode :=
  mkinode (r.(i_dev)) (r.(i_inum)) (r.(i_ref)) (r.(i_flags)) (r.(i_type)) x
  (r.(i_minor)) (r.(i_nlink)) (r.(i_size)) (r.(i_addrs)).
Definition set_i_minor (x : Z) (r : inode) : inode :=
  mkinode (r.(i_dev)) (r.(i_inum)) (r.(i_ref)) (r.(i_flags)) (r.(i_type))
  (r.(i_major)) x (r.(i_nlink)) (r.(i_size)) (r.(i_addrs)).
Definition set_i_nlink (x : Z) (r : inode) : inode :=
  mkinode (r.(i_dev)) (r.(i_inum)) (r.(i_ref)) (r.(i_flags)) (r.(i_type))
  (r.(i_major)) (r.(i_minor)) x (r.(i_size)) (r.(i_addrs)).
Definition set_i_size (x : Z) (r : inode) : inode :=
  mkinode (r.(i_dev)) (r.(i_inum)) (r.(i_ref)) (r.(i_flags)) (r.(i_type))
  (r.(i_major)) (r.(i_minor)) (r.(i_nlink)) x (r.(i_addrs)).
Definition set_i_addrs (x : list Z) (r : inode) : inode :=
  mkinode (r.(i_dev)) (r.(i_inum)) (r.(i_ref)) (r.(i_flags)) (r.(i_type))
  (r.(i_major)) (r.(i_minor)) (r.(i_nlink)) (r.(i_size)) x.

Definition set_f_type (x : fdtype) (r : file) : file :=
  mkfile x (r.(f_ref)) (r.(f_readable)) (r.(f_writable)) (r.(f_pipe)) (r.(f_ip))
  (r.(f_off)).
Definition set_f_ref (x : Z) (r : file) : file :=
  mkfile (r.(f_type)) x (r.(f_readable)) (r.(f_writable)) (r.(f_pipe)) (r.(f_ip))
  (r.(f_off)).
Definition set_f_readable (x : Z) (r : file) : file :=
  mkfile (r.(f_type)) (r.(f_ref)) x (r.(f_writable)) (r.(f_pipe)) (r.(f_ip))
  (r.(f_off)).
Definition set_f_writable (x : Z) (r : file) : file :=
  mkfile (r.(f_type)) (r.(f_ref)) (r.(f_readable)) x (r.(f_pipe)) (r.(f_ip))
  (r.(f_off)).
Definition set_f_pipe (x : Z) (r : file) : file :=
  mkfile (r.(f_type)) (r.(f_ref)) (r.(f_readable)) (r.(f_writable)) x (r.(f_ip))
  (r.(f_off)).
Definition set_f_ip (x : option nat) (r : file) : file :=
  mkfile (r.(f_type)) (r.(f_ref)) (r.(f_readable)) (r.(f_writable)) (r.(f_pipe)) x
  (r.(f_off)).
Definition set_f_off (x : Z) (r : file) : file :=
  mkfile (r.(f_type)) (r.(f_ref)) (r.(f_readable)) (r.(f_writable)) (r.(f_pipe))
  (r.(f_ip)) x.

Definition set_pp_data (x : list Z) (r : pipe) : pipe :=
  mkpipe x (r.(pp_nread)) (r.(pp_nwrite)) (r.(pp_readopen)) (r.(pp_writeopen)).
Definition set_pp_nread (x : Z) (r : pipe) : pipe :=
  mkpipe (r.(pp_data)) x (r.(pp_nwrite)) (r.(pp_readopen)) (r.(pp_writeopen)).
Definition set_pp_nwrite (x : Z) (r : pipe) : pipe :=
  mkpipe (r.(pp_data)) (r.(pp_nread)) x (r.(pp_readopen)) (r.(pp_writeopen)).
Definition set_pp_readopen (x : Z) (r : pipe) : pipe :=
  mkpipe (r.(pp_data)) (r.(pp_nread)) (r.(pp_nwrite)) x (r.(pp_writeopen)).
Definition set_pp_writeopen (x : Z) (r : pipe) : pipe :=
  mkpipe (r.(pp_data)) (r.(pp_nread)) (r.(pp_nwrite)) (r.(pp_readopen)) x.

Definition set_in_buf (x : list Z) (r : inputst) : inputst :=
  mkinput x (r.(in_r)) (r.(in_w)) (r.(in_e)).
Definition set_in_r (x : Z) (r : inputst) : inputst :=
  mkinput (r.(in_buf)) x (r.(in_w)) (r.(in_e)).
Definition set_in_w (x : Z) (r : inputst) : inputst :=
  mkinput (r.(in_buf)) (r.(in_r)) x (r.(in_e)).
Definition set_in_e (x : Z) (r : inputst) : inputst :=
  mkinput (r.(in_buf)) (r.(in_r)) (r.(in_w)) x.

Definition set_bufs (x : list buf) (r : fsst) : fsst :=
  mkfsst x (r.(idequeue)) (r.(havedisk1)) (r.(disk)) (r.(lg)) (r.(inodes)) (r.(files))
  (r.(pipes)) (r.(input)) (r.(cons_locking)) (r.(uart)) (r.(tty)) (r.(cga_pos))
  (r.(cga_crt)) (r.(kbd_shift)).
Definition set_idequeue (x : option nat) (r : fsst) : fsst :=
  mkfsst (r.(bufs)) x (r.(havedisk1)) (r.(disk)) (r.(lg)) (r.(inodes)) (r.(files))
  (r.(pipes)) (r.(input)) (r.(cons_locking)) (r.(uart)) (r.(tty)) (r.(cga_pos))
  (r.(cga_crt)) (r.(kbd_shift)).
Definition set_havedisk1 (x : Z) (r : fsst) : fsst :=
  mkfsst (r.(bufs)) (r.(idequeue)) x (r.(disk)) (r.(lg)) (r.(inodes)) (r.(files))
  (r.(pipes)) (r.(input)) (r.(cons_locking)) (r.(uart)) (r.(tty)) (r.(cga_pos))
  (r.(cga_crt)) (r.(kbd_shift)).
Definition set_disk (x : Z -> Z -> list Z) (r : fsst) : fsst :=
  mkfsst (r.(bufs)) (r.(idequeue)) (r.(havedisk1)) x (r.(lg)) (r.(inodes)) (r.(files))
  (r.(pipes)) (r.(input)) (r.(cons_locking)) (r.(uart)) (r.(tty)) (r.(cga_pos))
  (r.(cga_crt)) (r.(kbd_shift)).
Definition set_lg (x : log) (r : fsst) : fsst :=
  mkfsst (r.(bufs)) (r.(idequeue)) (r.(havedisk1)) (r.(disk)) x (r.(inodes))
  (r.(files)) (r.(pipes)) (r.(input)) (r.(cons_locking)) (r.(uart)) (r.(tty))
  (r.(cga_pos)) (r.(cga_crt)) (r.(kbd_shift)).
Definition set_inodes (x : list inode) (r : fsst) : fsst :=
  mkfsst (r.(bufs)) (r.(idequeue)) (r.(havedisk1)) (r.(disk)) (r.(lg)) x (r.(files))
  (r.(pipes)) (r.(input)) (r.(cons_locking)) (r.(uart)) (r.(tty)) (r.(cga_pos))
  (r.(cga_crt)) (r.(kbd_shift)).
Definition set_files (x : list file) (r : fsst) : fsst :=
  mkfsst (r.(bufs)) (r.(idequeue)) (r.(havedisk1)) (r.(disk)) (r.(lg)) (r.(inodes)) x
  (r.(pipes)) (r.(input)) (r.(cons_locking)) (r.(uart)) (r.(tty)) (r.(cga_pos))
  (r.(cga_crt)) (r.(kbd_shift)).
Definition set_pipes (x : gmap Z pipe) (r : fsst) : fsst :=
  mkfsst (r.(bufs)) (r.(idequeue)) (r.(havedisk1)) (r.(disk)) (r.(lg)) (r.(inodes))
  (r.(files)) x (r.(input)) (r.(cons_locking)) (r.(uart)) (r.(tty)) (r.(cga_pos))
  (r.(cga_crt)) (r.(kbd_shift)).
Definition set_input (x : inputst) (r : fsst) : fsst :=
  mkfsst (r.(bufs)) (r.(idequeue)) (r.(havedisk1)) (r.(disk)) (r.(lg)) (r.(inodes))
  (r.(files)) (r.(pipes)) x (r.(cons_locking)) (r.(uart)) (r.(tty)) (r.(cga_pos))
  (r.(cga_crt)) (r.(kbd_shift)).
Definition set_cons_locking (x : Z) (r : fsst) : fsst :=
  mkfsst (r.(bufs)) (r.(idequeue)) (r.(havedisk1)) (r.(disk)) (r.(lg)) (r.(inodes))
  (r.(files)) (r.(pipes)) (r.(input)) x (r.(uart)) (r.(tty)) (r.(cga_pos))
  (r.(cga_crt)) (r.(kbd_shift)).
Definition set_uart (x : Z) (r : fsst) : fsst :=
  mkfsst (r.(bufs)) (r.(idequeue)) (r.(havedisk1)) (r.(disk)) (r.(lg)) (r.(inodes))
  (r.(files)) (r.(pipes)) (r.(input)) (r.(cons_locking)) x (r.(tty)) (r.(cga_pos))
  (r.(cga_crt)) (r.(kbd_shift)).
Definition set_tty (x : list Z) (r : fsst) : fsst :=
  mkfsst (r.(bufs)) (r.(idequeue)) (r.(havedisk1)) (r.(disk)) (r.(lg)) (r.(inodes))
  (r.(files)) (r.(pipes)) (r.(input)) (r.(cons_locking)) (r.(uart)) x (r.(cga_pos))
  (r.(cga_crt)) (r.(kbd_shift)).
Definition set_cga_pos (x : Z) (r : fsst) : fsst :=
  mkfsst (r.(bufs)) (r.(idequeue)) (r.(havedisk1)) (r.(disk)) (r.(lg)) (r.(inodes))
  (r.(files)) (r.(pipes)) (r.(input)) (r.(cons_locking)) (r.(uart)) (r.(tty)) x
  (r.(cga_crt)) (r.(kbd_shift)).
Definition set_cga_crt (x : list Z) (r : fsst) : fsst :=
  mkfsst (r.(bufs)) (r.(idequeue)) (r.(havedisk1)) (r.(disk)) (r.(lg)) (r.(inodes))
  (r.(files)) (r.(pipes)) (r.(input)) (r.(cons_locking)) (r.(uart)) (r.(tty))
  (r.(cga_pos)) x (r.(kbd_shift)).
Definition set_kbd_shift (x : Z) (r : fsst) : fsst :=
  mkfsst (r.(bufs)) (r.(idequeue)) (r.(havedisk1)) (r.(disk)) (r.(lg)) (r.(inodes))
  (r.(files)) (r.(pipes)) (r.(input)) (r.(cons_locking)) (r.(uart)) (r.(tty))
  (r.(cga_pos)) (r.(cga_crt)) x.

(** ** The zero-initialised globals *)

Definition buf0 : buf := mkbuf 0 0 0 0 0 None (replicate (Z.to_nat BSIZE) 0).
Definition inode0 : inode := mkinode 0 0 0 0 0 0 0 0 0 (replicate 13 0).
Definition file0 : file := mkfile FD_NONE 0 0 0 0 None 0.

Definition fsst0 (d : Z -> Z -> list Z) : fsst :=
  mkfsst (replicate (S (Z.to_nat NBUF)) buf0) None 0 d
    (mklog 0 0 0 0 0 (replicate (Z.to_nat LOGSIZE) 0))
    (replicate (Z.to_nat NINODE) inode0) (replicate (Z.to_nat NFILE) file0) ∅
    (mkinput (replicate (Z.to_nat INPUT_BUF) 0) 0 0 0) 0 0 [] 0 (replicate 2000 0) 0.
