(* ===== verification/KState.v ===== *)
(** * Kernel data structures and global variables

    The [struct]s of [proc.h], [spinlock.h], [semaphore.h] and [sharedmem.h] as
    records, the enumerations as inductive types, and one record [kst] with the
    kernel's global variables: the process table and its multi-level feedback
    queues, the semaphore table, the shared-memory table, the page allocator,
    the locks with the state of the running CPU, the memory, and the file system
    ([FsState]).

    A pointer into a global array ([struct proc*], [struct sem*], [struct
    file*], [struct inode*]) is the index of the element it points to, [None]
    the null pointer.  Memory is byte-addressed by kernel virtual address. *)

From stdpp Require Import base list numbers strings tactics gmap.
From Stdlib Require Import Lia.
From S2P Require Import Prelude Params FsState.

Local Open Scope Z_scope.
Local Open Scope xv6_scope.

(** ** Locks and CPUs *)

(** The spin locks of the kernel, one name per [struct spinlock] variable. *)
Inductive lockid :=
| L_ptable | L_stable | L_shmtable | L_kmem | L_tickslock | L_icache
| L_bcache | L_log | L_ftable | L_idelock | L_cons | L_input
| L_pipe (page : Z).

#[export] Instance lockid_eq_dec : EqDecision lockid.
Proof. solve_decision. Defined.

Definition lockid_enc (l : lockid) : Z + Z :=
  match l with
  | L_ptable => inl 0 | L_stable => inl 1 | L_shmtable => inl 2 | L_kmem => inl 3
  | L_tickslock => inl 4 | L_icache => inl 5 | L_bcache => inl 6 | L_log => inl 7
  | L_ftable => inl 8 | L_idelock => inl 9 | L_cons => inl 10 | L_input => inl 11
  | L_pipe p => inr p
  end.

Definition lockid_dec (c : Z + Z) : option lockid :=
  match c with
  | inr p => Some (L_pipe p)
  | inl z => [L_ptable; L_stable; L_shmtable; L_kmem; L_tickslock; L_icache;
              L_bcache; L_log; L_ftable; L_idelock; L_cons; L_input] !! Z.to_nat z
  end.

#[export] Instance lockid_countable : Countable lockid.
Proof. apply (inj_countable lockid_enc lockid_dec). by intros []. Defined.

(** Mutual exclusion lock ([spinlock.h]); the debugging field [pcs], a copy of
    the call stack, is not kept. *)
Record spinlock := mkspinlock {
  locked : Z;
  lname : string;
  lcpu : option Z;
}.

(** What a CPU keeps for [pushcli]/[popcli] ([proc.h]), with the interrupt flag
    of its [eflags] register. *)
Record cpu := mkcpu {
  cpu_id : Z;
  ncli : Z;
  intena : bool;
  eflags_IF : bool;
}.

(** The running CPU and all the locks. *)
Record lockst := mklockst {
  lk_cpu : cpu;
  lk_tab : gmap lockid spinlock;
}.

Definition lock0 : spinlock := mkspinlock 0 "" None.

Definition lkof (s : lockst) (l : lockid) : spinlock := default lock0 (lk_tab s !! l).

(** ** Processes *)

Inductive procstate := UNUSED | EMBRYO | SLEEPING | RUNNABLE | RUNNING | ZOMBIE.

#[export] Instance procstate_eq_dec : EqDecision procstate.
Proof. solve_decision. Defined.

(** A sleep channel is the address of a kernel object. *)
Inductive chan :=
| CNull | CProc (p : nat) | CSem (s : nat) | CTicks | CLog | CInode (i : nat)
| CBuf (b : nat) | CPipeRead (page : Z) | CPipeWrite (page : Z) | CInput.

#[export] Instance chan_eq_dec : EqDecision chan.
Proof. solve_decision. Defined.

(** The trap frame ([x86.h]), padding apart. *)
Record trapframe := mktf {
  tf_edi : Z;
  tf_esi : Z;
  tf_ebp : Z;
  tf_oesp : Z;
  tf_ebx : Z;
  tf_edx : Z;
  tf_ecx : Z;
  tf_eax : Z;
  tf_gs : Z;
  tf_fs : Z;
  tf_es : Z;
  tf_ds : Z;
  tf_trapno : Z;
  tf_err : Z;
  tf_eip : Z;
  tf_cs : Z;
  tf_eflags : Z;
  tf_esp : Z;
  tf_ss : Z;
}.

(** Saved registers for kernel context switches. *)
Record context := mkcontext {
  c_edi : Z;
  c_esi : Z;
  c_ebx : Z;
  c_ebp : Z;
  c_eip : Z;
}.

(** Per-process state ([struct proc]). *)
Record proc := mkproc {
  p_sz : Z;
  p_pgdir : Z;
  p_kstack : Z;
  p_state : procstate;
  p_pid : Z;
  p_parent : option nat;
  p_tf : trapframe;
  p_context : context;
  p_chan : chan;
  p_killed : Z;
  p_ofile : list (option nat);
  p_cwd : option nat;
  p_name : list Z;
  p_ticksProc : Z;
  p_priority : Z;
  p_next : option nat;
  p_procsem : list (option nat);
  p_semquantity : Z;
  p_shmemquantity : Z;
  p_shmref : list Z;
  p_shmem : list Z;
  p_addrultima : Z;
}.

(** A level of the multi-level feedback queue ([struct node] of [proc.c]). *)
Record node := mknode {
  n_first : option nat;
  n_last : option nat;
}.

(** ** Semaphores and shared memory *)

(** A semaphore ([semaphore.h]). *)
Record sem := mksem {
  value : Z;
  refcount : Z;
}.

(** A shared-memory space ([sharedmem.h]). *)
Record sharedmemory := mkshm {
  addr : Z;
  shm_refcount : Z;
}.

(** ** The global state *)

(** The global variables of the kernel. *)
Record kst := mkkst {
  lks : lockst;
  procs : list proc;
  mlf : list node;
  nextpid : Z;
  initproc : option nat;
  curproc : option nat;
  sems : list sem;
  sem_first_time : bool;
  shmtab : list sharedmemory;
  shm_quantity : Z;
  freelist : Z;
  use_lock : bool;
  mem : Z -> Z;
  cr3 : Z;
  kpgdir : Z;
  ts_esp0 : Z;
  ticks : Z;
  cout : list string;
  fs : fsst;
}.

(** ** Field assignments *)

Definition set_locked (x : Z) (r : spinlock) : spinlock :=
  mkspinlock x (r.(lname)) (r.(lcpu)).
Definition set_lname (x : string) (r : spinlock) : spinlock :=
  mkspinlock (r.(locked)) x (r.(lcpu)).
Definition set_lcpu (x : option Z) (r : spinlock) : spinlock :=
  mkspinlock (r.(locked)) (r.(lname)) x.

Definition set_cpu_id (x : Z) (r : cpu) : cpu :=
  mkcpu x (r.(ncli)) (r.(intena)) (r.(eflags_IF)).
Definition set_ncli (x : Z) (r : cpu) : cpu :=
  mkcpu (r.(cpu_id)) x (r.(intena)) (r.(eflags_IF)).
Definition set_intena (x : bool) (r : cpu) : cpu :=
  mkcpu (r.(cpu_id)) (r.(ncli)) x (r.(eflags_IF)).
Definition set_eflags_IF (x : bool) (r : cpu) : cpu :=
  mkcpu (r.(cpu_id)) (r.(ncli)) (r.(intena)) x.

Definition set_lk_cpu (x : cpu) (r : lockst) : lockst :=
  mklockst x (r.(lk_tab)).
Definition set_lk_tab (x : gmap lockid spinlock) (r : lockst) : lockst :=
  mklockst (r.(lk_cpu)) x.

Definition set_tf_edi (x : Z) (r : trapframe) : trapframe :=
  mktf x (r.(tf_esi)) (r.(tf_ebp)) (r.(tf_oesp)) (r.(tf_ebx)) (r.(tf_edx))
  (r.(tf_ecx)) (r.(tf_eax)) (r.(tf_gs)) (r.(tf_fs)) (r.(tf_es)) (r.(tf_ds))
  (r.(tf_trapno)) (r.(tf_err)) (r.(tf_eip)) (r.(tf_cs)) (r.(tf_eflags)) (r.(tf_esp))
  (r.(tf_ss)).
Definition set_tf_esi (x : Z) (r : trapframe) : trapframe :=
  mktf (r.(tf_edi)) x (r.(tf_ebp)) (r.(tf_oesp)) (r.(tf_ebx)) (r.(tf_edx))
  (r.(tf_ecx)) (r.(tf_eax)) (r.(tf_gs)) (r.(tf_fs)) (r.(tf_es)) (r.(tf_ds))
  (r.(tf_trapno)) (r.(tf_err)) (r.(tf_eip)) (r.(tf_cs)) (r.(tf_eflags)) (r.(tf_esp))
  (r.(tf_ss)).
Definition set_tf_ebp (x : Z) (r : trapframe) : trapframe :=
  mktf (r.(tf_edi)) (r.(tf_esi)) x (r.(tf_oesp)) (r.(tf_ebx)) (r.(tf_edx))
  (r.(tf_ecx)) (r.(tf_eax)) (r.(tf_gs)) (r.(tf_fs)) (r.(tf_es)) (r.(tf_ds))
  (r.(tf_trapno)) (r.(tf_err)) (r.(tf_eip)) (r.(tf_cs)) (r.(tf_eflags)) (r.(tf_esp))
  (r.(tf_ss)).
Definition set_tf_oesp (x : Z) (r : trapframe) : trapframe :=
  mktf (r.(tf_edi)) (r.(tf_esi)) (r.(tf_ebp)) x (r.(tf_ebx)) (r.(tf_edx)) (r.(tf_ecx))
  (r.(tf_eax)) (r.(tf_gs)) (r.(tf_fs)) (r.(tf_es)) (r.(tf_ds)) (r.(tf_trapno))
  (r.(tf_err)) (r.(tf_eip)) (r.(tf_cs)) (r.(tf_eflags)) (r.(tf_esp)) (r.(tf_ss)).
Definition set_tf_ebx (x : Z) (r : trapframe) : trapframe :=
  mktf (r.(tf_edi)) (r.(tf_esi)) (r.(tf_ebp)) (r.(tf_oesp)) x (r.(tf_edx))
  (r.(tf_ecx)) (r.(tf_eax)) (r.(tf_gs)) (r.(tf_fs)) (r.(tf_es)) (r.(tf_ds))
  (r.(tf_trapno)) (r.(tf_err)) (r.(tf_eip)) (r.(tf_cs)) (r.(tf_eflags)) (r.(tf_esp))
  (r.(tf_ss)).
Definition set_tf_edx (x : Z) (r : trapframe) : trapframe :=
  mktf (r.(tf_edi)) (r.(tf_esi)) (r.(tf_ebp)) (r.(tf_oesp)) (r.(tf_ebx)) x
  (r.(tf_ecx)) (r.(tf_eax)) (r.(tf_gs)) (r.(tf_fs)) (r.(tf_es)) (r.(tf_ds))
  (r.(tf_trapno)) (r.(tf_err)) (r.(tf_eip)) (r.(tf_cs)) (r.(tf_eflags)) (r.(tf_esp))
  (r.(tf_ss)).
Definition set_tf_ecx (x : Z) (r : trapframe) : trapframe :=
  mktf (r.(tf_edi)) (r.(tf_esi)) (r.(tf_ebp)) (r.(tf_oesp)) (r.(tf_ebx)) (r.(tf_edx))
  x (r.(tf_eax)) (r.(tf_gs)) (r.(tf_fs)) (r.(tf_es)) (r.(tf_ds)) (r.(tf_trapno))
  (r.(tf_err)) (r.(tf_eip)) (r.(tf_cs)) (r.(tf_eflags)) (r.(tf_esp)) (r.(tf_ss)).
Definition set_tf_eax (x : Z) (r : trapframe) : trapframe :=
  mktf (r.(tf_edi)) (r.(tf_esi)) (r.(tf_ebp)) (r.(tf_oesp)) (r.(tf_ebx)) (r.(tf_edx))
  (r.(tf_ecx)) x (r.(tf_gs)) (r.(tf_fs)) (r.(tf_es)) (r.(tf_ds)) (r.(tf_trapno))
  (r.(tf_err)) (r.(tf_eip)) (r.(tf_cs)) (r.(tf_eflags)) (r.(tf_esp)) (r.(tf_ss)).
Definition set_tf_gs (x : Z) (r : trapframe) : trapframe :=
  mktf (r.(tf_edi)) (r.(tf_esi)) (r.(tf_ebp)) (r.(tf_oesp)) (r.(tf_ebx)) (r.(tf_edx))
  (r.(tf_ecx)) (r.(tf_eax)) x (r.(tf_fs)) (r.(tf_es)) (r.(tf_ds)) (r.(tf_trapno))
  (r.(tf_err)) (r.(tf_eip)) (r.(tf_cs)) (r.(tf_eflags)) (r.(tf_esp)) (r.(tf_ss)).
Definition set_tf_fs (x : Z) (r : trapframe) : trapframe :=
  mktf (r.(tf_edi)) (r.(tf_esi)) (r.(tf_ebp)) (r.(tf_oesp)) (r.(tf_ebx)) (r.(tf_edx))
  (r.(tf_ecx)) (r.(tf_eax)) (r.(tf_gs)) x (r.(tf_es)) (r.(tf_ds)) (r.(tf_trapno))
  (r.(tf_err)) (r.(tf_eip)) (r.(tf_cs)) (r.(tf_eflags)) (r.(tf_esp)) (r.(tf_ss)).
Definition set_tf_es (x : Z) (r : trapframe) : trapframe :=
  mktf (r.(tf_edi)) (r.(tf_esi)) (r.(tf_ebp)) (r.(tf_oesp)) (r.(tf_ebx)) (r.(tf_edx))
  (r.(tf_ecx)) (r.(tf_eax)) (r.(tf_gs)) (r.(tf_fs)) x (r.(tf_ds)) (r.(tf_trapno))
  (r.(tf_err)) (r.(tf_eip)) (r.(tf_cs)) (r.(tf_eflags)) (r.(tf_esp)) (r.(tf_ss)).
Definition set_tf_ds (x : Z) (r : trapframe) : trapframe :=
  mktf (r.(tf_edi)) (r.(tf_esi)) (r.(tf_ebp)) (r.(tf_oesp)) (r.(tf_ebx)) (r.(tf_edx))
  (r.(tf_ecx)) (r.(tf_eax)) (r.(tf_gs)) (r.(tf_fs)) (r.(tf_es)) x (r.(tf_trapno))
  (r.(tf_err)) (r.(tf_eip)) (r.(tf_cs)) (r.(tf_eflags)) (r.(tf_esp)) (r.(tf_ss)).
Definition set_tf_trapno (x : Z) (r : trapframe) : trapframe :=
  mktf (r.(tf_edi)) (r.(tf_esi)) (r.(tf_ebp)) (r.(tf_oesp)) (r.(tf_ebx)) (r.(tf_edx))
  (r.(tf_ecx)) (r.(tf_eax)) (r.(tf_gs)) (r.(tf_fs)) (r.(tf_es)) (r.(tf_ds)) x
  (r.(tf_err)) (r.(tf_eip)) (r.(tf_cs)) (r.(tf_eflags)) (r.(tf_esp)) (r.(tf_ss)).
Definition set_tf_err (x : Z) (r : trapframe) : trapframe :=
  mktf (r.(tf_edi)) (r.(tf_esi)) (r.(tf_ebp)) (r.(tf_oesp)) (r.(tf_ebx)) (r.(tf_edx))
  (r.(tf_ecx)) (r.(tf_eax)) (r.(tf_gs)) (r.(tf_fs)) (r.(tf_es)) (r.(tf_ds))
  (r.(tf_trapno)) x (r.(tf_eip)) (r.(tf_cs)) (r.(tf_eflags)) (r.(tf_esp)) (r.(tf_ss)).
Definition set_tf_eip (x : Z) (r : trapframe) : trapframe :=
  mktf (r.(tf_edi)) (r.(tf_esi)) (r.(tf_ebp)) (r.(tf_oesp)) (r.(tf_ebx)) (r.(tf_edx))
  (r.(tf_ecx)) (r.(tf_eax)) (r.(tf_gs)) (r.(tf_fs)) (r.(tf_es)) (r.(tf_ds))
  (r.(tf_trapno)) (r.(tf_err)) x (r.(tf_cs)) (r.(tf_eflags)) (r.(tf_esp)) (r.(tf_ss)).
Definition set_tf_cs (x : Z) (r : trapframe) : trapframe :=
  mktf (r.(tf_edi)) (r.(tf_esi)) (r.(tf_ebp)) (r.(tf_oesp)) (r.(tf_ebx)) (r.(tf_edx))
  (r.(tf_ecx)) (r.(tf_eax)) (r.(tf_gs)) (r.(tf_fs)) (r.(tf_es)) (r.(tf_ds))
  (r.(tf_trapno)) (r.(tf_err)) (r.(tf_eip)) x (r.(tf_eflags)) (r.(tf_esp))
  (r.(tf_ss)).
Definition set_tf_eflags (x : Z) (r : trapframe) : trapframe :=
  mktf (r.(tf_edi)) (r.(tf_esi)) (r.(tf_ebp)) (r.(tf_oesp)) (r.(tf_ebx)) (r.(tf_edx))
  (r.(tf_ecx)) (r.(tf_eax)) (r.(tf_gs)) (r.(tf_fs)) (r.(tf_es)) (r.(tf_ds))
  (r.(tf_trapno)) (r.(tf_err)) (r.(tf_eip)) (r.(tf_cs)) x (r.(tf_esp)) (r.(tf_ss)).
Definition set_tf_esp (x : Z) (r : trapframe) : trapframe :=
  mktf (r.(tf_edi)) (r.(tf_esi)) (r.(tf_ebp)) (r.(tf_oesp)) (r.(tf_ebx)) (r.(tf_edx))
  (r.(tf_ecx)) (r.(tf_eax)) (r.(tf_gs)) (r.(tf_fs)) (r.(tf_es)) (r.(tf_ds))
  (r.(tf_trapno)) (r.(tf_err)) (r.(tf_eip)) (r.(tf_cs)) (r.(tf_eflags)) x (r.(tf_ss)).
Definition set_tf_ss (x : Z) (r : trapframe) : trapframe :=
  mktf (r.(tf_edi)) (r.(tf_esi)) (r.(tf_ebp)) (r.(tf_oesp)) (r.(tf_ebx)) (r.(tf_edx))
  (r.(tf_ecx)) (r.(tf_eax)) (r.(tf_gs)) (r.(tf_fs)) (r.(tf_es)) (r.(tf_ds))
  (r.(tf_trapno)) (r.(tf_err)) (r.(tf_eip)) (r.(tf_cs)) (r.(tf_eflags)) (r.(tf_esp))
  x.

Definition set_p_sz (x : Z) (r : proc) : proc :=
  mkproc x (r.(p_pgdir)) (r.(p_kstack)) (r.(p_state)) (r.(p_pid)) (r.(p_parent))
  (r.(p_tf)) (r.(p_context)) (r.(p_chan)) (r.(p_killed)) (r.(p_ofile)) (r.(p_cwd))
  (r.(p_name)) (r.(p_ticksProc)) (r.(p_priority)) (r.(p_next)) (r.(p_procsem))
  (r.(p_semquantity)) (r.(p_shmemquantity)) (r.(p_shmref)) (r.(p_shmem))
  (r.(p_addrultima)).
Definition set_p_pgdir (x : Z) (r : proc) : proc :=
  mkproc (r.(p_sz)) x (r.(p_kstack)) (r.(p_state)) (r.(p_pid)) (r.(p_parent))
  (r.(p_tf)) (r.(p_context)) (r.(p_chan)) (r.(p_killed)) (r.(p_ofile)) (r.(p_cwd))
  (r.(p_name)) (r.(p_ticksProc)) (r.(p_priority)) (r.(p_next)) (r.(p_procsem))
  (r.(p_semquantity)) (r.(p_shmemquantity)) (r.(p_shmref)) (r.(p_shmem))
  (r.(p_addrultima)).
Definition set_p_kstack (x : Z) (r : proc) : proc :=
  mkproc (r.(p_sz)) (r.(p_pgdir)) x (r.(p_state)) (r.(p_pid)) (r.(p_parent))
  (r.(p_tf)) (r.(p_context)) (r.(p_chan)) (r.(p_killed)) (r.(p_ofile)) (r.(p_cwd))
  (r.(p_name)) (r.(p_ticksProc)) (r.(p_priority)) (r.(p_next)) (r.(p_procsem))
  (r.(p_semquantity)) (r.(p_shmemquantity)) (r.(p_shmref)) (r.(p_shmem))
  (r.(p_addrultima)).
Definition set_p_state (x : procstate) (r : proc) : proc :=
  mkproc (r.(p_sz)) (r.(p_pgdir)) (r.(p_kstack)) x (r.(p_pid)) (r.(p_parent))
  (r.(p_tf)) (r.(p_context)) (r.(p_chan)) (r.(p_killed)) (r.(p_ofile)) (r.(p_cwd))
  (r.(p_name)) (r.(p_ticksProc)) (r.(p_priority)) (r.(p_next)) (r.(p_procsem))
  (r.(p_semquantity)) (r.(p_shmemquantity)) (r.(p_shmref)) (r.(p_shmem))
  (r.(p_addrultima)).
Definition set_p_pid (x : Z) (r : proc) : proc :=
  mkproc (r.(p_sz)) (r.(p_pgdir)) (r.(p_kstack)) (r.(p_state)) x (r.(p_parent))
  (r.(p_tf)) (r.(p_context)) (r.(p_chan)) (r.(p_killed)) (r.(p_ofile)) (r.(p_cwd))
  (r.(p_name)) (r.(p_ticksProc)) (r.(p_priority)) (r.(p_next)) (r.(p_procsem))
  (r.(p_semquantity)) (r.(p_shmemquantity)) (r.(p_shmref)) (r.(p_shmem))
  (r.(p_addrultima)).
Definition set_p_parent (x : option nat) (r : proc) : proc :=
  mkproc (r.(p_sz)) (r.(p_pgdir)) (r.(p_kstack)) (r.(p_state)) (r.(p_pid)) x
  (r.(p_tf)) (r.(p_context)) (r.(p_chan)) (r.(p_killed)) (r.(p_ofile)) (r.(p_cwd))
  (r.(p_name)) (r.(p_ticksProc)) (r.(p_priority)) (r.(p_next)) (r.(p_procsem))
  (r.(p_semquantity)) (r.(p_shmemquantity)) (r.(p_shmref)) (r.(p_shmem))
  (r.(p_addrultima)).
Definition set_p_tf (x : trapframe) (r : proc) : proc :=
  mkproc (r.(p_sz)) (r.(p_pgdir)) (r.(p_kstack)) (r.(p_state)) (r.(p_pid))
  (r.(p_parent)) x (r.(p_context)) (r.(p_chan)) (r.(p_killed)) (r.(p_ofile))
  (r.(p_cwd)) (r.(p_name)) (r.(p_ticksProc)) (r.(p_priority)) (r.(p_next))
  (r.(p_procsem)) (r.(p_semquantity)) (r.(p_shmemquantity)) (r.(p_shmref))
  (r.(p_shmem)) (r.(p_addrultima)).
Definition set_p_context (x : context) (r : proc) : proc :=
  mkproc (r.(p_sz)) (r.(p_pgdir)) (r.(p_kstack)) (r.(p_state)) (r.(p_pid))
  (r.(p_parent)) (r.(p_tf)) x (r.(p_chan)) (r.(p_killed)) (r.(p_ofile)) (r.(p_cwd))
  (r.(p_name)) (r.(p_ticksProc)) (r.(p_priority)) (r.(p_next)) (r.(p_procsem))
  (r.(p_semquantity)) (r.(p_shmemquantity)) (r.(p_shmref)) (r.(p_shmem))
  (r.(p_addrultima)).
Definition set_p_chan (x : chan) (r : proc) : proc :=
  mkproc (r.(p_sz)) (r.(p_pgdir)) (r.(p_kstack)) (r.(p_state)) (r.(p_pid))
  (r.(p_parent)) (r.(p_tf)) (r.(p_context)) x (r.(p_killed)) (r.(p_ofile)) (r.(p_cwd))
  (r.(p_name)) (r.(p_ticksProc)) (r.(p_priority)) (r.(p_next)) (r.(p_procsem))
  (r.(p_semquantity)) (r.(p_shmemquantity)) (r.(p_shmref)) (r.(p_shmem))
  (r.(p_addrultima)).
Definition set_p_killed (x : Z) (r : proc) : proc :=
  mkproc (r.(p_sz)) (r.(p_pgdir)) (r.(p_kstack)) (r.(p_state)) (r.(p_pid))
  (r.(p_parent)) (r.(p_tf)) (r.(p_context)) (r.(p_chan)) x (r.(p_ofile)) (r.(p_cwd))
  (r.(p_name)) (r.(p_ticksProc)) (r.(p_priority)) (r.(p_next)) (r.(p_procsem))
  (r.(p_semquantity)) (r.(p_shmemquantity)) (r.(p_shmref)) (r.(p_shmem))
  (r.(p_addrultima)).
Definition set_p_ofile (x : list (option nat)) (r : proc) : proc :=
  mkproc (r.(p_sz)) (r.(p_pgdir)) (r.(p_kstack)) (r.(p_state)) (r.(p_pid))
  (r.(p_parent)) (r.(p_tf)) (r.(p_context)) (r.(p_chan)) (r.(p_killed)) x (r.(p_cwd))
  (r.(p_name)) (r.(p_ticksProc)) (r.(p_priority)) (r.(p_next)) (r.(p_procsem))
  (r.(p_semquantity)) (r.(p_shmemquantity)) (r.(p_shmref)) (r.(p_shmem))
  (r.(p_addrultima)).
Definition set_p_cwd (x : option nat) (r : proc) : proc :=
  mkproc (r.(p_sz)) (r.(p_pgdir)) (r.(p_kstack)) (r.(p_state)) (r.(p_pid))
  (r.(p_parent)) (r.(p_tf)) (r.(p_context)) (r.(p_chan)) (r.(p_killed)) (r.(p_ofile))
  x (r.(p_name)) (r.(p_ticksProc)) (r.(p_priority)) (r.(p_next)) (r.(p_procsem))
  (r.(p_semquantity)) (r.(p_shmemquantity)) (r.(p_shmref)) (r.(p_shmem))
  (r.(p_addrultima)).
Definition set_p_name (x : list Z) (r : proc) : proc :=
  mkproc (r.(p_sz)) (r.(p_pgdir)) (r.(p_kstack)) (r.(p_state)) (r.(p_pid))
  (r.(p_parent)) (r.(p_tf)) (r.(p_context)) (r.(p_chan)) (r.(p_killed)) (r.(p_ofile))
  (r.(p_cwd)) x (r.(p_ticksProc)) (r.(p_priority)) (r.(p_next)) (r.(p_procsem))
  (r.(p_semquantity)) (r.(p_shmemquantity)) (r.(p_shmref)) (r.(p_shmem))
  (r.(p_addrultima)).
Definition set_p_ticksProc (x : Z) (r : proc) : proc :=
  mkproc (r.(p_sz)) (r.(p_pgdir)) (r.(p_kstack)) (r.(p_state)) (r.(p_pid))
  (r.(p_parent)) (r.(p_tf)) (r.(p_context)) (r.(p_chan)) (r.(p_killed)) (r.(p_ofile))
  (r.(p_cwd)) (r.(p_name)) x (r.(p_priority)) (r.(p_next)) (r.(p_procsem))
  (r.(p_semquantity)) (r.(p_shmemquantity)) (r.(p_shmref)) (r.(p_shmem))
  (r.(p_addrultima)).
Definition set_p_priority (x : Z) (r : proc) : proc :=
  mkproc (r.(p_sz)) (r.(p_pgdir)) (r.(p_kstack)) (r.(p_state)) (r.(p_pid))
  (r.(p_parent)) (r.(p_tf)) (r.(p_context)) (r.(p_chan)) (r.(p_killed)) (r.(p_ofile))
  (r.(p_cwd)) (r.(p_name)) (r.(p_ticksProc)) x (r.(p_next)) (r.(p_procsem))
  (r.(p_semquantity)) (r.(p_shmemquantity)) (r.(p_shmref)) (r.(p_shmem))
  (r.(p_addrultima)).
Definition set_p_next (x : option nat) (r : proc) : proc :=
  mkproc (r.(p_sz)) (r.(p_pgdir)) (r.(p_kstack)) (r.(p_state)) (r.(p_pid))
  (r.(p_parent)) (r.(p_tf)) (r.(p_context)) (r.(p_chan)) (r.(p_killed)) (r.(p_ofile))
  (r.(p_cwd)) (r.(p_name)) (r.(p_ticksProc)) (r.(p_priority)) x (r.(p_procsem))
  (r.(p_semquantity)) (r.(p_shmemquantity)) (r.(p_shmref)) (r.(p_shmem))
  (r.(p_addrultima)).
Definition set_p_procsem (x : list (option nat)) (r : proc) : proc :=
  mkproc (r.(p_sz)) (r.(p_pgdir)) (r.(p_kstack)) (r.(p_state)) (r.(p_pid))
  (r.(p_parent)) (r.(p_tf)) (r.(p_context)) (r.(p_chan)) (r.(p_killed)) (r.(p_ofile))
  (r.(p_cwd)) (r.(p_name)) (r.(p_ticksProc)) (r.(p_priority)) (r.(p_next)) x
  (r.(p_semquantity)) (r.(p_shmemquantity)) (r.(p_shmref)) (r.(p_shmem))
  (r.(p_addrultima)).
Definition set_p_semquantity (x : Z) (r : proc) : proc :=
  mkproc (r.(p_sz)) (r.(p_pgdir)) (r.(p_kstack)) (r.(p_state)) (r.(p_pid))
  (r.(p_parent)) (r.(p_tf)) (r.(p_context)) (r.(p_chan)) (r.(p_killed)) (r.(p_ofile))
  (r.(p_cwd)) (r.(p_name)) (r.(p_ticksProc)) (r.(p_priority)) (r.(p_next))
  (r.(p_procsem)) x (r.(p_shmemquantity)) (r.(p_shmref)) (r.(p_shmem))
  (r.(p_addrultima)).
Definition set_p_shmemquantity (x : Z) (r : proc) : proc :=
  mkproc (r.(p_sz)) (r.(p_pgdir)) (r.(p_kstack)) (r.(p_state)) (r.(p_pid))
  (r.(p_parent)) (r.(p_tf)) (r.(p_context)) (r.(p_chan)) (r.(p_killed)) (r.(p_ofile))
  (r.(p_cwd)) (r.(p_name)) (r.(p_ticksProc)) (r.(p_priority)) (r.(p_next))
  (r.(p_procsem)) (r.(p_semquantity)) x (r.(p_shmref)) (r.(p_shmem))
  (r.(p_addrultima)).
Definition set_p_shmref (x : list Z) (r : proc) : proc :=
  mkproc (r.(p_sz)) (r.(p_pgdir)) (r.(p_kstack)) (r.(p_state)) (r.(p_pid))
  (r.(p_parent)) (r.(p_tf)) (r.(p_context)) (r.(p_chan)) (r.(p_killed)) (r.(p_ofile))
  (r.(p_cwd)) (r.(p_name)) (r.(p_ticksProc)) (r.(p_priority)) (r.(p_next))
  (r.(p_procsem)) (r.(p_semquantity)) (r.(p_shmemquantity)) x (r.(p_shmem))
  (r.(p_addrultima)).
Definition set_p_shmem (x : list Z) (r : proc) : proc :=
  mkproc (r.(p_sz)) (r.(p_pgdir)) (r.(p_kstack)) (r.(p_state)) (r.(p_pid))
  (r.(p_parent)) (r.(p_tf)) (r.(p_context)) (r.(p_chan)) (r.(p_killed)) (r.(p_ofile))
  (r.(p_cwd)) (r.(p_name)) (r.(p_ticksProc)) (r.(p_priority)) (r.(p_next))
  (r.(p_procsem)) (r.(p_semquantity)) (r.(p_shmemquantity)) (r.(p_shmref)) x
  (r.(p_addrultima)).
Definition set_p_addrultima (x : Z) (r : proc) : proc :=
  mkproc (r.(p_sz)) (r.(p_pgdir)) (r.(p_kstack)) (r.(p_state)) (r.(p_pid))
  (r.(p_parent)) (r.(p_tf)) (r.(p_context)) (r.(p_chan)) (r.(p_killed)) (r.(p_ofile))
  (r.(p_cwd)) (r.(p_name)) (r.(p_ticksProc)) (r.(p_priority)) (r.(p_next))
  (r.(p_procsem)) (r.(p_semquantity)) (r.(p_shmemquantity)) (r.(p_shmref))
  (r.(p_shmem)) x.

Definition set_n_first (x : option nat) (r : node) : node :=
  mknode x (r.(n_last)).
Definition set_n_last (x : option nat) (r : node) : node :=
  mknode (r.(n_first)) x.

Definition set_value (x : Z) (r : sem) : sem :=
  mksem x (r.(refcount)).
Definition set_refcount (x : Z) (r : sem) : sem :=
  mksem (r.(value)) x.

Definition set_addr (x : Z) (r : sharedmemory) : sharedmemory :=
  mkshm x (r.(shm_refcount)).
Definition set_shm_refcount (x : Z) (r : sharedmemory) : sharedmemory :=
  mkshm (r.(addr)) x.

Definition set_lks (x : lockst) (r : kst) : kst :=
  mkkst x (r.(procs)) (r.(mlf)) (r.(nextpid)) (r.(initproc)) (r.(curproc)) (r.(sems))
  (r.(sem_first_time)) (r.(shmtab)) (r.(shm_quantity)) (r.(freelist)) (r.(use_lock))
  (r.(mem)) (r.(cr3)) (r.(kpgdir)) (r.(ts_esp0)) (r.(ticks)) (r.(cout)) (r.(fs)).
Definition set_procs (x : list proc) (r : kst) : kst :=
  mkkst (r.(lks)) x (r.(mlf)) (r.(nextpid)) (r.(initproc)) (r.(curproc)) (r.(sems))
  (r.(sem_first_time)) (r.(shmtab)) (r.(shm_quantity)) (r.(freelist)) (r.(use_lock))
  (r.(mem)) (r.(cr3)) (r.(kpgdir)) (r.(ts_esp0)) (r.(ticks)) (r.(cout)) (r.(fs)).
Definition set_mlf (x : list node) (r : kst) : kst :=
  mkkst (r.(lks)) (r.(procs)) x (r.(nextpid)) (r.(initproc)) (r.(curproc)) (r.(sems))
  (r.(sem_first_time)) (r.(shmtab)) (r.(shm_quantity)) (r.(freelist)) (r.(use_lock))
  (r.(mem)) (r.(cr3)) (r.(kpgdir)) (r.(ts_esp0)) (r.(ticks)) (r.(cout)) (r.(fs)).
Definition set_nextpid (x : Z) (r : kst) : kst :=
  mkkst (r.(lks)) (r.(procs)) (r.(mlf)) x (r.(initproc)) (r.(curproc)) (r.(sems))
  (r.(sem_first_time)) (r.(shmtab)) (r.(shm_quantity)) (r.(freelist)) (r.(use_lock))
  (r.(mem)) (r.(cr3)) (r.(kpgdir)) (r.(ts_esp0)) (r.(ticks)) (r.(cout)) (r.(fs)).
Definition set_initproc (x : option nat) (r : kst) : kst :=
  mkkst (r.(lks)) (r.(procs)) (r.(mlf)) (r.(nextpid)) x (r.(curproc)) (r.(sems))
  (r.(sem_first_time)) (r.(shmtab)) (r.(shm_quantity)) (r.(freelist)) (r.(use_lock))
  (r.(mem)) (r.(cr3)) (r.(kpgdir)) (r.(ts_esp0)) (r.(ticks)) (r.(cout)) (r.(fs)).
Definition set_curproc (x : option nat) (r : kst) : kst :=
  mkkst (r.(lks)) (r.(procs)) (r.(mlf)) (r.(nextpid)) (r.(initproc)) x (r.(sems))
  (r.(sem_first_time)) (r.(shmtab)) (r.(shm_quantity)) (r.(freelist)) (r.(use_lock))
  (r.(mem)) (r.(cr3)) (r.(kpgdir)) (r.(ts_esp0)) (r.(ticks)) (r.(cout)) (r.(fs)).
Definition set_sems (x : list sem) (r : kst) : kst :=
  mkkst (r.(lks)) (r.(procs)) (r.(mlf)) (r.(nextpid)) (r.(initproc)) (r.(curproc)) x
  (r.(sem_first_time)) (r.(shmtab)) (r.(shm_quantity)) (r.(freelist)) (r.(use_lock))
  (r.(mem)) (r.(cr3)) (r.(kpgdir)) (r.(ts_esp0)) (r.(ticks)) (r.(cout)) (r.(fs)).
Definition set_sem_first_time (x : bool) (r : kst) : kst :=
  mkkst (r.(lks)) (r.(procs)) (r.(mlf)) (r.(nextpid)) (r.(initproc)) (r.(curproc))
  (r.(sems)) x (r.(shmtab)) (r.(shm_quantity)) (r.(freelist)) (r.(use_lock)) (r.(mem))
  (r.(cr3)) (r.(kpgdir)) (r.(ts_esp0)) (r.(ticks)) (r.(cout)) (r.(fs)).
Definition set_shmtab (x : list sharedmemory) (r : kst) : kst :=
  mkkst (r.(lks)) (r.(procs)) (r.(mlf)) (r.(nextpid)) (r.(initproc)) (r.(curproc))
  (r.(sems)) (r.(sem_first_time)) x (r.(shm_quantity)) (r.(freelist)) (r.(use_lock))
  (r.(mem)) (r.(cr3)) (r.(kpgdir)) (r.(ts_esp0)) (r.(ticks)) (r.(cout)) (r.(fs)).
Definition set_shm_quantity (x : Z) (r : kst) : kst :=
  mkkst (r.(lks)) (r.(procs)) (r.(mlf)) (r.(nextpid)) (r.(initproc)) (r.(curproc))
  (r.(sems)) (r.(sem_first_time)) (r.(shmtab)) x (r.(freelist)) (r.(use_lock))
  (r.(mem)) (r.(cr3)) (r.(kpgdir)) (r.(ts_esp0)) (r.(ticks)) (r.(cout)) (r.(fs)).
Definition set_freelist (x : Z) (r : kst) : kst :=
  mkkst (r.(lks)) (r.(procs)) (r.(mlf)) (r.(nextpid)) (r.(initproc)) (r.(curproc))
  (r.(sems)) (r.(sem_first_time)) (r.(shmtab)) (r.(shm_quantity)) x (r.(use_lock))
  (r.(mem)) (r.(cr3)) (r.(kpgdir)) (r.(ts_esp0)) (r.(ticks)) (r.(cout)) (r.(fs)).
Definition set_use_lock (x : bool) (r : kst) : kst :=
  mkkst (r.(lks)) (r.(procs)) (r.(mlf)) (r.(nextpid)) (r.(initproc)) (r.(curproc))
  (r.(sems)) (r.(sem_first_time)) (r.(shmtab)) (r.(shm_quantity)) (r.(freelist)) x
  (r.(mem)) (r.(cr3)) (r.(kpgdir)) (r.(ts_esp0)) (r.(ticks)) (r.(cout)) (r.(fs)).
Definition set_mem (x : Z -> Z) (r : kst) : kst :=
  mkkst (r.(lks)) (r.(procs)) (r.(mlf)) (r.(nextpid)) (r.(initproc)) (r.(curproc))
  (r.(sems)) (r.(sem_first_time)) (r.(shmtab)) (r.(shm_quantity)) (r.(freelist))
  (r.(use_lock)) x (r.(cr3)) (r.(kpgdir)) (r.(ts_esp0)) (r.(ticks)) (r.(cout))
  (r.(fs)).
Definition set_cr3 (x : Z) (r : kst) : kst :=
  mkkst (r.(lks)) (r.(procs)) (r.(mlf)) (r.(nextpid)) (r.(initproc)) (r.(curproc))
  (r.(sems)) (r.(sem_first_time)) (r.(shmtab)) (r.(shm_quantity)) (r.(freelist))
  (r.(use_lock)) (r.(mem)) x (r.(kpgdir)) (r.(ts_esp0)) (r.(ticks)) (r.(cout))
  (r.(fs)).
Definition set_kpgdir (x : Z) (r : kst) : kst :=
  mkkst (r.(lks)) (r.(procs)) (r.(mlf)) (r.(nextpid)) (r.(initproc)) (r.(curproc))
  (r.(sems)) (r.(sem_first_time)) (r.(shmtab)) (r.(shm_quantity)) (r.(freelist))
  (r.(use_lock)) (r.(mem)) (r.(cr3)) x (r.(ts_esp0)) (r.(ticks)) (r.(cout)) (r.(fs)).
Definition set_ts_esp0 (x : Z) (r : kst) : kst :=
  mkkst (r.(lks)) (r.(procs)) (r.(mlf)) (r.(nextpid)) (r.(initproc)) (r.(curproc))
  (r.(sems)) (r.(sem_first_time)) (r.(shmtab)) (r.(shm_quantity)) (r.(freelist))
  (r.(use_lock)) (r.(mem)) (r.(cr3)) (r.(kpgdir)) x (r.(ticks)) (r.(cout)) (r.(fs)).
Definition set_ticks (x : Z) (r : kst) : kst :=
  mkkst (r.(lks)) (r.(procs)) (r.(mlf)) (r.(nextpid)) (r.(initproc)) (r.(curproc))
  (r.(sems)) (r.(sem_first_time)) (r.(shmtab)) (r.(shm_quantity)) (r.(freelist))
  (r.(use_lock)) (r.(mem)) (r.(cr3)) (r.(kpgdir)) (r.(ts_esp0)) x (r.(cout)) (r.(fs)).
Definition set_cout (x : list string) (r : kst) : kst :=
  mkkst (r.(lks)) (r.(procs)) (r.(mlf)) (r.(nextpid)) (r.(initproc)) (r.(curproc))
  (r.(sems)) (r.(sem_first_time)) (r.(shmtab)) (r.(shm_quantity)) (r.(freelist))
  (r.(use_lock)) (r.(mem)) (r.(cr3)) (r.(kpgdir)) (r.(ts_esp0)) (r.(ticks)) x
  (r.(fs)).
Definition set_fs (x : fsst) (r : kst) : kst :=
  mkkst (r.(lks)) (r.(procs)) (r.(mlf)) (r.(nextpid)) (r.(initproc)) (r.(curproc))
  (r.(sems)) (r.(sem_first_time)) (r.(shmtab)) (r.(shm_quantity)) (r.(freelist))
  (r.(use_lock)) (r.(mem)) (r.(cr3)) (r.(kpgdir)) (r.(ts_esp0)) (r.(ticks)) (r.(cout))
  x.

(** ** Access to the process table *)

Definition upd_proc (i : nat) (f : proc -> proc) (s : kst) : kst :=
  set_procs (alter f i (procs s)) s.

Definition getp (i : nat) : M kst proc := p <- gets (fun s => procs s !! i) ;; deref p.

Definition modp (i : nat) (f : proc -> proc) : M kst unit :=
  _ <- getp i ;; modify (upd_proc i f).

(** [proc], the process that runs on this CPU; null in the scheduler. *)
Definition myproc : M kst nat := o <- gets curproc ;; deref o.

(** [cprintf] of a constant message. *)
Definition cprint (m : string) : M kst unit := modify (fun s => set_cout (cout s ++ [m]) s).

(** Run a change of the file-system part of the state. *)
Definition modfs (f : fsst -> fsst) : M kst unit := modify (fun s => set_fs (f (fs s)) s).
Definition getfs {A} (f : fsst -> A) : M kst A := gets (fun s => f (fs s)).

(** The zero-initialised [struct proc] of the bss segment. *)
Definition proc0 : proc :=
  mkproc 0 0 0 UNUSED 0 None
    (mktf 0 0 0 0 0 0 0 0 0 0 0 0 0 0 0 0 0 0 0) (mkcontext 0 0 0 0 0)
    CNull 0 (replicate (Z.to_nat NOFILE) None) None (replicate 16 0) 0 0 None
    (replicate (Z.to_nat MAXSEMPROC) None) 0 0
    (replicate (Z.to_nat MAXSHMPROC) 0) (replicate (Z.to_nat MAXSHMPROC) 0) 0.

(** The state the boot loader leaves: every global zero-initialised, interrupts
    off, running on CPU 0. *)
Definition kst0 : kst :=
  mkkst (mklockst (mkcpu 0 0 false false) ∅)
    (replicate (Z.to_nat NPROC) proc0)
    (replicate (Z.to_nat SIZEMLF) (mknode None None))
    1 None None
    (replicate (Z.to_nat MAXSEM) (mksem 0 0)) true
    (replicate (Z.to_nat MAXSHM) (mkshm 0 0)) 0
    0 false (fun _ => 0) 0 0 0 0 [] (fsst0 (fun _ _ => replicate (Z.to_nat BSIZE) 0)).

Lemma lookup_upd_proc i f s j :
  procs (upd_proc i f s) !! j = if decide (i = j) then f <$> procs s !! j else procs s !! j.
Proof.
  unfold upd_proc. simpl. destruct (decide (i = j)) as [->|Hne].
  - apply list_lookup_alter_eq.
  - by apply list_lookup_alter_ne.
Qed.

Lemma length_upd_proc i f s : length (procs (upd_proc i f s)) = length (procs s).
Proof. apply length_alter. Qed.

Lemma getp_ret s i p : procs s !! i = Some p -> getp i s = Ret p s.
Proof. intros H. unfold getp, bind, gets. simpl. now rewrite H. Qed.

Lemma modp_ret s i p f : procs s !! i = Some p -> modp i f s = Ret tt (upd_proc i f s).
Proof. intros H. unfold modp. by rewrite (bind_ret _ _ _ _ _ (getp_ret _ _ _ H)). Qed.

Lemma myproc_ret s i : curproc s = Some i -> myproc s = Ret i s.
Proof. intros H. unfold myproc, bind, gets. simpl. now rewrite H. Qed.

#[export] Hint Rewrite lookup_upd_proc length_upd_proc : xv6.
