(* ===== verification/Spinlock.v ===== *)
(** * Spin locks

    [spinlock.c]: [pushcli]/[popcli] nesting, [acquire] and [release] as
    routines of the running CPU, and the lock protocol of several CPUs as a step
    relation in which every shared access ([xchg], the store to [lk->cpu]) is a
    step of its own. *)

From stdpp Require Import base list numbers strings tactics gmap functions relations.
From Stdlib Require Import Lia.
From S2P Require Import Prelude Params KState.

Local Open Scope Z_scope.
Local Open Scope xv6_scope.

Definition initlock (lk : lockid) (name : string) : M lockst unit :=
  modify (fun s => set_lk_tab (<[lk := mkspinlock 0 name None]> (lk_tab s)) s).

(** [lock->locked && lock->cpu == cpu] *)
Definition holds (lk : lockid) (s : lockst) : bool :=
  negb (locked (lkof s lk) =? 0) &&
  bool_decide (lcpu (lkof s lk) = Some (cpu_id (lk_cpu s))).

Definition holding (lk : lockid) : M lockst bool := gets (holds lk).

Definition modcpu (f : cpu -> cpu) : M lockst unit :=
  modify (fun s => set_lk_cpu (f (lk_cpu s)) s).

Definition readeflags : M lockst bool := gets (fun s => eflags_IF (lk_cpu s)).
Definition cli : M lockst unit := modcpu (set_eflags_IF false).
Definition sti : M lockst unit := modcpu (set_eflags_IF true).

(** [xchg(&lk->locked, v)]: store [v], return the old value. *)
Definition xchg (lk : lockid) (v : Z) : M lockst Z :=
  s <- get ;;
  modify (fun s => set_lk_tab (<[lk := set_locked v (lkof s lk)]> (lk_tab s)) s) ;;;
  ret (locked (lkof s lk)).

Definition setlcpu (lk : lockid) (c : option Z) : M lockst unit :=
  modify (fun s => set_lk_tab (<[lk := set_lcpu c (lkof s lk)]> (lk_tab s)) s).

Definition pushcli : M lockst unit :=
  eflags <- readeflags ;;
  cli ;;;
  n <- gets (fun s => ncli (lk_cpu s)) ;;
  modcpu (set_ncli (n + 1)) ;;;
  when (n =? 0) (modcpu (set_intena eflags)).

Definition popcli : M lockst unit :=
  eflags <- readeflags ;;
  if eflags then panic "popcli - interruptible" else
  n <- gets (fun s => ncli (lk_cpu s)) ;;
  modcpu (set_ncli (n - 1)) ;;;
  if n - 1 <? 0 then panic "popcli" else
  c <- gets lk_cpu ;;
  when ((ncli c =? 0) && intena c) sti.

(** The [while(xchg(...) != 0)] loop ends at once or waits for another CPU. *)
Definition acquire_ (lk : lockid) : M lockst unit :=
  pushcli ;;;
  h <- holding lk ;;
  if h then panic "acquire" else
  old <- xchg lk 1 ;;
  if negb (old =? 0) then (fun _ => Spin) else
  c <- gets lk_cpu ;;
  setlcpu lk (Some (cpu_id c)).

Definition release_ (lk : lockid) : M lockst unit :=
  h <- holding lk ;;
  if negb h then panic "release" else
  setlcpu lk None ;;;
  xchg lk 0 ;;;
  popcli.

(** The same operations on the whole kernel state. *)
Definition onlks {A} (m : M lockst A) : M kst A := zoom lks set_lks m.
Definition acquire (lk : lockid) : M kst unit := onlks (acquire_ lk).
Definition release (lk : lockid) : M kst unit := onlks (release_ lk).

(** ** Sequential behaviour *)

(** A lock nobody holds. *)
Definition lk_free (lk : lockid) (s : lockst) : Prop :=
  locked (lkof s lk) = 0 /\ lcpu (lkof s lk) = None.

(** Interrupts are off whenever the CPU is inside a [pushcli]. *)
Definition cli_ok (s : lockst) : Prop :=
  0 <= ncli (lk_cpu s) /\ (0 < ncli (lk_cpu s) -> eflags_IF (lk_cpu s) = false).

Definition cpu_push (c : cpu) : cpu :=
  mkcpu (cpu_id c) (ncli c + 1)
    (if ncli c =? 0 then eflags_IF c else intena c) false.

Definition cpu_pop (c : cpu) : cpu :=
  mkcpu (cpu_id c) (ncli c - 1) (intena c) ((ncli c - 1 =? 0) && intena c).

Definition lk_acq (lk : lockid) (s : lockst) : lockst :=
  mklockst (cpu_push (lk_cpu s))
    (<[lk := mkspinlock 1 (lname (lkof s lk)) (Some (cpu_id (lk_cpu s)))]> (lk_tab s)).

Definition lk_rel (lk : lockid) (s : lockst) : lockst :=
  mklockst (cpu_pop (lk_cpu s))
    (<[lk := mkspinlock 0 (lname (lkof s lk)) None]> (lk_tab s)).

Lemma pushcli_ret s : pushcli s = Ret tt (set_lk_cpu (cpu_push (lk_cpu s)) s).
Proof.
  unfold pushcli, cpu_push. destruct s as [[i n a f] t]. unfold bind. simpl.
  destruct (n =? 0); reflexivity.
Qed.

Lemma popcli_ret s :
  eflags_IF (lk_cpu s) = false -> 0 < ncli (lk_cpu s) ->
  popcli s = Ret tt (set_lk_cpu (cpu_pop (lk_cpu s)) s).
Proof.
  destruct s as [[i n a f] t]. simpl. intros -> Hn. unfold popcli, bind. simpl.
  destruct (Z.ltb_spec (n - 1) 0); [lia|]. unfold cpu_pop. simpl.
  destruct (n - 1 =? 0), a; reflexivity.
Qed.

Lemma lkof_set_eq s l k : lkof (set_lk_tab (<[l := k]> (lk_tab s)) s) l = k.
Proof. unfold lkof. simpl. by rewrite lookup_insert_eq. Qed.

Lemma lkof_insert c t l k l' :
  lkof (mklockst c (<[l := k]> t)) l' = if decide (l = l') then k else lkof (mklockst c t) l'.
Proof. unfold lkof. simpl. rewrite lookup_insert. by case_decide. Qed.

Lemma acquire_free lk s :
  lk_free lk s -> acquire_ lk s = Ret tt (lk_acq lk s).
Proof.
  intros [Hl Hc]. unfold acquire_. rstep (pushcli_ret s).
  set (s1 := set_lk_cpu _ s). unfold holding, holds. rewrite bind_gets.
  change (lkof s1 lk) with (lkof s lk). rewrite Hl. cbn [Z.eqb negb andb].
  unfold xchg. unfold bind at 1 2, get, modify, ret. cbn -[set_locked lkof].
  change (lkof s1 lk) with (lkof s lk). rewrite Hl. cbn -[lkof].
  unfold setlcpu, modify, lk_acq, set_lk_tab, s1. cbn -[lkof].
  by rewrite lkof_insert, decide_True, insert_insert_eq by done.
Qed.

Lemma release_held lk s :
  holds lk s = true -> eflags_IF (lk_cpu s) = false -> 0 < ncli (lk_cpu s) ->
  release_ lk s = Ret tt (lk_rel lk s).
Proof.
  intros Hh Hi Hn. unfold release_, holding. rewrite bind_gets, Hh. msimp.
  unfold setlcpu. msimp. unfold xchg. unfold bind at 1 2, get, modify, ret.
  cbn -[lkof popcli set_locked]. rewrite popcli_ret by done.
  rewrite lkof_set_eq. unfold lk_rel, set_lk_cpu. cbn -[lkof].
  by rewrite insert_insert_eq.
Qed.

(** Two lock states that no lock operation can tell apart: [intena] is only
    meaningful inside a [pushcli]. *)
Record lks_eq (a b : lockst) : Prop := mk_lks_eq {
  lke_tab : forall l, lkof a l = lkof b l;
  lke_id : cpu_id (lk_cpu a) = cpu_id (lk_cpu b);
  lke_ncli : ncli (lk_cpu a) = ncli (lk_cpu b);
  lke_if : eflags_IF (lk_cpu a) = eflags_IF (lk_cpu b);
  lke_intena : 0 < ncli (lk_cpu a) -> intena (lk_cpu a) = intena (lk_cpu b)
}.

#[export] Instance lks_eq_equiv : Equivalence lks_eq.
Proof.
  split.
  - by intros a; constructor.
  - intros a b [H1 H2 H3 H4 H5]. constructor; auto. intros H.
    symmetry. apply H5. by rewrite H3.
  - intros a b c [H1 H2 H3 H4 H5] [G1 G2 G3 G4 G5].
    constructor; try congruence. intros H. rewrite H5 by done. apply G5. by rewrite <- H3.
Qed.

#[export] Instance lk_free_proper l : Proper (lks_eq ==> iff) (lk_free l).
Proof. intros a b [H1 _ _ _ _]. unfold lk_free. by rewrite H1. Qed.

#[export] Instance cli_ok_proper : Proper (lks_eq ==> iff) cli_ok.
Proof. intros a b [_ _ H3 H4 _]. unfold cli_ok. by rewrite H3, H4. Qed.

#[export] Instance holds_proper l : Proper (lks_eq ==> eq) (holds l).
Proof. intros a b [H1 H2 _ _ _]. unfold holds. by rewrite H1, H2. Qed.

#[export] Instance lk_acq_proper l : Proper (lks_eq ==> lks_eq) (lk_acq l).
Proof.
  intros a b [H1 H2 H3 H4 H5]. unfold lk_acq. constructor; simpl; auto; try congruence.
  - intros l'. rewrite !lkof_insert. rewrite (H1 l), H2. case_decide; [done|]. apply H1.
  - intros H. rewrite <- H3. destruct (Z.eqb_spec (ncli (lk_cpu a)) 0); [done|].
    apply H5. lia.
Qed.

#[export] Instance lk_rel_proper l : Proper (lks_eq ==> lks_eq) (lk_rel l).
Proof.
  intros a b [H1 H2 H3 H4 H5]. unfold lk_rel. constructor; simpl; auto; try congruence.
  - intros l'. rewrite !lkof_insert. rewrite (H1 l). case_decide; [done|]. apply H1.
  - rewrite <- H3. destruct (Z.eqb_spec (ncli (lk_cpu a) - 1) 0); simpl; [|done].
    apply H5. lia.
  - intros H. apply H5. lia.
Qed.

(** [acquire] then [release] brings the locks back. *)
Lemma lk_cycle l s : lk_free l s -> cli_ok s -> lks_eq s (lk_rel l (lk_acq l s)).
Proof.
  intros [Hl Hc] [Hn Hi]. unfold lk_rel, lk_acq. constructor; simpl; auto.
  - intros l'. rewrite lkof_insert. case_decide as Hd.
    + subst. rewrite lkof_insert. rewrite decide_True by done. simpl.
      destruct (lkof s l') as [a n c]. simpl in *. congruence.
    + rewrite lkof_insert, decide_False by done. by destruct s.
  - lia.
  - destruct (Z.eqb_spec (ncli (lk_cpu s)) 0) as [E|E].
    + rewrite E. simpl. done.
    + destruct (Z.eqb_spec (ncli (lk_cpu s) + 1 - 1) 0); [lia|]. simpl. apply Hi. lia.
  - intros H. destruct (Z.eqb_spec (ncli (lk_cpu s)) 0); [lia|done].
Qed.

Lemma lk_acq_holds l s : holds l (lk_acq l s) = true.
Proof.
  unfold holds, lk_acq. rewrite lkof_insert, decide_True by done. simpl.
  by rewrite bool_decide_true.
Qed.

Lemma lk_acq_cli_ok l s : cli_ok s -> cli_ok (lk_acq l s).
Proof. unfold cli_ok. simpl. intros [H _]. split; [lia | done]. Qed.

Lemma lk_acq_free l l' s : l <> l' -> lk_free l' s -> lk_free l' (lk_acq l s).
Proof.
  unfold lk_free, lk_acq. intros Hne H. rewrite lkof_insert, decide_False by done.
  by destruct s.
Qed.

(** On the kernel state. *)
Lemma acquire_ret l s :
  lk_free l (lks s) -> acquire l s = Ret tt (set_lks (lk_acq l (lks s)) s).
Proof. intros H. apply zoom_ret. by apply acquire_free. Qed.

Lemma release_run l s :
  holds l (lks s) = true -> eflags_IF (lk_cpu (lks s)) = false -> 0 < ncli (lk_cpu (lks s)) ->
  release l s = Ret tt (set_lks (lk_rel l (lks s)) s).
Proof. intros. apply zoom_ret. by apply release_held. Qed.

Lemma release_ret l l0 s :
  lks_eq (lk_acq l l0) (lks s) -> lk_free l l0 -> cli_ok l0 ->
  release l s = Ret tt (set_lks (lk_rel l (lks s)) s) /\ lks_eq l0 (lk_rel l (lks s)).
Proof.
  intros He Hf Hc. split.
  - apply release_run.
    + rewrite <- He. apply lk_acq_holds.
    + by rewrite <- (lke_if _ _ He).
    + rewrite <- (lke_ncli _ _ He). simpl. destruct Hc. lia.
  - rewrite <- He. by apply lk_cycle.
Qed.

(** ** Errors *)

(** Acquiring a lock that this CPU already holds panics. *)
Lemma acquire_held lk s : holds lk s = true -> acquire_ lk s = Panic "acquire".
Proof.
  intros H. unfold acquire_. rstep (pushcli_ret s). unfold holding. rewrite bind_gets.
  change (holds lk (set_lk_cpu (cpu_push (lk_cpu s)) s)) with (holds lk s). by rewrite H.
Qed.

(** Releasing a lock that this CPU does not hold panics. *)
Lemma release_not_held lk s : holds lk s = false -> release_ lk s = Panic "release".
Proof. intros H. unfold release_, holding. rewrite bind_gets, H. done. Qed.

(** ** Several CPUs

    The shared accesses of [acquire] and [release], one step each.  The flag
    [own] of a program point records whether the CPU was already past [acquire]
    when it entered the routine, so misuse (a second [acquire], a [release]
    without the lock) is part of the model. *)
Module Smp.

Inductive pc :=
| Idle                      (* outside the lock's critical section *)
| AcqLocked (own : bool)    (* acquire: holding() about to read lk->locked *)
| AcqCpu (own : bool)       (* acquire: holding() about to read lk->cpu *)
| Spinning (own : bool)     (* acquire: about to xchg *)
| Got                       (* acquire: xchg returned 0, about to store lk->cpu *)
| Crit                      (* acquire returned *)
| RelLocked (own : bool)    (* release: holding() about to read lk->locked *)
| RelCpu (own : bool)       (* release: holding() about to read lk->cpu *)
| Clear (own : bool)        (* release: about to store lk->cpu = 0 *)
| Unlock (own : bool)       (* release: about to xchg 0 *)
| PanicAcq (own : bool)
| PanicRel (own : bool).

Record smp := mksmp { slk : spinlock; pcs : Z -> pc }.

Definition goto (s : smp) (c : Z) (p : pc) : smp := mksmp (slk s) (<[c := p]> (pcs s)).

Definition init : smp := mksmp lock0 (fun _ => Idle).

Inductive step : smp -> smp -> Prop :=
| acquire_call (s : smp) (c : Z) (own : bool) :
    pcs s c = (if own then Crit else Idle) -> step s (goto s c (AcqLocked own))
| acquire_locked (s : smp) (c : Z) (own : bool) :
    pcs s c = AcqLocked own ->
    step s (goto s c (if locked (slk s) =? 0 then Spinning own else AcqCpu own))
| acquire_cpu (s : smp) (c : Z) (own : bool) :
    pcs s c = AcqCpu own ->
    step s (goto s c (if bool_decide (lcpu (slk s) = Some c) then PanicAcq own else Spinning own))
| acquire_xchg (s : smp) (c : Z) (own : bool) :
    pcs s c = Spinning own ->
    step s (mksmp (set_locked 1 (slk s))
              (<[c := if locked (slk s) =? 0 then Got else Spinning own]> (pcs s)))
| acquire_store (s : smp) (c : Z) :
    pcs s c = Got ->
    step s (mksmp (set_lcpu (Some c) (slk s)) (<[c := Crit]> (pcs s)))
| release_call (s : smp) (c : Z) (own : bool) :
    pcs s c = (if own then Crit else Idle) -> step s (goto s c (RelLocked own))
| release_locked (s : smp) (c : Z) (own : bool) :
    pcs s c = RelLocked own ->
    step s (goto s c (if locked (slk s) =? 0 then PanicRel own else RelCpu own))
| release_cpu (s : smp) (c : Z) (own : bool) :
    pcs s c = RelCpu own ->
    step s (goto s c (if bool_decide (lcpu (slk s) = Some c) then Clear own else PanicRel own))
| release_store (s : smp) (c : Z) (own : bool) :
    pcs s c = Clear own ->
    step s (mksmp (set_lcpu None (slk s)) (<[c := Unlock own]> (pcs s)))
| release_xchg (s : smp) (c : Z) (own : bool) :
    pcs s c = Unlock own ->
    step s (mksmp (set_locked 0 (slk s)) (<[c := Idle]> (pcs s))).

(** The CPU has passed the [xchg] of [acquire] and not that of [release]. *)
Definition owner (p : pc) : bool :=
  match p with
  | Got | Crit | AcqLocked true | AcqCpu true | RelLocked true | RelCpu true
  | Clear true | Unlock true | PanicAcq true => true
  | _ => false
  end.

(** ... and its number is in [lk->cpu]. *)
Definition stamped (p : pc) : bool :=
  owner p && match p with Got | Unlock _ => false | _ => true end.

(** Program points that a misused lock must never let a CPU reach. *)
Definition bad (p : pc) : bool :=
  match p with
  | Spinning true | PanicAcq false | PanicRel true | Clear false | Unlock false => true
  | _ => false
  end.

Record inv (s : smp) : Prop := mkinv {
  inv_excl : forall c d, owner (pcs s c) = true -> owner (pcs s d) = true -> c = d;
  inv_locked : forall c, owner (pcs s c) = true -> locked (slk s) = 1;
  inv_cpu : forall c, lcpu (slk s) = Some c <-> stamped (pcs s c) = true;
  inv_bad : forall c, bad (pcs s c) = false
}.

Lemma inv_init : inv init.
Proof. split; simpl; try done. Qed.

(** Case analysis on whether an updated CPU is the one that is looked at. *)
Ltac pcase :=
  repeat match goal with
  | H : context [(<[?c := ?p]> ?f) ?d] |- _ =>
      destruct (decide (c = d)) as [<-|];
      [rewrite fn_lookup_insert in H | rewrite fn_lookup_insert_ne in H by done]
  | |- context [(<[?c := ?p]> ?f) ?d] =>
      destruct (decide (c = d)) as [<-|];
      [rewrite fn_lookup_insert | rewrite fn_lookup_insert_ne by done]
  end.

(** A step that leaves the lock alone and keeps the CPU's standing. *)
Lemma inv_goto s c p :
  inv s -> owner p = owner (pcs s c) -> stamped p = stamped (pcs s c) -> bad p = false ->
  inv (goto s c p).
Proof.
  intros [I1 I2 I3 I4] Ho Hs Hb. split; simpl.
  - intros d e. pcase; rewrite ?Ho; auto.
  - intros d. pcase; rewrite ?Ho; eauto.
  - intros d. pcase; rewrite ?Hs; auto.
  - intros d. pcase; auto.
Qed.

Lemma inv_xchg s c own :
  inv s -> pcs s c = Spinning own ->
  inv (mksmp (set_locked 1 (slk s))
         (<[c := if locked (slk s) =? 0 then Got else Spinning own]> (pcs s))).
Proof.
  intros [I1 I2 I3 I4] Hp. pose proof (I4 c) as Hb. pose proof (I3 c) as Hc.
  rewrite Hp in Hb, Hc. destruct own; [done|].
  assert (Hfree : locked (slk s) = 0 -> forall d, owner (pcs s d) = false).
  { intros H0 d. destruct (owner (pcs s d)) eqn:E; [|done]. apply I2 in E. congruence. }
  split; simpl.
  - intros d e. destruct (Z.eqb_spec (locked (slk s)) 0) as [E|E]; pcase; try done.
    + intros _. by rewrite Hfree.
    + by rewrite Hfree.
    + by apply I1.
    + by apply I1.
  - done.
  - intros d. destruct (Z.eqb_spec (locked (slk s)) 0) as [E|E]; pcase; auto.
  - intros d. destruct (locked (slk s) =? 0); pcase; auto.
Qed.

Lemma inv_store s c :
  inv s -> pcs s c = Got -> inv (mksmp (set_lcpu (Some c) (slk s)) (<[c := Crit]> (pcs s))).
Proof.
  intros [I1 I2 I3 I4] Hp.
  assert (Hc : owner (pcs s c) = true) by now rewrite Hp.
  split; simpl.
  - intros d e. pcase; auto; intros; apply I1; auto.
  - intros d. pcase; eauto.
  - intros d. pcase; [done|]. split; [congruence|]. intros Hd.
    assert (c = d); [|done]. apply I1; [done|]. unfold stamped in Hd.
    by apply andb_prop in Hd as [? _].
  - intros d. pcase; auto.
Qed.

Lemma inv_clear s c own :
  inv s -> pcs s c = Clear own ->
  inv (mksmp (set_lcpu None (slk s)) (<[c := Unlock own]> (pcs s))).
Proof.
  intros [I1 I2 I3 I4] Hp. pose proof (I4 c) as Hb. rewrite Hp in Hb. destruct own; [|done].
  assert (Hc : owner (pcs s c) = true) by now rewrite Hp.
  split; simpl.
  - intros d e. pcase; auto; intros; apply I1; auto.
  - intros d. pcase; eauto.
  - intros d. pcase; [done|]. split; [done|]. intros Hd.
    assert (c = d); [|done]. apply I1; [done|]. unfold stamped in Hd.
    by apply andb_prop in Hd as [? _].
  - intros d. pcase; auto.
Qed.

Lemma inv_unlock s c own :
  inv s -> pcs s c = Unlock own ->
  inv (mksmp (set_locked 0 (slk s)) (<[c := Idle]> (pcs s))).
Proof.
  intros [I1 I2 I3 I4] Hp. pose proof (I4 c) as Hb. rewrite Hp in Hb. destruct own; [|done].
  assert (Hc : owner (pcs s c) = true) by now rewrite Hp.
  pose proof (I3 c) as Hl. rewrite Hp in Hl.
  split; simpl.
  - intros d e. pcase; auto; done.
  - intros d. pcase; [done|]. intros Hd. exfalso. auto.
  - intros d. pcase; [done|]. apply I3.
  - intros d. pcase; auto.
Qed.

Lemma smp_inv_step s s' : inv s -> step s s' -> inv s'.
Proof.
  intros I Hs.
  destruct Hs as [s c own Hp|s c own Hp|s c own Hp|s c own Hp|s c Hp
                 |s c own Hp|s c own Hp|s c own Hp|s c own Hp|s c own Hp].
  4: by apply inv_xchg.
  4: by apply inv_store.
  7: by apply inv_clear.
  7: by eapply inv_unlock.
  all: pose proof (inv_locked _ I c) as J2; pose proof (inv_cpu _ I c) as J3;
    pose proof (inv_bad _ I c) as J4; rewrite Hp in J2, J3, J4; destruct own; simpl in *.
  all: try rewrite (J2 eq_refl); try (rewrite bool_decide_true by now apply J3);
    try (rewrite bool_decide_false by (intros Hl; now apply J3 in Hl));
    try destruct (locked (slk s) =? 0); apply inv_goto; by rewrite ?Hp.
Qed.

Lemma smp_inv_reachable s : rtc step init s -> inv s.
Proof.
  intros H. remember init as s0 eqn:E. assert (I : inv s0) by (subst; apply inv_init).
  clear E. induction H; eauto using smp_inv_step.
Qed.

(** C4: however the shared accesses of the CPUs interleave, at most one CPU is
    between [acquire] and [release]; a CPU that holds the lock and calls
    [acquire] again panics instead of spinning, a CPU that does not hold it
    never gets past the test of [release], and no correct call panics. *)
Theorem mutual_exclusion s :
  rtc step init s ->
  (forall c d, pcs s c = Crit -> pcs s d = Crit -> c = d) /\ (forall c, bad (pcs s c) = false).
Proof.
  intros H. pose proof (smp_inv_reachable _ H) as I. split; [|apply (inv_bad _ I)].
  intros c d Hc Hd. apply (inv_excl _ I); [by rewrite Hc | by rewrite Hd].
Qed.

(** CPU 0 in the critical section, CPU 1 waiting for it. *)
Definition contended : smp :=
  mksmp (mkspinlock 1 (lname lock0) (Some 0))
    (<[1 := Spinning false]> (<[1 := AcqCpu false]> (<[1 := AcqLocked false]> (<[0 := Crit]>
      (<[0 := Got]> (<[0 := Spinning false]> (<[0 := AcqLocked false]> (fun _ => Idle)))))))).

Lemma contended_reachable : rtc step init contended.
Proof.
  eapply rtc_l; [apply (acquire_call _ 0 false); reflexivity|].
  eapply rtc_l; [apply (acquire_locked _ 0 false); reflexivity|].
  eapply rtc_l; [apply (acquire_xchg _ 0 false); reflexivity|].
  eapply rtc_l; [apply (acquire_store _ 0); reflexivity|].
  eapply rtc_l; [apply (acquire_call _ 1 false); reflexivity|].
  eapply rtc_l; [apply (acquire_locked _ 1 false); reflexivity|].
  eapply rtc_l; [apply (acquire_cpu _ 1 false); reflexivity|].
  apply rtc_refl.
Qed.

Lemma mutual_exclusion_witness :
  pcs contended 0 = Crit /\ pcs contended 1 = Spinning false /\
  forall d, pcs contended d = Crit -> 0 = d.
Proof.
  destruct (mutual_exclusion contended contended_reachable) as [H _].
  split_and!; [reflexivity|reflexivity|]. intros d Hd. by apply H.
Defined.

End Smp.
