(* ===== verification/Mmu.v ===== *)
(** * Memory accesses through the page table

    The kernel runs a system call on the page table of the calling process and
    touches user memory by its user address.  [translate] is the two-level walk
    of the processor from [cr3]; addresses from [KERNBASE] up are mapped to
    themselves in every page table and need no walk.  A missing mapping, or a
    write to a read-only page (CR0_WP is on), is a fault. *)

From stdpp Require Import base list numbers strings tactics gmap.
From Stdlib Require Import Lia.
From S2P Require Import Prelude Params StringC KState.

Local Open Scope Z_scope.
Local Open Scope xv6_scope.

(** The page-table entry for [va] under the directory at kernel address [pgdir]. *)
Definition hw_pte (m : memory) (pgdir va : Z) : option Z :=
  let pde := load32 m (pgdir + 4 * PDX va) in
  if bset pde PTE_P then
    let pte := load32 m (p2v (PTE_ADDR pde) + 4 * PTX va) in
    if bset pte PTE_P then Some pte else None
  else None.

(** The kernel address of the byte at user address [va]. *)
Definition translate (s : kst) (write : bool) (va : Z) : option Z :=
  if KERNBASE <=? va then Some va else
  match hw_pte (mem s) (p2v (cr3 s)) va with
  | Some pte =>
      if write && negb (bset pte PTE_W) then None
      else Some (p2v (PTE_ADDR pte) + va mod PGSIZE)
  | None => None
  end.

Definition load8_va (va : Z) : M kst Z :=
  s <- get ;;
  match translate s false va with
  | Some a => ret (mem s a)
  | None => stuck "page fault"
  end.

Definition store8_va (va v : Z) : M kst unit :=
  s <- get ;;
  match translate s true va with
  | Some a => modify (set_mem (wr (mem s) a (u8 v)))
  | None => stuck "page fault"
  end.

Definition load32_va (va : Z) : M kst Z :=
  b0 <- load8_va va ;;
  b1 <- load8_va (u32 (va + 1)) ;;
  b2 <- load8_va (u32 (va + 2)) ;;
  b3 <- load8_va (u32 (va + 3)) ;;
  ret (b0 + 2 ^ 8 * b1 + 2 ^ 16 * b2 + 2 ^ 24 * b3).

Definition store32_va (va v : Z) : M kst unit :=
  store8_va va v ;;;
  store8_va (u32 (va + 1)) (v / 2 ^ 8) ;;;
  store8_va (u32 (va + 2)) (v / 2 ^ 16) ;;;
  store8_va (u32 (va + 3)) (v / 2 ^ 24).

(** Copy bytes out to consecutive addresses, and in. *)
Fixpoint put_va (va : Z) (l : list Z) : M kst unit :=
  match l with
  | [] => ret tt
  | b :: l => store8_va va b ;;; put_va (u32 (va + 1)) l
  end.

Fixpoint get_va (va : Z) (n : nat) : M kst (list Z) :=
  match n with
  | O => ret []
  | S n => b <- load8_va va ;; l <- get_va (u32 (va + 1)) n ;; ret (b :: l)
  end.

(** The word at a user address, as a function of the state. *)
Definition peek8 (s : kst) (va : Z) : option Z := mem s <$> translate s false va.

Definition peek32 (s : kst) (va : Z) : option Z :=
  match peek8 s va, peek8 s (u32 (va + 1)), peek8 s (u32 (va + 2)), peek8 s (u32 (va + 3)) with
  | Some b0, Some b1, Some b2, Some b3 => Some (b0 + 2 ^ 8 * b1 + 2 ^ 16 * b2 + 2 ^ 24 * b3)
  | _, _, _, _ => None
  end.

Lemma load8_va_peek s va :
  load8_va va s = match peek8 s va with Some b => Ret b s | None => Stuck "page fault" end.
Proof. unfold load8_va, peek8. msimp. by destruct (translate s false va). Qed.

Lemma load32_va_peek s va :
  load32_va va s = match peek32 s va with Some w => Ret w s | None => Stuck "page fault" end.
Proof.
  unfold load32_va, peek32.
  repeat (unfold bind at 1; rewrite load8_va_peek; destruct (peek8 s _); simpl; [|by repeat case_match]).
  done.
Qed.

(** ** Buffers in user memory *)

(** The user bytes at [addr]. *)
Definition user_bytes (s : kst) (addr : Z) (bs : list Z) : Prop :=
  forall i x, bs !! i = Some x -> peek8 s (u32 (addr + Z.of_nat i)) = Some x.

Lemma user_bytes_next s addr x bs :
  user_bytes s addr (x :: bs) -> user_bytes s (u32 (addr + 1)) bs.
Proof. intros H i y Hy. rewrite <- (H (S i) y Hy). rewrite u32_add_l. do 2 f_equal. lia. Qed.

(** A user buffer of [n] bytes at [addr], at the kernel addresses [ph]: a write to
    it does not change what it is mapped to. *)
Record user_buffer (s : kst) (addr : Z) (n : nat) (ph : nat -> Z) : Prop := mkbuffer {
  ub_inj : forall i j, (i < n)%nat -> (j < n)%nat -> ph i = ph j -> i = j;
  ub_map : forall m i, (forall y, m y <> mem s y -> exists j, (j < n)%nat /\ y = ph j) -> (i < n)%nat ->
    translate (set_mem m s) true (u32 (addr + Z.of_nat i)) = Some (ph i)
}.

(** [m'] is [m] with the bytes [bs] in the buffer, from its byte [o] on. *)
Record stored (m m' : memory) (ph : nat -> Z) (o : nat) (bs : list Z) : Prop := mkstored {
  st_bytes : forall i x, bs !! i = Some x -> m' (ph (o + i)%nat) = x;
  st_else : forall y, (forall i, (i < length bs)%nat -> y <> ph (o + i)%nat) -> m' y = m y
}.

Lemma user_buffer_store s addr n ph i v :
  user_buffer s addr n ph -> (i < n)%nat -> user_buffer (set_mem (wr (mem s) (ph i) v) s) addr n ph.
Proof.
  intros [H1 H2] Hi. split; [done|]. intros m j Hm Hj. simpl in Hm. apply H2; [|done]. intros y Hy.
  destruct (decide (y = ph i)) as [->|Hne]; [by exists i|]. apply Hm. by rewrite wr_ne.
Qed.

Lemma store8_buffer s addr n ph i v :
  user_buffer s addr n ph -> (i < n)%nat ->
  store8_va (u32 (addr + Z.of_nat i)) v s = Ret tt (set_mem (wr (mem s) (ph i) (u8 v)) s).
Proof.
  intros [_ H] Hi. unfold store8_va. msimp. specialize (H (mem s) i ltac:(done) Hi).
  replace (set_mem (mem s) s) with s in H by (by destruct s). by rewrite H.
Qed.

Lemma stored_nil m ph o : stored m m ph o [].
Proof. by split. Qed.

Lemma stored_app m m1 m2 ph n o l1 l2 :
  (forall i j, (i < n)%nat -> (j < n)%nat -> ph i = ph j -> i = j) -> (o + length l1 + length l2 <= n)%nat ->
  stored m m1 ph o l1 -> stored m1 m2 ph (o + length l1) l2 -> stored m m2 ph o (l1 ++ l2).
Proof.
  intros Hinj Hn [A1 A2] [B1 B2]. split.
  - intros i x [Hi|[Hge Hi]]%lookup_app_Some.
    + pose proof (lookup_lt_Some _ _ _ Hi). rewrite B2; [by apply A1|]. intros j Hj E. apply Hinj in E; lia.
    + rewrite <- (B1 _ _ Hi). do 2 f_equal. lia.
  - intros y Hy. rewrite length_app in Hy. rewrite B2, A2; [done| |].
    + intros i Hi. apply Hy. lia.
    + intros i Hi. rewrite <- Nat.add_assoc. apply Hy. lia.
Qed.

Lemma user_buffer_stored s addr n ph o m bs :
  user_buffer s addr n ph -> stored (mem s) m ph o bs -> (o + length bs <= n)%nat -> user_buffer (set_mem m s) addr n ph.
Proof.
  intros [H1 H2] [_ B] Hn. split; [done|]. intros m' i Hm Hi. apply (H2 m'); [|done]. intros y Hy.
  destruct (decide (y ∈ ph <$> seq 0 n)) as [(k & -> & Hk%elem_of_seq)%list_elem_of_fmap|Hno]; [exists k; lia|].
  assert (E : m y = mem s y).
  { apply B. intros k Hk ->. apply Hno, list_elem_of_fmap. exists (o + k)%nat. split; [done|]. apply elem_of_seq. lia. }
  apply Hm. simpl. congruence.
Qed.

Lemma put_va_buffer s addr n ph o l :
  user_buffer s addr n ph -> (o + length l <= n)%nat ->
  exists m, put_va (u32 (addr + Z.of_nat o)) l s = Ret tt (set_mem m s) /\ stored (mem s) m ph o (u8 <$> l).
Proof.
  revert s o. induction l as [|v l IH]; intros s o Hu Hn; simpl in Hn.
  - exists (mem s). split; [by destruct s|apply stored_nil].
  - cbn [put_va]. rstep (store8_buffer s addr n ph o v Hu ltac:(lia)). rewrite u32_add_l.
    replace (addr + Z.of_nat o + 1) with (addr + Z.of_nat (S o)) by lia.
    destruct (IH _ (S o) (user_buffer_store s addr n ph o (u8 v) Hu ltac:(lia)) ltac:(lia)) as (m & E & St).
    exists m. split; [by rewrite E; destruct s|].
    change (u8 <$> v :: l) with ([u8 v] ++ (u8 <$> l)). apply (stored_app _ (wr (mem s) (ph o) (u8 v)) _ _ n _ [u8 v] (u8 <$> l)); [apply (ub_inj _ _ _ _ Hu)|rewrite length_fmap; simpl; lia| |by rewrite Nat.add_1_r].
    split.
    + intros [|i] x Hx; [|done]. injection Hx as <-. rewrite Nat.add_0_r. apply wr_eq.
    + intros y Hy. apply wr_ne. specialize (Hy 0%nat ltac:(simpl; lia)). by rewrite Nat.add_0_r in Hy.
Qed.
