(* ===== verification/Kalloc.v ===== *)
(** * The physical page allocator

    [kalloc.c]: a linked list of free 4096-byte pages, the link of a free page
    stored in its first word.  The list in memory is related to an abstract
    list of page addresses, on which [kfree] is a push and [kalloc] a pop. *)

From stdpp Require Import base list numbers strings tactics gmap.
From Stdlib Require Import Lia.
From S2P Require Import Prelude Params StringC KState Spinlock.

Local Open Scope Z_scope.
Local Open Scope xv6_scope.

Definition setmem (f : memory -> memory) : M kst unit := modify (fun s => set_mem (f (mem s)) s).

Section Kalloc.

(** [end]: the first address after the kernel image, set by the linker. *)
Variable kend : Z.

Definition kfree (v : Z) : M kst unit :=
  if negb (v mod PGSIZE =? 0) || (v <? kend) || (PHYSTOP <=? v2p v) then panic "kfree" else
  setmem (fun m => memset m v 1 PGSIZE) ;;;
  ul <- gets use_lock ;;
  when ul (acquire L_kmem) ;;;
  fl <- gets freelist ;;
  setmem (fun m => store32 m v fl) ;;;
  modify (set_freelist v) ;;;
  when ul (release L_kmem).

Definition kalloc : M kst Z :=
  ul <- gets use_lock ;;
  when ul (acquire L_kmem) ;;;
  r <- gets freelist ;;
  (if negb (r =? 0) then modify (fun s => set_freelist (load32 (mem s) r) s) else ret tt) ;;;
  when ul (release L_kmem) ;;;
  ret r.

(** The [for] loop of [freerange], [fuel] bounding the number of pages. *)
Fixpoint freerange_loop (fuel : nat) (p vend : Z) : M kst unit :=
  match fuel with
  | O => outoffuel
  | S fuel =>
      if u32 (p + PGSIZE) <=? vend then
        kfree p ;;; freerange_loop fuel (u32 (p + PGSIZE)) vend
      else ret tt
  end.

Definition freerange (fuel : nat) (vstart vend : Z) : M kst unit :=
  freerange_loop fuel (PGROUNDUP (u32 vstart)) vend.

Definition kinit1 (fuel : nat) (vstart vend : Z) : M kst unit :=
  onlks (initlock L_kmem "kmem") ;;;
  modify (set_use_lock false) ;;;
  freerange fuel vstart vend.

Definition kinit2 (fuel : nat) (vstart vend : Z) : M kst unit :=
  freerange fuel vstart vend ;;;
  modify (set_use_lock true).

(** ** The free list *)

(** A page that [kfree] accepts. *)
Definition page_ok (a : Z) : Prop :=
  is_u32 a /\ a mod PGSIZE = 0 /\ kend <= a /\ v2p a < PHYSTOP.

(** The pages reached from [p] by following the links. *)
Fixpoint flist (m : memory) (p : Z) (l : list Z) : Prop :=
  match l with
  | [] => p = 0
  | a :: l => p = a /\ flist m (load32 m a) l
  end.

Record kmem_ok (s : kst) (l : list Z) : Prop := mk_kmem_ok {
  kmem_list : flist (mem s) (freelist s) l;
  kmem_nodup : NoDup l;
  kmem_pages : Forall page_ok l
}.

(** The allocator's lock can be taken. *)
Definition kmem_lock_ok (s : kst) : Prop := lk_free L_kmem (lks s) /\ cli_ok (lks s).

(** The kernel is linked above [KERNBASE]. *)
Hypothesis kend_high : KERNBASE < kend.

#[local] Set Default Proof Using "Type".

Lemma page_ok_nonzero a : page_ok a -> a <> 0.
Proof using Type kend_high. intros (_ & _ & H & _) ->. unfold KERNBASE in *. lia. Qed.

Lemma page_ok_top a : page_ok a -> KERNBASE < a /\ a + PGSIZE <= KERNBASE + PHYSTOP.
Proof using Type kend_high.
  intros (H1 & H2 & H3 & H4). unfold v2p, KERNBASE, PHYSTOP, PGSIZE in *.
  rewrite u32_small in H4 by (unfold is_u32 in *; lia). split; [lia|].
  Z.div_mod_to_equations. lia.
Qed.

Lemma pages_disjoint a b : page_ok a -> page_ok b -> a <> b ->
  a + PGSIZE <= b \/ b + PGSIZE <= a.
Proof.
  intros (_ & Ha & _) (_ & Hb & _). unfold PGSIZE in *. Z.div_mod_to_equations. lia.
Qed.

Lemma flist_ext m m' p l :
  (forall a, a ∈ l -> load32 m a = load32 m' a) -> flist m p l -> flist m' p l.
Proof.
  revert p. induction l as [|a l IH]; intros p H; simpl; [done|].
  intros [-> Hf]. split; [done|]. rewrite <- H by constructor.
  apply IH; [|done]. intros b Hb. apply H. by constructor.
Qed.

(** ** Operations *)

Definition kfree_mem (m : memory) (v fl : Z) : memory := store32 (memset m v 1 PGSIZE) v fl.

(** What [kfree] leaves: the page pushed, everything else untouched. *)
Definition kfreed (v : Z) (s : kst) : kst :=
  set_freelist v (set_mem (kfree_mem (mem s) v (freelist s)) s).

Lemma kfree_ret v s :
  page_ok v -> kmem_lock_ok s ->
  exists l', kfree v s = Ret tt (set_lks l' (kfreed v s)) /\ lks_eq (lks s) l'.
Proof.
  intros (H1 & H2 & H3 & H4) [Hf Hc]. unfold kfree.
  rewrite H2, Z.eqb_refl. destruct (Z.ltb_spec v kend); [lia|].
  destruct (Z.leb_spec PHYSTOP (v2p v)); [lia|]. msimp. unfold setmem. msimp.
  cbn [use_lock set_mem]. destruct (use_lock s) eqn:Hu; msimp.
  - set (s1 := set_mem _ s). rstep (acquire_ret L_kmem s1 Hf). msimp.
    match goal with |- context [release L_kmem ?t] =>
      destruct (release_ret L_kmem (lks s) t) as [-> He]; [reflexivity | done | done |] end.
    eexists. split; [|exact He]. reflexivity.
  - exists (lks s). split; [|reflexivity]. destruct s. reflexivity.
Qed.

Definition kalloced (s : kst) : kst :=
  if freelist s =? 0 then s else set_freelist (load32 (mem s) (freelist s)) s.

Lemma kalloc_ret s :
  kmem_lock_ok s ->
  exists l', kalloc s = Ret (freelist s) (set_lks l' (kalloced s)) /\ lks_eq (lks s) l'.
Proof.
  intros [Hf Hc]. unfold kalloc, kalloced. msimp. destruct (use_lock s) eqn:Hu; msimp.
  - rstep (acquire_ret L_kmem s Hf). msimp. cbn [freelist set_lks].
    destruct (freelist s =? 0); msimp.
    all: match goal with |- context [bind (release L_kmem) _ ?t] =>
      destruct (release_ret L_kmem (lks s) t) as [Hr He]; [reflexivity | done | done |] end.
    all: rstep Hr; eexists; split; [reflexivity | exact He].
  - exists (lks s). split; [|reflexivity].
    destruct (freelist s =? 0); msimp; destruct s; reflexivity.
Qed.

Lemma kfree_mem_outside m v fl x :
  x < v \/ v + PGSIZE <= x -> kfree_mem m v fl x = m x.
Proof.
  intros H. unfold kfree_mem. unfold PGSIZE in *. rewrite store32_other by lia.
  rewrite memset_fill by lia. unfold fill. bdestr; done.
Qed.

Lemma kfree_mem_link m v fl : is_u32 fl -> load32 (kfree_mem m v fl) v = fl.
Proof. intros. by apply load_store32_eq. Qed.

Lemma kmem_freelist_range s l : kmem_ok s l -> is_u32 (freelist s).
Proof.
  intros [H1 _ H3]. destruct l as [|a l]; simpl in H1.
  - rewrite H1. unfold is_u32. lia.
  - destruct H1 as [-> _]. inversion H3 as [|? ? (H & _) _]; subst. done.
Qed.

Lemma kmem_ok_kfreed v s l :
  page_ok v -> v ∉ l -> kmem_ok s l -> kmem_ok (kfreed v s) (v :: l).
Proof using Type kend_high.
  intros Hv Hn Hk. pose proof (kmem_freelist_range _ _ Hk) as Hr. destruct Hk as [H1 H2 H3].
  split; simpl.
  - split; [done|]. rewrite kfree_mem_link by done.
    apply (flist_ext (mem s)); [|done]. intros a Ha. apply load32_ext. intros x Hx.
    symmetry. apply kfree_mem_outside.
    rewrite Forall_forall in H3. pose proof (pages_disjoint v a Hv (H3 _ Ha)).
    unfold PGSIZE in *. assert (v <> a) by congruence. lia.
  - by constructor.
  - by constructor.
Qed.

Lemma kmem_ok_kalloced a s l : kmem_ok s (a :: l) -> kmem_ok (kalloced s) l.
Proof using Type kend_high.
  intros [[H0 H1] H2 H3]. inversion H2; inversion H3; subst.
  unfold kalloced. destruct (Z.eqb_spec (freelist s) 0) as [E|E].
  - exfalso. eapply page_ok_nonzero; eauto.
  - split; simpl; done.
Qed.

Lemma kmem_ok_lks s l l' : kmem_ok s l -> kmem_ok (set_lks l' s) l.
Proof. intros [H1 H2 H3]. by split. Qed.

(** ** Refinement: the allocator is a stack of pages *)

Inductive kop := KAlloc | KFree (v : Z).

Definition page_okb (a : Z) : bool :=
  (0 <=? a) && (a <? 2 ^ 32) && (a mod PGSIZE =? 0) && (kend <=? a) && (v2p a <? PHYSTOP).

Lemma page_okb_ok a : page_okb a = true <-> page_ok a.
Proof.
  unfold page_okb, page_ok, is_u32.
  rewrite !andb_true_iff, Z.leb_le, !Z.ltb_lt, Z.eqb_eq, Z.leb_le. tauto.
Qed.

(** The specification: pop, and push of a page that is not in the pool. *)
Definition pool_step (o : kop) (pool : list Z) : option (Z * list Z) :=
  match o, pool with
  | KAlloc, [] => Some (0, [])
  | KAlloc, a :: pool => Some (a, pool)
  | KFree v, _ =>
      if page_okb v && bool_decide (v ∉ pool) then Some (0, v :: pool) else None
  end.

Fixpoint pool_run (ops : list kop) (pool : list Z) : option (list Z * list Z) :=
  match ops with
  | [] => Some ([], pool)
  | o :: ops =>
      match pool_step o pool with
      | None => None
      | Some (r, pool) =>
          match pool_run ops pool with
          | None => None
          | Some (rs, pool) => Some (r :: rs, pool)
          end
      end
  end.

(** The implementation. *)
Definition kop_run (o : kop) : M kst Z :=
  match o with
  | KAlloc => kalloc
  | KFree v => kfree v ;;; ret 0
  end.

Fixpoint kops_run (ops : list kop) : M kst (list Z) :=
  match ops with
  | [] => ret []
  | o :: ops => r <- kop_run o ;; rs <- kops_run ops ;; ret (r :: rs)
  end.

Lemma kmem_lock_ok_lks s t l' :
  lks t = lks s -> lks_eq (lks s) l' -> kmem_lock_ok s -> kmem_lock_ok (set_lks l' t).
Proof. intros Ht He [H1 H2]. unfold kmem_lock_ok. simpl. by rewrite <- He. Qed.

Lemma kop_refines o s pool r pool' :
  kmem_ok s pool -> kmem_lock_ok s -> pool_step o pool = Some (r, pool') ->
  exists s', kop_run o s = Ret r s' /\ kmem_ok s' pool' /\ kmem_lock_ok s'.
Proof using Type kend_high.
  intros Hk Hl Hp. destruct o as [|v]; simpl in *.
  - destruct (kalloc_ret s Hl) as (l' & Hr & He).
    pose proof (kmem_list _ _ Hk) as Hf.
    assert (Hlk : lks (kalloced s) = lks s) by (unfold kalloced; by destruct (freelist s =? 0)).
    destruct pool as [|a pool]; simplify_eq; simpl in Hf.
    + eexists. rewrite Hr. rewrite Hf. split; [done|]. split.
      * apply kmem_ok_lks. unfold kalloced. by rewrite Hf.
      * by apply (kmem_lock_ok_lks s).
    + destruct Hf as [Hf _]. eexists. rewrite Hr, Hf. split; [done|]. split.
      * apply kmem_ok_lks. by eapply kmem_ok_kalloced.
      * by apply (kmem_lock_ok_lks s).
  - destruct (page_okb v && bool_decide (v ∉ pool)) eqn:Hb; [|done]. simplify_eq.
    apply andb_prop in Hb as [Hv%page_okb_ok Hn%bool_decide_eq_true].
    destruct (kfree_ret v s Hv Hl) as (l' & Hr & He).
    eexists. rstep Hr. split; [done|]. split.
    + apply kmem_ok_lks. by apply kmem_ok_kfreed.
    + by apply (kmem_lock_ok_lks s).
Qed.

(** C16: any sequence of [kalloc] and [kfree] calls returns what the same calls
    on a stack of pages return, and leaves the free list holding that stack:
    no page is handed out twice, and a page is available again once freed. *)
Theorem kalloc_refines_pool ops s pool rs pool' :
  kmem_ok s pool -> kmem_lock_ok s -> pool_run ops pool = Some (rs, pool') ->
  exists s', kops_run ops s = Ret rs s' /\ kmem_ok s' pool' /\ kmem_lock_ok s'.
Proof using Type kend_high.
  revert s pool rs. induction ops as [|o ops IH]; intros s pool rs Hk Hl Hp; simpl in Hp.
  - simplify_eq. by exists s.
  - destruct (pool_step o pool) as [[r pool1]|] eqn:H1; [|done].
    destruct (pool_run ops pool1) as [[rs1 pool2]|] eqn:H2; [|done]. simplify_eq.
    destruct (kop_refines _ _ _ _ _ Hk Hl H1) as (s1 & Hr1 & Hk1 & Hl1).
    destruct (IH _ _ _ Hk1 Hl1 H2) as (s2 & Hr2 & Hk2 & Hl2).
    exists s2. simpl. rstep Hr1. rstep Hr2. done.
Qed.

(** ** Initialisation *)

Definition pages (p : Z) (n : nat) : list Z := (fun i => p + PGSIZE * Z.of_nat i) <$> seq 0 n.

Lemma pages_S p n : pages p (S n) = p :: pages (p + PGSIZE) n.
Proof.
  unfold pages. simpl. f_equal; [lia|]. rewrite <- fmap_S_seq, <- list_fmap_compose.
  apply list_fmap_ext. intros i x _. simpl. unfold PGSIZE. lia.
Qed.

Lemma freerange_loop_ok n fuel p vend s l :
  (n < fuel)%nat -> kmem_ok s l -> kmem_lock_ok s ->
  p mod PGSIZE = 0 -> kend <= p -> vend <= KERNBASE + PHYSTOP ->
  p + PGSIZE * Z.of_nat n <= vend < p + PGSIZE * (Z.of_nat n + 1) ->
  (forall a, a ∈ l -> a ∉ pages p n) ->
  exists s', freerange_loop fuel p vend s = Ret tt s' /\
    kmem_ok s' (rev (pages p n) ++ l) /\ kmem_lock_ok s'.
Proof using Type kend_high.
  revert fuel p s l. induction n as [|n IH]; intros [|fuel] p s l Hfu Hk Hl Hp Hlo Hhi Hn Hd;
    try lia; cbn [freerange_loop]; unfold KERNBASE, PHYSTOP, PGSIZE in *;
    rewrite (u32_small (p + 4096)) by (unfold is_u32; lia).
  - destruct (Z.leb_spec (p + 4096) vend); [lia|]. by exists s.
  - destruct (Z.leb_spec (p + 4096) vend); [|lia].
    assert (Hv : page_ok p).
    { unfold page_ok, is_u32, v2p, KERNBASE, PHYSTOP, PGSIZE.
      rewrite u32_small by (unfold is_u32; lia). split_and!; try done; lia. }
    rewrite pages_S in Hd. unfold PGSIZE in Hd.
    assert (Hnp : p ∉ l) by (intros Hin; apply (Hd p Hin); set_solver).
    destruct (kfree_ret p s Hv Hl) as (l' & Hr & He). rstep Hr.
    destruct (IH fuel (p + 4096) (set_lks l' (kfreed p s)) (p :: l)) as (s' & Hr' & Hk' & Hl');
      [lia | by apply kmem_ok_lks, kmem_ok_kfreed | by apply (kmem_lock_ok_lks s)
      | Z.div_mod_to_equations; lia | lia | lia | lia | |].
    + intros a Ha Hin. apply elem_of_cons in Ha as [->|Ha].
      * apply list_elem_of_fmap in Hin as (i & Hi & _). unfold PGSIZE in Hi. lia.
      * apply (Hd a Ha). set_solver.
    + exists s'. split; [done|]. split; [|done]. rewrite pages_S. unfold PGSIZE. simpl.
      by rewrite <- app_assoc.
Qed.

(** [freerange] terminates and puts every whole page of the range on the
    free list, once, given a fuel of more than the number of pages. *)
Theorem freerange_all_pages fuel vstart vend s l n :
  kmem_ok s l -> kmem_lock_ok s ->
  kend <= vstart -> vstart <= 2 ^ 32 - PGSIZE -> vend <= KERNBASE + PHYSTOP ->
  PGROUNDUP vstart + PGSIZE * Z.of_nat n <= vend
    < PGROUNDUP vstart + PGSIZE * (Z.of_nat n + 1) ->
  (forall a, a ∈ l -> a ∉ pages (PGROUNDUP vstart) n) ->
  (n < fuel)%nat ->
  exists s', freerange fuel vstart vend s = Ret tt s' /\
    kmem_ok s' (rev (pages (PGROUNDUP vstart) n) ++ l) /\ kmem_lock_ok s'.
Proof using Type kend_high.
  intros Hk Hl H1 H2 H3 H4 H5 H6. unfold freerange.
  unfold KERNBASE, PGSIZE in *. rewrite (u32_small vstart) by (unfold is_u32; lia).
  rewrite PGROUNDUP_eq in * by lia.
  apply (freerange_loop_ok n); try done; unfold PGSIZE.
  - by rewrite Z.mod_mul by lia.
  - Z.div_mod_to_equations. lia.
Qed.

(** [kfree] panics on an address that is not page-aligned, lies below the
    end of the kernel image, or is not below [PHYSTOP]. *)
Theorem kfree_refuses v s :
  is_u32 v -> ~ page_ok v -> kfree v s = Panic "kfree".
Proof.
  intros Hr H. unfold kfree.
  destruct (Z.eqb_spec (v mod PGSIZE) 0); simpl; [|done].
  destruct (Z.ltb_spec v kend); simpl; [done|].
  destruct (Z.leb_spec PHYSTOP (v2p v)); simpl; [done|].
  exfalso. apply H. unfold page_ok. auto.
Qed.
End Kalloc.

(** A kernel image that ends at 0x80110000, and three pages to manage. *)
Definition demo_end : Z := 0x80110000.
Definition demo_ops : list kop := [KFree 0x80200000; KFree 0x80201000; KAlloc; KAlloc; KAlloc].

Lemma kst0_kmem : kmem_ok demo_end kst0 [].
Proof. split; [done|constructor|constructor]. Qed.

Lemma kst0_kmem_lock : kmem_lock_ok kst0.
Proof. split; [done|]. split; simpl; lia. Qed.

Lemma kalloc_refines_pool_witness :
  exists s', kops_run demo_end demo_ops kst0 = Ret [0; 0; 0x80201000; 0x80200000; 0] s' /\
    kmem_ok demo_end s' [].
Proof.
  destruct (kalloc_refines_pool demo_end ltac:(done) demo_ops kst0 []
    [0; 0; 0x80201000; 0x80200000; 0] [] kst0_kmem kst0_kmem_lock ltac:(by vm_compute))
    as (s' & H1 & H2 & _).
  exists s'. split; [exact H1 | exact H2].
Defined.

