(* ===== verification/Sched.v ===== *)
(** * Scheduling

    The part of [proc.c] that moves processes between states: the multi-level
    feedback queues ([enqueue], [dequeue], [isempty], [makerunnable]), the
    scheduler loop, [sched], [yield], [sleep], [wakeup] and [kill]; and
    [switchuvm]/[switchkvm] of [vm.c], which the scheduler calls.

    The queues are threaded through [p->next].  They are related to abstract
    queues, one list of processes per level, on which [enqueue] appends and the
    scheduler removes the head of the first non-empty level. *)

From stdpp Require Import base list numbers strings tactics gmap.
From Stdlib Require Import Lia.
From S2P Require Import Prelude Params StringC KState Spinlock.

Local Open Scope Z_scope.
Local Open Scope xv6_scope.

(** [ptable.mlf[k]] *)
Definition getnode (k : Z) : M kst node := o <- gets (fun s => aget (mlf s) k) ;; deref o.

Definition upd_node (k : Z) (f : node -> node) (s : kst) : kst :=
  set_mlf (alter f (Z.to_nat k) (mlf s)) s.

Definition modnode (k : Z) (f : node -> node) : M kst unit :=
  _ <- getnode k ;; modify (upd_node k f).

Definition enqueue (p : nat) : M kst unit :=
  pr <- getp p ;;
  let k := p_priority pr in
  if (0 <=? k) && (k <? MLF_LEVELS) then
    nd <- getnode k ;;
    match n_first nd with
    | None =>
        modnode k (set_n_first (Some p)) ;;;
        modnode k (set_n_last (Some p)) ;;;
        modp p (set_p_next None)
    | Some _ =>
        prev <- deref (n_last nd) ;;
        modp prev (set_p_next (Some p)) ;;;
        modnode k (set_n_last (Some p)) ;;;
        modp p (set_p_next None)
    end
  else cprint "ERROR ENQUEUE".

Definition dequeue (priority : Z) : M kst nat :=
  nd <- getnode priority ;;
  r <- deref (n_first nd) ;;
  pr <- getp r ;;
  modnode priority (set_n_first (p_next pr)) ;;;
  modp r (set_p_next None) ;;;
  ret r.

Definition isempty (priority : Z) : M kst Z :=
  nd <- getnode priority ;;
  ret (match n_first nd with Some _ => 0 | None => 1 end).

Definition makerunnable (p : nat) (priority : Z) : M kst unit :=
  (if priority =? 0 then modp p (set_p_priority 0) else ret tt) ;;;
  pr <- getp p ;;
  (if (priority =? 1) && (p_priority pr <? SIZEMLF - 1)
   then modp p (set_p_priority (p_priority pr + 1)) else ret tt) ;;;
  pr <- getp p ;;
  (if (priority =? -1) && (0 <? p_priority pr)
   then modp p (set_p_priority (p_priority pr - 1)) else ret tt) ;;;
  modp p (set_p_state RUNNABLE) ;;;
  enqueue p.

(** [switchuvm]: the task-state segment points to the kernel stack of [proc],
    the page-table register to [p->pgdir].  The segment descriptor is fixed. *)
Definition switchuvm (p : nat) : M kst unit :=
  onlks pushcli ;;;
  cur <- myproc ;;
  cpr <- getp cur ;;
  modify (set_ts_esp0 (u32 (p_kstack cpr + KSTACKSIZE))) ;;;
  pr <- getp p ;;
  if p_pgdir pr =? 0 then panic "switchuvm: no pgdir" else
  modify (set_cr3 (v2p (p_pgdir pr))) ;;;
  onlks popcli.

Definition switchkvm : M kst unit := s <- get ;; modify (set_cr3 (v2p (kpgdir s))).

(** The [for] loop of [scheduler] over the levels. *)
Fixpoint pick (levels : list Z) : M kst (option nat) :=
  match levels with
  | [] => ret None
  | i :: levels =>
      e <- isempty i ;;
      if e =? 0 then p <- dequeue i ;; ret (Some p) else pick levels
  end.

(** One round of [scheduler] up to the [swtch] into the chosen process. *)
Definition scheduler_enter : M kst (option nat) :=
  onlks sti ;;;
  acquire L_ptable ;;;
  o <- pick (seqZ 0 MLF_LEVELS) ;;
  match o with
  | None => release L_ptable ;;; ret None
  | Some p =>
      modify (set_curproc (Some p)) ;;;
      switchuvm p ;;;
      modp p (set_p_state RUNNING) ;;;
      modp p (set_p_ticksProc 0) ;;;
      ret (Some p)
  end.

(** ... and from the [swtch] back to the scheduler to the end of the round. *)
Definition scheduler_leave : M kst unit :=
  switchkvm ;;;
  modify (set_curproc None) ;;;
  release L_ptable.

(** Enter the scheduler.  [cpu->intena] belongs to the kernel thread, not to the
    CPU, so it is saved and restored around [swtch]. *)
Definition sched : M kst unit :=
  h <- onlks (holding L_ptable) ;;
  if negb h then panic "sched ptable.lock" else
  c <- gets (fun s => lk_cpu (lks s)) ;;
  if negb (ncli c =? 1) then panic "sched locks" else
  p <- myproc ;;
  pr <- getp p ;;
  if bool_decide (p_state pr = RUNNING) then panic "sched running" else
  if eflags_IF c then panic "sched interruptible" else
  (fun s => Swtch s (fun s' => Ret tt s')) ;;;
  onlks (modcpu (set_intena (intena c))).

Definition yield : M kst unit :=
  acquire L_ptable ;;;
  p <- myproc ;;
  pr <- getp p ;;
  (if p_priority pr <? 3 then modp p (set_p_priority (p_priority pr + 1)) else ret tt) ;;;
  makerunnable p 1 ;;;
  sched ;;;
  release L_ptable.

Definition sleep (c : chan) (lk : option lockid) : M kst unit :=
  o <- gets curproc ;;
  match o, lk with
  | None, _ => panic "sleep"
  | _, None => panic "sleep without lk"
  | Some p, Some lk =>
      (if bool_decide (lk = L_ptable) then ret tt else acquire L_ptable ;;; release lk) ;;;
      modp p (set_p_chan c) ;;;
      modp p (set_p_state SLEEPING) ;;;
      pr <- getp p ;;
      (if 0 <? p_priority pr then modp p (set_p_priority (p_priority pr - 1)) else ret tt) ;;;
      sched ;;;
      p <- myproc ;;
      modp p (set_p_chan CNull) ;;;
      (if bool_decide (lk = L_ptable) then ret tt else release L_ptable ;;; acquire lk)
  end.

(** The loop of [wakeup1] over the indices of the process table. *)
Fixpoint wakeup_loop (c : chan) (ps : list nat) : M kst unit :=
  match ps with
  | [] => ret tt
  | p :: ps =>
      pr <- getp p ;;
      (if bool_decide (p_state pr = SLEEPING) && bool_decide (p_chan pr = c)
       then makerunnable p (-1) else ret tt) ;;;
      wakeup_loop c ps
  end.

Definition wakeup1 (c : chan) : M kst unit := wakeup_loop c (seq 0 (Z.to_nat NPROC)).

Definition wakeup (c : chan) : M kst unit :=
  acquire L_ptable ;;; wakeup1 c ;;; release L_ptable.

Definition kill (pid : Z) : M kst Z :=
  acquire L_ptable ;;;
  ps <- gets procs ;;
  match scan (fun p => p_pid p =? pid) ps with
  | Some i =>
      modp i (set_p_killed 1) ;;;
      pr <- getp i ;;
      (if bool_decide (p_state pr = SLEEPING) then makerunnable i 0 else ret tt) ;;;
      release L_ptable ;;;
      ret 0
  | None => release L_ptable ;;; ret (-1)
  end.

(** ** The queues *)

(** The processes reached from [o] by following [next]. *)
Fixpoint chain (ps : list proc) (o : option nat) (l : list nat) : Prop :=
  match l with
  | [] => o = None
  | i :: l => o = Some i /\ exists p, ps !! i = Some p /\ chain ps (p_next p) l
  end.

(** Process [i] waits for the CPU on level [k]. *)
Definition waits (ps : list proc) (k : Z) (i : nat) : Prop :=
  exists p, ps !! i = Some p /\ p_state p = RUNNABLE /\ p_priority p = k.

Record level_ok (ps : list proc) (nd : node) (k : Z) (l : list nat) : Prop := mk_level_ok {
  lv_chain : chain ps (n_first nd) l;
  lv_last : l <> [] -> n_last nd = last l;
  lv_waits : Forall (waits ps k) l
}.

(** The queues in memory are the lists [q], every process is in at most one
    queue once, and every RUNNABLE process, [x] apart, is in one. *)
Record mlfq_x (x : option nat) (s : kst) (q : list (list nat)) : Prop := mk_mlfq {
  mq_q : length q = Z.to_nat SIZEMLF;
  mq_mlf : length (mlf s) = Z.to_nat SIZEMLF;
  mq_level : forall k l nd, q !! k = Some l -> mlf s !! k = Some nd ->
    level_ok (procs s) nd (Z.of_nat k) l;
  mq_nodup : NoDup (concat q);
  mq_all : forall i p, procs s !! i = Some p -> p_state p = RUNNABLE ->
    Some i <> x -> i ∈ concat q
}.

Abbreviation mlfq := (mlfq_x None).

Lemma elem_of_concat_q (q : list (list nat)) i :
  i ∈ concat q <-> exists k l, q !! k = Some l /\ i ∈ l.
Proof.
  rewrite list_elem_of_In, in_concat. split.
  - intros (l & H1 & H2). apply list_elem_of_In, list_elem_of_lookup in H1 as [k Hk].
    exists k, l. split; [done|]. by apply list_elem_of_In.
  - intros (k & l & H1 & H2). exists l. rewrite <- !list_elem_of_In. split; [|done].
    apply list_elem_of_lookup. eauto.
Qed.

Lemma mlfq_waits x s q i : mlfq_x x s q -> i ∈ concat q ->
  exists p, procs s !! i = Some p /\ p_state p = RUNNABLE.
Proof.
  intros Hq (k & l & Hk & Hi)%elem_of_concat_q.
  destruct (lookup_lt_is_Some_2 (mlf s) k) as [nd Hn].
  { rewrite (mq_mlf _ _ _ Hq), <- (mq_q _ _ _ Hq). by eapply lookup_lt_Some. }
  pose proof (lv_waits _ _ _ _ (mq_level _ _ _ Hq _ _ _ Hk Hn)) as Hw.
  rewrite Forall_forall in Hw. destruct (Hw _ Hi) as (p & H1 & H2 & _). eauto.
Qed.

Lemma mlfq_not_queued x s q i p :
  mlfq_x x s q -> procs s !! i = Some p -> p_state p <> RUNNABLE -> i ∉ concat q.
Proof.
  intros Hq Hp Hn Hi. destruct (mlfq_waits _ _ _ _ Hq Hi) as (p' & H1 & H2). congruence.
Qed.

Lemma lookup_alter_proc (ps : list proc) f i j p :
  ps !! j = Some p -> alter f i ps !! j = Some (if decide (i = j) then f p else p).
Proof.
  intros H. destruct (decide (i = j)) as [->|Hne].
  - by rewrite list_lookup_alter_eq, H.
  - by rewrite list_lookup_alter_ne, H.
Qed.

Lemma lookup_alter_proc' (ps : list proc) f i p :
  ps !! i = Some p -> alter f i ps !! i = Some (f p).
Proof. intros H. rewrite (lookup_alter_proc _ _ _ _ _ H). by rewrite decide_True. Qed.

(** Updating a process outside a queue leaves the queue alone. *)
Lemma chain_frame ps f i o l : i ∉ l -> chain ps o l -> chain (alter f i ps) o l.
Proof.
  revert o. induction l as [|j l IH]; intros o Hi; simpl; [done|].
  intros [-> (p & Hp & Hc)]. split; [done|]. exists p.
  apply not_elem_of_cons in Hi as [Hne Hi]. split.
  - by rewrite list_lookup_alter_ne.
  - by apply IH.
Qed.

Lemma level_frame ps f i nd k l :
  i ∉ l -> level_ok ps nd k l -> level_ok (alter f i ps) nd k l.
Proof.
  intros Hi [H1 H2 H3]. split; [by apply chain_frame | done |].
  rewrite Forall_forall in *. intros j Hj. destruct (H3 j Hj) as (p & Hp & Hs).
  exists p. rewrite list_lookup_alter_ne by set_solver. auto.
Qed.

Lemma not_elem_level (q : list (list nat)) k l i :
  q !! k = Some l -> i ∉ concat q -> i ∉ l.
Proof. intros Hk Hi Hin. apply Hi, elem_of_concat_q. eauto. Qed.

(** A process that is neither queued nor made RUNNABLE can change freely. *)
Lemma mlfq_upd x s q i p f :
  mlfq_x x s q -> procs s !! i = Some p -> i ∉ concat q ->
  (p_state (f p) = RUNNABLE -> x = Some i) -> mlfq_x x (upd_proc i f s) q.
Proof.
  intros Hq Hp Hi Hf. destruct Hq as [H1 H2 H3 H4 H5]. split; simpl; try done.
  - intros k l nd Hk Hn. apply level_frame; eauto using not_elem_level.
  - intros j r Hj Hr Hx. rewrite list_lookup_alter in Hj. case_decide as Hd.
    + subst j. rewrite Hp in Hj. simpl in Hj. simplify_eq. by rewrite Hf in Hx.
    + eauto.
Qed.

(** A change of a process that the queues do not look at. *)
Lemma mlfq_upd_neutral x s q i f :
  (forall p, p_next (f p) = p_next p) -> (forall p, p_state (f p) = p_state p) ->
  (forall p, p_priority (f p) = p_priority p) ->
  mlfq_x x s q -> mlfq_x x (upd_proc i f s) q.
Proof.
  intros Hfn Hfs Hfp [G1 G2 G3 G4 G5].
  assert (Hl : forall j p, procs s !! j = Some p -> exists p', procs (upd_proc i f s) !! j = Some p' /\
     p_next p' = p_next p /\ p_state p' = p_state p /\ p_priority p' = p_priority p).
  { intros j p Hj. rewrite lookup_upd_proc, Hj. case_decide; simpl; eauto 6. }
  split; try done.
  - intros k l nd Hk Hnd. destruct (G3 k l nd Hk Hnd) as [L1 L2 L3]. split; [|done|].
    + clear -L1 Hl. revert L1. generalize (n_first nd).
      induction l as [|a l IH]; intros o; simpl; [done|]. intros [-> (r & Hr & Hc)].
      split; [done|]. destruct (Hl _ _ Hr) as (r' & Hr' & E & _). exists r'. rewrite E. auto.
    + eapply Forall_impl; [exact L3|]. intros a (r & Ha & Hs & Hk').
      destruct (Hl _ _ Ha) as (r' & Hr' & _ & E1 & E2). exists r'. split_and!; congruence.
  - intros j r Hj Hr. rewrite lookup_upd_proc in Hj.
    destruct (procs s !! j) as [r0|] eqn:E; [|by case_decide].
    apply (G5 j r0 E). case_decide; simpl in Hj; simplify_eq; by rewrite ?Hfs in Hr.
Qed.

(** Two process tables that differ in the queue links only. *)
Definition nonext (p : proc) : proc := set_p_next None p.
Definition same_procs (ps ps' : list proc) : Prop :=
  forall j, nonext <$> ps !! j = nonext <$> ps' !! j.

#[export] Instance same_procs_equiv : Equivalence same_procs.
Proof.
  split; unfold same_procs.
  - done.
  - intros a b H j. by rewrite H.
  - intros a b c H1 H2 j. by rewrite H1.
Qed.

Lemma same_procs_fmap a b : same_procs a b <-> nonext <$> a = nonext <$> b.
Proof.
  split.
  - intros H. apply list_eq. intros j. rewrite !list_lookup_fmap. apply H.
  - intros H j. rewrite <- !list_lookup_fmap. by rewrite H.
Qed.

Lemma same_procs_length a b : same_procs a b -> length a = length b.
Proof. intros H%same_procs_fmap. by rewrite <- (length_fmap nonext a), H, length_fmap. Qed.

Lemma same_procs_next ps i o : same_procs (alter (set_p_next o) i ps) ps.
Proof.
  intros j. rewrite list_lookup_alter. case_decide; [|done]. subst. destruct (ps !! j); reflexivity.
Qed.

Lemma chain_snoc ps o l prev i pi :
  chain ps o l -> last l = Some prev -> i ∉ l -> NoDup l -> ps !! i = Some pi ->
  chain (alter (set_p_next None) i (alter (set_p_next (Some i)) prev ps)) o (l ++ [i]).
Proof.
  intros Hc Hl Hi Hn Hp. revert o Hc. induction l as [|j l IH]; intros o Hc; [done|].
  destruct Hc as [-> (p & Hj & Hc)]. simpl. split; [done|].
  apply not_elem_of_cons in Hi as [Hij Hi]. apply NoDup_cons in Hn as [Hjl Hn].
  rewrite list_lookup_alter_ne by done.
  destruct l as [|j' l].
  - simpl in Hl. simplify_eq. rewrite list_lookup_alter_eq, Hj. simpl. eexists. split; [done|].
    simpl. split; [done|]. rewrite list_lookup_alter_eq, list_lookup_alter_ne, Hp by done.
    simpl. eexists. split; [done|]. done.
  - assert (prev ∈ j' :: l) by (apply last_Some_elem_of; exact Hl).
    rewrite list_lookup_alter_ne by set_solver. exists p. split; [done|]. by apply IH.
Qed.

Lemma getnode_ret s k nd : aget (mlf s) k = Some nd -> getnode k s = Ret nd s.
Proof. intros H. unfold getnode. msimp. by rewrite H. Qed.

Lemma modnode_ret s k nd f : aget (mlf s) k = Some nd -> modnode k f s = Ret tt (upd_node k f s).
Proof. intros H. unfold modnode. by rstep (getnode_ret _ _ _ H). Qed.

Lemma aget_upd_node s k k' f :
  aget (mlf (upd_node k f s)) k' =
  if decide (Z.to_nat k = Z.to_nat k') then f <$> aget (mlf s) k' else aget (mlf s) k'.
Proof.
  unfold aget, upd_node. simpl. rewrite length_alter.
  destruct (_ && _); [|by case_decide]. rewrite list_lookup_alter. case_decide as E; [by rewrite E | done].
Qed.

(** Appending to one queue adds one process to the system. *)
Definition push (k : Z) (i : nat) (q : list (list nat)) : list (list nat) :=
  alter (fun l => l ++ [i]) (Z.to_nat k) q.

Lemma concat_push (q : list (list nat)) k i :
  (Z.to_nat k < length q)%nat -> concat (push k i q) ≡ₚ i :: concat q.
Proof.
  unfold push. generalize (Z.to_nat k). intros n Hn. revert n Hn.
  induction q as [|l q IH]; intros n Hn; simpl in *; [lia|].
  destruct n as [|n]; simpl.
  - rewrite <- (app_assoc l [i]). simpl. by rewrite Permutation_middle.
  - change (list_alter _ n q) with (alter (fun l => l ++ [i]) n q).
    rewrite IH by lia. by rewrite Permutation_middle.
Qed.

Lemma lookup_push q k k' i :
  push k i q !! k' = if decide (Z.to_nat k = k') then (fun l => l ++ [i]) <$> q !! k' else q !! k'.
Proof. unfold push. rewrite list_lookup_alter. by case_decide; subst. Qed.

(** The state [enqueue] leaves, written with the two cases of the source. *)
Definition enqueued (k : Z) (i : nat) (nd : node) (s : kst) : kst :=
  match n_first nd, n_last nd with
  | None, _ =>
      upd_proc i (set_p_next None)
        (upd_node k (set_n_last (Some i)) (upd_node k (set_n_first (Some i)) s))
  | _, Some prev =>
      upd_proc i (set_p_next None)
        (upd_node k (set_n_last (Some i)) (upd_proc prev (set_p_next (Some i)) s))
  | _, None => s
  end.

Lemma enqueue_ret s i p nd :
  procs s !! i = Some p -> 0 <= p_priority p < MLF_LEVELS ->
  aget (mlf s) (p_priority p) = Some nd ->
  (n_first nd <> None -> exists prev pv, n_last nd = Some prev /\ procs s !! prev = Some pv) ->
  enqueue i s = Ret tt (enqueued (p_priority p) i nd s).
Proof.
  intros Hp Hk Hn Hl. unfold enqueue. rstep (getp_ret _ _ _ Hp). cbv zeta.
  destruct (Z.leb_spec 0 (p_priority p)); [|lia].
  destruct (Z.ltb_spec (p_priority p) MLF_LEVELS); [|lia]. cbn [andb].
  rstep (getnode_ret _ _ _ Hn). unfold enqueued. destruct (n_first nd) as [fst|] eqn:Hf.
  - destruct Hl as (prev & pv & -> & Hv); [done|]. msimp. rstep (modp_ret _ _ _ (set_p_next (Some i)) Hv).
    erewrite bind_ret by (eapply modnode_ret; exact Hn).
    eapply modp_ret. apply (lookup_alter_proc (procs s)), Hp.
  - rstep (modnode_ret _ _ _ (set_n_first (Some i)) Hn).
    erewrite bind_ret by (eapply modnode_ret; rewrite aget_upd_node, decide_True, Hn by done; done).
    eapply modp_ret. exact Hp.
Qed.

Lemma level_enqueued ps nd k l i p :
  level_ok ps nd k l -> i ∉ l -> NoDup l -> ps !! i = Some p ->
  p_state p = RUNNABLE -> p_priority p = k ->
  match n_first nd, n_last nd with
  | None, _ => level_ok (alter (set_p_next None) i ps) (mknode (Some i) (Some i)) k (l ++ [i])
  | Some f, Some prev =>
      level_ok (alter (set_p_next None) i (alter (set_p_next (Some i)) prev ps))
        (mknode (Some f) (Some i)) k (l ++ [i])
  | _, None => False
  end.
Proof.
  intros [H1 H2 H3] Hi Hn Hp Hs Hk.
  assert (Hw : forall f j, (forall r, p_state (f r) = p_state r) ->
            (forall r, p_priority (f r) = p_priority r) ->
            forall ps, Forall (waits ps k) (l ++ [i]) -> Forall (waits (alter f j ps) k) (l ++ [i])).
  { intros f j Hfs Hfp ps' Hf. eapply Forall_impl; [exact Hf|]. intros a (r & Ha & Hra & Hrk).
    exists (if decide (j = a) then f r else r). split; [by apply lookup_alter_proc|].
    case_decide; [|done]. by rewrite Hfs, Hfp. }
  assert (Hall : Forall (waits ps k) (l ++ [i])).
  { apply Forall_app. split; [done|]. constructor; [|constructor]. by exists p. }
  destruct l as [|j l].
  - simpl in H1. rewrite H1. split; simpl.
    + split; [done|]. eexists. split; [by apply lookup_alter_proc|]. by rewrite decide_True.
    + done.
    + by apply Hw.
  - destruct H1 as [-> Hc]. rewrite H2 by done. destruct (last (j :: l)) as [prev|] eqn:Hl;
      [|by apply last_None in Hl].
    split.
    + eapply chain_snoc; eauto. by split.
    + simpl. intros _. change (j :: (l ++ [i])) with ((j :: l) ++ [i]). by rewrite last_snoc.
    + apply Hw; [done | done |]. by apply Hw.
Qed.

Lemma level_has_last ps nd k l :
  level_ok ps nd k l -> n_first nd <> None ->
  exists prev pv, n_last nd = Some prev /\ ps !! prev = Some pv /\ prev ∈ l.
Proof.
  intros [H1 H2 H3] Hf. destruct l as [|j l]; [done|]. rewrite H2 by done.
  destruct (last (j :: l)) as [prev|] eqn:Hl; [|by apply last_None in Hl].
  pose proof (last_Some_elem_of _ _ Hl) as Hin.
  rewrite Forall_forall in H3. destruct (H3 _ Hin) as (pv & Hv & _). eauto 6.
Qed.

Lemma NoDup_level (q : list (list nat)) k l : NoDup (concat q) -> q !! k = Some l -> NoDup l.
Proof.
  revert k. induction q as [|a q IH]; intros k Hn Hk; [done|]. simpl in Hn.
  apply NoDup_app in Hn as (Ha & Hd & Hq). destruct k as [|k]; simpl in Hk; [congruence | eauto].
Qed.

(** Two levels have no process in common. *)
Lemma level_disjoint (q : list (list nat)) k k' l l' i :
  NoDup (concat q) -> q !! k = Some l -> q !! k' = Some l' -> i ∈ l -> i ∈ l' -> k = k'.
Proof.
  revert k k'. induction q as [|a q IH]; intros k k' Hn Hk Hk' Hi Hi'; [done|]. simpl in Hn.
  apply NoDup_app in Hn as (Ha & Hd & Hq).
  destruct k as [|k], k' as [|k']; simpl in *; simplify_eq; try done.
  - exfalso. apply (Hd i Hi), elem_of_concat_q. eauto.
  - exfalso. apply (Hd i Hi'), elem_of_concat_q. eauto.
  - f_equal. eauto.
Qed.

Lemma enqueue_mlfq s q i p :
  mlfq_x (Some i) s q -> procs s !! i = Some p -> p_state p = RUNNABLE ->
  0 <= p_priority p < MLF_LEVELS -> i ∉ concat q ->
  exists ps' m', enqueue i s = Ret tt (set_procs ps' (set_mlf m' s)) /\
    mlfq (set_procs ps' (set_mlf m' s)) (push (p_priority p) i q) /\ same_procs ps' (procs s).
Proof.
  intros Hq Hp Hs Hk Hi. set (k := p_priority p) in *. unfold MLF_LEVELS in Hk.
  pose proof (mq_mlf _ _ _ Hq) as Lm. pose proof (mq_q _ _ _ Hq) as Lq. change (Z.to_nat SIZEMLF) with 4%nat in *.
  destruct (lookup_lt_is_Some_2 (mlf s) (Z.to_nat k)) as [nd Hnd]; [lia|].
  destruct (lookup_lt_is_Some_2 q (Z.to_nat k)) as [l Hl]; [lia|].
  pose proof (mq_level _ _ _ Hq _ _ _ Hl Hnd) as Hlev. rewrite Z2Nat.id in Hlev by lia.
  pose proof (NoDup_level _ _ _ (mq_nodup _ _ _ Hq) Hl) as Hnl.
  pose proof (not_elem_level _ _ _ _ Hl Hi) as Hil.
  assert (He : enqueue i s = Ret tt (enqueued k i nd s)).
  { apply (enqueue_ret s i p nd); [done | unfold MLF_LEVELS; lia | apply aget_Some; split; [lia|done] |].
    intros Hf. destruct (level_has_last _ _ _ _ Hlev Hf) as (prev & pv & H1 & H2 & _). eauto. }
  pose proof (level_enqueued _ _ _ _ _ _ Hlev Hil Hnl Hp Hs eq_refl) as Hnew. fold k in Hnew.
  assert (Hcore : exists ps' nd', enqueued k i nd s = set_procs ps' (set_mlf (<[Z.to_nat k := nd']> (mlf s)) s)
     /\ same_procs ps' (procs s) /\ level_ok ps' nd' k (l ++ [i])
     /\ forall j l' nd0, j <> Z.to_nat k -> q !! j = Some l' -> level_ok (procs s) nd0 (Z.of_nat j) l' ->
          level_ok ps' nd0 (Z.of_nat j) l').
  { unfold enqueued. destruct nd as [nf nl]. cbn [n_first n_last] in *.
    destruct nf as [f|]; [destruct nl as [prev|]; [|done]|].
    - eexists _, (mknode (Some f) (Some i)). split_and!; [| | exact Hnew |].
      + unfold upd_proc, upd_node. simpl. rewrite (alter_as_insert _ _ _ _ Hnd). reflexivity.
      + by rewrite !same_procs_next.
      + intros j l' nd0 Hj Hl' Hlv. apply level_frame; [by eapply not_elem_level|].
        apply level_frame; [|done]. intros Hin.
        destruct (level_has_last _ _ _ _ Hlev) as (pr & pv & H1 & _ & H3); [done|].
        simpl in H1. simplify_eq. apply Hj.
        eapply (level_disjoint q); eauto using mq_nodup.
    - eexists _, (mknode (Some i) (Some i)). split_and!; [| | exact Hnew |].
      + unfold upd_proc, upd_node. simpl. rewrite (alter_as_insert _ _ _ _ Hnd).
        rewrite alter_insert_same. reflexivity.
      + by rewrite !same_procs_next.
      + intros j l' nd0 Hj Hl' Hlv. apply level_frame; [by eapply not_elem_level|done]. }
  destruct Hcore as (ps' & nd' & E & Hsp & Hlk & Hoth).
  exists ps', (<[Z.to_nat k := nd']> (mlf s)). rewrite He, E. split; [done|]. split; [|done].
  split; simpl.
  - unfold push. rewrite length_alter. done.
  - by rewrite length_insert.
  - intros j l' nd0 Hj Hn0. rewrite lookup_push in Hj. case_decide as Hd.
    + subst j. rewrite Hl in Hj. simpl in Hj. rewrite list_lookup_insert_eq in Hn0 by lia.
      simplify_eq. by rewrite Z2Nat.id by lia.
    + rewrite list_lookup_insert_ne in Hn0 by done. eapply Hoth; eauto using mq_level.
  - rewrite concat_push by lia. constructor; eauto using mq_nodup.
  - intros j r Hj Hr _. rewrite concat_push by lia. apply elem_of_cons.
    destruct (decide (j = i)) as [->|Hne]; [by left|right].
    specialize (Hsp j). rewrite Hj in Hsp. simpl in Hsp.
    destruct (procs s !! j) as [r'|] eqn:Hj'; [|done]. simpl in Hsp.
    eapply (mq_all _ _ _ Hq); [done| |congruence].
    assert (Hst : p_state (nonext r) = p_state (nonext r')) by congruence. simpl in Hst. congruence.
Qed.

(** The priority [makerunnable] gives a process. *)
Definition newprio (a prio : Z) : Z :=
  if a =? 0 then 0
  else if (a =? 1) && (prio <? SIZEMLF - 1) then prio + 1
  else if (a =? -1) && (0 <? prio) then prio - 1
  else prio.

Definition runnable (a : Z) (p : proc) : proc :=
  set_p_state RUNNABLE (set_p_priority (newprio a (p_priority p)) p).

Lemma upd_proc_insert s i p f :
  procs s !! i = Some p -> upd_proc i f s = set_procs (<[i := f p]> (procs s)) s.
Proof. intros H. unfold upd_proc. by rewrite (alter_as_insert _ _ _ _ H). Qed.

Lemma upd_proc_twice i f g s : upd_proc i f (upd_proc i g s) = upd_proc i (fun p => f (g p)) s.
Proof. unfold upd_proc. simpl. by rewrite alter_alter. Qed.

Lemma upd_proc_ext s i p f g :
  procs s !! i = Some p -> f p = g p -> upd_proc i f s = upd_proc i g s.
Proof. intros H E. rewrite !(upd_proc_insert s i p) by done. by rewrite E. Qed.

Lemma upd_proc_same s i p f : procs s !! i = Some p -> f p = p -> upd_proc i f s = s.
Proof.
  intros H E. rewrite (upd_proc_insert s i p) by done. rewrite E, list_insert_id by done.
  by destruct s.
Qed.

Lemma makerunnable_enqueue s i p a :
  procs s !! i = Some p -> makerunnable i a s = enqueue i (upd_proc i (runnable a) s).
Proof.
  intros Hp. unfold makerunnable.
  assert (Hst : forall f, procs (upd_proc i f s) !! i = Some (f p)).
  { intros f. by rewrite lookup_upd_proc, decide_True, Hp by done. }
  assert (Hgo : forall s', s' = upd_proc i (fun p => set_p_priority (newprio a (p_priority p)) p) s ->
     (modp i (set_p_state RUNNABLE) ;;; enqueue i) s' = enqueue i (upd_proc i (runnable a) s)).
  { intros s' ->. erewrite bind_ret by (eapply modp_ret, Hst). by rewrite upd_proc_twice. }
  assert (Hid : forall f, f p = p -> s = upd_proc i f s)
    by (intros f Hf; by rewrite (upd_proc_same s i p)).
  unfold newprio in Hgo. destruct (Z.eqb_spec a 0) as [->|H0].
  - erewrite bind_ret by (eapply modp_ret, Hp). simpl.
    erewrite bind_ret by (eapply getp_ret, Hst). msimp.
    erewrite bind_ret by (eapply getp_ret, Hst). msimp. by apply Hgo.
  - msimp. rstep (getp_ret _ _ _ Hp).
    destruct (Z.eqb_spec a 1) as [->|H1]; cbn [andb] in *.
    + change (1 =? -1) with false in *. cbn [andb] in *.
      destruct (p_priority p <? SIZEMLF - 1) eqn:E.
      * erewrite bind_ret by (eapply modp_ret, Hp).
        erewrite bind_ret by (eapply getp_ret, Hst). msimp. apply Hgo.
        eapply upd_proc_ext; [done|]. by rewrite E.
      * msimp. rstep (getp_ret _ _ _ Hp). msimp. apply Hgo, Hid. rewrite E. by destruct p.
    + msimp. rstep (getp_ret _ _ _ Hp).
      destruct (Z.eqb_spec a (-1)) as [->|H2]; cbn [andb] in *.
      * destruct (0 <? p_priority p) eqn:E.
        -- erewrite bind_ret by (eapply modp_ret, Hp). apply Hgo.
           eapply upd_proc_ext; [done|]. by rewrite E.
        -- msimp. apply Hgo, Hid. rewrite E. by destruct p.
      * msimp. apply Hgo, Hid. by destruct p.
Qed.

Lemma makerunnable_mlfq s q i p a :
  mlfq s q -> procs s !! i = Some p -> p_state p <> RUNNABLE ->
  0 <= newprio a (p_priority p) < MLF_LEVELS ->
  exists ps' m', makerunnable i a s = Ret tt (set_procs ps' (set_mlf m' s)) /\
    mlfq (set_procs ps' (set_mlf m' s)) (push (newprio a (p_priority p)) i q) /\
    same_procs ps' (alter (runnable a) i (procs s)).
Proof.
  intros Hq Hp Hs Hk. pose proof (mlfq_not_queued _ _ _ _ _ Hq Hp Hs) as Hi.
  assert (Hq1 : mlfq_x (Some i) (upd_proc i (runnable a) s) q).
  { apply (mlfq_upd _ _ _ _ p); [|done|done|done].
    destruct Hq as [H1 H2 H3 H4 H5]. split; try done. intros j r Hj Hr _. by eapply H5. }
  rewrite (makerunnable_enqueue _ _ _ _ Hp).
  destruct (enqueue_mlfq _ _ i (runnable a p) Hq1) as (ps' & m' & He & Hm & Hsp).
  - by rewrite lookup_upd_proc, decide_True, Hp by done.
  - done.
  - done.
  - done.
  - exists ps', m'. split; [exact He|]. split; [exact Hm | exact Hsp].
Qed.

(** ** Removing a process *)

Lemma dequeue_mlfq s q k i l :
  mlfq s q -> 0 <= k -> q !! Z.to_nat k = Some (i :: l) ->
  exists ps' m', dequeue k s = Ret i (set_procs ps' (set_mlf m' s)) /\
    mlfq_x (Some i) (set_procs ps' (set_mlf m' s)) (<[Z.to_nat k := l]> q) /\
    same_procs ps' (procs s) /\ i ∉ concat (<[Z.to_nat k := l]> q).
Proof.
  intros Hq Hk Hl.
  pose proof (mq_mlf _ _ _ Hq) as Lm. pose proof (mq_q _ _ _ Hq) as Lq.
  pose proof (lookup_lt_Some _ _ _ Hl) as Hlt.
  destruct (lookup_lt_is_Some_2 (mlf s) (Z.to_nat k)) as [nd Hnd]; [lia|].
  destruct (mq_level _ _ _ Hq _ _ _ Hl Hnd) as [Hc Hla Hw]. rewrite Z2Nat.id in Hw by done.
  destruct Hc as [Hf (p & Hp & Hc)].
  assert (Hperm : concat q ≡ₚ i :: concat (<[Z.to_nat k := l]> q)).
  { clear -Hl. revert Hl. generalize (Z.to_nat k). intros n. revert n.
    induction q as [|a q IH]; intros n Hl; [done|]. destruct n as [|n]; simpl in *.
    - by simplify_eq.
    - rewrite (IH n Hl). by rewrite Permutation_middle. }
  pose proof (mq_nodup _ _ _ Hq) as Hnd1. rewrite Hperm in Hnd1.
  apply NoDup_cons in Hnd1 as [Hi Hnd1].
  unfold dequeue. erewrite bind_ret by (apply getnode_ret, aget_Some; split; [done | exact Hnd]).
  rewrite Hf. msimp. rstep (getp_ret _ _ _ Hp).
  erewrite bind_ret by (eapply modnode_ret, aget_Some; split; [done | exact Hnd]).
  erewrite bind_ret by (eapply modp_ret; exact Hp).
  exists (alter (set_p_next None) i (procs s)), (<[Z.to_nat k := set_n_first (p_next p) nd]> (mlf s)).
  split; [unfold ret, upd_proc, upd_node; simpl; by rewrite (alter_as_insert _ _ _ _ Hnd)|].
  assert (Hil : forall j l', <[Z.to_nat k := l]> q !! j = Some l' -> i ∉ l').
  { intros j l' Hj. by eapply not_elem_level. }
  split; [|split; [apply same_procs_next | done]]. split; simpl.
  - by rewrite length_insert.
  - by rewrite length_insert.
  - intros j l' nd' Hj Hn'. apply level_frame; [eauto|].
    destruct (decide (j = Z.to_nat k)) as [->|Hne].
    + rewrite list_lookup_insert_eq in Hj by done.
      rewrite list_lookup_insert_eq in Hn' by lia. simplify_eq. rewrite Z2Nat.id by done.
      split; simpl; [done| |by inversion Hw].
      intros Hne. rewrite Hla by done. by destruct l'.
    + rewrite list_lookup_insert_ne in Hj by done; rewrite list_lookup_insert_ne in Hn' by done. by eapply mq_level.
  - done.
  - intros j r Hj Hr Hx. rewrite list_lookup_alter_ne in Hj by congruence.
    assert (Hin : j ∈ concat q) by (eapply mq_all; eauto). rewrite Hperm in Hin.
    apply elem_of_cons in Hin as [->|]; [done | done].
Qed.

(** The specification of the scheduler's choice: the head of the first
    non-empty level, with the queues it leaves. *)
Fixpoint choose (q : list (list nat)) : option (nat * list (list nat)) :=
  match q with
  | [] => None
  | (i :: l) :: q => Some (i, l :: q)
  | [] :: q => prod_map id (cons []) <$> choose q
  end.

Lemma choose_Some q i q' :
  choose q = Some (i, q') ->
  exists k l, q !! k = Some (i :: l) /\ q' = <[k := l]> q /\ forall j, (j < k)%nat -> q !! j = Some [].
Proof.
  revert q'. induction q as [|[|a l] q IH]; intros q' H; simpl in H; [done| |].
  - destruct (choose q) as [[i1 q1]|]; [|done]. simpl in H. simplify_eq.
    destruct (IH q1 eq_refl) as (k & l & H1 & -> & H3). exists (S k), l. split_and!; [done|done|].
    intros [|j] Hj; [done|]. apply H3. lia.
  - simplify_eq. exists 0%nat, l. split_and!; [done|done|lia].
Qed.

Lemma choose_None q : choose q = None <-> concat q = [].
Proof.
  induction q as [|[|a l] q IH]; simpl; [done| |done].
  rewrite fmap_None. done.
Qed.

Lemma isempty_ret s q k l :
  mlfq s q -> 0 <= k -> q !! Z.to_nat k = Some l ->
  isempty k s = Ret (if l is [] then 1 else 0) s.
Proof.
  intros Hq Hk Hl.
  destruct (lookup_lt_is_Some_2 (mlf s) (Z.to_nat k)) as [nd Hnd].
  { rewrite (mq_mlf _ _ _ Hq), <- (mq_q _ _ _ Hq). by eapply lookup_lt_Some. }
  destruct (mq_level _ _ _ Hq _ _ _ Hl Hnd) as [Hc _ _].
  unfold isempty. erewrite bind_ret by (apply getnode_ret, aget_Some; split; [done | exact Hnd]).
  destruct l; simpl in Hc; [by rewrite Hc | by destruct Hc as [-> _]].
Qed.

(** [pick] over the levels from [k] on. *)
Lemma pick_mlfq s q n k :
  mlfq s q -> (k + n = 4)%nat -> (forall j, (j < k)%nat -> q !! j = Some []) ->
  match choose q with
  | None => pick (seqZ (Z.of_nat k) (Z.of_nat n)) s = Ret None s
  | Some (i, q') => exists ps' m',
      pick (seqZ (Z.of_nat k) (Z.of_nat n)) s = Ret (Some i) (set_procs ps' (set_mlf m' s)) /\
      mlfq_x (Some i) (set_procs ps' (set_mlf m' s)) q' /\
      same_procs ps' (procs s) /\ i ∉ concat q'
  end.
Proof.
  intros Hq. revert k. induction n as [|n IH]; intros k Hk Hem.
  - assert (choose q = None) as ->; [|done]. apply choose_None.
    assert (q = [[]; []; []; []]) as ->; [|done].
    pose proof (mq_q _ _ _ Hq) as Lq. change (Z.to_nat SIZEMLF) with 4%nat in Lq.
    destruct q as [|a [|b [|c [|d [|]]]]]; simpl in Lq; try lia.
    pose proof (Hem 0%nat ltac:(lia)); pose proof (Hem 1%nat ltac:(lia));
      pose proof (Hem 2%nat ltac:(lia)); pose proof (Hem 3%nat ltac:(lia)). simpl in *. congruence.
  - destruct (lookup_lt_is_Some_2 q k) as [l Hl].
    { rewrite (mq_q _ _ _ Hq). change (Z.to_nat SIZEMLF) with 4%nat. lia. }
    rewrite Nat2Z.inj_succ, seqZ_cons by lia. rewrite Z.pred_succ. cbn [pick].
    rewrite (bind_ret _ _ _ _ _ (isempty_ret s q (Z.of_nat k) l Hq ltac:(lia)
               ltac:(rewrite Nat2Z.id; exact Hl))).
    destruct l as [|i l]; cbn [Z.eqb].
    + specialize (IH (S k) ltac:(lia)). rewrite Nat2Z.inj_succ in IH. apply IH.
      intros j Hj. destruct (decide (j = k)) as [->|]; [done | apply Hem; lia].
    + assert (Hch : choose q = Some (i, <[k := l]> q)).
      { clear -Hem Hl. revert k Hem Hl. induction q as [|a q IHq]; intros k Hem Hl; [done|].
        destruct k as [|k]; simpl in *.
        - by simplify_eq.
        - pose proof (Hem 0%nat ltac:(lia)) as H0. simpl in H0. simplify_eq.
          rewrite (IHq k); [done| |done]. intros j Hj. apply (Hem (S j)). lia. }
      rewrite Hch.
      destruct (dequeue_mlfq s q (Z.of_nat k) i l Hq) as (ps' & m' & H1 & H2 & H3 & H4);
        [lia | by rewrite Nat2Z.id |]. rewrite Nat2Z.id in *.
      exists ps', m'. rstep H1. done.
Qed.

(** ** The scheduler *)

Lemma onlks_ret {A} (m : M lockst A) s a l :
  m (lks s) = Ret a l -> onlks m s = Ret a (set_lks l s).
Proof. apply zoom_ret. Qed.

(** [switchuvm(p)] for the current process: page table and kernel stack. *)
Lemma switchuvm_ret s i p :
  curproc s = Some i -> procs s !! i = Some p -> p_pgdir p <> 0 -> cli_ok (lks s) ->
  exists l', switchuvm i s =
      Ret tt (set_lks l' (set_cr3 (v2p (p_pgdir p))
               (set_ts_esp0 (u32 (p_kstack p + KSTACKSIZE)) s)))
    /\ lks_eq (lks s) l'.
Proof.
  intros Hc Hp Hd [Hn Hi]. unfold switchuvm.
  rstep (onlks_ret _ _ _ _ (pushcli_ret (lks s))).
  erewrite bind_ret by (apply myproc_ret; exact Hc).
  erewrite bind_ret by (apply getp_ret; exact Hp). msimp.
  erewrite bind_ret by (apply getp_ret; exact Hp).
  destruct (Z.eqb_spec (p_pgdir p) 0) as [|_]; [done|]. msimp.
  erewrite onlks_ret; [|apply popcli_ret; simpl; [done | lia]].
  eexists. split; [reflexivity|]. destruct (lks s) as [[id n a f] t]. simpl in *.
  split; simpl; try done.
  - lia.
  - unfold cpu_pop, cpu_push. simpl. destruct (Z.eqb_spec n 0) as [->|]; simpl; [done|].
    destruct (Z.eqb_spec (n + 1 - 1) 0); [lia|]. simpl. apply Hi. lia.
  - intros H0. unfold cpu_pop, cpu_push. simpl. destruct (Z.eqb_spec n 0); [lia | done].
Qed.

Lemma mlfq_ext x s s' q :
  procs s' = procs s -> mlf s' = mlf s -> mlfq_x x s q -> mlfq_x x s' q.
Proof. intros H1 H2 [G1 G2 G3 G4 G5]. split; rewrite ?H1, ?H2; done. Qed.

Lemma same_procs_lookup ps ps' i p :
  same_procs ps ps' -> ps' !! i = Some p -> exists r, ps !! i = Some r /\ nonext r = nonext p.
Proof.
  intros H Hp. specialize (H i). rewrite Hp in H. simpl in H.
  destruct (ps !! i) as [r|]; simpl in H; [|done]. exists r. split; [done | congruence].
Qed.

(** The state in which the scheduler resumes a process: [ptable.lock] held by
    this CPU, once, with interrupts off. *)
Definition resumable (l : lockst) : Prop :=
  holds L_ptable l = true /\ ncli (lk_cpu l) = 1 /\ eflags_IF (lk_cpu l) = false.

Lemma resumable_acq l : ncli (lk_cpu l) = 0 -> resumable (lk_acq L_ptable l).
Proof. intros H. unfold resumable. rewrite lk_acq_holds. simpl. rewrite H. done. Qed.

#[export] Instance resumable_proper : Proper (lks_eq ==> iff) resumable.
Proof.
  intros a b H. unfold resumable. rewrite (lke_ncli _ _ H), (lke_if _ _ H). by rewrite (holds_proper _ _ _ H).
Qed.

(** The process the scheduler has chosen, as it leaves it to run. *)
Definition dispatched (p : proc) : proc := set_p_ticksProc 0 (set_p_state RUNNING p).

(** Once it is RUNNING, the process taken off its queue is no exception. *)
Lemma mlfq_dispatched s q i p :
  mlfq_x (Some i) s q -> procs s !! i = Some p -> i ∉ concat q ->
  mlfq (upd_proc i dispatched s) q.
Proof.
  intros Hm Hp Hi.
  destruct (mlfq_upd (Some i) s q i p dispatched Hm Hp Hi ltac:(done)) as [G1 G2 G3 G4 G5].
  split; try done. intros j r Hj Hr _. destruct (decide (j = i)) as [->|].
  - rewrite lookup_upd_proc, decide_True, Hp in Hj by done. simpl in Hj. simplify_eq.
  - eapply G5; eauto. congruence.
Qed.

(** The state of the locks when the scheduler switches to a process. *)
Definition sched_locks (l l' : lockst) : Prop :=
  resumable l' /\ cpu_id (lk_cpu l') = cpu_id (lk_cpu l) /\
  forall k, k <> L_ptable -> lkof l' k = lkof l k.

Lemma sched_locks_acq l l1 :
  ncli (lk_cpu l) = 0 -> lks_eq (lk_acq L_ptable l) l1 -> sched_locks l l1.
Proof.
  intros Hn He. split_and!.
  - rewrite <- He. by apply resumable_acq.
  - by rewrite <- (lke_id _ _ He).
  - intros k Hk. rewrite <- (lke_tab _ _ He). unfold lk_acq.
    rewrite lkof_insert, decide_False by done. by destruct l.
Qed.

Definition sched_state (i : nat) (p : proc) (ps : list proc) (m : list node) (s : kst) : kst :=
  set_procs ps (set_mlf m (set_cr3 (v2p (p_pgdir p))
    (set_ts_esp0 (u32 (p_kstack p + KSTACKSIZE)) (set_curproc (Some i) s)))).

Lemma scheduler_enter_some s q i q' :
  mlfq s q -> lk_free L_ptable (lks s) -> ncli (lk_cpu (lks s)) = 0 ->
  (forall i p, procs s !! i = Some p -> p_state p = RUNNABLE -> p_pgdir p <> 0) ->
  choose q = Some (i, q') ->
  exists p ps m l', scheduler_enter s = Ret (Some i) (set_lks l' (sched_state i p ps m s)) /\
    procs s !! i = Some p /\ p_state p = RUNNABLE /\
    mlfq (sched_state i p ps m s) q' /\ same_procs ps (alter dispatched i (procs s)) /\
    sched_locks (lks s) l'.
Proof.
  intros Hq Hf Hn Hpg Hch. unfold scheduler_enter.
  set (s0 := set_lks (set_lk_cpu (set_eflags_IF true (lk_cpu (lks s))) (lks s)) s).
  rewrite (bind_ret _ _ _ tt s0) by reflexivity.
  rewrite (bind_ret _ _ _ _ _ (acquire_ret L_ptable s0 Hf)). set (s1 := set_lks _ s0).
  pose proof (pick_mlfq s1 q 4 0 (mlfq_ext _ s s1 q eq_refl eq_refl Hq) eq_refl ltac:(lia)) as Hpk.
  change (Z.of_nat 0) with 0 in Hpk. change (Z.of_nat 4) with MLF_LEVELS in Hpk.
  rewrite Hch in Hpk. destruct Hpk as (ps' & m' & Hr & Hm & Hsp & Hi). rstep Hr. msimp.
  destruct (choose_Some _ _ _ Hch) as (k & l & Hk & _ & _).
  destruct (mlfq_waits _ _ _ i Hq) as (p & Hp & Hst);
    [apply elem_of_concat_q; exists k, (i :: l); set_solver|].
  destruct (same_procs_lookup _ _ _ _ Hsp Hp) as (r & Hr1 & Hrp).
  set (s2 := set_curproc (Some i) _).
  assert (Hpd : p_pgdir r = p_pgdir p) by (change (p_pgdir (nonext r) = p_pgdir (nonext p)); congruence).
  assert (Hks : p_kstack r = p_kstack p) by (change (p_kstack (nonext r) = p_kstack (nonext p)); congruence).
  destruct (switchuvm_ret s2 i r) as (l' & Hsw & Hlk);
    [done | done | rewrite Hpd; eauto | by apply lk_acq_cli_ok; split; simpl; rewrite Hn; lia |].
  rstep Hsw. erewrite bind_ret by (eapply modp_ret; exact Hr1).
  erewrite bind_ret by (eapply modp_ret, (lookup_alter_proc' ps'), Hr1).
  exists p, (alter dispatched i ps'), m', l'. split.
  { unfold ret. rewrite upd_proc_twice, Hpd, Hks. reflexivity. }
  split_and!; [done|done| | |].
  - apply (mlfq_ext _ (upd_proc i dispatched (set_procs ps' (set_mlf m' s1)))); [done|done|].
    by apply (mlfq_dispatched _ _ _ r).
  - intros j. rewrite !list_lookup_alter. case_decide as Hd; [|apply Hsp].
    subst j. rewrite Hr1, Hp. simpl. f_equal. by destruct r, p; simpl in *; simplify_eq.
  - apply sched_locks_acq in Hlk as (L1 & L2 & L3); [by split_and!|done].
Qed.

Lemma scheduler_enter_none s q :
  mlfq s q -> lk_free L_ptable (lks s) -> ncli (lk_cpu (lks s)) = 0 -> choose q = None ->
  exists l', scheduler_enter s = Ret None (set_lks l' s) /\ ncli (lk_cpu l') = 0 /\
    forall k, lkof l' k = lkof (lks s) k.
Proof.
  intros Hq Hf Hn Hch. unfold scheduler_enter.
  set (s0 := set_lks (set_lk_cpu (set_eflags_IF true (lk_cpu (lks s))) (lks s)) s).
  rewrite (bind_ret _ _ _ tt s0) by reflexivity.
  assert (Hc0 : cli_ok (lks s0)) by (split; simpl; rewrite Hn; lia).
  rewrite (bind_ret _ _ _ _ _ (acquire_ret L_ptable s0 Hf)). set (s1 := set_lks _ s0).
  pose proof (pick_mlfq s1 q 4 0 (mlfq_ext _ s s1 q eq_refl eq_refl Hq) eq_refl ltac:(lia)) as Hpk.
  change (Z.of_nat 0) with 0 in Hpk. change (Z.of_nat 4) with MLF_LEVELS in Hpk.
  rewrite Hch in Hpk. rstep Hpk. msimp.
  destruct (release_ret L_ptable (lks s0) s1) as [Hr He]; [reflexivity|done|done|].
  rstep Hr. eexists. split; [reflexivity|]. split.
  - by rewrite <- (lke_ncli _ _ He).
  - intros k. by rewrite <- (lke_tab _ _ He).
Qed.

(** C10: a round of [scheduler] takes the process at the head of the first
    non-empty level off its queue, makes it the current process in state
    RUNNING with its page table loaded and its tick count reset, and keeps
    [ptable.lock] held; with no process waiting it releases the lock. *)
Theorem scheduler_picks_first s q :
  mlfq s q -> lk_free L_ptable (lks s) -> ncli (lk_cpu (lks s)) = 0 ->
  (forall i p, procs s !! i = Some p -> p_state p = RUNNABLE -> p_pgdir p <> 0) ->
  match choose q with
  | None => exists s', scheduler_enter s = Ret None s' /\ mlfq s' q /\ procs s' = procs s /\
      lk_free L_ptable (lks s') /\ concat q = []
  | Some (i, q') => exists s' p, scheduler_enter s = Ret (Some i) s' /\ mlfq s' q' /\
      (exists k l, q !! k = Some (i :: l) /\ q' = <[k := l]> q /\
         forall j, (j < k)%nat -> q !! j = Some []) /\
      procs s !! i = Some p /\ p_state p = RUNNABLE /\
      curproc s' = Some i /\ cr3 s' = v2p (p_pgdir p) /\ holds L_ptable (lks s') = true /\
      same_procs (procs s')
        (alter (fun p => set_p_ticksProc 0 (set_p_state RUNNING p)) i (procs s))
  end.
Proof.
  intros Hq Hf Hn Hpg. destruct (choose q) as [[i q']|] eqn:Hch.
  - destruct (scheduler_enter_some s q i q' Hq Hf Hn Hpg Hch)
      as (p & ps & m & l' & H1 & H2 & H3 & H4 & H5 & (H6 & _ & _) & _).
    eexists _, p. split_and!; [exact H1| |by apply choose_Some|done..|exact H6|exact H5].
    by apply (mlfq_ext _ (sched_state i p ps m s)).
  - destruct (scheduler_enter_none s q Hq Hf Hn Hch) as (l' & H1 & H2 & H3).
    eexists. split_and!; [exact H1|by apply (mlfq_ext _ s)|done| |by apply choose_None].
    unfold lk_free. simpl. by rewrite H3.
Qed.

(** ** Waking up *)

(** Every process has a priority that is a queue level. *)
Definition prio_ok (s : kst) : Prop := Forall (fun p => 0 <= p_priority p < MLF_LEVELS) (procs s).

Definition sleeps_on (c : chan) (p : proc) : bool :=
  bool_decide (p_state p = SLEEPING) && bool_decide (p_chan p = c).

Definition woken (c : chan) (p : proc) : proc := if sleeps_on c p then runnable (-1) p else p.

(** The queues after the sleepers of [c] among [idx] have been appended. *)
Fixpoint push_woken (c : chan) (ps : list proc) (idx : list nat) (q : list (list nat)) :
    list (list nat) :=
  match idx with
  | [] => q
  | i :: idx =>
      match ps !! i with
      | Some p =>
          if sleeps_on c p then push_woken c ps idx (push (newprio (-1) (p_priority p)) i q)
          else push_woken c ps idx q
      | None => push_woken c ps idx q
      end
  end.

Lemma newprio_range a k : 0 <= k < MLF_LEVELS -> 0 <= newprio a k < MLF_LEVELS.
Proof.
  unfold newprio, MLF_LEVELS, SIZEMLF. intros H.
  repeat (case_match; try lia); rewrite ?andb_true_iff, ?Z.ltb_lt in *; lia.
Qed.

Lemma push_woken_ext c ps ps' idx q :
  (forall i, i ∈ idx -> nonext <$> ps !! i = nonext <$> ps' !! i) ->
  push_woken c ps idx q = push_woken c ps' idx q.
Proof.
  revert q. induction idx as [|i idx IH]; intros q H; [done|]. simpl.
  assert (Hi := H i ltac:(set_solver)).
  assert (IH' : forall q, push_woken c ps idx q = push_woken c ps' idx q)
    by (intros; apply IH; set_solver).
  destruct (ps !! i) as [p|], (ps' !! i) as [p'|]; simpl in Hi; try done.
  assert (Hpp : nonext p = nonext p') by congruence.
  assert (Hs : sleeps_on c p = sleeps_on c p')
    by (change (sleeps_on c (nonext p) = sleeps_on c (nonext p')); congruence).
  assert (Hr : p_priority p = p_priority p')
    by (change (p_priority (nonext p) = p_priority (nonext p')); congruence).
  by rewrite Hs, Hr, !IH'.
Qed.

Lemma nonext_woken c p p' : nonext p = nonext p' -> nonext (woken c p) = nonext (woken c p').
Proof.
  intros H. unfold woken.
  assert (sleeps_on c p = sleeps_on c p') as ->
    by (change (sleeps_on c (nonext p) = sleeps_on c (nonext p')); congruence).
  destruct (sleeps_on c p'); [|done]. destruct p, p'. unfold nonext, runnable in *. simpl in *.
  by simplify_eq.
Qed.

Lemma wakeup_loop_spec c idx s q :
  mlfq s q -> prio_ok s -> NoDup idx -> Forall (fun i => is_Some (procs s !! i)) idx ->
  exists ps' m', wakeup_loop c idx s = Ret tt (set_procs ps' (set_mlf m' s)) /\
    mlfq (set_procs ps' (set_mlf m' s)) (push_woken c (procs s) idx q) /\
    forall j, nonext <$> ps' !! j =
      nonext <$> (if decide (j ∈ idx) then woken c <$> procs s !! j else procs s !! j).
Proof.
  revert s q. induction idx as [|i idx IH]; intros s q Hq Hpr Hnd Hidx.
  - exists (procs s), (mlf s). destruct s. split_and!; [done|done|].
    intros j. by rewrite decide_False by set_solver.
  - inversion Hidx as [|? ? [p Hp] Hidx']; subst. apply NoDup_cons in Hnd as [Hi Hnd].
    simpl. rstep (getp_ret _ _ _ Hp). rewrite Hp. fold (sleeps_on c p).
    assert (Hr : 0 <= p_priority p < MLF_LEVELS)
      by exact (Forall_lookup_1 _ _ _ _ Hpr Hp).
    destruct (sleeps_on c p) eqn:Hsl.
    + assert (Hst : p_state p = SLEEPING).
      { apply andb_prop in Hsl as [H%bool_decide_eq_true _]. done. }
      destruct (makerunnable_mlfq s q i p (-1) Hq Hp) as (ps1 & m1 & H1 & H2 & H3);
        [congruence | by apply newprio_range |].
      rstep H1. set (s1 := set_procs ps1 _) in *.
      assert (Hlk : forall j, nonext <$> ps1 !! j = nonext <$> alter (runnable (-1)) i (procs s) !! j)
        by exact H3.
      destruct (IH s1 _ H2) as (ps2 & m2 & G1 & G2 & G3).
      * apply Forall_lookup. intros j r Hj. specialize (Hlk j). simpl in Hj. rewrite Hj in Hlk.
        rewrite list_lookup_alter in Hlk. case_decide as Hd.
        -- subst j. rewrite Hp in Hlk. simpl in Hlk.
           assert (E : nonext r = nonext (runnable (-1) p)) by congruence.
           change (0 <= p_priority (nonext r) < MLF_LEVELS). rewrite E. by apply newprio_range.
        -- destruct (procs s !! j) as [r'|] eqn:Hj'; simpl in Hlk; [|done].
           assert (E : nonext r = nonext r') by congruence.
           change (0 <= p_priority (nonext r) < MLF_LEVELS). rewrite E.
           exact (Forall_lookup_1 _ _ _ _ Hpr Hj').
      * done.
      * eapply Forall_impl; [exact Hidx'|]. intros j [r Hj]. specialize (Hlk j).
        rewrite (lookup_alter_proc _ _ _ _ _ Hj) in Hlk. simpl in *.
        by destruct (ps1 !! j).
      * exists ps2, m2. split; [exact G1|]. split.
        -- rewrite (push_woken_ext c (procs s) (procs s1)); [exact G2|].
           intros j Hj. simpl. rewrite Hlk, list_lookup_alter_ne; [done | set_solver].
        -- intros j. rewrite G3. simpl. destruct (decide (j = i)) as [->|Hne].
           ++ rewrite decide_False by done. rewrite decide_True by set_solver.
              rewrite Hlk, list_lookup_alter_eq, Hp. simpl. unfold woken. by rewrite Hsl.
           ++ assert (E : nonext <$> ps1 !! j = nonext <$> procs s !! j)
                by (rewrite Hlk, list_lookup_alter_ne; done).
              destruct (decide (j ∈ idx)).
              ** rewrite decide_True by set_solver.
                 destruct (ps1 !! j), (procs s !! j); simpl in *; try done.
                 f_equal. apply nonext_woken. congruence.
              ** by rewrite decide_False by set_solver.
    + msimp. destruct (IH s q Hq Hpr Hnd Hidx') as (ps2 & m2 & G1 & G2 & G3).
      exists ps2, m2. split_and!; [done|done|]. intros j. rewrite G3.
      destruct (decide (j = i)) as [->|Hne].
      * rewrite decide_False, decide_True by set_solver. rewrite Hp. simpl.
        unfold woken. by rewrite Hsl.
      * by destruct (decide (j ∈ idx)); [rewrite decide_True by set_solver
          | rewrite decide_False by set_solver].
Qed.

Lemma wakeup1_spec c s q :
  mlfq s q -> prio_ok s -> length (procs s) = Z.to_nat NPROC ->
  exists ps' m', wakeup1 c s = Ret tt (set_procs ps' (set_mlf m' s)) /\
    mlfq (set_procs ps' (set_mlf m' s)) (push_woken c (procs s) (seq 0 (Z.to_nat NPROC)) q) /\
    same_procs ps' (woken c <$> procs s).
Proof.
  intros Hq Hp Hl. destruct (wakeup_loop_spec c (seq 0 (Z.to_nat NPROC)) s q)
    as (ps' & m' & H1 & H2 & H3); [done|done|apply NoDup_seq| |].
  - apply Forall_forall. intros i Hi%elem_of_seq. apply lookup_lt_is_Some_2. lia.
  - exists ps', m'. split_and!; [done|done|]. intros j. rewrite H3, list_lookup_fmap.
    destruct (decide (j ∈ seq 0 (Z.to_nat NPROC))) as [|Hn]; [done|].
    rewrite lookup_ge_None_2; [done|]. rewrite elem_of_seq in Hn. lia.
Qed.

Lemma wakeup_ret c s q :
  mlfq s q -> prio_ok s -> length (procs s) = Z.to_nat NPROC ->
  lk_free L_ptable (lks s) -> cli_ok (lks s) ->
  exists ps' m' l', wakeup c s = Ret tt (set_lks l' (set_procs ps' (set_mlf m' s))) /\
    mlfq (set_procs ps' (set_mlf m' s)) (push_woken c (procs s) (seq 0 (Z.to_nat NPROC)) q) /\
    same_procs ps' (woken c <$> procs s) /\ lks_eq (lks s) l'.
Proof.
  intros Hq Hp Hl Hf Hc. unfold wakeup. rstep (acquire_ret _ _ Hf).
  set (s1 := set_lks _ s).
  destruct (wakeup1_spec c s1 q) as (ps' & m' & H1 & H2 & H3);
    [by apply (mlfq_ext _ s) | done | done |].
  rstep H1. destruct (release_ret L_ptable (lks s) (set_procs ps' (set_mlf m' s1))) as [Hr He];
    [reflexivity|done|done|].
  eexists ps', m', _. split; [exact Hr|]. split_and!; [|exact H3|exact He].
  apply (mlfq_ext _ (set_procs ps' (set_mlf m' s1))); done.
Qed.

(** C13: [wakeup] makes RUNNABLE every process that sleeps on the channel and no
    other, one priority level up, and appends each to the tail of its queue. *)
Theorem wakeup_wakes_all c s q :
  mlfq s q -> prio_ok s -> length (procs s) = Z.to_nat NPROC ->
  lk_free L_ptable (lks s) -> cli_ok (lks s) ->
  exists s', wakeup c s = Ret tt s' /\
    mlfq s' (push_woken c (procs s) (seq 0 (Z.to_nat NPROC)) q) /\
    same_procs (procs s') (woken c <$> procs s) /\ lks_eq (lks s) (lks s').
Proof.
  intros Hq Hp Hl Hf Hc.
  destruct (wakeup_ret c s q Hq Hp Hl Hf Hc) as (ps' & m' & l' & H1 & H2 & H3 & H4).
  eexists. split_and!; [exact H1| |exact H3|exact H4]. by eapply mlfq_ext, H2.
Qed.

(** ** kill, yield and sleep *)

Definition killed (p : proc) : proc :=
  let p := set_p_killed 1 p in
  if bool_decide (p_state p = SLEEPING) then runnable 0 p else p.

(** [kill] marks the first process with the given pid as killed and, if it
    sleeps, moves it to the tail of the level-0 queue; it returns -1 and changes
    nothing when no process has the pid. *)
Theorem kill_spec pid s q :
  mlfq s q -> lk_free L_ptable (lks s) -> cli_ok (lks s) ->
  exists s',
  match scan (fun p => p_pid p =? pid) (procs s) with
  | None => kill pid s = Ret (-1) s' /\ procs s' = procs s /\ mlfq s' q
  | Some i => exists p, procs s !! i = Some p /\ p_pid p = pid /\
      kill pid s = Ret 0 s' /\ same_procs (procs s') (alter killed i (procs s)) /\
      mlfq s' (if bool_decide (p_state p = SLEEPING) then push 0 i q else q)
  end /\ lks_eq (lks s) (lks s') /\ sems s' = sems s /\ curproc s' = curproc s.
Proof.
  intros Hq Hf Hc. unfold kill. rstep (acquire_ret _ _ Hf). set (s1 := set_lks _ s). msimp.
  assert (Hrel : forall t, lks t = lks s1 ->
     release L_ptable t = Ret tt (set_lks (lk_rel L_ptable (lks s1)) t)
     /\ lks_eq (lks s) (lk_rel L_ptable (lks s1))).
  { intros t Ht. destruct (release_ret L_ptable (lks s) t) as [Hr He];
      [by rewrite Ht|done|done|]. by rewrite Ht in *. }
  change (procs s1) with (procs s).
  destruct (scan (fun p => p_pid p =? pid) (procs s)) as [i|] eqn:Hs; msimp.
  - apply scan_Some in Hs as Hs'. destruct Hs' as [(p & Hp & Hpid%Z.eqb_eq) _].
    erewrite bind_ret by (eapply modp_ret; exact Hp).
    assert (Hp1 : procs (upd_proc i (set_p_killed 1) s1) !! i = Some (set_p_killed 1 p))
      by (rewrite lookup_upd_proc, decide_True by done; simpl; by rewrite Hp).
    rstep (getp_ret _ _ _ Hp1). simpl p_state. unfold killed. simpl p_state.
    destruct (decide (p_state p = SLEEPING)) as [Hsl|Hsl].
    + rewrite !bool_decide_true by done.
      assert (Hni : p_state p <> RUNNABLE) by congruence.
      pose proof (mlfq_not_queued _ _ _ _ _ Hq Hp Hni) as Hi.
      destruct (makerunnable_mlfq (upd_proc i (set_p_killed 1) s1) q i (set_p_killed 1 p) 0)
        as (ps' & m' & H1 & H2 & H3); [|done|done|unfold newprio, MLF_LEVELS; simpl; lia|].
      { eapply mlfq_upd; [by apply (mlfq_ext _ s)|exact Hp|done|done]. }
      rstep H1. destruct (Hrel (set_procs ps' (set_mlf m' (upd_proc i (set_p_killed 1) s1))))
        as [Hr He]; [done|]. rstep Hr.
      eexists. split; [exists p; split_and!; [done|done|reflexivity| |]|split; [exact He|done]].
      * simpl. rewrite H3. simpl. intros j. rewrite alter_alter.
        rewrite !list_lookup_alter. case_decide; [|done]. subst j. rewrite Hp. simpl.
        rewrite bool_decide_true by done. done.
      * apply (mlfq_ext _ (set_procs ps' (set_mlf m' (upd_proc i (set_p_killed 1) s1)))); [done|done|].
        rewrite bool_decide_true by done. exact H2.
    + rewrite !bool_decide_false by done. msimp.
      destruct (Hrel (upd_proc i (set_p_killed 1) s1)) as [Hr He]; [done|]. rstep Hr.
      eexists. split; [exists p; split_and!; [done|done|reflexivity| |]|split; [exact He|done]].
      * simpl. intros j. rewrite !list_lookup_alter. case_decide; [|done]. subst j.
        rewrite Hp. simpl. by rewrite bool_decide_false by done.
      * rewrite bool_decide_false by done.
        apply (mlfq_ext _ (upd_proc i (set_p_killed 1) s)); [done|done|].
        by apply mlfq_upd_neutral.
  - destruct (Hrel s1) as [Hr He]; [done|]. rstep Hr.
    eexists. split; [split_and!; [reflexivity|done|by apply (mlfq_ext _ s)]|split; [exact He|done]].
Qed.

(** ** Giving up the CPU *)

(** [sched] switches away in the state it is called in; when it is resumed it
    only gives the kernel thread its interrupt-enable flag back. *)
Lemma sched_swtch s i p :
  resumable (lks s) -> curproc s = Some i -> procs s !! i = Some p -> p_state p <> RUNNING ->
  exists k, sched s = Swtch s k /\
    forall s', k s' = Ret tt (set_lks (set_lk_cpu
      (set_intena (intena (lk_cpu (lks s))) (lk_cpu (lks s'))) (lks s')) s').
Proof.
  intros (Hh & Hn & Hi) Hc Hp Hs. unfold sched.
  rewrite (bind_ret _ _ _ true s).
  2: { unfold onlks, zoom, holding, gets. simpl. rewrite Hh. by destruct s. }
  msimp. rewrite Hn, Z.eqb_refl. msimp. erewrite bind_ret by (apply myproc_ret; exact Hc).
  erewrite bind_ret by (apply getp_ret; exact Hp).
  rewrite bool_decide_false, Hi by done. unfold bind at 1. simpl. eexists. split; [done|]. done.
Qed.

(** Leaving the critical section after [sched]. *)
Lemma release_resumed s b :
  resumable (lks s) ->
  exists l', release L_ptable (set_lks (set_lk_cpu (set_intena b (lk_cpu (lks s))) (lks s)) s)
      = Ret tt (set_lks l' s) /\ lk_free L_ptable l' /\ ncli (lk_cpu l') = 0 /\
        eflags_IF (lk_cpu l') = b /\ forall k, k <> L_ptable -> lkof l' k = lkof (lks s) k.
Proof.
  intros (Hh & Hn & Hi). set (t := set_lks _ s).
  rewrite (release_run L_ptable t) by (exact Hh || exact Hi || simpl; lia). eexists. split.
  - reflexivity.
  - split_and!.
    + unfold lk_free, lk_rel. rewrite lkof_insert, decide_True by done. done.
    + simpl. lia.
    + simpl. rewrite Hn. done.
    + intros k Hk. unfold lk_rel. rewrite lkof_insert, decide_False by done. by destruct (lks s).
Qed.

(** The priority after [yield]: one level down by [yield] itself and one more
    by [makerunnable]. *)
Definition yielded (k : Z) : Z := newprio 1 (if k <? 3 then k + 1 else k).

Lemma yielded_eq k : 0 <= k < MLF_LEVELS -> yielded k = Z.min 3 (k + 2).
Proof.
  unfold yielded, newprio, MLF_LEVELS, SIZEMLF. intros H. simpl.
  destruct (Z.ltb_spec k 3); bdestr; lia.
Qed.

Definition step_down (p : proc) : proc :=
  set_p_priority (if p_priority p <? 3 then p_priority p + 1 else p_priority p) p.

(** The process [yield] puts back on a queue. *)
Definition yielded_proc (p : proc) : proc :=
  set_p_state RUNNABLE (set_p_priority (Z.min 3 (p_priority p + 2)) p).

Lemma yield_swtch s q i p :
  mlfq s q -> curproc s = Some i -> procs s !! i = Some p -> p_state p = RUNNING ->
  0 <= p_priority p < MLF_LEVELS -> lk_free L_ptable (lks s) -> ncli (lk_cpu (lks s)) = 0 ->
  exists ps m l1 k, yield s = Swtch (set_lks l1 (set_procs ps (set_mlf m s))) k /\
    mlfq (set_procs ps (set_mlf m s)) (push (Z.min 3 (p_priority p + 2)) i q) /\
    same_procs ps (alter yielded_proc i (procs s)) /\ sched_locks (lks s) l1 /\
    forall s2, resumable (lks s2) -> exists l', k s2 = Ret tt (set_lks l' s2) /\
      lk_free L_ptable l' /\ ncli (lk_cpu l') = 0 /\
      eflags_IF (lk_cpu l') = eflags_IF (lk_cpu (lks s)) /\
      forall k, k <> L_ptable -> lkof l' k = lkof (lks s2) k.
Proof.
  intros Hq Hc Hp Hs Hk Hf Hn. unfold yield. rstep (acquire_ret _ _ Hf). set (s1 := set_lks _ s).
  erewrite bind_ret by (apply myproc_ret; exact Hc). rstep (getp_ret s1 _ _ Hp).
  set (s2 := upd_proc i step_down s1).
  assert (Hp2 : procs s2 !! i = Some (step_down p)) by exact (lookup_alter_proc' (procs s) _ i p Hp).
  rewrite (bind_ret _ _ _ tt s2).
  2: { destruct (p_priority p <? 3) eqn:E.
    - rewrite (modp_ret s1 _ _ _ Hp). unfold s2. f_equal. eapply upd_proc_ext; [done|].
      unfold step_down. by rewrite E.
    - unfold s2. erewrite upd_proc_same; [done|done|]. unfold step_down. rewrite E. by destruct p. }
  destruct (makerunnable_mlfq s2 q i (step_down p) 1) as (ps' & m' & H1 & H2 & H3); [|exact Hp2| | |].
  { eapply mlfq_upd; [by apply (mlfq_ext _ s)|exact Hp| |simpl; congruence].
    eapply mlfq_not_queued; [done..|congruence]. }
  { simpl. congruence. }
  { apply newprio_range. simpl. unfold MLF_LEVELS in *. bdestr. }
  rstep H1. set (s3 := set_procs ps' (set_mlf m' s2)) in *.
  destruct (same_procs_lookup ps' _ i _ H3 (lookup_alter_proc' _ _ _ _ Hp2)) as (r & Hr & Er).
  assert (Hrs : resumable (lks s3)) by by apply resumable_acq.
  destruct (sched_swtch s3 i r) as (k & Hsw & Hk'); [done|exact Hc|exact Hr| |].
  { change (p_state (nonext r) <> RUNNING). by rewrite Er. }
  eexists ps', m', (lks s3), _. unfold bind at 1. rewrite Hsw. split; [reflexivity|].
  rewrite <- yielded_eq by done. split_and!; [| |by apply sched_locks_acq|].
  - by apply (mlfq_ext _ s3).
  - etransitivity; [exact H3|]. unfold s2, upd_proc. simpl. rewrite alter_alter.
    intros j. rewrite !list_lookup_alter. case_decide; [|done]. subst j. rewrite Hp. simpl.
    unfold yielded_proc. by rewrite <- yielded_eq.
  - intros t Ht. cbn beta. rewrite Hk'. cbn [rbind].
    destruct (release_resumed t (intena (lk_cpu (lks s3))) Ht) as (l' & G1 & G2 & G3 & G4 & G5).
    exists l'. rewrite G1. split_and!; [done..| |done]. rewrite G4. simpl. by rewrite Hn.
Qed.

(** [yield] puts the running process at the tail of the queue two levels
    below its own (level 3 at most), gives up the CPU with [ptable.lock] held,
    and when it is resumed returns with the lock free and the interrupt flag
    it had at the call. *)
Theorem yield_spec s q i p :
  mlfq s q -> curproc s = Some i -> procs s !! i = Some p -> p_state p = RUNNING ->
  0 <= p_priority p < MLF_LEVELS -> lk_free L_ptable (lks s) -> ncli (lk_cpu (lks s)) = 0 ->
  exists s1 k, yield s = Swtch s1 k /\
    mlfq s1 (push (Z.min 3 (p_priority p + 2)) i q) /\
    same_procs (procs s1) (alter (fun p => set_p_state RUNNABLE
      (set_p_priority (Z.min 3 (p_priority p + 2)) p)) i (procs s)) /\
    resumable (lks s1) /\
    forall s2, resumable (lks s2) -> exists l', k s2 = Ret tt (set_lks l' s2) /\
      lk_free L_ptable l' /\ ncli (lk_cpu l') = 0 /\
      eflags_IF (lk_cpu l') = eflags_IF (lk_cpu (lks s)).
Proof.
  intros Hq Hc Hp Hs Hk Hf Hn.
  destruct (yield_swtch s q i p Hq Hc Hp Hs Hk Hf Hn) as (ps & m & l1 & k & H1 & H2 & H3 & H4 & H5).
  eexists _, k. split_and!; [exact H1|by eapply mlfq_ext, H2|exact H3|apply H4|].
  intros s2 H. destruct (H5 s2 H) as (l' & G1 & G2 & G3 & G4 & _). eauto 6.
Qed.

(** The current process as [sleep] leaves it. *)
Definition asleep (c : chan) (p : proc) : proc :=
  set_p_priority (if 0 <? p_priority p then p_priority p - 1 else p_priority p)
    (set_p_state SLEEPING (set_p_chan c p)).

(** Handing over from [lk] to [ptable.lock]. *)
Lemma lk_handover lk l l0 :
  lk <> L_ptable -> lks_eq (lk_acq lk l0) l -> ncli (lk_cpu l0) = 0 -> lk_free L_ptable l0 ->
  let l1 := lk_acq L_ptable l in
  lk_free L_ptable l /\ holds lk l1 = true /\ resumable (lk_rel lk l1) /\ lk_free lk (lk_rel lk l1).
Proof.
  intros Hne He Hn Hf. cbv zeta.
  assert (Hid : cpu_id (lk_cpu l) = cpu_id (lk_cpu l0)) by by rewrite <- (lke_id _ _ He).
  assert (Hnc : ncli (lk_cpu l) = 1) by (rewrite <- (lke_ncli _ _ He); simpl; lia).
  split_and!.
  - rewrite <- He. by apply lk_acq_free.
  - unfold holds, lk_acq. rewrite lkof_insert, decide_False by done.
    pose proof (lk_acq_holds lk l0) as Hh. rewrite He in Hh. unfold holds in Hh. by destruct l.
  - unfold resumable, holds, lk_rel. simpl. rewrite !lkof_insert, decide_False by done.
    rewrite decide_True by done. simpl. rewrite bool_decide_true by done. rewrite Hnc. done.
  - unfold lk_free, lk_rel. by rewrite lkof_insert, decide_True by done.
Qed.

(** The process-table part of [sleep], between the lock hand-over and [sched]. *)
Lemma asleep_run {A} c i p s (m : M kst A) :
  procs s !! i = Some p ->
  (modp i (set_p_chan c) ;;;
   modp i (set_p_state SLEEPING) ;;;
   pr <- getp i ;;
   (if 0 <? p_priority pr then modp i (set_p_priority (p_priority pr - 1)) else ret tt) ;;;
   m) s = m (upd_proc i (asleep c) s).
Proof.
  intros Hp. erewrite bind_ret by (eapply modp_ret; exact Hp).
  erewrite bind_ret by (eapply modp_ret, (lookup_alter_proc' (procs s)), Hp).
  rewrite upd_proc_twice. set (s1 := upd_proc i _ s).
  assert (Hp1 : procs s1 !! i = Some (set_p_state SLEEPING (set_p_chan c p)))
    by exact (lookup_alter_proc' (procs s) _ i p Hp).
  rstep (getp_ret s1 i _ Hp1). simpl p_priority.
  destruct (0 <? p_priority p) eqn:E.
  - rstep (modp_ret s1 i _ (set_p_priority (p_priority p - 1)) Hp1). unfold s1.
    rewrite upd_proc_twice. f_equal. eapply upd_proc_ext; [done|]. unfold asleep. by rewrite E.
  - msimp. f_equal. eapply upd_proc_ext; [done|]. unfold asleep. rewrite E. by destruct p.
Qed.

Lemma sleep_swtch s q i p c lk l0 :
  mlfq s q -> curproc s = Some i -> procs s !! i = Some p -> p_state p = RUNNING ->
  lk <> L_ptable -> lks_eq (lk_acq lk l0) (lks s) -> ncli (lk_cpu l0) = 0 ->
  lk_free L_ptable l0 ->
  exists l1 k, let s1 := set_lks l1 (upd_proc i (asleep c) s) in
    sleep c (Some lk) s = Swtch s1 k /\ mlfq s1 q /\
    lk_free lk l1 /\ resumable l1 /\
    forall s2 p2, resumable (lks s2) -> curproc s2 = Some i -> procs s2 !! i = Some p2 ->
      lk_free lk (lks s2) ->
      exists l', k s2 = Ret tt (set_lks (lk_acq lk l') (upd_proc i (set_p_chan CNull) s2)) /\
        lk_free L_ptable l' /\ lk_free lk l' /\ ncli (lk_cpu l') = 0 /\
        eflags_IF (lk_cpu l') = intena (lk_cpu (lks s)) /\
        forall k, k <> L_ptable -> lkof l' k = lkof (lks s2) k.
Proof.
  intros Hq Hc Hp Hs Hne He Hn Hf.
  destruct (lk_handover lk (lks s) l0 Hne He Hn Hf) as (Hpf & Hh & Hres & Hfr).
  unfold sleep. msimp. rewrite Hc. cbn iota. rewrite bool_decide_false by done.
  set (s1 := set_lks (lk_rel lk (lk_acq L_ptable (lks s))) s).
  rewrite (bind_ret (acquire L_ptable ;;; release lk) _ s tt s1).
  2: { rstep (acquire_ret _ _ Hpf). rewrite release_run; [reflexivity|done|done|].
       simpl. rewrite <- (lke_ncli _ _ He). simpl. lia. }
  rewrite (asleep_run c i p s1) by exact Hp. set (s2 := upd_proc i _ s1).
  assert (Hp2 : procs s2 !! i = Some (asleep c p)) by exact (lookup_alter_proc' (procs s) _ i p Hp).
  destruct (sched_swtch s2 i (asleep c p)) as (k & Hsw & Hk); [exact Hres|exact Hc|exact Hp2|done|].
  unfold bind at 1. rewrite Hsw. eexists (lks s2), _. split; [reflexivity|].
  split_and!; [|exact Hfr|exact Hres|].
  - apply (mlfq_ext _ (upd_proc i (asleep c) s)); [done|done|].
    eapply mlfq_upd; [exact Hq|exact Hp| |done].
    eapply mlfq_not_queued; [done..|congruence].
  - intros t pt Ht Htc Htp Hfl. cbn beta. rewrite Hk. cbn [rbind].
    set (t1 := set_lks _ t). rstep (myproc_ret t1 i Htc). rstep (modp_ret t1 i pt (set_p_chan CNull) Htp).
    destruct (release_resumed (upd_proc i (set_p_chan CNull) t) (intena (lk_cpu (lks s))) Ht)
      as (l1 & G1 & G2 & G3 & G4 & G5).
    change (upd_proc i (set_p_chan CNull) t1) with (set_lks (lks t1) (upd_proc i (set_p_chan CNull) t)).
    assert (Hi : intena (lk_cpu (lks s2)) = intena (lk_cpu (lks s))).
    { simpl. destruct (Z.eqb_spec (ncli (lk_cpu (lks s))) 0) as [E|]; [|done].
      rewrite <- (lke_ncli _ _ He) in E. simpl in E. lia. }
    unfold t1. rewrite Hi. simpl lks in *. rstep G1.
    assert (Hfl1 : lk_free lk l1) by (unfold lk_free; rewrite G5; done).
    rewrite (acquire_ret lk) by exact Hfl1. exists l1. split; [reflexivity|]. by split_and!.
Qed.

(** Another CPU has the lock. *)
Definition lk_taken (lk : lockid) (l : lockst) : Prop :=
  locked (lkof l lk) <> 0 /\ lcpu (lkof l lk) <> Some (cpu_id (lk_cpu l)).

Lemma acquire_taken lk s : lk_taken lk (lks s) -> acquire lk s = Spin.
Proof.
  intros [H1 H2]. unfold acquire, onlks, zoom, acquire_. rewrite (bind_ret _ _ _ _ _ (pushcli_ret _)).
  unfold bind, holding, gets, holds, xchg, get, modify, ret, lkof in *. simpl.
  rewrite bool_decide_false, andb_false_r by done. simpl. by rewrite (proj2 (Z.eqb_neq _ _)).
Qed.

(** C12: a process that sleeps on [c] holding [lk], and no other lock, gives up the CPU
    recorded as SLEEPING on [c], one priority level up, with [lk] free and [ptable.lock]
    held; when it is resumed it returns with [lk] held, [ptable.lock] free and the channel
    cleared.  No wakeup can get in between: [sleep] takes [ptable.lock] before it
    touches [lk], for as long as another CPU has [ptable.lock] it waits there, whatever
    the state of [lk]. *)
Theorem sleep_spec s q i p c lk l0 :
  mlfq s q -> curproc s = Some i -> procs s !! i = Some p -> p_state p = RUNNING ->
  lk <> L_ptable -> lks_eq (lk_acq lk l0) (lks s) -> ncli (lk_cpu l0) = 0 ->
  lk_free L_ptable l0 ->
  (exists s1 k, sleep c (Some lk) s = Swtch s1 k /\
    mlfq s1 q /\ procs s1 = alter (asleep c) i (procs s) /\
    lk_free lk (lks s1) /\ resumable (lks s1) /\
    forall s2 p2, resumable (lks s2) -> curproc s2 = Some i -> procs s2 !! i = Some p2 ->
      lk_free lk (lks s2) ->
      exists l', k s2 = Ret tt (set_lks l' (upd_proc i (set_p_chan CNull) s2)) /\
        lk_free L_ptable l' /\ holds lk l' = true /\ ncli (lk_cpu l') = 1 /\
        eflags_IF (lk_cpu l') = false /\ intena (lk_cpu l') = intena (lk_cpu (lks s))) /\
  (forall l, lk_taken L_ptable l -> sleep c (Some lk) (set_lks l s) = Spin).
Proof.
  intros Hq Hc Hp Hs Hne He Hn Hf. split.
  - destruct (sleep_swtch s q i p c lk l0 Hq Hc Hp Hs Hne He Hn Hf) as (l1 & k & H1 & H2 & H3 & H4 & H5).
    eexists _, k. split_and!; [exact H1|exact H2|reflexivity|exact H3|exact H4|].
    intros s2 p2 R1 R2 R3 R4. destruct (H5 s2 p2 R1 R2 R3 R4) as (l' & G1 & G2 & G3 & G4 & G5 & _).
    eexists. split_and!; [exact G1|by apply lk_acq_free|apply lk_acq_holds|simpl; lia|done|].
    simpl. by rewrite G4.
  - intros l Hl. unfold sleep. msimp. simpl. rewrite Hc. rewrite bool_decide_false by done.
    unfold bind at 1 2. by rewrite (acquire_taken L_ptable (set_lks l s) Hl).
Qed.

(** ** An executable test of the queue invariant *)

Fixpoint chainb (ps : list proc) (o : option nat) (l : list nat) : bool :=
  match l with
  | [] => bool_decide (o = None)
  | i :: l => bool_decide (o = Some i) &&
      match ps !! i with Some p => chainb ps (p_next p) l | None => false end
  end.

Definition waitsb (ps : list proc) (k : Z) (i : nat) : bool :=
  match ps !! i with
  | Some p => bool_decide (p_state p = RUNNABLE) && (p_priority p =? k)
  | None => false
  end.

Definition levelb (ps : list proc) (nd : node) (k : Z) (l : list nat) : bool :=
  chainb ps (n_first nd) l && (bool_decide (l = []) || bool_decide (n_last nd = last l))
  && forallb (waitsb ps k) l.

Definition mlfqb (s : kst) (q : list (list nat)) : bool :=
  bool_decide (length q = 4%nat) && bool_decide (length (mlf s) = 4%nat)
  && forallb (fun k => match q !! k, mlf s !! k with
       | Some l, Some nd => levelb (procs s) nd (Z.of_nat k) l | _, _ => false end) (seq 0 4)
  && bool_decide (NoDup (concat q))
  && forallb (fun i => match procs s !! i with
       | Some p => negb (bool_decide (p_state p = RUNNABLE)) || bool_decide (i ∈ concat q)
       | None => true end) (seq 0 (length (procs s))).

Lemma chainb_ok ps o l : chainb ps o l = true -> chain ps o l.
Proof.
  revert o. induction l as [|i l IH]; intros o; simpl.
  - by intros ?%bool_decide_eq_true.
  - intros [H1%bool_decide_eq_true H2]%andb_prop. split; [done|].
    destruct (ps !! i) as [p|]; [eauto | done].
Qed.

Lemma levelb_ok ps nd k l : levelb ps nd k l = true -> level_ok ps nd k l.
Proof.
  intros [[H1 H2]%andb_prop H3]%andb_prop. split.
  - by apply chainb_ok.
  - intros Hl. apply orb_prop in H2 as [H2|H2]; by apply bool_decide_eq_true in H2.
  - apply Forall_forall. intros i Hi. rewrite forallb_forall in H3.
    specialize (H3 i ltac:(by apply list_elem_of_In)). unfold waitsb in H3.
    destruct (ps !! i) as [p|] eqn:E; [|done].
    apply andb_prop in H3 as [?%bool_decide_eq_true ?%Z.eqb_eq]. by exists p.
Qed.

Lemma mlfqb_ok s q : mlfqb s q = true -> mlfq s q.
Proof.
  unfold mlfqb. rewrite !andb_true_iff, !bool_decide_eq_true.
  intros [[[[H1 H2] H3] H4] H5]. rewrite forallb_forall in H3. rewrite forallb_forall in H5.
  split; try done.
  - intros k l nd Hk Hn. apply levelb_ok. specialize (H3 k). rewrite Hk, Hn in H3. apply H3.
    apply in_seq. apply lookup_lt_Some in Hk. lia.
  - intros i p Hp Hr _. specialize (H5 i). rewrite Hp, bool_decide_true in H5 by done.
    simpl in H5. eapply bool_decide_eq_true_1, H5, in_seq. apply lookup_lt_Some in Hp. lia.
Qed.

(** A system with process 0 running, 1 and 2 waiting on level 1 and 3 asleep. *)
Definition demo_proc (st : procstate) (prio pid : Z) (c : chan) (nx : option nat) : proc :=
  set_p_pgdir 0x80400000 (set_p_next nx (set_p_chan c (set_p_pid pid
    (set_p_priority prio (set_p_state st proc0))))).

Definition demo : kst :=
  set_curproc (Some 0%nat) (set_mlf [mknode None None; mknode (Some 1%nat) (Some 2%nat);
    mknode None None; mknode None None]
  (set_procs ([demo_proc RUNNING 0 1 CNull None; demo_proc RUNNABLE 1 2 CNull (Some 2%nat);
    demo_proc RUNNABLE 1 3 CNull None; demo_proc SLEEPING 2 4 CTicks None]
    ++ replicate 60 proc0) kst0)).

Lemma demo_ok : mlfq demo [[]; [1; 2]; []; []]%nat.
Proof. apply mlfqb_ok. vm_compute. reflexivity. Qed.

Lemma demo_prio : prio_ok demo.
Proof.
  unfold prio_ok. apply Forall_forall. intros p Hp.
  apply list_elem_of_In in Hp. simpl in Hp. unfold MLF_LEVELS.
  repeat (destruct Hp as [<-|Hp]; [simpl; lia|]). done.
Qed.

Lemma demo_locks : lk_free L_ptable (lks demo) /\ cli_ok (lks demo).
Proof. split; [done|]. split; simpl; lia. Qed.

Lemma scheduler_picks_first_witness :
  exists s' p, scheduler_enter demo = Ret (Some 1%nat) s' /\ mlfq s' [[]; [2]; []; []]%nat /\
    procs demo !! 1%nat = Some p /\ curproc s' = Some 1%nat.
Proof.
  destruct (scheduler_picks_first demo [[]; [1; 2]; []; []]%nat demo_ok (proj1 demo_locks) eq_refl)
    as (s' & p & H1 & H2 & _ & H3 & _ & H4 & _).
  - intros i p Hp Hr. do 4 (destruct i as [|i]; [simpl in Hp; by simplify_eq|]).
    apply lookup_replicate in Hp as [-> _]. done.
  - exists s', p. done.
Defined.

Lemma wakeup_wakes_all_witness :
  exists s', wakeup CTicks demo = Ret tt s' /\ mlfq s' [[]; [1; 2; 3]; []; []]%nat.
Proof.
  destruct (wakeup_wakes_all CTicks demo _ demo_ok demo_prio eq_refl
    (proj1 demo_locks) (proj2 demo_locks)) as (s' & H1 & H2 & _).
  exists s'. split; [exact H1 | exact H2].
Defined.

Definition demo_ticks : kst := set_lks (lk_acq L_tickslock (lks demo)) demo.

Lemma demo_ticks_ok : mlfq demo_ticks [[]; [1; 2]; []; []]%nat.
Proof. apply mlfqb_ok. vm_compute. reflexivity. Qed.

Lemma sleep_spec_witness :
  exists s1 k, sleep CTicks (Some L_tickslock) demo_ticks = Swtch s1 k /\
    mlfq s1 [[]; [1; 2]; []; []]%nat.
Proof.
  destruct (sleep_spec demo_ticks _ 0%nat _ CTicks L_tickslock (lks demo) demo_ticks_ok
    eq_refl eq_refl eq_refl ltac:(done) ltac:(reflexivity) eq_refl (proj1 demo_locks))
    as [(s1 & k & H1 & H2 & _) _].
  exists s1, k. split; [exact H1 | exact H2].
Defined.
