(* ===== verification/Runs.v ===== *)
(** * Triples for file-system code

    A Hoare logic for the routines that change the file-system part of the
    state.  [triple h c m h' x q] says: run in any state whose file-system part
    is [x] while the CPU holds the locks [h], [m] returns (it does not panic,
    access memory it should not, spin on a lock or run out of fuel) with the
    locks [h'] held, a result and a file-system state that satisfy [q], and
    nothing else changed but the scheduling state of other processes.  [c] holds
    in every state in which the machine can lose power: the states the routine
    gives up the CPU in. *)

From stdpp Require Import base list numbers strings tactics gmap.
From Stdlib Require Import Lia.
From S2P Require Import Prelude Params FsState KState Spinlock Sched.

Local Open Scope Z_scope.
Local Open Scope xv6_scope.

(** ** Weakest preconditions *)

Fixpoint wp {A} (c : kst -> Prop) (r : res kst A) (q : A -> kst -> Prop) : Prop :=
  match r with
  | Ret a s => q a s
  | Swtch s k => c s /\ wp c (k s) q
  | _ => False
  end.

Lemma wp_mono {A} (c c' : kst -> Prop) (r : res kst A) (q q' : A -> kst -> Prop) :
  wp c r q -> (forall s, c s -> c' s) -> (forall a s, q a s -> q' a s) -> wp c' r q'.
Proof. intros H Hc Hq. induction r; simpl in *; naive_solver. Qed.

Lemma wp_bind {A B} c (m : M kst A) (f : A -> M kst B) s q :
  wp c (m s) (fun a s' => wp c (f a s') q) -> wp c (bind m f s) q.
Proof. unfold bind. generalize (m s). intros r. induction r; simpl; naive_solver. Qed.

Lemma wp_bind_inv {A B} c (m : M kst A) (f : A -> M kst B) s q :
  wp c (bind m f s) q -> wp c (m s) (fun a s' => wp c (f a s') q).
Proof. unfold bind. generalize (m s). intros r. induction r; simpl; naive_solver. Qed.

(** ** What file-system code leaves alone *)

(** A process without what the scheduler keeps in it. *)
Definition erase (p : proc) : proc :=
  set_p_next None (set_p_state UNUSED (set_p_priority 0 p)).

(** Two states that differ in locks, scheduling and the file system only. *)
Definition frame (s s' : kst) : Prop :=
  s' = set_fs (fs s') (set_lks (lks s') (set_procs (procs s') (set_mlf (mlf s') s))) /\
  forall j, erase <$> procs s' !! j = erase <$> procs s !! j.

#[export] Instance frame_preorder : PreOrder frame.
Proof.
  split.
  - intros s. split; [by destruct s | done].
  - intros a b c [Eb Pb] [Ec Pc]. split; [|by intros j; rewrite Pc].
    rewrite Ec, Eb. by destruct a.
Qed.

Lemma frame_set_fs s x : frame s (set_fs x s).
Proof. split; [by destruct s | done]. Qed.

Lemma frame_set_lks s l : frame s (set_lks l s).
Proof. split; [by destruct s | done]. Qed.

(** ** The state of the rest of the kernel *)

(** The locks [h], and no others, are held by this CPU; the queues and the
    priorities of the processes are in order. *)
Record sys (h : list lockid) (s : kst) : Prop := mksys {
  sys_q : exists q, mlfq s q;
  sys_prio : prio_ok s;
  sys_len : length (procs s) = Z.to_nat NPROC;
  sys_cli : cli_ok (lks s);
  sys_ncli : Z.of_nat (length h) <= ncli (lk_cpu (lks s));
  sys_free : forall l, l ∉ h -> lk_free l (lks s);
  sys_held : forall l, l ∈ h -> holds l (lks s) = true
}.

Lemma sys_set_fs h s x : sys h s -> sys h (set_fs x s).
Proof. intros []. split; simpl; try done. destruct sys_q0 as [q Hq]. exists q. by apply (mlfq_ext _ s). Qed.

Lemma sys_acq h l s : sys h s -> l ∉ h -> sys (l :: h) (set_lks (lk_acq l (lks s)) s).
Proof.
  intros [[q Hq] Hp Hl Hc Hn Hf Hh] Hin. split; simpl; try done.
  - exists q. by apply (mlfq_ext _ s).
  - by apply (lk_acq_cli_ok l).
  - lia.
  - intros l' [Hne Hni]%not_elem_of_cons. apply lk_acq_free; auto.
  - intros l' [->|Hin']%elem_of_cons; [exact (lk_acq_holds l (lks s))|].
    specialize (Hh _ Hin'). unfold holds, lk_acq in *. rewrite lkof_insert.
    rewrite decide_False by (intros ->; done). by destruct (lks s).
Qed.

Lemma sys_rel h l s : sys (l :: h) s -> l ∉ h -> sys h (set_lks (lk_rel l (lks s)) s).
Proof.
  intros [[q Hq] Hp Hl [Hc1 Hc2] Hn Hf Hh] Hin. cbn [length] in Hn. split; simpl; try done.
  - exists q. by apply (mlfq_ext _ s).
  - unfold cli_ok, cpu_pop. simpl. split; [lia|]. intros ?.
    destruct (Z.eqb_spec (ncli (lk_cpu (lks s)) - 1) 0); [lia|done].
  - lia.
  - intros l' Hn'. unfold lk_free, lk_rel. rewrite lkof_insert. case_decide; [done|].
    assert (lk_free l' (lks s)) as F by (apply Hf; set_solver). by destruct (lks s).
  - intros l' Hin'. assert (Hne : l <> l') by (by intros ->).
    specialize (Hh l' ltac:(set_solver)). unfold holds, lk_rel in *.
    rewrite lkof_insert, decide_False by done. by destruct (lks s).
Qed.

Lemma erase_woken c p : erase (woken c p) = erase p.
Proof. unfold woken. by destruct (sleeps_on c p). Qed.

Lemma prio_woken c p : 0 <= p_priority p < MLF_LEVELS -> 0 <= p_priority (woken c p) < MLF_LEVELS.
Proof.
  unfold woken. destruct (sleeps_on c p); [|done]. unfold runnable, newprio. simpl.
  destruct (Z.ltb_spec 0 (p_priority p)); lia.
Qed.

Lemma nonext_prio p r : nonext p = nonext r -> p_priority p = p_priority r.
Proof. intros H. change (p_priority (nonext p) = p_priority (nonext r)). by rewrite H. Qed.

Lemma wakeup_sys h ch s :
  sys h s -> L_ptable ∉ h -> exists s', wakeup ch s = Ret tt s' /\ sys h s' /\ frame s s' /\ fs s' = fs s.
Proof.
  intros [[q Hq] Hp Hl Hc Hn Hf Hh] Hin.
  destruct (wakeup_ret ch s q Hq Hp Hl (Hf _ Hin) Hc) as (ps' & m' & l' & H1 & H2 & H3 & H4).
  assert (Hps : forall j, nonext <$> ps' !! j = nonext <$> (woken ch <$> procs s) !! j) by apply H3.
  eexists. split; [exact H1|]. split_and!; [split; simpl| |done].
  - eexists. by eapply mlfq_ext, H2.
  - unfold prio_ok. simpl. apply Forall_forall. intros p [j Hj]%list_elem_of_lookup. specialize (Hps j).
    rewrite Hj, list_lookup_fmap in Hps. destruct (procs s !! j) as [r|] eqn:Hr; [|done]. simpl in Hps.
    apply (inj Some) in Hps as E. rewrite (nonext_prio _ _ E). apply prio_woken.
    eapply Forall_lookup_1 in Hp; [exact Hp | exact Hr].
  - by rewrite (same_procs_length _ _ H3), length_fmap.
  - by rewrite <- H4.
  - by rewrite <- (lke_ncli _ _ H4).
  - intros l Hl'. rewrite <- H4. by apply Hf.
  - intros l Hl'. rewrite <- H4. by apply Hh.
  - split; [by destruct s|]. simpl. intros j. specialize (Hps j).
    rewrite list_lookup_fmap in Hps.
    destruct (ps' !! j) as [p|], (procs s !! j) as [r|]; [|discriminate Hps..|reflexivity].
    apply (inj Some), (f_equal erase) in Hps. simpl. f_equal. rewrite <- (erase_woken ch r). exact Hps.
Qed.

(** ** Triples *)

Definition triple {A} (h : list lockid) (c : fsst -> Prop) (m : M kst A) (h' : list lockid)
    (x : fsst) (q : A -> fsst -> Prop) : Prop :=
  forall s, sys h s -> fs s = x ->
    wp (fun s => c (fs s)) (m s) (fun a s' => sys h' s' /\ frame s s' /\ q a (fs s')).

Section Triple.
Context {h : list lockid} {c : fsst -> Prop}.

Lemma triple_ret {A} (a : A) x (q : A -> fsst -> Prop) : q a x -> triple h c (ret a) h x q.
Proof. intros H s Hs <-. simpl. split_and!; [done|reflexivity|done]. Qed.

Lemma triple_bind {A B} (m : M kst A) (f : A -> M kst B) h1 h2 x q q' :
  triple h c m h1 x q' -> (forall a x', q' a x' -> triple h1 c (f a) h2 x' q) ->
  triple h c (bind m f) h2 x q.
Proof.
  intros Hm Hf s Hs Hx. apply wp_bind. eapply wp_mono; [by apply Hm | done |].
  intros a s1 (Hs1 & Hr1 & Hq). eapply wp_mono; [by apply (Hf a (fs s1)) | done |].
  intros b s2 (Hs2 & Hr2 & Hq2). split_and!; [done|by etrans|done].
Qed.

Lemma triple_step {A B} (m : M kst A) (f : A -> M kst B) h1 h2 x q :
  triple h c m h1 x (fun a x' => triple h1 c (f a) h2 x' q) -> triple h c (bind m f) h2 x q.
Proof. intros H. eapply triple_bind; [exact H|]. auto. Qed.

Lemma triple_mono {A} (m : M kst A) h' x (q q' : A -> fsst -> Prop) :
  triple h c m h' x q -> (forall a x', q a x' -> q' a x') -> triple h c m h' x q'.
Proof. intros H Hq s Hs Hx. eapply wp_mono; [by apply H | done |]. naive_solver. Qed.

Lemma triple_crash {A} (c' : fsst -> Prop) (m : M kst A) h' x (q : A -> fsst -> Prop) :
  triple h c' m h' x q -> (forall x', c' x' -> c x') -> triple h c m h' x q.
Proof. intros H Hc s Hs Hx. eapply wp_mono; [by apply H | naive_solver | done]. Qed.

Lemma triple_getfs {A} (f : fsst -> A) x (q : A -> fsst -> Prop) :
  q (f x) x -> triple h c (getfs f) h x q.
Proof. intros H s Hs <-. simpl. split_and!; [done|reflexivity|done]. Qed.

Lemma triple_modfs f x (q : unit -> fsst -> Prop) :
  q tt (f x) -> triple h c (modfs f) h x q.
Proof. intros H s Hs <-. simpl. split_and!; [by apply sys_set_fs|apply frame_set_fs|done]. Qed.

Lemma triple_deref {A} (o : option A) (a : A) x (q : A -> fsst -> Prop) :
  o = Some a -> q a x -> triple h c (deref o) h x q.
Proof. intros ->. apply triple_ret. Qed.

Lemma triple_acquire l x (q : unit -> fsst -> Prop) :
  l ∉ h -> q tt x -> triple h c (acquire l) (l :: h) x q.
Proof.
  intros Hl Hq s Hs <-. rewrite acquire_ret by by apply (sys_free _ _ Hs). simpl.
  split_and!; [by apply sys_acq|apply frame_set_lks|done].
Qed.

Lemma triple_release l x (q : unit -> fsst -> Prop) :
  l ∉ h -> q tt x -> triple (l :: h) c (release l) h x q.
Proof.
  intros Hl Hq s Hs <-. pose proof (sys_ncli _ _ Hs) as Hn. simpl in Hn.
  rewrite release_run; [|apply (sys_held _ _ Hs); set_solver|apply (sys_cli _ _ Hs); lia|lia].
  simpl. split_and!; [by apply sys_rel|apply frame_set_lks|done].
Qed.

Lemma triple_wakeup ch x (q : unit -> fsst -> Prop) :
  L_ptable ∉ h -> q tt x -> triple h c (wakeup ch) h x q.
Proof.
  intros Hl Hq s Hs <-. destruct (wakeup_sys h ch s Hs Hl) as (s' & -> & H1 & H2 & H3).
  simpl. split_and!; [done|done|by rewrite H3].
Qed.

Lemma triple_initlock l name x (q : unit -> fsst -> Prop) :
  l ∉ h -> q tt x -> triple h c (onlks (initlock l name)) h x q.
Proof.
  intros Hl Hq s Hs <-. unfold onlks, zoom. simpl. split_and!; [|apply frame_set_lks|done].
  destruct Hs as [[k Hk] Hp Hlen Hc Hn Hf Hh]. split; simpl; try done.
  - exists k. by apply (mlfq_ext _ s).
  - intros l' Hl'. unfold lk_free, lkof. simpl. rewrite lookup_insert. case_decide; [done|].
    by apply Hf.
  - intros l' Hl'. specialize (Hh _ Hl'). unfold holds, lkof in *. simpl.
    rewrite lookup_insert_ne; [done|]. by intros ->.
Qed.

(** The same, as the first statement of a sequence. *)
Lemma triple_seq {A B C} (m : M kst A) (f : A -> M kst B) (g : B -> M kst C) h' x q :
  triple h c (bind m (fun a => bind (f a) g)) h' x q -> triple h c (bind (bind m f) g) h' x q.
Proof.
  intros H s Hs Hx. specialize (H s Hs Hx). apply wp_bind, wp_bind.
  apply wp_bind_inv in H. eapply wp_mono; [exact H|done|]. intros a s' H'. by apply wp_bind_inv.
Qed.

(** The second statement is a sequence. *)
Lemma triple_seq2 {A B C E} (l : M kst A) (m : A -> M kst B) (f : A -> B -> M kst C) (g : C -> M kst E) h' x q :
  triple h c (bind l (fun a => bind (m a) (fun b => bind (f a b) g))) h' x q ->
  triple h c (bind l (fun a => bind (bind (m a) (f a)) g)) h' x q.
Proof.
  intros H s Hs Hx. specialize (H s Hs Hx). apply wp_bind. apply wp_bind_inv in H.
  eapply wp_mono; [exact H|done|]. intros a s1 H1. apply wp_bind, wp_bind. apply wp_bind_inv in H1.
  eapply wp_mono; [exact H1|done|]. intros b s2 H2. by apply wp_bind_inv.
Qed.

Lemma triple_ret_bind {A B} (a : A) (f : A -> M kst B) h' x q :
  triple h c (f a) h' x q -> triple h c (bind (ret a) f) h' x q.
Proof. intros H s. apply H. Qed.

Lemma triple_getfs_bind {A B} (g : fsst -> A) (f : A -> M kst B) h' x q :
  triple h c (f (g x)) h' x q -> triple h c (bind (getfs g) f) h' x q.
Proof. intros H. eapply triple_bind; [by apply (triple_getfs _ _ (fun a x' => a = g x /\ x' = x))|]. by intros ? ? [-> ->]. Qed.

Lemma triple_modfs_bind {B} g (f : unit -> M kst B) h' x q :
  triple h c (f tt) h' (g x) q -> triple h c (bind (modfs g) f) h' x q.
Proof. intros H. eapply triple_bind; [by apply (triple_modfs _ _ (fun _ x' => x' = g x))|]. by intros [] ? ->. Qed.

Lemma triple_deref_bind {A B} (o : option A) a (f : A -> M kst B) h' x q :
  o = Some a -> triple h c (f a) h' x q -> triple h c (bind (deref o) f) h' x q.
Proof. intros ->. apply triple_ret_bind. Qed.

Lemma triple_wakeup_bind {B} ch (f : unit -> M kst B) h' x q :
  L_ptable ∉ h -> triple h c (f tt) h' x q -> triple h c (bind (wakeup ch) f) h' x q.
Proof. intros Hl H. eapply triple_bind; [by apply (triple_wakeup _ _ (fun _ x' => x' = x))|]. by intros [] ? ->. Qed.

Lemma triple_acquire_bind {B} l (f : unit -> M kst B) h' x q :
  l ∉ h -> triple (l :: h) c (f tt) h' x q -> triple h c (bind (acquire l) f) h' x q.
Proof. intros Hl H. eapply triple_bind; [by apply (triple_acquire _ _ (fun _ x' => x' = x))|]. by intros [] ? ->. Qed.

End Triple.

Lemma triple_release_bind {B} h c l (f : unit -> M kst B) h' x q :
  l ∉ h -> triple h c (f tt) h' x q -> triple (l :: h) c (bind (release l) f) h' x q.
Proof. intros Hl H. eapply triple_bind; [by apply (triple_release _ _ (fun _ x' => x' = x))|]. by intros [] ? ->. Qed.

(** ** Triples in a machine with the memory and the processes of [s0]

    File-system code leaves user memory alone; a routine that reads it sees what was
    there in the beginning. *)

Definition triple_at {A} (s0 : kst) (h : list lockid) (c : fsst -> Prop) (m : M kst A) (h' : list lockid)
    (x : fsst) (q : A -> fsst -> Prop) : Prop :=
  forall s, frame s0 s -> sys h s -> fs s = x ->
    wp (fun s => c (fs s)) (m s) (fun a s' => sys h' s' /\ frame s s' /\ q a (fs s')).

Section TripleAt.
Context {s0 : kst} {h : list lockid} {c : fsst -> Prop}.

Lemma triple_at_of {A} (m : M kst A) h' x q : triple h c m h' x q -> triple_at s0 h c m h' x q.
Proof. intros H s _. apply H. Qed.

Lemma triple_at_bind {A B} (m : M kst A) (f : A -> M kst B) h1 h2 x q :
  triple_at s0 h c m h1 x (fun a x' => triple_at s0 h1 c (f a) h2 x' q) -> triple_at s0 h c (bind m f) h2 x q.
Proof.
  intros H s Hf Hs Hx. apply wp_bind. eapply wp_mono; [by apply H|done|].
  intros a s1 (Hs1 & F1 & H1). eapply wp_mono; [apply (H1 s1); [by etrans|done|done]|done|].
  intros b s2 (Hs2 & F2 & Hq). split_and!; [done|by etrans|done].
Qed.

Lemma triple_at_step {A B} (m : M kst A) (f : A -> M kst B) h1 h2 x q :
  triple h c m h1 x (fun a x' => triple_at s0 h1 c (f a) h2 x' q) -> triple_at s0 h c (bind m f) h2 x q.
Proof. intros H. by eapply triple_at_bind, triple_at_of. Qed.

(** The first part of a sequence is a statement of its own. *)
Lemma triple_at_cut {A B E} (m : M kst A) (n : A -> M kst B) (k : M kst E) h' x q :
  triple h c (bind m (fun a => bind (n a) (fun _ => ret tt))) h x (fun _ x' => triple_at s0 h c k h' x' q) ->
  triple_at s0 h c (bind m (fun a => bind (n a) (fun _ => k))) h' x q.
Proof.
  intros H s Hf Hs Hx. specialize (H s Hs Hx). apply wp_bind. apply wp_bind_inv in H.
  eapply wp_mono; [exact H|done|]. intros a s1 H1. apply wp_bind. apply wp_bind_inv in H1.
  eapply wp_mono; [exact H1|done|]. intros b s2 (Hs2 & F2 & H2).
  eapply wp_mono; [apply (H2 s2); [by etrans|done|done]|done|].
  intros e s3 (Hs3 & F3 & Hq). split_and!; [done|by etrans|done].
Qed.

(** A statement that only looks. *)
Lemma triple_at_look {A B} (m : M kst A) (a : A) (f : A -> M kst B) h' x q :
  (forall s, frame s0 s -> m s = Ret a s) -> triple_at s0 h c (f a) h' x q -> triple_at s0 h c (bind m f) h' x q.
Proof. intros Hm Hf s Fs Hs Hx. unfold bind. rewrite (Hm s Fs). simpl. by apply Hf. Qed.
End TripleAt.

(** Rules for the first statement, by its shape. *)
Ltac tstep :=
  lazymatch goal with
  | |- triple _ _ (bind (bind _ _) _) _ _ _ => apply triple_seq
  | |- triple _ _ (bind (ret _) _) _ _ _ => apply triple_ret_bind
  | |- triple _ _ (bind (getfs _) _) _ _ _ => apply triple_getfs_bind
  | |- triple _ _ (bind (modfs _) _) _ _ _ => apply triple_modfs_bind
  | |- triple _ _ (bind (deref _) _) _ _ _ => eapply triple_deref_bind
  | |- triple _ _ (bind (wakeup _) _) _ _ _ => apply triple_wakeup_bind; [set_solver|]
  | |- triple _ _ (bind (acquire _) _) _ _ _ => apply triple_acquire_bind; [set_solver|]
  | |- triple _ _ (bind (release _) _) _ _ _ => apply triple_release_bind; [set_solver|]
  | |- triple _ _ (ret _) _ _ _ => apply triple_ret
  | |- triple _ _ (modfs _) _ _ _ => apply triple_modfs
  | |- triple _ _ (release _) _ _ _ => apply triple_release; [set_solver|]
  end.

(** The state of [Sched.demo]: nobody holds a lock. *)
Lemma demo_sys : sys [] demo.
Proof.
  split.
  - eexists. exact demo_ok.
  - exact demo_prio.
  - reflexivity.
  - exact (proj2 demo_locks).
  - simpl. lia.
  - intros l _. split; reflexivity.
  - intros l Hl. apply elem_of_nil in Hl. destruct Hl.
Qed.
