(* ===== verification/Bio.v ===== *)
(** * Disk drivers and the buffer cache

    [ide.c], [memide.c] and [bio.c].  The buffer cache is written against the
    interface [Disk] of a driver, which both drivers implement.  The LRU list
    of the cache is threaded through [prev]/[next] with [bcache.head] as the
    last element of [bufs].

    Loops in which a process may sleep any number of times take their fuel from
    [waits]: how often a process may be woken up to find that it has to wait
    again.  Walks of a list of buffers are bounded by the number of buffers. *)

From stdpp Require Import base list numbers strings tactics gmap functions.
From Stdlib Require Import Lia.
From S2P Require Import Prelude Params FsState KState Spinlock Sched.

Local Open Scope Z_scope.
Local Open Scope xv6_scope.

(** What the buffer cache needs of a disk driver. *)
Class Disk := {
  iderw : nat -> M kst unit;
  waits : nat
}.

Definition HEAD : nat := Z.to_nat NBUF.

Definition getb (b : nat) : M kst buf := o <- getfs (fun f => bufs f !! b) ;; deref o.

Definition upd_buf (b : nat) (f : buf -> buf) (x : fsst) : fsst := set_bufs (alter f b (bufs x)) x.

Definition modb (b : nat) (f : buf -> buf) : M kst unit := _ <- getb b ;; modfs (upd_buf b f).

(** [x |= m] and [x &= ~m] on an [int]. *)
Definition orm (x m : Z) : Z := Z.lor x m.
Definition clrm (x m : Z) : Z := Z.land x (Z.lnot m).

Definition set_flag (m : Z) (b : buf) : buf := set_b_flags (orm (b_flags b) m) b.
Definition clr_flag (m : Z) (b : buf) : buf := set_b_flags (clrm (b_flags b) m) b.

(** The contents of sector [sec] of disk [dev]. *)
Definition write_disk (dev sec : Z) (d : list Z) (x : fsst) : fsst :=
  set_disk (<[dev := <[sec := d]> (disk x dev)]> (disk x)) x.

(** ** The memory disk *)

Module Memide.
Section Memide.

(** [disksize], in sectors. *)
Variable disksize : Z.

Definition iderw (b : nat) : M kst unit :=
  bb <- getb b ;;
  if negb (bset (b_flags bb) B_BUSY) then panic "iderw: buf not busy" else
  if Z.land (b_flags bb) (Z.lor B_VALID B_DIRTY) =? B_VALID then panic "iderw: nothing to do" else
  if negb (b_dev bb =? 1) then panic "iderw: request not for disk 1" else
  if disksize <=? b_sector bb then panic "iderw: sector out of range" else
  (if bset (b_flags bb) B_DIRTY then
     modb b (clr_flag B_DIRTY) ;;;
     modfs (write_disk 1 (b_sector bb) (b_data bb))
   else
     d <- getfs (fun f => disk f 1 (b_sector bb)) ;;
     modb b (set_b_data d)) ;;;
  modb b (set_flag B_VALID).

End Memide.
End Memide.

(** ** The IDE disk *)

Module Ide.
Section Ide.

Definition IDE_DF : Z := 0x20.
Definition IDE_ERR : Z := 0x01.

(** The status register, once the drive is ready. *)
Variable status : kst -> Z.
(** How often a process may find its request not finished. *)
Variable waits : nat.

Definition idewait (checkerr : bool) : M kst Z :=
  r <- gets status ;;
  if checkerr && negb (Z.land r (Z.lor IDE_DF IDE_ERR) =? 0) then ret (-1) else ret 0.

(** The block address that the ports carry: 28 bits of the sector, and the
    drive in one bit of [dev]. *)
Definition drive (b : buf) : Z := Z.land (b_dev b) 1.
Definition lba (b : buf) : Z := Z.land (b_sector b) 0xFFFFFFF.

Definition idestart (o : option nat) : M kst unit :=
  match o with
  | None => panic "idestart"
  | Some b =>
      _ <- idewait false ;;
      bb <- getb b ;;
      when (bset (b_flags bb) B_DIRTY) (modfs (write_disk (drive bb) (lba bb) (b_data bb)))
  end.

Definition ideintr : M kst unit :=
  acquire L_idelock ;;;
  q <- getfs idequeue ;;
  match q with
  | None => release L_idelock
  | Some b =>
      bb <- getb b ;;
      modfs (set_idequeue (b_qnext bb)) ;;;
      (if negb (bset (b_flags bb) B_DIRTY) then
         r <- idewait true ;;
         when (0 <=? r)
           (d <- getfs (fun f => disk f (drive bb) (lba bb)) ;; modb b (set_b_data d))
       else ret tt) ;;;
      modb b (set_flag B_VALID) ;;;
      modb b (clr_flag B_DIRTY) ;;;
      wakeup (CBuf b) ;;;
      q <- getfs idequeue ;;
      when (bool_decide (q <> None)) (idestart q) ;;;
      release L_idelock
  end.

(** [for(pp=&idequeue; *pp; pp=&( *pp)->qnext);]: the last buffer of the queue. *)
Fixpoint queue_end (n : nat) (last o : option nat) : M kst (option nat) :=
  match o with
  | None => ret last
  | Some b =>
      match n with
      | O => outoffuel
      | S n => bb <- getb b ;; queue_end n (Some b) (b_qnext bb)
      end
  end.

(** [while((b->flags & (B_VALID|B_DIRTY)) != B_VALID) sleep(b, &idelock);] *)
Fixpoint iderw_wait (fuel : nat) (b : nat) : M kst unit :=
  bb <- getb b ;;
  if Z.land (b_flags bb) (Z.lor B_VALID B_DIRTY) =? B_VALID then ret tt
  else match fuel with
       | O => outoffuel
       | S fuel => sleep (CBuf b) (Some L_idelock) ;;; iderw_wait fuel b
       end.

Definition iderw (b : nat) : M kst unit :=
  bb <- getb b ;;
  if negb (bset (b_flags bb) B_BUSY) then panic "iderw: buf not busy" else
  if Z.land (b_flags bb) (Z.lor B_VALID B_DIRTY) =? B_VALID then panic "iderw: nothing to do" else
  hd1 <- getfs havedisk1 ;;
  if negb (b_dev bb =? 0) && (hd1 =? 0) then panic "iderw: ide disk 1 not present" else
  acquire L_idelock ;;;
  modb b (set_b_qnext None) ;;;
  q <- getfs idequeue ;;
  pp <- queue_end (S HEAD) None q ;;
  match pp with
  | None => modfs (set_idequeue (Some b))
  | Some e => modb e (set_b_qnext (Some b))
  end ;;;
  q <- getfs idequeue ;;
  when (bool_decide (q = Some b)) (idestart (Some b)) ;;;
  iderw_wait waits b ;;;
  release L_idelock.

End Ide.
End Ide.

#[export] Instance MemDisk (disksize : Z) : Disk := {
  iderw := Memide.iderw disksize;
  waits := 0
}.

(** The instance for the IDE driver is chosen explicitly. *)
Definition IdeDisk (status : kst -> Z) (n : nat) : Disk := {|
  iderw := Ide.iderw status n;
  waits := n
|}.

(** ** The buffer cache *)

Section Bio.
Context `{Disk}.

(** [b] joins the list right after the head. *)
Definition link_front (b : nat) : M kst unit :=
  h <- getb HEAD ;;
  modb b (set_b_next (b_next h)) ;;;
  modb b (set_b_prev HEAD).

Fixpoint binit_loop (bs : list nat) : M kst unit :=
  match bs with
  | [] => ret tt
  | b :: bs =>
      link_front b ;;;
      modb b (set_b_dev (u32 (-1))) ;;;
      h <- getb HEAD ;;
      modb (b_next h) (set_b_prev b) ;;;
      modb HEAD (set_b_next b) ;;;
      binit_loop bs
  end.

Definition binit : M kst unit :=
  onlks (initlock L_bcache "bcache") ;;;
  modb HEAD (set_b_prev HEAD) ;;;
  modb HEAD (set_b_next HEAD) ;;;
  binit_loop (seq 0 HEAD).

(** The first loop of [bget]: the buffer that caches the sector. *)
Fixpoint find_cached (n b : nat) (dev sector : Z) : M kst (option nat) :=
  if bool_decide (b = HEAD) then ret None else
  match n with
  | O => outoffuel
  | S n =>
      bb <- getb b ;;
      if (b_dev bb =? dev) && (b_sector bb =? sector) then ret (Some b)
      else find_cached n (b_next bb) dev sector
  end.

(** The second loop: the least recently used buffer that can be recycled. *)
Fixpoint find_free (n b : nat) : M kst (option nat) :=
  if bool_decide (b = HEAD) then ret None else
  match n with
  | O => outoffuel
  | S n =>
      bb <- getb b ;;
      if negb (bset (b_flags bb) B_BUSY) && negb (bset (b_flags bb) B_DIRTY) then ret (Some b)
      else find_free n (b_prev bb)
  end.

Fixpoint bget_loop (fuel : nat) (dev sector : Z) : M kst nat :=
  h <- getb HEAD ;;
  o <- find_cached HEAD (b_next h) dev sector ;;
  match o with
  | Some b =>
      bb <- getb b ;;
      if negb (bset (b_flags bb) B_BUSY) then
        modb b (set_flag B_BUSY) ;;;
        release L_bcache ;;;
        ret b
      else
        match fuel with
        | O => outoffuel
        | S fuel => sleep (CBuf b) (Some L_bcache) ;;; bget_loop fuel dev sector
        end
  | None =>
      o <- find_free HEAD (b_prev h) ;;
      match o with
      | Some b =>
          modb b (set_b_dev dev) ;;;
          modb b (set_b_sector sector) ;;;
          modb b (set_b_flags B_BUSY) ;;;
          release L_bcache ;;;
          ret b
      | None => panic "bget: no buffers"
      end
  end.

Definition bget (dev sector : Z) : M kst nat := acquire L_bcache ;;; bget_loop waits dev sector.

Definition bread (dev sector : Z) : M kst nat :=
  b <- bget dev sector ;;
  bb <- getb b ;;
  when (negb (bset (b_flags bb) B_VALID)) (iderw b) ;;;
  ret b.

Definition bwrite (b : nat) : M kst unit :=
  bb <- getb b ;;
  if negb (bset (b_flags bb) B_BUSY) then panic "bwrite" else
  modb b (set_flag B_DIRTY) ;;;
  iderw b.

Definition brelse (b : nat) : M kst unit :=
  bb <- getb b ;;
  if negb (bset (b_flags bb) B_BUSY) then panic "brelse" else
  acquire L_bcache ;;;
  bb <- getb b ;;
  modb (b_next bb) (set_b_prev (b_prev bb)) ;;;
  modb (b_prev bb) (set_b_next (b_next bb)) ;;;
  link_front b ;;;
  h <- getb HEAD ;;
  modb (b_next h) (set_b_prev b) ;;;
  modb HEAD (set_b_next b) ;;;
  modb b (clr_flag B_BUSY) ;;;
  wakeup (CBuf b) ;;;
  release L_bcache.

(** The bytes of a buffer, and a change of them. *)
Definition bdata (b : nat) : M kst (list Z) := bb <- getb b ;; ret (b_data bb).
Definition setdata (b : nat) (f : list Z -> list Z) : M kst unit :=
  modb b (fun bb => set_b_data (f (b_data bb)) bb).

End Bio.
