(* ===== verification/BioSpec.v ===== *)
(** * The buffer cache as a store of blocks

    What [bio.c] promises: an abstract cache [acache] says what every sector of
    the disk holds as the file system sees it ([a_view]), what the disk itself
    holds ([a_disk]), which sectors are locked and by which buffer ([a_busy]),
    and which are waiting to be written ([a_dirty]).  [repr] relates it to the
    buffers and their LRU list, and [bread], [bwrite] and [brelse] are shown to
    implement the operations on it, for every disk driver that satisfies
    [DiskLaws]. *)

From stdpp Require Import base list numbers strings tactics gmap functions.
From Stdlib Require Import Lia.
From S2P Require Import Prelude Params FsState KState Spinlock Sched Runs Bio.

Local Open Scope Z_scope.
Local Open Scope xv6_scope.

(** ** Flags *)

Lemma bset_pow2 x n : 0 <= n -> bset x (2 ^ n) = Z.testbit x n.
Proof.
  intros Hn. unfold bset. destruct (Z.testbit x n) eqn:E.
  - destruct (Z.eqb_spec (Z.land x (2 ^ n)) 0) as [H|]; [|done].
    apply (f_equal (fun z => Z.testbit z n)) in H.
    by rewrite Z.land_spec, E, Z.pow2_bits_true, Z.bits_0 in H.
  - replace (Z.land x (2 ^ n)) with 0; [done|]. symmetry. apply Z.bits_inj'. intros k Hk.
    rewrite Z.land_spec, Z.bits_0, Z.pow2_bits_eqb by done.
    destruct (Z.eqb_spec n k); [by subst; rewrite E | apply andb_false_r].
Qed.

Definition busy (bb : buf) : bool := bset (b_flags bb) B_BUSY.
Definition valid (bb : buf) : bool := bset (b_flags bb) B_VALID.
Definition dirty (bb : buf) : bool := bset (b_flags bb) B_DIRTY.

Lemma busy_bit bb : busy bb = Z.testbit (b_flags bb) 0.
Proof. apply (bset_pow2 _ 0). lia. Qed.
Lemma valid_bit bb : valid bb = Z.testbit (b_flags bb) 1.
Proof. apply (bset_pow2 _ 1). lia. Qed.
Lemma dirty_bit bb : dirty bb = Z.testbit (b_flags bb) 2.
Proof. apply (bset_pow2 _ 2). lia. Qed.


Ltac flags :=
  rewrite ?busy_bit, ?valid_bit, ?dirty_bit; unfold set_flag, clr_flag, set_b_flags; cbn [b_flags];
  unfold orm, clrm;
  rewrite ?Z.lor_spec, ?Z.land_spec, ?Z.lnot_spec by lia;
  change (Z.testbit B_BUSY 0) with true; change (Z.testbit B_BUSY 1) with false;
  change (Z.testbit B_BUSY 2) with false; change (Z.testbit B_VALID 0) with false;
  change (Z.testbit B_VALID 1) with true; change (Z.testbit B_VALID 2) with false;
  change (Z.testbit B_DIRTY 0) with false; change (Z.testbit B_DIRTY 1) with false;
  change (Z.testbit B_DIRTY 2) with true;
  cbn [negb]; rewrite ?orb_true_r, ?orb_false_r, ?andb_true_r, ?andb_false_r.

Lemma busy_set_valid bb : busy (set_flag B_VALID bb) = busy bb.
Proof. by flags. Qed.
Lemma busy_set_dirty bb : busy (set_flag B_DIRTY bb) = busy bb.
Proof. by flags. Qed.
Lemma busy_clr_dirty bb : busy (clr_flag B_DIRTY bb) = busy bb.
Proof. by flags. Qed.
Lemma busy_set_busy bb : busy (set_flag B_BUSY bb) = true.
Proof. by flags. Qed.
Lemma busy_clr_busy bb : busy (clr_flag B_BUSY bb) = false.
Proof. by flags. Qed.
Lemma valid_set_valid bb : valid (set_flag B_VALID bb) = true.
Proof. by flags. Qed.
Lemma valid_set_busy bb : valid (set_flag B_BUSY bb) = valid bb.
Proof. by flags. Qed.
Lemma valid_set_dirty bb : valid (set_flag B_DIRTY bb) = valid bb.
Proof. by flags. Qed.
Lemma valid_clr_busy bb : valid (clr_flag B_BUSY bb) = valid bb.
Proof. by flags. Qed.
Lemma dirty_set_dirty bb : dirty (set_flag B_DIRTY bb) = true.
Proof. by flags. Qed.
Lemma dirty_set_busy bb : dirty (set_flag B_BUSY bb) = dirty bb.
Proof. by flags. Qed.
Lemma dirty_set_valid bb : dirty (set_flag B_VALID bb) = dirty bb.
Proof. by flags. Qed.
Lemma dirty_clr_busy bb : dirty (clr_flag B_BUSY bb) = dirty bb.
Proof. by flags. Qed.
Lemma dirty_clr_dirty bb : dirty (clr_flag B_DIRTY bb) = false.
Proof. by flags. Qed.
Lemma valid_clr_dirty bb : valid (clr_flag B_DIRTY bb) = valid bb.
Proof. by flags. Qed.

#[export] Hint Rewrite busy_set_valid busy_set_dirty busy_clr_dirty busy_set_busy busy_clr_busy
  valid_set_valid valid_set_busy valid_set_dirty valid_clr_busy valid_clr_dirty dirty_set_dirty
  dirty_set_busy dirty_set_valid dirty_clr_busy dirty_clr_dirty : bflags.

(** [(b->flags & (B_VALID|B_DIRTY)) == B_VALID]: nothing to do for the disk. *)
Lemma nothing_to_do bb :
  (Z.land (b_flags bb) (Z.lor B_VALID B_DIRTY) =? B_VALID) = valid bb && negb (dirty bb).
Proof.
  rewrite valid_bit, dirty_bit. change (Z.lor B_VALID B_DIRTY) with 6. set (f := b_flags bb).
  assert (H : forall n, 0 <= n -> Z.testbit (Z.land f 6) n =
    if n =? 1 then Z.testbit f 1 else if n =? 2 then Z.testbit f 2 else false).
  { intros n Hn. rewrite Z.land_spec. change 6 with (Z.lor (2 ^ 1) (2 ^ 2)).
    rewrite Z.lor_spec, !Z.pow2_bits_eqb by done. rewrite (Z.eqb_sym 1), (Z.eqb_sym 2).
    destruct (Z.eqb_spec n 1) as [->|]; [apply andb_true_r|].
    destruct (Z.eqb_spec n 2) as [->|]; [apply andb_true_r | apply andb_false_r]. }
  apply eq_true_iff_eq. rewrite Z.eqb_eq, andb_true_iff, negb_true_iff. split.
  - intros E. pose proof (H 1 ltac:(lia)) as H1. pose proof (H 2 ltac:(lia)) as H2.
    rewrite E in H1, H2. by split.
  - intros [H1 H2]. apply Z.bits_inj'. intros n Hn. rewrite H, H1, H2 by done.
    change B_VALID with (2 ^ 1). rewrite Z.pow2_bits_eqb, (Z.eqb_sym 1) by done.
    by destruct (n =? 1), (n =? 2).
Qed.

(** ** The LRU list *)

Definition next_of (bs : list buf) (b : nat) : option nat := b_next <$> bs !! b.
Definition prev_of (bs : list buf) (b : nat) : option nat := b_prev <$> bs !! b.

(** [l] is what lies between [a] and [z], in both directions. *)
Fixpoint links (bs : list buf) (a : nat) (l : list nat) (z : nat) : Prop :=
  match l with
  | [] => next_of bs a = Some z /\ prev_of bs z = Some a
  | b :: l => next_of bs a = Some b /\ prev_of bs b = Some a /\ links bs b l z
  end.

Definition ring (bs : list buf) (l : list nat) : Prop :=
  links bs HEAD l HEAD /\ l ≡ₚ seq 0 HEAD.

Lemma links_ext bs bs' a l z :
  (forall c, c ∈ a :: l -> next_of bs' c = next_of bs c) ->
  (forall c, c ∈ l ++ [z] -> prev_of bs' c = prev_of bs c) ->
  links bs a l z -> links bs' a l z.
Proof.
  revert a. induction l as [|b l IH]; intros a Hn Hp; simpl.
  - intros [H1 H2]. rewrite Hn, Hp by set_solver. done.
  - intros (H1 & H2 & H3). rewrite Hn, Hp by set_solver. split_and!; [done..|].
    apply IH; [set_solver..|done].
Qed.

Lemma links_snoc bs a l b z :
  links bs a (l ++ [b]) z <-> links bs a l b /\ next_of bs b = Some z /\ prev_of bs z = Some b.
Proof. revert a. induction l as [|c l IH]; intros a; simpl; [tauto|]. rewrite IH. tauto. Qed.

Lemma ring_nodup bs l : ring bs l -> NoDup l.
Proof. intros [_ H]. rewrite H. apply NoDup_seq. Qed.

Lemma ring_elem bs l b : ring bs l -> b ∈ l <-> (b < HEAD)%nat.
Proof. intros [_ H]. rewrite H, elem_of_seq. lia. Qed.

Lemma next_of_alter bs b f c :
  next_of (alter f b bs) c = if decide (b = c) then b_next ∘ f <$> bs !! c else next_of bs c.
Proof.
  unfold next_of. rewrite list_lookup_alter. case_decide; [subst|done]. by destruct (bs !! c).
Qed.

Lemma prev_of_alter bs b f c :
  prev_of (alter f b bs) c = if decide (b = c) then b_prev ∘ f <$> bs !! c else prev_of bs c.
Proof.
  unfold prev_of. rewrite list_lookup_alter. case_decide; [subst|done]. by destruct (bs !! c).
Qed.

(** [b->next->prev = b->prev; b->prev->next = b->next;] *)
Definition unlink_bufs (p n : nat) (bs : list buf) : list buf :=
  alter (set_b_next n) p (alter (set_b_prev p) n bs).

Lemma next_unlink p n bs c :
  (p < length bs)%nat ->
  next_of (unlink_bufs p n bs) c = if decide (c = p) then Some n else next_of bs c.
Proof.
  intros Hp. unfold unlink_bufs. rewrite !next_of_alter, list_lookup_alter.
  destruct (lookup_lt_is_Some_2 bs p Hp) as [bb Hbb].
  destruct (decide (c = p)) as [->|Hne].
  - rewrite decide_True by done. case_decide; [subst|]; by rewrite Hbb.
  - rewrite decide_False by done. case_decide; [subst|done]. unfold next_of. by destruct (bs !! c).
Qed.

Lemma prev_unlink p n bs c :
  (n < length bs)%nat ->
  prev_of (unlink_bufs p n bs) c = if decide (c = n) then Some p else prev_of bs c.
Proof.
  intros Hn. unfold unlink_bufs. rewrite !prev_of_alter, list_lookup_alter.
  destruct (lookup_lt_is_Some_2 bs n Hn) as [bb Hbb].
  destruct (decide (c = n)) as [->|Hne].
  - rewrite !(decide_True (P := n = n)) by done. rewrite Hbb. by case_decide.
  - rewrite !(decide_False (P := n = c)) by done. case_decide; [|done]. subst.
    unfold prev_of. by destruct (bs !! c).
Qed.

(** The neighbours of an element. *)
Lemma links_ends bs a l1 b l2 z p n :
  links bs a (l1 ++ b :: l2) z -> prev_of bs b = Some p -> next_of bs b = Some n ->
  (p = a \/ p ∈ l1) /\ (n = z \/ n ∈ l2).
Proof.
  intros Hl Hp Hn. revert a Hl. induction l1 as [|y l1 IH]; intros a Hl; simpl in *.
  - destruct Hl as (H1 & H2 & H3). rewrite Hp in H2. simplify_eq. split; [by left|].
    destruct l2; simpl in H3; destruct H3 as [H3 _]; rewrite Hn in H3; simplify_eq; set_solver.
  - destruct Hl as (_ & _ & H3). destruct (IH _ H3); set_solver.
Qed.

Lemma links_unlink bs a l1 b l2 z p n :
  links bs a (l1 ++ b :: l2) z -> NoDup (l1 ++ b :: l2) -> a ∉ l1 ++ b :: l2 -> z ∉ l1 ++ b :: l2 ->
  (p < length bs)%nat -> (n < length bs)%nat ->
  prev_of bs b = Some p -> next_of bs b = Some n ->
  links (unlink_bufs p n bs) a (l1 ++ l2) z.
Proof.
  intros Hl Hnd Ha Hz Hpl Hnl Hp Hn. revert a Hl Ha.
  induction l1 as [|y l1 IH]; intros a Hl Ha; simpl in *.
  - destruct Hl as (H1 & H2 & H3). rewrite Hp in H2. simplify_eq.
    destruct l2 as [|w l2]; simpl in *.
    + destruct H3 as [H3 H4]. rewrite Hn in H3. simplify_eq.
      rewrite next_unlink, prev_unlink by done. by rewrite !decide_True.
    + destruct H3 as (H3 & H4 & H5). rewrite Hn in H3. simplify_eq.
      rewrite next_unlink, prev_unlink, !decide_True by done. split_and!; [done..|].
      eapply links_ext; [| |exact H5]; intros u Hu.
      * rewrite next_unlink by done. by rewrite decide_False by set_solver.
      * rewrite prev_unlink by done. rewrite decide_False; [done|]. intros ->.
        apply elem_of_app in Hu as [Hu|Hu]; [|set_solver].
        apply list.NoDup_cons in Hnd as [_ [? _]%list.NoDup_cons]. done.
  - destruct (links_ends bs a (y :: l1) b l2 z p n Hl Hp Hn) as [Ep En].
    destruct Hl as (H1 & H2 & H3). apply list.NoDup_cons in Hnd as [Hy Hnd].
    pose proof (IH Hnd ltac:(set_solver) y H3 Hy) as I1.
    destruct (links_ends bs y l1 b l2 z p n H3 Hp Hn) as [Ep' En'].
    rewrite next_unlink, prev_unlink by done.
    rewrite decide_False by set_solver. rewrite decide_False by set_solver.
    by split_and!.
Qed.

(** [b] right after [a]. *)
Definition link_bufs (b a n : nat) (bs : list buf) : list buf :=
  alter (set_b_next b) a (alter (set_b_prev b) n (alter (set_b_prev a) b (alter (set_b_next n) b bs))).

Lemma next_link b a n bs c :
  (b < length bs)%nat -> (a < length bs)%nat -> a <> b ->
  next_of (link_bufs b a n bs) c =
    if decide (c = a) then Some b else if decide (c = b) then Some n else next_of bs c.
Proof.
  intros Hb Ha Hne. unfold link_bufs. rewrite !next_of_alter, !list_lookup_alter.
  destruct (lookup_lt_is_Some_2 bs a Ha) as [ba Hba]. destruct (lookup_lt_is_Some_2 bs b Hb) as [bb Hbb].
  destruct (decide (c = a)) as [->|Hca].
  - rewrite decide_True by done. repeat case_decide; subst; try done; by rewrite ?Hba.
  - rewrite (decide_False (P := a = c)) by done. destruct (decide (c = b)) as [->|Hcb].
    + rewrite !(decide_True (P := b = b)) by done. rewrite Hbb. by case_decide.
    + rewrite !(decide_False (P := b = c)) by done. case_decide; [|done]. subst.
      unfold next_of. by destruct (bs !! c).
Qed.

Lemma prev_link b a n bs c :
  (b < length bs)%nat -> (n < length bs)%nat -> n <> b ->
  prev_of (link_bufs b a n bs) c =
    if decide (c = n) then Some b else if decide (c = b) then Some a else prev_of bs c.
Proof.
  intros Hb Hn Hne. unfold link_bufs. rewrite !prev_of_alter, !list_lookup_alter.
  destruct (lookup_lt_is_Some_2 bs n Hn) as [bn Hbn]. destruct (lookup_lt_is_Some_2 bs b Hb) as [bb Hbb].
  destruct (decide (c = n)) as [->|Hcn].
  - rewrite !(decide_True (P := n = n)), !(decide_False (P := b = n)) by done.
    rewrite Hbn. by case_decide.
  - rewrite !(decide_False (P := n = c)) by done. destruct (decide (c = b)) as [->|Hcb].
    + rewrite !(decide_True (P := b = b)), Hbb by done. by case_decide.
    + rewrite !(decide_False (P := b = c)) by done. case_decide; [|done]. subst.
      unfold prev_of. by destruct (bs !! c).
Qed.

Lemma links_link bs a l z b n :
  links bs a l z -> NoDup l -> a ∉ l -> z ∉ l -> b ∉ a :: z :: l ->
  (b < length bs)%nat -> (a < length bs)%nat -> (n < length bs)%nat -> next_of bs a = Some n ->
  links (link_bufs b a n bs) a (b :: l) z.
Proof.
  intros Hl Hnd Ha Hz Hb Lb La Ln Hn.
  assert (Hnb : n <> b) by (destruct l; simpl in Hl; destruct Hl as [E _]; rewrite Hn in E; set_solver).
  simpl. rewrite next_link, prev_link by set_solver. rewrite decide_True by done.
  rewrite decide_False by done. rewrite decide_True by done. split_and!; [done..|].
  destruct l as [|w l]; simpl in *.
  - destruct Hl as [H1 H2]. rewrite Hn in H1. simplify_eq.
    rewrite next_link, prev_link by set_solver. rewrite decide_False by set_solver.
    by rewrite !decide_True by done.
  - destruct Hl as (H1 & H2 & H3). rewrite Hn in H1. simplify_eq.
    rewrite next_link, prev_link by set_solver. rewrite decide_False by set_solver.
    rewrite !decide_True by done. split_and!; [done..|].
    apply list.NoDup_cons in Hnd as [Hw Hnd].
    eapply links_ext; [| |exact H3]; intros u Hu.
    + rewrite next_link by set_solver. by rewrite !decide_False by set_solver.
    + rewrite prev_link by set_solver. by rewrite !decide_False by set_solver.
Qed.

(** The list after [brelse]: [b] moves to the front. *)
Lemma ring_release bs l b p n m :
  ring bs l -> length bs = S HEAD -> (b < HEAD)%nat ->
  prev_of bs b = Some p -> next_of bs b = Some n ->
  next_of (unlink_bufs p n bs) HEAD = Some m ->
  (p < length bs)%nat /\ (n < length bs)%nat /\ (m < length bs)%nat /\
  exists l1 l2, l = l1 ++ b :: l2 /\ ring (link_bufs b HEAD m (unlink_bufs p n bs)) (b :: l1 ++ l2).
Proof.
  intros Hr Hlen Hb Hp Hn Hm. pose proof (ring_nodup _ _ Hr) as Hnd.
  pose proof (proj2 (ring_elem _ _ b Hr) Hb) as Hin. apply list_elem_of_split in Hin as (l1 & l2 & ->).
  assert (Hlt : forall c, c = HEAD \/ c ∈ l1 ++ b :: l2 -> (c < length bs)%nat).
  { intros c [->|Hc]; [lia|]. apply (ring_elem _ _ c Hr) in Hc. lia. }
  assert (HH : HEAD ∉ l1 ++ b :: l2) by (rewrite (ring_elem _ _ HEAD Hr); lia).
  destruct Hr as [Hl Hperm].
  destruct (links_ends bs HEAD l1 b l2 HEAD p n Hl Hp Hn) as [Ep En].
  assert (Lp : (p < length bs)%nat) by (apply Hlt; set_solver).
  assert (Ln : (n < length bs)%nat) by (apply Hlt; set_solver).
  pose proof (links_unlink bs HEAD l1 b l2 HEAD p n Hl Hnd HH HH Lp Ln Hp Hn) as Hu.
  assert (Hnd' : NoDup (l1 ++ l2) /\ b ∉ l1 ++ l2).
  { rewrite <- Permutation_middle in Hnd. by apply list.NoDup_cons in Hnd as [??]. }
  destruct Hnd' as [Hnd' Hb'].
  assert (Em : m = HEAD \/ m ∈ l1 ++ l2).
  { destruct (l1 ++ l2) as [|w l']; simpl in Hu; destruct Hu as [Hw _]; rewrite Hm in Hw;
      simplify_eq; set_solver. }
  assert (Lm : (m < length bs)%nat) by (apply Hlt; set_solver).
  split_and!; [done..|]. exists l1, l2. split; [done|]. split.
  - unfold unlink_bufs in *. apply links_link; rewrite ?length_alter; try done; try lia; set_solver.
  - by rewrite <- Hperm, Permutation_middle.
Qed.

(** ** Accesses to buffers *)

Lemma HEAD_10 : HEAD = 10%nat.
Proof. reflexivity. Qed.

#[local] Opaque HEAD.

Section Access.
Context {h : list lockid} {c : fsst -> Prop}.

Lemma triple_getb b bb x (q : buf -> fsst -> Prop) :
  bufs x !! b = Some bb -> q bb x -> triple h c (getb b) h x q.
Proof.
  intros Hb Hq. unfold getb. eapply triple_bind; [by apply (triple_getfs _ x (fun o x' => o = Some bb /\ x' = x))|].
  intros o x' [-> ->]. by apply triple_ret.
Qed.

Lemma triple_modb b bb f x (q : unit -> fsst -> Prop) :
  bufs x !! b = Some bb -> q tt (set_bufs (<[b := f bb]> (bufs x)) x) -> triple h c (modb b f) h x q.
Proof.
  intros Hb Hq. unfold modb.
  eapply triple_bind; [by apply (triple_getb _ bb _ (fun _ x' => x' = x))|]. intros _ x' ->.
  apply triple_modfs. unfold upd_buf. by rewrite (alter_as_insert _ _ _ _ Hb).
Qed.

Lemma triple_getb_bind {B} b bb (f : buf -> M kst B) h' x q :
  bufs x !! b = Some bb -> triple h c (f bb) h' x q -> triple h c (bind (getb b) f) h' x q.
Proof.
  intros Hb H. eapply triple_bind; [by apply (triple_getb _ bb _ (fun o x' => o = bb /\ x' = x))|].
  by intros ? ? [-> ->].
Qed.

Lemma triple_modb_bind {B} b bb g (f : unit -> M kst B) h' x q :
  bufs x !! b = Some bb -> triple h c (f tt) h' (set_bufs (<[b := g bb]> (bufs x)) x) q ->
  triple h c (bind (modb b g) f) h' x q.
Proof.
  intros Hb H. eapply triple_bind; [by eapply (triple_modb _ bb _ _ (fun _ x' => x' = set_bufs _ x))|].
  by intros [] ? ->.
Qed.

Lemma find_cached_triple n a l dev sec x (q : option nat -> fsst -> Prop) :
  links (bufs x) a l HEAD -> HEAD ∉ l -> (length l <= n)%nat ->
  (forall b bb, b ∈ l -> bufs x !! b = Some bb -> b_dev bb = dev -> b_sector bb = sec -> q (Some b) x) ->
  ((forall b bb, b ∈ l -> bufs x !! b = Some bb -> ~ (b_dev bb = dev /\ b_sector bb = sec)) -> q None x) ->
  forall b, next_of (bufs x) a = Some b -> triple h c (find_cached n b dev sec) h x q.
Proof.
  revert a l. induction n as [|n IH]; intros a l Hl HH Hn Hq1 Hq2 b Hb.
  - destruct l; [|simpl in Hn; lia]. destruct Hl as [E _]. rewrite Hb in E. simplify_eq. cbn [find_cached find_free].
    rewrite bool_decide_true by done. apply triple_ret, Hq2. set_solver.
  - destruct l as [|b' l]; simpl in Hl.
    + destruct Hl as [E _]. rewrite Hb in E. simplify_eq. cbn [find_cached find_free].
      rewrite bool_decide_true by done. apply triple_ret, Hq2. set_solver.
    + destruct Hl as (E & _ & Hl). rewrite Hb in E. simplify_eq. cbn [find_cached].
      rewrite bool_decide_false by set_solver.
      assert (exists bb, bufs x !! b' = Some bb) as [bb Hbb].
      { destruct (bufs x !! b') eqn:E; [eauto|]. unfold next_of in Hl.
        destruct l; simpl in Hl; unfold next_of in Hl; rewrite E in Hl; naive_solver. }
      eapply triple_getb_bind; [done|]. destruct (Z.eqb_spec (b_dev bb) dev) as [Hd|Hd]; simpl.
      * destruct (Z.eqb_spec (b_sector bb) sec) as [Hs|Hs].
        -- apply triple_ret. by apply (Hq1 b' bb); [set_solver|..].
        -- apply (IH b' l); [done|set_solver|simpl in Hn; lia| | |unfold next_of; by rewrite Hbb].
           ++ intros. by apply (Hq1 b bb0); [set_solver|..].
           ++ intros Hno. apply Hq2. intros b bb' [->|Hin]%elem_of_cons Hb'; [naive_solver|by eapply Hno].
      * apply (IH b' l); [done|set_solver|simpl in Hn; lia| | |unfold next_of; by rewrite Hbb].
        -- intros. by apply (Hq1 b bb0); [set_solver|..].
        -- intros Hno. apply Hq2. intros b bb' [->|Hin]%elem_of_cons Hb'; [naive_solver|by eapply Hno].
Qed.

Definition recyclable (bb : buf) : bool := negb (busy bb) && negb (dirty bb).

Lemma find_free_triple n l z x (q : option nat -> fsst -> Prop) :
  links (bufs x) HEAD l z -> HEAD ∉ l -> (length l <= n)%nat ->
  (forall b bb, b ∈ l -> bufs x !! b = Some bb -> recyclable bb = true -> q (Some b) x) ->
  ((forall b bb, b ∈ l -> bufs x !! b = Some bb -> recyclable bb = false) -> q None x) ->
  forall b, prev_of (bufs x) z = Some b -> triple h c (find_free n b) h x q.
Proof.
  revert l z. induction n as [|n IH]; intros l z Hl HH Hn Hq1 Hq2 b Hb.
  - destruct l; [|simpl in Hn; lia]. destruct Hl as [_ E]. rewrite Hb in E. simplify_eq. cbn [find_cached find_free].
    rewrite bool_decide_true by done. apply triple_ret, Hq2. set_solver.
  - destruct l as [|b' l _] using rev_ind; simpl in Hl.
    + destruct Hl as [_ E]. rewrite Hb in E. simplify_eq. cbn [find_cached find_free].
      rewrite bool_decide_true by done. apply triple_ret, Hq2. set_solver.
    + apply links_snoc in Hl as (Hl & E' & E). rewrite Hb in E. simplify_eq. cbn [find_free].
      rewrite length_app in Hn. simpl in Hn. rewrite bool_decide_false by set_solver.
      unfold next_of in E'. destruct (bufs x !! b') as [bb|] eqn:Hbb; [|done].
      eapply triple_getb_bind; [done|]. fold (busy bb) (dirty bb) (recyclable bb).
      destruct (recyclable bb) eqn:Hr.
      * apply triple_ret. by apply (Hq1 b' bb); [set_solver|..].
      * apply (IH l b'); [done|set_solver|lia| | |unfold prev_of; by rewrite Hbb].
        -- intros. by apply (Hq1 b bb0); [set_solver|..].
        -- intros Hno. apply Hq2.
           intros b bb' [Hin| ->%list_elem_of_singleton]%elem_of_app Hb'; [by eapply Hno|naive_solver].
Qed.

End Access.

(** ** Drivers *)

(** What the buffer cache relies on: a request for a buffer that has not been
    read yet reads its sector, one for a dirty buffer writes it; [c] is to hold
    before a write if the driver gives up the CPU there, in case the machine loses
    power. *)
Definition gives_up `{Disk} (b : nat) (x : fsst) : Prop :=
  exists s s' k, fs s = x /\ iderw b s = Swtch s' k.

Class DiskLaws `{Disk} (size : Z) : Prop := {
  iderw_reads h c b bb x (q : unit -> fsst -> Prop) :
    bufs x !! b = Some bb -> busy bb = true -> valid bb = false -> dirty bb = false ->
    b_dev bb = 1 -> b_sector bb < size ->
    q tt (set_bufs (<[b := set_flag B_VALID (set_b_data (disk x 1 (b_sector bb)) bb)]> (bufs x)) x) ->
    triple h c (iderw b) h x q;
  iderw_writes h c b bb x (q : unit -> fsst -> Prop) :
    bufs x !! b = Some bb -> busy bb = true -> dirty bb = true ->
    b_dev bb = 1 -> b_sector bb < size -> (gives_up b x -> c x) ->
    q tt (write_disk 1 (b_sector bb) (b_data bb)
            (set_bufs (<[b := set_flag B_VALID (clr_flag B_DIRTY bb)]> (bufs x)) x)) ->
    triple h c (iderw b) h x q
}.

(** The memory disk in a machine that may lose power before any write. *)
Definition CrashDisk (size : Z) : Disk := {|
  iderw := fun b s =>
    match bufs (fs s) !! b with
    | Some bb => if dirty bb then Swtch s (Memide.iderw size b) else Memide.iderw size b s
    | None => Memide.iderw size b s
    end;
  waits := 0
|}.

Lemma memide_reads size h c b bb x (q : unit -> fsst -> Prop) :
  bufs x !! b = Some bb -> busy bb = true -> valid bb = false -> dirty bb = false ->
  b_dev bb = 1 -> b_sector bb < size ->
  q tt (set_bufs (<[b := set_flag B_VALID (set_b_data (disk x 1 (b_sector bb)) bb)]> (bufs x)) x) ->
  triple h c (Memide.iderw size b) h x q.
Proof.
  intros Hb Hbusy Hv Hd Hdev Hsec Hq. unfold Memide.iderw.
  eapply triple_getb_bind; [done|].
  rewrite nothing_to_do, Hv. fold (busy bb) (dirty bb). rewrite Hbusy, Hd, Hdev. simpl.
  destruct (Z.leb_spec size (b_sector bb)); [lia|].
  tstep. tstep. eapply triple_modb_bind; [done|].
  eapply triple_modb; [by apply list_lookup_insert_eq, (lookup_lt_Some _ _ _ Hb)|].
  simpl. by rewrite list_insert_insert_eq.
Qed.

Lemma memide_writes size h c b bb x (q : unit -> fsst -> Prop) :
  bufs x !! b = Some bb -> busy bb = true -> dirty bb = true ->
  b_dev bb = 1 -> b_sector bb < size ->
  q tt (write_disk 1 (b_sector bb) (b_data bb)
          (set_bufs (<[b := set_flag B_VALID (clr_flag B_DIRTY bb)]> (bufs x)) x)) ->
  triple h c (Memide.iderw size b) h x q.
Proof.
  intros Hb Hbusy Hd Hdev Hsec Hq. unfold Memide.iderw.
  eapply triple_getb_bind; [done|].
  rewrite nothing_to_do. fold (busy bb) (dirty bb). rewrite Hbusy, Hd, Hdev, andb_false_r. simpl.
  destruct (Z.leb_spec size (b_sector bb)); [lia|].
  tstep. eapply triple_modb_bind; [done|]. tstep.
  eapply triple_modb; [by apply list_lookup_insert_eq, (lookup_lt_Some _ _ _ Hb)|].
  simpl. rewrite list_insert_insert_eq. exact Hq.
Qed.

(** A routine that keeps the CPU. *)
Definition steady {A} (m : M kst A) : Prop := forall s s' k, m s <> Swtch s' k.

Lemma steady_bind {A B} (m : M kst A) (f : A -> M kst B) : steady m -> (forall a, steady (f a)) -> steady (bind m f).
Proof. intros Hm Hf s s' k. unfold bind. specialize (Hm s). destruct (m s); simpl; [apply Hf|done..| by destruct (Hm _ _ eq_refl)]. Qed.

Lemma steady_modb b f : steady (modb b f).
Proof. intros s s' k. unfold modb, getb, modfs, getfs, bind, gets, deref. simpl. by destruct (_ !! b). Qed.

(** [memide.c] finishes a request at once. *)
Lemma memide_stays size b x : ~ gives_up (H := MemDisk size) b x.
Proof.
  assert (H : steady (Memide.iderw size b)).
  { unfold Memide.iderw. apply steady_bind.
    - intros s s' k. unfold getb, getfs, bind, gets, deref. simpl. by destruct (_ !! b).
    - intros bb. repeat (destruct (_ : bool); [done|]). apply steady_bind; [|intros _; apply steady_modb].
      destruct (bset _ _); apply steady_bind; try done; intros; apply steady_modb. }
  intros (s & s' & k & _ & E). by apply (H s s' k).
Qed.

#[export] Instance MemDisk_laws size : DiskLaws (H := MemDisk size) size.
Proof. split; intros; [by eapply memide_reads | by eapply memide_writes]. Qed.

#[export] Instance CrashDisk_laws size : DiskLaws (H := CrashDisk size) size.
Proof.
  split; intros h c b bb x q Hb.
  - intros Hbusy Hv Hd Hdev Hsec Hq s Hs <-. simpl. rewrite Hb, Hd. by eapply memide_reads.
  - intros Hbusy Hd Hdev Hsec Hc Hq s Hs <-. simpl. rewrite Hb, Hd. simpl. split.
    { apply Hc. exists s, s, (Memide.iderw size b). split; [done|]. simpl. by rewrite Hb, Hd. }
    by eapply memide_writes.
Qed.

(** ** The abstract cache *)

Record acache := mkacache {
  a_view : Z -> list Z;
  a_disk : Z -> list Z;
  a_busy : gmap Z nat;
  a_dirty : gset Z
}.

(** Sectors whose buffer cannot be recycled. *)
Definition pinned (a : acache) : gset Z := dom (a_busy a) ∪ a_dirty a.

Definition on_sec (x : fsst) (b : nat) (sec : Z) (bb : buf) : Prop :=
  (b < HEAD)%nat /\ bufs x !! b = Some bb /\ b_dev bb = 1 /\ b_sector bb = sec.

(** A buffer of the disk. *)
Record buf_ok (a : acache) (b : nat) (sec : Z) (bb : buf) : Prop := mkbuf_ok {
  bo_valid : valid bb = true;
  bo_busy : a_busy a !! sec = if busy bb then Some b else None;
  bo_dirty : dirty bb = bool_decide (sec ∈ a_dirty a);
  bo_view : a_view a sec = b_data bb;
  bo_clean : recyclable bb = true -> b_data bb = a_disk a sec
}.

Record repr (x : fsst) (a : acache) : Prop := mkrepr {
  r_len : length (bufs x) = S HEAD;
  r_ring : exists l, ring (bufs x) l;
  r_uniq : forall b1 b2 sec bb1 bb2, on_sec x b1 sec bb1 -> on_sec x b2 sec bb2 -> b1 = b2;
  r_disk : a_disk a = disk x 1;
  r_cached : forall b sec bb, on_sec x b sec bb -> buf_ok a b sec bb;
  r_uncached : forall sec, (forall b bb, ~ on_sec x b sec bb) ->
    a_view a sec = a_disk a sec /\ sec ∉ pinned a;
  r_other : forall b bb, (b < HEAD)%nat -> bufs x !! b = Some bb -> b_dev bb <> 1 -> recyclable bb = true
}.

(** Everything of the file system but the cache and the disk. *)
Definition rest (x x' : fsst) : Prop := x' = set_bufs (bufs x') (set_disk (disk x') x).

#[export] Instance rest_preorder : PreOrder rest.
Proof.
  split; [intros x; unfold rest; by destruct x|].
  intros a b d Hb Hd. unfold rest in *. rewrite Hd, Hb. by destruct a.
Qed.

Lemma rest_set_bufs x bs : rest x (set_bufs bs x).
Proof. unfold rest. by destruct x. Qed.

Lemma rest_write x dev sec d : rest x (write_disk dev sec d x).
Proof. unfold rest. by destruct x. Qed.

(** Changing one buffer without touching its links keeps the list. *)
Lemma ring_insert bs l b bb bb' :
  bs !! b = Some bb -> b_next bb' = b_next bb -> b_prev bb' = b_prev bb ->
  ring bs l -> ring (<[b := bb']> bs) l.
Proof.
  intros Hb Hn Hp [Hl Hperm]. split; [|done].
  assert (Lb : (b < length bs)%nat) by (by eapply lookup_lt_Some).
  eapply links_ext; [| |exact Hl]; intros c _; unfold next_of, prev_of.
  - destruct (decide (b = c)) as [->|]; [|by rewrite list_lookup_insert_ne].
    rewrite list_lookup_insert_eq, Hb by done. simpl. congruence.
  - destruct (decide (b = c)) as [->|]; [|by rewrite list_lookup_insert_ne].
    rewrite list_lookup_insert_eq, Hb by done. simpl. congruence.
Qed.

Lemma on_sec_insert x b bb' d c sec bb :
  (b < length (bufs x))%nat ->
  on_sec (set_disk d (set_bufs (<[b := bb']> (bufs x)) x)) c sec bb <->
  (c = b /\ (b < HEAD)%nat /\ bb = bb' /\ b_dev bb' = 1 /\ b_sector bb' = sec) \/
  (c <> b /\ on_sec x c sec bb).
Proof.
  intros Hb. unfold on_sec. simpl. destruct (decide (c = b)) as [->|Hne].
  - rewrite list_lookup_insert_eq by done. naive_solver.
  - rewrite list_lookup_insert_ne by done. naive_solver.
Qed.

(** One buffer [b] of sector [sec] and perhaps the sector itself change. *)
Lemma repr_update x a b sec bb bb' a' d :
  repr x a -> on_sec x b sec bb ->
  b_next bb' = b_next bb -> b_prev bb' = b_prev bb -> b_dev bb' = 1 -> b_sector bb' = sec ->
  a_disk a' = d 1 -> buf_ok a' b sec bb' ->
  (forall s, s <> sec -> a_view a' s = a_view a s /\ a_disk a' s = a_disk a s /\
    a_busy a' !! s = a_busy a !! s /\ (s ∈ a_dirty a' <-> s ∈ a_dirty a)) ->
  repr (set_disk d (set_bufs (<[b := bb']> (bufs x)) x)) a'.
Proof.
  intros [R1 [l R2] R3 R4 R5 R6 R7] (Hlt & Hb & Hdev & Hsec) Hn Hp Hd' Hs' Hdisk Hok Ho.
  assert (Lb : (b < length (bufs x))%nat) by lia.
  assert (Hon : on_sec x b sec bb) by done.
  split.
  - simpl. by rewrite length_insert.
  - exists l. by eapply ring_insert.
  - intros b1 b2 sc bb1 bb2. rewrite !on_sec_insert by done.
    intros [(-> & _ & -> & _ & E1)|[N1 O1]] [(-> & _ & -> & _ & E2)|[N2 O2]]; [done|..].
    + subst sc. rewrite Hs' in O2. destruct N2. by eapply R3.
    + subst sc. rewrite Hs' in O1. destruct N1. by eapply R3.
    + by eapply R3.
  - done.
  - intros c sc bc. rewrite on_sec_insert by done. intros [(-> & _ & -> & _ & E1)|[N1 O1]].
    + rewrite <- E1, Hs'. done.
    + assert (sc <> sec) as Hne by (intros ->; destruct N1; by eapply R3).
      destruct (R5 _ _ _ O1) as [V1 V2 V3 V4 V5]. destruct (Ho sc Hne) as (G1 & G2 & G3 & G4).
      split; rewrite ?G1, ?G2, ?G3; try done. rewrite V3. by apply bool_decide_ext.
  - intros sc Hno. assert (sc <> sec) as Hne.
    { intros ->. apply (Hno b bb'). rewrite on_sec_insert by done. left. done. }
    destruct (Ho sc Hne) as (G1 & G2 & G3 & G4). rewrite G1, G2. unfold pinned.
    rewrite not_elem_of_union, not_elem_of_dom, G3, G4.
    rewrite <- not_elem_of_dom, <- not_elem_of_union. apply R6. intros c bc Hc.
    apply (Hno c bc). rewrite on_sec_insert by done. right. split; [|done]. intros ->.
    destruct Hc as (_ & Hc & _ & Hc'). rewrite Hb in Hc. congruence.
  - intros c bc Hc. simpl. destruct (decide (c = b)) as [->|]; [|rewrite list_lookup_insert_ne by done; by apply R7].
    rewrite list_lookup_insert_eq by done. intros. simplify_eq.
Qed.

(** A recyclable buffer is given to a sector that is not cached. *)
Definition abread (a : acache) (sec : Z) (b : nat) : acache :=
  mkacache (a_view a) (a_disk a) (<[sec := b]> (a_busy a)) (a_dirty a).

Lemma repr_recycle x a b sec bb bb' :
  repr x a -> (b < HEAD)%nat -> bufs x !! b = Some bb -> recyclable bb = true ->
  (forall c bc, ~ on_sec x c sec bc) ->
  b_next bb' = b_next bb -> b_prev bb' = b_prev bb -> b_dev bb' = 1 -> b_sector bb' = sec ->
  valid bb' = true -> busy bb' = true -> dirty bb' = false -> b_data bb' = disk x 1 sec ->
  repr (set_bufs (<[b := bb']> (bufs x)) x) (abread a sec b).
Proof.
  intros [R1 [l R2] R3 R4 R5 R6 R7] Hlt Hb Hrec Hno Hn Hp Hd' Hs' Hv Hbz Hdt Hdata.
  assert (Lb : (b < length (bufs x))%nat) by lia.
  assert (Hon : forall c sc bc, on_sec (set_bufs (<[b := bb']> (bufs x)) x) c sc bc <->
    (c = b /\ (b < HEAD)%nat /\ bc = bb' /\ b_dev bb' = 1 /\ b_sector bb' = sc) \/
    (c <> b /\ on_sec x c sc bc)) by (intros; by apply (on_sec_insert x b bb' (disk x))).
  destruct (R6 sec Hno) as [Hview Hpin].
  split.
  - simpl. by rewrite length_insert.
  - exists l. by eapply ring_insert.
  - intros b1 b2 sc bb1 bb2. rewrite !Hon.
    intros [(-> & _ & -> & _ & E1)|[N1 O1]] [(-> & _ & -> & _ & E2)|[N2 O2]]; [done|..].
    + subst sc. rewrite Hs' in O2. by destruct (Hno b2 bb2).
    + subst sc. rewrite Hs' in O1. by destruct (Hno b1 bb1).
    + by eapply R3.
  - done.
  - intros c sc bc. rewrite Hon. intros [(-> & _ & -> & _ & E1)|[N1 O1]].
    + rewrite <- E1, Hs'. split; simpl; try done.
      * by rewrite Hbz, lookup_insert_eq.
      * rewrite Hdt, bool_decide_false; [done|]. set_solver.
      * by rewrite Hview, R4, Hdata.
      * intros _. by rewrite R4.
    + assert (sc <> sec) as Hne by (intros ->; by destruct (Hno c bc)).
      destruct (R5 _ _ _ O1) as [V1 V2 V3 V4 V5]. split; simpl; rewrite ?lookup_insert_ne by done; done.
  - intros sc Hno'. assert (sc <> sec) as Hne.
    { intros ->. apply (Hno' b bb'). rewrite Hon. left. done. }
    unfold pinned. simpl. rewrite dom_insert.
    destruct (decide (b_dev bb = 1 /\ b_sector bb = sc)) as [[Hd0 Hs0]|Hcold].
    + assert (O : on_sec x b sc bb) by done. destruct (R5 _ _ _ O) as [V1 V2 V3 V4 V5].
      pose proof Hrec as Hrec'. unfold recyclable in Hrec'.
      apply andb_true_iff in Hrec' as [Hnb Hnd]. apply negb_true_iff in Hnb, Hnd.
      rewrite Hnb in V2. rewrite Hnd in V3. symmetry in V3. apply bool_decide_eq_false in V3.
      split; [by rewrite V4, V5|]. apply not_elem_of_dom in V2. set_solver.
    + destruct (R6 sc) as [G1 G2]; [|split; [done|]; unfold pinned in G2; set_solver].
      intros c bc Hc. destruct (decide (c = b)) as [->|Hcb].
      * destruct Hc as (_ & Hc & ? & ?). rewrite Hb in Hc. simplify_eq. by destruct Hcold.
      * apply (Hno' c bc). rewrite Hon. by right.
  - intros c bc Hc. simpl. destruct (decide (c = b)) as [->|]; [|rewrite list_lookup_insert_ne by done; by apply R7].
    rewrite list_lookup_insert_eq by done. intros. simplify_eq.
Qed.

(** There is a buffer to recycle as long as fewer sectors than buffers are
    pinned. *)
Lemma repr_room x a :
  repr x a -> (size (pinned a) < HEAD)%nat ->
  ~ forall b bb, (b < HEAD)%nat -> bufs x !! b = Some bb -> recyclable bb = false.
Proof.
  intros R Hsz Hall. pose proof R as [R1 [l R2] R3 R4 R5 R6 R7].
  set (sector b := default 0 (b_sector <$> bufs x !! b)).
  assert (Hon : forall b, (b < HEAD)%nat -> exists bb, on_sec x b (sector b) bb /\ recyclable bb = false).
  { intros b Hlt. destruct (lookup_lt_is_Some_2 (bufs x) b ltac:(lia)) as [bb Hb].
    assert (Hr : recyclable bb = false) by by eapply Hall.
    exists bb. split; [|done]. unfold on_sec, sector. rewrite Hb. split_and!; try done.
    destruct (decide (b_dev bb = 1)); [done|]. by rewrite (R7 b bb) in Hr. }
  assert (Hnd : NoDup (sector <$> seq 0 HEAD)).
  { apply list.NoDup_fmap_2_strong; [|apply NoDup_seq].
    intros b1 b2 [_ L1]%elem_of_seq [_ L2]%elem_of_seq E.
    destruct (Hon b1 L1) as (bb1 & O1 & _), (Hon b2 L2) as (bb2 & O2 & _). rewrite E in O1. by eapply R3. }
  pose proof (size_list_to_set (C := gset Z) _ Hnd) as Hs. rewrite length_fmap, length_seq in Hs.
  assert (Hsub : (list_to_set (sector <$> seq 0 HEAD) : gset Z) ⊆ pinned a).
  { intros s. rewrite elem_of_list_to_set, list_elem_of_fmap. intros (b & -> & [_ L]%elem_of_seq).
    destruct (Hon b L) as (bb & O & Hr). destruct (R5 _ _ _ O) as [V1 V2 V3 V4 V5].
    unfold pinned. apply elem_of_union. unfold recyclable in Hr. apply andb_false_iff in Hr as [Hr|Hr].
    - apply negb_false_iff in Hr. rewrite Hr in V2. left. by apply elem_of_dom_2 in V2.
    - apply negb_false_iff in Hr. rewrite Hr in V3. right. symmetry in V3. by apply bool_decide_eq_true in V3. }
  apply subseteq_size in Hsub. lia.
Qed.

(** A sector is cached or it is not. *)
Lemma on_sec_dec x sec : (exists b bb, on_sec x b sec bb) \/ (forall b bb, ~ on_sec x b sec bb).
Proof.
  set (f b := match bufs x !! b with Some bb => (b_dev bb =? 1) && (b_sector bb =? sec) | None => false end).
  destruct (existsb f (seq 0 HEAD)) eqn:E.
  - apply existsb_exists in E as (b & Hb & Hf). apply in_seq in Hb. unfold f in Hf.
    destruct (bufs x !! b) as [bb|] eqn:Hbb; [|done]. apply andb_true_iff in Hf as [H1 H2].
    apply Z.eqb_eq in H1, H2. left. exists b, bb. split; [lia|done].
  - right. intros b bb (Hlt & Hb & H1 & H2). apply not_true_iff_false in E. apply E, existsb_exists.
    exists b. split; [apply in_seq; lia|]. unfold f. by rewrite Hb, H1, H2, !Z.eqb_refl.
Qed.

(** The buffer of a locked sector. *)
Lemma repr_handle x a sec b :
  repr x a -> a_busy a !! sec = Some b -> exists bb, on_sec x b sec bb /\ busy bb = true.
Proof.
  intros R Hb. destruct (on_sec_dec x sec) as [(b' & bb & Hon)|Hno].
  - pose proof (bo_busy _ _ _ _ (r_cached _ _ R _ _ _ Hon)) as E. rewrite Hb in E.
    destruct (busy bb) eqn:Hbz; [|done]. simplify_eq. by exists bb.
  - destruct (r_uncached _ _ R _ Hno) as [_ Hp]. unfold pinned in Hp.
    apply elem_of_dom_2 in Hb. set_solver.
Qed.

(** A buffer without its links. *)
Definition strip (bb : buf) : buf := set_b_next 0 (set_b_prev 0 bb).

Definition same_content (bs bs' : list buf) : Prop := forall b, strip <$> bs' !! b = strip <$> bs !! b.

#[export] Instance same_content_preorder : PreOrder same_content.
Proof. split; [done|]. intros a b d H1 H2 i. by rewrite H2. Qed.

Lemma same_content_alter bs b f : (forall bb, strip (f bb) = strip bb) -> same_content bs (alter f b bs).
Proof.
  intros Hf i. rewrite list_lookup_alter. case_decide; [subst|done].
  destruct (bs !! i); simpl; [by rewrite Hf | done].
Qed.

Lemma buf_ok_strip a b sec bb bb' : strip bb = strip bb' -> buf_ok a b sec bb -> buf_ok a b sec bb'.
Proof. destruct bb, bb'. intros [= -> -> -> -> ->] [V1 V2 V3 V4 V5]. by split. Qed.

Lemma repr_relink x a bs' l' :
  repr x a -> same_content (bufs x) bs' -> length bs' = length (bufs x) -> ring bs' l' ->
  repr (set_bufs bs' x) a.
Proof.
  intros [R1 [l R2] R3 R4 R5 R6 R7] Hs Hlen Hr.
  assert (Hback : forall b bb', bs' !! b = Some bb' -> exists bb, bufs x !! b = Some bb /\ strip bb = strip bb').
  { intros b bb' Hb. specialize (Hs b). rewrite Hb in Hs.
    destruct (bufs x !! b) as [bb|]; [|discriminate Hs]. exists bb. split; [done|]. by apply (inj Some). }
  assert (Hsame : forall bb bb', strip bb = strip bb' -> b_flags bb = b_flags bb' /\ b_dev bb = b_dev bb' /\
    b_sector bb = b_sector bb' /\ b_data bb = b_data bb').
  { intros bb bb' E. split_and!; [apply (f_equal b_flags) in E|apply (f_equal b_dev) in E|
      apply (f_equal b_sector) in E|apply (f_equal b_data) in E]; exact E. }
  assert (Hon : forall b sec bb', on_sec (set_bufs bs' x) b sec bb' ->
    exists bb, on_sec x b sec bb /\ strip bb = strip bb').
  { intros b sec bb' (H1 & H2 & H3 & H4). destruct (Hback _ _ H2) as (bb & G1 & G2).
    exists bb. split; [|done]. destruct (Hsame _ _ G2) as (_ & E1 & E2 & _).
    split_and!; [done|done|congruence..]. }
  split.
  - simpl. lia.
  - by exists l'.
  - intros b1 b2 sec bb1 bb2 (b1' & O1 & _)%Hon (b2' & O2 & _)%Hon. by eapply R3.
  - done.
  - intros b sec bb' (bb & O & E)%Hon. eapply buf_ok_strip; [exact E|by apply R5].
  - intros sec Hno. apply R6. intros b bb (H1 & H2 & H3 & H4).
    pose proof (Hs b) as E. rewrite H2 in E. destruct (bs' !! b) as [bb'|] eqn:Hb; [|discriminate E].
    apply (inj Some) in E. destruct (Hsame _ _ E) as (_ & E1 & E2 & _).
    apply (Hno b bb'). split_and!; [done|done|congruence..].
  - intros b bb' Hlt Hb Hd. destruct (Hback _ _ Hb) as (bb & G1 & G2).
    destruct (Hsame _ _ G2) as (E1 & E2 & _ & _).
    assert (recyclable bb = true) as Hrec by (eapply R7; [done|done|congruence]).
    unfold recyclable, busy, dirty in *. by rewrite <- E1.
Qed.

(** [repr] looks at the buffers and the disk only, and at the abstract cache
    sector by sector. *)
Lemma repr_ext x x' a a' :
  repr x a -> bufs x' = bufs x -> disk x' 1 = disk x 1 ->
  (forall s, a_view a' s = a_view a s) -> a_disk a' = a_disk a -> a_busy a' = a_busy a ->
  a_dirty a' = a_dirty a -> repr x' a'.
Proof.
  intros [R1 R2 R3 R4 R5 R6 R7] Eb Ed Hv Hd Hb Hy.
  assert (Hon : forall b sec bb, on_sec x' b sec bb <-> on_sec x b sec bb)
    by (intros; unfold on_sec; by rewrite Eb).
  split; rewrite ?Eb, ?Ed, ?Hd; try done.
  - intros b1 b2 sec bb1 bb2. rewrite !Hon. apply R3.
  - intros b sec bb [V1 V2 V3 V4 V5]%Hon%R5. split; rewrite ?Hv, ?Hd, ?Hb, ?Hy; done.
  - intros sec Hno. unfold pinned. rewrite Hv, Hb, Hy. apply R6. intros b bb. by rewrite <- Hon.
Qed.

Lemma rest_lg x x' : rest x x' -> lg x' = lg x.
Proof. intros ->. reflexivity. Qed.

(** Everything but the cache, the disk and the log. *)
Definition kept (x x' : fsst) : Prop := x' = set_bufs (bufs x') (set_disk (disk x') (set_lg (lg x') x)).

#[export] Instance kept_preorder : PreOrder kept.
Proof.
  split; [intros x; unfold kept; by destruct x|].
  intros a b d Hb Hd. unfold kept in *. rewrite Hd, Hb. by destruct a.
Qed.

Lemma rest_kept x x' : rest x x' -> kept x x'.
Proof. unfold rest, kept. intros ->. by destruct x. Qed.

Lemma kept_set_lg l x : kept x (set_lg l x).
Proof. unfold kept. by destruct x. Qed.

Lemma kept_inodes x x' : kept x x' -> inodes x' = inodes x.
Proof. unfold kept. by intros ->. Qed.

Lemma kept_files x x' : kept x x' -> files x' = files x.
Proof. unfold kept. by intros ->. Qed.

(** A sector that is neither locked nor dirty is on the disk. *)
Lemma repr_unpinned x a sec : repr x a -> sec ∉ pinned a -> a_view a sec = a_disk a sec.
Proof.
  intros R Hp. destruct (on_sec_dec x sec) as [(b & bb & Hon)|Hno]; [|by apply (r_uncached _ _ R)].
  destruct (r_cached _ _ R _ _ _ Hon) as [V1 V2 V3 V4 V5]. rewrite V4. apply V5.
  unfold pinned in Hp. apply not_elem_of_union in Hp as [Hb Hd].
  apply not_elem_of_dom in Hb. rewrite Hb in V2. unfold recyclable. rewrite V3.
  rewrite bool_decide_false by done. by destruct (busy bb).
Qed.

(** ** The operations of the cache *)

Section Ops.
Context `{D : Disk} {size_ : Z} `{!DiskLaws size_}.
Context {h : list lockid} {c : fsst -> Prop}.
Hypothesis bcache_free : L_bcache ∉ h.
Hypothesis ptable_free : L_ptable ∉ h.

(** The buffer [bget] returns and the state it leaves. *)
Definition bget_post (x : fsst) (sec : Z) (b : nat) (x' : fsst) : Prop :=
  (exists bb, on_sec x b sec bb /\ x' = set_bufs (<[b := set_flag B_BUSY bb]> (bufs x)) x) \/
  ((forall b' bb', ~ on_sec x b' sec bb') /\
   exists bb, (b < HEAD)%nat /\ bufs x !! b = Some bb /\ recyclable bb = true /\
     x' = set_bufs (<[b := set_b_flags B_BUSY (set_b_sector sec (set_b_dev 1 bb))]> (bufs x)) x).

Lemma bget_loop_eq n dev sector :
  bget_loop n dev sector =
  bind (getb HEAD) (fun hd => bind (find_cached HEAD (b_next hd) dev sector) (fun o =>
    match o with
    | Some b => bind (getb b) (fun bb =>
        if negb (busy bb) then
          modb b (set_flag B_BUSY) ;;; release L_bcache ;;; ret b
        else match n with
             | O => outoffuel
             | S n => sleep (CBuf b) (Some L_bcache) ;;; bget_loop n dev sector
             end)
    | None => bind (find_free HEAD (b_prev hd)) (fun o =>
        match o with
        | Some b => modb b (set_b_dev dev) ;;; modb b (set_b_sector sector) ;;;
            modb b (set_b_flags B_BUSY) ;;; release L_bcache ;;; ret b
        | None => panic "bget: no buffers"
        end)
    end)).
Proof. by destruct n. Qed.

Lemma bget_loop_triple n x a sec :
  repr x a -> a_busy a !! sec = None -> (sec ∈ a_dirty a \/ (size (pinned a) < HEAD)%nat) ->
  triple (L_bcache :: h) c (bget_loop n 1 sec) h x (bget_post x sec).
Proof.
  intros R Hbusy Hroom. pose proof R as [R1 [l R2] R3 R4 R5 R6 R7].
  assert (Hin : forall b, b ∈ l <-> (b < HEAD)%nat) by (intros; by eapply ring_elem).
  assert (HH : HEAD ∉ l) by (rewrite Hin; lia).
  assert (Hlen : length l = HEAD) by (destruct R2 as [_ E]; by rewrite E, length_seq).
  destruct (lookup_lt_is_Some_2 (bufs x) HEAD ltac:(lia)) as [hd Hhd].
  rewrite bget_loop_eq. eapply triple_getb_bind; [exact Hhd|]. eapply triple_bind.
  { eapply (find_cached_triple HEAD HEAD l 1 sec x (fun o x' => x' = x /\
      match o with
      | Some b => exists bb, on_sec x b sec bb
      | None => forall b bb, ~ on_sec x b sec bb
      end)); [apply R2|done|lia| | |unfold next_of; by rewrite Hhd].
    - intros b bb Hb. split; [done|]. exists bb. split; [by apply Hin|done].
    - intros Hno. split; [done|]. intros b bb (Hlt & Hb & H1 & H2). by eapply Hno; [apply Hin| |]. }
  intros [b|] ? [-> Hc].
  - destruct Hc as [bb Hon]. pose proof Hon as (Hlt & Hb & _). destruct (R5 _ _ _ Hon) as [_ V2 _ _ _].
    rewrite Hbusy in V2. destruct (busy bb) eqn:Hbz; [done|].
    eapply triple_getb_bind; [exact Hb|]. rewrite Hbz. cbn [negb].
    eapply triple_modb_bind; [exact Hb|]. tstep. tstep. left. by exists bb.
  - assert (Hsz : (size (pinned a) < HEAD)%nat).
    { destruct Hroom as [Hd|]; [|done]. destruct (R6 _ Hc) as [_ Hp]. unfold pinned in Hp. set_solver. }
    eapply triple_bind.
    { eapply (find_free_triple HEAD l HEAD x (fun o x' => x' = x /\
        match o with
        | Some b => exists bb, (b < HEAD)%nat /\ bufs x !! b = Some bb /\ recyclable bb = true
        | None => False
        end)); [apply R2|done|lia| | |unfold prev_of; by rewrite Hhd].
      - intros b bb Hb ? ?. split; [done|]. exists bb. split; [by apply Hin|done].
      - intros Hall. destruct (repr_room x a R Hsz). intros b bb Hlt. by apply Hall, Hin. }
    intros [b|] ? [-> Hf]; [|done]. destruct Hf as (bb & Hlt & Hb & Hr).
    assert (Lb : (b < length (bufs x))%nat) by (by eapply lookup_lt_Some).
    eapply triple_modb_bind; [exact Hb|]. eapply triple_modb_bind; [by apply list_lookup_insert_eq|].
    eapply triple_modb_bind; [simpl; rewrite list_insert_insert_eq; by apply list_lookup_insert_eq|].
    tstep. tstep. right. split; [done|]. exists bb. split_and!; [done..|].
    simpl. by rewrite !list_insert_insert_eq.
Qed.

(** A sector nobody holds is locked; its contents do not change. *)
Lemma bread_triple x a sec (q : nat -> fsst -> Prop) :
  repr x a -> a_busy a !! sec = None -> sec < size_ ->
  (sec ∈ a_dirty a \/ (size (pinned a) < HEAD)%nat) ->
  (forall b x', repr x' (abread a sec b) -> rest x x' -> disk x' = disk x -> q b x') ->
  triple h c (bread 1 sec) h x q.
Proof.
  intros R Hbusy Hlt Hroom Hq. unfold bread, bget. tstep. tstep.
  eapply triple_bind; [by eapply bget_loop_triple|]. intros b x' [(bb & Hon & ->)|(Hno & bb & Hb & Hl & Hr & ->)].
  - pose proof Hon as (Hb & Hl & Hdev & Hsec). destruct (r_cached _ _ R _ _ _ Hon) as [V1 V2 V3 V4 V5].
    eapply triple_getb_bind; [by apply list_lookup_insert_eq, (lookup_lt_Some _ _ _ Hl)|].
    fold (valid (set_flag B_BUSY bb)). autorewrite with bflags. rewrite V1. cbn [negb when].
    tstep. tstep. apply Hq; [|apply rest_set_bufs|done].
    eapply (repr_update x a b sec bb _ _ (disk x)); [done..|apply (r_disk _ _ R)| |].
    + split; autorewrite with bflags; simpl; try done; [by rewrite lookup_insert_eq|].
      unfold recyclable. by autorewrite with bflags.
    + intros s Hs. simpl. by rewrite lookup_insert_ne by done.
  - set (bb1 := set_b_flags B_BUSY _).
    assert (Lb : (b < length (bufs x))%nat) by (by eapply lookup_lt_Some).
    eapply triple_getb_bind; [by apply list_lookup_insert_eq|].
    change (bset (b_flags bb1) B_VALID) with false. cbn [negb when].
    eapply triple_bind.
    { eapply (iderw_reads _ _ b bb1 _ (fun _ x' => x' =
        set_bufs (<[b := set_flag B_VALID (set_b_data (disk x 1 sec) bb1)]> (bufs x)) x));
        [by apply list_lookup_insert_eq|done..|].
      simpl. by rewrite list_insert_insert_eq. }
    intros _ ? ->. tstep. apply Hq; [|apply rest_set_bufs|done].
    eapply repr_recycle; try done.
Qed.

(** The abstract operations on a locked sector. *)
Definition asetdata (a : acache) (sec : Z) (d : list Z) : acache :=
  mkacache (<[sec := d]> (a_view a)) (a_disk a) (a_busy a) (a_dirty a).
Definition abwrite (a : acache) (sec : Z) : acache :=
  mkacache (a_view a) (<[sec := a_view a sec]> (a_disk a)) (a_busy a) (a_dirty a ∖ {[sec]}).
Definition abrelse (a : acache) (sec : Z) : acache :=
  mkacache (a_view a) (a_disk a) (delete sec (a_busy a)) (a_dirty a).

(** [disk] after a write. *)
Definition dwrite (x : fsst) (sec : Z) (d : list Z) : Z -> Z -> list Z :=
  <[1 := <[sec := d]> (disk x 1)]> (disk x).

Lemma bdata_triple x a sec b (q : list Z -> fsst -> Prop) :
  repr x a -> a_busy a !! sec = Some b -> q (a_view a sec) x -> triple h c (bdata b) h x q.
Proof.
  intros R Hb Hq. destruct (repr_handle _ _ _ _ R Hb) as (bb & Hon & _).
  pose proof Hon as (_ & Hl & _). rewrite (bo_view _ _ _ _ (r_cached _ _ R _ _ _ Hon)) in Hq.
  eapply triple_getb_bind; [exact Hl|]. by tstep.
Qed.

Lemma setdata_triple x a sec b f (q : unit -> fsst -> Prop) :
  repr x a -> a_busy a !! sec = Some b ->
  (forall x', repr x' (asetdata a sec (f (a_view a sec))) -> rest x x' -> disk x' = disk x -> q tt x') ->
  triple h c (setdata b f) h x q.
Proof.
  intros R Hb Hq. destruct (repr_handle _ _ _ _ R Hb) as (bb & Hon & Hbz).
  pose proof Hon as (_ & Hl & Hd & Hs). destruct (r_cached _ _ R _ _ _ Hon) as [V1 V2 V3 V4 V5].
  eapply triple_modb; [exact Hl|]. apply Hq; [|apply rest_set_bufs|done].
  eapply (repr_update x a b sec bb _ _ (disk x)); [done..|apply (r_disk _ _ R)| |].
  - split; simpl; try done; [by rewrite fn_lookup_insert, V4|]. unfold recyclable.
    change (busy (set_b_data (f (b_data bb)) bb)) with (busy bb). by rewrite Hbz.
  - intros s Hne. simpl. by rewrite fn_lookup_insert_ne.
Qed.

Definition adirty (a : acache) (sec : Z) : acache :=
  mkacache (a_view a) (a_disk a) (a_busy a) ({[sec]} ∪ a_dirty a).

Lemma set_dirty_triple x a sec b (q : unit -> fsst -> Prop) :
  repr x a -> a_busy a !! sec = Some b ->
  (forall x', repr x' (adirty a sec) -> rest x x' -> disk x' = disk x -> q tt x') ->
  triple h c (modb b (set_flag B_DIRTY)) h x q.
Proof.
  intros R Hb Hq. destruct (repr_handle _ _ _ _ R Hb) as (bb & Hon & Hbz).
  pose proof Hon as (_ & Hl & Hd & Hs). destruct (r_cached _ _ R _ _ _ Hon) as [V1 V2 V3 V4 V5].
  eapply triple_modb; [exact Hl|]. apply Hq; [|apply rest_set_bufs|done].
  eapply (repr_update x a b sec bb _ _ (disk x)); [done..|apply (r_disk _ _ R)| |].
  - split; autorewrite with bflags; simpl; try done.
    + rewrite bool_decide_true; [done|]. set_solver.
    + unfold recyclable. autorewrite with bflags. by rewrite Hbz.
  - intros s Hne. simpl. set_solver.
Qed.

(** A locked sector goes to the disk. *)
Lemma bwrite_triple x a sec b (q : unit -> fsst -> Prop) :
  repr x a -> a_busy a !! sec = Some b -> sec < size_ ->
  (forall x', repr x' (adirty a sec) -> rest x x' -> disk x' = disk x -> gives_up b x' -> c x') ->
  (forall x', repr x' (abwrite a sec) -> rest x x' -> disk x' = dwrite x sec (a_view a sec) -> q tt x') ->
  triple h c (bwrite b) h x q.
Proof.
  intros R Hb Hsz Hc Hq. destruct (repr_handle _ _ _ _ R Hb) as (bb & Hon & Hbz).
  pose proof Hon as (_ & Hl & _). unfold bwrite. eapply triple_getb_bind; [exact Hl|].
  fold (busy bb). rewrite Hbz. cbn [negb].
  eapply triple_bind; [by eapply (set_dirty_triple x a sec b (fun _ x' =>
    repr x' (adirty a sec) /\ rest x x' /\ disk x' = disk x))|].
  intros _ x1 (R' & Hrest & Hdisk). clear Hon Hl Hbz bb.
  destruct (repr_handle _ _ sec b R' Hb) as (bb & Hon & Hbz).
  pose proof Hon as (_ & Hl & Hd & Hs). destruct (r_cached _ _ R' _ _ _ Hon) as [V1 V2 V3 V4 V5].
  simpl in V3, V4. rewrite bool_decide_true in V3 by set_solver.
  eapply iderw_writes; [exact Hl|done..|lia|intros Hg; by apply Hc|].
  apply Hq.
  - replace (write_disk _ _ _ _) with (set_disk (dwrite x1 sec (b_data bb))
      (set_bufs (<[b := set_flag B_VALID (clr_flag B_DIRTY bb)]> (bufs x1)) x1))
      by (unfold write_disk; by rewrite Hs).
    eapply (repr_update x1 _ b sec bb); [exact R'|done..| | |].
    + simpl. unfold dwrite. rewrite fn_lookup_insert, V4. by rewrite <- (r_disk _ _ R').
    + split; autorewrite with bflags; simpl; try done.
      * rewrite bool_decide_false; [done|]. set_solver.
      * intros _. by rewrite fn_lookup_insert, V4.
    + intros s Hne. simpl. rewrite fn_lookup_insert_ne by done. split_and!; [done..|]. set_solver.
  - etrans; [exact Hrest|]. etrans; [apply rest_set_bufs|apply rest_write].
  - unfold write_disk, dwrite. simpl. by rewrite Hdisk, Hs, V4.
Qed.

Lemma triple_alterb_bind {B} b g (f : unit -> M kst B) h0 h' x q :
  (b < length (bufs x))%nat -> triple h0 c (f tt) h' (set_bufs (alter g b (bufs x)) x) q ->
  triple h0 c (bind (modb b g) f) h' x q.
Proof.
  intros Hb H. destruct (lookup_lt_is_Some_2 _ _ Hb) as [bb Hl].
  eapply triple_modb_bind; [exact Hl|]. by rewrite <- (alter_as_insert _ _ _ _ Hl).
Qed.

(** The buffer moves to the front of the list. *)
Lemma relink_triple {B} x a b bb (k : M kst B) h' q :
  repr x a -> (b < HEAD)%nat -> bufs x !! b = Some bb ->
  (forall bs', repr (set_bufs bs' x) a -> triple (L_bcache :: h) c k h' (set_bufs bs' x) q) ->
  triple (L_bcache :: h) c
    (modb (b_next bb) (set_b_prev (b_prev bb)) ;;;
     modb (b_prev bb) (set_b_next (b_next bb)) ;;;
     link_front b ;;;
     bind (getb HEAD) (fun hd => modb (b_next hd) (set_b_prev b) ;;; modb HEAD (set_b_next b) ;;; k)) h' x q.
Proof.
  intros R Hlt Hl Hk. pose proof (r_len _ _ R) as Hlen. destruct (r_ring _ _ R) as [l Hr].
  set (bs1 := unlink_bufs (b_prev bb) (b_next bb) (bufs x)).
  assert (L1 : length bs1 = length (bufs x)) by (unfold bs1, unlink_bufs; by rewrite !length_alter).
  destruct (lookup_lt_is_Some_2 bs1 HEAD ltac:(lia)) as [hd Hhd].
  destruct (ring_release (bufs x) l b (b_prev bb) (b_next bb) (b_next hd) Hr Hlen Hlt) as
    (Lp & Ln & Lm & l1 & l2 & -> & Hr'); [unfold prev_of; by rewrite Hl|unfold next_of; by rewrite Hl|
      unfold next_of; by fold bs1; rewrite Hhd|].
  fold bs1 in Hr'. set (bs2 := link_bufs b HEAD (b_next hd) bs1) in *.
  apply triple_alterb_bind; [done|]. apply triple_alterb_bind; [simpl; by rewrite length_alter|].
  change (set_bufs _ (set_bufs _ x)) with (set_bufs bs1 x).
  unfold link_front. tstep. eapply triple_getb_bind; [exact Hhd|]. tstep.
  apply triple_alterb_bind; [simpl; lia|]. apply triple_alterb_bind; [simpl; rewrite length_alter; lia|].
  set (bs1' := alter (set_b_prev HEAD) b (alter (set_b_next (b_next hd)) b bs1)).
  change (set_bufs _ (set_bufs _ (set_bufs bs1 x))) with (set_bufs bs1' x).
  eapply triple_getb_bind.
  { simpl. unfold bs1'. rewrite !list_lookup_alter_ne by lia. exact Hhd. }
  apply triple_alterb_bind; [simpl; unfold bs1'; rewrite !length_alter; lia|].
  apply triple_alterb_bind; [simpl; unfold bs1'; rewrite !length_alter; lia|].
  change (set_bufs _ (set_bufs _ (set_bufs bs1' x))) with (set_bufs bs2 x).
  apply Hk. eapply repr_relink; [done| | |exact Hr'].
  - unfold bs2, link_bufs, bs1, unlink_bufs.
    repeat (etrans; [|apply same_content_alter; done]). reflexivity.
  - unfold bs2, link_bufs. by rewrite !length_alter.
Qed.

(** A locked sector is given up: it must be clean, or marked dirty. *)
Lemma brelse_triple x a sec b (q : unit -> fsst -> Prop) :
  repr x a -> a_busy a !! sec = Some b -> (sec ∈ a_dirty a \/ a_view a sec = a_disk a sec) ->
  (forall x', repr x' (abrelse a sec) -> rest x x' -> disk x' = disk x -> q tt x') ->
  triple h c (brelse b) h x q.
Proof.
  intros R Hb Hclean Hq. destruct (repr_handle _ _ _ _ R Hb) as (bb & Hon & Hbz).
  pose proof Hon as (Hlt & Hl & Hd & Hs).
  unfold brelse. eapply triple_getb_bind; [exact Hl|]. fold (busy bb). rewrite Hbz. cbn [negb].
  tstep. eapply triple_getb_bind; [exact Hl|]. eapply relink_triple; [done..|].
  intros bs R'. clear Hon Hl Hbz Hd Hs bb.
  destruct (repr_handle _ _ sec b R' Hb) as (bb & Hon & Hbz).
  pose proof Hon as (_ & Hl & Hd & Hs). destruct (r_cached _ _ R' _ _ _ Hon) as [V1 V2 V3 V4 V5].
  eapply triple_modb_bind; [exact Hl|]. tstep. tstep.
  apply Hq; [|etrans; [apply rest_set_bufs|apply rest_set_bufs]|done].
  eapply (repr_update (set_bufs bs x) a b sec bb _ _ (disk x)); [done..|apply (r_disk _ _ R)| |].
  - split; autorewrite with bflags; simpl; try done; [by rewrite lookup_delete_eq|].
    unfold recyclable. autorewrite with bflags. rewrite V3. simpl. intros Hnd.
    apply negb_true_iff, bool_decide_eq_false in Hnd. rewrite <- V4. by destruct Hclean.
  - intros s Hne. simpl. by rewrite lookup_delete_ne.
Qed.
End Ops.

(** Steps of a routine that uses the cache: the first statement is applied to
    the abstract cache that [R : repr x a] gives. *)
Ltac bread_step R := eapply triple_step; eapply bread_triple; [set_solver|set_solver|exact R|..].
Ltac bdata_step R := eapply triple_step; eapply bdata_triple; [exact R|..].
Ltac setdata_step R := eapply triple_step; eapply setdata_triple; [exact R|..].
Ltac bwrite_step R := eapply triple_step; eapply bwrite_triple; [set_solver|set_solver|exact R|..].
Ltac brelse_step R := eapply triple_step; eapply brelse_triple; [set_solver|set_solver|exact R|..].
