(* ===== verification/BioThm.v ===== *)
(** * The buffer cache implements a disk

    [binit] establishes [repr], and reads and writes of whole blocks through
    the cache behave like reads and writes of the disk. *)

From stdpp Require Import base list numbers strings tactics gmap functions.
From Stdlib Require Import Lia.
From S2P Require Import Prelude Params FsState KState Spinlock Sched Runs Bio BioSpec.

Local Open Scope Z_scope.
Local Open Scope xv6_scope.

#[local] Opaque HEAD.

(** ** binit *)

Definition NODEV : Z := u32 (-1).

(** The list while [binit] builds it: the buffers [l] are on it. *)
Record building (x : fsst) (l : list nat) : Prop := mkbuilding {
  bl_len : length (bufs x) = S HEAD;
  bl_links : links (bufs x) HEAD l HEAD;
  bl_flags : forall b bb, bufs x !! b = Some bb -> b_flags bb = 0;
  bl_dev : forall b bb, b ∈ l -> bufs x !! b = Some bb -> b_dev bb = NODEV
}.

Lemma alter_dev_link d b a n bs :
  (n <> b)%nat -> (a <> b)%nat ->
  alter (set_b_next b) a (alter (set_b_prev b) n
    (alter (set_b_dev d) b (alter (set_b_prev a) b (alter (set_b_next n) b bs)))) =
  link_bufs b a n (alter (set_b_dev d) b bs).
Proof. intros. unfold link_bufs. f_equal. f_equal. apply list_eq. intros i. rewrite !list_lookup_alter.
  repeat case_decide; subst; try done. by destruct (bs !! i). Qed.

Lemma link_lookup b a n bs i bb' :
  link_bufs b a n bs !! i = Some bb' -> exists bb, bs !! i = Some bb /\ strip bb = strip bb'.
Proof.
  intros Hi. assert (E : same_content bs (link_bufs b a n bs)).
  { unfold link_bufs. repeat (etrans; [|apply same_content_alter; done]). reflexivity. }
  specialize (E i). rewrite Hi in E. destruct (bs !! i) as [bb|]; [|discriminate E].
  exists bb. split; [done|]. by apply (inj Some).
Qed.

Section Binit.
Context {h : list lockid} {c : fsst -> Prop}.

Lemma binit_loop_triple bs l x (q : unit -> fsst -> Prop) :
  building x l -> NoDup (bs ++ l) -> (forall b, b ∈ bs ++ l -> (b < HEAD)%nat) ->
  (forall bs', building (set_bufs bs' x) (rev bs ++ l) -> q tt (set_bufs bs' x)) ->
  triple h c (binit_loop bs) h x q.
Proof.
  revert l x q. induction bs as [|b bs IH]; intros l x q [B1 B2 B3 B4] Hnd Hlt Hq; simpl.
  { tstep. specialize (Hq (bufs x)). destruct x. by apply Hq. }
  pose proof (Hlt b ltac:(set_solver)) as Lb. simpl in Hnd. apply list.NoDup_cons in Hnd as [Hb Hnd].
  destruct (lookup_lt_is_Some_2 (bufs x) HEAD ltac:(lia)) as [hd Hhd].
  assert (Hn : next_of (bufs x) HEAD = Some (b_next hd)) by (unfold next_of; by rewrite Hhd).
  assert (Em : b_next hd = HEAD \/ b_next hd ∈ l).
  { destruct l as [|w l]; simpl in B2; destruct B2 as [E _]; rewrite Hn in E; simplify_eq; set_solver. }
  assert (Lm : (b_next hd < S HEAD)%nat).
  { destruct Em as [->|Em]; [lia|]. specialize (Hlt (b_next hd) ltac:(set_solver)). lia. }
  assert (Nm : (b_next hd <> b)%nat) by (intros E; rewrite E in Em; destruct Em; [lia|set_solver]).
  unfold link_front. tstep. eapply triple_getb_bind; [exact Hhd|]. tstep.
  apply triple_alterb_bind; [simpl; lia|]. apply triple_alterb_bind; [simpl; rewrite length_alter; lia|].
  apply triple_alterb_bind; [simpl; rewrite !length_alter; lia|].
  eapply triple_getb_bind; [simpl; rewrite !list_lookup_alter_ne by lia; exact Hhd|].
  apply triple_alterb_bind; [simpl; rewrite !length_alter; lia|].
  apply triple_alterb_bind; [simpl; rewrite !length_alter; lia|].
  set (bs0 := alter (set_b_dev NODEV) b (bufs x)).
  set (bs1 := link_bufs b HEAD (b_next hd) bs0).
  replace (set_bufs _ _) with (set_bufs bs1 x)
    by (unfold bs1, bs0; rewrite <- alter_dev_link by lia; reflexivity).
  assert (L0 : length bs0 = S HEAD) by (unfold bs0; by rewrite length_alter).
  assert (N0 : forall d, next_of bs0 d = next_of (bufs x) d).
  { intros d. unfold bs0. rewrite next_of_alter. case_decide; [subst|done]. unfold next_of. by destruct (_ !! _). }
  assert (P0 : forall d, prev_of bs0 d = prev_of (bufs x) d).
  { intros d. unfold bs0. rewrite prev_of_alter. case_decide; [subst|done]. unfold prev_of. by destruct (_ !! _). }
  apply (IH (b :: l)).
  - split.
    + simpl. unfold bs1, link_bufs. by rewrite !length_alter.
    + simpl bufs. assert (HEAD ∉ l) by (intros E; specialize (Hlt HEAD ltac:(set_solver)); lia).
      apply list.NoDup_app in Hnd as (_ & _ & Hndl).
      apply links_link; rewrite ?L0, ?N0; try done; try lia; [|set_solver by lia].
      eapply links_ext; [..|exact B2]; auto.
    + intros i bb' (bb & Hi & E)%link_lookup. unfold bs0 in Hi. rewrite list_lookup_alter in Hi.
      apply (f_equal b_flags) in E. simpl in E. rewrite <- E.
      case_decide; [subst|by eapply B3]. destruct (bufs x !! i) eqn:Ei; [|done]. simpl in Hi. simplify_eq.
      exact (B3 _ _ Ei).
    + intros i bb' Hi (bb & Hbb & E)%link_lookup. unfold bs0 in Hbb. rewrite list_lookup_alter in Hbb.
      apply (f_equal b_dev) in E. simpl in E. rewrite <- E.
      case_decide; [subst|apply (B4 i); [set_solver|done]].
      destruct (bufs x !! i) eqn:Ei; [|done]. simpl in Hbb. by simplify_eq.
  - rewrite <- Permutation_middle. by apply list.NoDup_cons.
  - intros d Hd. apply Hlt. set_solver.
  - intros bs' Hbs. apply Hq. simpl. by rewrite <- app_assoc.
Qed.

(** After [binit] nothing is cached, locked or dirty. *)
Lemma binit_triple x (q : unit -> fsst -> Prop) :
  L_bcache ∉ h -> length (bufs x) = S HEAD ->
  (forall b bb, bufs x !! b = Some bb -> b_flags bb = 0) ->
  (forall x', repr x' (mkacache (disk x 1) (disk x 1) ∅ ∅) -> rest x x' -> disk x' = disk x -> q tt x') ->
  triple h c binit h x q.
Proof.
  intros Hh Hlen Hf Hq. unfold binit.
  eapply triple_bind; [by apply (triple_initlock _ _ _ (fun _ x' => x' = x))|]. intros _ ? ->.
  apply triple_alterb_bind; [lia|]. apply triple_alterb_bind; [simpl; rewrite length_alter; lia|].
  destruct (lookup_lt_is_Some_2 (bufs x) HEAD ltac:(lia)) as [hd Hhd].
  set (bs0 := alter (set_b_next HEAD) HEAD (alter (set_b_prev HEAD) HEAD (bufs x))).
  change (set_bufs _ (set_bufs _ x)) with (set_bufs bs0 x).
  assert (Hbs0 : bs0 !! HEAD = Some (set_b_next HEAD (set_b_prev HEAD hd)))
    by (unfold bs0; by rewrite !list_lookup_alter_eq, Hhd).
  apply (binit_loop_triple _ []).
  - split; simpl.
    + unfold bs0. by rewrite !length_alter.
    + unfold next_of, prev_of. by rewrite Hbs0.
    + intros i bb Hi. unfold bs0 in Hi. rewrite !list_lookup_alter in Hi.
      destruct (decide (HEAD = i)) as [<-|Hne].
      * rewrite ?decide_True, Hhd in Hi by done. simpl in Hi. simplify_eq. exact (Hf _ _ Hhd).
      * rewrite ?decide_False in Hi by done. by eapply Hf.
    + set_solver.
  - rewrite app_nil_r. apply NoDup_seq.
  - intros b. rewrite app_nil_r, elem_of_seq. lia.
  - intros bs' [B1 B2 B3 B4]. change (set_bufs bs' (set_bufs bs0 x)) with (set_bufs bs' x) in *.
    rewrite app_nil_r in *. simpl in *.
    assert (Hin : forall b, (b < HEAD)%nat -> b ∈ rev (seq 0 HEAD))
      by (intros b Hb; apply list_elem_of_In; rewrite <- in_rev; apply in_seq; lia).
    assert (Hno : forall b sec bb, ~ on_sec (set_bufs bs' x) b sec bb).
    { intros b sec bb (Hb & Hl & Hd & _). by rewrite (B4 b bb (Hin _ Hb) Hl) in Hd. }
    apply Hq; [|apply rest_set_bufs|done]. split; simpl; try done.
    + exists (rev (seq 0 HEAD)). split; [done|]. symmetry. apply Permutation_rev.
    + intros b1 b2 sec bb1 bb2 H1. by destruct (Hno _ _ _ H1).
    + intros b sec bb H1. by destruct (Hno _ _ _ H1).
    + intros b bb Hb Hl _. unfold recyclable, busy, dirty. by rewrite (B3 b bb Hl).
Qed.

End Binit.

(** ** Whole blocks *)

(** Reading a block and overwriting it, as the code above the cache does. *)
Inductive bop := BRead (sec : Z) | BWrite (sec : Z) (d : list Z).

Section Blocks.
Context `{D : Disk}.

Definition bop_run (o : bop) : M kst (list Z) :=
  match o with
  | BRead sec => b <- bread 1 sec ;; d <- bdata b ;; brelse b ;;; ret d
  | BWrite sec d => b <- bread 1 sec ;; setdata b (fun _ => d) ;;; bwrite b ;;; brelse b ;;; ret []
  end.

Fixpoint bops_run (os : list bop) : M kst (list (list Z)) :=
  match os with
  | [] => ret []
  | o :: os => r <- bop_run o ;; rs <- bops_run os ;; ret (r :: rs)
  end.

End Blocks.

(** The same on a disk. *)
Definition bop_spec (o : bop) (dk : Z -> list Z) : list Z * (Z -> list Z) :=
  match o with
  | BRead sec => (dk sec, dk)
  | BWrite sec d => ([], <[sec := d]> dk)
  end.

Fixpoint bops_spec (os : list bop) (dk : Z -> list Z) : list (list Z) * (Z -> list Z) :=
  match os with
  | [] => ([], dk)
  | o :: os =>
      let '(r, dk) := bop_spec o dk in
      let '(rs, dk) := bops_spec os dk in (r :: rs, dk)
  end.

Definition bop_sec (o : bop) : Z := match o with BRead sec => sec | BWrite sec _ => sec end.

(** A cache with nothing locked and nothing waiting to be written. *)
Definition quiet (x : fsst) : Prop :=
  exists a, repr x a /\ a_busy a = ∅ /\ a_dirty a = ∅.

Lemma repr_clean x a sec :
  repr x a -> a_busy a = ∅ -> a_dirty a = ∅ -> a_view a sec = disk x 1 sec.
Proof.
  intros R Hb Hd. rewrite <- (r_disk _ _ R). apply (repr_unpinned x); [done|].
  unfold pinned. rewrite Hb, Hd. set_solver.
Qed.

Section Refines.
Context `{D : Disk} {size_ : Z} `{!DiskLaws size_}.
Context {h : list lockid}.
Hypothesis bcache_free : L_bcache ∉ h.
Hypothesis ptable_free : L_ptable ∉ h.

(** The states in which the driver gives up the CPU. *)
Let anytime : fsst -> Prop := fun x => exists b, gives_up b x.

Definition bop_post (o : bop) (x : fsst) (r : list Z) (x' : fsst) : Prop :=
  quiet x' /\ rest x x' /\ r = fst (bop_spec o (disk x 1)) /\
  disk x' 1 = snd (bop_spec o (disk x 1)).

Lemma bop_triple o x :
  quiet x -> bop_sec o < size_ -> triple h anytime (bop_run o) h x (bop_post o x).
Proof.
  intros (a & R & Hb & Hd) Hlt. pose proof HEAD_10 as H10.
  assert (Hbusy : a_busy a !! bop_sec o = None) by (by rewrite Hb, lookup_empty).
  assert (Hroom : (size (pinned a) < HEAD)%nat)
    by (unfold pinned; rewrite Hb, Hd, dom_empty_L, union_empty_r_L, size_empty; lia).
  destruct o as [sec|sec d]; simpl in Hlt, Hbusy |- *; eapply triple_step;
    (eapply (bread_triple (size_ := size_)); [done|done|exact R|done|done|by right|]); intros b x1 R1 S1 E1.
  - eapply triple_step. eapply bdata_triple; [exact R1|apply lookup_insert_eq|].
    eapply triple_step. eapply brelse_triple; [done|done|exact R1|apply lookup_insert_eq| |].
    { right. simpl. by rewrite (repr_clean _ _ sec R Hb Hd), (r_disk _ _ R). }
    intros x2 R2 S2 E2. tstep. split_and!.
    + exists (abrelse (abread a sec b) sec). split_and!; [done| |done].
      simpl. by rewrite Hb, insert_empty, delete_singleton_eq.
    + by etrans.
    + simpl. by rewrite (repr_clean _ _ sec R Hb Hd).
    + simpl. by rewrite E2, E1.
  - eapply triple_step. eapply setdata_triple; [exact R1|apply lookup_insert_eq|]. intros x2 R2 S2 E2.
    eapply triple_step. eapply (bwrite_triple (size_ := size_)); [done|done|exact R2|apply lookup_insert_eq|done|by intros; eexists|].
    intros x3 R3 S3 E3.
    eapply triple_step. eapply brelse_triple; [done|done|exact R3|apply lookup_insert_eq| |].
    { right. simpl. by rewrite !fn_lookup_insert. }
    intros x4 R4 S4 E4. tstep. split_and!.
    + eexists. split_and!; [exact R4| |].
      * simpl. by rewrite Hb, insert_empty, delete_singleton_eq.
      * simpl. rewrite Hd. set_solver.
    + etrans; [exact S1|]. etrans; [exact S2|]. by etrans.
    + done.
    + simpl. rewrite E4, E3. unfold dwrite. rewrite fn_lookup_insert, E2, E1. simpl.
      by rewrite fn_lookup_insert.
Qed.

Lemma bops_triple os x :
  quiet x -> Forall (fun o => bop_sec o < size_) os ->
  triple h anytime (bops_run os) h x (fun rs x' =>
    quiet x' /\ rs = fst (bops_spec os (disk x 1)) /\ disk x' 1 = snd (bops_spec os (disk x 1))).
Proof.
  revert x. induction os as [|o os IH]; intros x Hx Hos; simpl.
  - by tstep.
  - apply Forall_cons_1 in Hos as [Ho Hos]. eapply triple_bind; [by apply bop_triple|].
    intros r x1 (Q1 & _ & -> & E1). destruct (bop_spec o (disk x 1)) as [r dk]. simpl in *.
    eapply triple_bind; [by apply IH|]. intros rs x2 (Q2 & -> & E2). rewrite E1 in *.
    destruct (bops_spec os dk) as [rs dk']. by tstep.
Qed.

End Refines.

(** C3: the buffer cache over the memory disk of [memide.c] implements the disk.  Started
    with no spin lock held, no buffer locked and none dirty, any sequence of block reads
    and writes through [bread], [bwrite] and [brelse], of sectors the disk has, returns
    (it never panics, sleeps, spins or gives up the CPU) the values that the same reads and
    writes of the disk itself give, leaves the disk as they leave it, and again no
    buffer locked or dirty. *)
Theorem bcache_implements_disk size_ os s :
  sys [] s -> quiet (fs s) -> Forall (fun o => bop_sec o < size_) os ->
  wp (fun _ => False) (bops_run (D := MemDisk size_) os s) (fun rs s' =>
    (rs, disk (fs s') 1) = bops_spec os (disk (fs s) 1) /\ quiet (fs s') /\ sys [] s' /\ frame s s').
Proof.
  intros Hs Hq Hos. eapply wp_mono.
  - eapply (bops_triple (D := MemDisk size_) (size_ := size_) (h := [])); [set_solver..|exact Hq|exact Hos|exact Hs|done].
  - intros s' [b Hb]. by eapply memide_stays.
  - intros rs s' (Hs' & Hf & Hq' & -> & ->). split_and!; [by destruct (bops_spec _ _)|done..].
Qed.

Lemma flags_fsst0 d b bb : bufs (fsst0 d) !! b = Some bb -> b_flags bb = 0.
Proof. intros Hb. apply lookup_replicate in Hb as [-> _]. reflexivity. Qed.

Definition demo_bops : list bop :=
  [BWrite 7 (replicate 512 1); BRead 7; BRead 8; BWrite 7 (replicate 512 2); BRead 7].

Lemma bcache_implements_disk_witness :
  wp (fun _ => False) (bind binit (fun _ => bops_run (D := MemDisk 100) demo_bops) demo) (fun rs s' =>
    rs = [[]; replicate 512 1; replicate 512 0; []; replicate 512 2] /\
    disk (fs s') 1 7 = replicate 512 2).
Proof.
  apply wp_bind. eapply wp_mono.
  - eapply (binit_triple (h := []) (c := fun _ => False) (fs demo) (fun _ x' => quiet x' /\ disk x' = disk (fs demo)));
      [set_solver|reflexivity|apply flags_fsst0| |apply demo_sys|reflexivity].
    intros x' R _ E. split; [|exact E]. eexists. split; [exact R|]. split; reflexivity.
  - done.
  - intros _ s1 (H1 & _ & H2 & H3). eapply wp_mono; [|intros ? H; exact H|].
    + apply (bcache_implements_disk 100 demo_bops s1 H1 H2).
      repeat (apply Forall_cons_2; [reflexivity|]). apply Forall_nil_2.
    + intros rs s2 (E & _). rewrite H3 in E. simpl in E. injection E as -> E.
      split; [reflexivity|]. rewrite E. reflexivity.
Defined.
