(* ===== verification/Log.v ===== *)
(** * The write-ahead log

    [log.c]: transactions of at most [LOGSIZE] blocks.  [log_write] appends a
    modified block to the log area of the disk, [commit_trans] writes the
    header block (the commit point), copies the blocks home and clears the
    header; [recover_from_log] does the last two steps after a crash. *)

From stdpp Require Import base list numbers strings tactics gmap.
From Stdlib Require Import Lia.
From S2P Require Import Prelude Params FsState KState Spinlock Sched Bio.

Local Open Scope Z_scope.
Local Open Scope xv6_scope.

(** ** Words in the bytes of a block *)

Definition byte_at (l : list Z) (i : Z) : Z := default 0 (l !! Z.to_nat i).

Definition rd16 (l : list Z) (o : Z) : Z := byte_at l o + 2 ^ 8 * byte_at l (o + 1).
Definition rd32 (l : list Z) (o : Z) : Z :=
  byte_at l o + 2 ^ 8 * byte_at l (o + 1) + 2 ^ 16 * byte_at l (o + 2) + 2 ^ 24 * byte_at l (o + 3).

Definition set_byte (l : list Z) (o v : Z) : list Z := <[Z.to_nat o := u8 v]> l.
Definition wr16 (l : list Z) (o v : Z) : list Z := set_byte (set_byte l o v) (o + 1) (v / 2 ^ 8).
Definition wr32 (l : list Z) (o v : Z) : list Z :=
  set_byte (set_byte (set_byte (set_byte l o v) (o + 1) (v / 2 ^ 8)) (o + 2) (v / 2 ^ 16))
    (o + 3) (v / 2 ^ 24).

(** The superblock ([fs.h]), as [readsb] copies it. *)
Record superblock := mksb { sb_size : Z; sb_nblocks : Z; sb_ninodes : Z; sb_nlog : Z }.

Definition sb_of (d : list Z) : superblock := mksb (rd32 d 0) (rd32 d 4) (rd32 d 8) (rd32 d 12).

Section Log.
Context `{Disk}.

Definition getlog {A} (f : log -> A) : M kst A := getfs (fun x => f (lg x)).
Definition modlog (f : log -> log) : M kst unit := modfs (fun x => set_lg (f (lg x)) x).

(** [log.lh.sector[i]] *)
Definition lsector (i : Z) : M kst Z := o <- getlog (fun l => aget (l_sector l) i) ;; deref o.
Definition set_lsector (i v : Z) : M kst unit :=
  _ <- lsector i ;; modlog (fun l => set_l_sector (aset (l_sector l) i v) l).

Definition readsb (dev : Z) : M kst superblock :=
  bp <- bread dev 1 ;;
  d <- bdata bp ;;
  brelse bp ;;;
  ret (sb_of d).

Fixpoint install_loop (n : nat) (tail : Z) : M kst unit :=
  match n with
  | O => ret tt
  | S n =>
      l <- getlog id ;;
      lbuf <- bread (l_dev l) (l_start l + tail + 1) ;;
      sec <- lsector tail ;;
      dbuf <- bread (l_dev l) (u32 sec) ;;
      d <- bdata lbuf ;;
      setdata dbuf (fun _ => d) ;;;
      bwrite dbuf ;;;
      brelse lbuf ;;;
      brelse dbuf ;;;
      install_loop n (tail + 1)
  end.

(** [for (tail = 0; tail < log.lh.n; tail++)] *)
Definition install_trans : M kst unit := n <- getlog l_n ;; install_loop (Z.to_nat n) 0.

Fixpoint read_head_loop (n : nat) (i : Z) (d : list Z) : M kst unit :=
  match n with
  | O => ret tt
  | S n => set_lsector i (s32 (rd32 d (4 + 4 * i))) ;;; read_head_loop n (i + 1) d
  end.

Definition read_head : M kst unit :=
  l <- getlog id ;;
  b <- bread (l_dev l) (l_start l) ;;
  d <- bdata b ;;
  modlog (set_l_n (s32 (rd32 d 0))) ;;;
  read_head_loop (Z.to_nat (s32 (rd32 d 0))) 0 d ;;;
  brelse b.

Fixpoint write_head_loop (n : nat) (i : Z) (b : nat) : M kst unit :=
  match n with
  | O => ret tt
  | S n =>
      v <- lsector i ;;
      setdata b (fun d => wr32 d (4 + 4 * i) v) ;;;
      write_head_loop n (i + 1) b
  end.

Definition write_head : M kst unit :=
  l <- getlog id ;;
  b <- bread (l_dev l) (l_start l) ;;
  setdata b (fun d => wr32 d 0 (l_n l)) ;;;
  write_head_loop (Z.to_nat (l_n l)) 0 b ;;;
  bwrite b ;;;
  brelse b.

Definition recover_from_log : M kst unit :=
  read_head ;;;
  install_trans ;;;
  modlog (set_l_n 0) ;;;
  write_head.

(** [sizeof(struct logheader)] *)
Definition sizeof_logheader : Z := 4 + 4 * LOGSIZE.

Definition initlog : M kst unit :=
  if BSIZE <=? sizeof_logheader then panic "initlog: too big logheader" else
  onlks (initlock L_log "log") ;;;
  sb <- readsb ROOTDEV ;;
  modlog (set_l_start (s32 (sb_size sb - sb_nlog sb))) ;;;
  modlog (set_l_size (s32 (sb_nlog sb))) ;;;
  modlog (set_l_dev ROOTDEV) ;;;
  recover_from_log.

(** [while (log.busy) sleep(&log, &log.lock);] *)
Fixpoint begin_wait (fuel : nat) : M kst unit :=
  busy <- getlog l_busy ;;
  if busy =? 0 then ret tt
  else match fuel with
       | O => outoffuel
       | S fuel => sleep CLog (Some L_log) ;;; begin_wait fuel
       end.

Definition begin_trans : M kst unit :=
  acquire L_log ;;;
  begin_wait waits ;;;
  modlog (set_l_busy 1) ;;;
  release L_log.

Definition commit_trans : M kst unit :=
  n <- getlog l_n ;;
  (if 0 <? n then
     write_head ;;;
     install_trans ;;;
     modlog (set_l_n 0) ;;;
     write_head
   else ret tt) ;;;
  acquire L_log ;;;
  modlog (set_l_busy 0) ;;;
  wakeup CLog ;;;
  release L_log.

(** The index at which a sector goes into the log header: where it already is,
    or at the end. *)
Definition log_index (l : log) (sec : Z) : Z :=
  match scan (fun x => x =? sec) (take (Z.to_nat (l_n l)) (l_sector l)) with
  | Some i => Z.of_nat i
  | None => l_n l
  end.

Definition log_write (b : nat) : M kst unit :=
  l <- getlog id ;;
  if (LOGSIZE <=? l_n l) || (l_size l - 1 <=? l_n l) then panic "too big a transaction" else
  if l_busy l =? 0 then panic "write outside of trans" else
  bb <- getb b ;;
  let i := log_index l (s32 (b_sector bb)) in
  set_lsector i (s32 (b_sector bb)) ;;;
  lbuf <- bread (b_dev bb) (l_start l + i + 1) ;;
  d <- bdata b ;;
  setdata lbuf (fun _ => d) ;;;
  bwrite lbuf ;;;
  brelse lbuf ;;;
  (if i =? l_n l then modlog (set_l_n (l_n l + 1)) else ret tt) ;;;
  modb b (set_flag B_DIRTY).

End Log.
