(* ===== verification/LogSpec.v ===== *)
(** * Transactions are atomic

    The write-ahead log of [log.c].  A transaction copies every block it
    changes to the log ([log_write]); [commit_trans] writes the log header, which
    is the commit point, then installs the blocks at their home sectors and
    clears the header.  [replay] is what recovery makes of a disk.

    With the crash conditions of [Runs] the file shows that a machine that loses
    power before any write of a transaction comes back with all of its writes or
    none. *)

From stdpp Require Import base list numbers strings tactics gmap functions.
From Stdlib Require Import Lia.
From S2P Require Import Prelude Params FsState KState Spinlock Sched Runs Bio BioSpec BioThm Log.

Local Open Scope Z_scope.
Local Open Scope xv6_scope.

#[local] Opaque HEAD.

(** ** Words in bytes *)

Lemma length_set_byte l o v : length (set_byte l o v) = length l.
Proof. apply length_insert. Qed.

Lemma length_wr32 l o v : length (wr32 l o v) = length l.
Proof. unfold wr32. by rewrite !length_set_byte. Qed.

Lemma byte_at_set l o v i :
  0 <= o < Z.of_nat (length l) -> 0 <= i ->
  byte_at (set_byte l o v) i = if decide (o = i) then u8 v else byte_at l i.
Proof.
  intros Ho Hi. unfold byte_at, set_byte. case_decide as E.
  - subst. by rewrite list_lookup_insert_eq by lia.
  - by rewrite list_lookup_insert_ne by lia.
Qed.

Lemma rd32_wr32 l o v : 0 <= o -> o + 4 <= Z.of_nat (length l) -> rd32 (wr32 l o v) o = u32 v.
Proof.
  intros Ho Hl. unfold rd32, wr32.
  rewrite !byte_at_set by (rewrite ?length_set_byte; lia). repeat first [rewrite decide_False by lia | rewrite decide_True by lia].
  unfold u8, u32. Z.div_mod_to_equations. lia.
Qed.

Lemma rd32_wr32_ne l o o' v :
  0 <= o -> o + 4 <= Z.of_nat (length l) -> 0 <= o' -> (o' + 4 <= o \/ o + 4 <= o') ->
  rd32 (wr32 l o v) o' = rd32 l o'.
Proof.
  intros Ho Hl Ho' Hd. unfold rd32, wr32.
  rewrite !byte_at_set by (rewrite ?length_set_byte; lia). by rewrite !decide_False by lia.
Qed.

Lemma s32_u32 z : is_s32 z -> s32 (u32 z) = z.
Proof. unfold is_s32, s32, u32. intros H. Z.div_mod_to_equations. lia. Qed.

(** ** The header *)

Definition hdr_n (d : list Z) : Z := s32 (rd32 d 0).
Definition hdr_sec (d : list Z) (i : Z) : Z := s32 (rd32 d (4 + 4 * i)).

(** The sectors the header of the log names. *)
Definition hdr_secs (d : list Z) : list Z :=
  (fun i => hdr_sec d (Z.of_nat i)) <$> seq 0 (Z.to_nat (hdr_n d)).

Fixpoint put_secs (secs : list Z) (i : Z) (d : list Z) : list Z :=
  match secs with
  | [] => d
  | v :: secs => put_secs secs (i + 1) (wr32 d (4 + 4 * i) v)
  end.

Definition put_head (secs : list Z) (d : list Z) : list Z :=
  put_secs secs 0 (wr32 d 0 (Z.of_nat (length secs))).

Lemma length_put_secs secs i d : length (put_secs secs i d) = length d.
Proof. revert i d. induction secs as [|v secs IH]; intros i d; simpl; [done|]. by rewrite IH, length_wr32. Qed.

Lemma length_put_head secs d : length (put_head secs d) = length d.
Proof. unfold put_head. by rewrite length_put_secs, length_wr32. Qed.

Lemma rd32_put_secs_lt secs i d o :
  0 <= o -> o + 4 <= 4 + 4 * i -> 0 <= i -> 4 + 4 * (i + Z.of_nat (length secs)) <= Z.of_nat (length d) ->
  rd32 (put_secs secs i d) o = rd32 d o.
Proof.
  revert i d. induction secs as [|v secs IH]; intros i d Ho H1 Hi Hl; simpl in *; [done|].
  rewrite IH by (rewrite ?length_wr32; lia). apply rd32_wr32_ne; lia.
Qed.

Lemma rd32_put_secs secs i d j v :
  secs !! j = Some v -> 0 <= i -> 4 + 4 * (i + Z.of_nat (length secs)) <= Z.of_nat (length d) ->
  rd32 (put_secs secs i d) (4 + 4 * (i + Z.of_nat j)) = u32 v.
Proof.
  revert i d j. induction secs as [|w secs IH]; intros i d j Hj Hi Hl; simpl in *; [done|].
  destruct j as [|j]; simpl in Hj.
  - simplify_eq. rewrite Z.add_0_r, rd32_put_secs_lt by (rewrite ?length_wr32; lia).
    apply rd32_wr32; lia.
  - replace (i + Z.of_nat (S j)) with (i + 1 + Z.of_nat j) by lia.
    apply IH; rewrite ?length_wr32; [done|lia..].
Qed.

(** Room for the header of the log in a block. *)
Definition fits (secs d : list Z) : Prop :=
  4 + 4 * Z.of_nat (length secs) <= Z.of_nat (length d) /\ Z.of_nat (length d) < 2 ^ 31.

Lemma hdr_n_put secs d : fits secs d -> hdr_n (put_head secs d) = Z.of_nat (length secs).
Proof.
  intros [H1 H2]. unfold hdr_n, put_head.
  rewrite rd32_put_secs_lt, rd32_wr32 by (rewrite ?length_wr32; lia).
  apply s32_u32. unfold is_s32. lia.
Qed.

Lemma hdr_secs_put secs d : fits secs d -> Forall is_s32 secs -> hdr_secs (put_head secs d) = secs.
Proof.
  intros Hf Hs. unfold hdr_secs. rewrite hdr_n_put, Nat2Z.id by done. apply list_eq. intros j.
  rewrite list_lookup_fmap. destruct (secs !! j) as [v|] eqn:Hj.
  - assert (j < length secs)%nat by (by eapply lookup_lt_Some).
    rewrite lookup_seq_lt by done. simpl. f_equal. unfold hdr_sec, put_head.
    destruct Hf as [H1 H2]. replace (4 + 4 * Z.of_nat j) with (4 + 4 * (0 + Z.of_nat j)) by lia.
    rewrite (rd32_put_secs secs 0 _ j v) by (rewrite ?length_wr32; [done|lia..]).
    apply s32_u32. by eapply Forall_lookup_1 in Hs.
  - apply lookup_ge_None in Hj. by rewrite lookup_seq_ge.
Qed.

Lemma hdr_secs_nil d : hdr_n d = 0 -> hdr_secs d = [].
Proof. intros H. unfold hdr_secs. by rewrite H. Qed.

(** ** Recovery as a function of the disk *)

Fixpoint install (secs : list Z) (start i : Z) (dk : Z -> list Z) : Z -> list Z :=
  match secs with
  | [] => dk
  | s :: secs => install secs start (i + 1) (<[s := dk (start + i + 1)]> dk)
  end.

Definition replay (start : Z) (dk : Z -> list Z) : Z -> list Z :=
  install (hdr_secs (dk start)) start 0 dk.

(** Sectors of the log. *)
Definition inlog (start lsize s : Z) : Prop := start <= s < start + lsize.

(** The sectors of a transaction: distinct, after the superblock and not in the
    log, and few enough. *)
Record secs_ok (start lsize dsize : Z) (secs : list Z) : Prop := mksecs_ok {
  so_nodup : NoDup secs;
  so_data : forall s, s ∈ secs -> 1 < s < dsize /\ ~ inlog start lsize s;
  so_len : Z.of_nat (length secs) < lsize;
  so_buf : (length secs < HEAD)%nat
}.

Lemma install_other secs start i dk s : s ∉ secs -> install secs start i dk s = dk s.
Proof.
  revert i dk. induction secs as [|v secs IH]; intros i dk Hs; simpl; [done|].
  rewrite IH by set_solver. apply fn_lookup_insert_ne. set_solver.
Qed.

Lemma install_at secs start i dk j s :
  NoDup secs -> (forall v k, v ∈ secs -> (k < length secs)%nat -> v <> start + i + Z.of_nat k + 1) ->
  secs !! j = Some s -> install secs start i dk s = dk (start + i + Z.of_nat j + 1).
Proof.
  revert i dk j. induction secs as [|v secs IH]; intros i dk j Hnd Hlog Hj; simpl; [done|].
  apply list.NoDup_cons in Hnd as [Hv Hnd]. destruct j as [|j]; simpl in Hj.
  - simplify_eq. rewrite install_other, fn_lookup_insert by done. f_equal. lia.
  - rewrite (IH (i + 1) _ j) by (try done; intros w k Hw Hk; specialize (Hlog w (S k) ltac:(set_solver) ltac:(simpl; lia)); lia).
    rewrite fn_lookup_insert_ne; [f_equal; lia|].
    specialize (Hlog v (S j) ltac:(set_solver)). apply lookup_lt_Some in Hj. simpl in Hlog. lia.
Qed.

Lemma secs_ok_log start lsize dsize secs :
  secs_ok start lsize dsize secs -> forall v k, v ∈ secs -> (k < length secs)%nat -> v <> start + 0 + Z.of_nat k + 1.
Proof. intros [_ Hd Hl _] v k Hv Hk ->. destruct (Hd _ Hv) as [_ Hn]. apply Hn. unfold inlog. lia. Qed.

(** Blocks of the log that are already installed make no difference. *)
Lemma install_partial start lsize dsize secs dk dk' :
  secs_ok start lsize dsize secs ->
  (forall s, inlog start lsize s -> dk' s = dk s) ->
  (forall s, s ∉ secs -> dk' s = dk s) ->
  forall s, install secs start 0 dk' s = install secs start 0 dk s.
Proof.
  intros Ho Hlog Hother s. destruct (decide (s ∈ secs)) as [Hs|Hs].
  - apply list_elem_of_lookup in Hs as [j Hj]. pose proof (lookup_lt_Some _ _ _ Hj) as Hl.
    rewrite !(install_at secs start 0 _ j s) by (first [done | apply Ho | by eapply secs_ok_log]).
    apply Hlog. destruct Ho as [_ _ Hl' _]. unfold inlog. lia.
  - rewrite !install_other by done. by apply Hother.
Qed.

(** ** Writing the header *)

Section Logging.
Context `{D : Disk} {dsize : Z} `{!DiskLaws dsize}.
Context {c : fsst -> Prop}.
Variables start lsize : Z.


Lemma lsector_triple h i v x (q : Z -> fsst -> Prop) :
  l_sector (lg x) !! i = Some v -> q v x -> triple h c (lsector (Z.of_nat i)) h x q.
Proof.
  intros Hi Hq. unfold lsector, getlog. tstep. eapply triple_deref; [|exact Hq].
  apply aget_Some. rewrite Nat2Z.id. split; [lia|done].
Qed.

Lemma write_head_loop_triple secs i b x a (q : unit -> fsst -> Prop) :
  repr x a -> a_busy a !! start = Some b ->
  (forall j v, secs !! j = Some v -> l_sector (lg x) !! (i + j)%nat = Some v) ->
  (forall x', repr x' (asetdata a start (put_secs secs (Z.of_nat i) (a_view a start))) ->
    rest x x' -> disk x' = disk x -> q tt x') ->
  triple [] c (write_head_loop (length secs) (Z.of_nat i) b) [] x q.
Proof.
  revert i x a q. induction secs as [|v secs IH]; intros i x a q R Hb Hs Hq; simpl.
  - tstep. apply Hq; [|reflexivity|done]. eapply repr_ext; [exact R|done|done| |done|done|done].
    intros s. simpl. destruct (decide (start = s)) as [->|]; [by rewrite fn_lookup_insert|by rewrite fn_lookup_insert_ne].
  - eapply triple_step. eapply lsector_triple; [specialize (Hs 0%nat v eq_refl); by rewrite Nat.add_0_r in Hs|].
    setdata_step R; [exact Hb|]. intros x1 R1 S1 E1.
    replace (Z.of_nat i + 1) with (Z.of_nat (S i)) by lia.
    eapply IH; [exact R1|exact Hb| |].
    + intros j w Hj. rewrite (rest_lg _ _ S1). specialize (Hs (S j) w Hj). by rewrite Nat.add_succ_r in Hs.
    + intros x2 R2 S2 E2. apply Hq; [|by etrans|congruence].
      eapply repr_ext; [exact R2|done|done| |done|done|done]. intros s. simpl.
      replace (Z.of_nat i + 1) with (Z.of_nat (S i)) by lia. rewrite fn_lookup_insert.
      destruct (decide (start = s)) as [->|]; [by rewrite !fn_lookup_insert|by rewrite !fn_lookup_insert_ne].
Qed.

(** The cache after a sector has been written through. *)
Definition awrite (a : acache) (sec : Z) (d : list Z) : acache :=
  mkacache (<[sec := d]> (a_view a)) (<[sec := d]> (a_disk a)) (a_busy a) (a_dirty a).

(** The header in memory. *)
Record log_is (l : log) (secs : list Z) : Prop := mklog_is {
  li_start : l_start l = start;
  li_size : l_size l = lsize;
  li_dev : l_dev l = 1;
  li_n : l_n l = Z.of_nat (length secs);
  li_len : length (l_sector l) = Z.to_nat LOGSIZE;
  li_secs : forall j v, secs !! j = Some v -> l_sector l !! j = Some v
}.

Lemma write_head_triple secs x a (q : unit -> fsst -> Prop) :
  repr x a -> log_is (lg x) secs -> a_busy a = ∅ -> start ∉ a_dirty a -> start < dsize ->
  (size (a_dirty a) < HEAD)%nat ->
  (forall x', rest x x' -> disk x' = disk x -> c x') ->
  (forall x', repr x' (awrite a start (put_head secs (a_view a start))) -> rest x x' ->
    disk x' = dwrite x start (put_head secs (a_view a start)) -> q tt x') ->
  triple [] c write_head [] x q.
Proof.
  intros R [L1 L2 L3 L4 L5 L6] Hb Hnd Hlt Hsz Hc Hq. unfold write_head, getlog. tstep. simpl.
  rewrite L1, L3, L4, Nat2Z.id.
  bread_step R; [by rewrite Hb|done| |].
  { right. unfold pinned. by rewrite Hb, dom_empty_L, union_empty_l_L. }
  intros b x1 R1 S1 E1. setdata_step R1; [apply lookup_insert_eq|]. intros x2 R2 S2 E2.
  eapply triple_step. eapply (write_head_loop_triple secs 0); [exact R2|apply lookup_insert_eq| |].
  { intros j v Hj. rewrite (rest_lg _ _ S2), (rest_lg _ _ S1). by apply L6. }
  intros x3 R3 S3 E3. cbn [a_view asetdata abread] in R3. rewrite fn_lookup_insert in R3.
  bwrite_step R3; [apply lookup_insert_eq|done| |].
  { intros x' _ S' E' _. apply Hc; [|congruence]. etrans; [exact S1|]. etrans; [exact S2|]. by etrans. }
  intros x4 R4 S4 E4.
  eapply brelse_triple; [set_solver|set_solver|exact R4|apply lookup_insert_eq| |].
  { right. simpl. by rewrite !fn_lookup_insert. }
  intros x5 R5 S5 E5. apply Hq.
  - eapply repr_ext; [exact R5|done|done| | | |].
    + intros s. simpl. destruct (decide (start = s)) as [->|]; [by rewrite !fn_lookup_insert|by rewrite !fn_lookup_insert_ne].
    + simpl. by rewrite fn_lookup_insert.
    + simpl. by rewrite Hb, insert_empty, delete_singleton_eq.
    + simpl. set_solver.
  - etrans; [exact S1|]. etrans; [exact S2|]. etrans; [exact S3|]. by etrans.
  - rewrite E5, E4. unfold dwrite. simpl. rewrite fn_lookup_insert. by rewrite E3, E2, E1.
Qed.

(** ** Installing *)

Lemma u32_sector s : 0 <= s < dsize -> dsize <= 2 ^ 31 -> u32 s = s.
Proof. intros. apply u32_small. unfold is_u32. lia. Qed.

(** One block: from sector [ls] of the log to its home sector [v]. *)
Lemma install_one_triple {B} ls v x a (g : M kst Z) (k : M kst B) (q : B -> fsst -> Prop) :
  repr x a -> 0 <= ls < dsize -> 0 <= v < dsize -> dsize <= 2 ^ 31 -> ls <> v ->
  a_busy a = ∅ -> ls ∉ a_dirty a -> (size (a_dirty a) < HEAD)%nat -> (v ∈ a_dirty a \/ a_dirty a = ∅) ->
  (forall x' q', rest x x' -> q' v x' -> triple [] c g [] x' q') ->
  (forall x', disk x' = disk x -> c x') ->
  (forall x' a', repr x' a' -> rest x x' -> a_busy a' = ∅ -> a_dirty a' = a_dirty a ∖ {[v]} ->
    disk x' 1 = <[v := disk x 1 ls]> (disk x 1) -> triple [] c k [] x' q) ->
  triple [] c (bind (bread 1 ls) (fun lbuf => bind g (fun sec => bind (bread 1 (u32 sec)) (fun dbuf =>
    bind (bdata lbuf) (fun d => setdata dbuf (fun _ => d) ;;; bwrite dbuf ;;; brelse lbuf ;;; brelse dbuf ;;; k))))) [] x q.
Proof.
  intros R Hls Hv Hd Hne Hb Hlsd Hsz Hdirty Hg Hc Hk. pose proof HEAD_10 as H10.
  assert (Hlv : a_view a ls = disk x 1 ls).
  { rewrite <- (r_disk _ _ R). apply (repr_unpinned x); [done|]. unfold pinned. rewrite Hb. set_solver. }
  bread_step R; [by rewrite Hb|lia| |].
  { right. unfold pinned. by rewrite Hb, dom_empty_L, union_empty_l_L. }
  intros lb x1 R1 S1 E1. eapply triple_step. apply Hg; [done|]. rewrite (u32_sector v Hv Hd).
  bread_step R1; [simpl; by rewrite lookup_insert_ne, Hb|lia| |].
  { destruct Hdirty as [|Ed]; [by left|]. right. unfold pinned. simpl.
    rewrite Hb, Ed, insert_empty, dom_singleton_L, union_empty_r_L, size_singleton. lia. }
  intros db x2 R2 S2 E2. bdata_step R2; [simpl; rewrite lookup_insert_ne by done; apply lookup_insert_eq|].
  setdata_step R2; [apply lookup_insert_eq|]. intros x3 R3 S3 E3.
  bwrite_step R3; [apply lookup_insert_eq|lia| |].
  { intros x' _ S' E' _. apply Hc. by rewrite E', E3, E2, E1. }
  intros x4 R4 S4 E4. simpl in E4. rewrite fn_lookup_insert in E4.
  brelse_step R4; [simpl; rewrite lookup_insert_ne by done; apply lookup_insert_eq| |].
  { right. simpl. rewrite !fn_lookup_insert_ne by done. by rewrite (r_disk _ _ R), Hlv. }
  intros x5 R5 S5 E5.
  brelse_step R5; [simpl; rewrite lookup_delete_ne by done; apply lookup_insert_eq| |].
  { right. simpl. by rewrite !fn_lookup_insert. }
  intros x6 R6 S6 E6. eapply Hk; [exact R6| | |done|].
  - etrans; [exact S1|]. etrans; [exact S2|]. etrans; [exact S3|]. etrans; [exact S4|]. by etrans.
  - simpl. rewrite Hb, insert_empty. rewrite delete_insert_ne by done. by rewrite delete_singleton_eq, insert_empty, delete_singleton_eq.
  - rewrite E6, E5, E4. unfold dwrite. rewrite fn_lookup_insert, E3, E2, E1. by rewrite Hlv.
Qed.

(** The sectors of a log in the middle of being installed. *)
Record geometry : Prop := mkgeometry {
  g_start : 1 < start;
  g_end : start + lsize <= dsize;
  g_dsize : dsize <= 2 ^ 31
}.

(** The blocks [tail], [tail + 1], ... of the log go to the sectors [secs]. *)
Lemma install_loop_triple secs tail x a all (q : unit -> fsst -> Prop) :
  geometry -> repr x a -> log_is (lg x) all -> Z.of_nat (length all) < lsize ->
  (forall j s, secs !! j = Some s -> all !! (tail + j)%nat = Some s) -> (tail + length secs = length all)%nat ->
  NoDup secs -> (forall s, s ∈ secs -> 1 < s < dsize /\ ~ inlog start lsize s) ->
  a_busy a = ∅ -> (forall s, s ∈ a_dirty a -> ~ inlog start lsize s) -> (size (a_dirty a) < HEAD)%nat ->
  (forall s, s ∈ secs -> s ∈ a_dirty a \/ a_dirty a = ∅) ->
  (forall x', (forall s, s ∉ secs -> disk x' 1 s = disk x 1 s) -> c x') ->
  (forall x' a', repr x' a' -> rest x x' -> a_busy a' = ∅ -> a_dirty a' = a_dirty a ∖ list_to_set secs ->
    (forall s, disk x' 1 s = install secs start (Z.of_nat tail) (disk x 1) s) -> q tt x') ->
  triple [] c (install_loop (length secs) (Z.of_nat tail)) [] x q.
Proof.
  intros G. revert tail x a q. induction secs as [|v secs IH];
    intros tail x a q R L Hlz Hall Hlen Hnd Hdat Hb Hdl Hsz Hdirty Hc Hq; simpl.
  { tstep. eapply Hq; [exact R|reflexivity|done| |done]. simpl. by rewrite difference_empty_L. }
  destruct G as [G1 G2 G3]. pose proof L as [L1 L2 L3 L4 L5 L6].
  assert (Hv : all !! tail = Some v) by (specialize (Hall 0%nat v eq_refl); by rewrite Nat.add_0_r in Hall).
  destruct (Hdat v ltac:(set_solver)) as [Hvr Hvl]. simpl in Hlen.
  assert (Hls : inlog start lsize (start + Z.of_nat tail + 1)) by (unfold inlog; lia).
  apply list.NoDup_cons in Hnd as [Hvn Hnd].
  unfold getlog. tstep. unfold id. rewrite L1, L3.
  eapply (install_one_triple _ v); [exact R|unfold inlog in Hls; lia|lia|lia|by intros E; rewrite E in Hls|done
    |by intros Hin; apply (Hdl _ Hin)|done|apply Hdirty; set_solver| | |].
  - intros x' q' S' Hq'. eapply lsector_triple; [rewrite (rest_lg _ _ S'); by apply L6|done].
  - intros x' E'. apply Hc. intros s _. by rewrite E'.
  - intros x1 a1 R1 S1 B1 D1 E1. replace (Z.of_nat tail + 1) with (Z.of_nat (S tail)) by lia.
    eapply IH; [exact R1|by rewrite (rest_lg _ _ S1)|done| |lia|done| |done| | | | |].
    + intros j s Hj. specialize (Hall (S j) s Hj). by rewrite Nat.add_succ_r in Hall.
    + intros s Hs. apply Hdat. set_solver.
    + intros s Hs. apply Hdl. set_solver.
    + rewrite D1. assert (size (a_dirty a ∖ {[v]}) <= size (a_dirty a))%nat by (apply subseteq_size; set_solver). lia.
    + intros s Hs. rewrite D1. destruct (Hdirty s ltac:(set_solver)) as [|Ed]; [left; set_solver|right; rewrite Ed; clear; set_solver].
    + intros x' Hx'. apply Hc. intros s Hs. rewrite Hx' by set_solver. rewrite E1.
      apply fn_lookup_insert_ne. set_solver.
    + intros x' a' R' S' B' D' E'. eapply Hq; [exact R'|by etrans|done| |].
      * rewrite D', D1. simpl. set_solver.
      * intros s. rewrite E', E1. simpl. by replace (Z.of_nat (S tail)) with (Z.of_nat tail + 1) by lia.
Qed.

Lemma repr_set_lg l x a : repr x a -> repr (set_lg l x) a.
Proof. intros [R1 R2 R3 R4 R5 R6 R7]. by split. Qed.

(** *** Installing and clearing *)

(** What a crash leaves: a disk that recovery takes to [fin]. *)
Record recovers_to (dk fin : Z -> list Z) : Prop := mkrecovers_to {
  rc_secs : secs_ok start lsize dsize (hdr_secs (dk start));
  rc_n : 0 <= hdr_n (dk start);
  rc_len : 4 + 4 * LOGSIZE <= Z.of_nat (length (dk start)) < 2 ^ 31;
  rc_fin : forall s, ~ inlog start lsize s -> replay start dk s = fin s
}.

(** No transaction: the header is clear on the disk and in memory, and the data
    sectors hold [fin]. *)
Record idle (x : fsst) (fin : Z -> list Z) : Prop := mkidle {
  id_quiet : quiet x;
  id_log : log_is (lg x) [];
  id_rec : recovers_to (disk x 1) fin;
  id_n : hdr_n (disk x 1 start) = 0
}.

Lemma install_log_ secs i dk s :
  secs_ok start lsize dsize secs -> inlog start lsize s -> install secs start i dk s = dk s.
Proof. intros Ho Hs. apply install_other. intros Hin. by destruct (so_data _ _ _ _ Ho _ Hin). Qed.

Lemma recovers_ext dk dk' fin :
  recovers_to dk fin -> 0 < lsize ->
  (forall s, inlog start lsize s -> dk' s = dk s) ->
  (forall s, s ∉ hdr_secs (dk start) -> dk' s = dk s) -> recovers_to dk' fin.
Proof.
  intros [H1 H2 H3 H4] Hl E1 E2. assert (E : dk' start = dk start) by (apply E1; unfold inlog; lia).
  split; rewrite ?E; try done. intros s Hs. rewrite <- H4 by done. unfold replay. rewrite E.
  by eapply install_partial.
Qed.

Lemma recovers_clear dk fin :
  hdr_n (dk start) = 0 -> 4 + 4 * LOGSIZE <= Z.of_nat (length (dk start)) < 2 ^ 31 -> 0 < lsize ->
  (forall s, ~ inlog start lsize s -> dk s = fin s) -> recovers_to dk fin.
Proof.
  intros E Hlen Hl Hf. split; [|lia|done|].
  - rewrite hdr_secs_nil by done. pose proof HEAD_10. split; [by apply base.NoDup_nil_2|set_solver|simpl; lia|simpl; lia].
  - intros s Hs. unfold replay. rewrite hdr_secs_nil by done. by apply Hf.
Qed.

Lemma size_secs secs : NoDup secs -> size (list_to_set secs : gset Z) = length secs.
Proof. apply size_list_to_set. Qed.

(** The second half of a commit, and of recovery. *)
Lemma finish_triple secs fin x a (q : unit -> fsst -> Prop) :
  geometry -> repr x a -> log_is (lg x) secs -> recovers_to (disk x 1) fin -> hdr_secs (disk x 1 start) = secs ->
  a_busy a = ∅ -> (a_dirty a = list_to_set secs \/ a_dirty a = ∅) ->
  (forall x', recovers_to (disk x' 1) fin -> c x') ->
  (forall x', idle x' fin -> l_busy (lg x') = l_busy (lg x) -> kept x x' -> q tt x') ->
  triple [] c (install_trans ;;; modlog (set_l_n 0) ;;; write_head) [] x q.
Proof.
  intros G R L Hrec Hsecs Hb Hd Hc Hq. pose proof Hrec as [Ho Hn Hlen Hfin]. rewrite Hsecs in Ho.
  assert (Hsz : (size (a_dirty a) < HEAD)%nat).
  { destruct Hd as [->| ->]; [rewrite size_secs by apply Ho; apply Ho|rewrite size_empty; pose proof HEAD_10; lia]. }
  assert (Hlz : 0 < lsize) by (pose proof (so_len _ _ _ _ Ho); lia).
  assert (Hst : inlog start lsize start) by (unfold inlog; lia).
  unfold install_trans, getlog. tstep. tstep. rewrite (li_n _ _ L), Nat2Z.id. eapply triple_step.
  eapply (install_loop_triple secs 0 x a secs); [done|done|done|apply Ho|done|done|apply Ho|apply Ho|done| |done| | |].
  { intros s Hs. destruct Hd as [E|E]; rewrite E in Hs; [|set_solver].
    apply elem_of_list_to_set in Hs. by apply (so_data _ _ _ _ Ho). }
  { intros s Hs. destruct Hd as [->|]; [left; by apply elem_of_list_to_set|by right]. }
  { intros x' E. apply Hc, (recovers_ext (disk x 1)); [done|done| |by rewrite Hsecs].
    intros s Hs. apply E. intros Hin. by destruct (so_data _ _ _ _ Ho _ Hin). }
  intros x1 a1 R1 S1 B1 D1 E1. unfold modlog. tstep.
  set (x2 := set_lg (set_l_n 0 (lg x1)) x1).
  assert (D1' : a_dirty a1 = ∅) by (rewrite D1; destruct Hd as [->| ->]; set_solver).
  assert (L2 : log_is (lg x2) []).
  { unfold x2. simpl. rewrite (rest_lg _ _ S1). destruct L. by split. }
  assert (Est : disk x1 1 start = disk x 1 start) by (rewrite E1; by apply install_log_).
  assert (Rc1 : recovers_to (disk x1 1) fin).
  { apply (recovers_ext (disk x 1)); [done|done| |].
    - intros s Hs. rewrite E1. by apply install_log_.
    - intros s Hs. rewrite E1. rewrite Hsecs in Hs. by apply install_other. }
  eapply (write_head_triple [] x2 a1); [by apply repr_set_lg|done|done|rewrite D1'; set_solver|destruct G; lia| | |].
  { rewrite D1', size_empty. pose proof HEAD_10; lia. }
  { intros x' S' E'. apply Hc. by rewrite E'. }
  intros x3 R3 S3 E3. assert (V : a_view a1 start = disk x 1 start) by (rewrite (repr_clean x1 a1); done).
  rewrite V in E3. assert (E3' : disk x3 1 = <[start := put_head [] (disk x 1 start)]> (disk x1 1))
    by (rewrite E3; unfold dwrite; by rewrite fn_lookup_insert).
  assert (Hn3 : hdr_n (disk x3 1 start) = 0)
    by (rewrite E3', fn_lookup_insert; apply hdr_n_put; unfold fits, LOGSIZE in *; simpl; lia).
  apply Hq; [|rewrite (rest_lg _ _ S3); simpl; by rewrite (rest_lg _ _ S1)
    |etrans; [by apply rest_kept, S1|]; etrans; [apply kept_set_lg|by apply rest_kept, S3]].
  split; [eexists; split; [exact R3|by rewrite <- D1']|by rewrite (rest_lg _ _ S3)| |done].
  apply recovers_clear; [done| |done|].
  - by rewrite E3', fn_lookup_insert, length_put_head.
  - intros s Hs. rewrite E3', fn_lookup_insert_ne by (by intros <-). rewrite E1, <- Hfin by done.
    unfold replay. by rewrite Hsecs.
Qed.
End Logging.
