(* ===== verification/LogThm.v ===== *)
(** * Transactions are atomic

    The theorems about the log: a transaction (any sequence of block updates
    between [begin_trans] and [commit_trans]) that loses power before any write
    to the disk leaves a disk from which recovery brings back all of it or none
    of it, and recovery itself may be interrupted. *)

From stdpp Require Import base list numbers strings tactics gmap functions.
From Stdlib Require Import Lia.
From S2P Require Import Prelude Params FsState KState Spinlock Sched Runs Bio BioSpec BioThm Log LogSpec.

Local Open Scope Z_scope.
Local Open Scope xv6_scope.

#[local] Opaque HEAD.

(** ** The program of a transaction *)

Section Program.
Context `{D : Disk}.

(** A block is read, changed and logged, as the file system does it. *)
Definition update (u : Z * (list Z -> list Z)) : M kst unit :=
  b <- bread 1 (fst u) ;;
  setdata b (snd u) ;;;
  log_write b ;;;
  brelse b.

Fixpoint updates (us : list (Z * (list Z -> list Z))) : M kst unit :=
  match us with
  | [] => ret tt
  | u :: us => update u ;;; updates us
  end.

Definition transaction (us : list (Z * (list Z -> list Z))) : M kst unit :=
  begin_trans ;;;
  updates us ;;;
  commit_trans.

End Program.

(** The same on the sectors of a disk. *)
Fixpoint apply_updates (us : list (Z * (list Z -> list Z))) (dk : Z -> list Z) : Z -> list Z :=
  match us with
  | [] => dk
  | (s, f) :: us => apply_updates us (<[s := f (dk s)]> dk)
  end.

(** The sectors of the log header after one more update: a sector is logged once. *)
Definition absorb (secs : list Z) (s : Z) : list Z :=
  if decide (s ∈ secs) then secs else secs ++ [s].

(** [log_write] wants a free slot in the log before every update, also of a
    sector it has already; and every logged block stays in the cache. *)
Fixpoint log_room (lsize : Z) (secs : list Z) (us : list Z) : bool :=
  match us with
  | [] => true
  | s :: us =>
      bool_decide (Z.of_nat (length secs) < lsize - 1) && bool_decide (length (absorb secs s) < HEAD)%nat &&
      log_room lsize (absorb secs s) us
  end.

Lemma absorb_elem secs s t : t ∈ absorb secs s <-> t = s \/ t ∈ secs.
Proof. unfold absorb. case_decide; set_solver. Qed.

Lemma absorb_set secs s : list_to_set (absorb secs s) =@{gset Z} {[s]} ∪ list_to_set secs.
Proof. apply set_eq. intros t. by rewrite elem_of_list_to_set, absorb_elem, elem_of_union, elem_of_singleton, elem_of_list_to_set. Qed.

Lemma absorb_NoDup secs s : NoDup secs -> NoDup (absorb secs s).
Proof. unfold absorb. intros. case_decide; [done|]. apply list.NoDup_app. split_and!; [done|set_solver|apply list.NoDup_singleton]. Qed.

Lemma absorb_length secs s : (length secs <= length (absorb secs s) <= S (length secs))%nat.
Proof. unfold absorb. case_decide; rewrite ?length_app; simpl; lia. Qed.

(** Where the sector goes. *)
Lemma log_index_absorb start lsize l secs s :
  log_is start lsize l secs -> (length secs < 10)%nat ->
  exists i, log_index l s = Z.of_nat i /\ absorb secs s !! i = Some s /\ (i <= length secs)%nat /\
    (forall j, absorb secs s !! j = if decide (i = j) then Some s else secs !! j) /\
    Z.of_nat (length (absorb secs s)) = (if log_index l s =? l_n l then l_n l + 1 else l_n l).
Proof.
  intros [L1 L2 L3 L4 L5 L6] Hlen. unfold LOGSIZE in L5.
  assert (Et : take (Z.to_nat (l_n l)) (l_sector l) = secs).
  { rewrite L4, Nat2Z.id. apply list_eq. intros j. destruct (decide (j < length secs)%nat) as [Hj|Hj].
    - rewrite lookup_take_lt by done. destruct (lookup_lt_is_Some_2 _ _ Hj) as [v Hv]. rewrite Hv. by apply L6.
    - rewrite lookup_take_ge by lia. symmetry. apply lookup_ge_None. lia. }
  unfold log_index. rewrite Et. destruct (scan _ secs) as [i|] eqn:Es.
  - apply scan_Some in Es as [(v & Hv & Ev) _]. apply Z.eqb_eq in Ev. subst v.
    assert (i < length secs)%nat by (by eapply lookup_lt_Some).
    assert (s ∈ secs) by (by eapply list_elem_of_lookup_2). unfold absorb. rewrite decide_True by done.
    exists i. split_and!; [done|done|lia| |].
    + intros j. by case_decide; subst.
    + rewrite L4. destruct (Z.eqb_spec (Z.of_nat i) (Z.of_nat (length secs))); lia.
  - assert (Hs : s ∉ secs).
    { intros [j Hj]%list_elem_of_lookup. apply (proj1 (scan_None _ _)) with (i := j) (x := s) in Es; [|done].
      by rewrite Z.eqb_refl in Es. }
    unfold absorb. rewrite decide_False by done. exists (length secs). split_and!; [done| |lia| |].
    + by rewrite lookup_app_r, Nat.sub_diag by lia.
    + intros j. case_decide; [subst; by rewrite lookup_app_r, Nat.sub_diag by lia|].
      destruct (decide (j < length secs)%nat); [by rewrite lookup_app_l|].
      rewrite lookup_app_r by lia. rewrite (proj2 (lookup_ge_None secs j)) by lia.
      destruct (j - length secs)%nat eqn:Ej; [lia|done].
    + rewrite L4, Z.eqb_refl, length_app. simpl. lia.
Qed.

Section Atomic.
Context `{D : Disk} {dsize : Z} `{!DiskLaws dsize}.
Context {c : fsst -> Prop}.
Variables start lsize : Z.

Notation geometry := (geometry (dsize := dsize) start lsize).
Notation recovers_to := (recovers_to (dsize := dsize) start lsize).
Notation idle := (idle (dsize := dsize) start lsize).
Notation inlog := (inlog start lsize).
Notation log_is := (log_is start lsize).
Notation secs_ok := (secs_ok start lsize dsize).

(** ** Logging a block *)

Lemma log_is_absorb l secs s i :
  log_is l secs -> (length secs < 10)%nat -> (i <= length secs)%nat ->
  (forall j, absorb secs s !! j = if decide (i = j) then Some s else secs !! j) ->
  log_is (set_l_n (Z.of_nat (length (absorb secs s))) (set_l_sector (aset (l_sector l) (Z.of_nat i) s) l)) (absorb secs s).
Proof.
  intros [L1 L2 L3 L4 L5 L6] Hlen Hi Hj. split; simpl; [done..|by rewrite length_aset|].
  intros j v. rewrite Hj. unfold aset. rewrite (proj2 (Z.leb_le 0 _)) by lia. rewrite Nat2Z.id.
  unfold LOGSIZE in L5. case_decide; subst.
  - intros [= ->]. apply list_lookup_insert_eq. lia.
  - intros Hv. rewrite list_lookup_insert_ne by done. by apply L6.
Qed.

(** The buffers a caller holds and those of the logged blocks. *)
Lemma held_secs (bz : gmap Z nat) secs s :
  NoDup secs -> (size (dom bz ∪ list_to_set secs : gset Z) < HEAD)%nat -> is_Some (bz !! s) -> (length (absorb secs s) < HEAD)%nat.
Proof.
  intros Hnd Hsz Hs. rewrite <- (size_secs (absorb secs s)) by by apply absorb_NoDup.
  eapply Nat.le_lt_trans; [apply subseteq_size|exact Hsz]. rewrite absorb_set. apply elem_of_dom in Hs. set_solver.
Qed.

(** The block goes to sector [ls] of the log. *)
Lemma log_block_triple {B} ls s b x a (k : M kst B) (q : B -> fsst -> Prop) :
  repr x a -> a_busy a !! s = Some b -> a_busy a !! ls = None -> ls < dsize -> ls ∉ a_dirty a -> (size (pinned a) < HEAD)%nat ->
  (forall x', disk x' = disk x -> c x') ->
  (forall x' a', repr x' a' -> rest x x' -> a_busy a' = a_busy a -> a_dirty a' = a_dirty a ->
    (forall t, t <> ls -> a_view a' t = a_view a t) ->
    disk x' 1 = <[ls := a_view a s]> (disk x 1) -> triple [] c k [] x' q) ->
  triple [] c (bind (bread 1 ls) (fun lbuf => bind (bdata b) (fun d =>
    setdata lbuf (fun _ => d) ;;; bwrite lbuf ;;; brelse lbuf ;;; k))) [] x q.
Proof.
  intros R Hb Hnl Hls Hd Hsz Hc Hk. assert (Hne : ls <> s) by (intros ->; congruence).
  bread_step R; [done|done|by right|].
  intros lb x1 R1 S1 E1.
  bdata_step R1; [simpl; by rewrite lookup_insert_ne|].
  setdata_step R1; [apply lookup_insert_eq|]. intros x2 R2 S2 E2.
  bwrite_step R2; [apply lookup_insert_eq|done|intros x' _ _ E' _; apply Hc; congruence|].
  intros x3 R3 S3 E3. simpl in E3. rewrite fn_lookup_insert in E3.
  brelse_step R3; [apply lookup_insert_eq|right; simpl; by rewrite !fn_lookup_insert|].
  intros x4 R4 S4 E4. eapply Hk; [exact R4| | | | |].
  - etrans; [exact S1|]. etrans; [exact S2|]. by etrans.
  - simpl. by rewrite delete_insert_eq, delete_id.
  - simpl. set_solver.
  - intros t Ht. simpl. by rewrite fn_lookup_insert_ne.
  - rewrite E4, E3. unfold dwrite. by rewrite fn_lookup_insert, E2, E1.
Qed.

Lemma set_lsector_triple {B} i v x (k : M kst B) (q : B -> fsst -> Prop) :
  (i < length (l_sector (lg x)))%nat ->
  triple [] c k [] (set_lg (set_l_sector (aset (l_sector (lg x)) (Z.of_nat i) v) (lg x)) x) q ->
  triple [] c (set_lsector (Z.of_nat i) v ;;; k) [] x q.
Proof.
  intros Hi Hk. unfold set_lsector. tstep. destruct (lookup_lt_is_Some_2 _ _ Hi) as [w Hw].
  eapply triple_step. eapply lsector_triple; [exact Hw|]. unfold modlog. by tstep.
Qed.

Lemma log_write_triple bz secs s b i x a (q : unit -> fsst -> Prop) :
  geometry -> repr x a -> log_is (lg x) secs -> l_busy (lg x) = 1 ->
  a_busy a = bz -> bz !! s = Some b -> (forall t, is_Some (bz !! t) -> ~ inlog t) ->
  a_dirty a = list_to_set secs -> NoDup secs -> (forall t, t ∈ secs -> ~ inlog t) ->
  1 < s < dsize -> Z.of_nat (length secs) < lsize - 1 -> (size (dom bz ∪ list_to_set secs) < HEAD)%nat ->
  log_index (lg x) s = Z.of_nat i -> (i <= length secs)%nat ->
  (forall x', disk x' = disk x -> c x') ->
  (forall x' a', repr x' a' -> kept x x' -> a_busy a' = bz -> a_dirty a' = list_to_set (absorb secs s) ->
    (forall t, t <> start + Z.of_nat i + 1 -> a_view a' t = a_view a t) ->
    disk x' 1 = <[start + Z.of_nat i + 1 := a_view a s]> (disk x 1) ->
    log_is (lg x') (absorb secs s) -> l_busy (lg x') = 1 -> q tt x') ->
  triple [] c (log_write b) [] x q.
Proof.
  intros G R L Hbz Hb Hsb Hbl Hd Hnd Hno Hs Hroom Hlen Hi Hle Hc Hq. pose proof HEAD_10 as H10.
  pose proof (held_secs _ _ s Hnd Hlen ltac:(eauto)) as Habs. pose proof L as [L1 L2 L3 L4 L5 L6].
  pose proof (absorb_length secs s).
  destruct (log_index_absorb _ _ _ _ s L ltac:(lia)) as (i' & Hi' & _ & _ & Hj & Hn).
  assert (i' = i) as -> by lia. rewrite Hi, L4 in Hn.
  destruct G as [G1 G2 G3]. unfold log_write, getlog. tstep. unfold id. rewrite L2, L4, L1, Hbz.
  rewrite (proj2 (Z.leb_gt _ _)) by (unfold LOGSIZE; lia). rewrite (proj2 (Z.leb_gt _ _)) by lia. simpl.
  destruct (repr_handle x a s b R) as (bb & (Hlt & Hbb & Hdev & Hsec) & _); [by rewrite Hb|].
  eapply triple_getb_bind; [exact Hbb|]. rewrite Hsec, Hdev, s32_small by (unfold is_s32; lia). rewrite Hi.
  apply set_lsector_triple; [rewrite L5; unfold LOGSIZE; lia|].
  set (x1 := set_lg _ x). assert (R1 : repr x1 a) by by apply repr_set_lg.
  assert (Hin : inlog (start + Z.of_nat i + 1)) by (unfold LogSpec.inlog; lia).
  eapply log_block_triple; [exact R1|by rewrite Hb| |unfold LogSpec.inlog in Hin; lia| |unfold pinned; by rewrite Hb, Hd|exact Hc|].
  { rewrite Hb. apply eq_None_not_Some. intros Hl. by apply (Hbl _ Hl). }
  { rewrite Hd, elem_of_list_to_set. intros Ht. by apply (Hno _ Ht). }
  intros x2 a2 R2 S2 B2 D2 V2 E2. set (x3 := set_lg (set_l_n (Z.of_nat (length (absorb secs s))) (lg x2)) x2).
  assert (Hk : triple [] c (modb b (set_flag B_DIRTY)) [] x3 q).
  { eapply set_dirty_triple; [set_solver|set_solver|apply repr_set_lg, R2|by rewrite B2, Hb|].
    intros x4 R4 S4 E4. eapply Hq; [exact R4| |by simpl; rewrite B2| | | | |].
    - etrans; [apply kept_set_lg|]. etrans; [apply rest_kept, S2|]. etrans; [apply kept_set_lg|by apply rest_kept].
    - simpl. by rewrite D2, Hd, absorb_set.
    - intros t Ht. simpl. by apply V2.
    - by rewrite E4.
    - rewrite (rest_lg _ _ S4). unfold x3. simpl. rewrite (rest_lg _ _ S2).
      apply (log_is_absorb (lg x) secs s i); [done|lia|done|done].
    - rewrite (rest_lg _ _ S4). unfold x3. simpl. by rewrite (rest_lg _ _ S2). }
  destruct (Z.of_nat i =? Z.of_nat (length secs)); unfold modlog; tstep.
  - by rewrite <- Hn.
  - replace x3 with x2 in Hk; [done|]. unfold x3. rewrite Hn.
    assert (l_n (lg x2) = Z.of_nat (length secs)) as <- by by rewrite (rest_lg _ _ S2).
    by destruct x2 as [? ? ? ? []].
Qed.

(** ** The state of a transaction *)

(** The blocks [secs] are logged, the disk is still [old], the cache holds [new];
    the caller holds the buffers [bz], each logged or as it is on the disk. *)
Record holding (bz : gmap Z nat) (x : fsst) (a : acache) (secs : list Z) (old new : Z -> list Z) : Prop := mkintx {
  it_repr : repr x a;
  it_log : log_is (lg x) secs;
  it_lock : l_busy (lg x) = 1;
  it_secs : secs_ok secs;
  it_busy : a_busy a = bz;
  it_dirty : a_dirty a = list_to_set secs;
  it_logged : forall j s, secs !! j = Some s -> disk x 1 (start + Z.of_nat j + 1) = a_view a s;
  it_hdr : hdr_n (disk x 1 start) = 0;
  it_len : 4 + 4 * LOGSIZE <= Z.of_nat (length (disk x 1 start)) < 2 ^ 31;
  it_old : forall s, ~ inlog s -> disk x 1 s = old s;
  it_new : forall s, ~ inlog s -> a_view a s = new s;
  it_clean : forall s b, bz !! s = Some b -> s ∈ secs \/ a_view a s = a_disk a s;
  it_held : forall s, is_Some (bz !! s) -> ~ inlog s
}.

Notation intx := (holding ∅).

Lemma intx_recovers bz x a secs old new : holding bz x a secs old new -> recovers_to (disk x 1) old.
Proof.
  intros [? ? ? [_ _ Hl _] ? ? ? ? ? ? ? ? ?]. apply recovers_clear; [done|done|lia|done].
Qed.

(** Installing the log gives [new]. *)
Lemma intx_install x a secs old new dk s :
  intx x a secs old new -> 0 < lsize -> (forall t, t <> start -> dk t = disk x 1 t) -> ~ inlog s ->
  install secs start 0 dk s = new s.
Proof.
  intros [R L _ Ho Hb Hd Hl _ _ _ Hn _ _] Hlz Hdk Hs. rewrite <- Hn by done.
  destruct (decide (s ∈ secs)) as [Hin|Hin].
  - apply list_elem_of_lookup in Hin as [j Hj].
    rewrite (install_at secs start 0 _ j s) by (first [done | apply Ho | by eapply secs_ok_log]).
    rewrite Z.add_0_r, Hdk by lia. by apply Hl.
  - rewrite install_other, Hdk by (first [done | intros ->; apply Hs; unfold LogSpec.inlog; lia]). rewrite <- (r_disk _ _ R). symmetry. apply (repr_unpinned x); [done|].
    unfold pinned. rewrite Hb, Hd. set_solver.
Qed.

(** ** Its steps *)

(** A block is read: the caller holds its buffer. *)
Lemma bread_hold bz s secs x a old new (q : nat -> fsst -> Prop) :
  holding bz x a secs old new -> s < dsize -> ~ inlog s -> bz !! s = None -> (size (dom bz ∪ list_to_set secs) < HEAD)%nat ->
  (forall b x' a', holding (<[s := b]> bz) x' a' secs old new -> kept x x' -> q b x') ->
  triple [] c (bread 1 s) [] x q.
Proof.
  intros [R L Hl Ho Hb Hd Hlog Hh Hhl Hold Hnew Hcl Hbl] Hs Hsl Hbs Hsz Hq.
  assert (Hp : pinned a = dom bz ∪ list_to_set secs) by (unfold pinned; by rewrite Hb, Hd).
  eapply bread_triple; [set_solver|set_solver|exact R|by rewrite Hb|done|right; by rewrite Hp|].
  intros b x1 R1 S1 E1. apply (Hq b x1 (abread a s b)); [|by apply rest_kept].
  apply (mkintx _ _ _ _ _ _ R1); rewrite ?E1, ?(rest_lg _ _ S1); try done.
  - simpl. by rewrite Hb.
  - intros t b' [[<- <-]|[_ Ht]]%lookup_insert_Some; [|by eapply Hcl].
    simpl. destruct (decide (s ∈ secs)) as [|Hn]; [by left|right].
    apply (repr_unpinned x); [done|]. apply not_elem_of_dom in Hbs. rewrite Hp. set_solver.
  - intros t. rewrite lookup_insert_is_Some'. intros [<-|]; auto.
Qed.

Lemma bdata_hold bz s b secs x a old new (q : list Z -> fsst -> Prop) :
  holding bz x a secs old new -> bz !! s = Some b -> q (new s) x -> triple [] c (bdata b) [] x q.
Proof.
  intros I Hs Hq. eapply bdata_triple; [apply I|by rewrite (it_busy _ _ _ _ _ _ I)|].
  rewrite (it_new _ _ _ _ _ _ I); [done|]. by eapply it_held.
Qed.

(** It is given back. *)
Lemma brelse_hold bz s b secs x a old new (q : unit -> fsst -> Prop) :
  holding bz x a secs old new -> bz !! s = Some b ->
  (forall x' a', holding (delete s bz) x' a' secs old new -> kept x x' -> q tt x') ->
  triple [] c (brelse b) [] x q.
Proof.
  intros [R L Hl Ho Hb Hd Hlog Hh Hhl Hold Hnew Hcl Hbl] Hs Hq.
  eapply brelse_triple; [set_solver|set_solver|exact R|by rewrite Hb| |].
  { rewrite Hd, elem_of_list_to_set. by eapply Hcl. }
  intros x1 R1 S1 E1. apply (Hq x1 (abrelse a s)); [|by apply rest_kept].
  apply (mkintx _ _ _ _ _ _ R1); rewrite ?E1, ?(rest_lg _ _ S1); try done.
  - simpl. by rewrite Hb.
  - intros t b' [_ Ht]%lookup_delete_Some. by eapply Hcl.
  - intros t [_ Ht]%lookup_delete_is_Some. auto.
Qed.

(** It is changed and logged. *)
Lemma log_hold {B} bz s b f secs x a old new (k : M kst B) (q : B -> fsst -> Prop) :
  geometry -> holding bz x a secs old new -> bz !! s = Some b -> 1 < s < dsize ->
  Z.of_nat (length secs) < lsize - 1 -> (size (dom bz ∪ list_to_set secs) < HEAD)%nat ->
  (forall x', recovers_to (disk x' 1) old -> c x') ->
  (forall x' a', holding bz x' a' (absorb secs s) old (<[s := f (new s)]> new) -> kept x x' -> triple [] c k [] x' q) ->
  triple [] c (setdata b f ;;; log_write b ;;; k) [] x q.
Proof.
  intros G I Hsb Hs Hroom Hlen Hc Hk. pose proof (intx_recovers _ _ _ _ _ _ I) as Hrec.
  destruct I as [R L Hl Ho Hb Hd Hlog Hh Hhl Hold Hnew Hcl Hbl]. pose proof HEAD_10 as H10.
  assert (Hsl : ~ inlog s) by eauto.
  setdata_step R; [by rewrite Hb|]. intros x2 R2 S2 E2. pose proof (rest_lg _ _ S2) as L2.
  destruct (log_index_absorb _ _ _ _ s L ltac:(pose proof (so_buf _ _ _ _ Ho); lia)) as (i & Hi & Hsi & Hle & Hj & _).
  assert (Hin : forall j, (j <= length secs)%nat -> inlog (start + Z.of_nat j + 1)) by (intros; unfold LogSpec.inlog; lia).
  eapply triple_step. eapply (log_write_triple bz secs s b i x2); [done|exact R2|by rewrite L2|by rewrite L2
    |done|done|done|done|apply Ho|apply Ho|done|done|done|by rewrite L2|done
    |intros x' E'; apply Hc; by rewrite E', E2|].
  intros x3 a3 R3 K3' B3 D3 V3 E3 L3 K3. simpl in V3, E3. rewrite fn_lookup_insert, E2 in E3.
  assert (Est : disk x3 1 start = disk x 1 start) by (rewrite E3; apply fn_lookup_insert_ne; lia).
  apply (Hk _ a3); [|etrans; [by apply rest_kept|done]]. apply (mkintx _ _ _ _ _ _ R3); rewrite ?Est; try done.
  - pose proof (held_secs _ _ s (so_nodup _ _ _ _ Ho) Hlen ltac:(eauto)).
    destruct Ho as [O1 O2 O3 O4]. split; [by apply absorb_NoDup| | |done].
    + intros t [->|Ht]%absorb_elem; auto.
    + pose proof (absorb_length secs s). lia.
  - intros j t Hjt. assert (Ht : ~ inlog t).
    { assert (t ∈ absorb secs s) as [->|Ht]%absorb_elem by (by eapply list_elem_of_lookup_2); [done|].
      by apply (so_data _ _ _ _ Ho). }
    rewrite E3, V3 by (by intros ->; apply Ht, Hin). rewrite Hj in Hjt. case_decide; simplify_eq.
    + by rewrite !fn_lookup_insert.
    + rewrite fn_lookup_insert_ne by lia. rewrite fn_lookup_insert_ne; [by apply Hlog|].
      intros <-. apply H. eapply (list.NoDup_lookup (absorb secs s)); [apply absorb_NoDup, Ho|exact Hsi|].
      rewrite Hj. by rewrite decide_False.
  - intros t Ht. rewrite E3, fn_lookup_insert_ne by (by intros <-; apply Ht, Hin). by apply Hold.
  - intros t Ht. rewrite V3 by (by intros ->; apply Ht, Hin).
    destruct (decide (s = t)) as [->|]; [by rewrite !fn_lookup_insert, Hnew|].
    rewrite !fn_lookup_insert_ne by done. by apply Hnew.
  - intros t b' Ht. destruct (decide (t = s)) as [->|Hne]; [left; apply absorb_elem; by left|].
    destruct (Hcl t b' Ht) as [|E]; [left; apply absorb_elem; by right|right].
    assert (Htl : ~ inlog t) by eauto.
    rewrite V3 by (by intros ->; apply Htl, Hin). rewrite fn_lookup_insert_ne by done.
    rewrite (r_disk _ _ R3), E3, fn_lookup_insert_ne by (by intros <-; apply Htl, Hin). by rewrite E, (r_disk _ _ R).
Qed.

(** *** One buffer at a time *)

Lemma intx_room x a secs old new : intx x a secs old new -> (size (dom (∅ : gmap Z nat) ∪ list_to_set secs : gset Z) < HEAD)%nat.
Proof. intros I. rewrite dom_empty_L, union_empty_l_L, size_secs by apply I. apply I. Qed.

Lemma bread_tx s secs x a old new (q : nat -> fsst -> Prop) :
  intx x a secs old new -> s < dsize -> ~ inlog s ->
  (forall b x' a', holding {[s := b]} x' a' secs old new -> kept x x' -> q b x') ->
  triple [] c (bread 1 s) [] x q.
Proof.
  intros I Hs Hsl Hq. eapply bread_hold; [exact I|done|done|done|by eapply intx_room|]. intros b x' a'. rewrite insert_empty. eauto.
Qed.

Lemma bdata_tx s b secs x a old new (q : list Z -> fsst -> Prop) :
  holding {[s := b]} x a secs old new -> q (new s) x -> triple [] c (bdata b) [] x q.
Proof. intros I. eapply bdata_hold; [exact I|apply lookup_singleton_eq]. Qed.

Lemma brelse_tx s b secs x a old new (q : unit -> fsst -> Prop) :
  holding {[s := b]} x a secs old new -> (forall x' a', intx x' a' secs old new -> kept x x' -> q tt x') ->
  triple [] c (brelse b) [] x q.
Proof.
  intros I Hq. eapply brelse_hold; [exact I|apply lookup_singleton_eq|]. intros x' a'. rewrite delete_singleton_eq. eauto.
Qed.

Lemma log_tx {B} s b f secs x a old new (k : M kst B) (q : B -> fsst -> Prop) :
  geometry -> holding {[s := b]} x a secs old new -> 1 < s < dsize ->
  Z.of_nat (length secs) < lsize - 1 -> (length (absorb secs s) < HEAD)%nat ->
  (forall x', recovers_to (disk x' 1) old -> c x') ->
  (forall x' a', holding {[s := b]} x' a' (absorb secs s) old (<[s := f (new s)]> new) -> kept x x' -> triple [] c k [] x' q) ->
  triple [] c (setdata b f ;;; log_write b ;;; k) [] x q.
Proof.
  intros G I Hs Hroom Hlen. eapply log_hold; [done|exact I|apply lookup_singleton_eq|done|done|].
  rewrite dom_singleton_L, <- absorb_set, size_secs; [done|]. apply absorb_NoDup, I.
Qed.

Lemma update_triple s f secs x a old new (q : unit -> fsst -> Prop) :
  geometry -> intx x a secs old new -> 1 < s < dsize -> ~ inlog s ->
  Z.of_nat (length secs) < lsize - 1 -> (length (absorb secs s) < HEAD)%nat ->
  (forall x', recovers_to (disk x' 1) old -> c x') ->
  (forall x' a', intx x' a' (absorb secs s) old (<[s := f (new s)]> new) -> kept x x' -> q tt x') ->
  triple [] c (update (s, f)) [] x q.
Proof.
  intros G I Hs Hsl Hroom Hlen Hc Hq. unfold update. simpl fst. simpl snd.
  eapply triple_step, bread_tx; [exact I|lia|done|]. intros b x1 a1 I1 K1.
  eapply log_tx; [done|exact I1|done..|]. intros x2 a2 I2 K2. eapply brelse_tx; [exact I2|].
  intros x3 a3 I3 K3. eapply Hq; [exact I3|]. etrans; [exact K1|by etrans].
Qed.

Lemma updates_triple us secs x a old new (q : unit -> fsst -> Prop) :
  geometry -> intx x a secs old new -> Forall (fun u => 1 < fst u < dsize /\ ~ inlog (fst u)) us ->
  log_room lsize secs (fst <$> us) = true ->
  (forall x', recovers_to (disk x' 1) old -> c x') ->
  (forall x' a' secs', intx x' a' secs' old (apply_updates us new) -> q tt x') ->
  triple [] c (updates us) [] x q.
Proof.
  intros G. revert secs x a new. induction us as [|[s f] us IH]; intros secs x a new I Hus Hroom Hc Hq; simpl.
  - tstep. by eapply Hq.
  - apply Forall_cons_1 in Hus as [[Hs Hsl] Hus]. cbn [fmap list_fmap log_room fst] in Hroom.
    apply andb_true_iff in Hroom as [[H1%bool_decide_eq_true H2%bool_decide_eq_true]%andb_true_iff H3].
    eapply triple_step. eapply update_triple; [done|exact I|done..|].
    intros x' a' I' _. by eapply IH.
Qed.

(** ** Beginning *)

Lemma begin_wait_eq n :
  begin_wait n = bind (getlog l_busy) (fun busy =>
    if busy =? 0 then ret tt
    else match n with O => outoffuel | S n => sleep CLog (Some L_log) ;;; begin_wait n end).
Proof. by destruct n. Qed.

Lemma begin_trans_triple x old (q : unit -> fsst -> Prop) :
  idle x old -> l_busy (lg x) = 0 -> 0 < lsize -> (forall x' a', intx x' a' [] old old -> kept x x' -> q tt x') ->
  triple [] c begin_trans [] x q.
Proof.
  intros [(a & R & Hb & Hd) L Hrec Hn] Hbz Hlz Hq. unfold begin_trans. tstep. rewrite begin_wait_eq.
  unfold getlog. tstep. tstep. rewrite Hbz, Z.eqb_refl. tstep. unfold modlog. tstep. tstep.
  assert (Hdk : forall s, ~ inlog s -> disk x 1 s = old s).
  { intros s Hs. rewrite <- (rc_fin _ _ _ _ Hrec s Hs). unfold replay. by rewrite hdr_secs_nil. }
  apply (Hq _ a); [|apply kept_set_lg]. split; simpl; try done.
  - by apply repr_set_lg.
  - by destruct L.
  - pose proof HEAD_10. split; [by apply base.NoDup_nil_2|set_solver|simpl; lia|simpl; lia].
  - apply Hrec.
  - intros s Hs. rewrite (repr_clean x a) by done. by apply Hdk.
  - by intros s [? ?].
Qed.

(** ** Committing *)

Lemma intx_commit x a secs old new dk :
  intx x a secs old new -> dsize <= 2 ^ 31 -> dk = <[start := put_head secs (disk x 1 start)]> (disk x 1) ->
  hdr_secs (dk start) = secs /\ recovers_to dk new.
Proof.
  intros I Hsz ->. pose proof I as [R L _ Ho Hb Hd Hl _ Hlen _ Hn _ _]. pose proof Ho as [O1 O2 O3 O4].
  assert (Hf : fits secs (disk x 1 start)) by (unfold fits, LOGSIZE in *; pose proof HEAD_10; lia).
  assert (Hs : hdr_secs (put_head secs (disk x 1 start)) = secs).
  { apply hdr_secs_put; [done|]. apply list.Forall_forall. intros s Hs. destruct (O2 s Hs). unfold is_s32. lia. }
  rewrite fn_lookup_insert. split; [done|].
  split; rewrite ?fn_lookup_insert, ?Hs, ?length_put_head; [done|rewrite hdr_n_put by done; lia|done|].
  intros s Hsl. unfold replay. rewrite fn_lookup_insert, Hs. eapply intx_install; [exact I|lia| |done].
  intros t Ht. by apply fn_lookup_insert_ne.
Qed.

Lemma idle_free x fin l : idle x fin -> log_is l [] -> idle (set_lg l x) fin.
Proof.
  intros [(a & R & Hb & Hd) L Hrec Hn] Hl. split; [|done|done|done].
  exists a. split; [by apply repr_set_lg|done].
Qed.

Lemma commit_trans_triple secs x a old new (q : unit -> fsst -> Prop) :
  geometry -> intx x a secs old new ->
  (forall x', recovers_to (disk x' 1) old \/ recovers_to (disk x' 1) new -> c x') ->
  (forall x', idle x' new -> l_busy (lg x') = 0 -> kept x x' -> q tt x') ->
  triple [] c commit_trans [] x q.
Proof.
  intros G I Hc Hq. pose proof (intx_recovers _ _ _ _ _ _ I) as Hrec. pose proof G as [G1 G2 G3].
  pose proof I as [R L Hl Ho Hb Hd Hlog Hh Hlen Hold Hnew _ _].
  assert (Hst : inlog start) by (pose proof (so_len _ _ _ _ Ho); unfold LogSpec.inlog; lia).
  assert (Hstd : start ∉ a_dirty a).
  { rewrite Hd, elem_of_list_to_set. intros Hin. by destruct (so_data _ _ _ _ Ho _ Hin). }
  assert (Htail : forall x1, idle x1 new -> kept x x1 -> triple [] c
    (acquire L_log ;;; modlog (set_l_busy 0) ;;; wakeup CLog ;;; release L_log) [] x1 q).
  { intros x1 I1 K1. tstep. unfold modlog. tstep. tstep. tstep. apply Hq; [|done|etrans; [exact K1|apply kept_set_lg]].
    apply idle_free; [done|]. by destruct (id_log _ _ _ _ I1). }
  unfold commit_trans, getlog. tstep. rewrite (li_n _ _ _ _ L).
  destruct (Z.ltb_spec 0 (Z.of_nat (length secs))) as [Hpos|Hz].
  - tstep. eapply triple_step. eapply (write_head_triple start lsize secs x a); [done|done|done|done|unfold LogSpec.inlog in Hst; lia| | |].
    { rewrite Hd, size_secs by apply Ho. apply Ho. }
    { intros x' _ E'. apply Hc. left. by rewrite E'. }
    intros x1 R1 S1 E1. rewrite (repr_unpinned x a), (r_disk _ _ R) in E1
      by (first [done | unfold pinned; rewrite Hb; set_solver]).
    destruct (intx_commit x a secs old new (disk x1 1) I G3) as [Hs1 Hr1].
    { rewrite E1. unfold dwrite. by rewrite fn_lookup_insert. }
    eapply triple_step. eapply (finish_triple start lsize secs new x1); [done|exact R1|by rewrite (rest_lg _ _ S1)|done|done
      |done|by left|by intros; apply Hc; right|].
    intros x2 I2 _ K2. apply Htail; [done|]. etrans; [by apply rest_kept, S1|done].
  - assert (secs = []) as -> by (destruct secs; [done|simpl in Hz; lia]). tstep. apply Htail; [|reflexivity].
    split; [exists a; by split|done| |done]. apply recovers_clear; [done|done|unfold LogSpec.inlog in Hst; lia|].
    intros s Hs. rewrite <- Hnew by done. symmetry. by apply (repr_clean x a).
Qed.

Lemma transaction_triple us x old (q : unit -> fsst -> Prop) :
  geometry -> idle x old -> l_busy (lg x) = 0 -> 0 < lsize ->
  Forall (fun u => 1 < fst u < dsize /\ ~ inlog (fst u)) us -> log_room lsize [] (fst <$> us) = true ->
  (forall x', recovers_to (disk x' 1) old \/ recovers_to (disk x' 1) (apply_updates us old) -> c x') ->
  (forall x', idle x' (apply_updates us old) -> l_busy (lg x') = 0 -> q tt x') ->
  triple [] c (transaction us) [] x q.
Proof.
  intros G Hi Hz Hlz Hus Hroom Hc Hq. unfold transaction. eapply triple_step.
  eapply begin_trans_triple; [exact Hi|done|done|]. intros x1 a1 I1 _.
  eapply triple_step. eapply updates_triple; [exact G|exact I1|exact Hus|exact Hroom|by auto|].
  intros x2 a2 secs I2. eapply commit_trans_triple; [exact G|exact I2|done|]. auto.
Qed.

(** ** Recovering *)

Lemma read_head_loop_triple n i d x (q : unit -> fsst -> Prop) :
  (i + n <= length (l_sector (lg x)))%nat ->
  (forall l, length l = length (l_sector (lg x)) ->
    (forall j, (j < i)%nat -> l !! j = l_sector (lg x) !! j) ->
    (forall j, (i <= j < i + n)%nat -> l !! j = Some (hdr_sec d (Z.of_nat j))) ->
    q tt (set_lg (set_l_sector l (lg x)) x)) ->
  triple [] c (read_head_loop n (Z.of_nat i) d) [] x q.
Proof.
  revert i x. induction n as [|n IH]; intros i x Hn Hq; simpl.
  - tstep. specialize (Hq (l_sector (lg x)) eq_refl ltac:(done) ltac:(lia)).
    by destruct x as [? ? ? ? []].
  - apply set_lsector_triple; [lia|]. set (v := s32 _). set (x1 := set_lg _ x).
    replace (Z.of_nat i + 1) with (Z.of_nat (S i)) by lia.
    assert (El : length (l_sector (lg x1)) = length (l_sector (lg x))) by (simpl; apply length_aset).
    assert (E1 : l_sector (lg x1) = <[i := v]> (l_sector (lg x))).
    { simpl. unfold aset. rewrite (proj2 (Z.leb_le 0 _)) by lia. by rewrite Nat2Z.id. }
    apply IH; [lia|]. intros l H1 H2 H3. apply (Hq l); [congruence| |].
    + intros j Hj. rewrite H2, E1 by lia. by rewrite list_lookup_insert_ne by lia.
    + intros j Hj. destruct (decide (j = i)) as [->|]; [|apply H3; lia].
      rewrite H2, E1 by lia. by rewrite list_lookup_insert_eq by lia.
Qed.

(** Where the log is, whatever it holds. *)
Record log_at (l : log) : Prop := mklog_at {
  la_start : l_start l = start;
  la_size : l_size l = lsize;
  la_dev : l_dev l = 1;
  la_len : length (l_sector l) = Z.to_nat LOGSIZE
}.

Lemma read_head_triple x a fin (q : unit -> fsst -> Prop) :
  geometry -> repr x a -> a_busy a = ∅ -> a_dirty a = ∅ -> log_at (lg x) -> recovers_to (disk x 1) fin ->
  (forall x' a', repr x' a' -> a_busy a' = ∅ -> a_dirty a' = ∅ -> disk x' = disk x ->
    log_is (lg x') (hdr_secs (disk x 1 start)) -> l_busy (lg x') = l_busy (lg x) -> kept x x' -> q tt x') ->
  triple [] c read_head [] x q.
Proof.
  intros [G1 G2 G3] R Hb Hd [A1 A2 A3 A4] [[_ _ O3 O4] Hn Hlen _] Hq. pose proof HEAD_10 as H10.
  assert (Hsecs : length (hdr_secs (disk x 1 start)) = Z.to_nat (hdr_n (disk x 1 start)))
    by (unfold hdr_secs; by rewrite length_fmap, length_seq).
  unfold read_head, getlog. tstep. unfold id. rewrite A1, A3.
  bread_step R; [by rewrite Hb|lia| |].
  { right. unfold pinned. rewrite Hb, Hd, dom_empty_L, union_empty_l_L, size_empty. lia. }
  intros b x1 R1 S1 E1. bdata_step R1; [apply lookup_insert_eq|]. simpl.
  rewrite (repr_clean x a start R Hb Hd). unfold modlog. tstep.
  set (x2 := set_lg _ x1). assert (Lx1 : lg x1 = lg x) by apply (rest_lg _ _ S1).
  assert (Ex2 : l_sector (lg x2) = l_sector (lg x)) by (unfold x2; simpl; by rewrite Lx1).
  eapply triple_step. fold (hdr_n (disk x 1 start)). eapply (read_head_loop_triple _ 0).
  { rewrite Ex2, A4. unfold LOGSIZE. lia. }
  intros l L1 _ L3. assert (R3 : repr (set_lg (set_l_sector l (lg x2)) x2) (abread a start b)) by (by apply repr_set_lg, repr_set_lg).
  eapply brelse_triple; [set_solver|set_solver|exact R3|apply lookup_insert_eq| |].
  { right. simpl. by rewrite (repr_clean x a start R Hb Hd), (r_disk _ _ R). }
  intros x4 R4 S4 E4. apply (Hq _ _ R4); [|done| | | |].
  - simpl. by rewrite Hb, insert_empty, delete_singleton_eq.
  - by rewrite E4.
  - rewrite (rest_lg _ _ S4). unfold x2. split; simpl; rewrite ?Lx1; try done.
    + rewrite Hsecs. unfold hdr_n in *. lia.
    + by rewrite L1, Ex2.
    + intros j v. unfold hdr_secs. rewrite list_lookup_fmap. intros (k & Hk & ->)%fmap_Some.
      apply lookup_seq in Hk as [-> Hk]. rewrite Nat.add_0_l in *. by rewrite L3 by lia.
  - rewrite (rest_lg _ _ S4). unfold x2. simpl. by rewrite Lx1.
  - etrans; [apply rest_kept, S1|]. etrans; [apply kept_set_lg|]. etrans; [apply kept_set_lg|by apply rest_kept].
Qed.

Lemma recover_triple x fin (q : unit -> fsst -> Prop) :
  geometry -> quiet x -> log_at (lg x) -> recovers_to (disk x 1) fin ->
  (forall x', recovers_to (disk x' 1) fin -> c x') ->
  (forall x', idle x' fin -> l_busy (lg x') = l_busy (lg x) -> kept x x' -> q tt x') ->
  triple [] c recover_from_log [] x q.
Proof.
  intros G (a & R & Hb & Hd) A Hrec Hc Hq. unfold recover_from_log. eapply triple_step.
  eapply read_head_triple; [done|exact R|done|done|done|exact Hrec|]. intros x1 a1 R1 B1 D1 E1 L1 Z1 K1.
  eapply finish_triple; [done|exact R1|exact L1|by rewrite E1|by rewrite E1|done|by right|done|].
  intros x2 I2 Z2 K2. apply Hq; [done|congruence|by etrans].
Qed.

(** The superblock says where the log is. *)
Record sb_names_log (dk : Z -> list Z) : Prop := mksb_names_log {
  sn_start : s32 (sb_size (sb_of (dk 1)) - sb_nlog (sb_of (dk 1))) = start;
  sn_size : s32 (sb_nlog (sb_of (dk 1))) = lsize
}.

Lemma initlog_triple x fin (q : unit -> fsst -> Prop) :
  geometry -> 1 < dsize -> quiet x -> sb_names_log (disk x 1) -> length (l_sector (lg x)) = Z.to_nat LOGSIZE ->
  recovers_to (disk x 1) fin ->
  (forall x', recovers_to (disk x' 1) fin -> c x') ->
  (forall x', idle x' fin -> l_busy (lg x') = l_busy (lg x) -> kept x x' -> q tt x') ->
  triple [] c initlog [] x q.
Proof.
  intros G H1 (a & R & Hb & Hd) [N1 N2] Hlen Hrec Hc Hq. unfold initlog.
  change (BSIZE <=? sizeof_logheader) with false. cbv iota.
  eapply triple_bind; [apply (triple_initlock _ _ _ (fun _ x' => x' = x)); [set_solver|done]|]. intros _ ? ->.
  unfold readsb. tstep. bread_step R; [by rewrite Hb|done| |].
  { right. unfold pinned. rewrite Hb, Hd, dom_empty_L, union_empty_l_L, size_empty, HEAD_10. lia. }
  intros b x1 R1 S1 E1. tstep. bdata_step R1; [apply lookup_insert_eq|]. tstep.
  brelse_step R1; [apply lookup_insert_eq|right; simpl; by rewrite (repr_clean x a 1 R Hb Hd), (r_disk _ _ R)|].
  intros x2 R2 S2 E2. assert (Lx2 : lg x2 = lg x) by (by rewrite (rest_lg _ _ S2), (rest_lg _ _ S1)).
  tstep. unfold modlog. do 3 tstep. change (a_view (abread a 1 b) 1) with (a_view a 1). rewrite (repr_clean x a 1 R Hb Hd), N1, N2.
  eapply recover_triple; [done| | | |exact Hc|].
  - eexists. split; [by apply repr_set_lg, repr_set_lg, repr_set_lg, R2|]. simpl.
    by rewrite Hb, insert_empty, delete_singleton_eq.
  - split; simpl; rewrite ?Lx2; done.
  - simpl. by rewrite E2, E1.
  - intros x' I' Z' K'. apply Hq; [done| |].
    + rewrite Z'. simpl. by rewrite Lx2.
    + etrans; [apply rest_kept, S1|]. etrans; [apply rest_kept, S2|]. do 3 (etrans; [apply kept_set_lg|]). exact K'.
Qed.
End Atomic.

(** ** Power failures *)

(** The memory of a machine that has just been switched on. *)
Record powered (x : fsst) : Prop := mkpowered {
  pw_len : length (bufs x) = S HEAD;
  pw_flags : forall b bb, bufs x !! b = Some bb -> b_flags bb = 0;
  pw_sectors : length (l_sector (lg x)) = Z.to_nat LOGSIZE;
  pw_busy : l_busy (lg x) = 0
}.

(** What [main] and the first process do to the disk. *)
Definition boot `{Disk} : M kst unit := binit ;;; initlog.

Section Power.
Context `{D : Disk} {dsize : Z} `{!DiskLaws dsize}.
Variables start lsize : Z.

Notation geometry := (geometry (dsize := dsize) start lsize).
Notation recovers_to := (recovers_to (dsize := dsize) start lsize).
Notation idle := (idle (dsize := dsize) start lsize).
Notation inlog := (inlog start lsize).

(** The file system is up, no transaction is running and the data sectors are [dk]. *)
Definition up (dk : Z -> list Z) (s : kst) : Prop :=
  sys [] s /\ idle (fs s) dk /\ l_busy (lg (fs s)) = 0 /\ forall sec, ~ inlog sec -> disk (fs s) 1 sec = dk sec.

(** A machine with the disk [dk] that is switched on, and loses power at most
    [n] times while it boots, comes up with the data sectors [fin]. *)
Fixpoint comes_back (n : nat) (fin dk : Z -> list Z) : Prop :=
  forall s, sys [] s -> powered (fs s) -> disk (fs s) 1 = dk ->
    wp (fun s' => match n with O => True | S n => comes_back n fin (disk (fs s') 1) end)
      (boot s) (fun _ s' => up fin s').

Lemma idle_disk x fin sec : idle x fin -> ~ inlog sec -> disk x 1 sec = fin sec.
Proof.
  intros [_ _ Hrec Hn] Hs. rewrite <- (rc_fin _ _ _ _ Hrec sec Hs). unfold replay. by rewrite hdr_secs_nil.
Qed.

Lemma recovers_sb dk fin :
  geometry -> recovers_to dk fin -> sb_names_log start lsize fin -> sb_names_log start lsize dk.
Proof.
  intros [G1 _ _] [Ho _ _ Hfin] [N1 N2]. assert (E : fin 1 = dk 1).
  { rewrite <- Hfin by (unfold LogSpec.inlog; lia). apply install_other. intros Hin.
    destruct (so_data _ _ _ _ Ho _ Hin). lia. }
  split; by rewrite <- E.
Qed.

Lemma boot_triple c x fin (q : unit -> fsst -> Prop) :
  geometry -> 1 < dsize -> sb_names_log start lsize fin -> powered x -> recovers_to (disk x 1) fin ->
  (forall x', recovers_to (disk x' 1) fin -> c x') ->
  (forall x', idle x' fin -> l_busy (lg x') = 0 -> kept x x' -> q tt x') ->
  triple [] c boot [] x q.
Proof.
  intros G H1 N [P1 P2 P3 P4] Hrec Hc Hq. unfold boot. eapply triple_step.
  eapply binit_triple; [set_solver|done|done|]. intros x1 R1 S1 E1.
  eapply initlog_triple; [exact G|done|eexists; split; [exact R1|done]| | | |exact Hc|].
  - rewrite E1. by eapply recovers_sb.
  - by rewrite (rest_lg _ _ S1).
  - by rewrite E1.
  - intros x2 I2 Z2 K2. apply Hq; [done|by rewrite Z2, (rest_lg _ _ S1)|]. etrans; [by apply rest_kept, S1|done].
Qed.

Lemma recovers_comes_back n dk fin :
  geometry -> 1 < dsize -> sb_names_log start lsize fin -> recovers_to dk fin -> comes_back n fin dk.
Proof.
  intros G H1 N. revert dk. induction n as [|n IH]; intros dk Hrec s Hs Hp <-.
  all: eapply wp_mono;
    [eapply (boot_triple (fun x' => recovers_to (disk x' 1) fin) (fs s) fin
       (fun _ x' => idle x' fin /\ l_busy (lg x') = 0)); done
    |intros s' Hs'; first [done | by apply IH]
    |intros _ s' (Hs' & _ & Hi & Hz); split_and!; try done; intros sec; by apply idle_disk].
Qed.
End Power.

Lemma apply_updates_other us dk s : Forall (fun u => s <> fst u) us -> apply_updates us dk s = dk s.
Proof.
  revert dk. induction us as [|[t f] us IH]; intros dk Hus; simpl; [done|].
  apply Forall_cons_1 in Hus as [Ht Hus]. rewrite IH by done. by apply fn_lookup_insert_ne.
Qed.

(** C1: transactions are atomic and durable.  Any sequence of block updates
    between [begin_trans] and [commit_trans], with room in the log for the
    sectors it changes, runs to its end and leaves all its updates on the disk.
    If the machine loses power before any of the writes this makes to the disk,
    then the machine that is switched on again with that disk, however often it
    loses power again while it recovers, comes up either with none of the
    updates or with all of them. *)
Theorem transaction_atomic `{D : Disk} dsize `{!DiskLaws dsize} start lsize us old s :
  geometry (dsize := dsize) start lsize -> sb_names_log start lsize old ->
  up (dsize := dsize) start lsize old s ->
  Forall (fun u => 1 < fst u < dsize /\ ~ inlog start lsize (fst u)) us ->
  log_room lsize [] (fst <$> us) = true ->
  let new := apply_updates us old in
  wp (fun s' =>
      (forall n, comes_back (dsize := dsize) start lsize n old (disk (fs s') 1)) \/
      (forall n, comes_back (dsize := dsize) start lsize n new (disk (fs s') 1)))
    (transaction us s) (fun _ s' => up (dsize := dsize) start lsize new s').
Proof.
  intros G N (Hs & Hi & Hz & _) Hus Hroom new.
  assert (Hlz : 0 < lsize) by (pose proof (so_len _ _ _ _ (rc_secs _ _ _ _ (id_rec _ _ _ _ Hi))); lia).
  assert (Hd : 1 < dsize) by (destruct G; lia).
  assert (N' : sb_names_log start lsize new).
  { destruct N. unfold new. split; rewrite apply_updates_other; try done;
      (eapply list.Forall_impl; [exact Hus|]; intros u [Hu _]; lia). }
  set (rc := recovers_to (dsize := dsize) start lsize).
  eapply (wp_mono (fun s' => (fun x => rc (disk x 1) old \/ rc (disk x 1) new) (fs s')));
    [|intros s' Hs'; destruct Hs' as [Hs'|Hs']; [left|right]; intros n; by apply recovers_comes_back|].
  - apply (transaction_triple (c := fun x => rc (disk x 1) old \/ rc (disk x 1) new) start lsize us (fs s) old
      (fun _ x => idle (dsize := dsize) start lsize x new /\ l_busy (lg x) = 0)); done.
  - intros [] s' (Hs' & _ & I' & Z'). split_and!; [done..|]. intros sec. by apply (idle_disk (dsize := dsize)).
Qed.

(** A disk of 100 sectors whose last ten are the log. *)
Definition demo_sb : list Z := wr32 (wr32 (replicate 512 0) 0 100) 12 10.

Definition demo_disk : Z -> Z -> list Z := <[1 := <[1 := demo_sb]> (fun _ => replicate 512 0)]> (fun _ _ => []).

Definition demo_boot : kst := set_fs (set_disk demo_disk (fs demo)) demo.

(** Three updates of two sectors. *)
Definition demo_updates : list (Z * (list Z -> list Z)) :=
  [(20, fun d => <[0%nat := 1]> d); (30, fun _ => replicate 512 7); (20, fun d => <[1%nat := 2]> d)].

Lemma demo_geometry : geometry (dsize := 100) 90 10.
Proof. split; lia. Qed.

Lemma demo_powered : powered (fs demo_boot).
Proof. split; [reflexivity|apply flags_fsst0|reflexivity|reflexivity]. Qed.

Lemma demo_up :
  wp (fun _ => True) (boot (H := CrashDisk 100) demo_boot) (fun _ s' => up (dsize := 100) 90 10 (demo_disk 1) s').
Proof.
  assert (H : comes_back (D := CrashDisk 100) (dsize := 100) 90 10 0 (demo_disk 1) (demo_disk 1)).
  { apply recovers_comes_back; [apply demo_geometry|lia|split; vm_compute; reflexivity|].
    apply (recovers_clear (D := CrashDisk 100)); [reflexivity|unfold LOGSIZE; simpl; lia|lia|done]. }
  exact (H demo_boot (sys_set_fs _ _ _ demo_sys) demo_powered eq_refl).
Qed.

Lemma transaction_atomic_witness :
  wp (fun _ => True) (bind (boot (H := CrashDisk 100)) (fun _ => transaction (D := CrashDisk 100) demo_updates) demo_boot) (fun _ s' =>
    take 3 (disk (fs s') 1 20) = [1; 2; 0] /\ disk (fs s') 1 30 = replicate 512 7).
Proof.
  apply wp_bind. eapply wp_mono.
  - exact demo_up.
  - done.
  - intros [] s1 H1. eapply wp_mono.
    + eapply (transaction_atomic (D := CrashDisk 100) 100 90 10 demo_updates (demo_disk 1) s1); [apply demo_geometry
        |split; vm_compute; reflexivity|exact H1| |vm_compute; reflexivity].
      repeat (apply Forall_cons_2; [unfold inlog; simpl; lia|]). apply Forall_nil_2.
    + done.
    + intros [] s2 (_ & _ & _ & E). rewrite !E by (unfold inlog; lia). split; vm_compute; reflexivity.
Defined.
