(* ===== verification/Fs.v ===== *)
(** * The file system

    [fs.c]: block allocation, the inode cache, file contents, directories and
    path names, on the buffer cache and the log.  A path is the list of its
    bytes without the terminating zero; a [char name[DIRSIZ]] array is the list
    of its fourteen bytes.

    [readi] and [writei] of a device go through the interface [Devsw], the
    table of device functions. *)

From stdpp Require Import base list numbers strings tactics gmap.
From Stdlib Require Import Lia.
From S2P Require Import Prelude Params StringC FsState KState Spinlock Mmu Sched Bio Log.

Local Open Scope Z_scope.
Local Open Scope xv6_scope.

(** Where file data goes to and comes from: user or kernel memory by address,
    or a local variable of the caller. *)
Inductive dest := ToMem (a : Z) | ToLocal.
Inductive source := FromMem (a : Z) | FromLocal (l : list Z).

(** [dst+m], [src+m] *)
Definition dest_add (d : dest) (m : Z) : dest :=
  match d with ToMem a => ToMem (u32 (a + m)) | ToLocal => ToLocal end.
Definition source_add (d : source) (m : Z) : source :=
  match d with
  | FromMem a => FromMem (u32 (a + m))
  | FromLocal l => FromLocal (drop (Z.to_nat m) l)
  end.

Definition put_dest (d : dest) (l : list Z) : M kst unit :=
  match d with ToMem a => put_va a l | ToLocal => ret tt end.
Definition get_source (d : source) (m : Z) : M kst (list Z) :=
  match d with
  | FromMem a => get_va a (Z.to_nat m)
  | FromLocal l => ret (take (Z.to_nat m) l)
  end.

(** [devsw[major].read] and [.write]; the result of a read carries the bytes
    for a local destination. *)
Class Devsw := {
  dev_read : Z -> option (nat -> dest -> Z -> M kst (Z * list Z));
  dev_write : Z -> option (nat -> source -> Z -> M kst Z)
}.

(** [memmove(l + o, new, length new)] *)
Definition splice (l : list Z) (o : Z) (new : list Z) : list Z :=
  take (Z.to_nat o) l ++ new ++ drop (Z.to_nat o + length new) l.

Definition slice (l : list Z) (o m : Z) : list Z := take (Z.to_nat m) (drop (Z.to_nat o) l).

(** ** Layout of the disk ([fs.h]) *)

Definition DINODE : Z := 128.
Definition IPB : Z := BSIZE / DINODE.
Definition IBLOCK (i : Z) : Z := i / IPB + 2.
Definition BPB : Z := BSIZE * 8.
Definition BBLOCK (b ninodes : Z) : Z := b / BPB + ninodes / IPB + 3.
Definition DIRENT : Z := 16.

Section Fs.
Context `{Disk} `{Devsw}.

Definition geti (ip : nat) : M kst inode := o <- getfs (fun x => inodes x !! ip) ;; deref o.
Definition upd_inode (ip : nat) (f : inode -> inode) (x : fsst) : fsst :=
  set_inodes (alter f ip (inodes x)) x.
Definition modi (ip : nat) (f : inode -> inode) : M kst unit := _ <- geti ip ;; modfs (upd_inode ip f).

(** ** Blocks *)

Definition bzero (dev bno : Z) : M kst unit :=
  bp <- bread dev bno ;;
  setdata bp (fun _ => replicate (Z.to_nat BSIZE) 0) ;;;
  log_write bp ;;;
  brelse bp.

(** The bit of block number [bi] in the bytes of a bitmap block. *)
Definition bit (d : list Z) (bi : Z) : bool := bset (byte_at d (bi / 8)) (Z.shiftl 1 (bi mod 8)).
Definition set_bit (d : list Z) (bi : Z) : list Z :=
  set_byte d (bi / 8) (Z.lor (byte_at d (bi / 8)) (Z.shiftl 1 (bi mod 8))).
Definition clear_bit (d : list Z) (bi : Z) : list Z :=
  set_byte d (bi / 8) (Z.land (byte_at d (bi / 8)) (Z.lnot (Z.shiftl 1 (bi mod 8)))).

(** [for(bi = 0; bi < BPB && b + bi < sb.size; bi++)]: the first free bit. *)
Fixpoint find_bit (n : nat) (d : list Z) (b bi size : Z) : option Z :=
  match n with
  | O => None
  | S n =>
      if (bi <? BPB) && (b + bi <? size) then
        if bit d bi then find_bit n d b (bi + 1) size else Some bi
      else None
  end.

Fixpoint balloc_loop (n : nat) (dev b : Z) (sb : superblock) : M kst Z :=
  match n with
  | O => outoffuel
  | S n =>
      if b <? sb_size sb then
        bp <- bread dev (BBLOCK b (sb_ninodes sb)) ;;
        d <- bdata bp ;;
        match find_bit (Z.to_nat BPB) d b 0 (sb_size sb) with
        | Some bi =>
            setdata bp (fun d => set_bit d bi) ;;;
            log_write bp ;;;
            brelse bp ;;;
            bzero dev (b + bi) ;;;
            ret (b + bi)
        | None =>
            brelse bp ;;;
            balloc_loop n dev (b + BPB) sb
        end
      else panic "balloc: out of blocks"
  end.

Definition balloc (dev : Z) : M kst Z :=
  sb <- readsb dev ;;
  balloc_loop (S (Z.to_nat ((sb_size sb + BPB - 1) / BPB))) dev 0 sb.

Definition bfree (dev b : Z) : M kst unit :=
  sb <- readsb dev ;;
  bp <- bread dev (BBLOCK b (sb_ninodes sb)) ;;
  let bi := b mod BPB in
  d <- bdata bp ;;
  if negb (bit d bi) then panic "freeing free block" else
  setdata bp (fun d => clear_bit d bi) ;;;
  log_write bp ;;;
  brelse bp.

(** ** The inode cache *)

Definition iinit : M kst unit := onlks (initlock L_icache "icache").

(** One pass over the cache: the entry of the inode, or the first empty one. *)
Definition iget (dev inum : Z) : M kst nat :=
  acquire L_icache ;;;
  tab <- getfs inodes ;;
  match scan (fun ip => (0 <? i_ref ip) && (i_dev ip =? dev) && (i_inum ip =? inum)) tab with
  | Some ip =>
      modi ip (fun x => set_i_ref (i_ref x + 1) x) ;;;
      release L_icache ;;;
      ret ip
  | None =>
      match scan (fun ip => i_ref ip =? 0) tab with
      | None => panic "iget: no inodes"
      | Some ip =>
          modi ip (set_i_dev dev) ;;;
          modi ip (set_i_inum inum) ;;;
          modi ip (set_i_ref 1) ;;;
          modi ip (set_i_flags 0) ;;;
          release L_icache ;;;
          ret ip
      end
  end.

(** The on-disk inode at byte offset [o] of a block. *)
Definition dinode_at (inum : Z) : Z := DINODE * (inum mod IPB).

Fixpoint rd_addrs (n : nat) (d : list Z) (o : Z) : list Z :=
  match n with O => [] | S n => rd32 d o :: rd_addrs n d (o + 4) end.

Fixpoint wr_addrs (d : list Z) (o : Z) (l : list Z) : list Z :=
  match l with [] => d | a :: l => wr_addrs (wr32 d o a) (o + 4) l end.

(** Offsets of [type], [major], [minor], [nlink], [size] and [addrs]. *)
Definition ADDRS : Z := 76.

Definition put_dinode (ip : inode) (d : list Z) (o : Z) : list Z :=
  let d := wr16 d o (i_type ip) in
  let d := wr16 d (o + 2) (i_major ip) in
  let d := wr16 d (o + 4) (i_minor ip) in
  let d := wr16 d (o + 6) (i_nlink ip) in
  let d := wr32 d (o + 8) (i_size ip) in
  wr_addrs d (o + ADDRS) (i_addrs ip).

Definition get_dinode (d : list Z) (o : Z) (ip : inode) : inode :=
  mkinode (i_dev ip) (i_inum ip) (i_ref ip) (i_flags ip)
    (s16 (rd16 d o)) (s16 (rd16 d (o + 2))) (s16 (rd16 d (o + 4))) (s16 (rd16 d (o + 6)))
    (rd32 d (o + 8)) (rd_addrs 13 d (o + ADDRS)).

Fixpoint ialloc_loop (n : nat) (dev type inum : Z) (sb : superblock) : M kst nat :=
  match n with
  | O => outoffuel
  | S n =>
      if inum <? sb_ninodes sb then
        bp <- bread dev (IBLOCK inum) ;;
        d <- bdata bp ;;
        if rd16 d (dinode_at inum) =? 0 then
          setdata bp (fun d => wr16 (splice d (dinode_at inum) (replicate (Z.to_nat DINODE) 0))
            (dinode_at inum) type) ;;;
          log_write bp ;;;
          brelse bp ;;;
          iget dev inum
        else
          brelse bp ;;;
          ialloc_loop n dev type (inum + 1) sb
      else panic "ialloc: no inodes"
  end.

Definition ialloc (dev type : Z) : M kst nat :=
  sb <- readsb dev ;;
  ialloc_loop (S (Z.to_nat (sb_ninodes sb))) dev type 1 sb.

Definition iupdate (ip : nat) : M kst unit :=
  i <- geti ip ;;
  bp <- bread (i_dev i) (IBLOCK (i_inum i)) ;;
  setdata bp (fun d => put_dinode i d (dinode_at (i_inum i))) ;;;
  log_write bp ;;;
  brelse bp.

Definition idup (ip : nat) : M kst nat :=
  acquire L_icache ;;;
  modi ip (fun x => set_i_ref (i_ref x + 1) x) ;;;
  release L_icache ;;;
  ret ip.

(** [while(ip->flags & I_BUSY) sleep(ip, &icache.lock);] *)
Fixpoint ilock_wait (fuel ip : nat) : M kst unit :=
  i <- geti ip ;;
  if negb (bset (i_flags i) I_BUSY) then ret tt
  else match fuel with
       | O => outoffuel
       | S fuel => sleep (CInode ip) (Some L_icache) ;;; ilock_wait fuel ip
       end.

Definition ilock (o : option nat) : M kst unit :=
  match o with
  | None => panic "ilock"
  | Some ip =>
      i <- geti ip ;;
      if i_ref i <? 1 then panic "ilock" else
      acquire L_icache ;;;
      ilock_wait waits ip ;;;
      modi ip (fun i => set_i_flags (orm (i_flags i) I_BUSY) i) ;;;
      release L_icache ;;;
      i <- geti ip ;;
      if bset (i_flags i) I_VALID then ret tt else
      bp <- bread (i_dev i) (IBLOCK (i_inum i)) ;;
      d <- bdata bp ;;
      modi ip (get_dinode d (dinode_at (i_inum i))) ;;;
      brelse bp ;;;
      modi ip (fun i => set_i_flags (orm (i_flags i) I_VALID) i) ;;;
      i <- geti ip ;;
      if i_type i =? 0 then panic "ilock: no type" else ret tt
  end.

Definition iunlock (o : option nat) : M kst unit :=
  match o with
  | None => panic "iunlock"
  | Some ip =>
      i <- geti ip ;;
      if negb (bset (i_flags i) I_BUSY) || (i_ref i <? 1) then panic "iunlock" else
      acquire L_icache ;;;
      modi ip (fun i => set_i_flags (clrm (i_flags i) I_BUSY) i) ;;;
      wakeup (CInode ip) ;;;
      release L_icache
  end.

(** ** Contents *)

(** The loop of [itrunc] over the direct blocks from [i] on. *)
Fixpoint itrunc_direct (n : nat) (ip : nat) (i : Z) : M kst unit :=
  match n with
  | O => ret tt
  | S n =>
      x <- geti ip ;;
      a <- deref (aget (i_addrs x) i) ;;
      (if negb (a =? 0) then
         bfree (i_dev x) a ;;;
         modi ip (fun x => set_i_addrs (aset (i_addrs x) i 0) x)
       else ret tt) ;;;
      itrunc_direct n ip (i + 1)
  end.

Fixpoint itrunc_indirect (l : list Z) (dev : Z) : M kst unit :=
  match l with
  | [] => ret tt
  | a :: l => (if negb (a =? 0) then bfree dev a else ret tt) ;;; itrunc_indirect l dev
  end.

Definition itrunc (ip : nat) : M kst unit :=
  itrunc_direct (Z.to_nat NDIRECT) ip 0 ;;;
  x <- geti ip ;;
  a <- deref (aget (i_addrs x) NDIRECT) ;;
  (if negb (a =? 0) then
     bp <- bread (i_dev x) a ;;
     d <- bdata bp ;;
     itrunc_indirect (rd_addrs (Z.to_nat NINDIRECT) d 0) (i_dev x) ;;;
     brelse bp ;;;
     bfree (i_dev x) a ;;;
     modi ip (fun x => set_i_addrs (aset (i_addrs x) NDIRECT 0) x)
   else ret tt) ;;;
  modi ip (set_i_size 0) ;;;
  iupdate ip.

Definition iput (ip : nat) : M kst unit :=
  acquire L_icache ;;;
  i <- geti ip ;;
  (if (i_ref i =? 1) && bset (i_flags i) I_VALID && (i_nlink i =? 0) then
     if bset (i_flags i) I_BUSY then panic "iput busy" else
     modi ip (fun i => set_i_flags (orm (i_flags i) I_BUSY) i) ;;;
     release L_icache ;;;
     itrunc ip ;;;
     modi ip (set_i_type 0) ;;;
     iupdate ip ;;;
     acquire L_icache ;;;
     modi ip (set_i_flags 0) ;;;
     wakeup (CInode ip)
   else ret tt) ;;;
  modi ip (fun i => set_i_ref (i_ref i - 1) i) ;;;
  release L_icache.

Definition iunlockput (ip : nat) : M kst unit := iunlock (Some ip) ;;; iput ip.

Definition bmap (ip : nat) (bn : Z) : M kst Z :=
  x <- geti ip ;;
  if bn <? NDIRECT then
    a <- deref (aget (i_addrs x) bn) ;;
    if a =? 0 then
      a <- balloc (i_dev x) ;;
      modi ip (fun x => set_i_addrs (aset (i_addrs x) bn a) x) ;;;
      ret a
    else ret a
  else
  let bn := bn - NDIRECT in
  if bn <? NINDIRECT then
    a <- deref (aget (i_addrs x) NDIRECT) ;;
    ind <- (if a =? 0 then
              a <- balloc (i_dev x) ;;
              modi ip (fun x => set_i_addrs (aset (i_addrs x) NDIRECT a) x) ;;;
              ret a
            else ret a) ;;
    bp <- bread (i_dev x) ind ;;
    d <- bdata bp ;;
    let a := rd32 d (4 * bn) in
    a <- (if a =? 0 then
            a <- balloc (i_dev x) ;;
            setdata bp (fun d => wr32 d (4 * bn) a) ;;;
            log_write bp ;;;
            ret a
          else ret a) ;;
    brelse bp ;;;
    ret a
  else panic "bmap: out of range".

(** [struct stat] at [st]: [type], [dev], [ino], [nlink] and [size] are at
    offsets 0, 4, 8, 12 and 16. *)
Definition bytes16 (z : Z) : list Z := [u8 z; u8 (z / 2 ^ 8)].
Definition STAT : Z := 20.

Definition stati (ip : nat) (st : Z) : M kst unit :=
  i <- geti ip ;;
  store32_va (u32 (st + 4)) (i_dev i) ;;;
  store32_va (u32 (st + 8)) (i_inum i) ;;;
  put_va st (bytes16 (i_type i)) ;;;
  put_va (u32 (st + 12)) (bytes16 (i_nlink i)) ;;;
  store32_va (u32 (st + 16)) (i_size i).

(** [for(tot=0; tot<n; tot+=m, off+=m, dst+=m)]; [rest] is [n - tot] and [acc]
    the bytes for a local destination. *)
Fixpoint readi_loop (k : nat) (ip : nat) (dst : dest) (off rest : Z) (acc : list Z) : M kst (list Z) :=
  match k with
  | O => outoffuel
  | S k =>
      if 0 <? rest then
        x <- geti ip ;;
        a <- bmap ip (off / BSIZE) ;;
        bp <- bread (i_dev x) a ;;
        let m := Z.min rest (BSIZE - off mod BSIZE) in
        d <- bdata bp ;;
        let l := slice d (off mod BSIZE) m in
        put_dest dst l ;;;
        brelse bp ;;;
        readi_loop k ip (dest_add dst m) (off + m) (rest - m) (acc ++ l)
      else ret acc
  end.

(** A transfer of [n] bytes touches at most [n / BSIZE + 2] blocks; one more round
    ends the loop. *)
Definition nblocks (n : Z) : nat := S (S (S (Z.to_nat (n / BSIZE)))).

Definition readi (ip : nat) (dst : dest) (off n : Z) : M kst (Z * list Z) :=
  x <- geti ip ;;
  if i_type x =? T_DEV then
    if (i_major x <? 0) || (NDEV <=? i_major x) then ret (-1, []) else
    match dev_read (i_major x) with
    | None => ret (-1, [])
    | Some f => f ip dst (s32 n)
    end
  else
  if (i_size x <? off) || (u32 (off + n) <? off) then ret (-1, []) else
  let n := if i_size x <? u32 (off + n) then i_size x - off else n in
  acc <- readi_loop (nblocks n) ip dst off n [] ;;
  ret (s32 n, acc).

Fixpoint writei_loop (k : nat) (ip : nat) (src : source) (off rest : Z) : M kst Z :=
  match k with
  | O => outoffuel
  | S k =>
      if 0 <? rest then
        x <- geti ip ;;
        a <- bmap ip (off / BSIZE) ;;
        bp <- bread (i_dev x) a ;;
        let m := Z.min rest (BSIZE - off mod BSIZE) in
        l <- get_source src m ;;
        setdata bp (fun d => splice d (off mod BSIZE) l) ;;;
        log_write bp ;;;
        brelse bp ;;;
        writei_loop k ip (source_add src m) (off + m) (rest - m)
      else ret off
  end.

Definition writei (ip : nat) (src : source) (off n : Z) : M kst Z :=
  x <- geti ip ;;
  if i_type x =? T_DEV then
    if (i_major x <? 0) || (NDEV <=? i_major x) then ret (-1) else
    match dev_write (i_major x) with
    | None => ret (-1)
    | Some f => f ip src (s32 n)
    end
  else
  if (i_size x <? off) || (u32 (off + n) <? off) then ret (-1) else
  if MAXFILE * BSIZE <? u32 (off + n) then ret (-1) else
  off <- writei_loop (nblocks n) ip src off n ;;
  x <- geti ip ;;
  (if (0 <? n) && (i_size x <? off) then
     modi ip (set_i_size off) ;;;
     iupdate ip
   else ret tt) ;;;
  ret (s32 n).

(** ** Directories *)

(** Two strings as the memory [strncmp] and [strncpy] work on. *)
Definition two_strings (s t : list Z) : memory :=
  fun x => if x <? 1000 then byte_at s x else byte_at t (x - 1000).

Definition namecmp (s t : list Z) : Z := strncmp (two_strings s t) 0 1000 (Z.to_nat DIRSIZ).

(** [strncpy(de.name, name, DIRSIZ)] *)
Definition dirname (name : list Z) : list Z :=
  (fun i => strncpy (two_strings [] name) 0 1000 (Z.to_nat DIRSIZ) (Z.of_nat i))
    <$> seq 0 (Z.to_nat DIRSIZ).

(** [struct dirent]: the inode number and the name. *)
Definition de_inum (d : list Z) : Z := rd16 d 0.
Definition de_name (d : list Z) : list Z := drop 2 d.
Definition dirent (inum : Z) (name : list Z) : list Z := bytes16 inum ++ dirname name.

Fixpoint dirlookup_loop (k : nat) (dp : nat) (name : list Z) (off : Z) : M kst (option (nat * Z)) :=
  match k with
  | O => outoffuel
  | S k =>
      x <- geti dp ;;
      if off <? i_size x then
        ' (r, de) <- readi dp ToLocal off DIRENT ;;
        if negb (r =? DIRENT) then panic "dirlink read" else
        if de_inum de =? 0 then dirlookup_loop k dp name (off + DIRENT) else
        if namecmp name (de_name de) =? 0 then
          ip <- iget (i_dev x) (de_inum de) ;;
          ret (Some (ip, off))
        else dirlookup_loop k dp name (off + DIRENT)
      else ret None
  end.

(** The inode with its offset, [*poff]. *)
Definition dirlookup (dp : nat) (name : list Z) : M kst (option (nat * Z)) :=
  x <- geti dp ;;
  if negb (i_type x =? T_DIR) then panic "dirlookup not DIR" else
  dirlookup_loop (S (Z.to_nat ((i_size x + DIRENT - 1) / DIRENT))) dp name 0.

(** The first empty entry, or the end of the directory. *)
Fixpoint dirlink_loop (k : nat) (dp : nat) (off : Z) : M kst Z :=
  match k with
  | O => outoffuel
  | S k =>
      x <- geti dp ;;
      if off <? i_size x then
        ' (r, de) <- readi dp ToLocal off DIRENT ;;
        if negb (r =? DIRENT) then panic "dirlink read" else
        if de_inum de =? 0 then ret off else dirlink_loop k dp (off + DIRENT)
      else ret off
  end.

Definition dirlink (dp : nat) (name : list Z) (inum : Z) : M kst Z :=
  o <- dirlookup dp name ;;
  match o with
  | Some (ip, _) => iput ip ;;; ret (-1)
  | None =>
      x <- geti dp ;;
      off <- dirlink_loop (S (Z.to_nat ((i_size x + DIRENT - 1) / DIRENT))) dp 0 ;;
      r <- writei dp (FromLocal (dirent inum name)) off DIRENT ;;
      if negb (r =? DIRENT) then panic "dirlink" else ret 0
  end.

End Fs.

(** ** Paths *)

Definition SLASH : Z := 47.

Fixpoint skip_slashes (path : list Z) : list Z :=
  match path with
  | c :: p => if c =? SLASH then skip_slashes p else path
  | [] => []
  end.

(** The bytes up to the next slash, and the rest. *)
Fixpoint split_elem (path : list Z) : list Z * list Z :=
  match path with
  | c :: p => if c =? SLASH then ([], path) else let '(e, r) := split_elem p in (c :: e, r)
  | [] => ([], [])
  end.

(** The [name] array after an element has been copied into it. *)
Definition copy_elem (name e : list Z) : list Z :=
  if DIRSIZ <=? Z.of_nat (length e) then take (Z.to_nat DIRSIZ) e
  else e ++ 0 :: drop (S (length e)) name.

Definition skipelem (path name : list Z) : option (list Z * list Z) :=
  let path := skip_slashes path in
  match path with
  | [] => None
  | _ =>
      let '(e, rest) := split_elem path in
      Some (skip_slashes rest, copy_elem name e)
  end.

Section Namex.
Context `{Disk} `{Devsw}.

(** The loop of [namex]; the path gets shorter in every round. *)
Fixpoint namex_loop (k : nat) (path name : list Z) (ip : nat) (nameiparent : bool) :
    M kst (option nat * list Z) :=
  match skipelem path name with
  | None =>
      if nameiparent then iput ip ;;; ret (None, name) else ret (Some ip, name)
  | Some (path, name) =>
      match k with
      | O => outoffuel
      | S k =>
          ilock (Some ip) ;;;
          x <- geti ip ;;
          if negb (i_type x =? T_DIR) then iunlockput ip ;;; ret (None, name) else
          if nameiparent && bool_decide (path = []) then
            iunlock (Some ip) ;;; ret (Some ip, name)
          else
          o <- dirlookup ip name ;;
          match o with
          | None => iunlockput ip ;;; ret (None, name)
          | Some (next, _) =>
              iunlockput ip ;;;
              namex_loop k path name next nameiparent
          end
      end
  end.

(** Inode and [name] array; [ip = idup(proc->cwd)] for a relative path. *)
Definition namex (path : list Z) (nameiparent : bool) : M kst (option nat * list Z) :=
  ip <- (match path with
         | c :: _ => if c =? SLASH then iget ROOTDEV ROOTINO
                     else p <- myproc ;; pr <- getp p ;; cwd <- deref (p_cwd pr) ;; idup cwd
         | [] => p <- myproc ;; pr <- getp p ;; cwd <- deref (p_cwd pr) ;; idup cwd
         end) ;;
  namex_loop (length path) path (replicate (Z.to_nat DIRSIZ) 0) ip nameiparent.

Definition namei (path : list Z) : M kst (option nat) :=
  ' (o, _) <- namex path false ;; ret o.

Definition nameiparent (path : list Z) : M kst (option nat * list Z) := namex path true.

End Namex.
