(* ===== verification/BlockThm.v ===== *)
(** * The block allocator

    [balloc] and [bfree] of [fs.c], inside a transaction, against the set of the
    blocks that are in use: the bitmap of the file system. *)

From stdpp Require Import base list numbers strings tactics gmap functions.
From Stdlib Require Import Lia.
From S2P Require Import Prelude Params StringC FsState KState Spinlock Sched Runs Bio BioSpec BioThm Log LogSpec LogThm Fs.

Local Open Scope Z_scope.
Local Open Scope xv6_scope.

#[local] Opaque HEAD.

(** ** Bits *)

Lemma bset_testbit x k : 0 <= k -> bset x (Z.shiftl 1 k) = Z.testbit x k.
Proof.
  intros Hk. unfold bset. destruct (Z.testbit x k) eqn:E.
  - apply negb_true_iff, Z.eqb_neq. intros H. apply (f_equal (fun z => Z.testbit z k)) in H.
    rewrite Z.land_spec, E, Z.shiftl_spec, Z.sub_diag, Z.bits_0 in H by done. done.
  - apply negb_false_iff, Z.eqb_eq, Z.bits_inj'. intros i Hi. rewrite Z.land_spec, Z.bits_0, Z.shiftl_spec by done.
    destruct (decide (i = k)) as [->|Hne]; [by rewrite E|]. apply andb_false_iff. right.
    destruct (decide (i < k)); [apply Z.testbit_neg_r; lia|]. change 1 with (2 ^ 0). apply Z.pow2_bits_false. lia.
Qed.

Lemma bit_testbit d i : bit d i = Z.testbit (byte_at d (i / 8)) (i mod 8).
Proof. apply bset_testbit. apply Z.mod_pos_bound. lia. Qed.

Lemma u8_testbit v k : 0 <= k < 8 -> Z.testbit (u8 v) k = Z.testbit v k.
Proof. intros Hk. unfold u8. apply Z.mod_pow2_bits_low. lia. Qed.

Lemma shiftl1_testbit i k : 0 <= i -> 0 <= k -> Z.testbit (Z.shiftl 1 i) k = (i =? k).
Proof.
  intros Hi Hk. rewrite Z.shiftl_1_l. destruct (Z.eqb_spec i k) as [->|Hne]; [by apply Z.pow2_bits_true|].
  by apply Z.pow2_bits_false.
Qed.

Lemma same_bit i j : 0 <= i -> 0 <= j -> i / 8 = j / 8 -> (i mod 8 =? j mod 8) = (i =? j).
Proof.
  intros Hi Hj H. destruct (Z.eqb_spec i j) as [->|Hne]; [by rewrite Z.eqb_refl|]. apply Z.eqb_neq.
  intros E. apply Hne. rewrite (Z.div_mod i 8), (Z.div_mod j 8) by lia. congruence.
Qed.

Lemma bit_set d i j :
  0 <= i < 8 * Z.of_nat (length d) -> 0 <= j -> bit (set_bit d i) j = (i =? j) || bit d j.
Proof.
  intros Hi Hj. pose proof (Z.mod_pos_bound i 8 ltac:(lia)). pose proof (Z.mod_pos_bound j 8 ltac:(lia)).
  rewrite !bit_testbit. unfold set_bit. rewrite byte_at_set by (Z.div_mod_to_equations; lia). case_decide as E.
  - rewrite u8_testbit, Z.lor_spec, shiftl1_testbit, same_bit, E by lia. by rewrite orb_comm.
  - destruct (Z.eqb_spec i j) as [->|]; [done|]. done.
Qed.

Lemma bit_clear d i j :
  0 <= i < 8 * Z.of_nat (length d) -> 0 <= j -> bit (clear_bit d i) j = negb (i =? j) && bit d j.
Proof.
  intros Hi Hj. pose proof (Z.mod_pos_bound i 8 ltac:(lia)). pose proof (Z.mod_pos_bound j 8 ltac:(lia)).
  rewrite !bit_testbit. unfold clear_bit. rewrite byte_at_set by (Z.div_mod_to_equations; lia). case_decide as E.
  - rewrite u8_testbit, Z.land_spec, Z.lnot_spec, shiftl1_testbit, same_bit, E by lia. by rewrite andb_comm.
  - destruct (Z.eqb_spec i j) as [->|]; [done|]. done.
Qed.

(** The scan of a bitmap block. *)
Lemma find_bit_first n d b bi size k :
  0 <= bi <= k -> k < BPB -> b + k < size -> bit d k = false -> (forall j, bi <= j < k -> bit d j = true) ->
  k - bi < Z.of_nat n -> find_bit n d b bi size = Some k.
Proof.
  revert bi. induction n as [|n IH]; intros bi Hb Hk Hs Hf Hu Hn; [lia|]. simpl.
  rewrite (proj2 (Z.ltb_lt _ _)), (proj2 (Z.ltb_lt _ _)) by lia. simpl.
  destruct (decide (bi = k)) as [->|Hne]; [by rewrite Hf|]. rewrite Hu by lia. apply IH; try done; [lia| |lia].
  intros j Hj. apply Hu. lia.
Qed.

Lemma find_bit_none n d b bi size :
  0 <= bi -> (forall j, bi <= j < BPB -> b + j < size -> bit d j = true) -> BPB - bi <= Z.of_nat n ->
  find_bit n d b bi size = None.
Proof.
  revert bi. induction n as [|n IH]; intros bi Hb Hu Hn; [done|]. simpl.
  destruct (Z.ltb_spec bi BPB), (Z.ltb_spec (b + bi) size); try done. simpl. rewrite Hu by lia.
  apply IH; [lia| |lia]. intros j Hj. apply Hu. lia.
Qed.

(** ** The bitmap *)

Definition used (sb : superblock) (dk : Z -> list Z) (i : Z) : bool :=
  bit (dk (BBLOCK i (sb_ninodes sb))) (i mod BPB).

Section Blocks.
Context `{D : Disk} {dsize : Z} `{!DiskLaws dsize}.
Context {c : fsst -> Prop}.
Variables start lsize : Z.

Notation geometry := (geometry (dsize := dsize) start lsize).
Notation recovers_to := (recovers_to (dsize := dsize) start lsize).
Notation inlog := (inlog start lsize).
Notation holding := (holding (dsize := dsize) start lsize).
Notation intx := (holding ∅).

(** A sector that a transaction may change. *)
Definition data_sector (s : Z) : Prop := 1 < s < dsize /\ ~ inlog s.

(** The file system of superblock [sb] on [dk]: its bitmap blocks are in place. *)
Record bitmap_ok (sb : superblock) (dk : Z -> list Z) : Prop := mkbitmap {
  bm_sb : sb_of (dk 1) = sb;
  bm_blocks : forall i, 0 <= i < sb_size sb ->
    data_sector (BBLOCK i (sb_ninodes sb)) /\ length (dk (BBLOCK i (sb_ninodes sb))) = Z.to_nat BSIZE
}.

(** A block for data: not a bitmap block, nor before or in the log. *)
Definition freeable (sb : superblock) (f : Z) : Prop :=
  data_sector f /\ forall j, 0 <= j < sb_size sb -> f <> BBLOCK j (sb_ninodes sb).

Lemma readsb_hold bz x a secs old new (q : superblock -> fsst -> Prop) :
  geometry -> holding bz x a secs old new -> bz !! 1 = None -> (size (dom bz ∪ list_to_set secs) < HEAD)%nat ->
  (forall x' a', holding bz x' a' secs old new -> kept x x' -> q (sb_of (new 1)) x') ->
  triple [] c (readsb 1) [] x q.
Proof.
  intros [G1 G2 G3] I H1 Hsz Hq. pose proof (so_len _ _ _ _ (it_secs _ _ _ _ _ _ _ _ I)) as Hl.
  unfold readsb. eapply triple_step, bread_hold; [exact I|lia|unfold LogSpec.inlog; lia|done|done|]. intros b x1 a1 I1 K1.
  eapply triple_step, bdata_hold; [exact I1|apply lookup_insert_eq|].
  eapply triple_step, brelse_hold; [exact I1|apply lookup_insert_eq|]. intros x2 a2 I2 K2. tstep.
  rewrite delete_insert_id in I2 by done. eapply Hq; [exact I2|by etrans].
Qed.

Lemma bzero_hold bz f secs x a old new (q : unit -> fsst -> Prop) :
  geometry -> holding bz x a secs old new -> data_sector f -> bz !! f = None ->
  Z.of_nat (length secs) < lsize - 1 -> (size ({[f]} ∪ dom bz ∪ list_to_set secs : gset Z) < HEAD)%nat ->
  (forall x', recovers_to (disk x' 1) old -> c x') ->
  (forall x' a', holding bz x' a' (absorb secs f) old (<[f := replicate (Z.to_nat BSIZE) 0]> new) -> kept x x' -> q tt x') ->
  triple [] c (bzero 1 f) [] x q.
Proof.
  intros G I [Hf1 Hf2] Hb H1 H2 Hc Hq. unfold bzero.
  eapply triple_step, bread_hold; [exact I|lia|done|done| |].
  { eapply Nat.le_lt_trans; [apply subseteq_size|exact H2]. set_solver. }
  intros b x1 a1 I1 K1. eapply log_hold; [done|exact I1|apply lookup_insert_eq|done|done|by rewrite dom_insert_L|exact Hc|].
  intros x2 a2 I2 K2. eapply brelse_hold; [exact I2|apply lookup_insert_eq|]. intros x3 a3 I3 K3.
  rewrite delete_insert_id in I3 by done. eapply Hq; [exact I3|]. etrans; [exact K1|by etrans].
Qed.

Lemma block_split i : 0 <= i -> i / BPB * BPB + i mod BPB = i /\ 0 <= i mod BPB < BPB /\ 0 <= i / BPB.
Proof. unfold BPB, BSIZE. intros. Z.div_mod_to_equations. lia. Qed.

Lemma BBLOCK_row k j n : 0 <= j < BPB -> BBLOCK (k * BPB + j) n = BBLOCK (k * BPB) n.
Proof.
  intros Hj. unfold BBLOCK. replace ((k * BPB + j) / BPB) with (k * BPB / BPB); [done|].
  unfold BPB, BSIZE in *. Z.div_mod_to_equations. lia.
Qed.

Lemma used_row sb dk k j : 0 <= j < BPB -> used sb dk (k * BPB + j) = bit (dk (BBLOCK (k * BPB) (sb_ninodes sb))) j.
Proof.
  intros Hj. unfold used. rewrite BBLOCK_row by done. f_equal. unfold BPB, BSIZE in *. Z.div_mod_to_equations. lia.
Qed.

(** The disk after block [f] has been taken. *)
Definition ballocated (sb : superblock) (f : Z) (dk : Z -> list Z) : Z -> list Z :=
  let bm := BBLOCK f (sb_ninodes sb) in
  <[f := replicate (Z.to_nat BSIZE) 0]> (<[bm := set_bit (dk bm) (f mod BPB)]> dk).

(** Room in the log and in the cache for a block and its bit, while the buffers
    [bz] are held. *)
Record alloc_room (bz : gmap Z nat) (secs : list Z) (bm f : Z) : Prop := mkalloc_room {
  ar_sb : bz !! 1 = None;
  ar_bm : bz !! bm = None;
  ar_f : bz !! f = None;
  ar_log : Z.of_nat (length (absorb secs bm)) < lsize - 1;
  ar_buf : (size ({[bm; f]} ∪ dom bz ∪ list_to_set secs : gset Z) < HEAD)%nat
}.

Lemma log_room_alloc secs bm f : NoDup secs -> log_room lsize secs [bm; f] = true -> alloc_room ∅ secs bm f.
Proof.
  intros Hnd. cbn [log_room]. rewrite !andb_true_iff, !bool_decide_eq_true. intros [[R1 R2] [[R3 R4] _]].
  split; [done..|]. rewrite <- (size_secs (absorb (absorb secs bm) f)) in R4 by by apply absorb_NoDup, absorb_NoDup.
  rewrite !absorb_set in R4. eapply Nat.le_lt_trans; [apply subseteq_size|exact R4]. set_solver.
Qed.

Lemma bitmap_scan sb dk k f :
  bitmap_ok sb dk -> k * BPB <= f < sb_size sb -> used sb dk f = false -> (forall i, 0 <= i < f -> used sb dk i = true) -> 0 <= k ->
  find_bit (Z.to_nat BPB) (dk (BBLOCK (k * BPB) (sb_ninodes sb))) (k * BPB) 0 (sb_size sb) =
    if decide (f < k * BPB + BPB) then Some (f - k * BPB) else None.
Proof.
  intros Hm Hf Hfree Hall Hk. case_decide as Hin.
  - rewrite <- (Z.add_0_l f) in Hfree. replace (0 + f) with (k * BPB + (f - k * BPB)) in Hfree by lia.
    rewrite used_row in Hfree by lia. apply find_bit_first; try (done || lia).
    intros i Hi. rewrite <- used_row by lia. apply Hall. unfold BPB, BSIZE in *. lia.
  - apply find_bit_none; [lia| |lia]. intros j Hj Hjs. rewrite <- used_row by done. apply Hall. unfold BPB, BSIZE in *. lia.
Qed.

Lemma balloc_loop_hold bz n k f sb secs x a old new (q : Z -> fsst -> Prop) :
  let bm := BBLOCK f (sb_ninodes sb) in
  geometry -> holding bz x a secs old new -> bitmap_ok sb new -> 0 <= k ->
  k * BPB <= f < sb_size sb -> data_sector f -> used sb new f = false -> (forall i, 0 <= i < f -> used sb new i = true) ->
  f < k * BPB + BPB * Z.of_nat n -> (forall i, 0 <= i <= f -> bz !! BBLOCK i (sb_ninodes sb) = None) ->
  alloc_room bz secs bm f ->
  (forall x', recovers_to (disk x' 1) old -> c x') ->
  (forall x' a', holding bz x' a' (absorb (absorb secs bm) f) old (ballocated sb f new) -> kept x x' -> q f x') ->
  triple [] c (balloc_loop n 1 (k * BPB) sb) [] x q.
Proof.
  intros bm G. revert k x a. induction n as [|n IH]; intros k x a I Hm Hk Hf Hd Hfree Hall Hn Hbz Hroom Hc Hq; [lia|].
  cbn [balloc_loop]. rewrite (proj2 (Z.ltb_lt _ _)) by lia. pose proof Hroom as [A1 A2 A3 A4 A5].
  destruct (bm_blocks _ _ Hm (k * BPB) ltac:(unfold BPB, BSIZE in *; lia)) as [[Hs1 Hs2] Hlen].
  eapply triple_step, bread_hold; [exact I|lia|done|apply Hbz; unfold BPB, BSIZE in *; lia| |].
  { eapply Nat.le_lt_trans; [apply subseteq_size|exact A5]. set_solver. }
  intros b x1 a1 I1 K1. eapply triple_step, bdata_hold; [exact I1|apply lookup_insert_eq|].
  rewrite (bitmap_scan sb new k f) by done. case_decide as Hin.
  - assert (Hbm : BBLOCK (k * BPB) (sb_ninodes sb) = bm).
    { unfold bm. replace f with (k * BPB + (f - k * BPB)) by lia. symmetry. apply BBLOCK_row. lia. }
    rewrite Hbm in *. pose proof (absorb_length secs bm).
    eapply log_hold; [done|exact I1|apply lookup_insert_eq|done|lia| |exact Hc|].
    { rewrite dom_insert_L. eapply Nat.le_lt_trans; [apply subseteq_size|exact A5]. set_solver. }
    intros x2 a2 I2 K2. eapply triple_step, brelse_hold; [exact I2|apply lookup_insert_eq|]. intros x3 a3 I3 K3.
    rewrite delete_insert_id in I3 by done. replace (k * BPB + (f - k * BPB)) with f by lia.
    eapply triple_step, bzero_hold; [done|exact I3|done|done|done| |exact Hc|].
    { rewrite absorb_set. eapply Nat.le_lt_trans; [apply subseteq_size|exact A5]. set_solver. }
    intros x4 a4 I4 K4. tstep. eapply Hq; [|etrans; [exact K1|]; etrans; [exact K2|by etrans]].
    unfold ballocated. fold bm. replace (f mod BPB) with (f - k * BPB); [exact I4|].
    unfold BPB, BSIZE in *. Z.div_mod_to_equations. lia.
  - eapply triple_step, brelse_hold; [exact I1|apply lookup_insert_eq|]. intros x2 a2 I2 K2.
    rewrite delete_insert_id in I2 by (apply Hbz; unfold BPB, BSIZE in *; lia).
    replace (k * BPB + BPB) with ((k + 1) * BPB) by lia. eapply IH; try done; try lia.
    intros x' a' I' K'. eapply Hq; [exact I'|]. etrans; [exact K1|by etrans].
Qed.

Lemma balloc_hold bz f sb secs x a old new (q : Z -> fsst -> Prop) :
  let bm := BBLOCK f (sb_ninodes sb) in
  geometry -> holding bz x a secs old new -> bitmap_ok sb new ->
  0 <= f < sb_size sb -> data_sector f -> used sb new f = false -> (forall i, 0 <= i < f -> used sb new i = true) ->
  (forall i, 0 <= i <= f -> bz !! BBLOCK i (sb_ninodes sb) = None) -> alloc_room bz secs bm f ->
  (forall x', recovers_to (disk x' 1) old -> c x') ->
  (forall x' a', holding bz x' a' (absorb (absorb secs bm) f) old (ballocated sb f new) -> kept x x' -> q f x') ->
  triple [] c (balloc 1) [] x q.
Proof.
  intros bm G I Hm Hf Hd Hfree Hall Hbz Hroom Hc Hq. pose proof Hroom as [A1 _ _ _ A5]. unfold balloc.
  eapply triple_step, readsb_hold; [done|exact I|done| |].
  { eapply Nat.le_lt_trans; [apply subseteq_size|exact A5]. set_solver. }
  intros x1 a1 I1 K1. rewrite (bm_sb _ _ Hm).
  eapply (balloc_loop_hold bz _ 0 f); [done|exact I1|done|lia|lia|done|done|done| |done|done|exact Hc|].
  - unfold BPB, BSIZE. Z.div_mod_to_equations. lia.
  - intros x2 a2 I2 K2. eapply Hq; [exact I2|by etrans].
Qed.

Lemma balloc_tx f sb secs x a old new (q : Z -> fsst -> Prop) :
  geometry -> intx x a secs old new -> bitmap_ok sb new ->
  0 <= f < sb_size sb -> data_sector f -> used sb new f = false -> (forall i, 0 <= i < f -> used sb new i = true) ->
  log_room lsize secs [BBLOCK f (sb_ninodes sb); f] = true ->
  (forall x', recovers_to (disk x' 1) old -> c x') ->
  (forall x' a' secs', intx x' a' secs' old (ballocated sb f new) -> q f x') ->
  triple [] c (balloc 1) [] x q.
Proof.
  intros G I Hm Hf Hd Hfree Hall Hroom Hc Hq.
  eapply balloc_hold; [done|exact I|exact Hm|done|done|done|done|done|apply log_room_alloc; [apply I|done]|exact Hc|eauto].
Qed.

(** The disk after block [f] has been freed. *)
Definition bfreed (sb : superblock) (f : Z) (dk : Z -> list Z) : Z -> list Z :=
  let bm := BBLOCK f (sb_ninodes sb) in
  <[bm := clear_bit (dk bm) (f mod BPB)]> dk.

Lemma bfree_tx f sb secs x a old new (q : unit -> fsst -> Prop) :
  geometry -> intx x a secs old new -> bitmap_ok sb new ->
  0 <= f < sb_size sb -> used sb new f = true ->
  log_room lsize secs [BBLOCK f (sb_ninodes sb)] = true ->
  (forall x', recovers_to (disk x' 1) old -> c x') ->
  (forall x' a' secs', intx x' a' secs' old (bfreed sb f new) -> q tt x') ->
  triple [] c (bfree 1 f) [] x q.
Proof.
  intros G I Hm Hf Hu Hroom Hc Hq. destruct (bm_blocks _ _ Hm f Hf) as [[Hs1 Hs2] Hlen].
  unfold bfree. eapply triple_step, readsb_hold; [done|exact I|done|by eapply intx_room|]. intros x1 a1 I1 _. rewrite (bm_sb _ _ Hm).
  eapply triple_step, bread_tx; [exact I1|lia|done|]. intros b x2 a2 I2 _.
  eapply triple_step, bdata_tx; [exact I2|]. unfold used in Hu. rewrite Hu. cbn [negb].
  cbn [log_room] in Hroom. rewrite !andb_true_iff, !bool_decide_eq_true in Hroom. destruct Hroom as [[R1 R2] _].
  eapply log_tx; [done|exact I2|done|done|done|exact Hc|]. intros x3 a3 I3 _.
  eapply brelse_tx; [exact I3|]. intros x4 a4 I4 _. by eapply Hq.
Qed.

(** What the two do to the bitmap and to the other blocks. *)
Lemma used_insert sb dk f d i :
  0 <= i -> 0 <= f -> length (dk (BBLOCK f (sb_ninodes sb))) = Z.to_nat BSIZE ->
  (forall j, 0 <= j -> bit d j = if f mod BPB =? j then bit d (f mod BPB) else bit (dk (BBLOCK f (sb_ninodes sb))) j) ->
  used sb (<[BBLOCK f (sb_ninodes sb) := d]> dk) i = if f =? i then bit d (f mod BPB) else used sb dk i.
Proof.
  intros Hi Hf Hl Hd. unfold used. pose proof (block_split i Hi). pose proof (block_split f Hf).
  destruct (decide (BBLOCK f (sb_ninodes sb) = BBLOCK i (sb_ninodes sb))) as [E|E].
  - rewrite <- E, fn_lookup_insert, Hd by lia. unfold BBLOCK in E.
    destruct (Z.eqb_spec (f mod BPB) (i mod BPB)) as [E'|E'], (Z.eqb_spec f i) as [->|]; try done; exfalso; lia.
  - rewrite fn_lookup_insert_ne by done. destruct (Z.eqb_spec f i) as [->|]; done.
Qed.

Lemma mod_in_block sb dk f :
  bitmap_ok sb dk -> 0 <= f < sb_size sb -> 0 <= f mod BPB < 8 * Z.of_nat (length (dk (BBLOCK f (sb_ninodes sb)))).
Proof.
  intros Hm Hf. rewrite (proj2 (bm_blocks _ _ Hm f Hf)). pose proof (block_split f ltac:(lia)).
  unfold BPB, BSIZE in *. lia.
Qed.

Lemma used_ballocated sb dk f i :
  bitmap_ok sb dk -> 0 <= f < sb_size sb -> freeable sb f -> 0 <= i < sb_size sb ->
  used sb (ballocated sb f dk) i = (f =? i) || used sb dk i.
Proof.
  intros Hm Hf [_ Hd] Hi. pose proof (mod_in_block _ _ _ Hm Hf). unfold ballocated.
  assert (E : used sb (<[f := replicate (Z.to_nat BSIZE) 0]> (<[BBLOCK f (sb_ninodes sb) := set_bit (dk (BBLOCK f (sb_ninodes sb))) (f mod BPB)]> dk)) i =
    used sb (<[BBLOCK f (sb_ninodes sb) := set_bit (dk (BBLOCK f (sb_ninodes sb))) (f mod BPB)]> dk) i).
  { unfold used. rewrite fn_lookup_insert_ne; [done|]. by apply Hd. }
  rewrite E, used_insert; [|lia|lia|by apply (bm_blocks _ _ Hm)|].
  - destruct (f =? i); [|done]. by rewrite bit_set, Z.eqb_refl by lia.
  - intros j Hj. rewrite !bit_set by lia. rewrite Z.eqb_refl. by destruct (f mod BPB =? j).
Qed.

Lemma used_bfreed sb dk f i :
  bitmap_ok sb dk -> 0 <= f < sb_size sb -> 0 <= i < sb_size sb ->
  used sb (bfreed sb f dk) i = negb (f =? i) && used sb dk i.
Proof.
  intros Hm Hf Hi. pose proof (mod_in_block _ _ _ Hm Hf). unfold bfreed.
  rewrite used_insert; [|lia|lia|by apply (bm_blocks _ _ Hm)|].
  - destruct (f =? i); [|done]. by rewrite bit_clear, Z.eqb_refl by lia.
  - intros j Hj. rewrite !bit_clear by lia. rewrite Z.eqb_refl. by destruct (f mod BPB =? j).
Qed.

(** The file system stays in order when only blocks that may be free change, and
    bitmap blocks keep their size. *)
Lemma bitmap_ok_change sb dk dk' f :
  geometry -> 0 < lsize -> bitmap_ok sb dk -> 0 <= f < sb_size sb -> freeable sb f ->
  (forall t, t <> f -> t <> BBLOCK f (sb_ninodes sb) -> dk' t = dk t) ->
  length (dk' (BBLOCK f (sb_ninodes sb))) = length (dk (BBLOCK f (sb_ninodes sb))) -> bitmap_ok sb dk'.
Proof.
  intros [G1 G2 G3] Hlz Hm Hf [[Hd1 Hd2] Hd3] Ht Hl. pose proof (bm_blocks _ _ Hm f Hf) as [[Hb1 Hb2] Hb3]. split.
  - rewrite Ht by lia. apply Hm.
  - intros i Hi. pose proof (bm_blocks _ _ Hm i Hi) as [Hi1 Hi2]. split; [done|].
    destruct (decide (BBLOCK i (sb_ninodes sb) = BBLOCK f (sb_ninodes sb))) as [->|Hne]; [by rewrite Hl|].
    rewrite Ht; [done|by intros E; apply (Hd3 i Hi)|done].
Qed.
End Blocks.

Section Theorems.
Context `{D : Disk} {dsize : Z} `{!DiskLaws dsize}.
Variables start lsize : Z.

Notation geometry := (geometry (dsize := dsize) start lsize).
Notation recovers_to := (recovers_to (dsize := dsize) start lsize).
Notation intx := (holding (dsize := dsize) start lsize ∅).
Notation bitmap_ok := (bitmap_ok (dsize := dsize) start lsize).
Notation freeable := (freeable (dsize := dsize) start lsize).

(** C5: The block allocator keeps the set of blocks in use.  In a transaction with
    room in the log, [balloc] returns the first block that is not in use, which (a
    data block) is then in use and full of zeros, and changes nothing else of the file
    system; [bfree] of a block in use takes exactly that block out of the set.
    Neither sleeps for ever, and a power failure at any moment leaves a disk that
    recovers to the state before the transaction. *)
Theorem block_allocator s a secs old new sb f :
  geometry -> sys [] s -> intx (fs s) a secs old new -> bitmap_ok sb new -> 0 <= f < sb_size sb ->
  let before_tx := fun s' => recovers_to (disk (fs s') 1) old in
  (freeable sb f -> used sb new f = false -> (forall i, 0 <= i < f -> used sb new i = true) ->
   log_room lsize secs [BBLOCK f (sb_ninodes sb); f] = true ->
   wp before_tx (balloc 1 s) (fun r s' => r = f /\ sys [] s' /\
     exists a' secs' new', intx (fs s') a' secs' old new' /\ bitmap_ok sb new' /\
       new' f = replicate (Z.to_nat BSIZE) 0 /\
       (forall i, 0 <= i < sb_size sb -> used sb new' i = (f =? i) || used sb new i) /\
       forall t, t <> f -> t <> BBLOCK f (sb_ninodes sb) -> new' t = new t)) /\
  (used sb new f = true -> freeable sb f -> log_room lsize secs [BBLOCK f (sb_ninodes sb)] = true ->
   wp before_tx (bfree 1 f s) (fun _ s' => sys [] s' /\
     exists a' secs' new', intx (fs s') a' secs' old new' /\ bitmap_ok sb new' /\
       (forall i, 0 <= i < sb_size sb -> used sb new' i = negb (f =? i) && used sb new i) /\
       forall t, t <> BBLOCK f (sb_ninodes sb) -> new' t = new t)).
Proof.
  intros G Hs I Hm Hf before_tx.
  assert (Hlz : 0 < lsize) by (pose proof (so_len _ _ _ _ (it_secs _ _ _ _ _ _ _ _ I)); lia). split.
  - intros Hd Hu Hall Hroom.
    eapply wp_mono; [|by intros s' Hs'; exact Hs'|].
    + eapply (balloc_tx (c := fun x => recovers_to (disk x 1) old) start lsize f sb secs (fs s) a old new
        (fun r x => r = f /\ exists a' secs', intx x a' secs' old (ballocated sb f new))); eauto; apply Hd.
    + intros r s' (Hs' & _ & -> & a' & secs' & I'). split_and!; [done|done|].
      assert (Ht : forall t, t <> f -> t <> BBLOCK f (sb_ninodes sb) -> ballocated sb f new t = new t)
        by (intros t T1 T2; unfold ballocated; by rewrite !fn_lookup_insert_ne).
      exists a', secs', (ballocated sb f new). split_and!; [done| | | |exact Ht].
      * apply (bitmap_ok_change start lsize sb new _ f G Hlz Hm Hf Hd Ht).
        unfold ballocated. rewrite fn_lookup_insert_ne by (by apply Hd). rewrite fn_lookup_insert. apply length_set_byte.
      * unfold ballocated. by rewrite fn_lookup_insert.
      * intros i Hi. by apply (used_ballocated (dsize := dsize) start lsize).
  - intros Hu Hd Hroom. eapply wp_mono; [|by intros s' Hs'; exact Hs'|].
    + eapply (bfree_tx (c := fun x => recovers_to (disk x 1) old) start lsize f sb secs (fs s) a old new
        (fun _ x => exists a' secs', intx x a' secs' old (bfreed sb f new))); eauto.
    + intros [] s' (Hs' & _ & a' & secs' & I'). split; [done|].
      assert (Ht : forall t, t <> BBLOCK f (sb_ninodes sb) -> bfreed sb f new t = new t)
        by (intros t T; unfold bfreed; by rewrite fn_lookup_insert_ne).
      exists a', secs', (bfreed sb f new). split_and!; [done| | |exact Ht].
      * apply (bitmap_ok_change start lsize sb new _ f G Hlz Hm Hf Hd); [by intros; apply Ht|].
        unfold bfreed. rewrite fn_lookup_insert. apply length_set_byte.
      * intros i Hi. by apply (used_bfreed (dsize := dsize) start lsize).
Qed.
End Theorems.

(** A disk of 100 blocks whose blocks 0 to 3 and the log are in use. *)
Definition demo_bitmap : list Z := <[12%nat := 0x0f]> (<[11%nat := 0xfc]> (<[0%nat := 0x0f]> (replicate 512 0))).
Definition demo_blocks : Z -> list Z := <[3 := demo_bitmap]> (demo_disk 1).
Definition demo_bits : kst := set_fs (set_disk (<[1 := demo_blocks]> demo_disk) (fs demo)) demo.
Definition demo_super : superblock := sb_of demo_sb.

Lemma demo_bitmap_ok : bitmap_ok (dsize := 100) 90 10 demo_super demo_blocks.
Proof.
  assert (Hsz : sb_size demo_super = 100) by by vm_compute.
  assert (Hbm : forall i, 0 <= i < 100 -> BBLOCK i (sb_ninodes demo_super) = 3).
  { intros i Hi. unfold BBLOCK. rewrite Z.div_small by (unfold BPB, BSIZE; lia). by vm_compute. }
  split; rewrite ?Hsz; [by vm_compute|]. intros i Hi. rewrite Hbm by done.
  split; [|by vm_compute]. split; [lia|unfold inlog; lia].
Qed.

Lemma demo_bits_up :
  wp (fun _ => True) (boot (H := CrashDisk 100) demo_bits) (fun _ s' => up (dsize := 100) 90 10 demo_blocks s').
Proof.
  assert (H : comes_back (D := CrashDisk 100) (dsize := 100) 90 10 0 demo_blocks demo_blocks).
  { apply recovers_comes_back; [apply demo_geometry|lia|split; vm_compute; reflexivity|].
    apply (recovers_clear (D := CrashDisk 100)); [reflexivity|unfold LOGSIZE; simpl; lia|lia|done]. }
  apply (H demo_bits (sys_set_fs _ _ _ demo_sys)); [|done]. split; [reflexivity|apply flags_fsst0|reflexivity|reflexivity].
Qed.

Lemma block_allocator_witness :
  wp (fun _ => True) (bind (boot (H := CrashDisk 100)) (fun _ => bind (begin_trans (H := CrashDisk 100)) (fun _ => balloc (H := CrashDisk 100) 1)) demo_bits)
    (fun r _ => r = 4).
Proof.
  apply wp_bind. eapply wp_mono; [exact demo_bits_up|done|]. intros [] s1 (Hs1 & I1 & Z1 & _).
  apply wp_bind. eapply wp_mono.
  - eapply (begin_trans_triple (D := CrashDisk 100) (dsize := 100) (c := fun _ => True) 90 10 (fs s1) demo_blocks
      (fun _ x => exists a, holding (dsize := 100) 90 10 ∅ x a [] demo_blocks demo_blocks)); [exact I1|exact Z1|lia|eauto|exact Hs1|done].
  - done.
  - intros [] s2 (Hs2 & _ & a & I2).
    eapply wp_mono; [|by intros s' _|].
    + apply (block_allocator (D := CrashDisk 100) 90 10 s2 a [] demo_blocks demo_blocks demo_super 4 demo_geometry Hs2 I2 demo_bitmap_ok);
        [by vm_compute| |by vm_compute| |by vm_compute].
      { split; [split; [lia|unfold inlog; lia]|]. intros j Hj. change (sb_size demo_super) with 100 in Hj.
        unfold BBLOCK. rewrite Z.div_small by (unfold BPB, BSIZE; lia). by vm_compute. }
      intros i Hi. assert (i = 0 \/ i = 1 \/ i = 2 \/ i = 3) as [->|[->|[->| ->]]] by lia; by vm_compute.
    + by intros r s' [-> _].
Defined.
