(* ===== verification/Inode.v ===== *)
(** * Files on the disk

    The layout of a file of [fs.c]: the block numbers of its inode and of its
    indirect block (the [slot]s), its bytes, and a whole disk of files that do
    not share blocks ([fsys]).  [attach] gives a file one more block and [patch]
    changes the bytes of a block: [writei] does nothing else to a disk, and both
    keep the disk in order. *)

From stdpp Require Import base list numbers strings tactics gmap functions.
From Stdlib Require Import Lia.
From S2P Require Import Prelude Params StringC FsState KState Runs Bio BioSpec BioThm Log LogSpec LogThm Fs BlockThm.

Local Open Scope Z_scope.

(** ** The blocks of a file *)

Definition addr_at (i : inode) (k : Z) : Z := default 0 (i_addrs i !! Z.to_nat k).

(** The block numbers of a file: first those of the inode, the one of the indirect
    block among them, then those of the indirect block. *)
Definition slot (dk : Z -> list Z) (i : inode) (k : Z) : Z :=
  if k <=? NDIRECT then addr_at i k
  else if addr_at i NDIRECT =? 0 then 0
  else rd32 (dk (addr_at i NDIRECT)) (4 * (k - (NDIRECT + 1))).

Definition NSLOT : Z := MAXFILE + 1.

(** The slot of block [bn] of the data. *)
Definition idx (bn : Z) : Z := if bn <? NDIRECT then bn else bn + 1.

Definition fbyte (dk : Z -> list Z) (i : inode) (o : Z) : Z :=
  byte_at (dk (slot dk i (idx (o / BSIZE)))) (o mod BSIZE).

Definition content (dk : Z -> list Z) (i : inode) : list Z := fbyte dk i <$> seqZ 0 (i_size i).

(** The inode on the disk, as [ilock] reads it. *)
Definition dinode (dk : Z -> list Z) (inum : Z) : inode :=
  get_dinode (dk (IBLOCK inum)) (dinode_at inum) (mkinode 1 inum 0 0 0 0 0 0 0 []).

Lemma idx_range bn : 0 <= bn < MAXFILE -> 0 <= idx bn < NSLOT /\ idx bn <> NDIRECT.
Proof. unfold idx, NSLOT, NDIRECT. intros. destruct (Z.ltb_spec bn 12); lia. Qed.

Lemma idx_inj bn bn' : idx bn = idx bn' -> bn = bn'.
Proof. unfold idx, NDIRECT. destruct (Z.ltb_spec bn 12), (Z.ltb_spec bn' 12); lia. Qed.

Lemma slot_ind dk i : slot dk i NDIRECT = addr_at i NDIRECT.
Proof. done. Qed.

Section Files.
Context {dsize : Z}.
Variables start lsize : Z.

Notation data_sector := (data_sector (dsize := dsize) start lsize).
Notation bitmap_ok := (bitmap_ok (dsize := dsize) start lsize).
Notation freeable := (freeable (dsize := dsize) start lsize).
Notation geometry := (geometry (dsize := dsize) start lsize).

(** The bitmap block (there is one). *)
Definition bmb (sb : superblock) : Z := BBLOCK 0 (sb_ninodes sb).

(** Blocks are handed out from the start of the disk; the log is at its end, and
    its blocks may be free in the bitmap. *)
Definition data_end (sb : superblock) : Z := sb_size sb - sb_nlog sb.

Definition data_area (sb : superblock) (b : Z) : Prop := bmb sb < b < sb_size sb /\ data_sector b.

(** A disk with the metadata in place. *)
Record disk_ok (sb : superblock) (dk : Z -> list Z) : Prop := mkdisk_ok {
  do_bm : bitmap_ok sb dk;
  do_size : 0 < sb_size sb <= BPB;
  do_nlog : 0 <= sb_nlog sb;
  do_inodes : forall inum, 0 <= inum < sb_ninodes sb -> data_sector (IBLOCK inum);
  do_len : forall s, data_sector s -> length (dk s) = Z.to_nat BSIZE;
  do_free : forall b, 0 <= b < data_end sb -> used sb dk b = false -> data_area sb b
}.

(** A file whose blocks are its own, at least as many as its size needs. *)
Record inode_ok (sb : superblock) (dk : Z -> list Z) (i : inode) : Prop := mkinode_ok {
  fo_addrs : length (i_addrs i) = 13%nat;
  fo_size : 0 <= i_size i <= MAXFILE * BSIZE;
  fo_blocks : forall k, 0 <= k < NSLOT -> slot dk i k <> 0 ->
    data_area sb (slot dk i k) /\ used sb dk (slot dk i k) = true;
  fo_inj : forall k k', 0 <= k < NSLOT -> 0 <= k' < NSLOT -> slot dk i k <> 0 -> slot dk i k = slot dk i k' -> k = k';
  fo_full : forall bn, 0 <= bn -> bn * BSIZE < i_size i -> slot dk i (idx bn) <> 0
}.

(** A disk of files: no block belongs to two of them. *)
Record fsys (sb : superblock) (dk : Z -> list Z) : Prop := mkfsys {
  fy_disk : disk_ok sb dk;
  fy_files : forall inum, 0 < inum < sb_ninodes sb -> inode_ok sb dk (dinode dk inum);
  fy_disjoint : forall inum inum' k k', 0 < inum < sb_ninodes sb -> 0 < inum' < sb_ninodes sb -> inum <> inum' ->
    0 <= k < NSLOT -> 0 <= k' < NSLOT -> slot dk (dinode dk inum) k <> 0 ->
    slot dk (dinode dk inum) k <> slot dk (dinode dk inum') k'
}.

Lemma bmb_eq sb dk b : disk_ok sb dk -> 0 <= b < sb_size sb -> BBLOCK b (sb_ninodes sb) = bmb sb.
Proof.
  intros D Hb. pose proof (do_size _ _ D). unfold bmb, BBLOCK. by rewrite (Z.div_small b BPB) by lia.
Qed.

Lemma data_end_size sb dk b : disk_ok sb dk -> b < data_end sb -> b < sb_size sb.
Proof. intros D. pose proof (do_nlog _ _ D). unfold data_end. lia. Qed.

Lemma bmb_sector sb dk : disk_ok sb dk -> data_sector (bmb sb).
Proof. intros D. apply (bm_blocks _ _ _ _ (do_bm _ _ D)). pose proof (do_size _ _ D). lia. Qed.

Lemma data_freeable sb dk b : disk_ok sb dk -> data_area sb b -> freeable sb b.
Proof. intros D [Hb Hs]. split; [done|]. intros j Hj. rewrite (bmb_eq sb dk) by done. lia. Qed.

Lemma IBLOCK_lt sb inum : 0 <= inum < sb_ninodes sb -> IBLOCK inum < bmb sb.
Proof.
  intros H. unfold bmb, BBLOCK, IBLOCK. assert (inum / IPB <= sb_ninodes sb / IPB) by (apply Z.div_le_mono; [done|lia]).
  rewrite (Z.div_0_l BPB) by done. lia.
Qed.

(** The blocks of a file are neither free nor metadata. *)
Lemma slot_data sb dk i k :
  disk_ok sb dk -> inode_ok sb dk i -> 0 <= k < NSLOT -> slot dk i k <> 0 ->
  0 < slot dk i k < sb_size sb /\ data_sector (slot dk i k) /\ slot dk i k <> bmb sb /\ length (dk (slot dk i k)) = Z.to_nat BSIZE.
Proof.
  intros D F Hk Hs. destruct (fo_blocks _ _ _ F k Hk Hs) as [[H1 H2] _].
  pose proof (do_len _ _ D _ H2). destruct H2 as [H2 H3]. split_and!; try done; lia.
Qed.
End Files.

(** ** Adding a block *)

(** Block [f] becomes slot [k] of the file. *)
Definition attach (sb : superblock) (f k : Z) (dk : Z -> list Z) (i : inode) : (Z -> list Z) * inode :=
  let dk := ballocated sb f dk in
  if k <=? NDIRECT then (dk, set_i_addrs (aset (i_addrs i) k f) i)
  else let ind := addr_at i NDIRECT in (<[ind := wr32 (dk ind) (4 * (k - (NDIRECT + 1))) f]> dk, i).

(** The number of free blocks before the log. *)
Definition nfree (sb : superblock) (dk : Z -> list Z) : nat :=
  length (filter (fun b => used sb dk b = false) (seqZ 0 (data_end sb))).

Lemma filter_ext_in {A} (P Q : A -> Prop) `{!forall x, Decision (P x)} `{!forall x, Decision (Q x)} (l : list A) :
  (forall x, x ∈ l -> P x <-> Q x) -> filter P l = filter Q l.
Proof.
  induction l as [|x l IH]; intros HPQ; [done|]. rewrite !filter_cons. rewrite IH by set_solver.
  apply decide_ext, HPQ. set_solver.
Qed.

Lemma nfree_ext sb dk dk' : (forall b, 0 <= b < data_end sb -> used sb dk' b = used sb dk b) -> nfree sb dk' = nfree sb dk.
Proof. intros H. unfold nfree. f_equal. apply filter_ext_in. intros b Hb%elem_of_seqZ. rewrite H by lia. done. Qed.

(** As long as a block is free, there is a first one. *)
Lemma first_free sb dk :
  (0 < nfree sb dk)%nat -> exists f, 0 <= f < data_end sb /\ used sb dk f = false /\ forall b, 0 <= b < f -> used sb dk b = true.
Proof.
  intros Hn. assert (exists b, 0 <= b < data_end sb /\ used sb dk b = false) as (b & Hb & Hu).
  { unfold nfree in Hn. destruct (filter _ _) as [|b l] eqn:E; [simpl in Hn; lia|].
    assert (b ∈ filter (fun b => used sb dk b = false) (seqZ 0 (data_end sb))) as [H1 H2%elem_of_seqZ]%list_elem_of_filter
      by (rewrite E; set_solver). exists b. split; [lia|done]. }
  revert b Hb Hu. refine (well_founded_ind (Z.lt_wf 0) _ _). intros b IH Hb Hu.
  destruct (decide (Exists (fun c => used sb dk c = false) (seqZ 0 b))) as [(c & Hc%elem_of_seqZ & Hu')%list.Exists_exists|Hno].
  - apply (IH c); [lia|lia|done].
  - exists b. split_and!; [lia|lia|done|]. intros c Hc. apply not_false_iff_true. intros Hu'.
    apply Hno, list.Exists_exists. exists c. split; [apply elem_of_seqZ; lia|done].
Qed.

Lemma addr_at_set i k k' f :
  0 <= k < Z.of_nat (length (i_addrs i)) -> 0 <= k' ->
  addr_at (set_i_addrs (aset (i_addrs i) k f) i) k' = if decide (k = k') then f else addr_at i k'.
Proof.
  intros Hk Hk'. unfold addr_at. simpl. unfold aset. rewrite (proj2 (Z.leb_le 0 k)) by lia. case_decide as E.
  - subst. by rewrite list_lookup_insert_eq by lia.
  - by rewrite list_lookup_insert_ne by lia.
Qed.

Section Attach.
Context {dsize : Z}.
Variables start lsize : Z.

Notation data_sector := (data_sector (dsize := dsize) start lsize).
Notation bitmap_ok := (bitmap_ok (dsize := dsize) start lsize).
Notation geometry := (geometry (dsize := dsize) start lsize).
Notation data_area := (data_area (dsize := dsize) start lsize).
Notation disk_ok := (disk_ok (dsize := dsize) start lsize).
Notation inode_ok := (inode_ok (dsize := dsize) start lsize).

(** The file [i] of the disk [dk] has become [i'] on [dk'], and nothing else has
    changed: it keeps its blocks, and those it has got were free. *)
Record grown (sb : superblock) (dk : Z -> list Z) (i : inode) (dk' : Z -> list Z) (i' : inode) : Prop := mkgrown {
  gr_fields : i' = set_i_addrs (i_addrs i') i;
  gr_used : forall b, 0 <= b < sb_size sb -> used sb dk b = true -> used sb dk' b = true;
  gr_slots : forall k, 0 <= k < NSLOT -> slot dk i k <> 0 -> slot dk' i' k = slot dk i k;
  gr_fresh : forall k, 0 <= k < NSLOT -> slot dk' i' k <> 0 ->
    slot dk' i' k = slot dk i k \/ 0 <= slot dk' i' k < sb_size sb /\ used sb dk (slot dk' i' k) = false;
  gr_other : forall t, t <> bmb sb -> (forall k, 0 <= k < NSLOT -> slot dk' i' k <> 0 -> slot dk' i' k <> t) -> dk' t = dk t
}.

Lemma grown_refl sb dk i : grown sb dk i dk i.
Proof. split; try done; [by destruct i|]. intros k _ _. by left. Qed.

Lemma grown_trans sb dk i dk1 i1 dk2 i2 :
  grown sb dk i dk1 i1 -> grown sb dk1 i1 dk2 i2 -> grown sb dk i dk2 i2.
Proof.
  intros [A1 A2 A3 A4 A5] [B1 B2 B3 B4 B5]. split.
  - rewrite B1, A1. by destruct i.
  - auto.
  - intros k Hk Hs. rewrite B3; [by apply A3|done|]. by rewrite A3.
  - intros k Hk Hs. destruct (B4 k Hk Hs) as [E|[Hr Hf]].
    + rewrite E in *. by apply A4.
    + right. split; [done|]. destruct (used sb dk (slot dk2 i2 k)) eqn:Hu; [|done]. rewrite <- Hf. symmetry. by apply A2.
  - intros t Ht Hn. rewrite B5 by done. apply A5; [done|]. intros k Hk Hz E.
    apply (Hn k Hk); rewrite B3; done.
Qed.

(** *** The block is free and the slot is empty *)

Section Step.
Context (sb : superblock) (dk : Z -> list Z) (i : inode) (f k : Z).
Hypothesis G : geometry.
Hypothesis D : disk_ok sb dk.
Hypothesis F : inode_ok sb dk i.
Hypothesis Hf : 0 <= f < sb_size sb.
Hypothesis Hf0 : f < data_end sb.
Hypothesis Hu : used sb dk f = false.
Hypothesis Hk : 0 <= k < NSLOT.
Hypothesis Hz : slot dk i k = 0.
Hypothesis Hi : NDIRECT < k -> addr_at i NDIRECT <> 0.

Notation dk1 := (ballocated sb f dk).
Notation dk' := (fst (attach sb f k dk i)).
Notation i' := (snd (attach sb f k dk i)).

Lemma attach_data : data_area sb f.
Proof. apply (do_free _ _ _ _ D); [lia|done]. Qed.

Lemma used_ne b : used sb dk b = true -> b <> f.
Proof. intros H ->. congruence. Qed.

Lemma ballocated_other b : b <> f -> b <> bmb sb -> dk1 b = dk b.
Proof.
  intros H1 H2. unfold ballocated. rewrite (bmb_eq _ _ _ _ _ D) by done. by rewrite !fn_lookup_insert_ne.
Qed.

Lemma slot_old k' : 0 <= k' < NSLOT -> slot dk i k' <> 0 -> slot dk i k' <> f /\ slot dk i k' <> bmb sb /\ dk1 (slot dk i k') = dk (slot dk i k').
Proof.
  intros Hk' Hs. destruct (fo_blocks _ _ _ _ _ F _ Hk' Hs) as [[Hb _] Hused].
  assert (slot dk i k' <> f) by by apply used_ne. split_and!; [done|lia|]. apply ballocated_other; [done|lia].
Qed.

Lemma ind_old : addr_at i NDIRECT <> 0 -> addr_at i NDIRECT <> f /\ addr_at i NDIRECT <> bmb sb /\ dk1 (addr_at i NDIRECT) = dk (addr_at i NDIRECT).
Proof. rewrite <- (slot_ind dk). apply slot_old. unfold NSLOT, NDIRECT. by vm_compute. Qed.

Lemma f_pos : 0 < f < sb_size sb /\ sb_size sb <= 4096 /\ f <> bmb sb.
Proof.
  pose proof (do_size _ _ _ _ D) as H. destruct attach_data as [Hb [Hs _]]. unfold BPB, BSIZE in H. lia.
Qed.

Lemma attach_slot k' : 0 <= k' < NSLOT -> slot dk' i' k' = if decide (k = k') then f else slot dk i k'.
Proof.
  intros Hk'. pose proof f_pos as Hp. pose proof (fo_addrs _ _ _ _ _ F) as Hl. unfold NSLOT, NDIRECT in *. unfold attach.
  destruct (Z.leb_spec k NDIRECT) as [Hd|Hd]; unfold NDIRECT in Hd; simpl.
  - unfold slot at 1, NDIRECT. rewrite !addr_at_set by lia. destruct (Z.leb_spec k' 12) as [Hd'|Hd'].
    { case_decide; [done|]. unfold slot, NDIRECT. by rewrite (proj2 (Z.leb_le _ _)) by lia. }
    rewrite (decide_False (P := k = k')) by lia. unfold slot, NDIRECT. rewrite (proj2 (Z.leb_gt k' 12)) by lia.
    case_decide as E; [subst k|].
    + unfold slot, NDIRECT in Hz. rewrite (proj2 (Z.leb_le 12 12)) in Hz by lia. rewrite Hz, Z.eqb_refl.
      rewrite (proj2 (Z.eqb_neq f 0)) by lia. unfold ballocated. rewrite fn_lookup_insert.
      unfold rd32, byte_at, BSIZE. rewrite !lookup_replicate_2 by (change MAXFILE with 140 in *; lia). done.
    + destruct (Z.eqb_spec (addr_at i 12) 0) as [|Hn]; [done|]. destruct (ind_old Hn) as (_ & _ & E3). unfold NDIRECT in E3. by rewrite E3.
  - specialize (Hi Hd). destruct (ind_old Hi) as (I1 & I2 & I3). unfold NDIRECT in *.
    assert (Hlen : length (dk (addr_at i 12)) = 512%nat).
    { change 512%nat with (Z.to_nat BSIZE). rewrite <- (slot_ind dk). eapply slot_data; [done|done| |done].
      unfold NSLOT, NDIRECT. by vm_compute. }
    unfold slot, NDIRECT. destruct (Z.leb_spec k' 12) as [Hd'|Hd']; [by rewrite decide_False by lia|].
    rewrite (proj2 (Z.eqb_neq (addr_at i 12) 0)) by done. rewrite fn_lookup_insert, I3. change MAXFILE with 140 in *. case_decide as E.
    + subst k'. rewrite rd32_wr32 by (rewrite ?Hlen; lia). apply u32_small. unfold is_u32. lia.
    + apply rd32_wr32_ne; rewrite ?Hlen; lia.
Qed.

Lemma attach_other t : t <> bmb sb -> t <> f -> (NDIRECT < k -> t <> addr_at i NDIRECT) -> dk' t = dk t.
Proof.
  intros H1 H2 H3. unfold attach. destruct (Z.leb_spec k NDIRECT); simpl; [by apply ballocated_other|].
  rewrite fn_lookup_insert_ne by (symmetry; auto). by apply ballocated_other.
Qed.

Lemma attach_bitmap : dk' (bmb sb) = set_bit (dk (bmb sb)) (f mod BPB).
Proof.
  assert (E : dk1 (bmb sb) = set_bit (dk (bmb sb)) (f mod BPB)).
  { unfold ballocated. rewrite (bmb_eq _ _ _ _ _ D) by done. pose proof f_pos.
    rewrite fn_lookup_insert_ne by lia. apply fn_lookup_insert. }
  unfold attach. destruct (Z.leb_spec k NDIRECT) as [|Hd]; simpl; [done|].
  rewrite fn_lookup_insert_ne; [done|]. by apply ind_old, Hi.
Qed.

Lemma attach_used b : 0 <= b < sb_size sb -> used sb dk' b = (f =? b) || used sb dk b.
Proof.
  intros Hb. rewrite <- (used_ballocated (dsize := dsize) start lsize sb dk f b); [|apply D|done|by eapply data_freeable, attach_data|done].
  unfold used. rewrite (bmb_eq _ _ _ _ _ D), attach_bitmap by done. unfold ballocated.
  rewrite (bmb_eq _ _ _ _ _ D) by done. pose proof f_pos. rewrite fn_lookup_insert_ne by lia. by rewrite fn_lookup_insert.
Qed.

Lemma attach_len s : data_sector s -> length (dk' s) = length (dk s).
Proof.
  intros Hs. assert (E : length (dk1 s) = length (dk s)).
  { unfold ballocated. rewrite (bmb_eq _ _ _ _ _ D) by done. destruct (decide (f = s)) as [->|].
    - rewrite fn_lookup_insert, length_replicate. symmetry. by apply (do_len _ _ _ _ D).
    - rewrite fn_lookup_insert_ne by done. destruct (decide (bmb sb = s)) as [->|]; [|by rewrite fn_lookup_insert_ne].
      rewrite fn_lookup_insert. apply length_set_byte. }
  unfold attach. destruct (Z.leb_spec k NDIRECT) as [|Hd]; simpl; [done|].
  destruct (decide (addr_at i NDIRECT = s)) as [->|]; [|by rewrite fn_lookup_insert_ne].
  by rewrite fn_lookup_insert, length_wr32.
Qed.

(** It keeps the disk in order. *)
Lemma attach_disk_ok : disk_ok sb dk'.
Proof.
  pose proof D as [Hbm Hsz Hnl Hin Hlen Hfree]. pose proof (bmb_sector _ _ _ _ D) as Hs.
  split; [|done|done|done| |].
  - destruct Hbm as [B1 B2]. split.
    + rewrite attach_other; [done|destruct Hs; lia|pose proof attach_data as [_ [? _]]; lia|].
      intros Hd E. pose proof (Hi Hd) as Hi'. rewrite <- (slot_ind dk) in *.
      destruct (slot_data _ _ _ _ _ _ D F (ltac:(by vm_compute) : 0 <= NDIRECT < NSLOT) Hi') as (_ & [? _] & _). lia.
    + intros b Hb. rewrite (bmb_eq _ _ _ _ _ D), attach_len by done. split; [done|]. by apply Hlen.
  - intros s Hd. rewrite attach_len by done. by apply Hlen.
  - intros b Hb. rewrite attach_used by (pose proof (data_end_size _ _ _ _ b D); lia). intros [_ H]%orb_false_iff. by apply Hfree.
Qed.

Lemma attach_inode_ok : inode_ok sb dk' i'.
Proof.
  pose proof F as [F1 F2 F3 F4 F5].
  assert (Ef : i_size i' = i_size i /\ length (i_addrs i') = 13%nat).
  { unfold attach. destruct (k <=? NDIRECT); simpl; [by rewrite length_aset|done]. }
  destruct Ef as [Es El]. split; [done|by rewrite Es| | |].
  - intros k' Hk'. rewrite attach_slot by done. case_decide; intros Hs.
    + split; [apply attach_data|]. by rewrite attach_used, Z.eqb_refl by done.
    + destruct (F3 k' Hk' Hs) as [Hd Hus]. split; [done|].
      rewrite attach_used, Hus, orb_true_r; [done|]. destruct (slot_data _ _ _ _ _ _ D F Hk' Hs). lia.
  - intros k1 k2 H1 H2. rewrite !attach_slot by done. repeat case_decide; subst; try done.
    + intros _ E. destruct (decide (slot dk i k2 = 0)); [pose proof f_pos; lia|]. by destruct (proj1 (slot_old _ H2 n)).
    + intros Hn E. by destruct (proj1 (slot_old _ H1 Hn)).
    + by apply F4.
  - intros bn Hb Hlt. rewrite Es in Hlt. rewrite attach_slot by (apply idx_range; unfold BSIZE in *; lia).
    case_decide; [pose proof f_pos; lia|by apply F5].
Qed.

Lemma attach_grown : grown sb dk i dk' i'.
Proof.
  split.
  - unfold attach. destruct (k <=? NDIRECT); simpl; by destruct i.
  - intros b Hb H. by rewrite attach_used, H, orb_true_r.
  - intros k' Hk' Hs. rewrite attach_slot by done. case_decide; congruence.
  - intros k' Hk'. rewrite attach_slot by done. case_decide; [by right|by left].
  - intros t Ht Hn. apply attach_other; [done| |].
    + intros ->. apply (Hn k Hk); rewrite attach_slot, decide_True by done; [pose proof f_pos; lia|done].
    + intros Hd ->. pose proof (Hi Hd). apply (Hn NDIRECT); [by vm_compute|..]; rewrite attach_slot, decide_False by (lia || by vm_compute); done.
Qed.

(** The bytes of the file stay. *)
Lemma attach_byte o :
  0 <= o < MAXFILE * BSIZE -> slot dk i (idx (o / BSIZE)) <> 0 -> fbyte dk' i' o = fbyte dk i o.
Proof.
  intros Ho Hs. assert (Hb : 0 <= o / BSIZE < MAXFILE) by (unfold BSIZE in *; Z.div_mod_to_equations; lia).
  destruct (idx_range _ Hb) as [H1 H2]. destruct (slot_old _ H1 Hs) as (E1 & E2 & _).
  unfold fbyte. rewrite attach_slot, decide_False by congruence. rewrite attach_other; [done|done|done|].
  intros Hd E. apply H2. eapply (fo_inj _ _ _ _ _ F); [done|by vm_compute|done|done].
Qed.

Lemma attach_nfree : (nfree sb dk = S (nfree sb dk'))%nat.
Proof.
  assert (Hu' : forall b, 0 <= b < 0 + data_end sb -> used sb dk' b = (f =? b) || used sb dk b)
    by (intros b Hb; apply attach_used; pose proof (data_end_size _ _ _ _ b D); lia).
  unfold nfree. change (S (length ?l)) with (length (f :: l)). apply Permutation_length, NoDup_Permutation.
  - apply list.NoDup_filter, NoDup_seqZ.
  - apply list.NoDup_cons. split; [|apply list.NoDup_filter, NoDup_seqZ].
    rewrite list_elem_of_filter. intros [H _]. by rewrite attach_used, Z.eqb_refl in H.
  - intros b. rewrite elem_of_cons, !list_elem_of_filter, !elem_of_seqZ. split.
    + intros [H1 H2]. destruct (decide (b = f)) as [|Hne]; [by left|right]. rewrite Hu', H1 by lia.
      split; [|done]. by rewrite (proj2 (Z.eqb_neq f b)).
    + intros [->|[H1 H2]]; [split; [done|lia]|]. rewrite Hu' in H1 by lia. apply orb_false_iff in H1 as [_ H1]. done.
Qed.
End Step.

(** *** A block of data changes *)

Section Patch.
Context (sb : superblock) (dk : Z -> list Z) (i : inode) (k : Z) (d : list Z).
Hypothesis D : disk_ok sb dk.
Hypothesis F : inode_ok sb dk i.
Hypothesis Hk : 0 <= k < NSLOT.
Hypothesis Hd : k <> NDIRECT.
Hypothesis Hs : slot dk i k <> 0.
Hypothesis Hl : length d = Z.to_nat BSIZE.

Notation dk' := (<[slot dk i k := d]> dk).

Lemma patch_slot k' : slot dk' i k' = slot dk i k'.
Proof.
  unfold slot at 1 3. destruct (k' <=? NDIRECT); [done|]. destruct (Z.eqb_spec (addr_at i NDIRECT) 0) as [|Hn]; [done|].
  rewrite fn_lookup_insert_ne; [done|]. intros E. apply Hd. eapply (fo_inj _ _ _ _ _ F); [done|by vm_compute|done|done].
Qed.

Lemma patch_bmb : slot dk i k <> bmb sb.
Proof. by eapply slot_data. Qed.

Lemma patch_used b : 0 <= b < sb_size sb -> used sb dk' b = used sb dk b.
Proof.
  intros Hb. unfold used. rewrite (bmb_eq _ _ _ _ _ D) by done. rewrite fn_lookup_insert_ne; [done|]. apply patch_bmb.
Qed.

Lemma patch_len s : length (dk' s) = if decide (slot dk i k = s) then Z.to_nat BSIZE else length (dk s).
Proof. case_decide; [subst; by rewrite fn_lookup_insert|by rewrite fn_lookup_insert_ne]. Qed.

Lemma patch_disk_ok : disk_ok sb dk'.
Proof.
  pose proof D as [[B1 B2] Hsz Hnl Hin Hlen Hfree]. split; [split|done|done|done| |].
  - rewrite fn_lookup_insert_ne; [done|]. destruct (slot_data _ _ _ _ _ _ D F Hk Hs) as (_ & [? _] & _). lia.
  - intros b Hb. rewrite patch_len. case_decide; [split; [|done]|]; by apply B2.
  - intros s H. rewrite patch_len. case_decide; [done|]. by apply Hlen.
  - intros b Hb. rewrite patch_used by (pose proof (data_end_size _ _ _ _ b D); lia). by apply Hfree.
Qed.

Lemma patch_inode_ok : inode_ok sb dk' i.
Proof.
  pose proof F as [F1 F2 F3 F4 F5]. split; [done|done| | |].
  - intros k' Hk'. rewrite patch_slot. intros H. rewrite patch_used; [by apply F3|].
    destruct (slot_data _ _ _ _ _ _ D F Hk' H). lia.
  - intros k1 k2. rewrite !patch_slot. apply F4.
  - intros bn. rewrite patch_slot. apply F5.
Qed.

Lemma patch_grown : grown sb dk i dk' i.
Proof.
  split; [by destruct i| | | |].
  - intros b Hb H. by rewrite patch_used.
  - intros k' _ _. apply patch_slot.
  - intros k' _ _. left. apply patch_slot.
  - intros t Ht Hn. apply fn_lookup_insert_ne. rewrite <- patch_slot. apply (Hn k Hk). by rewrite patch_slot.
Qed.

Lemma patch_byte o :
  0 <= o < MAXFILE * BSIZE ->
  fbyte dk' i o = if decide (idx (o / BSIZE) = k) then byte_at d (o mod BSIZE) else fbyte dk i o.
Proof.
  intros Ho. assert (Hb : 0 <= o / BSIZE < MAXFILE) by (unfold BSIZE in *; Z.div_mod_to_equations; lia).
  unfold fbyte. rewrite patch_slot. case_decide as E; [by rewrite E, fn_lookup_insert|].
  rewrite fn_lookup_insert_ne; [done|]. intros E'. apply E. symmetry.
  eapply (fo_inj _ _ _ _ _ F); [done|by apply idx_range|done|done].
Qed.

Lemma patch_nfree : nfree sb dk' = nfree sb dk.
Proof. apply nfree_ext. intros b Hb. apply patch_used. pose proof (data_end_size _ _ _ _ b D). lia. Qed.
End Patch.

End Attach.

(** ** The inode on the disk *)

Lemma length_wr16 l o v : length (wr16 l o v) = length l.
Proof. unfold wr16. by rewrite !length_set_byte. Qed.

Lemma length_wr_addrs d o l : length (wr_addrs d o l) = length d.
Proof. revert d o. induction l as [|a l IH]; intros d o; simpl; [done|]. by rewrite IH, length_wr32. Qed.

Lemma length_put_dinode i d o : length (put_dinode i d o) = length d.
Proof. unfold put_dinode. by rewrite length_wr_addrs, length_wr32, !length_wr16. Qed.

Lemma byte_at_wr16 l o v x :
  0 <= o -> o + 2 <= Z.of_nat (length l) -> 0 <= x -> x < o \/ o + 2 <= x -> byte_at (wr16 l o v) x = byte_at l x.
Proof. intros. unfold wr16. rewrite !byte_at_set by (rewrite ?length_set_byte; lia). by rewrite !decide_False by lia. Qed.

Lemma byte_at_wr32 l o v x :
  0 <= o -> o + 4 <= Z.of_nat (length l) -> 0 <= x -> x < o \/ o + 4 <= x -> byte_at (wr32 l o v) x = byte_at l x.
Proof. intros. unfold wr32. rewrite !byte_at_set by (rewrite ?length_set_byte; lia). by rewrite !decide_False by lia. Qed.

Lemma byte_at_wr_addrs l : forall d o x,
  0 <= o -> o + 4 * Z.of_nat (length l) <= Z.of_nat (length d) -> 0 <= x -> x < o \/ o + 4 * Z.of_nat (length l) <= x ->
  byte_at (wr_addrs d o l) x = byte_at d x.
Proof.
  induction l as [|a l IH]; intros d o x Ho Hl Hx Hd; cbn [wr_addrs length] in *; [done|].
  rewrite IH by (rewrite ?length_wr32; lia). apply byte_at_wr32; lia.
Qed.

Lemma rd16_wr16 l o v : 0 <= o -> o + 2 <= Z.of_nat (length l) -> rd16 (wr16 l o v) o = u16 v.
Proof.
  intros. unfold rd16, wr16. rewrite !byte_at_set by (rewrite ?length_set_byte; lia).
  repeat first [rewrite decide_False by lia | rewrite decide_True by lia]. unfold u8, u16. Z.div_mod_to_equations. lia.
Qed.

Lemma rd32_wr_addrs l : forall d o j v,
  0 <= o -> o + 4 * Z.of_nat (length l) <= Z.of_nat (length d) -> l !! j = Some v ->
  rd32 (wr_addrs d o l) (o + 4 * Z.of_nat j) = u32 v.
Proof.
  induction l as [|a l IH]; intros d o j v Ho Hl Hj; cbn [wr_addrs length] in *; [done|].
  destruct j as [|j]; simpl in Hj.
  - injection Hj as ->. rewrite Z.mul_0_r, Z.add_0_r. unfold rd32. rewrite !byte_at_wr_addrs by (rewrite ?length_wr32; lia).
    fold (rd32 (wr32 d o v) o). apply rd32_wr32; lia.
  - replace (o + 4 * Z.of_nat (S j)) with (o + 4 + 4 * Z.of_nat j) by lia. apply IH; rewrite ?length_wr32; [lia|lia|done].
Qed.

Lemma rd_addrs_lookup n : forall d o j, (j < n)%nat -> rd_addrs n d o !! j = Some (rd32 d (o + 4 * Z.of_nat j)).
Proof.
  induction n as [|n IH]; intros d o j Hj; [lia|]. destruct j as [|j]; simpl; [by rewrite Z.add_0_r|].
  rewrite IH by lia. do 2 f_equal. lia.
Qed.

Lemma length_rd_addrs n d o : length (rd_addrs n d o) = n.
Proof. revert o. induction n as [|n IH]; intros o; simpl; [done|]. by rewrite IH. Qed.

(** The fields of an inode in their ranges. *)
Definition is_s16 (z : Z) : Prop := - 2 ^ 15 <= z < 2 ^ 15.

Lemma s16_range z : is_s16 (s16 z).
Proof. unfold is_s16, s16. pose proof (Z.mod_pos_bound (z + 2 ^ 15) (2 ^ 16) ltac:(lia)). lia. Qed.

Lemma s16_u16 z : is_s16 z -> s16 (u16 z) = z.
Proof. unfold is_s16, s16, u16. intros H. Z.div_mod_to_equations. lia. Qed.

Record fields_ok (i : inode) : Prop := mkfields_ok {
  fl_type : is_s16 (i_type i);
  fl_major : is_s16 (i_major i);
  fl_minor : is_s16 (i_minor i);
  fl_nlink : is_s16 (i_nlink i);
  fl_size : is_u32 (i_size i);
  fl_len : length (i_addrs i) = 13%nat;
  fl_addrs : Forall is_u32 (i_addrs i)
}.

Lemma rd16_ext l l' o : (forall x, o <= x < o + 2 -> byte_at l x = byte_at l' x) -> rd16 l o = rd16 l' o.
Proof. intros E. unfold rd16. by rewrite !E by lia. Qed.

Lemma rd32_ext l l' o : (forall x, o <= x < o + 4 -> byte_at l x = byte_at l' x) -> rd32 l o = rd32 l' o.
Proof. intros E. unfold rd32. by rewrite !E by lia. Qed.

(** Bytes that the writes before have not changed. *)
Ltac peel :=
  repeat first
    [ rewrite byte_at_wr_addrs by (rewrite ?length_wr32, ?length_wr16; lia)
    | rewrite byte_at_wr32 by (rewrite ?length_wr32, ?length_wr16; lia)
    | rewrite byte_at_wr16 by (rewrite ?length_wr32, ?length_wr16; lia) ].

Definition same_file (i j : inode) : inode :=
  mkinode (i_dev j) (i_inum j) (i_ref j) (i_flags j) (i_type i) (i_major i) (i_minor i) (i_nlink i) (i_size i) (i_addrs i).

Lemma get_put_dinode i d o j :
  fields_ok i -> 0 <= o -> o + DINODE <= Z.of_nat (length d) -> get_dinode (put_dinode i d o) o j = same_file i j.
Proof.
  intros [F1 F2 F3 F4 F5 F6 F7] Ho Hl. unfold DINODE in Hl. unfold get_dinode, same_file, put_dinode, ADDRS.
  assert (H16 : forall n, is_s16 n -> forall l x, 0 <= x -> x + 2 <= Z.of_nat (length l) -> s16 (rd16 (wr16 l x n) x) = n)
    by (intros n Hn l x H1 H2; rewrite rd16_wr16 by done; by apply s16_u16).
  f_equal.
  1-4: (etrans; [|by (apply (H16 _ F1 d o) || apply (H16 _ F2 (wr16 d o (i_type i)) (o + 2)) ||
    apply (H16 _ F3 (wr16 (wr16 d o (i_type i)) (o + 2) (i_major i)) (o + 4)) ||
    apply (H16 _ F4 (wr16 (wr16 (wr16 d o (i_type i)) (o + 2) (i_major i)) (o + 4) (i_minor i)) (o + 6))); rewrite ?length_wr16; lia];
    f_equal; apply rd16_ext; intros x Hx; by peel).
  - set (d' := wr16 _ (o + 6) _). assert (Hd : length d' = length d) by (unfold d'; by rewrite !length_wr16).
    etrans; [|apply (u32_small _ F5)]. rewrite <- (rd32_wr32 d' (o + 8)) by (rewrite ?Hd; lia). apply rd32_ext. intros x Hx. by peel.
  - set (d' := wr32 _ _ _). assert (Hd : length d' = length d) by (unfold d'; by rewrite length_wr32, !length_wr16).
    apply list_eq. intros k. destruct (decide (k < 13)%nat) as [Hk|Hk].
    + rewrite rd_addrs_lookup by done. destruct (lookup_lt_is_Some_2 (i_addrs i) k ltac:(lia)) as [v Hv]. rewrite Hv.
      erewrite rd32_wr_addrs; [|lia|rewrite F6, Hd; lia|exact Hv]. f_equal. apply u32_small. by eapply Forall_lookup_1.
    + rewrite !(proj2 (lookup_ge_None _ _)); [done|lia|rewrite length_rd_addrs; lia].
Qed.

(** Another inode of the block. *)
Lemma get_put_dinode_ne i d o o' j :
  length (i_addrs i) = 13%nat -> 0 <= o -> o + DINODE <= Z.of_nat (length d) -> 0 <= o' -> o' + DINODE <= o \/ o + DINODE <= o' ->
  get_dinode (put_dinode i d o) o' j = get_dinode d o' j.
Proof.
  intros F6 Ho Hl Ho' Hd. unfold DINODE in *.
  assert (E : forall x, o' <= x < o' + 128 -> byte_at (put_dinode i d o) x = byte_at d x).
  { intros x Hx. unfold put_dinode, ADDRS. by peel. }
  assert (E32 : forall x, o' <= x -> x + 4 <= o' + 128 -> rd32 (put_dinode i d o) x = rd32 d x) by (intros; unfold rd32; by rewrite !E by lia).
  unfold get_dinode, rd16. rewrite !E by lia. rewrite E32 by lia. f_equal. apply list_eq. intros k. unfold ADDRS.
  destruct (decide (k < 13)%nat) as [Hk|Hk].
  - rewrite !rd_addrs_lookup by done. by rewrite E32 by lia.
  - by rewrite !(proj2 (lookup_ge_None _ _)) by (rewrite length_rd_addrs; lia).
Qed.

Lemma slot_ext dk i j k : i_addrs i = i_addrs j -> slot dk i k = slot dk j k.
Proof. intros E. unfold slot, addr_at. by rewrite E. Qed.

Lemma content_ext dk i j : i_addrs i = i_addrs j -> i_size i = i_size j -> content dk i = content dk j.
Proof.
  intros E1 E2. unfold content. rewrite E2. apply list_fmap_ext. intros k o _. unfold fbyte. by rewrite (slot_ext dk i j).
Qed.

(** The copy [i] of an inode is what the disk has. *)
Record agrees (sb : superblock) (dk : Z -> list Z) (i : inode) : Prop := mkagrees {
  ag_dev : i_dev i = 1;
  ag_inum : 0 < i_inum i < sb_ninodes sb;
  ag_fields : get_dinode (dk (IBLOCK (i_inum i))) (dinode_at (i_inum i)) i = i
}.

Lemma agrees_dinode sb dk i :
  agrees sb dk i -> i_addrs (dinode dk (i_inum i)) = i_addrs i /\ i_size (dinode dk (i_inum i)) = i_size i.
Proof. intros [_ _ E]. by rewrite <- E. Qed.

Lemma agrees_content sb dk i : agrees sb dk i -> content dk (dinode dk (i_inum i)) = content dk i.
Proof. intros [E1 E2]%agrees_dinode. by apply content_ext. Qed.

Lemma dinode_at_range inum : 0 <= inum -> 0 <= dinode_at inum /\ dinode_at inum + DINODE <= BSIZE.
Proof. unfold dinode_at. change IPB with 4. unfold DINODE, BSIZE. intros. Z.div_mod_to_equations. lia. Qed.

(** Inodes of one block are apart. *)
Lemma dinode_at_ne j k : 0 <= j -> 0 <= k -> j <> k -> IBLOCK j = IBLOCK k ->
  dinode_at j + DINODE <= dinode_at k \/ dinode_at k + DINODE <= dinode_at j.
Proof.
  unfold IBLOCK, dinode_at. change IPB with 4. unfold DINODE. intros. Z.div_mod_to_equations. lia.
Qed.

Section Whole.
Context {dsize : Z}.
Variables start lsize : Z.
Context (sb : superblock).

Notation disk_ok := (disk_ok (dsize := dsize) start lsize sb).
Notation inode_ok := (inode_ok (dsize := dsize) start lsize sb).
Notation fsys := (fsys (dsize := dsize) start lsize sb).
Notation data_area := (data_area (dsize := dsize) start lsize sb).

Lemma inode_ok_ext dk i j : i_addrs i = i_addrs j -> i_size i = i_size j -> inode_ok dk i -> inode_ok dk j.
Proof.
  intros E1 E2 [F1 F2 F3 F4 F5]. assert (Es : forall k, slot dk j k = slot dk i k) by (intros; by apply slot_ext).
  split; [congruence|congruence| | |].
  - intros k. rewrite Es. apply F3.
  - intros k k'. rewrite !Es. apply F4.
  - intros bn. rewrite Es, <- E2. apply F5.
Qed.

Lemma agrees_ok dk i : fsys dk -> agrees sb dk i -> inode_ok dk i.
Proof. intros F A. destruct (agrees_dinode _ _ _ A). eapply inode_ok_ext; [done|done|]. apply F, A. Qed.

(** ** Only one file has changed *)

Section Change.
Context (dk dk' : Z -> list Z) (i i' : inode).
Hypothesis F : fsys dk.
Hypothesis A : agrees sb dk i.
Hypothesis D' : disk_ok dk'.
Hypothesis I' : inode_ok dk' i'.
Hypothesis A' : agrees sb dk' i'.
Hypothesis Ei : i_inum i' = i_inum i.
Hypothesis Hd : forall j, 0 < j < sb_ninodes sb -> j <> i_inum i -> dinode dk' j = dinode dk j.
Hypothesis Hused : forall b, 0 <= b < sb_size sb -> used sb dk b = true -> used sb dk' b = true.
Hypothesis Hfresh : forall k, 0 <= k < NSLOT -> slot dk' i' k <> 0 ->
  slot dk' i' k = slot dk i k \/ 0 <= slot dk' i' k < sb_size sb /\ used sb dk (slot dk' i' k) = false.
Hypothesis Hother : forall t, data_area t -> (forall k, 0 <= k < NSLOT -> slot dk' i' k <> 0 -> slot dk' i' k <> t) -> dk' t = dk t.

Lemma other_apart j k k' :
  0 < j < sb_ninodes sb -> j <> i_inum i -> 0 <= k < NSLOT -> 0 <= k' < NSLOT ->
  slot dk (dinode dk j) k <> 0 -> slot dk' i' k' <> 0 -> slot dk' i' k' <> slot dk (dinode dk j) k.
Proof.
  intros Hj Hne Hk Hk' Hs Hs' E. destruct (agrees_dinode _ _ _ A) as [Ea _].
  destruct (Hfresh k' Hk' Hs') as [E1|[_ Hu]].
  - apply (fy_disjoint _ _ _ _ F j (i_inum i) k k' Hj (ag_inum _ _ _ A) Hne Hk Hk' Hs).
    rewrite (slot_ext dk _ i k' Ea). congruence.
  - rewrite E in Hu. destruct (fo_blocks _ _ _ _ _ (fy_files _ _ _ _ F j Hj) k Hk Hs) as [_ Hu']. congruence.
Qed.

Lemma other_block j k :
  0 < j < sb_ninodes sb -> j <> i_inum i -> 0 <= k < NSLOT -> slot dk (dinode dk j) k <> 0 ->
  dk' (slot dk (dinode dk j) k) = dk (slot dk (dinode dk j) k).
Proof.
  intros Hj Hne Hk Hs. apply Hother; [apply (fo_blocks _ _ _ _ _ (fy_files _ _ _ _ F j Hj) k Hk Hs)|].
  intros k' Hk' Hs'. by apply other_apart.
Qed.

Lemma other_slot j k :
  0 < j < sb_ninodes sb -> j <> i_inum i -> slot dk' (dinode dk' j) k = slot dk (dinode dk j) k.
Proof.
  intros Hj Hne. rewrite Hd by done. unfold slot. destruct (k <=? NDIRECT); [done|].
  destruct (Z.eqb_spec (addr_at (dinode dk j) NDIRECT) 0) as [|Hz]; [done|].
  pose proof (other_block j NDIRECT Hj Hne ltac:(by vm_compute) Hz) as E. rewrite slot_ind in E. by rewrite E.
Qed.

Lemma other_content j :
  0 < j < sb_ninodes sb -> j <> i_inum i -> content dk' (dinode dk' j) = content dk (dinode dk j).
Proof.
  intros Hj Hne. unfold content. rewrite Hd at 2 by done. apply list_fmap_ext. intros n o Ho%list_elem_of_lookup_2%elem_of_seqZ.
  pose proof (fy_files _ _ _ _ F j Hj) as [_ Hsz _ _ Hfull]. unfold fbyte. rewrite other_slot by done.
  rewrite other_block; [done|done|done| |apply Hfull; unfold BSIZE in *; Z.div_mod_to_equations; lia].
  apply idx_range. unfold BSIZE in *. Z.div_mod_to_equations. lia.
Qed.

Lemma change_fsys : fsys dk'.
Proof.
  assert (Hi' : forall k, slot dk' (dinode dk' (i_inum i)) k = slot dk' i' k).
  { intros k. rewrite <- Ei. apply slot_ext. by eapply agrees_dinode. }
  split; [done| |].
  - intros j Hj. destruct (decide (j = i_inum i)) as [->|Hne].
    + rewrite <- Ei. destruct (agrees_dinode _ _ _ A'). by eapply inode_ok_ext.
    + pose proof (fy_files _ _ _ _ F j Hj) as [F1 F2 F3 F4 F5].
      split; [by rewrite Hd|by rewrite Hd| | |].
      * intros k Hk. rewrite other_slot by done. intros Hs. destruct (F3 k Hk Hs) as [Hb Hu]. split; [done|].
        apply Hused; [|done]. destruct (slot_data _ _ _ _ _ _ (fy_disk _ _ _ _ F) (fy_files _ _ _ _ F j Hj) Hk Hs). lia.
      * intros k k' Hk Hk'. rewrite !other_slot by done. by apply F4.
      * intros bn Hb. rewrite other_slot, Hd by done. by apply F5.
  - intros j j' k k' Hj Hj' Hne Hk Hk' Hs. destruct (decide (j = i_inum i)) as [->|Hn1], (decide (j' = i_inum i)) as [->|Hn2]; [done|..].
    + rewrite Hi' in *. rewrite (other_slot j') by done. intros E.
      eapply (other_apart j' k' k); try done. rewrite <- E. done.
    + rewrite Hi' in *. rewrite (other_slot j) in * by done. intros E. eapply (other_apart j k k'); try done. by rewrite <- E.
    + rewrite !other_slot in * by done. by apply (fy_disjoint _ _ _ _ F).
Qed.
End Change.

Lemma iblock_data inum b : 0 < inum < sb_ninodes sb -> data_area b -> b <> IBLOCK inum.
Proof. intros Hn [H _] ->. pose proof (IBLOCK_lt sb inum ltac:(lia)). lia. Qed.

(** A block of inodes changes. *)
Section Iblock.
Context (dk : Z -> list Z) (i : inode) (inum : Z) (d : list Z).
Hypothesis D : disk_ok dk.
Hypothesis I : inode_ok dk i.
Hypothesis Hn : 0 < inum < sb_ninodes sb.
Hypothesis Hl : length d = Z.to_nat BSIZE.

Notation dk' := (<[IBLOCK inum := d]> dk).

Lemma iblock_slot k : slot dk' i k = slot dk i k.
Proof.
  unfold slot. destruct (k <=? NDIRECT); [done|]. destruct (Z.eqb_spec (addr_at i NDIRECT) 0) as [|Hz]; [done|].
  rewrite fn_lookup_insert_ne; [done|]. apply not_eq_sym, (iblock_data inum); [done|]. by apply (fo_blocks _ _ _ _ _ I NDIRECT).
Qed.

Lemma iblock_used b : 0 <= b < sb_size sb -> used sb dk' b = used sb dk b.
Proof.
  intros Hb. unfold used. rewrite (bmb_eq _ _ _ _ _ D) by done. rewrite fn_lookup_insert_ne; [done|].
  pose proof (IBLOCK_lt sb inum ltac:(lia)). lia.
Qed.

Lemma iblock_disk_ok : disk_ok dk'.
Proof.
  pose proof D as [[B1 B2] Hsz Hnl Hin Hlen Hfree].
  assert (El : forall s, length (dk' s) = if decide (IBLOCK inum = s) then Z.to_nat BSIZE else length (dk s))
    by (intros s; case_decide; [subst; by rewrite fn_lookup_insert|by rewrite fn_lookup_insert_ne]).
  split; [split|done|done|done| |].
  - rewrite fn_lookup_insert_ne; [done|]. destruct (Hin inum ltac:(lia)) as [? _]. lia.
  - intros b Hb. rewrite El. case_decide; [split; [|done]|]; by apply B2.
  - intros s Hs. rewrite El. case_decide; [done|]. by apply Hlen.
  - intros b Hb. rewrite iblock_used by (pose proof (data_end_size _ _ _ _ b D); lia). by apply Hfree.
Qed.

Lemma iblock_inode_ok : inode_ok dk' i.
Proof.
  pose proof I as [F1 F2 F3 F4 F5]. split; [done|done| | |].
  - intros k Hk. rewrite iblock_slot. intros Hs. rewrite iblock_used; [by apply F3|].
    destruct (slot_data _ _ _ _ _ _ D I Hk Hs). lia.
  - intros k k'. rewrite !iblock_slot. apply F4.
  - intros bn. rewrite iblock_slot. apply F5.
Qed.

Lemma iblock_content : content dk' i = content dk i.
Proof.
  unfold content. apply list_fmap_ext. intros n o Ho%list_elem_of_lookup_2%elem_of_seqZ. unfold fbyte. rewrite iblock_slot.
  pose proof I as [_ Hsz Hb _ Hfull]. assert (Hk : 0 <= idx (o / BSIZE) < NSLOT)
    by (apply idx_range; unfold BSIZE in *; Z.div_mod_to_equations; lia).
  rewrite fn_lookup_insert_ne; [done|]. apply not_eq_sym, (iblock_data inum), Hb; [done|done|]. apply Hfull; unfold BSIZE in *; Z.div_mod_to_equations; lia.
Qed.
End Iblock.

(** ** The file has been written, and perhaps its inode *)

Lemma inode_words dk i : disk_ok dk -> inode_ok dk i -> is_u32 (i_size i) /\ Forall is_u32 (i_addrs i).
Proof.
  intros D I. pose proof I as [F1 F2 F3 _ _]. pose proof (do_size _ _ _ _ D) as Hsz. change MAXFILE with 140 in F2.
  unfold is_u32, BPB, BSIZE in *. split; [lia|]. apply Forall_lookup. intros k v Hv.
  destruct (decide (v = 0)) as [->|Hz]; [lia|]. pose proof (lookup_lt_Some _ _ _ Hv) as Hk.
  assert (Es : slot dk i (Z.of_nat k) = v).
  { unfold slot. rewrite (proj2 (Z.leb_le _ _)) by (unfold NDIRECT; lia). unfold addr_at. by rewrite Nat2Z.id, Hv. }
  destruct (slot_data _ _ _ _ _ (Z.of_nat k) D I) as [Hr _]; rewrite ?Es; [unfold NSLOT; change MAXFILE with 140; lia|done|].
  rewrite Es in Hr. lia.
Qed.

Lemma agrees_fields dk i : disk_ok dk -> agrees sb dk i -> inode_ok dk i -> fields_ok i.
Proof.
  intros D [_ _ E] I. destruct (inode_words dk i D I). pose proof (fo_addrs _ _ _ _ _ I).
  rewrite <- E. split; try apply s16_range; by rewrite E.
Qed.

Lemma grown_iblock dk i dk' i' z j :
  inode_ok dk' (set_i_size z i') -> grown sb dk i dk' i' -> 0 <= j < sb_ninodes sb ->
  dk' (IBLOCK j) = dk (IBLOCK j).
Proof.
  intros I G Hj. pose proof (IBLOCK_lt sb j Hj). apply (gr_other _ _ _ _ _ G); [lia|].
  intros k Hk Hs E. destruct (fo_blocks _ _ _ _ _ I k Hk Hs) as [[Hb _] _].
  change (slot dk' (set_i_size z i') k) with (slot dk' i' k) in Hb. lia.
Qed.

(** Nothing but the bytes of the blocks. *)
Lemma fsys_bytes dk i dk' :
  fsys dk -> agrees sb dk i -> disk_ok dk' -> inode_ok dk' i -> grown sb dk i dk' i ->
  fsys dk' /\ agrees sb dk' i /\
  forall j, 0 < j < sb_ninodes sb -> j <> i_inum i -> dinode dk' j = dinode dk j /\ content dk' (dinode dk' j) = content dk (dinode dk j).
Proof.
  intros F A D I G. pose proof A as [A1 A2 A3].
  assert (I0 : inode_ok dk' (set_i_size (i_size i) i)) by by destruct i.
  assert (A' : agrees sb dk' i) by (split; [done|done|]; by rewrite (grown_iblock dk i dk' i (i_size i)) by (done || lia)).
  assert (Hd : forall j, 0 < j < sb_ninodes sb -> j <> i_inum i -> dinode dk' j = dinode dk j)
    by (intros j Hj _; unfold dinode; by rewrite (grown_iblock dk i dk' i (i_size i)) by (done || lia)).
  pose proof G as [_ G2 _ G4 G5].
  assert (Ho : forall t, data_area t -> (forall k, 0 <= k < NSLOT -> slot dk' i k <> 0 -> slot dk' i k <> t) -> dk' t = dk t)
    by (intros t [Ht _] Hn; apply G5; [lia|done]).
  split_and!; [by apply (change_fsys dk dk' i i)|done|]. intros j Hj Hne. split; [by apply Hd|by apply (other_content dk dk' i i)].
Qed.

(** The size as well. *)
Lemma fsys_inode dk i dk1 i1 z :
  let i2 := set_i_size z i1 in let o := dinode_at (i_inum i) in
  let dk2 := <[IBLOCK (i_inum i) := put_dinode i2 (dk1 (IBLOCK (i_inum i))) o]> dk1 in
  fsys dk -> agrees sb dk i -> disk_ok dk1 -> inode_ok dk1 i2 -> grown sb dk i dk1 i1 ->
  fsys dk2 /\ agrees sb dk2 i2 /\ content dk2 i2 = content dk1 i2 /\
  forall j, 0 < j < sb_ninodes sb -> j <> i_inum i -> dinode dk2 j = dinode dk j /\ content dk2 (dinode dk2 j) = content dk (dinode dk j).
Proof.
  intros i2 o dk2 F A D I G. pose proof A as [A1 A2 A3]. pose proof G as [G1 G2 G3 G4 G5].
  assert (Ei : i_inum i2 = i_inum i /\ i_dev i2 = 1) by (unfold i2; rewrite G1; done). destruct Ei as [Ei Edev].
  assert (Hl : length (dk1 (IBLOCK (i_inum i))) = Z.to_nat BSIZE) by (apply (do_len _ _ _ _ D), (do_inodes _ _ _ _ D); lia).
  destruct (dinode_at_range (i_inum i) ltac:(lia)) as [Ho1 Ho2]. fold o in Ho1, Ho2.
  set (d := put_dinode i2 _ o) in *. assert (Hd : length d = Z.to_nat BSIZE) by (unfold d; by rewrite length_put_dinode).
  assert (Es : forall k, slot dk2 i2 k = slot dk1 i1 k).
  { intros k. unfold dk2. rewrite iblock_slot by done. by apply slot_ext. }
  assert (Hf : fields_ok i2).
  { pose proof (agrees_fields dk i (fy_disk _ _ _ _ F) A (agrees_ok dk i F A)) as [T1 T2 T3 T4 _ _ _].
    destruct (inode_words dk1 i2 D I). pose proof (fo_addrs _ _ _ _ _ I). unfold i2. rewrite G1. by split. }
  assert (A' : agrees sb dk2 i2).
  { split; [done|by rewrite Ei|]. rewrite Ei. unfold dk2. rewrite fn_lookup_insert. fold o. unfold d.
    rewrite get_put_dinode by (rewrite ?Hl; unfold BSIZE in *; done || lia). by destruct i2. }
  assert (Hj : forall j, 0 < j < sb_ninodes sb -> j <> i_inum i -> dinode dk2 j = dinode dk j).
  { intros j Hj Hne. unfold dinode. rewrite <- (grown_iblock dk i dk1 i1 z j) by (done || lia).
    destruct (decide (IBLOCK (i_inum i) = IBLOCK j)) as [E|E]; unfold dk2; [|by rewrite fn_lookup_insert_ne].
    rewrite <- E, fn_lookup_insert. destruct (dinode_at_range j ltac:(lia)).
    apply get_put_dinode_ne; [apply Hf|done|rewrite Hl; unfold BSIZE in *; lia|done|]. apply dinode_at_ne; [lia|lia|done|done]. }
  assert (Ho : forall t, data_area t -> (forall k, 0 <= k < NSLOT -> slot dk2 i2 k <> 0 -> slot dk2 i2 k <> t) -> dk2 t = dk t).
  { intros t Ht Hn. unfold dk2. rewrite fn_lookup_insert_ne by (by apply not_eq_sym, (iblock_data (i_inum i))).
    apply G5; [destruct Ht; lia|]. intros k. rewrite <- Es. apply Hn. }
  assert (Hu : forall b, 0 <= b < sb_size sb -> used sb dk b = true -> used sb dk2 b = true)
    by (intros b Hb Hu; unfold dk2; rewrite iblock_used by done; by apply G2).
  assert (Hfr : forall k, 0 <= k < NSLOT -> slot dk2 i2 k <> 0 ->
    slot dk2 i2 k = slot dk i k \/ 0 <= slot dk2 i2 k < sb_size sb /\ used sb dk (slot dk2 i2 k) = false)
    by (intros k; rewrite Es; apply G4).
  assert (D2 : disk_ok dk2) by by apply (iblock_disk_ok dk1 i2).
  split_and!; [|done|by apply iblock_content|].
  - apply (change_fsys dk dk2 i i2); try done. by apply iblock_inode_ok.
  - intros j Hjr Hne. split; [by apply Hj|]. by apply (other_content dk dk2 i i2).
Qed.
End Whole.
