(* ===== verification/InodeThm.v ===== *)
(** * Reading and writing files

    [bmap], [readi] and [writei] of [fs.c] on the buffer cache and the log,
    against the files of [Inode]: what a transaction does to the logical disk when
    it writes to a file, how much of the log and of the cache it needs for it,
    and that a read returns the bytes that have been written. *)

From stdpp Require Import base list numbers strings tactics gmap functions.
From Stdlib Require Import Lia.
From S2P Require Import Prelude Params StringC FsState KState Spinlock Mmu Sched Runs Bio BioSpec BioThm Log LogSpec LogThm Fs BlockThm Inode.

Local Open Scope Z_scope.
Local Open Scope xv6_scope.

#[local] Opaque HEAD.

(** ** The inode cache in a state *)

(** The state but for the inode [ip], the cache, the disk and the log. *)
Definition moved (ip : nat) (i : inode) (x x' : fsst) : Prop := kept (set_inodes (<[ip := i]> (inodes x)) x) x'.

Lemma kept_moved ip i x x' : inodes x !! ip = Some i -> kept x x' -> moved ip i x x'.
Proof. unfold moved. intros H K. rewrite list_insert_id by done. by destruct x. Qed.

Lemma moved_inode ip i i0 x x' : inodes x !! ip = Some i0 -> moved ip i x x' -> inodes x' !! ip = Some i.
Proof. intros H K. rewrite (kept_inodes _ _ K). simpl. apply list_lookup_insert_eq. by eapply lookup_lt_Some. Qed.

Lemma moved_trans ip i1 i2 x x1 x2 : moved ip i1 x x1 -> moved ip i2 x1 x2 -> moved ip i2 x x2.
Proof.
  unfold moved, kept. intros H1 H2. rewrite H2, H1. simpl. rewrite list_insert_insert_eq. by destruct x.
Qed.

Lemma moved_kept ip i x x1 x2 : moved ip i x x1 -> kept x1 x2 -> moved ip i x x2.
Proof. unfold moved. intros H1 H2. by etrans. Qed.

Lemma upd_inode_eq ip f i x : inodes x !! ip = Some i -> upd_inode ip f x = set_inodes (<[ip := f i]> (inodes x)) x.
Proof. intros H. unfold upd_inode. f_equal. by apply alter_as_insert. Qed.

Section Steps.
Context {h : list lockid} {c : fsst -> Prop}.

Lemma triple_geti_bind {B} ip i (f : inode -> M kst B) h' x q :
  inodes x !! ip = Some i -> triple h c (f i) h' x q -> triple h c (bind (geti ip) f) h' x q.
Proof. intros Hi Hf. unfold geti. tstep. tstep. tstep; [exact Hi|done]. Qed.

Lemma triple_geti ip i x (q : inode -> fsst -> Prop) : inodes x !! ip = Some i -> q i x -> triple h c (geti ip) h x q.
Proof. intros Hi Hq. unfold geti. tstep. by eapply triple_deref. Qed.

Lemma triple_modi_bind {B} ip f i (k : unit -> M kst B) h' x q :
  inodes x !! ip = Some i -> triple h c (k tt) h' (set_inodes (<[ip := f i]> (inodes x)) x) q ->
  triple h c (bind (modi ip f) k) h' x q.
Proof.
  intros Hi Hk. unfold modi. tstep. eapply triple_geti_bind; [done|]. tstep. by rewrite (upd_inode_eq _ _ i).
Qed.

Lemma triple_modi ip f i x (q : unit -> fsst -> Prop) :
  inodes x !! ip = Some i -> q tt (set_inodes (<[ip := f i]> (inodes x)) x) -> triple h c (modi ip f) h x q.
Proof. intros Hi Hq. unfold modi. eapply triple_geti_bind; [done|]. tstep. by rewrite (upd_inode_eq _ _ i). Qed.
End Steps.

Lemma repr_set_inodes l x a : repr x a -> repr (set_inodes l x) a.
Proof. intros [R1 R2 R3 R4 R5 R6 R7]. by split. Qed.

(** ** What a write needs of the log *)

(** The blocks that are logged when the write is done, if it logs no other data: the
    bitmap and the inode are counted at once, the indirect block until it is logged. *)
Definition cost (sb : superblock) (i : inode) (secs : list Z) : nat :=
  (size ({[bmb sb; IBLOCK (i_inum i)]} ∪ list_to_set secs : gset Z) +
    (if decide (addr_at i NDIRECT <> 0%Z /\ addr_at i NDIRECT ∈ secs) then 0 else 1))%nat.

(** The block for the indirect block. *)
Definition lack (i : inode) : nat := if addr_at i NDIRECT =? 0 then 1%nat else 0%nat.

(** The blocks of the metadata and of the log. *)
Definition base (sb : superblock) (i : inode) (secs : list Z) : gset Z :=
  {[bmb sb; IBLOCK (i_inum i)]} ∪ list_to_set secs.

Definition ind_logged (i : inode) (secs : list Z) : Prop := addr_at i NDIRECT <> 0 /\ addr_at i NDIRECT ∈ secs.

Lemma cost_yes sb i secs : ind_logged i secs -> cost sb i secs = size (base sb i secs).
Proof. intros H. unfold cost. rewrite decide_True by done. unfold base. lia. Qed.

Lemma cost_no sb i secs : ~ ind_logged i secs -> cost sb i secs = S (size (base sb i secs)).
Proof. intros H. unfold cost. rewrite decide_False by done. unfold base. lia. Qed.

Lemma ind_logged_dec i secs : ind_logged i secs \/ ~ ind_logged i secs.
Proof. unfold ind_logged. destruct (decide (addr_at i NDIRECT <> 0 /\ addr_at i NDIRECT ∈ secs)); auto. Qed.

Lemma base_cost sb i secs : (size (base sb i secs) <= cost sb i secs)%nat.
Proof. unfold cost, base. lia. Qed.

Lemma size_add (f : Z) (X : gset Z) : (size ({[f]} ∪ X) <= S (size X))%nat.
Proof.
  rewrite size_union_alt, size_singleton. assert (size (X ∖ {[f]}) <= size X)%nat by (apply subseteq_size; set_solver). lia.
Qed.

Lemma length_base sb i secs : NoDup secs -> (length secs <= size (base sb i secs))%nat.
Proof. intros H. rewrite <- size_secs by done. apply subseteq_size. unfold base. set_solver. Qed.

(** A logged block costs one slot, unless it was counted. *)
Lemma cost_more sb i i' secs secs' f :
  i_inum i' = i_inum i -> base sb i' secs' ⊆ {[f]} ∪ base sb i secs -> (ind_logged i secs -> ind_logged i' secs') ->
  (cost sb i' secs' <= S (cost sb i secs))%nat.
Proof.
  intros Hi Hs Hl. apply subseteq_size in Hs. pose proof (size_add f (base sb i secs)).
  destruct (ind_logged_dec i secs) as [H1|H1].
  - rewrite (cost_yes _ _ _ H1), (cost_yes _ _ _ (Hl H1)). lia.
  - rewrite (cost_no _ _ _ H1). destruct (ind_logged_dec i' secs') as [H2|H2]; [rewrite (cost_yes _ _ _ H2)|rewrite (cost_no _ _ _ H2)]; lia.
Qed.

(** The indirect block was counted. *)
Lemma cost_ind sb i i' secs secs' :
  i_inum i' = i_inum i -> base sb i' secs' ⊆ {[addr_at i' NDIRECT]} ∪ base sb i secs -> ind_logged i' secs' ->
  (ind_logged i secs -> i' = i) -> (cost sb i' secs' <= cost sb i secs)%nat.
Proof.
  intros Hi Hs Hl He. rewrite (cost_yes _ _ _ Hl). destruct (ind_logged_dec i secs) as [H1|H1].
  - rewrite (cost_yes _ _ _ H1). apply subseteq_size. rewrite (He H1) in *. destruct H1 as [_ H1].
    unfold base in *. set_solver.
  - rewrite (cost_no _ _ _ H1). apply subseteq_size in Hs. pose proof (size_add (addr_at i' NDIRECT) (base sb i secs)). lia.
Qed.

(** ** Sources *)

(** In a machine with the memory of [s0], the source [src] is the bytes [bytes]. *)
Definition source_gives (s0 : kst) (src : source) (bytes : list Z) : Prop :=
  forall s k m src', frame s0 s -> 0 <= k -> 0 <= m -> k + m <= Z.of_nat (length bytes) ->
    src' = source_add src k \/ k = 0 /\ src' = src -> get_source src' m s = Ret (slice bytes k m) s.

Lemma source_local s0 bytes : source_gives s0 (FromLocal bytes) bytes.
Proof. intros s k m src' _ Hk Hm Hl [->|[-> ->]]; done. Qed.

Lemma u32_add a b : u32 (u32 a + b) = u32 (a + b).
Proof. unfold u32. apply Zplus_mod_idemp_l. Qed.

Lemma frame_peek8 s s' va : frame s s' -> peek8 s' va = peek8 s va.
Proof. intros [E _]. rewrite E. by destruct s. Qed.

Lemma get_va_bytes s a l : (forall j v, l !! j = Some v -> peek8 s (u32 (a + Z.of_nat j)) = Some v) ->
  get_va (u32 a) (length l) s = Ret l s.
Proof.
  revert a. induction l as [|v l IH]; intros a Hl; [done|]. cbn [length get_va]. unfold bind at 1. rewrite load8_va_peek.
  pose proof (Hl 0%nat v eq_refl) as H0. rewrite Z.add_0_r in H0. rewrite H0. simpl. unfold bind at 1. rewrite u32_add, IH; [done|].
  intros j w Hj. specialize (Hl (S j) w Hj). by replace (a + 1 + Z.of_nat j) with (a + Z.of_nat (S j)) by lia.
Qed.

Lemma source_mem s0 a bytes : is_u32 a -> user_bytes s0 a bytes -> source_gives s0 (FromMem a) bytes.
Proof.
  intros Ha Hu s k m src' Fs Hk Hm Hl Hsrc. assert (src' = FromMem (u32 (a + k))) as ->.
  { destruct Hsrc as [->|[-> ->]]; [done|]. by rewrite Z.add_0_r, u32_small. }
  simpl.
  assert (E : Z.to_nat m = length (slice bytes k m)) by (unfold slice; rewrite length_take, length_drop; lia).
  rewrite E. apply get_va_bytes. intros j v Hj. rewrite (frame_peek8 s0) by done.
  unfold slice in Hj. apply lookup_take_Some in Hj as [Hj _]. rewrite lookup_drop in Hj. rewrite <- (Hu _ _ Hj). f_equal. f_equal. lia.
Qed.

Lemma source_add_add src k m : 0 <= k -> 0 <= m -> source_add (source_add src k) m = source_add src (k + m).
Proof.
  intros Hk Hm. destruct src; simpl; [rewrite u32_add; do 2 f_equal; lia|]. f_equal. rewrite drop_drop. f_equal. lia.
Qed.

(** ** Bytes *)

Lemma byte_at_splice d o l j :
  0 <= o -> o + Z.of_nat (length l) <= Z.of_nat (length d) -> 0 <= j ->
  byte_at (splice d o l) j = if decide (o <= j < o + Z.of_nat (length l)) then byte_at l (j - o) else byte_at d j.
Proof.
  intros Ho Hl Hj. unfold byte_at, splice. case_decide as E.
  - rewrite lookup_app_r by (rewrite length_take; lia). rewrite length_take, Nat.min_l by lia.
    rewrite lookup_app_l by lia. do 2 f_equal. lia.
  - destruct (decide (j < o)).
    + rewrite lookup_app_l by (rewrite length_take; lia). by rewrite lookup_take_lt by lia.
    + rewrite lookup_app_r by (rewrite length_take; lia). rewrite length_take, Nat.min_l by lia.
      rewrite lookup_app_r by lia. rewrite lookup_drop. do 2 f_equal. lia.
Qed.

Lemma byte_at_slice l k m j : 0 <= k -> 0 <= j < m -> byte_at (slice l k m) j = byte_at l (k + j).
Proof. intros Hk Hj. unfold byte_at, slice. rewrite lookup_take_lt, lookup_drop by lia. do 2 f_equal. lia. Qed.

(** The number of blocks that [n] bytes from [off] on touch. *)
Definition nblk (off n : Z) : nat := if n <=? 0 then 0%nat else Z.to_nat ((off + n - 1) / BSIZE - off / BSIZE + 1).

Lemma nblk_step off n :
  0 <= off -> 0 < n -> let m := Z.min n (BSIZE - off mod BSIZE) in
  nblk off n = S (nblk (off + m) (n - m)) /\ 0 < m <= n /\ off mod BSIZE + m <= BSIZE /\
  forall o, off <= o < off + m <-> o / BSIZE = off / BSIZE /\ off mod BSIZE <= o mod BSIZE < off mod BSIZE + m.
Proof.
  intros Ho Hn m. unfold nblk, BSIZE in *. pose proof (Z.mod_pos_bound off 512 ltac:(lia)).
  assert (Hm : 0 < m <= n /\ off mod 512 + m <= 512) by (unfold m; lia).
  split_and!; try lia.
  - rewrite (proj2 (Z.leb_gt n 0)) by lia. destruct (Z.leb_spec (n - m) 0).
    + assert ((off + n - 1) / 512 = off / 512) as -> by (Z.div_mod_to_equations; lia).
      by replace (off / 512 - off / 512 + 1) with 1 by lia.
    + assert (m = 512 - off mod 512) by lia. replace (off + m + (n - m) - 1) with (off + n - 1) by lia.
      assert ((off + m) / 512 = off / 512 + 1) as -> by (Z.div_mod_to_equations; lia).
      assert (off / 512 + 1 <= (off + n - 1) / 512) by (Z.div_mod_to_equations; lia).
      rewrite <- Z2Nat.inj_succ by lia. f_equal. lia.
  - intros o. split; intros; Z.div_mod_to_equations; lia.
Qed.

Lemma lookup_splice l o new j :
  0 <= o <= Z.of_nat (length l) ->
  splice l o new !! j = if decide (o <= Z.of_nat j < o + Z.of_nat (length new)) then new !! (j - Z.to_nat o)%nat else l !! j.
Proof.
  intros Ho. unfold splice. case_decide as E.
  - rewrite lookup_app_r by (rewrite length_take; lia). rewrite length_take, Nat.min_l by lia. by rewrite lookup_app_l by lia.
  - destruct (decide (Z.of_nat j < o)).
    + rewrite lookup_app_l by (rewrite length_take; lia). by rewrite lookup_take_lt by lia.
    + rewrite lookup_app_r by (rewrite length_take; lia). rewrite length_take, Nat.min_l by lia.
      rewrite lookup_app_r by lia. rewrite lookup_drop. f_equal. lia.
Qed.

Lemma lookup_content dk i j :
  content dk i !! j = if decide (Z.of_nat j < i_size i) then Some (fbyte dk i (Z.of_nat j)) else None.
Proof.
  unfold content. rewrite list_lookup_fmap. case_decide as E; [by rewrite lookup_seqZ_lt by lia|by rewrite lookup_seqZ_ge by lia].
Qed.

Lemma length_content dk i : length (content dk i) = Z.to_nat (i_size i).
Proof. unfold content. by rewrite length_fmap, length_seqZ. Qed.

Section Transfer.
Context `{D : Disk} {dsize : Z} `{!DiskLaws dsize} `{Devsw}.
Context {c : fsst -> Prop}.
Variables start lsize : Z.
Context (sb : superblock).

Notation geometry := (geometry (dsize := dsize) start lsize).
Notation recovers_to := (recovers_to (dsize := dsize) start lsize).
Notation inlog := (inlog start lsize).
Notation holding := (holding (dsize := dsize) start lsize).
Notation intx := (holding ∅).
Notation disk_ok := (disk_ok (dsize := dsize) start lsize sb).
Notation inode_ok := (inode_ok (dsize := dsize) start lsize sb).
Notation fsys := (fsys (dsize := dsize) start lsize sb).

(** Room for [n] blocks. *)
Definition room (n : nat) : Prop := Z.of_nat n < lsize - 1 /\ (n < HEAD)%nat.

Lemma holding_inode bz l x a secs old new : holding bz x a secs old new -> holding bz (set_inodes l x) a secs old new.
Proof. intros []. split; try done. by apply repr_set_inodes. Qed.

Lemma balloc_free bz secs x a old dk (q : Z -> fsst -> Prop) :
  geometry -> holding bz x a secs old dk -> disk_ok dk -> (0 < nfree sb dk)%nat ->
  bz !! 1 = None -> bz !! bmb sb = None -> (forall b, used sb dk b = false -> bz !! b = None) ->
  Z.of_nat (length (absorb secs (bmb sb))) < lsize - 1 -> (S (size ({[bmb sb]} ∪ dom bz ∪ list_to_set secs : gset Z)) < HEAD)%nat ->
  (forall x', recovers_to (disk x' 1) old -> c x') ->
  (forall f x' a', 0 <= f < data_end sb -> used sb dk f = false ->
    holding bz x' a' (absorb (absorb secs (bmb sb)) f) old (ballocated sb f dk) -> kept x x' -> q f x') ->
  triple [] c (balloc 1) [] x q.
Proof.
  intros G I Hd Hn H1 Hbm Hbz Hl Hsz Hc Hq. destruct (first_free _ _ Hn) as (f & Hf & Hu & Hall).
  pose proof (data_end_size _ _ _ _ f Hd (proj2 Hf)) as Hf'. pose proof (bmb_eq _ _ _ _ f Hd ltac:(lia)) as Ef.
  eapply (balloc_hold start lsize bz f sb); [exact G|exact I|apply Hd|lia|by apply (do_free _ _ _ _ Hd)|done|done| | |exact Hc|].
  - intros j Hj. by rewrite (bmb_eq _ _ _ _ j Hd) by lia.
  - rewrite Ef. split; [done|done|by apply Hbz|done|]. eapply Nat.le_lt_trans; [|exact Hsz].
    etrans; [|apply (size_add f)]. apply subseteq_size. set_solver.
  - rewrite Ef. intros x' a' I' K'. by eapply Hq.
Qed.

(** ** The block of a file *)

(** What [bmap] does for block [bn]: nothing, or it gives the file that block. *)
Record mapped (bn : Z) (dk : Z -> list Z) (i : inode) (secs : list Z) (dk' : Z -> list Z) (i' : inode) (secs' : list Z) : Prop := mkmapped {
  mp_disk : disk_ok dk';
  mp_inode : inode_ok dk' i';
  mp_grown : grown sb dk i dk' i';
  mp_slot : slot dk' i' (idx bn) <> 0;
  mp_same : slot dk i (idx bn) <> 0 -> dk' = dk /\ i' = i;
  mp_bytes : forall o, 0 <= o < MAXFILE * BSIZE -> slot dk i (idx (o / BSIZE)) <> 0 -> fbyte dk' i' o = fbyte dk i o;
  mp_cost : (cost sb i' (absorb secs' (slot dk' i' (idx bn))) <= S (cost sb i secs))%nat;
  mp_free : (nfree sb dk + lack i' <= S (nfree sb dk' + lack i))%nat
}.

Lemma mapped_refl bn dk i secs :
  disk_ok dk -> inode_ok dk i -> slot dk i (idx bn) <> 0 -> mapped bn dk i secs dk i secs.
Proof.
  intros Hd Hi Hs. split; try done; [apply grown_refl| |lia].
  apply (cost_more sb i i secs _ (slot dk i (idx bn))); [done| |].
  - unfold base. rewrite absorb_set. set_solver.
  - intros [H1 H2]. split; [done|]. apply absorb_elem. by right.
Qed.

(** A direct block, or the indirect one. *)
Lemma attach_triple {B} ip i k x a secs old dk (g : Z -> M kst B) (q : B -> fsst -> Prop) :
  geometry -> intx x a secs old dk -> inodes x !! ip = Some i -> disk_ok dk -> inode_ok dk i ->
  0 <= k <= NDIRECT -> slot dk i k = 0 -> (0 < nfree sb dk)%nat -> room (S (cost sb i secs)) ->
  (forall x', recovers_to (disk x' 1) old -> c x') ->
  (forall f x' a', 0 <= f < data_end sb -> used sb dk f = false ->
    let i' := set_i_addrs (aset (i_addrs i) k f) i in
    intx x' a' (absorb (absorb secs (bmb sb)) f) old (ballocated sb f dk) -> moved ip i' x x' -> triple [] c (g f) [] x' q) ->
  triple [] c (bind (balloc 1) (fun a => modi ip (fun x => set_i_addrs (aset (i_addrs x) k a) x) ;;; g a)) [] x q.
Proof.
  intros G I Hip Hd Hi Hk Hz Hn [Hr1 Hr2] Hc Hq. pose proof (it_secs _ _ _ _ _ _ _ _ I) as Ho.
  assert (Hb : (length (absorb secs (bmb sb)) <= cost sb i secs)%nat).
  { rewrite <- size_secs by apply absorb_NoDup, Ho. etrans; [|apply base_cost]. apply subseteq_size.
    rewrite absorb_set. unfold base. set_solver. }
  eapply triple_step, balloc_free; [exact G|exact I|exact Hd|exact Hn|done|done|done|lia| |exact Hc|].
  { eapply Nat.le_lt_trans; [|exact Hr2]. apply le_n_S. etrans; [|apply base_cost]. apply subseteq_size. unfold base. set_solver. }
  intros f x' a' Hf Hu I' K'. eapply triple_modi_bind; [by rewrite (kept_inodes _ _ K')|].
  eapply Hq; [done|done|by apply holding_inode|]. unfold moved. rewrite (kept_inodes _ _ K').
  unfold kept in *. rewrite K'. by destruct x.
Qed.

Lemma room_mono n m : (n <= m)%nat -> room m -> room n.
Proof. intros Hnm [H1 H2]. split; lia. Qed.

(** The disk with a block more is in order; [secs] is what has been logged. *)
Lemma attach_mapped bn f dk i secs secs' :
  let '(dk', i') := attach sb f (idx bn) dk i in
  disk_ok dk -> inode_ok dk i -> 0 <= bn < MAXFILE -> 0 <= f < data_end sb -> used sb dk f = false -> slot dk i (idx bn) = 0 ->
  (NDIRECT < idx bn -> addr_at i NDIRECT <> 0) -> (cost sb i' (absorb secs' f) <= S (cost sb i secs))%nat ->
  slot dk' i' (idx bn) = f /\ mapped bn dk i secs dk' i' secs'.
Proof.
  destruct (attach sb f (idx bn) dk i) as [dk' i'] eqn:E. intros Hd Hi Hbn Hf Hu Hz Hind Hcost.
  destruct (idx_range _ Hbn) as [Hk Hne]. pose proof Hf as [Hfp Hf0]. pose proof (data_end_size _ _ _ _ f Hd Hf0) as Hf1.
  assert (Hlack : lack i' = lack i).
  { unfold attach in E. unfold lack. destruct (Z.leb_spec (idx bn) NDIRECT) as [Hl|Hl]; injection E as _ <-; [|done].
    rewrite addr_at_set; [by rewrite decide_False| |unfold NDIRECT; lia].
    rewrite (fo_addrs _ _ _ _ _ Hi). unfold NDIRECT in Hl. lia. }
  pose proof (attach_slot start lsize sb dk i f (idx bn) Hd Hi (conj Hfp Hf1) Hf0 Hu Hk Hz Hind (idx bn) Hk) as Hs.
  rewrite decide_True in Hs by done. rewrite E in Hs. simpl in Hs. split; [done|].
  replace dk' with (fst (attach sb f (idx bn) dk i)) in * by by rewrite E.
  replace i' with (snd (attach sb f (idx bn) dk i)) in * by by rewrite E. split.
  - by apply attach_disk_ok.
  - by apply attach_inode_ok.
  - by apply (attach_grown (dsize := dsize) start lsize).
  - rewrite Hs. pose proof (f_pos start lsize sb dk f Hd (conj Hfp Hf1) Hf0 Hu). lia.
  - by intros [].
  - intros o. by apply (attach_byte (dsize := dsize) start lsize).
  - by rewrite Hs.
  - rewrite (attach_nfree (dsize := dsize) start lsize sb dk i f (idx bn)) by done. lia.
Qed.

Lemma bmap_direct ip i bn x a secs old dk (q : Z -> fsst -> Prop) :
  geometry -> intx x a secs old dk -> inodes x !! ip = Some i -> i_dev i = 1 -> disk_ok dk -> inode_ok dk i ->
  0 <= bn < NDIRECT -> (slot dk i (idx bn) <> 0 \/ (lack i < nfree sb dk)%nat) -> room (S (cost sb i secs)) ->
  (forall x', recovers_to (disk x' 1) old -> c x') ->
  (forall x' a' secs' dk' i', intx x' a' secs' old dk' -> moved ip i' x x' -> mapped bn dk i secs dk' i' secs' ->
    q (slot dk' i' (idx bn)) x') ->
  triple [] c (bmap ip bn) [] x q.
Proof.
  intros G I Hip Hdev Hd Hi Hbn Hfree Hr Hc Hq. unfold bmap. eapply triple_geti_bind; [done|].
  rewrite (proj2 (Z.ltb_lt _ _)) by lia. assert (Ei : idx bn = bn) by (unfold idx; by rewrite (proj2 (Z.ltb_lt _ _)) by lia).
  assert (Es : slot dk i bn = addr_at i bn) by (unfold slot; by rewrite (proj2 (Z.leb_le _ _)) by lia).
  pose proof (fo_addrs _ _ _ _ _ Hi) as Hl. unfold NDIRECT in Hbn.
  destruct (lookup_lt_is_Some_2 (i_addrs i) (Z.to_nat bn) ltac:(lia)) as [v Hv].
  assert (Ev : addr_at i bn = v) by (unfold addr_at; by rewrite Hv).
  eapply triple_deref_bind; [apply aget_Some; split; [lia|exact Hv]|]. destruct (Z.eqb_spec v 0) as [Hz|Hz].
  - rewrite Ei, Es, Ev in Hfree. destruct Hfree as [|Hfree]; [done|]. rewrite Hdev.
    eapply (attach_triple ip i bn); [exact G|exact I|done|done|done|unfold NDIRECT; lia|by rewrite Es, Ev|lia|done|exact Hc|].
    intros f x' a' Hf Hu i' I' M'. tstep.
    pose proof (attach_mapped bn f dk i secs (absorb (absorb secs (bmb sb)) f)) as Ha.
    unfold attach in Ha. rewrite Ei, (proj2 (Z.leb_le bn NDIRECT)) in Ha by (unfold NDIRECT; lia).
    destruct Ha as [E Hm]; try done; [change MAXFILE with 140; lia|by rewrite Es, Ev|unfold NDIRECT; lia| |].
    + apply (cost_more sb i i' secs _ f); [done| |].
      * unfold base. rewrite !absorb_set. simpl. set_solver.
      * intros [H1 H2]. unfold ind_logged, i'. rewrite addr_at_set by (unfold NDIRECT; lia).
        rewrite decide_False by (unfold NDIRECT; lia). split; [done|]. rewrite !absorb_elem. by right; right; right.
    + rewrite <- E at 1. rewrite <- Ei at 2. by eapply Hq.
  - tstep. rewrite <- Ev, <- Es, <- Ei. eapply Hq; [exact I|by apply kept_moved|].
    apply mapped_refl; [done|done|]. by rewrite Ei, Es, Ev.
Qed.

(** Room for the steps of an allocation while the indirect block is held. *)
Lemma room_entry i secs f :
  NoDup secs -> room (S (cost sb i secs)) -> addr_at i NDIRECT <> 0 ->
  let ind := addr_at i NDIRECT in let secs1 := absorb (absorb secs (bmb sb)) f in
  Z.of_nat (length (absorb secs (bmb sb))) < lsize - 1 /\ Z.of_nat (length secs1) < lsize - 1 /\
  (S (size ({[bmb sb; ind]} ∪ list_to_set secs : gset Z)) < HEAD)%nat /\ (size ({[ind]} ∪ list_to_set secs1 : gset Z) < HEAD)%nat.
Proof.
  intros Hnd [R1 R2] Hi ind secs1.
  assert (Hb : (length (absorb secs (bmb sb)) <= size (base sb i secs))%nat).
  { rewrite <- size_secs by by apply absorb_NoDup. apply subseteq_size. rewrite absorb_set. unfold base. set_solver. }
  assert (H1 : (length secs1 <= S (size (base sb i secs)))%nat) by (pose proof (absorb_length (absorb secs (bmb sb)) f); unfold secs1; lia).
  pose proof (base_cost sb i secs) as Hc.
  assert (H2 : (size ({[bmb sb; ind]} ∪ list_to_set secs : gset Z) <= cost sb i secs)%nat).
  { destruct (ind_logged_dec i secs) as [[_ Hl]|Hl].
    - etrans; [apply subseteq_size|exact Hc]. unfold base, ind. set_solver.
    - rewrite (cost_no _ _ _ Hl). etrans; [apply subseteq_size|apply (size_add ind)]. unfold base. set_solver. }
  assert (H3 : (size ({[ind]} ∪ list_to_set secs1 : gset Z) <= S (cost sb i secs))%nat).
  { unfold secs1. rewrite !absorb_set. etrans; [apply subseteq_size|etrans; [apply (size_add f)|apply le_n_S, H2]]. set_solver. }
  split_and!; lia.
Qed.

Lemma bmap_entry ip i bn x a secs old dk (q : Z -> fsst -> Prop) :
  geometry -> intx x a secs old dk -> inodes x !! ip = Some i -> disk_ok dk -> inode_ok dk i ->
  NDIRECT <= bn < MAXFILE -> addr_at i NDIRECT <> 0 -> (slot dk i (idx bn) <> 0 \/ (0 < nfree sb dk)%nat) -> room (S (cost sb i secs)) ->
  (forall x', recovers_to (disk x' 1) old -> c x') ->
  (forall x' a' secs' dk' i', intx x' a' secs' old dk' -> moved ip i' x x' -> mapped bn dk i secs dk' i' secs' ->
    q (slot dk' i' (idx bn)) x') ->
  triple [] c (bp <- bread 1 (addr_at i NDIRECT) ;; d <- bdata bp ;;
    a <- (if rd32 d (4 * (bn - NDIRECT)) =? 0 then
            a <- balloc 1 ;; setdata bp (fun d => wr32 d (4 * (bn - NDIRECT)) a) ;;; log_write bp ;;; ret a
          else ret (rd32 d (4 * (bn - NDIRECT)))) ;;
    brelse bp ;;; ret a) [] x q.
Proof.
  intros G I Hip Hd Hi Hbn Hind Hfree Hr Hc Hq. set (ind := addr_at i NDIRECT) in *.
  destruct (slot_data start lsize sb dk i NDIRECT Hd Hi ltac:(by vm_compute) Hind) as (Hp & [Hs1 Hs2] & Hnb & _).
  destruct (fo_blocks _ _ _ _ _ Hi NDIRECT ltac:(by vm_compute) Hind) as [_ Hused].
  rewrite slot_ind in *. fold ind in Hp, Hs1, Hs2, Hnb, Hused.
  assert (Ei : idx bn = bn + 1) by (unfold idx; by rewrite (proj2 (Z.ltb_ge _ _)) by lia).
  assert (Es : slot dk i (idx bn) = rd32 (dk ind) (4 * (bn - NDIRECT))).
  { rewrite Ei. unfold slot. rewrite (proj2 (Z.leb_gt _ _)) by lia. fold ind. rewrite (proj2 (Z.eqb_neq ind 0)) by done. do 2 f_equal. lia. }
  eapply triple_step, bread_tx; [exact I|lia|done|]. intros b x1 a1 I1 K1.
  eapply triple_step, bdata_tx; [exact I1|]. rewrite <- Es. destruct (Z.eqb_spec (slot dk i (idx bn)) 0) as [Hz|Hz]; tstep.
  - destruct Hfree as [|Hfree]; [done|]. pose proof (so_nodup _ _ _ _ (it_secs _ _ _ _ _ _ _ _ I)) as Hnd.
    destruct (room_entry i secs 0 Hnd Hr Hind) as (A1 & _ & A3 & _). fold ind in A3.
    eapply triple_step, balloc_free; [exact G|exact I1|exact Hd|exact Hfree|apply lookup_singleton_ne; lia|by apply lookup_singleton_ne
      | |exact A1| |exact Hc|].
    { intros b' Hu. apply lookup_singleton_ne. congruence. }
    { rewrite dom_singleton_L. eapply Nat.le_lt_trans; [|exact A3]. apply le_n_S, subseteq_size. set_solver. }
    intros f x2 a2 Hf Hu I2 K2. destruct (room_entry i secs f Hnd Hr Hind) as (_ & A2 & _ & A4). fold ind in A4.
    tstep. apply triple_seq2. eapply log_tx; [exact G|exact I2|done|exact A2| |exact Hc|].
    { rewrite <- size_secs, absorb_set by (do 3 apply absorb_NoDup; done). done. }
    intros x3 a3 I3 K3. tstep. eapply triple_step, brelse_tx; [exact I3|]. intros x4 a4 I4 K4. tstep.
    set (secs2 := absorb _ ind) in *.
    pose proof (attach_mapped bn f dk i secs secs2) as Ha. unfold attach in Ha.
    rewrite Ei, (proj2 (Z.leb_gt _ _)) in Ha by lia. fold ind in Ha. replace (bn + 1 - (NDIRECT + 1)) with (bn - NDIRECT) in Ha by lia.
    destruct Ha as [E Hm]; try done; [unfold NDIRECT in *; lia|by rewrite <- Ei| |].
    + assert (Hl : ind_logged i (absorb secs ind)) by (split; [done|apply absorb_elem; by left]).
      transitivity (S (cost sb i (absorb secs ind))).
      * apply (cost_more sb i i _ _ f); [done| |].
        -- unfold secs2, base. rewrite !absorb_set. set_solver.
        -- intros _. split; [done|]. unfold secs2. rewrite !absorb_elem. by right; left.
      * apply le_n_S, cost_ind; [done| |done|done]. unfold base. rewrite absorb_set. set_solver.
    + assert (Mx : moved ip i x x4) by (apply kept_moved; [done|]; etrans; [exact K1|]; etrans; [exact K2|by etrans]).
      pose proof (Hq _ _ _ _ _ I4 Mx Hm) as Hq'. by rewrite Ei, E in Hq'.
  - eapply triple_step, brelse_tx; [exact I1|]. intros x2 a2 I2 K2. tstep.
    eapply Hq; [exact I2|apply kept_moved; [done|by etrans]|by apply mapped_refl].
Qed.

(** The indirect block has been added, then the block. *)
Lemma mapped_ind bn f dk i secs dk2 i2 secs2 :
  let dk1 := ballocated sb f dk in let i1 := set_i_addrs (aset (i_addrs i) NDIRECT f) i in
  let secs1 := absorb (absorb secs (bmb sb)) f in
  disk_ok dk -> inode_ok dk i -> 0 <= f < data_end sb -> used sb dk f = false -> NDIRECT <= bn -> addr_at i NDIRECT = 0 ->
  disk_ok dk1 /\ inode_ok dk1 i1 /\ addr_at i1 NDIRECT = f /\ f <> 0 /\ (nfree sb dk = S (nfree sb dk1))%nat /\
  (cost sb i1 secs1 <= cost sb i secs)%nat /\ (mapped bn dk1 i1 secs1 dk2 i2 secs2 -> mapped bn dk i secs dk2 i2 secs2).
Proof.
  intros dk1 i1 secs1 Hd Hi [Hfp Hf0] Hu Hbn Hz. pose proof (data_end_size _ _ _ _ f Hd Hf0) as Hf1. assert (Hk : 0 <= NDIRECT < NSLOT) by (by vm_compute).
  assert (E : (dk1, i1) = attach sb f NDIRECT dk i) by reflexivity.
  assert (Hn : NDIRECT < NDIRECT -> addr_at i NDIRECT <> 0) by lia.
  pose proof (attach_disk_ok start lsize sb dk i f NDIRECT Hd Hi (conj Hfp Hf1) Hf0 Hu Hn) as A1.
  pose proof (attach_inode_ok start lsize sb dk i f NDIRECT Hd Hi (conj Hfp Hf1) Hf0 Hu Hk Hz Hn) as A2.
  pose proof (attach_grown start lsize sb dk i f NDIRECT Hd Hi (conj Hfp Hf1) Hf0 Hu Hk Hz Hn) as A3.
  pose proof (attach_byte start lsize sb dk i f NDIRECT Hd Hi (conj Hfp Hf1) Hf0 Hu Hk Hz Hn) as A4.
  pose proof (attach_nfree start lsize sb dk i f NDIRECT Hd Hi (conj Hfp Hf1) Hf0 Hu Hn) as A5.
  rewrite <- E in A1, A2, A3, A4, A5. simpl in A1, A2, A3, A4, A5. pose proof (f_pos start lsize sb dk f Hd (conj Hfp Hf1) Hf0 Hu) as Hp.
  assert (Ea : addr_at i1 NDIRECT = f).
  { unfold i1. rewrite addr_at_set by (rewrite ?(fo_addrs _ _ _ _ _ Hi); unfold NDIRECT; lia). by rewrite decide_True. }
  assert (Hc : (cost sb i1 secs1 <= cost sb i secs)%nat).
  { apply cost_ind; [done| | |]; rewrite ?Ea.
    - unfold base, secs1. rewrite !absorb_set. simpl. set_solver.
    - split; rewrite Ea; [lia|]. apply absorb_elem. by left.
    - intros [H1 _]. done. }
  split_and!; try done; [lia|]. intros [M1 M2 M3 M4 M5 M6 M7 M8]. split; try done.
  - by eapply grown_trans.
  - intros Hs. destruct Hs. unfold slot, idx. rewrite (proj2 (Z.ltb_ge bn NDIRECT)) by lia. rewrite (proj2 (Z.leb_gt _ _)) by lia. by rewrite Hz.
  - intros o Ho Hs. rewrite M6; [by apply A4|done|]. by rewrite (gr_slots _ _ _ _ _ A3) by (done || apply idx_range; unfold BSIZE in *; Z.div_mod_to_equations; lia).
  - lia.
  - unfold lack in M8 |- *. rewrite Ea, (proj2 (Z.eqb_neq f 0)) in M8 by lia. rewrite Hz. simpl. lia.
Qed.

Lemma bmap_tx ip i bn x a secs old dk (q : Z -> fsst -> Prop) :
  geometry -> intx x a secs old dk -> inodes x !! ip = Some i -> i_dev i = 1 -> disk_ok dk -> inode_ok dk i ->
  0 <= bn < MAXFILE -> (slot dk i (idx bn) <> 0 \/ (lack i < nfree sb dk)%nat) -> room (S (cost sb i secs)) ->
  (forall x', recovers_to (disk x' 1) old -> c x') ->
  (forall x' a' secs' dk' i', intx x' a' secs' old dk' -> moved ip i' x x' -> mapped bn dk i secs dk' i' secs' ->
    q (slot dk' i' (idx bn)) x') ->
  triple [] c (bmap ip bn) [] x q.
Proof.
  intros G I Hip Hdev Hd Hi Hbn Hfree Hr Hc Hq. destruct (decide (bn < NDIRECT)) as [Hlt|Hge]; [by eapply (bmap_direct ip i bn); try done; lia|].
  unfold bmap. eapply triple_geti_bind; [done|]. rewrite (proj2 (Z.ltb_ge _ _)) by lia. cbv zeta.
  rewrite (proj2 (Z.ltb_lt (bn - NDIRECT) NINDIRECT)) by (unfold MAXFILE in Hbn; lia). rewrite Hdev.
  pose proof (fo_addrs _ _ _ _ _ Hi) as Hl. destruct (lookup_lt_is_Some_2 (i_addrs i) (Z.to_nat NDIRECT)) as [v Hv]; [rewrite Hl; by vm_compute; lia|].
  assert (Ev : addr_at i NDIRECT = v) by (unfold addr_at; by rewrite Hv).
  eapply triple_deref_bind; [apply aget_Some; split; [done|exact Hv]|]. rewrite <- Ev. destruct (Z.eqb_spec (addr_at i NDIRECT) 0) as [Hz|Hz].
  - assert (Hlack : lack i = 1%nat) by (unfold lack; by rewrite Hz).
    destruct Hfree as [Hs|Hfree].
    { destruct Hs. unfold slot, idx. rewrite (proj2 (Z.ltb_ge bn NDIRECT)) by lia. rewrite (proj2 (Z.leb_gt _ _)) by lia. by rewrite Hz. }
    tstep. apply triple_seq2. eapply (attach_triple ip i NDIRECT); [exact G|exact I|done|done|done|done|done|lia|done|exact Hc|].
    intros f x1 a1 Hf Hu i1 I1 M1. tstep.
    destruct (mapped_ind bn f dk i secs dk i secs Hd Hi Hf Hu ltac:(lia) Hz) as (D1 & J1 & Ea & Hnz & Hn1 & C1 & _).
    rewrite <- Ea at 1. pose proof (moved_inode _ _ _ _ _ Hip M1) as Hip1.
    eapply (bmap_entry ip i1 bn); [exact G|exact I1|done|done|done|lia|unfold i1; by rewrite Ea|right; lia|eapply room_mono; [|exact Hr]; by apply le_n_S|exact Hc|].
    intros x2 a2 secs2 dk2 i2 I2 M2 Mp. eapply Hq; [exact I2|by eapply moved_trans|].
    by apply (mapped_ind bn f dk i secs dk2 i2 secs2 Hd Hi Hf Hu ltac:(lia) Hz).
  - tstep. eapply bmap_entry; try done; [lia|]. destruct Hfree; [by left|right; lia].
Qed.

(** ** Writing *)

(** The bytes of [bytes] from [p] on are at [off] to [off + n] of the file. *)
Record written (p off n : Z) (bytes : list Z) (dk : Z -> list Z) (i : inode) (secs : list Z)
    (dk' : Z -> list Z) (i' : inode) (secs' : list Z) : Prop := mkwritten {
  wr_disk : disk_ok dk';
  wr_inode : inode_ok dk' i';
  wr_grown : grown sb dk i dk' i';
  wr_map : forall o, off <= o < off + n -> slot dk' i' (idx (o / BSIZE)) <> 0;
  wr_same : (forall o, off <= o < off + n -> slot dk i (idx (o / BSIZE)) <> 0) -> i' = i;
  wr_bytes : forall o, 0 <= o < MAXFILE * BSIZE -> (slot dk i (idx (o / BSIZE)) <> 0 \/ off <= o < off + n) ->
    fbyte dk' i' o = if decide (off <= o < off + n) then byte_at bytes (p + (o - off)) else fbyte dk i o;
  wr_cost : (cost sb i' secs' <= cost sb i secs + nblk off n)%nat;
  wr_free : (nfree sb dk + lack i' <= nblk off n + nfree sb dk' + lack i)%nat
}.

Lemma block_range o : 0 <= o < MAXFILE * BSIZE -> 0 <= o / BSIZE < MAXFILE /\ 0 <= o mod BSIZE < BSIZE.
Proof. unfold BSIZE. intros. Z.div_mod_to_equations. lia. Qed.

(** One round of the loop, then the others. *)
Lemma written_step p off n bytes dk i secs dk1 i1 secs1 dk' i' secs' :
  let m := Z.min n (BSIZE - off mod BSIZE) in let b := slot dk1 i1 (idx (off / BSIZE)) in
  let dk2 := <[b := splice (dk1 b) (off mod BSIZE) (slice bytes p m)]> dk1 in
  0 <= off -> 0 < n -> off + n <= MAXFILE * BSIZE -> 0 <= p -> p + n <= Z.of_nat (length bytes) ->
  mapped (off / BSIZE) dk i secs dk1 i1 secs1 ->
  disk_ok dk2 /\ inode_ok dk2 i1 /\ (forall k, slot dk2 i1 k = slot dk1 i1 k) /\ nfree sb dk2 = nfree sb dk1 /\
  (written (p + m) (off + m) (n - m) bytes dk2 i1 (absorb secs1 b) dk' i' secs' -> written p off n bytes dk i secs dk' i' secs').
Proof.
  intros m b dk2 Ho Hn Hmax Hp Hl [M1 M2 M3 M4 M5 M6 M7 M8].
  destruct (nblk_step off n Ho Hn) as (Hblk & Hm & Hmb & Hin). fold m in Hblk, Hm, Hmb, Hin.
  destruct (block_range off ltac:(lia)) as [Hbn Hmod]. destruct (idx_range _ Hbn) as [Hk Hne].
  assert (Hsl : length (slice bytes p m) = Z.to_nat m) by (unfold slice; rewrite length_take, length_drop; lia).
  destruct (slot_data start lsize sb dk1 i1 _ M1 M2 Hk M4) as (_ & _ & _ & Hlen). fold b in Hlen.
  assert (Hsp : length (splice (dk1 b) (off mod BSIZE) (slice bytes p m)) = Z.to_nat BSIZE).
  { unfold splice. rewrite !length_app, length_take, length_drop, Hsl, Hlen. unfold BSIZE in *. lia. }
  pose proof (patch_slot start lsize sb dk1 i1 _ (splice (dk1 b) (off mod BSIZE) (slice bytes p m)) M2 Hk Hne M4) as P1.
  pose proof (patch_byte start lsize sb dk1 i1 _ (splice (dk1 b) (off mod BSIZE) (slice bytes p m)) M2 Hk Hne M4 Hsp) as P4.
  pose proof (patch_grown start lsize sb dk1 i1 _ (splice (dk1 b) (off mod BSIZE) (slice bytes p m)) M1 M2 Hk Hne M4) as P5.
  fold b dk2 in P1, P4, P5.
  assert (P6 : nfree sb dk2 = nfree sb dk1) by by apply (patch_nfree (dsize := dsize) start lsize).
  split_and!; [by apply patch_disk_ok|by apply patch_inode_ok|done|done|].
  intros [W1 W2 W3 W4 W5 W6 W7 W8]. split; try done.
  - eapply grown_trans; [exact M3|]. by eapply grown_trans.
  - intros o Hoo. destruct (decide (o < off + m)) as [Hlt|]; [|apply W4; lia].
    assert (Eo : o / BSIZE = off / BSIZE) by (apply Hin; lia). rewrite Eo, (gr_slots _ _ _ _ _ W3) by (done || by rewrite P1). by rewrite P1.
  - intros Hall. destruct (M5 (Hall off ltac:(lia))) as [Ed Ei]. rewrite <- Ei. apply W5. intros o Hoo. rewrite P1, Ed, Ei. apply Hall. lia.
  - intros o Hoo Hs. destruct (block_range o Hoo) as [Hob Hom]. destruct (idx_range _ Hob) as [Hok _].
    assert (Hs1 : slot dk i (idx (o / BSIZE)) <> 0 -> slot dk1 i1 (idx (o / BSIZE)) <> 0) by (intros; by rewrite (gr_slots _ _ _ _ _ M3)).
    destruct (decide (off <= o < off + m)) as [Hc1|Hc1].
    + pose proof Hc1 as [Eo Er]%Hin. rewrite W6, decide_False, decide_True by (done || lia || (left; rewrite P1, Eo; done)).
      rewrite P4, Eo, decide_True by done. rewrite byte_at_splice by (rewrite ?Hsl, ?Hlen; lia).
      rewrite Hsl, decide_True by lia. rewrite byte_at_slice by lia. f_equal. unfold BSIZE in *. Z.div_mod_to_equations. lia.
    + rewrite W6 by first [done | destruct Hs as [Hs|Hs]; [left; rewrite P1; auto|right; lia]].
      destruct (decide (off + m <= o < off + m + (n - m))) as [Hc2|Hc2]; [rewrite decide_True by lia; f_equal; lia|].
      rewrite decide_False by lia. destruct Hs as [Hs|Hs]; [|lia]. rewrite <- M6 by done. rewrite P4 by done.
      case_decide as Ek; [|done]. apply idx_inj in Ek. unfold fbyte. rewrite Ek. fold b. rewrite byte_at_splice by (rewrite ?Hsl, ?Hlen; lia).
      rewrite decide_False; [done|]. rewrite Hsl. intros Hr. apply Hc1, Hin. split; [done|lia].
  - fold b in M7. rewrite Hblk. lia.
  - rewrite Hblk. lia.
Qed.

(** The blocks are there, or there are free ones for them. *)
Definition enough (dk : Z -> list Z) (i : inode) (off n : Z) : Prop :=
  (forall o, off <= o < off + n -> slot dk i (idx (o / BSIZE)) <> 0) \/ (lack i + nblk off n <= nfree sb dk)%nat.

Lemma log_step s b f secs x a old new (q : unit -> fsst -> Prop) :
  geometry -> holding {[s := b]} x a secs old new -> 1 < s < dsize ->
  Z.of_nat (length secs) < lsize - 1 -> (length (absorb secs s) < HEAD)%nat ->
  (forall x', recovers_to (disk x' 1) old -> c x') ->
  (forall x' a', holding {[s := b]} x' a' (absorb secs s) old (<[s := f (new s)]> new) -> kept x x' -> q tt x') ->
  triple [] c (setdata b f ;;; log_write b ;;; ret tt) [] x q.
Proof. intros G I Hs H1 H2 Hc Hq. eapply log_tx; [exact G|exact I|done|done|done|exact Hc|]. intros x' a' I' K'. tstep. by eapply Hq. Qed.

Lemma room_block i secs s :
  NoDup secs -> room (cost sb i (absorb secs s)) -> Z.of_nat (length secs) < lsize - 1 /\ (length (absorb secs s) < HEAD)%nat.
Proof.
  intros Hnd [H1 H2]. pose proof (length_base sb i (absorb secs s) (absorb_NoDup _ _ Hnd)). pose proof (base_cost sb i (absorb secs s)).
  pose proof (absorb_length secs s). lia.
Qed.

Lemma writei_loop_at s0 src bytes old k p ip i off n src' x a secs dk (q : Z -> fsst -> Prop) :
  geometry -> source_gives s0 src bytes -> (forall x', recovers_to (disk x' 1) old -> c x') ->
  intx x a secs old dk -> inodes x !! ip = Some i -> i_dev i = 1 -> disk_ok dk -> inode_ok dk i ->
  0 <= off -> 0 <= n -> off + n <= MAXFILE * BSIZE -> 0 <= p -> p + n = Z.of_nat (length bytes) ->
  enough dk i off n -> room (cost sb i secs + nblk off n) -> (nblk off n < k)%nat ->
  src' = source_add src p \/ p = 0 /\ src' = src ->
  (forall x' a' secs' dk' i', intx x' a' secs' old dk' -> moved ip i' x x' -> written p off n bytes dk i secs dk' i' secs' ->
    q (off + n) x') ->
  triple_at s0 [] c (writei_loop k ip src' off n) [] x q.
Proof.
  intros G Hsrc Hc. revert p i off n src' x a secs dk. induction k as [|k IH]; intros p i off n src' x a secs dk I Hip Hdev Hd Hi Ho Hn Hmax Hp Hl He Hr Hk Hs' Hq; [lia|].
  cbn [writei_loop]. destruct (Z.ltb_spec 0 n) as [Hpos|Hz]; cycle 1.
  { assert (n = 0) as -> by lia. apply triple_at_of. tstep. rewrite <- (Z.add_0_r off). eapply Hq; [exact I|by apply kept_moved|].
    split; [done|done|apply grown_refl|lia|done| |unfold nblk; simpl; lia..].
    intros o _ [|]; [|lia]. by rewrite decide_False by lia. }
  destruct (nblk_step off n Ho Hpos) as (Hblk & Hm & Hmb & Hin). set (m := Z.min n (BSIZE - off mod BSIZE)) in *.
  destruct (block_range off ltac:(lia)) as [Hbn Hmod]. destruct (idx_range _ Hbn) as [Hsk _].
  eapply triple_at_step. eapply triple_geti; [done|].
  eapply triple_at_step. eapply bmap_tx; [exact G|exact I|done|done|exact Hd|exact Hi|exact Hbn| | |exact Hc|].
  { destruct He as [He|He]; [left; apply He; lia|right; lia]. }
  { eapply room_mono; [|exact Hr]. lia. }
  intros x1 a1 secs1 dk1 i1 I1 M1 Mp. pose proof (mp_disk _ _ _ _ _ _ _ Mp) as Hd1.
  destruct (slot_data start lsize sb dk1 i1 _ Hd1 (mp_inode _ _ _ _ _ _ _ Mp) Hsk (mp_slot _ _ _ _ _ _ _ Mp)) as (_ & [Hs1 Hs2] & _ & _).
  set (b := slot dk1 i1 (idx (off / BSIZE))) in *. rewrite Hdev.
  eapply triple_at_step. eapply bread_tx; [exact I1|lia|done|]. intros bp x2 a2 I2 K2.
  eapply triple_at_look; [intros s Fs; apply (Hsrc s p m); done || lia|].
  destruct (room_block i1 secs1 b) as [L1 L2]; [apply I1| |].
  { eapply room_mono; [|exact Hr]. pose proof (mp_cost _ _ _ _ _ _ _ Mp) as Hco. fold b in Hco. lia. }
  apply triple_at_cut. eapply log_step; [exact G|exact I2|done|done|done|exact Hc|]. intros x3 a3 I3 K3.
  eapply triple_at_step. eapply brelse_tx; [exact I3|]. intros x4 a4 I4 K4.
  assert (M4 : moved ip i1 x x4) by (eapply moved_kept; [exact M1|]; etrans; [exact K2|by etrans]).
  assert (Hs2' : source_add src' m = source_add src (p + m)) by (destruct Hs' as [->|[-> ->]]; [by apply source_add_add; lia|done]).
  destruct (written_step p off n bytes dk i secs dk1 i1 secs1 dk i secs Ho Hpos Hmax Hp ltac:(lia) Mp) as (D2 & J2 & S2 & N2 & _).
  fold b m in D2, J2, S2, N2.
  eapply (IH (p + m)); [exact I4|by eapply moved_inode| |exact D2|exact J2|lia|lia|lia|lia|lia| | |lia|left; exact Hs2'|].
  - by rewrite (gr_fields _ _ _ _ _ (mp_grown _ _ _ _ _ _ _ Mp)).
  - destruct He as [He|He]; [left|right].
    + intros o Hoo. rewrite S2. destruct (mp_same _ _ _ _ _ _ _ Mp (He off ltac:(lia))) as [-> ->]. apply He. lia.
    + rewrite N2. pose proof (mp_free _ _ _ _ _ _ _ Mp). lia.
  - eapply room_mono; [|exact Hr]. pose proof (mp_cost _ _ _ _ _ _ _ Mp) as Hco. fold b in Hco. lia.
  - intros x5 a5 secs5 dk5 i5 I5 M5 W5. replace (off + m + (n - m)) with (off + n) by lia.
    eapply Hq; [exact I5|by eapply moved_trans|]. by apply (written_step p off n bytes dk i secs dk1 i1 secs1 dk5 i5 secs5 Ho Hpos Hmax Hp ltac:(lia) Mp).
Qed.

Lemma written_content off n bytes dk i secs dk' i' secs' :
  let z := Z.max (i_size i) (off + n) in
  inode_ok dk i -> 0 <= off <= i_size i -> n = Z.of_nat (length bytes) -> off + n <= MAXFILE * BSIZE ->
  written 0 off n bytes dk i secs dk' i' secs' ->
  inode_ok dk' (set_i_size z i') /\ content dk' (set_i_size z i') = splice (content dk i) off bytes.
Proof.
  intros z Hi Ho Hn Hmax [W1 W2 W3 W4 W5 W6 W7 W8]. pose proof (fo_size _ _ _ _ _ Hi) as Hsz.
  assert (Hfull : forall o, 0 <= o < i_size i -> slot dk i (idx (o / BSIZE)) <> 0).
  { intros o Hoo. apply (fo_full _ _ _ _ _ Hi); unfold BSIZE in *; Z.div_mod_to_equations; lia. }
  split.
  - destruct W2 as [F1 F2 F3 F4 F5]. split; [done|simpl; unfold z; lia|done|done|].
    intros bn Hb Hlt. simpl in Hlt. change (slot dk' i' (idx bn) <> 0). unfold z in Hlt.
    assert (Eb : bn * BSIZE / BSIZE = bn) by (unfold BSIZE; by rewrite Z.div_mul).
    destruct (decide (bn * BSIZE < i_size i)) as [Hs|Hs].
    + specialize (Hfull (bn * BSIZE) ltac:(unfold BSIZE in *; lia)). rewrite Eb in Hfull. rewrite (gr_slots _ _ _ _ _ W3); [done|apply idx_range; unfold BSIZE in *; lia|done].
    + rewrite <- Eb. apply W4. unfold BSIZE in *. lia.
  - apply list_eq. intros j. rewrite lookup_splice by (rewrite length_content; lia). rewrite !lookup_content. simpl. unfold z.
    rewrite <- Hn. change (fbyte dk' (set_i_size (i_size i `max` (off + n)) i')) with (fbyte dk' i').
    case_decide as E1; case_decide as E2.
    + rewrite W6, decide_True by (lia || by right). unfold byte_at. replace (Z.to_nat (0 + (Z.of_nat j - off))) with (j - Z.to_nat off)%nat by lia.
      destruct (lookup_lt_is_Some_2 bytes (j - Z.to_nat off) ltac:(lia)) as [v ->]. done.
    + rewrite decide_True by lia. rewrite W6, decide_False by first [lia | left; apply Hfull; lia]. done.
    + lia.
    + by rewrite decide_False by lia.
Qed.

(** What [writei] does to a disk of files. *)
Record file_written (off : Z) (bytes : list Z) (dk : Z -> list Z) (i : inode) (dk' : Z -> list Z) (i' : inode) : Prop := mkfile_written {
  fw_fsys : fsys dk';
  fw_agrees : agrees sb dk' i';
  fw_fields : i' = set_i_size (i_size i') (set_i_addrs (i_addrs i') i);
  fw_content : content dk' i' = splice (content dk i) off bytes;
  fw_others : forall j, 0 < j < sb_ninodes sb -> j <> i_inum i ->
    dinode dk' j = dinode dk j /\ content dk' (dinode dk' j) = content dk (dinode dk j);
  fw_free : (nfree sb dk + lack i' <= nblk off (Z.of_nat (length bytes)) + nfree sb dk' + lack i)%nat
}.

Lemma iupdate_tx ip i x a secs old dk (q : unit -> fsst -> Prop) :
  let ib := IBLOCK (i_inum i) in
  geometry -> intx x a secs old dk -> inodes x !! ip = Some i -> i_dev i = 1 -> 1 < ib < dsize -> ~ inlog ib -> room (cost sb i secs) ->
  (forall x', recovers_to (disk x' 1) old -> c x') ->
  (forall x' a', intx x' a' (absorb secs ib) old (<[ib := put_dinode i (dk ib) (dinode_at (i_inum i))]> dk) -> kept x x' -> q tt x') ->
  triple [] c (iupdate ip) [] x q.
Proof.
  intros ib G I Hip Hdev Hib Hil Hr Hc Hq. unfold iupdate. eapply triple_geti_bind; [done|]. rewrite Hdev.
  destruct (room_block i secs ib) as [L1 L2]; [apply I| |].
  { eapply room_mono; [|exact Hr]. unfold cost. apply Nat.add_le_mono.
    - apply subseteq_size. rewrite absorb_set. set_solver.
    - repeat case_decide; try lia. destruct H0. split; [naive_solver|]. apply absorb_elem. naive_solver. }
  eapply triple_step, bread_tx; [exact I|lia|done|]. intros b x1 a1 I1 K1.
  eapply log_tx; [exact G|exact I1|done|done|done|exact Hc|]. intros x2 a2 I2 K2.
  eapply brelse_tx; [exact I2|]. intros x3 a3 I3 K3. eapply Hq; [exact I3|]. etrans; [exact K1|by etrans].
Qed.

Lemma nblk_fuel off n : 0 <= off -> 0 <= n -> (nblk off n < nblocks n)%nat.
Proof.
  intros Ho Hn. unfold nblk, nblocks, BSIZE. destruct (Z.leb_spec n 0); [lia|]. Z.div_mod_to_equations. lia.
Qed.

(** After the loop the inode has its blocks, but not yet its size. *)
Lemma writei_end off n bytes dk i secs dk' i' secs' :
  let z := Z.max (i_size i) (off + n) in
  fsys dk -> agrees sb dk i -> 0 <= off <= i_size i -> n = Z.of_nat (length bytes) -> off + n <= MAXFILE * BSIZE ->
  written 0 off n bytes dk i secs dk' i' secs' ->
  if decide (i_size i < off + n)
  then let i2 := set_i_size (off + n) i' in
    file_written off bytes dk i (<[IBLOCK (i_inum i) := put_dinode i2 (dk' (IBLOCK (i_inum i))) (dinode_at (i_inum i))]> dk') i2
  else file_written off bytes dk i dk' i'.
Proof.
  intros z F A Ho Hn Hmax W. pose proof (agrees_ok _ _ _ _ _ F A) as Hi.
  destruct (written_content off n bytes dk i secs dk' i' secs' Hi Ho Hn Hmax W) as [J Ec].
  pose proof W as [W1 W2 W3 W4 W5 W6 W7 W8]. case_decide as Hgrow.
  - rewrite Z.max_r in J, Ec by lia. destruct (fsys_inode start lsize sb dk i dk' i' (off + n) F A W1 J W3) as (F2 & A2 & C2 & O2).
    split; [exact F2|exact A2| |by rewrite C2|exact O2|].
    + rewrite (gr_fields _ _ _ _ _ W3). by destruct i.
    + rewrite <- Hn. rewrite (nfree_ext sb dk' (<[_ := _]> dk')); [exact W8|]. intros b Hb. eapply iblock_used; [exact W1|apply A| |pose proof (data_end_size _ _ _ _ b W1); lia].
      rewrite length_put_dinode. apply (do_len _ _ _ _ W1), (do_inodes _ _ _ _ W1). pose proof (ag_inum _ _ _ A). lia.
  - rewrite Z.max_l in J, Ec by lia. pose proof (gr_fields _ _ _ _ _ W3) as Ef.
    assert (i' = i) as ->.
    { apply W5. intros o Hoo. apply (fo_full _ _ _ _ _ Hi); unfold BSIZE in *; Z.div_mod_to_equations; lia. }
    destruct (fsys_bytes start lsize sb dk i dk' F A W1 W2 W3) as (F2 & A2 & O2).
    split; [done|done|by destruct i|destruct i; exact Ec|done|]. by rewrite <- Hn.
Qed.

Lemma writei_at s0 src bytes old ip i off n x a secs dk (q : Z -> fsst -> Prop) :
  geometry -> source_gives s0 src bytes -> n = Z.of_nat (length bytes) -> (forall x', recovers_to (disk x' 1) old -> c x') ->
  intx x a secs old dk -> inodes x !! ip = Some i -> fsys dk -> agrees sb dk i -> i_type i <> T_DEV ->
  0 <= off <= i_size i -> off + n <= MAXFILE * BSIZE -> enough dk i off n -> room (cost sb i secs + nblk off n) ->
  (forall x' a' secs' dk' i', intx x' a' secs' old dk' -> moved ip i' x x' -> file_written off bytes dk i dk' i' -> q n x') ->
  triple_at s0 [] c (writei ip src off n) [] x q.
Proof.
  intros G Hsrc Hn Hc I Hip F A Hty Ho Hmax He Hr Hq. unfold writei.
  pose proof (agrees_ok _ _ _ _ _ F A) as Hi. pose proof (fy_disk _ _ _ _ F) as Hd. change (MAXFILE * BSIZE) with 71680 in *.
  eapply triple_at_step, triple_geti; [done|]. rewrite (proj2 (Z.eqb_neq _ _)) by done.
  rewrite (u32_small (off + n)) by (unfold is_u32; lia).
  rewrite (proj2 (Z.ltb_ge _ _)), (proj2 (Z.ltb_ge _ _)), (proj2 (Z.ltb_ge _ _)) by lia. cbn [orb].
  assert (Eib : 1 < IBLOCK (i_inum i) < dsize /\ ~ inlog (IBLOCK (i_inum i)))
    by (apply (do_inodes _ _ _ _ Hd); pose proof (ag_inum _ _ _ A); lia). destruct Eib as [Eib1 Eib2].
  set (k := fun off' => _). assert (Hk : forall x1 a1 secs1 dk1 i1, intx x1 a1 secs1 old dk1 -> moved ip i1 x x1 ->
    written 0 off n bytes dk i secs dk1 i1 secs1 -> triple [] c (k (off + n)) [] x1 q).
  { intros x1 a1 secs1 dk1 i1 I1 M1 W. pose proof (moved_inode _ _ _ _ _ Hip M1) as Hip1. unfold k.
    pose proof (gr_fields _ _ _ _ _ (wr_grown _ _ _ _ _ _ _ _ _ _ W)) as Ef.
    assert (Es : i_size i1 = i_size i /\ i_inum i1 = i_inum i /\ i_dev i1 = 1) by (rewrite Ef; simpl; split_and!; [done|done|apply A]).
    destruct Es as (Es & En & Edev). eapply triple_geti_bind; [done|]. rewrite Es.
    pose proof (writei_end off n bytes dk i secs dk1 i1 secs1 F A Ho Hn Hmax W) as We. case_decide as Hg.
    - rewrite (proj2 (Z.ltb_lt 0 n)), (proj2 (Z.ltb_lt (i_size i) _)) by lia. cbn [andb]. tstep.
      eapply triple_modi_bind; [done|]. set (i2 := set_i_size (off + n) i1) in *. set (x2 := set_inodes _ x1).
      assert (Hip2 : inodes x2 !! ip = Some i2) by (apply list_lookup_insert_eq; by eapply lookup_lt_Some).
      assert (En2 : i_inum i2 = i_inum i) by exact En.
      eapply triple_step, (iupdate_tx ip i2); [exact G|apply holding_inode, I1|done|done|by rewrite En2|by rewrite En2| |exact Hc|].
      { eapply room_mono; [|exact Hr]. apply (wr_cost _ _ _ _ _ _ _ _ _ _ W). }
      rewrite En2. intros x3 a3 I3 K3. tstep. rewrite s32_small by (unfold is_s32; lia). eapply Hq; [exact I3| |exact We].
      eapply moved_trans; [exact M1|]. unfold moved. exact K3.
    - assert (Eb : (0 <? n) && (i_size i <? off + n) = false) by (apply andb_false_iff; right; apply Z.ltb_ge; lia).
      rewrite Eb. tstep. tstep. rewrite s32_small by (unfold is_s32; lia). eapply Hq; [exact I1|exact M1|exact We]. }
  eapply triple_at_bind, (writei_loop_at s0 src bytes old (nblocks n) 0 ip i off n src x a secs dk); try done;
    [apply A|lia|lia|apply nblk_fuel; lia|by right|].
  intros x1 a1 secs1 dk1 i1 I1 M1 W. by eapply triple_at_of, Hk.
Qed.

(** ** Reading *)

(** The cache shows the disk [dk] and nobody holds a buffer, in a transaction or not. *)
Record views (x : fsst) (a : acache) (dk : Z -> list Z) : Prop := mkviews {
  vw_repr : repr x a;
  vw_busy : a_busy a = ∅;
  vw_room : (size (a_dirty a) < HEAD)%nat;
  vw_view : forall s, ~ inlog s -> a_view a s = dk s
}.

(** The same, later. *)
Definition looked (x : fsst) (a : acache) (x' : fsst) : Prop := repr x' a /\ rest x x' /\ disk x' = disk x.

Lemma looked_trans x x1 x2 a : looked x a x1 -> looked x1 a x2 -> looked x a x2.
Proof. intros (R1 & S1 & E1) (R2 & S2 & E2). split_and!; [done|by etrans|congruence]. Qed.

Lemma looked_views x a dk x' : views x a dk -> looked x a x' -> views x' a dk.
Proof. intros [] (R & _). by split. Qed.

Lemma looked_inodes x a x' : looked x a x' -> inodes x' = inodes x.
Proof. intros (_ & S & _). by apply kept_inodes, rest_kept. Qed.

Lemma bread_look s x a dk (q : nat -> fsst -> Prop) :
  views x a dk -> s < dsize -> ~ inlog s ->
  (forall b x', looked x (abread a s b) x' -> q b x') -> triple [] c (bread 1 s) [] x q.
Proof.
  intros [R Hb Hr Hv] Hs Hl Hq. eapply bread_triple; [set_solver|set_solver|exact R|by rewrite Hb|done| |].
  - right. unfold pinned. by rewrite Hb, dom_empty_L, union_empty_l_L.
  - intros b x1 R1 S1 E1. by apply (Hq b).
Qed.

Lemma bdata_look s b x x1 a dk (q : list Z -> fsst -> Prop) :
  views x a dk -> ~ inlog s -> looked x (abread a s b) x1 -> q (dk s) x1 -> triple [] c (bdata b) [] x1 q.
Proof.
  intros V Hl (R1 & _) Hq. eapply bdata_triple; [exact R1|apply lookup_insert_eq|]. simpl. by rewrite (vw_view _ _ _ V).
Qed.

Lemma brelse_look s b x x1 a dk (q : unit -> fsst -> Prop) :
  views x a dk -> looked x (abread a s b) x1 -> (forall x', looked x a x' -> q tt x') -> triple [] c (brelse b) [] x1 q.
Proof.
  intros [R Hb Hr Hv] (R1 & S1 & E1) Hq. eapply brelse_triple; [set_solver|set_solver|exact R1|apply lookup_insert_eq| |].
  { simpl. destruct (decide (s ∈ a_dirty a)); [by left|right]. apply (repr_unpinned x); [done|]. unfold pinned. rewrite Hb. set_solver. }
  intros x2 R2 S2 E2. apply Hq. split_and!; [|by etrans|congruence].
  assert (Ea : abrelse (abread a s b) s = a); [|by rewrite <- Ea].
  destruct a as [v dd bz dt]. simpl in Hb. subst bz. unfold abrelse, abread. simpl. by rewrite insert_empty, delete_singleton_eq.
Qed.

Lemma bmap_look ip i bn x a dk (q : Z -> fsst -> Prop) :
  views x a dk -> inodes x !! ip = Some i -> i_dev i = 1 -> disk_ok dk -> inode_ok dk i ->
  0 <= bn < MAXFILE -> slot dk i (idx bn) <> 0 ->
  (forall x', looked x a x' -> q (slot dk i (idx bn)) x') -> triple [] c (bmap ip bn) [] x q.
Proof.
  intros V Hip Hdev Hd Hi Hbn Hs Hq. pose proof (fo_addrs _ _ _ _ _ Hi) as Hl. unfold bmap. eapply triple_geti_bind; [done|].
  assert (Hlook : looked x a x) by (split_and!; [apply V|reflexivity|done]).
  unfold idx in Hs, Hq. unfold slot in Hs, Hq. destruct (Z.ltb_spec bn NDIRECT) as [Hlt|Hge].
  - rewrite (proj2 (Z.leb_le _ _)) in Hs, Hq by lia. unfold NDIRECT in Hlt.
    destruct (lookup_lt_is_Some_2 (i_addrs i) (Z.to_nat bn) ltac:(lia)) as [v Hv].
    assert (Ev : addr_at i bn = v) by (unfold addr_at; by rewrite Hv). rewrite Ev in Hs, Hq.
    eapply triple_deref_bind; [apply aget_Some; split; [lia|exact Hv]|]. rewrite (proj2 (Z.eqb_neq _ _)) by done. tstep. by apply Hq.
  - rewrite (proj2 (Z.leb_gt _ _)) in Hs, Hq by lia. rewrite (proj2 (Z.ltb_lt (bn - NDIRECT) NINDIRECT)) by (unfold MAXFILE in Hbn; lia).
    destruct (lookup_lt_is_Some_2 (i_addrs i) (Z.to_nat NDIRECT)) as [v Hv]; [rewrite Hl; by vm_compute; lia|].
    assert (Ev : addr_at i NDIRECT = v) by (unfold addr_at; by rewrite Hv). rewrite Ev in Hs, Hq.
    destruct (Z.eqb_spec v 0) as [|Hz]; [done|]. rewrite <- Ev in Hz.
    destruct (slot_data start lsize sb dk i NDIRECT Hd Hi ltac:(by vm_compute) Hz) as (_ & [Hs1 Hs2] & _). rewrite slot_ind, Ev in *.
    eapply triple_deref_bind; [apply aget_Some; split; [done|exact Hv]|]. rewrite (proj2 (Z.eqb_neq _ _)) by done. tstep. rewrite Hdev.
    replace (bn + 1 - (NDIRECT + 1)) with (bn - NDIRECT) in Hs, Hq by lia.
    eapply triple_step, bread_look; [exact V|lia|done|]. intros b x1 L1.
    eapply triple_step, bdata_look; [exact V|done|exact L1|]. rewrite (proj2 (Z.eqb_neq _ _)) by done. tstep.
    eapply triple_step, brelse_look; [exact V|exact L1|]. intros x2 L2. tstep. by apply Hq.
Qed.

Lemma slice_split (l : list Z) o m n :
  0 <= o -> 0 <= m <= n -> slice l o m ++ slice l (o + m) (n - m) = slice l o n.
Proof.
  intros Ho Hm. unfold slice. rewrite <- (take_drop (Z.to_nat m) (take (Z.to_nat n) (drop (Z.to_nat o) l))). f_equal.
  - rewrite take_take. f_equal. lia.
  - rewrite skipn_firstn_comm, drop_drop. do 2 f_equal; lia.
Qed.

(** The bytes of one block are bytes of the file. *)
Lemma block_content dk i off m :
  disk_ok dk -> inode_ok dk i -> 0 <= off -> off + m <= i_size i -> 0 < m -> off mod BSIZE + m <= BSIZE ->
  slice (dk (slot dk i (idx (off / BSIZE)))) (off mod BSIZE) m = slice (content dk i) off m.
Proof.
  intros Hd Hi Ho Hs Hm Hb. pose proof (fo_size _ _ _ _ _ Hi) as Hsz. destruct (block_range off ltac:(lia)) as [Hbn Hmod].
  assert (Hsl : slot dk i (idx (off / BSIZE)) <> 0) by (apply (fo_full _ _ _ _ _ Hi); unfold BSIZE in *; Z.div_mod_to_equations; lia).
  destruct (slot_data start lsize sb dk i _ Hd Hi (proj1 (idx_range _ Hbn)) Hsl) as (_ & _ & _ & Hlen).
  apply list_eq. intros j. unfold slice. destruct (decide (j < Z.to_nat m)%nat) as [Hj|Hj]; [|by rewrite !lookup_take_ge by lia].
  rewrite !lookup_take_lt, !lookup_drop, lookup_content, decide_True by lia. unfold fbyte, byte_at.
  assert (E1 : Z.of_nat (Z.to_nat off + j) / BSIZE = off / BSIZE) by (unfold BSIZE in *; Z.div_mod_to_equations; lia).
  assert (E2 : Z.to_nat (Z.of_nat (Z.to_nat off + j) mod BSIZE) = (Z.to_nat (off mod BSIZE) + j)%nat)
    by (unfold BSIZE in *; Z.div_mod_to_equations; lia).
  rewrite E1, E2. destruct (lookup_lt_is_Some_2 (dk (slot dk i (idx (off / BSIZE)))) (Z.to_nat (off mod BSIZE) + j)) as [v ->]; [|done].
  rewrite Hlen. unfold BSIZE in *. lia.
Qed.

Lemma readi_loop_look k ip i off n acc x a dk (q : list Z -> fsst -> Prop) :
  views x a dk -> inodes x !! ip = Some i -> i_dev i = 1 -> disk_ok dk -> inode_ok dk i ->
  0 <= off -> 0 <= n -> off + n <= i_size i -> (nblk off n < k)%nat ->
  (forall x', looked x a x' -> q (acc ++ slice (content dk i) off n) x') ->
  triple [] c (readi_loop k ip ToLocal off n acc) [] x q.
Proof.
  revert off n acc x. induction k as [|k IH]; intros off n acc x V Hip Hdev Hd Hi Ho Hn Hs Hk Hq; [lia|].
  cbn [readi_loop]. destruct (Z.ltb_spec 0 n) as [Hpos|Hz]; cycle 1.
  { assert (n = 0) as -> by lia. tstep. specialize (Hq x). unfold slice in Hq. simpl in Hq. rewrite app_nil_r in Hq.
    apply Hq. split_and!; [apply V|reflexivity|done]. }
  destruct (nblk_step off n Ho Hpos) as (Hblk & Hm & Hmb & _). set (m := Z.min n (BSIZE - off mod BSIZE)) in *.
  pose proof (fo_size _ _ _ _ _ Hi) as Hsz. destruct (block_range off ltac:(lia)) as [Hbn Hmod].
  assert (Hsl : slot dk i (idx (off / BSIZE)) <> 0) by (apply (fo_full _ _ _ _ _ Hi); unfold BSIZE in *; Z.div_mod_to_equations; lia).
  destruct (slot_data start lsize sb dk i _ Hd Hi (proj1 (idx_range _ Hbn)) Hsl) as (_ & [Hs1 Hs2] & _ & _).
  eapply triple_geti_bind; [done|]. eapply triple_step, bmap_look; try done. intros x1 L1. rewrite Hdev.
  pose proof (looked_views _ _ _ _ V L1) as V1.
  eapply triple_step, bread_look; [exact V1|lia|done|]. intros b x2 L2.
  eapply triple_step, bdata_look; [exact V1|done|exact L2|]. rewrite block_content by (done || lia). cbn [put_dest dest_add]. tstep.
  eapply triple_step, brelse_look; [exact V1|exact L2|]. intros x3 L3. pose proof (looked_trans _ _ _ _ L1 L3) as L.
  eapply IH; [by eapply looked_views|by rewrite (looked_inodes _ _ _ L)|done|done|done|lia|lia|lia|lia|].
  intros x4 L4. rewrite <- (assoc_L app), slice_split by lia. apply Hq. by eapply looked_trans.
Qed.

(** What [readi] returns. *)
Definition read_result (l : list Z) (off n : Z) : Z * list Z :=
  if (Z.of_nat (length l) <? off) || (2 ^ 32 <=? off + n) then (-1, [])
  else let m := Z.min n (Z.of_nat (length l) - off) in (m, slice l off m).

Lemma readi_look ip i off n x a dk (q : Z * list Z -> fsst -> Prop) :
  views x a dk -> inodes x !! ip = Some i -> i_dev i = 1 -> disk_ok dk -> inode_ok dk i -> i_type i <> T_DEV ->
  is_u32 off -> is_u32 n -> (forall x', looked x a x' -> q (read_result (content dk i) off n) x') ->
  triple [] c (readi ip ToLocal off n) [] x q.
Proof.
  intros V Hip Hdev Hd Hi Hty Ho Hn Hq. unfold readi. eapply triple_geti_bind; [done|]. rewrite (proj2 (Z.eqb_neq _ _)) by done.
  pose proof (fo_size _ _ _ _ _ Hi) as Hsz. change (MAXFILE * BSIZE) with 71680 in Hsz.
  unfold read_result in Hq. rewrite length_content, Z2Nat.id in Hq by lia. unfold is_u32 in *.
  destruct (Z.ltb_spec (i_size i) off) as [H1|H1]; cbn [orb] in *.
  { tstep. apply Hq. split_and!; [apply V|reflexivity|done]. }
  assert (Eo : (u32 (off + n) <? off) = (2 ^ 32 <=? off + n)).
  { unfold u32. destruct (Z.leb_spec (2 ^ 32) (off + n)).
    - apply Z.ltb_lt. Z.div_mod_to_equations. lia.
    - apply Z.ltb_ge. rewrite Z.mod_small by lia. lia. }
  rewrite Eo. destruct (Z.leb_spec (2 ^ 32) (off + n)) as [H2|H2].
  { tstep. apply Hq. split_and!; [apply V|reflexivity|done]. }
  rewrite u32_small by (unfold is_u32; lia). set (m := if i_size i <? off + n then i_size i - off else n).
  assert (Em : m = Z.min n (i_size i - off)) by (unfold m; destruct (Z.ltb_spec (i_size i) (off + n)); lia).
  rewrite <- Em in Hq. eapply triple_step, readi_loop_look; [done..|lia|lia|lia|apply nblk_fuel; lia|].
  intros x' L'. tstep. rewrite s32_small by (unfold is_s32; lia). by apply Hq.
Qed.
End Transfer.
