(* ===== verification/PathThm.v ===== *)
(** * Path names and directory entries

    [skipelem] of [fs.c] takes a path apart into its elements; an element finds
    the directory entry that was made for a name with the same first [DIRSIZ]
    bytes ([namecmp], and the [strncpy] of [dirlink]). *)

From stdpp Require Import base list numbers strings tactics gmap.
From Stdlib Require Import Lia.
From S2P Require Import Prelude Params StringC FsState KState Bio Log LogSpec Fs.

Local Open Scope Z_scope.

(** ** Names *)

(** The string in an array of [n] bytes. *)
Fixpoint cut (n : nat) (l : list Z) : list Z :=
  match n, l with
  | S n, c :: l => if c =? 0 then [] else c :: cut n l
  | _, _ => []
  end.

Definition name_of (l : list Z) : list Z := cut (Z.to_nat DIRSIZ) l.

Lemma cstr_cut m p n l : (forall i, (i < n)%nat -> m (p + Z.of_nat i) = default 0 (l !! i)) -> cstr m p n = cut n l.
Proof.
  revert p l. induction n as [|n IH]; intros p l H; [done|]. simpl.
  pose proof (H 0%nat ltac:(lia)) as H0. rewrite Z.add_0_r in H0. rewrite H0. destruct l as [|c l]; simpl; [done|].
  destruct (Z.eqb_spec c 0); [done|]. f_equal. apply IH. intros i Hi.
  specialize (H (S i) ltac:(lia)). simpl in H. rewrite <- H. f_equal. lia.
Qed.

Lemma cut_short n l r : Forall (fun c => c <> 0) l -> (length l < n)%nat -> cut n (l ++ 0 :: r) = l.
Proof.
  revert l. induction n as [|n IH]; intros l Hl Hn; [lia|]. destruct l as [|c l]; simpl; [done|].
  inversion_clear Hl. rewrite (proj2 (Z.eqb_neq _ _)) by done. f_equal. apply IH; [done|]. simpl in Hn. lia.
Qed.

Lemma cut_full n l : Forall (fun c => c <> 0) l -> cut n l = take n l.
Proof.
  revert l. induction n as [|n IH]; intros l Hl; [done|]. destruct l as [|c l]; simpl; [done|].
  inversion_clear Hl. rewrite (proj2 (Z.eqb_neq _ _)) by done. f_equal. by apply IH.
Qed.

Definition byte_list (l : list Z) : Prop := Forall (fun c => 0 <= c < 256) l.

Lemma byte_at_range l i : byte_list l -> 0 <= byte_at l i < 256.
Proof.
  intros Hl. unfold byte_at. destruct (l !! Z.to_nat i) as [c|] eqn:E; simpl; [|lia].
  exact (Forall_lookup_1 _ _ _ _ Hl E).
Qed.

Lemma two_strings_cstr s t : cstr (two_strings s t) 0 (Z.to_nat DIRSIZ) = name_of s /\
  cstr (two_strings s t) 1000 (Z.to_nat DIRSIZ) = name_of t.
Proof.
  split; apply cstr_cut; intros i Hi; unfold two_strings, byte_at; change (Z.to_nat DIRSIZ) with 14%nat in Hi.
  - rewrite (proj2 (Z.ltb_lt _ _)) by lia. do 2 f_equal. lia.
  - rewrite (proj2 (Z.ltb_ge _ _)) by lia. do 2 f_equal. lia.
Qed.

Lemma two_strings_bytes s t : byte_list s -> byte_list t -> bytes (two_strings s t).
Proof. intros Hs Ht x. unfold two_strings. destruct (x <? 1000); by apply byte_at_range. Qed.

(** Two names are equal for [namecmp] when they agree up to [DIRSIZ] bytes. *)
Lemma namecmp_zero s t : byte_list s -> byte_list t -> (namecmp s t = 0 <-> name_of s = name_of t).
Proof.
  intros Hs Ht. unfold namecmp. rewrite strncmp_zero by by apply two_strings_bytes.
  destruct (two_strings_cstr s t) as [-> ->]. done.
Qed.

#[local] Opaque strncpy two_strings cstr.

Lemma dirname_cell name i :
  (i < 14)%nat -> dirname name !! i = Some (default 0 (name_of name !! i)).
Proof.
  intros Hi. unfold dirname. rewrite list_lookup_fmap, lookup_seq_lt by done. cbn [fmap option_fmap option_map].
  rewrite <- (proj2 (two_strings_cstr [] name)). f_equal. apply (strncpy_inside _ 0); [left; done|done].
Qed.

Lemma name_of_dirname name : name_of (dirname name) = name_of name.
Proof.
  unfold name_of at 1. rewrite <- (cstr_cut (fun x => byte_at (dirname name) x) 0).
  - apply cstr_of_cells.
    + rewrite <- (proj2 (two_strings_cstr [] name)). apply length_cstr.
    + rewrite <- (proj2 (two_strings_cstr [] name)). apply Forall_cstr.
    + intros i Hi. unfold byte_at. rewrite Z.add_0_l, Nat2Z.id, dirname_cell by done. done.
  - intros i Hi. unfold byte_at. rewrite Z.add_0_l. by rewrite Nat2Z.id.
Qed.

Lemma dirname_bytes name : byte_list name -> byte_list (dirname name).
Proof.
  intros Hn. apply Forall_lookup_2. intros i c Hc. assert (Hi : (i < 14)%nat).
  { apply lookup_lt_Some in Hc. unfold dirname in Hc. by rewrite length_fmap, length_seq in Hc. }
  rewrite dirname_cell in Hc by done. injection Hc as <-.
  destruct (name_of name !! i) as [c|] eqn:E; simpl; [|lia]. rewrite <- (proj2 (two_strings_cstr [] name)) in E.
  apply cstr_lookup in E as [<- _]. apply two_strings_bytes; [constructor|done].
Qed.

(** ** Paths *)

(** The elements of a path: what is between slashes, if anything is. *)
Fixpoint elements_from (cur path : list Z) : list (list Z) :=
  match path with
  | [] => match cur with [] => [] | _ => [cur] end
  | c :: p =>
      if c =? SLASH then match cur with [] => elements_from [] p | _ => cur :: elements_from [] p end
      else elements_from (cur ++ [c]) p
  end.

Definition elements (path : list Z) : list (list Z) := elements_from [] path.

Lemma elements_slashes path : elements (skip_slashes path) = elements path.
Proof.
  unfold elements. induction path as [|c p IH]; [done|]. simpl. destruct (c =? SLASH) eqn:E; [done|]. simpl. by rewrite E.
Qed.

Lemma elements_split cur p : cur <> [] ->
  elements_from cur p = (cur ++ fst (split_elem p)) :: elements (snd (split_elem p)).
Proof.
  revert cur. induction p as [|c p IH]; intros cur Hc; simpl.
  - rewrite app_nil_r. by destruct cur.
  - destruct (c =? SLASH) eqn:E.
    + simpl. rewrite app_nil_r. unfold elements. simpl. rewrite E. by destruct cur.
    + rewrite IH by by destruct cur. destruct (split_elem p) as [e r]. simpl. by rewrite <- (assoc_L app).
Qed.

(** One call of [skipelem]. *)
Lemma skipelem_elements path name :
  match skipelem path name with
  | None => elements path = []
  | Some (rest, name') => exists e, elements path = e :: elements rest /\ name' = copy_elem name e /\
      (length rest < length path)%nat /\ (forall c, c ∈ e ++ rest -> c ∈ path)
  end.
Proof.
  unfold skipelem. rewrite <- elements_slashes.
  assert (Hs : forall p, (length (skip_slashes p) <= length p)%nat /\ forall c, c ∈ skip_slashes p -> c ∈ p).
  { induction p as [|c p [I1 I2]]; simpl; [done|]. destruct (c =? SLASH); simpl; [|done]. split; [lia|].
    intros x Hx. right. by apply I2. }
  assert (He : forall p, (length (snd (split_elem p)) <= length p)%nat /\
    forall c, c ∈ fst (split_elem p) \/ c ∈ snd (split_elem p) -> c ∈ p).
  { induction p as [|c p [I1 I2]]; simpl; [split; [done|intros c []; set_solver]|]. destruct (c =? SLASH); simpl.
    - split; [done|]. intros x [?|?]; set_solver.
    - destruct (split_elem p) as [e r]. simpl in *. split; [lia|]. intros x Hx. rewrite elem_of_cons in Hx |- *. set_solver. }
  destruct (Hs path) as [S1 S2]. destruct (skip_slashes path) as [|c p] eqn:E; [done|].
  assert (Hc : (c =? SLASH) = false).
  { clear -E. induction path as [|x path IH]; simpl in E; [done|]. destruct (x =? SLASH) eqn:Ex; [by apply IH|]. congruence. }
  simpl. rewrite Hc. unfold elements at 1. simpl. rewrite Hc. simpl.
  destruct (He p) as [E1 E2]. rewrite (elements_split [c] p) by done. destruct (split_elem p) as [e r]. simpl in *.
  exists (c :: e). destruct (Hs r) as [R1 R2]. rewrite elements_slashes. split_and!; [done|done|lia|].
  intros x Hx. apply S2. rewrite elem_of_app, elem_of_cons in Hx. rewrite elem_of_cons. naive_solver.
Qed.

(** The names [namex] looks up, one after the other. *)
Fixpoint names (k : nat) (path name : list Z) : list (list Z) :=
  match skipelem path name with
  | None => []
  | Some (path, name) =>
      match k with
      | O => []
      | S k => name :: names k path name
      end
  end.

Lemma name_of_copy name e : Forall (fun c => c <> 0) e -> name_of (copy_elem name e) = take (Z.to_nat DIRSIZ) e.
Proof.
  intros He. unfold name_of, copy_elem. destruct (Z.leb_spec DIRSIZ (Z.of_nat (length e))) as [H|H].
  - rewrite cut_full by by apply Forall_take. rewrite take_take. by rewrite Nat.min_id.
  - rewrite cut_short by (done || lia). rewrite take_ge; [done|lia].
Qed.

Lemma names_elements k path name :
  (length path <= k)%nat -> Forall (fun c => c <> 0) path ->
  name_of <$> names k path name = take (Z.to_nat DIRSIZ) <$> elements path.
Proof.
  revert path name. induction k as [|k IH]; intros path name Hk Hp;
    pose proof (skipelem_elements path name) as H; cbn [names]; destruct (skipelem path name) as [[rest name']|].
  - destruct H as (e & _ & _ & H & _). lia.
  - by rewrite H.
  - destruct H as (e & -> & -> & Hl & Hin). rewrite list.Forall_forall in Hp. rewrite !fmap_cons. f_equal.
    + apply name_of_copy, list.Forall_forall. intros c Hc. apply Hp, Hin, elem_of_app. by left.
    + apply IH; [lia|]. apply list.Forall_forall. intros c Hc. apply Hp, Hin, elem_of_app. by right.
  - by rewrite H.
Qed.

(** Path names resolve element by element.  Whatever slashes it has at its
    beginning, at its end or in a row, the calls of [skipelem] take from a path
    exactly its elements, in order, each cut to [DIRSIZ] bytes, and end; and the
    entry that [dirlink] writes for a name and an inode number has that number
    and is found by [namecmp] under exactly the names with the same first
    [DIRSIZ] bytes. *)
Theorem path_names path :
  Forall (fun c => c <> 0) path ->
  name_of <$> names (length path) path (replicate (Z.to_nat DIRSIZ) 0) = take (Z.to_nat DIRSIZ) <$> elements path /\
  forall inum a b, byte_list a -> byte_list b ->
    de_inum (dirent inum b) = u16 inum /\
    (namecmp a (de_name (dirent inum b)) = 0 <-> name_of a = name_of b).
Proof.
  intros Hp. split; [by apply names_elements|]. intros inum a b Ha Hb. split.
  - change (u8 inum + 2 ^ 8 * u8 (inum / 2 ^ 8) = u16 inum). unfold u8, u16. Z.div_mod_to_equations. lia.
  - change (de_name (dirent inum b)) with (dirname b). rewrite namecmp_zero by (done || by apply dirname_bytes).
    by rewrite name_of_dirname.
Qed.

(** ["//usr/a-very-long-name/x/"] *)
