(* ===== verification/Mkfs.v ===== *)
(** * The image builder

    [mkfs.c], the program that writes the first image of the disk: superblock,
    inodes, the root directory and the files, and the bitmap.  The image is a
    function from sector numbers to blocks; [assert] and [exit(1)] are [None]. *)

From stdpp Require Import base list numbers strings tactics gmap functions.
From Stdlib Require Import Lia.
From S2P Require Import Prelude Params StringC FsState KState Bio Log Fs.

Local Open Scope Z_scope.

(** The variables of [mkfs.c]. *)
Definition nblocks : Z := 1934.
Definition nlog : Z := LOGSIZE.
Definition ninodes : Z := 400.
Definition size : Z := 2048.

Record mk := mkmk {
  img : Z -> list Z;
  freeblock : Z;
  usedblocks : Z;
  freeinode : Z
}.

Definition zeroes : list Z := replicate 512 0.

Definition wsect (sec : Z) (buf : list Z) (s : mk) : mk :=
  mkmk (<[sec := buf]> (img s)) (freeblock s) (usedblocks s) (freeinode s).

(** The file has [size] sectors once they have been cleared; a read past its end fails. *)
Definition rsect (sec : Z) (s : mk) : option (list Z) := if sec <? size then Some (img s sec) else None.

Definition i2b (inum : Z) : Z := inum / IPB + 2.

(** A [struct dinode] is its 128 bytes. *)
Definition winode (inum : Z) (ip : list Z) (s : mk) : option mk :=
  let bn := i2b inum in
  buf ← rsect bn s;
  Some (wsect bn (splice buf (DINODE * (inum mod IPB)) ip) s).

Definition rinode (inum : Z) (s : mk) : option (list Z) :=
  buf ← rsect (i2b inum) s;
  Some (slice buf (DINODE * (inum mod IPB)) DINODE).

Definition ialloc (type : Z) (s : mk) : option (Z * mk) :=
  let inum := freeinode s in
  let s := mkmk (img s) (freeblock s) (usedblocks s) (u32 (freeinode s + 1)) in
  let din := wr32 (wr16 (wr16 (replicate (Z.to_nat DINODE) 0) 0 type) 6 1) 8 0 in
  s ← winode inum din s;
  Some (inum, s).

(** [freeblock++; usedblocks++] *)
Definition bump (s : mk) : mk := mkmk (img s) (u32 (freeblock s + 1)) (u32 (usedblocks s + 1)) (freeinode s).

(** [din.addrs[i]] *)
Definition addr (din : list Z) (i : Z) : Z := rd32 din (ADDRS + 4 * i).
Definition set_addr (din : list Z) (i v : Z) : list Z := wr32 din (ADDRS + 4 * i) v.

(** The entry of the indirect block for the block number [fbn] of the file, filled when
    it is empty ... *)
Definition indirect_block (fbn : Z) (din : list Z) (s : mk) : option (Z * list Z * mk) :=
  indirect ← rsect (addr din NDIRECT) s;
  let '(indirect, s) :=
    if rd32 indirect (4 * (fbn - NDIRECT)) =? 0 then
      let indirect := wr32 indirect (4 * (fbn - NDIRECT)) (freeblock s) in
      (indirect, wsect (addr din NDIRECT) indirect (bump s))
    else (indirect, s) in
  Some (rd32 indirect (4 * (fbn - NDIRECT)), din, s).

(** ... and the block of the file, allocated when there is none. *)
Definition data_block (fbn : Z) (din : list Z) (s : mk) : option (Z * list Z * mk) :=
  if fbn <? NDIRECT then
    let '(din, s) := if addr din fbn =? 0 then (set_addr din fbn (freeblock s), bump s) else (din, s) in
    Some (addr din fbn, din, s)
  else
    let '(din, s) := if addr din NDIRECT =? 0 then (set_addr din NDIRECT (freeblock s), bump s) else (din, s) in
    indirect_block fbn din s.

Fixpoint iappend_loop (fuel : nat) (p : list Z) (off : Z) (din : list Z) (s : mk) : option (Z * list Z * mk) :=
  match p with
  | [] => Some (off, din, s)
  | _ =>
      match fuel with
      | O => None
      | S fuel =>
          let fbn := off / 512 in
          if MAXFILE <=? fbn then None else
          ' (x, din, s) ← data_block fbn din s;
          let n1 := Z.min (Z.of_nat (length p)) ((fbn + 1) * 512 - off) in
          buf ← rsect x s;
          let s := wsect x (splice buf (off - fbn * 512) (take (Z.to_nat n1) p)) s in
          iappend_loop fuel (drop (Z.to_nat n1) p) (off + n1) din s
      end
  end.

Definition iappend (inum : Z) (p : list Z) (s : mk) : option mk :=
  din ← rinode inum s;
  ' (off, din, s) ← iappend_loop (length p) p (rd32 din 8) din s;
  winode inum (wr32 din 8 off) s.

(** The bitmap with the first [used] blocks marked. *)
Definition bitmap (used : nat) : list Z := foldl set_bit zeroes (Z.of_nat <$> seq 0 used).

Definition mkfs_balloc (used : Z) (s : mk) : option mk :=
  if 512 * 8 <=? used then None else
  Some (wsect (ninodes / IPB + 3) (bitmap (Z.to_nat used)) s).

(** ** main *)

(** [while((cc = read(fd, buf, sizeof(buf))) > 0) iappend(inum, buf, cc);] *)
Fixpoint append_file (fuel : nat) (inum : Z) (data : list Z) (s : mk) : option mk :=
  match data with
  | [] => Some s
  | _ =>
      match fuel with
      | O => None
      | S fuel => s ← iappend inum (take 512 data) s; append_file fuel inum (drop 512 data) s
      end
  end.

(** Skip leading [_] in name. *)
Definition entry_name (name : list Z) : list Z :=
  match name with c :: n => if c =? 95 then n else name | [] => [] end.

(** One file of the command line: its name and its bytes. *)
Definition add_file (rootino : Z) (f : list Z * list Z) (s : mk) : option mk :=
  let '(name, data) := f in
  if bool_decide (SLASH ∈ name) then None else
  let name := entry_name name in
  ' (inum, s) ← ialloc T_FILE s;
  s ← iappend rootino (dirent inum name) s;
  append_file (length data) inum data s.

Fixpoint add_files (rootino : Z) (fs : list (list Z * list Z)) (s : mk) : option mk :=
  match fs with
  | [] => Some s
  | f :: fs => s ← add_file rootino f s; add_files rootino fs s
  end.

Definition superblock_bytes : list Z :=
  wr32 (wr32 (wr32 (wr32 zeroes 0 size) 4 nblocks) 8 ninodes) 12 nlog.

(** [fix size of root inode dir] *)
Definition fix_root (rootino : Z) (s : mk) : option mk :=
  din ← rinode rootino s;
  winode rootino (wr32 din 8 ((rd32 din 8 / BSIZE + 1) * BSIZE)) s.

(** [main] after the superblock ... *)
Definition mkfs_fill (files : list (list Z * list Z)) (s : mk) : option mk :=
  ' (rootino, s) ← ialloc T_DIR s;
  if negb (rootino =? ROOTINO) then None else
  s ← iappend rootino (dirent rootino [46]) s;
  s ← iappend rootino (dirent rootino [46; 46]) s;
  s ← add_files rootino files s;
  s ← fix_root rootino s;
  mkfs_balloc (usedblocks s) s.

(** ... and from the start. *)
Definition mkfs (files : list (list Z * list Z)) : option mk :=
  let bitblocks := size / (512 * 8) + 1 in
  let usedblocks0 := ninodes / IPB + 3 + bitblocks in
  if negb (nblocks + usedblocks0 + nlog =? size) then None else
  let s := mkmk (fun _ => zeroes) usedblocks0 usedblocks0 1 in
  mkfs_fill files (wsect 1 superblock_bytes s).
