(* ===== verification/MkfsThm.v ===== *)
(** * The image of the file system

    What [mkfs] writes: the files of the command line can be read back from the
    image, the bitmap marks exactly the blocks they take, and a machine with that
    disk boots. *)

From stdpp Require Import base list numbers strings tactics gmap functions.
From Stdlib Require Import Lia.
From S2P Require Import Prelude Params StringC FsState KState Runs Bio BioSpec BioThm Log LogSpec LogThm Fs BlockThm Mkfs.

Local Open Scope Z_scope.

(** ** Bytes of blocks *)

Lemma length_splice l o new :
  0 <= o -> o + Z.of_nat (length new) <= Z.of_nat (length l) -> length (splice l o new) = length l.
Proof. intros. unfold splice. rewrite !length_app, length_take, length_drop. lia. Qed.

Lemma slice_splice l o new :
  0 <= o -> o + Z.of_nat (length new) <= Z.of_nat (length l) -> slice (splice l o new) o (Z.of_nat (length new)) = new.
Proof.
  intros. unfold slice, splice. rewrite drop_app_length' by (rewrite length_take; lia).
  rewrite Nat2Z.id. by apply take_app_length'.
Qed.

Lemma slice_splice_ne l o new o' m :
  0 <= o -> o + Z.of_nat (length new) <= Z.of_nat (length l) -> 0 <= o' -> 0 <= m ->
  o' + m <= o \/ o + Z.of_nat (length new) <= o' -> slice (splice l o new) o' m = slice l o' m.
Proof.
  intros Ho Hn Ho' Hm Hd. apply list_eq. intros i. unfold slice, splice.
  destruct (decide (i < Z.to_nat m)%nat) as [Hi|Hi]; [|rewrite !lookup_take_ge by lia; done].
  rewrite !lookup_take_lt, !lookup_drop by done. destruct Hd.
  - rewrite lookup_app_l by (rewrite length_take; lia). by rewrite lookup_take_lt by lia.
  - rewrite lookup_app_r by (rewrite length_take; lia). rewrite length_take, Nat.min_l by lia.
    rewrite lookup_app_r by lia. rewrite lookup_drop. f_equal. lia.
Qed.

Lemma length_slice l o m : 0 <= o -> 0 <= m -> o + m <= Z.of_nat (length l) -> length (slice l o m) = Z.to_nat m.
Proof. intros. unfold slice. rewrite length_take, length_drop. lia. Qed.

Lemma splice_app l1 l2 o new :
  0 <= o -> l1 ++ splice l2 o new = splice (l1 ++ l2) (Z.of_nat (length l1) + o) new.
Proof.
  intros. unfold splice. rewrite take_app_ge, drop_app_ge by lia. rewrite <- (assoc_L app). repeat f_equal; lia.
Qed.

(** Bytes put at the start of the zeroes after [l]. *)
Lemma splice_pad l k new :
  (length new <= k)%nat ->
  splice (l ++ replicate k 0) (Z.of_nat (length l)) new = (l ++ new) ++ replicate (k - length new) 0.
Proof.
  intros. unfold splice. rewrite take_app_length' by lia. rewrite drop_app_ge by lia.
  rewrite drop_replicate. rewrite <- (assoc_L app). repeat f_equal; lia.
Qed.

(** ** Files *)

(** A file: its type, its bytes, the blocks with its bytes and the block with the
    numbers of the blocks after the first twelve, or 0. *)
Record afile := mkafile { af_type : Z; af_data : list Z; af_blocks : list Z; af_ind : Z }.

Definition owned (x : afile) : list Z := af_blocks x ++ (if af_ind x =? 0 then [] else [af_ind x]).

(** The 128 bytes [din] describe the file [x] on the image [im]. *)
Record describes (im : Z -> list Z) (din : list Z) (x : afile) : Prop := mkdescribes {
  ds_len : length din = Z.to_nat DINODE;
  ds_type : s16 (rd16 din 0) = af_type x;
  ds_nlink : rd16 din 6 = 1;
  ds_addrs : forall i, 0 <= i < NDIRECT -> addr din i = default 0 (af_blocks x !! Z.to_nat i);
  ds_ind : addr din NDIRECT = af_ind x;
  ds_few : af_ind x = 0 -> (length (af_blocks x) <= 12)%nat;
  ds_many : af_ind x <> 0 -> forall j, 0 <= j < NINDIRECT ->
    rd32 (im (af_ind x)) (4 * j) = default 0 (af_blocks x !! (12 + Z.to_nat j)%nat);
  ds_max : Z.of_nat (length (af_blocks x)) <= MAXFILE;
  ds_room : (length (af_data x) <= 512 * length (af_blocks x))%nat;
  ds_data : concat (im <$> af_blocks x) = af_data x ++ replicate (512 * length (af_blocks x) - length (af_data x)) 0
}.

Lemma addr_set_eq din i v :
  length din = Z.to_nat DINODE -> 0 <= i <= NDIRECT -> is_u32 v -> addr (set_addr din i v) i = v.
Proof.
  intros Hl Hi Hv. unfold addr, set_addr. rewrite rd32_wr32; [by apply u32_small|..];
    rewrite ?Hl; unfold ADDRS, NDIRECT, DINODE in *; lia.
Qed.

Lemma addr_set_ne din i j v :
  length din = Z.to_nat DINODE -> 0 <= i <= NDIRECT -> 0 <= j <= NDIRECT -> i <> j -> addr (set_addr din i v) j = addr din j.
Proof.
  intros Hl Hi Hj Hne. unfold addr, set_addr. apply rd32_wr32_ne; rewrite ?Hl; unfold ADDRS, NDIRECT, DINODE in *; lia.
Qed.

Lemma rd16_wr32 l o o' v :
  0 <= o' -> o' + 2 <= o -> o + 4 <= Z.of_nat (length l) -> rd16 (wr32 l o v) o' = rd16 l o'.
Proof.
  intros Ho' Ho Hl. unfold rd16, wr32. rewrite !byte_at_set by (rewrite ?length_set_byte; lia). by rewrite !decide_False by lia.
Qed.

Lemma rd32_zeroes o : 0 <= o -> o + 4 <= 512 -> rd32 zeroes o = 0.
Proof. intros. unfold rd32, byte_at, zeroes. by rewrite !lookup_replicate_2 by lia. Qed.

Lemma ind_owned x : af_ind x <> 0 -> af_ind x ∈ owned x.
Proof. intros Hz. unfold owned. rewrite (proj2 (Z.eqb_neq _ _)) by done. apply elem_of_app. right. by left. Qed.

(** A change of the image outside the blocks of a file. *)
Lemma describes_ext im im' din x :
  (forall b, b ∈ owned x -> im' b = im b) -> describes im din x -> describes im' din x.
Proof.
  intros Hb [H1 H2 HN H3 H4 H5 H6 H7 H8 H9]. split; try done.
  - intros Hi j Hj. rewrite Hb; [by apply H6|]. by apply ind_owned.
  - rewrite <- H9. f_equal. apply list_fmap_ext. intros i b Hib. apply Hb. unfold owned.
    apply elem_of_app. left. by eapply list_elem_of_lookup_2.
Qed.

(** ** The image while it is built *)

Definition din_of (im : Z -> list Z) (inum : Z) : list Z := slice (im (i2b inum)) (DINODE * (inum mod IPB)) DINODE.

(** The first data block. *)
Definition DATA : Z := 104.

(** [fl] are the files so far, the first one with inode number 1. *)
Record built (s : mk) (fl : list afile) : Prop := mkbuilt {
  bt_len : forall t, length (img s t) = 512%nat;
  bt_super : img s 1 = superblock_bytes;
  bt_inodes : freeinode s = 1 + Z.of_nat (length fl) /\ (length fl <= 402)%nat;
  bt_used : usedblocks s = freeblock s;
  bt_count : freeblock s = DATA + Z.of_nat (length (concat (owned <$> fl)));
  bt_max : freeblock s <= size;
  bt_range : forall b, b ∈ concat (owned <$> fl) -> DATA <= b < freeblock s;
  bt_nodup : NoDup (concat (owned <$> fl));
  bt_fresh : forall t, freeblock s <= t -> img s t = zeroes;
  bt_blank : forall inum, freeinode s <= inum < 404 -> din_of (img s) inum = replicate (Z.to_nat DINODE) 0
}.

(** The inodes of the files but [i] are on the image. *)
Definition saved (im : Z -> list Z) (inum : Z) (x : afile) : Prop :=
  describes im (din_of im inum) x /\ rd32 (din_of im inum) 8 = Z.of_nat (length (af_data x)).

Definition others (s : mk) (fl : list afile) (i : nat) : Prop :=
  forall j y, fl !! j = Some y -> j <> i -> saved (img s) (1 + Z.of_nat j) y.

Lemma owned_update fl i x x' e :
  fl !! i = Some x -> owned x' ≡ₚ e ++ owned x ->
  concat (owned <$> <[i := x']> fl) ≡ₚ e ++ concat (owned <$> fl).
Proof.
  intros Hi Ho. pose proof (take_drop_middle _ _ _ Hi) as E. rewrite <- E at 2.
  rewrite insert_take_drop by (by eapply lookup_lt_Some). rewrite !fmap_app, !fmap_cons, !concat_app. simpl.
  rewrite Ho. solve_Permutation.
Qed.

Lemma owned_in fl i x b : fl !! i = Some x -> b ∈ owned x -> b ∈ concat (owned <$> fl).
Proof.
  intros Hi Hb. apply list_elem_of_In, in_concat. exists (owned x). split; [|by apply list_elem_of_In]. apply list_elem_of_In.
  apply list_elem_of_fmap. exists x. split; [done|]. by eapply list_elem_of_lookup_2.
Qed.

Lemma owned_apart fl i j x y b :
  NoDup (concat (owned <$> fl)) -> fl !! i = Some x -> fl !! j = Some y -> i <> j -> b ∈ owned x -> b ∉ owned y.
Proof.
  revert i j. induction fl as [|z fl IH]; intros i j Hn Hi Hj Hne Hb; [done|].
  rewrite fmap_cons in Hn. simpl in Hn. apply list.NoDup_app in Hn as (_ & Hd & Hn).
  destruct i as [|i], j as [|j]; simpl in *; simplify_eq; try done.
  - intros Hy. apply (Hd b Hb). by eapply owned_in.
  - intros Hy. apply (Hd b Hy). by eapply owned_in.
  - eapply IH; [done|exact Hi|exact Hj|congruence|done].
Qed.

(** A new block for the file [i]. *)
Lemma built_alloc s fl i x x' :
  built s fl -> fl !! i = Some x -> owned x' ≡ₚ freeblock s :: owned x -> freeblock s < size ->
  built (bump s) (<[i := x']> fl).
Proof.
  intros [H1 H2 H3 H4 H5 H6 H7 H8 H9 H10] Hi Ho Hf. pose proof (owned_update fl i x x' [freeblock s] Hi Ho) as Hp.
  assert (Hu : u32 (freeblock s + 1) = freeblock s + 1) by (apply u32_small; unfold is_u32, size, DATA in *; lia).
  unfold bump. rewrite H4. split; simpl; rewrite ?Hu; try done.
  - by rewrite length_insert.
  - rewrite Hp. simpl. lia.
  - lia.
  - intros b. rewrite Hp, elem_of_app, list_elem_of_singleton. intros [->|Hb]; [lia|]. specialize (H7 b Hb). lia.
  - rewrite Hp. simpl. apply list.NoDup_cons. split; [|done]. intros Hb. specialize (H7 _ Hb). lia.
  - intros t Ht. apply H9. lia.
Qed.

(** New bytes for a block of a file. *)
Lemma built_write s fl b d :
  built s fl -> b ∈ concat (owned <$> fl) -> length d = 512%nat -> built (wsect b d s) fl.
Proof.
  intros [H1 H2 H3 H4 H5 H6 H7 H8 H9 H10] Hb Hd. pose proof (H7 b Hb) as Hr. unfold DATA in Hr. split; simpl; try done.
  - intros t. destruct (decide (b = t)) as [->|]; [by rewrite fn_lookup_insert|by rewrite fn_lookup_insert_ne].
  - by rewrite fn_lookup_insert_ne by lia.
  - intros t Ht. rewrite fn_lookup_insert_ne by lia. by apply H9.
  - intros inum Hn. unfold din_of. rewrite fn_lookup_insert_ne by (unfold i2b, IPB, BSIZE, DINODE; Z.div_mod_to_equations; lia). by apply H10.
Qed.

Lemma i2b_range (fl : list afile) i : (length fl <= 402)%nat -> (i < length fl)%nat -> 2 <= i2b (1 + Z.of_nat i) <= 102.
Proof. intros. unfold i2b, IPB, BSIZE, DINODE. Z.div_mod_to_equations. lia. Qed.

Lemma others_write s fl i x b d :
  built s fl -> fl !! i = Some x -> b ∈ owned x -> others s fl i -> others (wsect b d s) fl i.
Proof.
  intros B Hi Hb Ho j y Hj Hne. pose proof (i2b_range fl j (proj2 (bt_inodes _ _ B)) ltac:(by eapply lookup_lt_Some)) as Hr.
  pose proof (bt_range _ _ B b (owned_in _ _ _ _ Hi Hb)) as Hbr. unfold DATA in Hbr. simpl.
  assert (E : din_of (<[b := d]> (img s)) (1 + Z.of_nat j) = din_of (img s) (1 + Z.of_nat j))
    by (unfold din_of; by rewrite fn_lookup_insert_ne by lia).
  destruct (Ho j y Hj Hne) as [Hd Hs]. unfold saved. rewrite E. split; [|done].
  eapply describes_ext; [|exact Hd]. intros b' Hb'. apply fn_lookup_insert_ne. intros ->.
  by eapply (owned_apart fl i j); [apply B|..].
Qed.

Lemma others_update s fl i x' : others s fl i -> others s (<[i := x']> fl) i.
Proof. intros Ho j y Hj Hne. rewrite list_lookup_insert_ne in Hj by done. by apply Ho. Qed.

Lemma others_bump s fl i : others s fl i -> others (bump s) fl i.
Proof. done. Qed.

(** The file [i] is being written: its inode is [din]. *)
Record opened (s : mk) (fl : list afile) (i : nat) (x : afile) (din : list Z) : Prop := mkopened {
  op_built : built s fl;
  op_file : fl !! i = Some x;
  op_others : others s fl i;
  op_din : describes (img s) din x
}.

Lemma freeblock_ok s fl : built s fl -> is_u32 (freeblock s) /\ freeblock s <> 0.
Proof. intros B. pose proof (bt_count _ _ B). pose proof (bt_max _ _ B). unfold is_u32, DATA, size in *. lia. Qed.

Lemma opened_bump s fl i x din x' din' :
  opened s fl i x din -> owned x' ≡ₚ freeblock s :: owned x -> freeblock s < size ->
  describes (img s) din' x' -> opened (bump s) (<[i := x']> fl) i x' din'.
Proof.
  intros [B Hi Ho Hd] Hp Hf Hd'. split; [by eapply built_alloc| |by apply others_bump, others_update|done].
  apply list_lookup_insert_eq. by eapply lookup_lt_Some.
Qed.

Lemma length_concat_blocks s fl bl : built s fl -> length (concat (img s <$> bl)) = (512 * length bl)%nat.
Proof.
  intros B. induction bl as [|b bl IH]; [done|]. rewrite fmap_cons. simpl. rewrite length_app, IH, (bt_len _ _ B). lia.
Qed.

(** A fresh block after the blocks of a file. *)
Lemma pad_more (im : Z -> list Z) bl b (d : list Z) :
  im b = zeroes -> (length d <= 512 * length bl)%nat ->
  concat (im <$> bl) = d ++ replicate (512 * length bl - length d) 0 ->
  concat (im <$> bl ++ [b]) = d ++ replicate (512 * length (bl ++ [b]) - length d) 0.
Proof.
  intros Hb Hl E. rewrite fmap_app, concat_app, E. simpl. rewrite Hb, app_nil_r, <- (assoc_L app). f_equal.
  unfold zeroes. rewrite <- replicate_add. f_equal. rewrite length_app. simpl. lia.
Qed.

(** A block for the block numbers ... *)
Lemma open_ind s fl i x din :
  opened s fl i x din -> af_ind x = 0 -> freeblock s < size ->
  let x' := mkafile (af_type x) (af_data x) (af_blocks x) (freeblock s) in
  opened (bump s) (<[i := x']> fl) i x' (set_addr din NDIRECT (freeblock s)).
Proof.
  intros O Hz Hf x'. pose proof O as [B Hi Ho [H1 H2 HN H3 H4 H5 H6 H7 H8 H9]]. destruct (freeblock_ok _ _ B) as [Hu Hn].
  apply (opened_bump _ _ _ _ _ _ _ O); [|done|split; simpl; try done].
  - unfold owned, x'. simpl. rewrite Hz. simpl. rewrite (proj2 (Z.eqb_neq _ _)) by done. rewrite app_nil_r. solve_Permutation.
  - unfold set_addr. by rewrite length_wr32.
  - rewrite <- H2. unfold set_addr. by rewrite rd16_wr32 by (rewrite ?H1; unfold ADDRS, NDIRECT, DINODE; lia).
  - rewrite <- HN. unfold set_addr. by rewrite rd16_wr32 by (rewrite ?H1; unfold ADDRS, NDIRECT, DINODE; lia).
  - intros j Hj. rewrite addr_set_ne by (unfold NDIRECT in *; lia || done). by apply H3.
  - by apply addr_set_eq.
  - intros _ j Hj. rewrite (bt_fresh _ _ B) by lia. rewrite lookup_ge_None_2 by (specialize (H5 Hz); lia).
    change NINDIRECT with 128 in Hj. by rewrite rd32_zeroes by lia.
Qed.

(** ... for one of the first twelve blocks ... *)
Lemma open_direct s fl i x din :
  opened s fl i x din -> (length (af_blocks x) < 12)%nat -> af_ind x = 0 -> freeblock s < size ->
  let x' := mkafile (af_type x) (af_data x) (af_blocks x ++ [freeblock s]) (af_ind x) in
  opened (bump s) (<[i := x']> fl) i x' (set_addr din (Z.of_nat (length (af_blocks x))) (freeblock s)).
Proof.
  intros O Hl Hz Hf x'. pose proof O as [B Hi Ho [H1 H2 HN H3 H4 H5 H6 H7 H8 H9]]. destruct (freeblock_ok _ _ B) as [Hu Hn].
  assert (Hr : 0 <= Z.of_nat (length (af_blocks x)) < NDIRECT) by (unfold NDIRECT; lia).
  apply (opened_bump _ _ _ _ _ _ _ O); [|done|split; simpl; try done].
  - unfold owned, x'. simpl. rewrite Hz. simpl. rewrite !app_nil_r. solve_Permutation.
  - unfold set_addr. by rewrite length_wr32.
  - rewrite <- H2. unfold set_addr. by rewrite rd16_wr32 by (rewrite ?H1; unfold ADDRS, NDIRECT, DINODE in *; lia).
  - rewrite <- HN. unfold set_addr. by rewrite rd16_wr32 by (rewrite ?H1; unfold ADDRS, NDIRECT, DINODE in *; lia).
  - intros j Hj. destruct (decide (j = Z.of_nat (length (af_blocks x)))) as [->|Hne].
    + rewrite addr_set_eq by (done || lia). by rewrite Nat2Z.id, lookup_app_r, Nat.sub_diag by lia.
    + rewrite addr_set_ne by (done || lia). rewrite H3 by done. destruct (decide (Z.to_nat j < length (af_blocks x))%nat).
      * by rewrite lookup_app_l.
      * rewrite !lookup_ge_None_2; [done|rewrite length_app; simpl; lia|lia].
  - rewrite addr_set_ne by (unfold NDIRECT in *; lia || done). done.
  - intros _. rewrite length_app. simpl. lia.
  - rewrite length_app. simpl. change MAXFILE with 140. lia.
  - rewrite length_app. simpl. lia.
  - apply pad_more; [by apply (bt_fresh _ _ B)|done|done].
Qed.

Lemma owned_nodup s fl i x : built s fl -> fl !! i = Some x -> NoDup (owned x).
Proof.
  intros B Hi. pose proof (bt_nodup _ _ B) as Hnd. rewrite <- (take_drop_middle _ _ _ Hi), fmap_app, fmap_cons, concat_app in Hnd.
  simpl in Hnd. apply list.NoDup_app in Hnd as (_ & _ & Hnd). by apply list.NoDup_app in Hnd as (Hnd & _ & _).
Qed.

Lemma ind_not_block s fl i x : built s fl -> fl !! i = Some x -> af_ind x <> 0 -> af_ind x ∉ af_blocks x.
Proof.
  intros B Hi Hz. pose proof (owned_nodup _ _ _ _ B Hi) as Hnd. unfold owned in Hnd.
  rewrite (proj2 (Z.eqb_neq _ _)) in Hnd by done. apply list.NoDup_app in Hnd as (_ & Hnd & _).
  intros Hb. apply (Hnd _ Hb). by left.
Qed.

(** ... and for a later one. *)
Lemma open_indirect s fl i x din :
  opened s fl i x din -> af_ind x <> 0 -> (12 <= length (af_blocks x))%nat -> Z.of_nat (length (af_blocks x)) < MAXFILE ->
  freeblock s < size ->
  let x' := mkafile (af_type x) (af_data x) (af_blocks x ++ [freeblock s]) (af_ind x) in
  let ind := wr32 (img s (af_ind x)) (4 * (Z.of_nat (length (af_blocks x)) - NDIRECT)) (freeblock s) in
  opened (wsect (af_ind x) ind (bump s)) (<[i := x']> fl) i x' din.
Proof.
  intros O Hz Hl Hm Hf x' ind. pose proof O as [B Hi Ho [H1 H2 HN H3 H4 H5 H6 H7 H8 H9]]. destruct (freeblock_ok _ _ B) as [Hu Hn].
  assert (Hin : af_ind x ∈ owned x) by (by apply ind_owned).
  pose proof (ind_not_block _ _ _ _ B Hi Hz) as Hno.
  assert (Hp : owned x' ≡ₚ freeblock s :: owned x).
  { unfold owned, x'. simpl. rewrite (proj2 (Z.eqb_neq _ _)) by done. solve_Permutation. }
  assert (Hi' : <[i := x']> fl !! i = Some x') by (apply list_lookup_insert_eq; by eapply lookup_lt_Some).
  assert (Hfr : af_ind x < freeblock s) by (apply (bt_range _ _ B), (owned_in _ _ _ _ Hi Hin)).
  pose proof (bt_len _ _ B (af_ind x)) as Hlen. change MAXFILE with 140 in Hm.
  split.
  - apply built_write; [by eapply built_alloc| |unfold ind; by rewrite length_wr32].
    eapply owned_in; [exact Hi'|]. rewrite Hp. by right.
  - done.
  - apply (others_write (bump s) _ i x'); [by eapply built_alloc|done|rewrite Hp; by right|by apply others_bump, others_update].
  - simpl. split; simpl; try done.
    + intros j Hj. rewrite H3 by done. unfold NDIRECT in Hj. rewrite lookup_app_l; [done|lia].
    + intros _ j Hj. rewrite fn_lookup_insert. change NINDIRECT with 128 in Hj. unfold ind.
      destruct (decide (j = Z.of_nat (length (af_blocks x)) - NDIRECT)) as [->|Hne]; unfold NDIRECT in *.
      * rewrite rd32_wr32, u32_small by (done || lia). rewrite lookup_app_r by lia.
        by match goal with |- context [[freeblock s] !! ?k] => replace k with 0%nat by lia end.
      * rewrite rd32_wr32_ne by lia. rewrite H6 by (done || lia). destruct (decide (12 + Z.to_nat j < length (af_blocks x))%nat).
        -- by rewrite lookup_app_l.
        -- rewrite !lookup_ge_None_2; [done|rewrite length_app; simpl; lia|lia].
    + rewrite length_app. simpl. change MAXFILE with 140. lia.
    + rewrite length_app. simpl. lia.
    + etransitivity; [|apply (pad_more (img s) (af_blocks x) (freeblock s)); [by apply (bt_fresh _ _ B)|done|done]].
      f_equal. apply list_fmap_ext. intros k b Hb%list_elem_of_lookup_2. apply fn_lookup_insert_ne.
      intros <-. apply elem_of_app in Hb as [?|?%list_elem_of_singleton]; [done|lia].
Qed.

(** ** Appending *)

(** The blocks of a file with [n] blocks of data. *)
Definition need (n : Z) : Z := if 12 <? n then n + 1 else n.

(** The indirect block is there when it is needed. *)
Definition ind_ok (x : afile) : Prop := af_ind x = 0 <-> (length (af_blocks x) <= 12)%nat.

Lemma length_owned x : ind_ok x -> Z.of_nat (length (owned x)) = need (Z.of_nat (length (af_blocks x))).
Proof.
  intros Hx. unfold ind_ok in Hx. unfold owned, need. rewrite length_app. destruct (Z.eqb_spec (af_ind x) 0) as [E|E]; simpl.
  - rewrite (proj2 (Z.ltb_ge _ _)) by lia. lia.
  - rewrite (proj2 (Z.ltb_lt _ _)) by lia. lia.
Qed.

(** The file has the block [b] for its next byte. *)
Definition ready_at (x x' : afile) (fbn b : Z) : Prop :=
  af_data x' = af_data x /\ af_type x' = af_type x /\ Z.of_nat (length (af_blocks x')) = fbn + 1 /\
  af_blocks x' !! Z.to_nat fbn = Some b /\ ind_ok x'.

Lemma block_nonzero s fl i x din k b : opened s fl i x din -> af_blocks x !! k = Some b -> (b =? 0) = false /\ b < size.
Proof.
  intros [B Hi _ _] Hb. assert (Hin : b ∈ owned x) by (apply elem_of_app; left; by eapply list_elem_of_lookup_2).
  pose proof (bt_range _ _ B b (owned_in _ _ _ _ Hi Hin)). pose proof (bt_max _ _ B). unfold DATA in *.
  split; [apply Z.eqb_neq|]; lia.
Qed.

Lemma ind_small s fl i x din : opened s fl i x din -> af_ind x <> 0 -> af_ind x < size.
Proof.
  intros [B Hi _ _] Hz. assert (Hin : af_ind x ∈ owned x) by (by apply ind_owned).
  pose proof (bt_range _ _ B _ (owned_in _ _ _ _ Hi Hin)). pose proof (bt_max _ _ B). lia.
Qed.

Lemma indirect_block_ok s fl i x din fbn :
  opened s fl i x din -> af_ind x <> 0 -> NDIRECT <= fbn < MAXFILE ->
  Z.of_nat (length (af_blocks x)) = fbn \/ Z.of_nat (length (af_blocks x)) = fbn + 1 ->
  (Z.of_nat (length (af_blocks x)) = fbn -> freeblock s < size) ->
  exists b s' x', indirect_block fbn din s = Some (b, din, s') /\ opened s' (<[i := x']> fl) i x' din /\ ready_at x x' fbn b.
Proof.
  intros O Hz Hr Hb Hf. pose proof (op_din _ _ _ _ _ O) as Hd. pose proof Hd as [H1 H2 HN H3 H4 H5 H6 H7 H8 H9].
  change MAXFILE with 140 in Hr. unfold NDIRECT in Hr. unfold indirect_block, rsect. rewrite H4.
  rewrite (proj2 (Z.ltb_lt _ _)) by by eapply ind_small. simpl. change NDIRECT with 12.
  rewrite (H6 Hz (fbn - 12)) by (change NINDIRECT with 128; lia).
  replace (12 + Z.to_nat (fbn - 12))%nat with (Z.to_nat fbn) by lia. destruct Hb as [Hb|Hb].
  - rewrite lookup_ge_None_2 by lia. simpl. pose proof (open_indirect _ _ _ _ _ O Hz) as O'.
    destruct (freeblock_ok _ _ (op_built _ _ _ _ _ O)) as [Hu _]. pose proof (bt_len _ _ (op_built _ _ _ _ _ O) (af_ind x)) as Hlen.
    rewrite rd32_wr32, u32_small by (done || lia). rewrite <- Hb. change 12 with NDIRECT.
    eexists _, _, _. split; [reflexivity|]. split; [apply O'; [lia|change MAXFILE with 140; lia|by apply Hf]|].
    split_and!; simpl; try done; [rewrite length_app; simpl; lia|by rewrite Nat2Z.id, lookup_app_r, Nat.sub_diag by lia|].
    unfold ind_ok. simpl. rewrite length_app. simpl. lia.
  - destruct (lookup_lt_is_Some_2 (af_blocks x) (Z.to_nat fbn)) as [b Hbb]; [lia|]. rewrite Hbb. simpl.
    destruct (block_nonzero _ _ _ _ _ _ _ O Hbb) as [-> _]. rewrite (H6 Hz (fbn - 12)) by (change NINDIRECT with 128; lia).
    replace (12 + Z.to_nat (fbn - 12))%nat with (Z.to_nat fbn) by lia. rewrite Hbb. simpl.
    exists b, s, x. split; [done|]. rewrite list_insert_id by apply O. split; [done|]. split_and!; try done. unfold ind_ok. lia.
Qed.

Lemma data_block_ok s fl i x din fbn :
  opened s fl i x din -> ind_ok x -> 0 <= fbn < MAXFILE ->
  Z.of_nat (length (af_blocks x)) = fbn \/ Z.of_nat (length (af_blocks x)) = fbn + 1 ->
  freeblock s - Z.of_nat (length (owned x)) + need (fbn + 1) <= size ->
  exists b din' s' x', data_block fbn din s = Some (b, din', s') /\ opened s' (<[i := x']> fl) i x' din' /\ ready_at x x' fbn b.
Proof.
  intros O Hx Hr Hb Hf. rewrite (length_owned _ Hx) in Hf. unfold need in Hf. unfold ind_ok in Hx.
  pose proof (op_din _ _ _ _ _ O) as Hd. pose proof Hd as [H1 H2 HN H3 H4 H5 H6 H7 H8 H9].
  destruct (freeblock_ok _ _ (op_built _ _ _ _ _ O)) as [Hu _].
  unfold data_block. change MAXFILE with 140 in Hr. destruct (Z.ltb_spec fbn NDIRECT) as [Hd12|Hd12]; unfold NDIRECT in Hd12.
  - rewrite H3 by (unfold NDIRECT; lia). destruct Hb as [Hb|Hb].
    + rewrite lookup_ge_None_2 by lia. simpl. rewrite addr_set_eq by (done || unfold NDIRECT; lia).
      rewrite !(proj2 (Z.ltb_ge _ _)) in Hf by lia. rewrite <- Hb.
      eexists _, _, _, _. split; [reflexivity|]. split; [apply (open_direct _ _ _ _ _ O); [lia|apply Hx; lia|lia]|].
      split_and!; simpl; try done; [rewrite length_app; simpl; lia|by rewrite Nat2Z.id, lookup_app_r, Nat.sub_diag by lia|].
      unfold ind_ok. simpl. rewrite length_app. simpl. lia.
    + destruct (lookup_lt_is_Some_2 (af_blocks x) (Z.to_nat fbn)) as [b Hbb]; [lia|]. rewrite Hbb. simpl.
      destruct (block_nonzero _ _ _ _ _ _ _ O Hbb) as [-> _]. rewrite H3 by (unfold NDIRECT; lia). rewrite Hbb. simpl.
      exists b, din, s, x. split; [done|]. rewrite list_insert_id by apply O. split; [done|]. by split_and!.
  - rewrite H4. destruct (Z.eqb_spec (af_ind x) 0) as [Hz|Hz].
    + assert (Hb' : Z.of_nat (length (af_blocks x)) = fbn) by lia.
      rewrite (proj2 (Z.ltb_ge _ _)), (proj2 (Z.ltb_lt _ _)) in Hf by lia.
      pose proof (open_ind _ _ _ _ _ O Hz ltac:(lia)) as O'. simpl in O'.
      destruct (indirect_block_ok _ _ _ _ _ fbn O') as (b & s' & x' & E & O2 & R); simpl;
        [by apply (freeblock_ok _ _ (op_built _ _ _ _ _ O))|change MAXFILE with 140; unfold NDIRECT; lia|by left| |].
      { intros _. rewrite u32_small by (unfold is_u32, size in *; lia). lia. }
      rewrite list_insert_insert_eq in O2. exists b, (set_addr din NDIRECT (freeblock s)), s', x'. done.
    + destruct (indirect_block_ok _ _ _ _ _ fbn O Hz) as (b & s' & x' & E & O2 & R);
        [change MAXFILE with 140; unfold NDIRECT; lia|done| |by exists b, din, s', x'].
      intros Hb'. rewrite Hb' in Hf. rewrite !(proj2 (Z.ltb_lt _ _)) in Hf by lia. lia.
Qed.

(** Bytes at the end of the file. *)
Lemma open_write s fl i x din fbn b q :
  opened s fl i x din -> fbn = Z.of_nat (length (af_data x)) / 512 ->
  Z.of_nat (length (af_blocks x)) = fbn + 1 -> af_blocks x !! Z.to_nat fbn = Some b ->
  Z.of_nat (length (af_data x) + length q) <= 512 * (fbn + 1) ->
  let x' := mkafile (af_type x) (af_data x ++ q) (af_blocks x) (af_ind x) in
  opened (wsect b (splice (img s b) (Z.of_nat (length (af_data x)) - fbn * 512) q) s) (<[i := x']> fl) i x' din.
Proof.
  intros O Hfbn Hl Hb Hq x'. pose proof O as [B Hi Ho [H1 H2 HN H3 H4 H5 H6 H7 H8 H9]].
  set (o := Z.of_nat (length (af_data x)) - fbn * 512). assert (Ho' : 0 <= o /\ Z.of_nat (length (af_data x)) = 512 * fbn + o /\ 0 <= fbn)
    by (unfold o; Z.div_mod_to_equations; lia).
  assert (Hin : b ∈ owned x) by (apply elem_of_app; left; by eapply list_elem_of_lookup_2).
  pose proof (bt_len _ _ B b) as Hlen. set (d := splice (img s b) o q).
  assert (Hd : length d = 512%nat) by (unfold d; rewrite length_splice; [done|lia|lia]).
  assert (Hp : concat (owned <$> <[i := x']> fl) = concat (owned <$> fl)).
  { f_equal. rewrite list_fmap_insert. apply list_insert_id. by rewrite list_lookup_fmap, Hi. }
  assert (B' : built (wsect b d s) (<[i := x']> fl)).
  { destruct (built_write s fl b d B (owned_in _ _ _ _ Hi Hin) Hd) as [G1 G2 G3 G4 G5 G6 G7 G8 G9 G10].
    split; rewrite ?Hp, ?length_insert; done. }
  split; [done|apply list_lookup_insert_eq; by eapply lookup_lt_Some| |].
  { apply others_update. by eapply others_write. }
  pose proof (owned_nodup _ _ _ _ B Hi) as Hnd. unfold owned in Hnd. apply list.NoDup_app in Hnd as (Hnd & _ & _).
  assert (Hsplit : af_blocks x = take (Z.to_nat fbn) (af_blocks x) ++ [b]).
  { rewrite <- (take_drop_middle _ _ _ Hb) at 1. do 2 f_equal. apply drop_ge. lia. }
  set (pre := take (Z.to_nat fbn) (af_blocks x)) in *.
  assert (Hpre : b ∉ pre).
  { rewrite Hsplit in Hnd. apply list.NoDup_app in Hnd as (_ & Hnd & _). intros Hbp. apply (Hnd b Hbp). by left. }
  simpl. split; simpl; try done.
  - intros Hz j Hj. rewrite fn_lookup_insert_ne; [by apply H6|]. intros E.
    apply (ind_not_block _ _ _ _ B Hi Hz). rewrite <- E. by eapply list_elem_of_lookup_2.
  - rewrite length_app. lia.
  - assert (Hlp : length (concat (img s <$> pre)) = (512 * Z.to_nat fbn)%nat).
    { rewrite (length_concat_blocks s fl) by done. unfold pre. rewrite length_take. lia. }
    assert (E1 : concat (<[b := d]> (img s) <$> af_blocks x) = concat (img s <$> pre) ++ d).
    { rewrite Hsplit, fmap_app, concat_app. simpl. rewrite fn_lookup_insert, app_nil_r. f_equal. f_equal.
      apply list_fmap_ext. intros k c Hc. apply fn_lookup_insert_ne. intros <-. apply Hpre. by eapply list_elem_of_lookup_2. }
    assert (E2 : concat (img s <$> af_blocks x) = concat (img s <$> pre) ++ img s b).
    { by rewrite Hsplit, fmap_app, concat_app; simpl; rewrite app_nil_r. }
    rewrite E1. unfold d. rewrite splice_app by lia. rewrite <- E2, H9.
    replace (Z.of_nat (length (concat (img s <$> pre))) + o) with (Z.of_nat (length (af_data x))) by lia.
    rewrite splice_pad by lia. do 2 f_equal. rewrite length_app. lia.
Qed.

(** The blocks of data of [n] bytes, and all the blocks of a file of [n] bytes. *)
Definition cdiv (n : nat) : Z := (Z.of_nat n + 511) / 512.
Definition cost (n : nat) : Z := need (cdiv n).

Definition tidy (x : afile) : Prop := ind_ok x /\ Z.of_nat (length (af_blocks x)) = cdiv (length (af_data x)).

Lemma cdiv_mono n m : (n <= m)%nat -> cdiv n <= cdiv m.
Proof. intros. unfold cdiv. apply Z.div_le_mono; lia. Qed.

Lemma cost_mono n m : (n <= m)%nat -> cost n <= cost m.
Proof. intros H%cdiv_mono. unfold cost, need. repeat case_match; rewrite ?Z.ltb_lt, ?Z.ltb_ge in *; lia. Qed.

Lemma tidy_owned x : tidy x -> Z.of_nat (length (owned x)) = cost (length (af_data x)).
Proof. intros [Hx E]. rewrite (length_owned _ Hx), E. done. Qed.

Lemma base_owned s fl i x :
  built s fl -> fl !! i = Some x ->
  freeblock s - Z.of_nat (length (owned x)) = DATA + Z.of_nat (length (concat (owned <$> delete i fl))).
Proof.
  intros B Hi. rewrite (bt_count _ _ B). rewrite <- (take_drop_middle _ _ _ Hi) at 1. rewrite delete_take_drop.
  rewrite !fmap_app, fmap_cons, !concat_app, !length_app. simpl. rewrite length_app. lia.
Qed.

Lemma delete_insert_list {A} (l : list A) i x : delete i (<[i := x]> l) = delete i l.
Proof. revert i. induction l as [|y l IH]; intros [|i]; simpl; try done. by rewrite IH. Qed.

Lemma base_insert s s' fl i x x' din din' :
  opened s fl i x din -> opened s' (<[i := x']> fl) i x' din' ->
  freeblock s' - Z.of_nat (length (owned x')) = freeblock s - Z.of_nat (length (owned x)).
Proof.
  intros O O'. rewrite (base_owned _ _ _ _ (op_built _ _ _ _ _ O) (op_file _ _ _ _ _ O)).
  by rewrite (base_owned _ _ _ _ (op_built _ _ _ _ _ O') (op_file _ _ _ _ _ O')), delete_insert_list.
Qed.

Lemma tidy_blocks x fbn :
  tidy x -> fbn = Z.of_nat (length (af_data x)) / 512 ->
  Z.of_nat (length (af_blocks x)) = fbn \/ Z.of_nat (length (af_blocks x)) = fbn + 1.
Proof. intros [_ E] ->. rewrite E. unfold cdiv. Z.div_mod_to_equations. lia. Qed.

Lemma iappend_loop_S fuel p off din s :
  p <> [] ->
  iappend_loop (S fuel) p off din s =
  (let fbn := off / 512 in
   if MAXFILE <=? fbn then None else
   ' (x, din, s) ← data_block fbn din s;
   let n1 := Z.min (Z.of_nat (length p)) ((fbn + 1) * 512 - off) in
   buf ← rsect x s;
   iappend_loop fuel (drop (Z.to_nat n1) p) (off + n1) din
     (wsect x (splice buf (off - fbn * 512) (take (Z.to_nat n1) p)) s)).
Proof. by destruct p. Qed.

(** One iteration: the bytes up to the end of a block. *)
Lemma iappend_step_ok s fl i x din p fbn q :
  opened s fl i x din -> tidy x -> p <> [] ->
  Z.of_nat (length (af_data x) + length p) <= 512 * MAXFILE ->
  freeblock s - Z.of_nat (length (owned x)) + cost (length (af_data x) + length p) <= size ->
  fbn = Z.of_nat (length (af_data x)) / 512 ->
  q = take (Z.to_nat (Z.min (Z.of_nat (length p)) ((fbn + 1) * 512 - Z.of_nat (length (af_data x))))) p ->
  fbn < MAXFILE /\
  exists b din' s' x',
    data_block fbn din s = Some (b, din', s') /\ rsect b s' = Some (img s' b) /\
    opened (wsect b (splice (img s' b) (Z.of_nat (length (af_data x)) - fbn * 512) q) s') (<[i := x']> fl) i x' din' /\
    tidy x' /\ af_data x' = af_data x ++ q /\ af_type x' = af_type x.
Proof.
  intros O T Hp Hm Hc Hfbn Hq. assert (Hp' : (0 < length p)%nat) by (destruct p; simpl; [done|lia]).
  assert (Hdm : 512 * fbn <= Z.of_nat (length (af_data x)) < 512 * (fbn + 1)) by (rewrite Hfbn; Z.div_mod_to_equations; lia).
  assert (Hlq : Z.of_nat (length q) = Z.min (Z.of_nat (length p)) ((fbn + 1) * 512 - Z.of_nat (length (af_data x)))).
  { rewrite Hq, length_take. lia. }
  change MAXFILE with 140 in *. split; [lia|].
  assert (Hcd : cdiv (length (af_data x) + length q) = fbn + 1) by (unfold cdiv; Z.div_mod_to_equations; lia).
  destruct (data_block_ok s fl i x din fbn O (proj1 T)) as (b & din' & s' & x' & E & O' & E1 & E2 & E3 & E4 & E5);
    [change MAXFILE with 140; lia|by apply tidy_blocks| |].
  { pose proof (cost_mono (length (af_data x) + length q) (length (af_data x) + length p) ltac:(lia)) as Hmono.
    unfold cost in Hmono at 1. rewrite Hcd in Hmono. lia. }
  rewrite <- E1 in *. pose proof (open_write s' _ i x' din' fbn b q O' Hfbn E3 E4 ltac:(lia)) as W. simpl in W.
  rewrite list_insert_insert_eq in W. eexists b, din', s', _. split; [done|]. split.
  { unfold rsect. by rewrite (proj2 (Z.ltb_lt _ _)) by by eapply block_nonzero. }
  split; [exact W|]. split; [|done]. split; [done|]. simpl. rewrite length_app. lia.
Qed.

Lemma iappend_loop_ok fuel : forall p s fl i x din,
  opened s fl i x din -> tidy x -> (length p <= fuel)%nat ->
  Z.of_nat (length (af_data x) + length p) <= 512 * MAXFILE ->
  freeblock s - Z.of_nat (length (owned x)) + cost (length (af_data x) + length p) <= size ->
  exists din' s' x',
    iappend_loop fuel p (Z.of_nat (length (af_data x))) din s = Some (Z.of_nat (length (af_data x ++ p)), din', s') /\
    opened s' (<[i := x']> fl) i x' din' /\ tidy x' /\ af_data x' = af_data x ++ p /\ af_type x' = af_type x.
Proof.
  induction fuel as [|fuel IH]; intros p s fl i x din O T Hf Hm Hc;
    (destruct (decide (p = [])) as [->|Hp];
     [exists din, s, x; simpl; rewrite app_nil_r, list_insert_id by apply O; done|]);
    [destruct p; simpl in Hf; [done|lia]|].
  rewrite iappend_loop_S by done. cbv zeta. set (fbn := Z.of_nat (length (af_data x)) / 512).
  set (n1 := Z.min _ _). destruct (iappend_step_ok s fl i x din p fbn (take (Z.to_nat n1) p) O T Hp Hm Hc eq_refl eq_refl)
    as (Hlt & b & din1 & s1 & x1 & E & R & O1 & T1 & D1 & Y1).
  rewrite (proj2 (Z.leb_gt _ _)) by done. rewrite E. simpl. rewrite R. simpl.
  assert (Hn1 : 0 < n1 <= Z.of_nat (length p)).
  { unfold n1, fbn. destruct p; [done|]. simpl length. Z.div_mod_to_equations. lia. }
  assert (Hl1 : length (take (Z.to_nat n1) p) = Z.to_nat n1) by (rewrite length_take; lia).
  assert (Hd1 : Z.of_nat (length (af_data x)) + n1 = Z.of_nat (length (af_data x1))) by (rewrite D1, length_app; lia).
  rewrite Hd1. pose proof (base_insert _ _ _ _ _ _ _ _ O O1) as Hb.
  assert (Hs : (length (af_data x1) + length (drop (Z.to_nat n1) p))%nat = (length (af_data x) + length p)%nat)
    by (rewrite length_drop; lia).
  destruct (IH (drop (Z.to_nat n1) p) _ _ i x1 din1 O1 T1) as (din2 & s2 & x2 & E2 & O2 & T2 & D2 & Y2);
    [rewrite length_drop; lia|by rewrite Hs|rewrite Hs; lia|].
  rewrite list_insert_insert_eq in O2. rewrite E2. exists din2, s2, x2.
  assert (Ed : af_data x1 ++ drop (Z.to_nat n1) p = af_data x ++ p) by (by rewrite D1, <- (assoc_L app), take_drop).
  rewrite Ed in *. split_and!; try done. congruence.
Qed.

(** ** Inodes *)

Definition inode_put (im : Z -> list Z) (inum : Z) (din : list Z) : Z -> list Z :=
  <[i2b inum := splice (im (i2b inum)) (DINODE * (inum mod IPB)) din]> im.

Lemma winode_put inum din s :
  i2b inum < size -> winode inum din s = Some (mkmk (inode_put (img s) inum din) (freeblock s) (usedblocks s) (freeinode s)).
Proof. intros. unfold winode, rsect. by rewrite (proj2 (Z.ltb_lt _ _)). Qed.

Lemma din_of_put im inum din :
  length (im (i2b inum)) = 512%nat -> length din = Z.to_nat DINODE -> din_of (inode_put im inum din) inum = din.
Proof.
  intros Hl Hd. unfold din_of, inode_put. rewrite fn_lookup_insert.
  pose proof (slice_splice (im (i2b inum)) (DINODE * (inum mod IPB)) din) as E. rewrite Hd, Hl in E.
  change (Z.of_nat (Z.to_nat DINODE)) with DINODE in E. unfold IPB, BSIZE, DINODE in *. change (512 / 128) with 4 in *.
  pose proof (Z.mod_pos_bound inum 4) as Hr. apply E; lia.
Qed.

Lemma din_of_put_ne im inum inum' din :
  length (im (i2b inum)) = 512%nat -> length din = Z.to_nat DINODE -> 0 <= inum -> 0 <= inum' -> inum <> inum' ->
  din_of (inode_put im inum din) inum' = din_of im inum'.
Proof.
  intros Hl Hd H0 H0' Hne. unfold din_of, inode_put. destruct (decide (i2b inum = i2b inum')) as [E|E]; [|by rewrite fn_lookup_insert_ne].
  rewrite <- E. rewrite fn_lookup_insert. unfold i2b, IPB, BSIZE, DINODE in *. change (512 / 128) with 4 in *.
  assert (inum mod 4 <> inum' mod 4) by (Z.div_mod_to_equations; lia).
  apply slice_splice_ne; rewrite ?Hd, ?Hl; Z.div_mod_to_equations; lia.
Qed.

(** Writing an inode keeps the other blocks, and the files with another number. *)
Lemma inode_put_sound s fl inum din :
  built s fl -> 1 <= inum < 404 -> length din = Z.to_nat DINODE ->
  (forall t, length (inode_put (img s) inum din t) = 512%nat) /\ inode_put (img s) inum din 1 = superblock_bytes /\
  (forall t, freeblock s <= t -> inode_put (img s) inum din t = zeroes) /\
  (forall j, freeinode s <= j < 404 -> j <> inum -> din_of (inode_put (img s) inum din) j = replicate (Z.to_nat DINODE) 0).
Proof.
  intros [H1 H2 H3 H4 H5 H6 H7 H8 H9 H10] Hn Hd.
  assert (Hi : 2 <= i2b inum <= 102) by (unfold i2b, IPB, BSIZE, DINODE; Z.div_mod_to_equations; lia).
  assert (Hls : length (splice (img s (i2b inum)) (DINODE * (inum mod IPB)) din) = 512%nat).
  { rewrite length_splice, H1; [done|..]; rewrite ?Hd, ?H1; unfold IPB, BSIZE, DINODE; change (512 / 128) with 4;
      pose proof (Z.mod_pos_bound inum 4); lia. }
  split_and!.
  - intros t. unfold inode_put. destruct (decide (i2b inum = t)) as [<-|]; [by rewrite fn_lookup_insert|by rewrite fn_lookup_insert_ne].
  - unfold inode_put. by rewrite fn_lookup_insert_ne by lia.
  - intros t Ht. unfold inode_put. rewrite fn_lookup_insert_ne; [by apply H9|]. unfold DATA in H5. lia.
  - intros j Hj Hne. rewrite din_of_put_ne by (done || lia). by apply H10.
Qed.

Lemma built_put s fl inum din :
  built s fl -> 1 <= inum < 404 -> length din = Z.to_nat DINODE ->
  let s' := mkmk (inode_put (img s) inum din) (freeblock s) (usedblocks s) (freeinode s) in
  (inum < freeinode s -> built s' fl) /\
  (forall j y d, fl !! j = Some y -> describes (img s) d y -> describes (img s') d y) /\
  (forall j y, fl !! j = Some y -> 1 + Z.of_nat j <> inum -> saved (img s) (1 + Z.of_nat j) y -> saved (img s') (1 + Z.of_nat j) y).
Proof.
  intros B Hn Hd s'. pose proof B as [H1 H2 H3 H4 H5 H6 H7 H8 H9 H10].
  destruct (inode_put_sound s fl inum din B Hn Hd) as (P1 & P2 & P3 & P4).
  assert (Hi : 2 <= i2b inum <= 102) by (unfold i2b, IPB, BSIZE, DINODE; Z.div_mod_to_equations; lia).
  assert (Hk : forall j y d, fl !! j = Some y -> describes (img s) d y -> describes (img s') d y).
  { intros j y d Hj. apply describes_ext. intros b Hb. pose proof (H7 b (owned_in _ _ _ _ Hj Hb)) as Hb'. unfold DATA in Hb'.
    simpl. unfold inode_put. apply fn_lookup_insert_ne. lia. }
  split; [|split; [done|]].
  - intros Hlt. split; simpl; try done. intros j Hj. apply P4; lia.
  - intros j y Hj Hne [Hds Hsz]. unfold saved. simpl. rewrite din_of_put_ne by (done || lia). split; [by eapply Hk|done].
Qed.

(** Every file is on the image. *)
Record whole (s : mk) (fl : list afile) : Prop := mkwhole {
  wh_built : built s fl;
  wh_saved : forall j y, fl !! j = Some y -> saved (img s) (1 + Z.of_nat j) y;
  wh_tidy : forall j y, fl !! j = Some y -> tidy y
}.

Lemma describes_size im din x v : describes im din x -> describes im (wr32 din 8 v) x.
Proof.
  intros [H1 H2 HN H3 H4 H5 H6 H7 H8 H9]. split; try done.
  - by rewrite length_wr32.
  - rewrite <- H2. f_equal. apply rd16_wr32; rewrite ?H1; unfold DINODE; lia.
  - rewrite <- HN. apply rd16_wr32; rewrite ?H1; unfold DINODE; lia.
  - intros i Hi. rewrite <- H3 by done. apply rd32_wr32_ne; rewrite ?H1; unfold ADDRS, NDIRECT, DINODE in *; lia.
  - rewrite <- H4. apply rd32_wr32_ne; rewrite ?H1; unfold ADDRS, NDIRECT, DINODE in *; lia.
Qed.

Lemma iappend_ok s fl i x p :
  whole s fl -> fl !! i = Some x -> Z.of_nat (length (af_data x) + length p) <= 512 * MAXFILE ->
  freeblock s - Z.of_nat (length (owned x)) + cost (length (af_data x) + length p) <= size ->
  exists s' x', iappend (1 + Z.of_nat i) p s = Some s' /\ whole s' (<[i := x']> fl) /\
    af_data x' = af_data x ++ p /\ af_type x' = af_type x.
Proof.
  intros [B Hs Ht] Hi Hm Hc. destruct (Hs i x Hi) as [Hd Hsz].
  assert (Hlt : (i < length fl)%nat) by (by eapply lookup_lt_Some).
  pose proof (proj2 (bt_inodes _ _ B)) as Hfl. pose proof (i2b_range fl i Hfl Hlt) as Hr.
  unfold iappend, rinode, rsect. rewrite (proj2 (Z.ltb_lt _ _)) by (unfold size; lia). simpl.
  change (slice _ _ _) with (din_of (img s) (1 + Z.of_nat i)). rewrite Hsz.
  destruct (iappend_loop_ok (length p) p s fl i x _ (mkopened _ _ _ _ _ B Hi (fun j y Hj _ => Hs j y Hj) Hd) (Ht i x Hi))
    as (din' & s' & x' & E & [B' Hi' Ho' Hd'] & T' & D & Y); try done.
  rewrite E. simpl. rewrite winode_put by (unfold size; lia). eexists _, x'. split; [reflexivity|]. split; [|done].
  pose proof (describes_size _ _ _ (Z.of_nat (length (af_data x ++ p))) Hd') as Hd2. pose proof (ds_len _ _ _ Hd') as Hl.
  destruct (built_put s' _ (1 + Z.of_nat i) (wr32 din' 8 (Z.of_nat (length (af_data x ++ p)))) B') as (B2 & K & K');
    [lia|by apply Hd2|].
  split; [apply B2; rewrite (proj1 (bt_inodes _ _ B')), length_insert; lia| |].
  - intros j y Hj. destruct (decide (j = i)) as [->|Hne]; [|apply K'; [done|lia|by apply Ho']].
    rewrite Hi' in Hj. injection Hj as <-. unfold saved. simpl. rewrite din_of_put by (apply B' || apply Hd2).
    split; [by eapply K|]. rewrite rd32_wr32 by (rewrite ?Hl; unfold DINODE; lia). rewrite D. apply u32_small.
    rewrite length_app. change MAXFILE with 140 in Hm. unfold is_u32. lia.
  - intros j y Hj. destruct (decide (j = i)) as [->|Hne]; [by rewrite Hi' in Hj; injection Hj as <-|].
    rewrite list_lookup_insert_ne in Hj by done. by eapply Ht.
Qed.

(** ** The files of an image *)

(** Types and bytes of the files, and the blocks they take. *)
Definition contents (fl : list afile) : list (Z * list Z) := (fun x => (af_type x, af_data x)) <$> fl.

Definition total (cs : list (Z * list Z)) : Z := foldr (fun c t => cost (length c.2) + t) 0 cs.

Definition holds (s : mk) (cs : list (Z * list Z)) : Prop := exists fl, whole s fl /\ contents fl = cs.

Lemma total_files_app cs cs' : total (cs ++ cs') = total cs + total cs'.
Proof. induction cs as [|c cs IH]; [done|]. simpl. rewrite IH. lia. Qed.

Lemma total_files_insert cs i c c' :
  cs !! i = Some c -> total (<[i := c']> cs) = total cs - cost (length c.2) + cost (length c'.2).
Proof.
  intros Hi. rewrite insert_take_drop by (by eapply lookup_lt_Some). rewrite <- (take_drop_middle _ _ _ Hi) at 3.
  rewrite !total_files_app. simpl. lia.
Qed.

Lemma cost_nonneg n : 0 <= cost n.
Proof. unfold cost, need, cdiv. case_match; Z.div_mod_to_equations; lia. Qed.

Lemma total_files_nonneg cs : 0 <= total cs.
Proof. induction cs as [|c cs IH]; [done|]. simpl. pose proof (cost_nonneg (length c.2)). lia. Qed.

Lemma whole_free s fl : whole s fl -> freeblock s = DATA + total (contents fl).
Proof.
  intros [B _ T]. rewrite (bt_count _ _ B). f_equal. clear B. induction fl as [|x fl IH]; [done|].
  rewrite fmap_cons. simpl. rewrite length_app, Nat2Z.inj_add, (tidy_owned x) by exact (T 0%nat x eq_refl).
  f_equal. apply IH. intros j y Hj. exact (T (S j) y Hj).
Qed.

Lemma iappend_holds s cs i t d p :
  holds s cs -> cs !! i = Some (t, d) -> Z.of_nat (length (d ++ p)) <= 512 * MAXFILE ->
  DATA + total (<[i := (t, d ++ p)]> cs) <= size ->
  exists s', iappend (1 + Z.of_nat i) p s = Some s' /\ holds s' (<[i := (t, d ++ p)]> cs).
Proof.
  intros (fl & W & <-) Hi Hm Hc. pose proof Hi as Hi'. unfold contents in Hi. rewrite list_lookup_fmap in Hi.
  destruct (fl !! i) as [x|] eqn:Hx; [|done]. injection Hi as <- <-. rewrite length_app in Hm.
  rewrite (total_files_insert _ _ _ _ Hi') in Hc. simpl in Hc. rewrite length_app in Hc.
  destruct (iappend_ok s fl i x p W Hx Hm) as (s' & x' & E & W' & D & Y).
  { rewrite (whole_free _ _ W), (tidy_owned _ (wh_tidy _ _ W _ _ Hx)). lia. }
  exists s'. split; [done|]. exists (<[i := x']> fl). split; [done|]. unfold contents. by rewrite list_fmap_insert, D, Y.
Qed.

(** A whole file, read 512 bytes at a time. *)
Lemma append_file_holds fuel : forall data s cs i t d,
  holds s cs -> cs !! i = Some (t, d) -> (length data <= fuel)%nat -> Z.of_nat (length (d ++ data)) <= 512 * MAXFILE ->
  DATA + total (<[i := (t, d ++ data)]> cs) <= size ->
  exists s', append_file fuel (1 + Z.of_nat i) data s = Some s' /\ holds s' (<[i := (t, d ++ data)]> cs).
Proof.
  induction fuel as [|fuel IH]; intros data s cs i t d H Hi Hf Hm Hc;
    (destruct data as [|c data]; [exists s; rewrite app_nil_r, list_insert_id by done; done|]); [simpl in Hf; lia|].
  set (q := c :: data) in *. change (append_file (S fuel) (1 + Z.of_nat i) q s) with
    (s ← iappend (1 + Z.of_nat i) (take 512 q) s; append_file fuel (1 + Z.of_nat i) (drop 512 q) s).
  assert (Eq : (d ++ take 512 q) ++ drop 512 q = d ++ q) by (by rewrite <- (assoc_L app), take_drop).
  pose proof (f_equal length Eq) as El. rewrite length_app in El.
  destruct (iappend_holds s cs i t d (take 512 q) H Hi) as (s1 & E1 & H1); [lia| |].
  { rewrite (total_files_insert _ _ _ _ Hi) in Hc. rewrite (total_files_insert _ _ _ _ Hi). cbn [snd] in *.
    pose proof (cost_mono (length (d ++ take 512 q)) (length (d ++ q)) ltac:(lia)). lia. }
  rewrite E1. cbn [mbind option_bind]. destruct (IH (drop 512 q) s1 _ i t (d ++ take 512 q) H1) as (s2 & E2 & H2).
  - apply list_lookup_insert_eq. by eapply lookup_lt_Some.
  - rewrite length_drop. simpl in *. lia.
  - by rewrite Eq.
  - by rewrite Eq, list_insert_insert_eq.
  - rewrite Eq, list_insert_insert_eq in H2. by exists s2.
Qed.

(** A new inode. *)
Definition new_dinode (type : Z) : list Z := wr32 (wr16 (wr16 (replicate (Z.to_nat DINODE) 0) 0 type) 6 1) 8 0.

Lemma new_dinode_ok im type :
  type = T_DIR \/ type = T_FILE -> describes im (new_dinode type) (mkafile type [] [] 0) /\ rd32 (new_dinode type) 8 = 0.
Proof.
  intros Ht. split; [|by destruct Ht as [-> | ->]]. split; try done; try (by destruct Ht as [-> | ->]); try (simpl; change MAXFILE with 140; lia).
  intros i Hi. unfold NDIRECT in Hi. simpl.
  assert (Hc : forallb (fun i => (addr (new_dinode T_DIR) i =? 0) && (addr (new_dinode T_FILE) i =? 0)) (Z.of_nat <$> seq 0 12) = true)
    by (by vm_compute).
  rewrite forallb_forall in Hc. specialize (Hc i). rewrite andb_true_iff, !Z.eqb_eq in Hc.
  destruct Hc as [C1 C2]; [|by destruct Ht as [-> | ->]].
  apply list_elem_of_In, list_elem_of_fmap. exists (Z.to_nat i). split; [lia|]. apply elem_of_seq. lia.
Qed.

Lemma ialloc_holds s cs t :
  holds s cs -> (length cs <= 401)%nat -> t = T_DIR \/ t = T_FILE ->
  exists s', ialloc t s = Some (1 + Z.of_nat (length cs), s') /\ holds s' (cs ++ [(t, [])]).
Proof.
  intros (fl & [B Hs Ht] & <-) Hl T. unfold contents in Hl. rewrite length_fmap in Hl.
  destruct (bt_inodes _ _ B) as [Hf _]. set (x := mkafile t [] [] 0). set (inum := 1 + Z.of_nat (length fl)).
  assert (Hin : 2 <= i2b inum <= 102) by (unfold inum, i2b, IPB, BSIZE, DINODE; Z.div_mod_to_equations; lia).
  unfold ialloc. rewrite Hf. fold inum. fold (new_dinode t).
  rewrite winode_put by (unfold size; lia). cbn [mbind option_bind].
  rewrite u32_small by (unfold inum, is_u32; lia). eexists. split; [unfold contents; rewrite length_fmap; reflexivity|].
  exists (fl ++ [x]). split; [|unfold contents; by rewrite fmap_app].
  assert (Hdl : length (new_dinode t) = Z.to_nat DINODE) by (apply (new_dinode_ok (img s) t T)).
  destruct (built_put s fl inum (new_dinode t) B) as (_ & K & K'); [unfold inum; lia|done|].
  destruct (inode_put_sound s fl inum (new_dinode t) B) as (P1 & P2 & P3 & P4); [unfold inum; lia|done|].
  assert (Hc : concat (owned <$> fl ++ [x]) = concat (owned <$> fl)) by (rewrite fmap_app, concat_app; simpl; by rewrite app_nil_r).
  assert (Hj : forall j y, (fl ++ [x]) !! j = Some y -> fl !! j = Some y \/ (j = length fl /\ y = x)).
  { intros j y H%lookup_app_Some. destruct H as [H|[Hj H]]; [by left|]. apply list_lookup_singleton_Some in H as [? <-]. right. split; [lia|done]. }
  split.
  - destruct B as [G1 G2 G3 G4 G5 G6 G7 G8 G9 G10]. split; simpl in *; rewrite ?Hc; try done; [rewrite length_app; simpl; unfold inum; lia|].
    intros j' Hj'. apply P4; unfold inum in *; lia.
  - intros j y [H|[-> ->]]%Hj; simpl in *.
    + apply K'; [done| |by apply Hs]. apply lookup_lt_Some in H. unfold inum. lia.
    + unfold saved. fold inum. rewrite din_of_put by (done || apply B). by apply new_dinode_ok.
  - intros j y [H|[-> ->]]%Hj; [by eapply Ht|]. split; [|done]. unfold ind_ok. simpl. split; [lia|done].
Qed.

(** ** The command line *)

Lemma length_dirent inum name : length (dirent inum name) = 16%nat.
Proof. reflexivity. Qed.

#[local] Opaque dirent.

(** The directory entries of the files, the first one with inode number [inum]. *)
Fixpoint entries (inum : Z) (fs : list (list Z * list Z)) : list Z :=
  match fs with
  | [] => []
  | f :: fs => dirent inum (entry_name f.1) ++ entries (inum + 1) fs
  end.

(** A file [mkfs] accepts: no slash in its name, not too many bytes. *)
Definition file_ok (f : list Z * list Z) : Prop := SLASH ∉ f.1 /\ Z.of_nat (length f.2) <= 512 * MAXFILE.

Lemma add_file_steps r name data s inum s1 s2 s3 :
  SLASH ∉ name -> ialloc T_FILE s = Some (inum, s1) -> iappend r (dirent inum (entry_name name)) s1 = Some s2 ->
  append_file (length data) inum data s2 = Some s3 -> add_file r (name, data) s = Some s3.
Proof. intros Hn E1 E2 E3. unfold add_file. rewrite bool_decide_false, E1 by done. simpl. rewrite E2. simpl. exact E3. Qed.

Lemma add_file_holds s root cs f d :
  holds s ((T_DIR, root) :: cs) -> (length cs <= 400)%nat -> file_ok f ->
  d = dirent (2 + Z.of_nat (length cs)) (entry_name f.1) ->
  Z.of_nat (length (root ++ d)) <= 512 * MAXFILE ->
  DATA + total ((T_DIR, root ++ d) :: cs ++ [(T_FILE, f.2)]) <= size ->
  exists s', add_file 1 f s = Some s' /\ holds s' ((T_DIR, root ++ d) :: cs ++ [(T_FILE, f.2)]).
Proof.
  intros H Hl [Hslash Hlen] Hd Hr Hc. destruct f as [name data]. simpl fst in *. simpl snd in *.
  destruct (ialloc_holds _ _ T_FILE H) as (s1 & E1 & H1); [simpl; lia|by right|].
  replace (1 + Z.of_nat (length ((T_DIR, root) :: cs))) with (2 + Z.of_nat (length cs)) in E1 by (simpl length; lia).
  simpl total in Hc. rewrite total_files_app in Hc. simpl total in Hc. pose proof (cost_nonneg (length data)) as Hn.
  destruct (iappend_holds s1 _ 0 T_DIR root d H1) as (s2 & E2 & H2); [reflexivity|exact Hr| |].
  { simpl. rewrite total_files_app. simpl. change (cost 0) with 0. lia. }
  change (1 + Z.of_nat 0) with 1 in E2. rewrite Hd in E2.
  destruct (append_file_holds (length data) data s2 _ (S (length cs)) T_FILE [] H2) as (s3 & E3 & H3).
  - simpl. by rewrite lookup_app_r, Nat.sub_diag by lia.
  - lia.
  - exact Hlen.
  - simpl. rewrite insert_app_r_alt, Nat.sub_diag by lia. simpl. rewrite total_files_app. simpl. lia.
  - exists s3. replace (1 + Z.of_nat (S (length cs))) with (2 + Z.of_nat (length cs)) in E3 by lia.
    split; [by apply (add_file_steps _ _ _ _ _ _ _ _ Hslash E1 E2)|].
    simpl in H3. by rewrite insert_app_r_alt, Nat.sub_diag in H3 by lia.
Qed.

Lemma add_files_holds files : forall s root cs,
  holds s ((T_DIR, root) :: cs) -> (length cs + length files <= 401)%nat -> Forall file_ok files ->
  let root' := root ++ entries (2 + Z.of_nat (length cs)) files in
  Z.of_nat (length root') <= 512 * MAXFILE ->
  DATA + total ((T_DIR, root') :: cs ++ ((fun f => (T_FILE, f.2)) <$> files)) <= size ->
  exists s', add_files 1 files s = Some s' /\ holds s' ((T_DIR, root') :: cs ++ ((fun f => (T_FILE, f.2)) <$> files)).
Proof.
  induction files as [|f files IH]; intros s root cs H Hl Hf root' Hr Hc.
  { exists s. unfold root'. simpl. by rewrite !app_nil_r. }
  apply list.Forall_cons in Hf as [Hf1 Hf2]. unfold root' in *. clear root'. simpl entries in *. rewrite (assoc_L app) in *.
  rewrite fmap_cons in *. simpl length in Hl. set (d := dirent _ _) in *.
  replace (cs ++ (T_FILE, f.2) :: ((fun f => (T_FILE, f.2)) <$> files)) with ((cs ++ [(T_FILE, f.2)]) ++ ((fun f => (T_FILE, f.2)) <$> files))
    in * by (by rewrite <- (assoc_L app)).
  destruct (add_file_holds s root cs f d H) as (s1 & E1 & H1); [lia|done|done|rewrite length_app in Hr; lia| |].
  { simpl total in *. rewrite total_files_app in Hc.
    pose proof (total_files_nonneg ((fun f => (T_FILE, f.2)) <$> files)).
    pose proof (cost_mono (length (root ++ d)) (length ((root ++ d) ++ entries (2 + Z.of_nat (length cs) + 1) files))) as Hm.
    rewrite (length_app (root ++ d)) in Hm. rewrite (length_app (root ++ d)) in Hc. specialize (Hm ltac:(lia)). lia. }
  simpl. rewrite E1. cbn [mbind option_bind].
  specialize (IH s1 (root ++ d) (cs ++ [(T_FILE, f.2)]) H1). rewrite length_app in IH. simpl length in IH.
  replace (2 + Z.of_nat (length cs + 1)) with (2 + Z.of_nat (length cs) + 1) in IH by lia.
  destruct IH as (s2 & E2 & H2); [lia|done|done|done|]. by exists s2.
Qed.

(** ** The finished image *)

Definition start_mk : mk := wsect 1 superblock_bytes (mkmk (fun _ => zeroes) DATA DATA 1).

Lemma start_holds : holds start_mk [].
Proof.
  exists []. split; [|done]. split; [|intros j y Hj; by rewrite lookup_nil in Hj..]. split; simpl; try done.
  - intros t. destruct (decide (1 = t)) as [<-|]; [by rewrite fn_lookup_insert|by rewrite fn_lookup_insert_ne].
  - lia.
  - set_solver.
  - apply base.NoDup_nil_2.
  - intros t Ht. apply fn_lookup_insert_ne. unfold DATA in Ht. lia.
  - intros inum Hn. assert (2 <= i2b inum) by (unfold i2b, IPB, BSIZE, DINODE; Z.div_mod_to_equations; lia).
    unfold din_of. rewrite fn_lookup_insert_ne by lia. unfold slice, zeroes, IPB, BSIZE, DINODE. change (512 / 128) with 4.
    pose proof (Z.mod_pos_bound inum 4 eq_refl). rewrite drop_replicate, take_replicate. apply (f_equal (fun n => replicate n 0) (y := 128%nat)). lia.
Qed.

Definition dots : list Z := dirent 1 [46] ++ dirent 1 [46; 46].

Lemma mkfs_start files : mkfs files = mkfs_fill files start_mk.
Proof. reflexivity. Qed.

Lemma mkfs_steps files r s0 s1 s2 s3 s4 s5 :
  ialloc T_DIR s0 = Some (r, s1) -> (r =? ROOTINO) = true -> iappend r (dirent r [46]) s1 = Some s2 ->
  iappend r (dirent r [46; 46]) s2 = Some s3 -> add_files r files s3 = Some s4 -> fix_root r s4 = Some s5 ->
  mkfs_fill files s0 = mkfs_balloc (usedblocks s5) s5.
Proof.
  intros E1 Er E2 E3 E4 E5. unfold mkfs_fill. rewrite E1. cbn [mbind option_bind]. rewrite Er. cbn [negb].
  rewrite E2. cbn [mbind option_bind]. rewrite E3. cbn [mbind option_bind]. rewrite E4. cbn [mbind option_bind]. by rewrite E5.
Qed.

(** The bitmap marks the blocks below [n]. *)
Lemma bitmap_bit n j : (n <= 4096)%nat -> 0 <= j -> length (bitmap n) = 512%nat /\ bit (bitmap n) j = (j <? Z.of_nat n).
Proof.
  intros Hn Hj. induction n as [|n IH].
  - split; [done|]. rewrite (proj2 (Z.ltb_ge _ _)) by lia. rewrite bit_testbit. change (bitmap 0) with zeroes. unfold zeroes, byte_at.
    destruct (decide (Z.to_nat (j / 8) < 512)%nat); [rewrite lookup_replicate_2 by done|rewrite lookup_ge_None_2 by (rewrite length_replicate; lia)];
      apply Z.testbit_0_l.
  - destruct (IH ltac:(lia)) as [L E]. unfold bitmap in *. rewrite seq_S, fmap_app, foldl_app. simpl.
    split; [unfold set_bit; by rewrite length_set_byte|]. rewrite bit_set by lia. rewrite E.
    destruct (Z.eqb_spec (Z.of_nat n) j), (Z.ltb_spec j (Z.of_nat n)), (Z.ltb_spec j (Z.of_nat (S n))); simpl; lia || done.
Qed.

(** ** Reading the image *)

(** The number of the block [i] of the file with the inode [din], and all the blocks of that file. *)
Definition file_block (im : Z -> list Z) (din : list Z) (i : Z) : Z :=
  if i <? NDIRECT then addr din i else rd32 (im (addr din NDIRECT)) (4 * (i - NDIRECT)).

Definition data_blocks (im : Z -> list Z) (inum : Z) : list Z :=
  (fun i => file_block im (din_of im inum) (Z.of_nat i)) <$> seq 0 (Z.to_nat (cdiv (Z.to_nat (rd32 (din_of im inum) 8)))).

Definition file_blocks (im : Z -> list Z) (inum : Z) : list Z :=
  data_blocks im inum ++ (if addr (din_of im inum) NDIRECT =? 0 then [] else [addr (din_of im inum) NDIRECT]).

Definition read_file (im : Z -> list Z) (inum : Z) : list Z :=
  take (Z.to_nat (rd32 (din_of im inum) 8)) (concat (im <$> data_blocks im inum)).

Definition file_type (im : Z -> list Z) (inum : Z) : Z := s16 (rd16 (din_of im inum) 0).
Definition file_nlink (im : Z -> list Z) (inum : Z) : Z := rd16 (din_of im inum) 6.

Lemma describes_block im din x i b :
  describes im din x -> tidy x -> af_blocks x !! i = Some b -> file_block im din (Z.of_nat i) = b.
Proof.
  intros [H1 H2 HN H3 H4 H5 H6 H7 H8 H9] [T _] Hb. unfold ind_ok in T. unfold file_block.
  pose proof (lookup_lt_Some _ _ _ Hb) as Hlt. change MAXFILE with 140 in H7.
  destruct (Z.ltb_spec (Z.of_nat i) NDIRECT) as [Hi|Hi]; unfold NDIRECT in Hi.
  - rewrite H3 by (unfold NDIRECT; lia). by rewrite Nat2Z.id, Hb.
  - rewrite H4, H6; [|lia|change NINDIRECT with 128; unfold NDIRECT; lia]. unfold NDIRECT.
    replace (12 + Z.to_nat (Z.of_nat i - 12))%nat with i by lia. by rewrite Hb.
Qed.

Lemma describes_read im inum x sz :
  describes im (din_of im inum) x -> tidy x -> rd32 (din_of im inum) 8 = Z.of_nat sz -> cdiv sz = Z.of_nat (length (af_blocks x)) ->
  file_blocks im inum = owned x /\
  read_file im inum = take sz (af_data x ++ replicate (512 * length (af_blocks x) - length (af_data x)) 0) /\
  file_type im inum = af_type x /\ file_nlink im inum = 1.
Proof.
  intros D T Es Ec.
  assert (Eb : data_blocks im inum = af_blocks x).
  { unfold data_blocks. rewrite Es, Nat2Z.id, Ec, Nat2Z.id. apply list_eq. intros i. rewrite list_lookup_fmap.
    destruct (af_blocks x !! i) as [b|] eqn:Hb.
    - pose proof (lookup_lt_Some _ _ _ Hb). rewrite lookup_seq_lt by done. simpl. by erewrite describes_block.
    - apply lookup_ge_None in Hb. by rewrite lookup_seq_ge. }
  split; [unfold file_blocks; rewrite Eb, (ds_ind _ _ _ D); done|].
  split; [unfold read_file; rewrite Eb, (ds_data _ _ _ D), Es, Nat2Z.id; done|]. split; apply D.
Qed.

(** ** The last steps *)

Definition BITMAP : Z := 103.

(** The image after the size of the root directory and the bitmap have been written. *)
Definition sealed (s : mk) : Z -> list Z :=
  let din := din_of (img s) 1 in
  <[BITMAP := bitmap (Z.to_nat (usedblocks s))]>
    (inode_put (img s) 1 (wr32 din 8 ((rd32 din 8 / BSIZE + 1) * BSIZE))).

Lemma sealed_ok s fl :
  built s fl -> exists s5 s6, fix_root 1 s = Some s5 /\ mkfs_balloc (usedblocks s5) s5 = Some s6 /\ img s6 = sealed s.
Proof.
  intros B. pose proof (bt_max _ _ B) as Hm. pose proof (bt_used _ _ B) as Hu. unfold size in Hm.
  eexists _, _. split.
  { unfold fix_root, rinode, rsect. change (i2b 1 <? size) with true. cbn [mbind option_bind]. rewrite winode_put by done. reflexivity. }
  split; [unfold mkfs_balloc; cbn [usedblocks]; rewrite (proj2 (Z.leb_gt _ _)) by lia; reflexivity|]. reflexivity.
Qed.

Lemma sealed_sizes s x fl :
  whole s (x :: fl) ->
  (forall j y, (x :: fl) !! j = Some y -> describes (sealed s) (din_of (sealed s) (1 + Z.of_nat j)) y) /\
  rd32 (din_of (sealed s) 1) 8 = Z.of_nat (512 * (length (af_data x) / 512 + 1)) /\
  (forall j y, fl !! j = Some y -> rd32 (din_of (sealed s) (2 + Z.of_nat j)) 8 = Z.of_nat (length (af_data y))).
Proof.
  intros [B HS T]. destruct (HS 0%nat x eq_refl) as [Dx Sx]. change (1 + Z.of_nat 0) with 1 in Dx, Sx. destruct (T 0%nat x eq_refl) as [_ Bx].
  set (v := (rd32 (din_of (img s) 1) 8 / BSIZE + 1) * BSIZE). set (d := wr32 (din_of (img s) 1) 8 v).
  assert (Hd : describes (img s) d x) by (by apply describes_size).
  assert (Hv : v = Z.of_nat (512 * (length (af_data x) / 512 + 1))).
  { unfold v. rewrite Sx, Nat2Z.inj_mul, Nat2Z.inj_add, Nat2Z.inj_div. unfold BSIZE. lia. }
  pose proof (ds_max _ _ _ Hd) as Hmax. change MAXFILE with 140 in Hmax.
  destruct (built_put s _ 1 d B) as (_ & K & K'); [lia|apply Hd|]. simpl in K, K'.
  assert (Ed : forall inum, 1 <= inum <= 402 -> din_of (sealed s) inum = din_of (inode_put (img s) 1 d) inum).
  { intros inum Hi. unfold din_of, sealed. rewrite fn_lookup_insert_ne; [done|].
    unfold BITMAP, i2b, IPB, BSIZE, DINODE. Z.div_mod_to_equations. lia. }
  assert (Eb : forall j y dn, (x :: fl) !! j = Some y -> describes (img s) dn y -> describes (sealed s) dn y).
  { intros j y dn Hj Hy. apply (describes_ext (inode_put (img s) 1 d)); [|by eapply K]. intros b Hb.
    pose proof (bt_range _ _ B b (owned_in _ _ _ _ Hj Hb)) as Hr. unfold sealed, DATA in *. apply fn_lookup_insert_ne. unfold BITMAP. lia. }
  assert (Hj : forall j y, (x :: fl) !! j = Some y -> 1 <= 1 + Z.of_nat j <= 402).
  { intros j y Hj%lookup_lt_Some. pose proof (proj2 (bt_inodes _ _ B)). lia. }
  assert (E1 : din_of (sealed s) 1 = d).
  { rewrite Ed by lia. apply din_of_put; [apply B|apply Hd]. }
  split; [|split].
  - intros [|j] y Hy; [injection Hy as <-; change (1 + Z.of_nat 0) with 1; rewrite E1; by apply (Eb 0%nat)|].
    rewrite Ed by (by eapply Hj). rewrite din_of_put_ne by (apply B || apply Hd || lia). apply (Eb (S j)); [done|]. by apply (HS (S j)).
  - rewrite E1. unfold d. rewrite rd32_wr32 by (rewrite ?(ds_len _ _ _ Dx); unfold DINODE; lia). rewrite u32_small; [done|].
    pose proof (ds_room _ _ _ Hd). unfold is_u32. rewrite Hv, Nat2Z.inj_mul, Nat2Z.inj_add, Nat2Z.inj_div. Z.div_mod_to_equations. lia.
  - intros j y Hy. replace (2 + Z.of_nat j) with (1 + Z.of_nat (S j)) by lia. rewrite Ed by (by eapply (Hj (S j))).
    rewrite din_of_put_ne by (apply B || apply Hd || lia). by apply (HS (S j)).
Qed.

Lemma sealed_files s x fl :
  whole s (x :: fl) -> (length (af_data x) mod 512 <> 0)%nat ->
  (forall j y, (x :: fl) !! j = Some y -> describes (sealed s) (din_of (sealed s) (1 + Z.of_nat j)) y) /\
  rd32 (din_of (sealed s) 1) 8 = Z.of_nat (512 * length (af_blocks x)) /\
  (forall j y, fl !! j = Some y -> rd32 (din_of (sealed s) (2 + Z.of_nat j)) 8 = Z.of_nat (length (af_data y))).
Proof.
  intros W Hal. destruct (sealed_sizes s x fl W) as (H1 & H2 & H3). split_and!; [done| |done].
  rewrite H2. destruct (wh_tidy _ _ W 0%nat x eq_refl) as [_ Bx]. unfold cdiv in Bx.
  assert (Z.of_nat (length (af_data x)) mod 512 <> 0) by (rewrite <- (Nat2Z.inj_mod _ 512); lia).
  rewrite !Nat2Z.inj_mul, Nat2Z.inj_add, Nat2Z.inj_div, Bx. Z.div_mod_to_equations. lia.
Qed.

(** ** What [mkfs] promises *)

Definition root_bytes (files : list (list Z * list Z)) : list Z := dots ++ entries 2 files.

Definition as_files (files : list (list Z * list Z)) : list (Z * list Z) := (fun f => (T_FILE, f.2)) <$> files.

(** The blocks the files and the root directory take. *)
Definition blocks_needed (files : list (list Z * list Z)) : Z := total ((T_DIR, root_bytes files) :: as_files files).

(** A command line whose files fit: in a file each, in the inodes and in the blocks. *)
Record command_ok (files : list (list Z * list Z)) : Prop := mkcommand_ok {
  cm_files : Forall file_ok files;
  cm_inodes : 2 + Z.of_nat (length files) <= ninodes;
  cm_blocks : blocks_needed files <= nblocks
}.

(** The entries of the root directory, two more than the files, do not fill its last block,
    which has 32 of them. *)
Definition root_spare (files : list (list Z * list Z)) : Prop := ((2 + length files) mod 32 <> 0)%nat.

#[export] Instance root_spare_dec files : Decision (root_spare files).
Proof. unfold root_spare. apply _. Defined.

(** A disk with these files. *)
Record image_of (files : list (list Z * list Z)) (im : Z -> list Z) : Prop := mkimage_of {
  im_super : sb_of (im 1) = mksb size nblocks ninodes nlog;
  im_file : forall k f, files !! k = Some f ->
    file_type im (2 + Z.of_nat k) = T_FILE /\ file_nlink im (2 + Z.of_nat k) = 1 /\ read_file im (2 + Z.of_nat k) = f.2;
  im_root : file_type im ROOTINO = T_DIR /\ file_nlink im ROOTINO = 1 /\
    exists n, read_file im ROOTINO = root_bytes files ++ replicate n 0;
  im_blocks : concat (file_blocks im <$> seqZ ROOTINO (1 + Z.of_nat (length files))) ≡ₚ seqZ DATA (blocks_needed files);
  im_bitmap : forall b, 0 <= b < size -> used (sb_of (im 1)) im b = (b <? DATA + blocks_needed files)
}.

(** A disk whose root directory has a size with one block more than it has: the number of the
    block after its entries is 0, or it has no indirect block that would hold it. *)
Record root_over (files : list (list Z * list Z)) (im : Z -> list Z) : Prop := mkroot_over {
  ro_size : rd32 (din_of im ROOTINO) 8 = Z.of_nat (length (root_bytes files)) + BSIZE;
  ro_block : let i := Z.of_nat (length (root_bytes files)) / BSIZE in
    if i <? NDIRECT then addr (din_of im ROOTINO) i = 0 else addr (din_of im ROOTINO) NDIRECT = 0
}.

Lemma length_entries inum files : length (entries inum files) = (16 * length files)%nat.
Proof. revert inum. induction files as [|f files IH]; intros inum; [done|]. simpl. rewrite length_app, length_dirent, IH. lia. Qed.

Lemma length_root files : length (root_bytes files) = (16 * (2 + length files))%nat.
Proof. unfold root_bytes, dots. rewrite !length_app, !length_dirent, length_entries. lia. Qed.

Lemma mkfs_builds files :
  command_ok files ->
  exists s, holds s ((T_DIR, root_bytes files) :: as_files files) /\
    forall s5 s6, fix_root 1 s = Some s5 -> mkfs_balloc (usedblocks s5) s5 = Some s6 -> mkfs files = Some s6.
Proof.
  intros [Hf Hi Hb]. pose proof (length_root files) as Hr. unfold ninodes, nblocks, blocks_needed in *. simpl total in Hb.
  pose proof (total_files_nonneg (as_files files)) as Hn.
  destruct (ialloc_holds start_mk [] T_DIR start_holds) as (s1 & E1 & H1); [simpl; lia|by left|]. simpl in E1, H1.
  assert (Hc : forall n, (n <= length (root_bytes files))%nat -> DATA + (cost n + 0) <= size).
  { intros n Hn'. pose proof (cost_mono _ _ Hn'). unfold DATA, size. lia. }
  assert (Hm : forall n, (n <= length (root_bytes files))%nat -> Z.of_nat n <= 512 * MAXFILE) by (change MAXFILE with 140; intros; lia).
  destruct (iappend_holds s1 _ 0 T_DIR [] (dirent 1 [46]) H1 eq_refl) as (s2 & E2 & H2);
    [apply Hm|apply Hc|]; [simpl; rewrite length_dirent; lia..|].
  destruct (iappend_holds s2 _ 0 T_DIR _ (dirent 1 [46; 46]) H2 eq_refl) as (s3 & E3 & H3);
    [apply Hm|apply Hc|]; [simpl; rewrite ?length_app, ?length_dirent; simpl; lia..|].
  destruct (add_files_holds files s3 dots [] H3) as (s4 & E4 & H4); [simpl; lia|done|apply Hm; done| |].
  { change (DATA + total ((T_DIR, root_bytes files) :: as_files files) <= size). simpl total. unfold DATA, size. lia. }
  exists s4. split; [exact H4|]. intros s5 s6 E5 E6. rewrite mkfs_start, <- E6. by eapply (mkfs_steps files 1).
Qed.

(** The blocks of the files fill the start of the data area. *)
Lemma fill_perm (l : list Z) lo n :
  NoDup l -> (forall b, b ∈ l -> lo <= b < lo + n) -> Z.of_nat (length l) = n -> l ≡ₚ seqZ lo n.
Proof.
  intros Hd Hr Hl. apply submseteq_length_Permutation; [|rewrite length_seqZ; lia].
  apply NoDup_submseteq; [done|]. intros b Hb. apply elem_of_seqZ. by apply Hr.
Qed.

Lemma sealed_reads s x fl j y :
  whole s (x :: fl) -> (length (af_data x) mod 512 <> 0)%nat -> (x :: fl) !! j = Some y ->
  let im := sealed s in let inum := 1 + Z.of_nat j in
  file_blocks im inum = owned y /\ file_type im inum = af_type y /\ file_nlink im inum = 1 /\
  read_file im inum = af_data y ++ (if decide (j = 0%nat) then replicate (512 * length (af_blocks x) - length (af_data x)) 0 else []).
Proof.
  intros W Hal Hj im inum. destruct (sealed_files s x fl W Hal) as (Hd & Hx & Hy). specialize (Hd j y Hj).
  pose proof (wh_tidy _ _ W _ _ Hj) as T. pose proof (ds_room _ _ _ Hd) as Hroom. destruct j as [|j].
  - injection Hj as <-. destruct (describes_read im inum x _ Hd T Hx) as (E1 & E2 & E3 & E4).
    { unfold cdiv. Z.div_mod_to_equations. lia. }
    split_and!; try done. rewrite E2, decide_True by done. apply take_ge. rewrite length_app, length_replicate. lia.
  - specialize (Hy j y Hj). replace (2 + Z.of_nat j) with inum in Hy by (unfold inum; lia).
    destruct (describes_read im inum y _ Hd T Hy) as (E1 & E2 & E3 & E4); [by destruct T|].
    split_and!; try done. rewrite E2, decide_False, app_nil_r by done. apply take_app_length.
Qed.

Lemma sealed_image files s :
  command_ok files -> root_spare files -> holds s ((T_DIR, root_bytes files) :: as_files files) -> image_of files (sealed s).
Proof.
  intros [Hf Hi Hb] Hr (fl & W & Hc). unfold root_spare in Hr. destruct fl as [|x fl]; [done|]. pose proof (whole_free _ _ W) as Hfree.
  pose proof (wh_built _ _ W) as B. rewrite Hc in Hfree. change (freeblock s = DATA + blocks_needed files) in Hfree.
  assert (Hcs : contents fl = as_files files) by exact (f_equal (@tail _) Hc). injection Hc as Tx Dx _.
  assert (Hal : (length (af_data x) mod 512 <> 0)%nat).
  { rewrite Dx, length_root. change 512%nat with (16 * 32)%nat. rewrite Nat.Div0.mul_mod_distr_l. lia. }
  assert (Hlen : length fl = length files) by (pose proof (f_equal length Hcs) as E; unfold contents, as_files in E; by rewrite !length_fmap in E).
  assert (Hsb : sealed s 1 = superblock_bytes).
  { unfold sealed, inode_put. rewrite fn_lookup_insert_ne, fn_lookup_insert_ne by done. apply B. }
  split.
  - by rewrite Hsb.
  - intros k f Hk. assert (Hfk : contents fl !! k = Some (T_FILE, f.2)) by (rewrite Hcs; unfold as_files; by rewrite list_lookup_fmap, Hk).
    unfold contents in Hfk. rewrite list_lookup_fmap in Hfk. destruct (fl !! k) as [y|] eqn:Hy; [|done]. injection Hfk as Ty Dy.
    destruct (sealed_reads s x fl (S k) y W Hal Hy) as (_ & E2 & E3 & E4). simpl in E4. rewrite app_nil_r in E4.
    replace (2 + Z.of_nat k) with (1 + Z.of_nat (S k)) by lia. by rewrite E2, E3, E4, Ty, Dy.
  - destruct (sealed_reads s x fl 0 x W Hal eq_refl) as (_ & E2 & E3 & E4). rewrite decide_True in E4 by done.
    change ROOTINO with (1 + Z.of_nat 0). rewrite E2, E3, E4, Tx, Dx. split_and!; try done. by eexists.
  - assert (E : file_blocks (sealed s) <$> seqZ ROOTINO (1 + Z.of_nat (length files)) = owned <$> x :: fl).
    { apply list_eq. intros j. rewrite !list_lookup_fmap. destruct ((x :: fl) !! j) as [y|] eqn:Hj.
      - pose proof (lookup_lt_Some _ _ _ Hj) as Hlt. simpl in Hlt. rewrite lookup_seqZ_lt by lia.
        cbn [fmap option_fmap option_map]. f_equal. apply (sealed_reads s x fl j y W Hal Hj).
      - apply lookup_ge_None in Hj. simpl in Hj. rewrite lookup_seqZ_ge by lia. done. }
    rewrite E. apply fill_perm; [apply B| |].
    + intros b Hbb. rewrite <- Hfree. by apply (bt_range _ _ B).
    + pose proof (bt_count _ _ B). lia.
  - intros b Hbb. unfold used. rewrite Hsb. change (BBLOCK b _) with (b / BPB + 100 + 3). unfold size, BPB, BSIZE in *.
    rewrite Z.div_small, Z.mod_small by lia. change (0 + 100 + 3) with BITMAP. unfold sealed at 1. rewrite fn_lookup_insert.
    pose proof (bt_max _ _ B) as Hmax. pose proof (freeblock_ok _ _ B) as [Hu _]. unfold size, is_u32 in *. rewrite (bt_used _ _ B).
    destruct (bitmap_bit (Z.to_nat (freeblock s)) b) as [_ ->]; [lia|lia|]. f_equal. lia.
Qed.

(** A root directory that fills its blocks. *)
Lemma sealed_root_over files s :
  command_ok files -> ~ root_spare files -> holds s ((T_DIR, root_bytes files) :: as_files files) -> root_over files (sealed s).
Proof.
  intros [_ Hi _] Hr (fl & W & Hc). destruct fl as [|x fl]; [done|]. injection Hc as _ Dx _.
  destruct (sealed_sizes s x fl W) as (Hd & Hx & _). specialize (Hd 0%nat x eq_refl). change (1 + Z.of_nat 0) with ROOTINO in Hd.
  destruct (wh_tidy _ _ W 0%nat x eq_refl) as [Ix Bx]. rewrite Dx in Hx, Bx. pose proof (length_root files) as Hl.
  assert (Hm : ((2 + length files) mod 32 = 0)%nat) by (unfold root_spare in Hr; lia).
  assert (Hq : exists q, (2 + length files = 32 * q)%nat) by (exists ((2 + length files) / 32)%nat; apply Nat.Div0.div_exact, Hm).
  destruct Hq as [q Hq]. rewrite Hq in Hl. assert (Hl2 : length (root_bytes files) = (q * 512)%nat) by lia.
  unfold ninodes in Hi. unfold cdiv in Bx. rewrite Hl2 in Hx, Bx. split; rewrite Hl2.
  - change ROOTINO with 1. rewrite Hx, Nat.div_mul by done. unfold BSIZE. lia.
  - assert (Hb : length (af_blocks x) = q) by (Z.div_mod_to_equations; lia).
    rewrite Nat2Z.inj_mul. change (Z.of_nat 512) with BSIZE. rewrite Z.div_mul by done. cbv zeta.
    destruct (Z.ltb_spec (Z.of_nat q) NDIRECT) as [Hlt|Hge].
    + rewrite (ds_addrs _ _ _ Hd) by lia. by rewrite lookup_ge_None_2 by lia.
    + rewrite (ds_ind _ _ _ Hd). apply Ix. lia.
Qed.

(** The log of the image is empty. *)
Lemma sealed_log files s :
  command_ok files -> holds s ((T_DIR, root_bytes files) :: as_files files) ->
  sb_names_log (size - nlog) nlog (sealed s) /\ recovers_to (dsize := size) (size - nlog) nlog (sealed s) (sealed s).
Proof.
  intros C (fl & W & Hc).
  assert (Hsb : sealed s 1 = superblock_bytes).
  { unfold sealed, inode_put. rewrite fn_lookup_insert_ne, fn_lookup_insert_ne by done. apply W. }
  assert (Hlog : sealed s 2038 = zeroes).
  { unfold sealed, inode_put. rewrite fn_lookup_insert_ne, fn_lookup_insert_ne by done. apply (bt_fresh _ _ (wh_built _ _ W)).
    rewrite (whole_free _ _ W), Hc. pose proof (cm_blocks _ C). unfold blocks_needed, nblocks, DATA in *. lia. }
  split; [split; rewrite Hsb; vm_compute; reflexivity|].
  apply (recovers_clear (D := CrashDisk size)); change (size - nlog) with 2038; rewrite ?Hlog; done.
Qed.

(** C8: the image [mkfs] writes is a file system that the kernel boots from.  For a
    command line whose files fit, [mkfs] succeeds, and a machine with this disk
    comes up with it, however often it loses power while it boots.  If the entries
    of the root directory, one for each file and two more, are not a multiple of
    32 and so do not fill its last block, the image has the superblock of the
    layout, every file of the command line with its bytes, type and link count
    under the next inode number, and a root directory with [.], [..] and an entry
    for each of them; the blocks of the files are disjoint and fill the data area from
    its start; and the bitmap marks exactly these blocks and the ones before them.
    If they do fill it, the size of the root directory counts a block more than
    the directory has. *)
Theorem mkfs_image `{D : Disk} `{!DiskLaws size} files :
  command_ok files ->
  exists s, mkfs files = Some s /\
    (if decide (root_spare files) then image_of files (img s) else root_over files (img s)) /\
    forall n, comes_back (dsize := size) (size - nlog) nlog n (img s) (img s).
Proof.
  intros C. destruct (mkfs_builds files C) as (s & H & Hk). pose proof H as (fl & W & Hc).
  destruct (sealed_ok s fl (wh_built _ _ W)) as (s5 & s6 & E5 & E6 & E). exists s6. rewrite E.
  split; [by eapply Hk|]. split; [case_decide; [by apply sealed_image|by apply sealed_root_over]|]. intros n.
  destruct (sealed_log files s C H) as [N R]. apply recovers_comes_back; [split; unfold size, nlog, LOGSIZE; lia|unfold size; lia|done|done].
Qed.

(** An image with two files, one of them longer than twelve blocks. *)
Definition demo_files : list (list Z * list Z) := [([95; 99; 97; 116], [1; 2; 3]); ([98; 105; 103], replicate 7000 7)].

Lemma mkfs_image_witness :
  exists s, mkfs demo_files = Some s /\ read_file (img s) 3 = replicate 7000 7 /\
    used (sb_of (img s 1)) (img s) 120 = true /\ used (sb_of (img s 1)) (img s) 121 = false.
Proof.
  destruct (mkfs_image (D := CrashDisk size) demo_files) as (s & E & [H1 H2 _ _ H5] & _).
  - split; [|unfold ninodes; simpl; lia|vm_compute; discriminate].
    repeat (apply Forall_cons_2; [split; [set_solver|vm_compute; discriminate]|]). apply Forall_nil_2.
  - exists s. split; [done|]. split; [apply (H2 1%nat _ eq_refl)|].
    split; rewrite H5 by (unfold size; lia); vm_compute; reflexivity.
Defined.
