(* ===== verification/Mp.v ===== *)
(** * Processors

    [mp.c], [mp.h]: the search for the tables in which the firmware describes the
    processors, and what the kernel takes from them.  The tables are bytes in
    memory; the global variables of [mp.c] are a record. *)

From stdpp Require Import base list numbers strings tactics.
From Stdlib Require Import Lia.
From S2P Require Import Prelude Params StringC KState.

Local Open Scope Z_scope.

(** ** Tables *)

(** [MP_SIZE], [MPCONF_SIZE], [MPPROC_SIZE], [MPIOAPIC_SIZE]: the [sizeof]s of [mp.h]. *)
Definition MP_SIZE : Z := 16.
Definition MPCONF_SIZE : Z := 44.
Definition MPPROC_SIZE : Z := 20.
Definition MPIOAPIC_SIZE : Z := 8.
Definition MPBOOT : Z := 2.
Definition MPPROC : Z := 0.
Definition MPBUS : Z := 1.
Definition MPIOAPIC : Z := 2.
Definition MPIOINTR : Z := 3.
Definition MPLINTR : Z := 4.

(** The fields of [struct mp] ... *)
Definition mp_physaddr (m : memory) (p : Z) : Z := load32 m (p + 4).
Definition mp_imcrp (m : memory) (p : Z) : Z := m (p + 12).
(** ... and of [struct mpconf]. *)
Definition conf_length (m : memory) (p : Z) : Z := m (p + 4) + 2 ^ 8 * m (p + 5).
Definition conf_version (m : memory) (p : Z) : Z := m (p + 6).
Definition conf_lapicaddr (m : memory) (p : Z) : Z := load32 m (p + 36).

Definition SIG_MP : list Z := [95; 77; 80; 95].
Definition SIG_PCMP : list Z := [80; 67; 77; 80].

(** The [n] bytes at [p]. *)
Definition bytes_at (m : memory) (p : Z) (n : nat) : list Z := (fun i => m (p + Z.of_nat i)) <$> seq 0 n.

Definition memcmp4 (m : memory) (p : Z) (s : list Z) : bool := bool_decide (bytes_at m p 4 = s).

Fixpoint sum_loop (m : memory) (addr : Z) (len : nat) (sum : Z) : Z :=
  match len with
  | O => sum
  | S len => sum_loop m (addr + 1) len (s32 (sum + m addr))
  end.

(** The checksum, cut to a [uchar]. *)
Definition mpsum (m : memory) (addr len : Z) : Z := u8 (sum_loop m addr (Z.to_nat len) 0).

Fixpoint mpsearch1_loop (m : memory) (p : Z) (k : nat) : option Z :=
  match k with
  | O => None
  | S k =>
      if memcmp4 m p SIG_MP && (mpsum m p MP_SIZE =? 0) then Some p
      else mpsearch1_loop m (p + MP_SIZE) k
  end.

(** [k] places to look at: [p < e] in steps of [MP_SIZE]. *)
Definition mpsearch1 (m : memory) (a len : Z) : option Z :=
  mpsearch1_loop m (p2v a) (Z.to_nat ((len + MP_SIZE - 1) / MP_SIZE)).

Definition mpsearch (m : memory) : option Z :=
  let bda := p2v 0x400 in
  let ebda := Z.shiftl (Z.lor (Z.shiftl (m (bda + 0x0F)) 8) (m (bda + 0x0E))) 4 in
  let found :=
    if negb (ebda =? 0) then mpsearch1 m ebda 1024
    else mpsearch1 m (u32 (Z.lor (Z.shiftl (m (bda + 0x14)) 8) (m (bda + 0x13)) * 1024 - 1024)) 1024 in
  match found with
  | Some mp => Some mp
  | None => mpsearch1 m 0xF0000 0x10000
  end.

(** The addresses of [struct mp] and [struct mpconf]. *)
Definition mpconfig (m : memory) : option (Z * Z) :=
  match mpsearch m with
  | None => None
  | Some mp =>
      if mp_physaddr m mp =? 0 then None else
      let conf := p2v (mp_physaddr m mp) in
      if negb (memcmp4 m conf SIG_PCMP) then None else
      if negb (conf_version m conf =? 1) && negb (conf_version m conf =? 4) then None else
      if negb (mpsum m conf (conf_length m conf) =? 0) then None else
      Some (mp, conf)
  end.

(** ** mpinit *)

(** The variables of [mp.c], the writes to I/O ports and the messages. *)
Record mpst := mkmpst {
  cpu_ids : list Z;        (* cpus[i].id *)
  bcpu : Z;                (* the index bcpu points to *)
  ismp : bool;
  ncpu : Z;
  ioapicid : Z;
  lapic : Z;
  mp_ports : list (Z * Z);
  mp_msgs : list (string * list Z)
}.

Definition mpst0 : mpst := mkmpst (replicate (Z.to_nat NCPU) 0) 0 false 0 0 0 [] [].

(** [Overrun]: a write past the end of [cpus]; [Spins]: the bound on the rounds is used up. *)
Inductive mpres := Init (s : mpst) | Overrun | Spins.

Definition say (f : string) (args : list Z) (s : mpst) : mpst :=
  mkmpst (cpu_ids s) (bcpu s) (ismp s) (ncpu s) (ioapicid s) (lapic s) (mp_ports s) (mp_msgs s ++ [(f, args)]).
Definition set_ismp (b : bool) (s : mpst) : mpst :=
  mkmpst (cpu_ids s) (bcpu s) b (ncpu s) (ioapicid s) (lapic s) (mp_ports s) (mp_msgs s).
Definition set_bcpu (i : Z) (s : mpst) : mpst :=
  mkmpst (cpu_ids s) i (ismp s) (ncpu s) (ioapicid s) (lapic s) (mp_ports s) (mp_msgs s).
Definition set_ioapicid (i : Z) (s : mpst) : mpst :=
  mkmpst (cpu_ids s) (bcpu s) (ismp s) (ncpu s) i (lapic s) (mp_ports s) (mp_msgs s).
Definition set_lapic (a : Z) (s : mpst) : mpst :=
  mkmpst (cpu_ids s) (bcpu s) (ismp s) (ncpu s) (ioapicid s) a (mp_ports s) (mp_msgs s).
Definition set_ncpu (n : Z) (s : mpst) : mpst :=
  mkmpst (cpu_ids s) (bcpu s) (ismp s) n (ioapicid s) (lapic s) (mp_ports s) (mp_msgs s).
(** [cpus[ncpu].id = ncpu; ncpu++] *)
Definition add_cpu (s : mpst) : mpst :=
  mkmpst (<[Z.to_nat (ncpu s) := ncpu s]> (cpu_ids s)) (bcpu s) (ismp s) (ncpu s + 1) (ioapicid s) (lapic s) (mp_ports s) (mp_msgs s).
Definition mp_outb (port v : Z) (s : mpst) : mpst :=
  mkmpst (cpu_ids s) (bcpu s) (ismp s) (ncpu s) (ioapicid s) (lapic s) (mp_ports s ++ [(port, v)]) (mp_msgs s).

(** [case MPPROC]; [None] when [cpus] has no entry left. *)
Definition mp_proc (apicid flags : Z) (s : mpst) : option mpst :=
  let s := if negb (ncpu s =? apicid) then set_ismp false (say "mpinit: ncpu=%d apicid=%d" [ncpu s; apicid] s) else s in
  let s := if bset flags MPBOOT then set_bcpu (ncpu s) s else s in
  if ncpu s <? NCPU then Some (add_cpu s) else None.

Fixpoint mpinit_loop (fuel : nat) (m : memory) (p e : Z) (s : mpst) : mpres :=
  if negb (p <? e) then Init s else
  match fuel with
  | O => Spins
  | S fuel =>
      let t := m p in
      if t =? MPPROC then
        match mp_proc (m (p + 1)) (m (p + 3)) s with
        | None => Overrun
        | Some s => mpinit_loop fuel m (p + MPPROC_SIZE) e s
        end
      else if t =? MPIOAPIC then mpinit_loop fuel m (p + MPIOAPIC_SIZE) e (set_ioapicid (m (p + 1)) s)
      else if (t =? MPBUS) || (t =? MPIOINTR) || (t =? MPLINTR) then mpinit_loop fuel m (p + 8) e s
      else mpinit_loop fuel m p e (set_ismp false (say "mpinit: unknown config type %x" [t] s))
  end.

(** [inb23] is what the port 0x23 reads. *)
Definition mpinit (fuel : nat) (m : memory) (inb23 : Z) (s : mpst) : mpres :=
  let s := set_bcpu 0 s in
  match mpconfig m with
  | None => Init s
  | Some (mp, conf) =>
      let s := set_lapic (conf_lapicaddr m conf) (set_ismp true s) in
      match mpinit_loop fuel m (conf + MPCONF_SIZE) (conf + conf_length m conf) s with
      | Init s =>
          if negb (ismp s) then Init (set_ioapicid 0 (set_lapic 0 (set_ncpu 1 s)))
          else if negb (mp_imcrp m mp =? 0) then Init (mp_outb 0x23 (Z.lor inb23 1) (mp_outb 0x22 0x70 s))
          else Init s
      | r => r
      end
  end.

(** [mpbcpu]: the number of the boot processor. *)
Definition mpbcpu (s : mpst) : Z := bcpu s.
