(* ===== verification/MpThm.v ===== *)
(** * The table of processors

    What [mpinit] takes from a table of the firmware, for every list of entries the
    table can have, and what it does with tables it does not expect. *)

From stdpp Require Import base list numbers strings tactics.
From Stdlib Require Import Lia.
From S2P Require Import Prelude Params StringC KState Mp.

Local Open Scope Z_scope.

(** ** Entries and their bytes *)

Inductive entry :=
| EProc (apicid version flags : Z) (rest : list Z)
| EIoapic (apicno : Z) (rest : list Z)
| EOther (type : Z) (rest : list Z).

Definition encode (e : entry) : list Z :=
  match e with
  | EProc apicid version flags rest => [MPPROC; apicid; version; flags] ++ rest
  | EIoapic apicno rest => [MPIOAPIC; apicno] ++ rest
  | EOther type rest => type :: rest
  end.

Definition entry_ok (e : entry) : Prop :=
  match e with
  | EProc _ _ _ rest => length rest = 16%nat
  | EIoapic _ rest => length rest = 6%nat
  | EOther type rest => (type = MPBUS \/ type = MPIOINTR \/ type = MPLINTR) /\ length rest = 7%nat
  end.

(** The bytes [l] are at the address [a]. *)
Definition loaded (m : memory) (a : Z) (l : list Z) : Prop :=
  forall i c, l !! i = Some c -> m (a + Z.of_nat i) = c.

Lemma loaded_app m a l1 l2 : loaded m a (l1 ++ l2) -> loaded m a l1 /\ loaded m (a + Z.of_nat (length l1)) l2.
Proof.
  intros H. split; intros i c Hi.
  - apply H. by apply lookup_app_l_Some.
  - replace (a + Z.of_nat (length l1) + Z.of_nat i) with (a + Z.of_nat (length l1 + i)) by lia. apply H.
    rewrite lookup_app_r by lia. by replace (length l1 + i - length l1)%nat with i by lia.
Qed.

Lemma loaded_cons m a c l : loaded m a (c :: l) -> m a = c /\ loaded m (a + 1) l.
Proof.
  intros H. destruct (loaded_app m a [c] l H) as [H1 H2]. split; [|done]. rewrite <- (H1 0%nat c eq_refl). f_equal. lia.
Qed.

(** ** What the entries say *)

(** The local APIC number and the flags of each processor. *)
Fixpoint processors (es : list entry) : list (Z * Z) :=
  match es with
  | [] => []
  | EProc apicid _ flags _ :: es => (apicid, flags) :: processors es
  | _ :: es => processors es
  end.

(** The number of the last I/O APIC, [d] without one. *)
Fixpoint last_ioapic (es : list entry) (d : Z) : Z :=
  match es with
  | [] => d
  | EIoapic apicno _ :: es => last_ioapic es apicno
  | _ :: es => last_ioapic es d
  end.

(** The index of the last processor with the boot flag; [n] is the index of the first one. *)
Fixpoint boot_cpu (ps : list (Z * Z)) (n d : Z) : Z :=
  match ps with
  | [] => d
  | (_, flags) :: ps => boot_cpu ps (n + 1) (if bset flags MPBOOT then n else d)
  end.

(** One entry, as [mpinit] takes it. *)
Definition take_entry (e : entry) (s : mpst) : option mpst :=
  match e with
  | EProc apicid _ flags _ => mp_proc apicid flags s
  | EIoapic apicno _ => Some (set_ioapicid apicno s)
  | EOther _ _ => Some s
  end.

Fixpoint take_entries (es : list entry) (s : mpst) : option mpst :=
  match es with
  | [] => Some s
  | e :: es => s ← take_entry e s; take_entries es s
  end.

Lemma encode_pos e : (0 < length (encode e))%nat.
Proof. destruct e; simpl; lia. Qed.

(** A round of the loop. *)
Lemma mpinit_loop_entry fuel m p e s x :
  entry_ok x -> loaded m p (encode x) -> p + Z.of_nat (length (encode x)) <= e ->
  mpinit_loop (S fuel) m p e s =
  match take_entry x s with
  | None => Overrun
  | Some s => mpinit_loop fuel m (p + Z.of_nat (length (encode x))) e s
  end.
Proof.
  intros Hx Hl He. pose proof (encode_pos x) as Hp. cbn [mpinit_loop]. rewrite (proj2 (Z.ltb_lt p e)) by lia. cbn [negb].
  destruct x as [apicid v fl rest|no rest|t rest]; simpl in Hx, Hl.
  - apply loaded_cons in Hl as [E0 Hl]. apply loaded_cons in Hl as [E1 Hl]. apply loaded_cons in Hl as [_ Hl].
    apply loaded_cons in Hl as [E3 _]. replace (p + 1 + 1 + 1) with (p + 3) in E3 by lia. rewrite E0, E1, E3. simpl.
    rewrite Hx. done.
  - apply loaded_cons in Hl as [E0 Hl]. apply loaded_cons in Hl as [E1 Hl]. rewrite E0, E1. simpl. by rewrite Hx.
  - destruct Hx as [Ht Hx]. apply loaded_cons in Hl as [E0 _]. rewrite E0. simpl. rewrite Hx.
    by destruct Ht as [-> | [-> | ->]].
Qed.

Lemma mpinit_loop_entries es : forall fuel m p e s,
  Forall entry_ok es -> loaded m p (concat (encode <$> es)) -> p + Z.of_nat (length (concat (encode <$> es))) <= e ->
  mpinit_loop (length es + fuel) m p e s =
  match take_entries es s with
  | None => Overrun
  | Some s => mpinit_loop fuel m (p + Z.of_nat (length (concat (encode <$> es)))) e s
  end.
Proof.
  induction es as [|x es IH]; intros fuel m p e s Hok Hl He.
  { simpl. f_equal. lia. }
  apply list.Forall_cons in Hok as [Hx Hok]. rewrite fmap_cons in *. cbn [concat length] in *.
  rewrite length_app in *. apply loaded_app in Hl as [Hl1 Hl2].
  change (S (length es) + fuel)%nat with (S (length es + fuel)). rewrite (mpinit_loop_entry _ _ _ _ _ x) by (done || lia).
  simpl. destruct (take_entry x s) as [s1|]; simpl; [|done]. rewrite IH by (done || lia).
  destruct (take_entries es s1); [|done]. f_equal. lia.
Qed.

(** ** The state after the entries *)

Record taken (es : list entry) (s s' : mpst) : Prop := mktaken {
  tk_ncpu : ncpu s' = ncpu s + Z.of_nat (length (processors es));
  tk_max : ncpu s <= NCPU -> ncpu s' <= NCPU;
  tk_bcpu : bcpu s' = boot_cpu (processors es) (ncpu s) (bcpu s);
  tk_ioapic : ioapicid s' = last_ioapic es (ioapicid s);
  tk_ismp : ismp s' = ismp s && bool_decide ((processors es).*1 = seqZ (ncpu s) (Z.of_nat (length (processors es))));
  tk_lapic : lapic s' = lapic s;
  tk_ports : mp_ports s' = mp_ports s;
  tk_ids : forall i, 0 <= i < ncpu s' -> cpu_ids s' !! Z.to_nat i = if i <? ncpu s then cpu_ids s !! Z.to_nat i else Some i
}.

(** One processor. *)
Lemma mp_proc_ok apicid fl s :
  length (cpu_ids s) = Z.to_nat NCPU -> 0 <= ncpu s -> ncpu s < NCPU ->
  exists s', mp_proc apicid fl s = Some s' /\ length (cpu_ids s') = Z.to_nat NCPU /\
    ncpu s' = ncpu s + 1 /\ bcpu s' = (if bset fl MPBOOT then ncpu s else bcpu s) /\ ioapicid s' = ioapicid s /\
    ismp s' = ismp s && (ncpu s =? apicid) /\ lapic s' = lapic s /\ mp_ports s' = mp_ports s /\
    forall i, 0 <= i < ncpu s' -> cpu_ids s' !! Z.to_nat i = if i <? ncpu s then cpu_ids s !! Z.to_nat i else Some i.
Proof.
  intros Hl H0 Hn. unfold mp_proc.
  set (s1 := if negb (ncpu s =? apicid) then _ else s). set (s2 := if bset fl MPBOOT then _ else s1).
  assert (E1 : ncpu s1 = ncpu s /\ bcpu s1 = bcpu s /\ ioapicid s1 = ioapicid s /\ ismp s1 = ismp s && (ncpu s =? apicid) /\
    lapic s1 = lapic s /\ mp_ports s1 = mp_ports s /\ cpu_ids s1 = cpu_ids s).
  { unfold s1. destruct (ncpu s =? apicid); simpl; by rewrite ?andb_true_r, ?andb_false_r. }
  destruct E1 as (A1 & A2 & A3 & A4 & A5 & A6 & A7).
  assert (E2 : ncpu s2 = ncpu s /\ bcpu s2 = (if bset fl MPBOOT then ncpu s else bcpu s) /\ ioapicid s2 = ioapicid s1 /\
    ismp s2 = ismp s1 /\ lapic s2 = lapic s1 /\ mp_ports s2 = mp_ports s1 /\ cpu_ids s2 = cpu_ids s1).
  { unfold s2. destruct (bset fl MPBOOT); simpl; by rewrite ?A1, ?A2. }
  destruct E2 as (B1 & B2 & B3 & B4 & B5 & B6 & B7).
  rewrite B1, (proj2 (Z.ltb_lt _ _)) by done. eexists. split; [reflexivity|]. simpl.
  rewrite B1, B7, A7, length_insert, B3, A3, B4, A4, B5, A5, B6, A6. split_and!; try done.
  intros i Hi. destruct (Z.ltb_spec i (ncpu s)).
  - by rewrite list_lookup_insert_ne by lia.
  - replace i with (ncpu s) by lia. rewrite list_lookup_insert_eq by lia. done.
Qed.

Lemma take_entries_ok es : forall s,
  length (cpu_ids s) = Z.to_nat NCPU -> 0 <= ncpu s ->
  match take_entries es s with
  | None => NCPU < ncpu s + Z.of_nat (length (processors es))
  | Some s' => taken es s s'
  end.
Proof.
  induction es as [|x es IH]; intros s Hl H0.
  { simpl. split; simpl; try done; [lia|by rewrite andb_true_r|]. intros i Hi. by rewrite (proj2 (Z.ltb_lt _ _)) by lia. }
  destruct x as [id v fl rest|no rest|t rest]; cbn [take_entries take_entry processors last_ioapic].
  - destruct (Z.lt_ge_cases (ncpu s) NCPU) as [Hn|Hn].
    + destruct (mp_proc_ok id fl s Hl H0 Hn) as (s1 & -> & L1 & N1 & B1 & I1 & M1 & P1 & O1 & C1). cbn [mbind option_bind].
      specialize (IH s1 L1 ltac:(lia)). destruct (take_entries es s1) as [s2|]; [|simpl length; lia].
      destruct IH as [T1 T2 T3 T4 T5 T6 T7 T8]. split; simpl length; rewrite ?T1, ?T3, ?T4, ?T5, ?T6, ?T7, ?N1, ?B1, ?I1, ?M1, ?P1, ?O1; try done.
      * lia.
      * intros _. rewrite <- N1, <- T1. apply T2. lia.
      * rewrite <- andb_assoc. f_equal. rewrite (seqZ_cons (ncpu s)) by lia.
        destruct (Z.eqb_spec (ncpu s) id) as [<-|Hne]; simpl.
        -- apply bool_decide_ext. rewrite Z.add_1_r. replace (Z.pred (Z.of_nat (S (length (processors es))))) with (Z.of_nat (length (processors es))) by lia.
           split; [intros E; f_equal; exact E|intros E; injection E; done].
        -- rewrite bool_decide_false; [done|]. injection 1 as E _. by rewrite E in Hne.
      * intros i Hi. rewrite T8 by lia. rewrite N1. destruct (Z.ltb_spec i (ncpu s + 1)).
        -- by rewrite C1 by lia.
        -- by rewrite (proj2 (Z.ltb_ge _ _)) by lia.
    + unfold mp_proc. set (s2 := if bset fl MPBOOT then _ else _).
      assert (E : ncpu s2 = ncpu s) by (unfold s2; destruct (bset fl MPBOOT), (ncpu s =? id); done).
      rewrite E, (proj2 (Z.ltb_ge _ _)) by done. simpl length. simpl. lia.
  - specialize (IH (set_ioapicid no s) Hl H0). cbn [mbind option_bind].
    destruct (take_entries es _) as [s2|]; [|done]. by destruct IH as [T1 T2 T3 T4 T5 T6 T7 T8]; split.
  - specialize (IH s Hl H0). cbn [mbind option_bind]. destruct (take_entries es s) as [s2|]; [|done].
    by destruct IH as [T1 T2 T3 T4 T5 T6 T7 T8]; split.
Qed.

(** ** mpinit *)

(** The table at [conf] has the entries [es], and [tail] after them. *)
Record table (m : memory) (conf : Z) (es : list entry) (tail : list Z) : Prop := mktable {
  tb_ok : Forall entry_ok es;
  tb_bytes : loaded m (conf + MPCONF_SIZE) (concat (encode <$> es) ++ tail);
  tb_length : conf_length m conf = MPCONF_SIZE + Z.of_nat (length (concat (encode <$> es) ++ tail))
}.

(** What [mpinit] leaves for the processors [ps] in the order of the table: the
    machine of the table when they are numbered from 0, else one processor. *)
Definition mp_result (m : memory) (mp conf inb23 : Z) (es : list entry) (s : mpst) : Prop :=
  let ps := processors es in
  if bool_decide (ps.*1 = seqZ 0 (Z.of_nat (length ps))) then
    ismp s = true /\ ncpu s = Z.of_nat (length ps) /\ mpbcpu s = boot_cpu ps 0 0 /\
    ioapicid s = last_ioapic es 0 /\ lapic s = conf_lapicaddr m conf /\
    (forall i, 0 <= i < ncpu s -> cpu_ids s !! Z.to_nat i = Some i) /\
    mp_ports s = (if mp_imcrp m mp =? 0 then [] else [(0x22, 0x70); (0x23, Z.lor inb23 1)])
  else ismp s = false /\ ncpu s = 1 /\ lapic s = 0 /\ ioapicid s = 0 /\ mp_ports s = [].

Definition mp_ready (m : memory) (conf : Z) : mpst := set_lapic (conf_lapicaddr m conf) (set_ismp true (set_bcpu 0 mpst0)).

Lemma table_loop m conf es tail fuel s :
  table m conf es tail ->
  mpinit_loop (length es + fuel) m (conf + MPCONF_SIZE) (conf + conf_length m conf) s =
  match take_entries es s with
  | None => Overrun
  | Some s => mpinit_loop fuel m (conf + conf_length m conf - Z.of_nat (length tail)) (conf + conf_length m conf) s
  end.
Proof.
  intros [Hok Hb Hl]. rewrite length_app in Hl. apply loaded_app in Hb as [Hb _].
  rewrite mpinit_loop_entries by (done || lia). destruct (take_entries es s); [|done]. f_equal. lia.
Qed.

(** C29: [mpinit] reads the processor table.  For a table of the firmware that
    [mpconfig] accepts, with at most [NCPU] processors and only entries of the five
    known types, [mpinit] ends, and knows exactly the processors of the table, the
    boot processor, the I/O APIC and the local APIC address; when the
    processors are not numbered from 0 on in the order of the table it falls back to a
    single processor without APICs. *)
Theorem mpinit_table m mp conf es fuel inb23 :
  mpconfig m = Some (mp, conf) -> table m conf es [] -> Z.of_nat (length (processors es)) <= NCPU -> (length es <= fuel)%nat ->
  exists s, mpinit fuel m inb23 mpst0 = Init s /\ mp_result m mp conf inb23 es s.
Proof.
  intros Hc T Hn Hf. unfold mpinit. rewrite Hc. fold (mp_ready m conf).
  replace fuel with (length es + (fuel - length es))%nat by lia. rewrite (table_loop m conf es []) by done.
  pose proof (take_entries_ok es (mp_ready m conf) eq_refl ltac:(simpl; lia)) as H.
  destruct (take_entries es (mp_ready m conf)) as [s|]; [|simpl in H; lia].
  destruct H as [T1 T2 T3 T4 T5 T6 T7 T8]. simpl in *.
  assert (E : forall k e, mpinit_loop k m (e - 0) e s = Init s).
  { intros k e. destruct k; simpl; by rewrite (proj2 (Z.ltb_ge _ _)) by lia. }
  rewrite E. unfold mp_result, mpbcpu. destruct (bool_decide _); rewrite T5; simpl.
  - destruct (mp_imcrp m mp =? 0); simpl; eexists; (split; [reflexivity|]); simpl; rewrite ?T1, ?T3, ?T4, ?T5, ?T6, ?T7; split_and!; try done.
    all: intros i Hi; rewrite T8, (proj2 (Z.ltb_ge _ _)) by lia; done.
  - eexists. split; [reflexivity|]. simpl. by rewrite T7, T5.
Qed.

(** A smaller bound does not help. *)
Lemma spins_less k : forall k' m p e s, (k <= k')%nat -> mpinit_loop k' m p e s = Spins -> mpinit_loop k m p e s = Spins.
Proof.
  induction k as [|k IH]; intros [|k'] m p e s Hk H; try lia; try done; simpl in *; destruct (p <? e); simpl in *; try done.
  repeat case_match; try done; (eapply IH; [|eassumption]); lia.
Qed.

Lemma unknown_spins k : forall m p e s, p < e -> MPLINTR < m p -> mpinit_loop k m p e s = Spins.
Proof.
  induction k as [|k IH]; intros m p e s Hp Ht; simpl; rewrite (proj2 (Z.ltb_lt _ _)) by done; [done|]. cbn [negb].
  unfold MPLINTR, MPPROC, MPIOAPIC, MPBUS, MPIOINTR in *. rewrite !(proj2 (Z.eqb_neq (m p) _)) by lia. by apply IH.
Qed.

(** C40: a table that [mpinit] does not expect.  When the table has an entry of an
    unknown type, [mpinit] does not step over it: its loop sees the same byte again and
    never ends.  And with more processors than [NCPU] it writes past the end of
    the array [cpus]. *)
Theorem mpinit_unexpected m mp conf es tail inb23 :
  mpconfig m = Some (mp, conf) -> table m conf es tail ->
  (NCPU < Z.of_nat (length (processors es)) -> forall fuel, mpinit (length es + fuel) m inb23 mpst0 = Overrun) /\
  (Z.of_nat (length (processors es)) <= NCPU ->
    match tail with [] => False | t :: _ => MPLINTR < t end -> forall fuel, mpinit fuel m inb23 mpst0 = Spins).
Proof.
  intros Hc T. unfold mpinit. rewrite Hc. fold (mp_ready m conf).
  pose proof (take_entries_ok es (mp_ready m conf) eq_refl ltac:(simpl; lia)) as H. split.
  - intros Hn fuel. rewrite (table_loop m conf es tail) by done. destruct (take_entries es _) as [s|]; [|done].
    pose proof (tk_max _ _ _ H) as Hm. pose proof (tk_ncpu _ _ _ H) as E. simpl in Hm, E. unfold NCPU in *. lia.
  - intros Hn Ht fuel. rewrite (spins_less fuel (length es + fuel)); [done|lia|]. rewrite (table_loop m conf es tail) by done.
    destruct (take_entries es _) as [s|]; [|simpl in H; lia]. destruct tail as [|t tail]; [done|].
    destruct T as [_ Hb Hl]. apply loaded_app in Hb as [_ Hb]. apply loaded_cons in Hb as [Hb _]. rewrite length_app in Hl.
    apply unknown_spins; [simpl length; lia|]. rewrite <- Hb in Ht.
    match goal with |- _ < m ?p => replace p with (conf + MPCONF_SIZE + Z.of_nat (length (concat (encode <$> es)))) by lia end. done.
Qed.

(** A machine with two processors and an I/O APIC: the pointer structure in the last
    kilobyte of base memory, the table after it, with the bytes [ck] and [tail]. *)
Definition demo_entries : list entry :=
  [EProc 0 20 3 (replicate 16 0); EProc 1 20 1 (replicate 16 0); EOther MPBUS (replicate 7 0); EIoapic 2 (replicate 6 0)].

Definition demo_table (ck : Z) (tail : list Z) : list Z :=
  let body := concat (encode <$> demo_entries) ++ tail in
  SIG_PCMP ++ [44 + Z.of_nat (length body); 0; 4; ck] ++ replicate 28 0 ++ [0; 0; 0xE0; 0xFE] ++ replicate 4 0 ++ body.

Definition demo_mp : list Z := SIG_MP ++ [0x10; 0xFC; 0x9; 0; 1; 4; 0x8B; 0; 0; 0; 0; 0].

Definition demo_bios (ck : Z) (tail : list Z) : memory :=
  fun a =>
    if a =? p2v 0x413 then 128 else if a =? p2v 0x414 then 2
    else if (p2v 0x9FC00 <=? a) && (a <? p2v 0xA0000) then default 0 ((demo_mp ++ demo_table ck tail) !! Z.to_nat (a - p2v 0x9FC00))
    else 0.

Lemma loaded_bytes m a l : bytes_at m a (length l) = l -> loaded m a l.
Proof.
  intros E i c Hi. rewrite <- E in Hi. unfold bytes_at in Hi. rewrite list_lookup_fmap in Hi.
  destruct (seq 0 (length l) !! i) as [j|] eqn:Hj; [|done]. injection Hi as <-. apply lookup_seq in Hj as [-> _]. done.
Qed.

Lemma mpinit_table_witness :
  exists s, mpinit 4 (demo_bios 88 []) 0 mpst0 = Init s /\ ncpu s = 2 /\ mpbcpu s = 0 /\ ioapicid s = 2 /\ lapic s = 0xFEE00000.
Proof.
  destruct (mpinit_table (demo_bios 88 []) (p2v 0x9FC00) (p2v 0x9FC10) demo_entries 4 0) as (s & E & H).
  - by vm_compute.
  - split; [repeat constructor; by vm_compute|apply loaded_bytes; by vm_compute|by vm_compute].
  - done.
  - simpl; lia.
  - exists s. split; [exact E|]. unfold mp_result in H. rewrite bool_decide_true in H by (by vm_compute).
    destruct H as (_ & H1 & H2 & H3 & H4 & _). rewrite H1, H2, H3, H4. split_and!; by vm_compute.
Defined.

Lemma mpinit_unexpected_witness : mpinit 1000 (demo_bios 78 [9]) 0 mpst0 = Spins.
Proof.
  destruct (mpinit_unexpected (demo_bios 78 [9]) (p2v 0x9FC00) (p2v 0x9FC10) demo_entries [9] 0) as [_ H].
  - by vm_compute.
  - split; [repeat constructor; by vm_compute|apply loaded_bytes; by vm_compute|by vm_compute].
  - by apply H.
Defined.
