(* ===== verification/Devices.v ===== *)
(** * Device drivers

    The routines that program the hardware of the machine: the interrupt controllers
    ([picirq.c], [ioapic.c], [lapic.c]), the timer ([timer.c]), the serial port
    ([uartinit], [uartputc] of [uart.c]) and the disk ([ideinit] of [ide.c]).  They
    run on any machine [Device]: a state with I/O ports and device registers. *)

From stdpp Require Import base list numbers strings tactics.
From Stdlib Require Import Lia.
From S2P Require Import Prelude Params StringC KState Mp.

Local Open Scope Z_scope.
Local Open Scope xv6_scope.

(** ** The machine *)

(** [outb], [inb] and [insl] of [x86.h], the last one as the bytes it reads, and loads
    and stores of 32-bit device registers. *)
Class Device := mkDevice {
  dev : Type;
  dev_out : Z -> Z -> dev -> dev;
  dev_in : Z -> dev -> Z * dev;
  dev_ins : Z -> Z -> dev -> list Z * dev;
  dev_store : Z -> Z -> dev -> dev;
  dev_load : Z -> dev -> Z * dev
}.

(** The variables of the drivers; [wrv] is the warm reset vector in low memory. *)
Record drivers `{Device} := mkdrivers {
  hw : dev;
  irqmask : Z;
  has_uart : bool;
  havedisk1 : bool;
  wrv : Z * Z;
  mpi : mpst;
  inited : list string;
  printed : list (string * list Z)
}.

Section Drivers.
Context `{D : Device}.

Definition set_hw (d : dev) (s : drivers) : drivers :=
  mkdrivers _ d (irqmask s) (has_uart s) (havedisk1 s) (wrv s) (mpi s) (inited s) (printed s).
Definition set_irqmask (m : Z) (s : drivers) : drivers :=
  mkdrivers _ (hw s) m (has_uart s) (havedisk1 s) (wrv s) (mpi s) (inited s) (printed s).
Definition set_has_uart (b : bool) (s : drivers) : drivers :=
  mkdrivers _ (hw s) (irqmask s) b (havedisk1 s) (wrv s) (mpi s) (inited s) (printed s).
Definition set_havedisk1 (b : bool) (s : drivers) : drivers :=
  mkdrivers _ (hw s) (irqmask s) (has_uart s) b (wrv s) (mpi s) (inited s) (printed s).
Definition set_wrv (w : Z * Z) (s : drivers) : drivers :=
  mkdrivers _ (hw s) (irqmask s) (has_uart s) (havedisk1 s) w (mpi s) (inited s) (printed s).
Definition set_mpi (m : mpst) (s : drivers) : drivers :=
  mkdrivers _ (hw s) (irqmask s) (has_uart s) (havedisk1 s) (wrv s) m (inited s) (printed s).

Definition outb (port v : Z) : M drivers unit := modify (fun s => set_hw (dev_out port (u8 v) (hw s)) s).
Definition inb (port : Z) : M drivers Z := fun s => let '(v, d) := dev_in port (hw s) in Ret v (set_hw d s).
Definition store (a v : Z) : M drivers unit := modify (fun s => set_hw (dev_store a (u32 v) (hw s)) s).
Definition load (a : Z) : M drivers Z := fun s => let '(v, d) := dev_load a (hw s) in Ret v (set_hw d s).

Definition dev_initlock (name : string) : M drivers unit :=
  modify (fun s => mkdrivers _ (hw s) (irqmask s) (has_uart s) (havedisk1 s) (wrv s) (mpi s) (inited s ++ [name]) (printed s)).
Definition dev_print (f : string) (args : list Z) : M drivers unit :=
  modify (fun s => mkdrivers _ (hw s) (irqmask s) (has_uart s) (havedisk1 s) (wrv s) (mpi s) (inited s) (printed s ++ [(f, args)])).

(** ** picirq.c *)

Definition IO_PIC1 : Z := 0x20.
Definition IO_PIC2 : Z := 0xA0.
Definition IRQ_SLAVE : Z := 2.
Definition irqmask0 : Z := Z.land 0xFFFF (Z.lnot (Z.shiftl 1 IRQ_SLAVE)).

Definition picsetmask (mask : Z) : M drivers unit :=
  modify (set_irqmask mask) ;;;
  outb (IO_PIC1 + 1) mask ;;;
  outb (IO_PIC2 + 1) (Z.shiftr mask 8).

Definition picenable (irq : Z) : M drivers unit :=
  m <- gets irqmask ;;
  picsetmask (u16 (Z.land m (Z.lnot (Z.shiftl 1 irq)))).

Definition picinit : M drivers unit :=
  outb (IO_PIC1 + 1) 0xFF ;;;
  outb (IO_PIC2 + 1) 0xFF ;;;
  outb IO_PIC1 0x11 ;;;
  outb (IO_PIC1 + 1) T_IRQ0 ;;;
  outb (IO_PIC1 + 1) (Z.shiftl 1 IRQ_SLAVE) ;;;
  outb (IO_PIC1 + 1) 0x3 ;;;
  outb IO_PIC2 0x11 ;;;
  outb (IO_PIC2 + 1) (T_IRQ0 + 8) ;;;
  outb (IO_PIC2 + 1) IRQ_SLAVE ;;;
  outb (IO_PIC2 + 1) 0x3 ;;;
  outb IO_PIC1 0x68 ;;;
  outb IO_PIC1 0x0a ;;;
  outb IO_PIC2 0x68 ;;;
  outb IO_PIC2 0x0a ;;;
  m <- gets irqmask ;;
  when (negb (m =? 0xFFFF)) (picsetmask m).

(** ** ioapic.c *)

Definition IOAPIC : Z := 0xFEC00000.
Definition REG_ID : Z := 0.
Definition REG_VER : Z := 1.
Definition REG_TABLE : Z := 0x10.
Definition INT_DISABLED : Z := 0x10000.

(** [struct ioapic]: [reg] is its first word, [data] its fifth. *)
Definition ioapicread (reg : Z) : M drivers Z := store IOAPIC reg ;;; load (IOAPIC + 16).
Definition ioapicwrite (reg data : Z) : M drivers unit := store IOAPIC reg ;;; store (IOAPIC + 16) data.

Fixpoint ioapicinit_loop (k : nat) (i : Z) : M drivers unit :=
  match k with
  | O => ret tt
  | S k =>
      ioapicwrite (REG_TABLE + 2 * i) (Z.lor INT_DISABLED (T_IRQ0 + i)) ;;;
      ioapicwrite (REG_TABLE + 2 * i + 1) 0 ;;;
      ioapicinit_loop k (i + 1)
  end.

Definition ioapicinit : M drivers unit :=
  mp <- gets (fun s => ismp (mpi s)) ;;
  if negb mp then ret tt else
  ver <- ioapicread REG_VER ;;
  let maxintr := Z.land (Z.shiftr ver 16) 0xFF in
  r <- ioapicread REG_ID ;;
  let id := Z.shiftr r 24 in
  want <- gets (fun s => ioapicid (mpi s)) ;;
  when (negb (id =? want)) (dev_print "ioapicinit: id isn't equal to ioapicid; not a MP" []) ;;;
  ioapicinit_loop (Z.to_nat (maxintr + 1)) 0.

Definition ioapicenable (irq cpunum : Z) : M drivers unit :=
  mp <- gets (fun s => ismp (mpi s)) ;;
  if negb mp then ret tt else
  ioapicwrite (REG_TABLE + 2 * irq) (T_IRQ0 + irq) ;;;
  ioapicwrite (REG_TABLE + 2 * irq + 1) (Z.shiftl cpunum 24).

(** ** timer.c *)

Definition IO_TIMER1 : Z := 0x40.
Definition TIMER_FREQ : Z := 1193182.
Definition TIMER_DIV (x : Z) : Z := (TIMER_FREQ + x / 2) / x.

Definition timerinit : M drivers unit :=
  outb (IO_TIMER1 + 3) (Z.lor (Z.lor 0x00 0x04) 0x30) ;;;
  outb IO_TIMER1 (TIMER_DIV 100 mod 256) ;;;
  outb IO_TIMER1 (TIMER_DIV 100 / 256) ;;;
  picenable IRQ_TIMER.

(** ** lapic.c *)

(** Registers of the local APIC, as indices of 32-bit words. *)
Definition L_ID : Z := 0x20 / 4.
Definition L_VER : Z := 0x30 / 4.
Definition L_TPR : Z := 0x80 / 4.
Definition L_EOI : Z := 0xB0 / 4.
Definition L_SVR : Z := 0xF0 / 4.
Definition L_ESR : Z := 0x280 / 4.
Definition L_ICRLO : Z := 0x300 / 4.
Definition L_ICRHI : Z := 0x310 / 4.
Definition L_TIMER : Z := 0x320 / 4.
Definition L_PCINT : Z := 0x340 / 4.
Definition L_LINT0 : Z := 0x350 / 4.
Definition L_LINT1 : Z := 0x360 / 4.
Definition L_ERROR : Z := 0x370 / 4.
Definition L_TICR : Z := 0x380 / 4.
Definition L_TDCR : Z := 0x3E0 / 4.

Definition ENABLE : Z := 0x100.
Definition INIT : Z := 0x500.
Definition STARTUP : Z := 0x600.
Definition DELIVS : Z := 0x1000.
Definition ASSERT : Z := 0x4000.
Definition LEVEL : Z := 0x8000.
Definition BCAST : Z := 0x80000.
Definition X1 : Z := 0xB.
Definition PERIODIC : Z := 0x20000.
Definition MASKED : Z := 0x10000.

Definition lapic_at (index : Z) : M drivers Z :=
  base <- gets (fun s => lapic (mpi s)) ;;
  load (base + 4 * index).

Definition lapicw (index value : Z) : M drivers unit :=
  base <- gets (fun s => lapic (mpi s)) ;;
  store (base + 4 * index) value ;;;
  _ <- lapic_at L_ID ;;
  ret tt.

(** [while(lapic[ICRLO] & DELIVS);] *)
Fixpoint lapic_sent (fuel : nat) : M drivers unit :=
  match fuel with
  | O => outoffuel
  | S fuel =>
      v <- lapic_at L_ICRLO ;;
      if bset v DELIVS then lapic_sent fuel else ret tt
  end.

Definition lapicinit (fuel : nat) : M drivers unit :=
  base <- gets (fun s => lapic (mpi s)) ;;
  if base =? 0 then ret tt else
  lapicw L_SVR (Z.lor ENABLE (T_IRQ0 + IRQ_SPURIOUS)) ;;;
  lapicw L_TDCR X1 ;;;
  lapicw L_TIMER (Z.lor PERIODIC (T_IRQ0 + IRQ_TIMER)) ;;;
  lapicw L_TICR 10000000 ;;;
  lapicw L_LINT0 MASKED ;;;
  lapicw L_LINT1 MASKED ;;;
  ver <- lapic_at L_VER ;;
  when (4 <=? Z.land (Z.shiftr ver 16) 0xFF) (lapicw L_PCINT MASKED) ;;;
  lapicw L_ERROR (T_IRQ0 + IRQ_ERROR) ;;;
  lapicw L_ESR 0 ;;;
  lapicw L_ESR 0 ;;;
  lapicw L_EOI 0 ;;;
  lapicw L_ICRHI 0 ;;;
  lapicw L_ICRLO (Z.lor (Z.lor BCAST INIT) LEVEL) ;;;
  lapic_sent fuel ;;;
  lapicw L_TPR 0.

(** [cpunum] with the flags of the processor, of which [FL_IF] is 0x200, the address of its caller and its variable [n],
    whose new value is part of the result. *)
Definition cpunum (eflags caller n : Z) : M drivers (Z * Z) :=
  n <- (if negb (Z.land eflags 0x200 =? 0) then
          when (n =? 0) (dev_print "cpu called from %x with interrupts enabled" [caller]) ;;;
          ret (s32 (n + 1))
        else ret n) ;;
  base <- gets (fun s => lapic (mpi s)) ;;
  if negb (base =? 0) then id <- lapic_at L_ID ;; ret (Z.shiftr (u32 id) 24, n)
  else ret (0, n).

Definition lapiceoi : M drivers unit :=
  base <- gets (fun s => lapic (mpi s)) ;;
  when (negb (base =? 0)) (lapicw L_EOI 0).

Definition IO_RTC : Z := 0x70.

Definition microdelay (us : Z) : M drivers unit := ret tt.

(** [wrv] is two [ushort]s; the shifts of [apicid] and [addr] are of 32-bit words. *)
Definition lapicstartap (apicid addr : Z) : M drivers unit :=
  outb IO_RTC 0xF ;;;
  outb (IO_RTC + 1) 0x0A ;;;
  modify (set_wrv (0, u16 (Z.shiftr addr 4))) ;;;
  lapicw L_ICRHI (Z.shiftl apicid 24) ;;;
  lapicw L_ICRLO (Z.lor (Z.lor INIT LEVEL) ASSERT) ;;;
  microdelay 200 ;;;
  lapicw L_ICRLO (Z.lor INIT LEVEL) ;;;
  microdelay 100 ;;;
  lapicw L_ICRHI (Z.shiftl apicid 24) ;;;
  lapicw L_ICRLO (Z.lor STARTUP (Z.shiftr addr 12)) ;;;
  microdelay 200 ;;;
  lapicw L_ICRHI (Z.shiftl apicid 24) ;;;
  lapicw L_ICRLO (Z.lor STARTUP (Z.shiftr addr 12)) ;;;
  microdelay 200.

(** ** uart.c *)

Definition COM1 : Z := 0x3f8.

(** [for(i = 0; i < 128 && !(inb(COM1+5) & 0x20); i++)] *)
Fixpoint uart_ready (k : nat) : M drivers unit :=
  match k with
  | O => ret tt
  | S k =>
      v <- inb (COM1 + 5) ;;
      if bset v 0x20 then ret tt else uart_ready k
  end.

Definition uart_putc (c : Z) : M drivers unit :=
  u <- gets has_uart ;;
  if negb u then ret tt else
  uart_ready 128 ;;;
  outb COM1 c.

Fixpoint uart_puts (l : list Z) : M drivers unit :=
  match l with
  | [] => ret tt
  | c :: l => uart_putc c ;;; uart_puts l
  end.

Definition uartinit : M drivers unit :=
  outb (COM1 + 2) 0 ;;;
  outb (COM1 + 3) 0x80 ;;;
  outb (COM1 + 0) (115200 / 9600) ;;;
  outb (COM1 + 1) 0 ;;;
  outb (COM1 + 3) 0x03 ;;;
  outb (COM1 + 4) 0 ;;;
  outb (COM1 + 1) 0x01 ;;;
  st <- inb (COM1 + 5) ;;
  if st =? 0xFF then ret tt else
  modify (set_has_uart true) ;;;
  _ <- inb (COM1 + 2) ;;
  _ <- inb (COM1 + 0) ;;
  picenable IRQ_COM1 ;;;
  ioapicenable IRQ_COM1 0 ;;;
  uart_puts [120; 118; 54; 46; 46; 46; 10].

(** ** ide.c *)

Definition IDE_BSY : Z := 0x80.
Definition IDE_DRDY : Z := 0x40.
Definition IDE_DF : Z := 0x20.
Definition IDE_ERR : Z := 0x01.

Fixpoint idewait (fuel : nat) (checkerr : bool) : M drivers Z :=
  match fuel with
  | O => outoffuel
  | S fuel =>
      r <- inb 0x1f7 ;;
      if negb (Z.land r (Z.lor IDE_BSY IDE_DRDY) =? IDE_DRDY) then idewait fuel checkerr else
      ret (if checkerr && bset r (Z.lor IDE_DF IDE_ERR) then -1 else 0)
  end.

(** Check if disk 1 is present. *)
Fixpoint ide_probe (k : nat) : M drivers unit :=
  match k with
  | O => ret tt
  | S k =>
      v <- inb 0x1f7 ;;
      if negb (v =? 0) then modify (set_havedisk1 true) else ide_probe k
  end.

Definition ideinit (fuel : nat) : M drivers unit :=
  dev_initlock "ide" ;;;
  picenable IRQ_IDE ;;;
  n <- gets (fun s => ncpu (mpi s)) ;;
  ioapicenable IRQ_IDE (n - 1) ;;;
  _ <- idewait fuel false ;;
  outb 0x1f6 (Z.lor 0xe0 (Z.shiftl 1 4)) ;;;
  ide_probe 1000 ;;;
  outb 0x1f6 (Z.lor 0xe0 (Z.shiftl 0 4)).
End Drivers.
