(* ===== verification/DevicesThm.v ===== *)
(** * What the drivers tell the hardware

    The drivers of [Devices] against the documented behaviour of the chips they
    program: the 8259A interrupt controllers, the I/O APIC and the local APIC.  The
    behaviour of each chip is a class of laws about the machine; [Pc] is a machine that
    satisfies all of them. *)

From stdpp Require Import base list numbers strings tactics functions gmap.
From Stdlib Require Import Lia.
From S2P Require Import Prelude Params StringC KState Mp Devices.

Local Open Scope Z_scope.
Local Open Scope xv6_scope.

(** ** Steps of drivers *)

(** What a write to the hardware leaves as it is. *)
Definition same_vars `{Device} (s s' : drivers) : Prop :=
  irqmask s' = irqmask s /\ mpi s' = mpi s /\ has_uart s' = has_uart s /\ wrv s' = wrv s.

Section Steps.
Context `{D : Device}.

Lemma outb_step port v s : exists s', outb port v s = Ret tt s' /\ hw s' = dev_out port (u8 v) (hw s) /\ same_vars s s'.
Proof. by eexists. Qed.

Lemma store_step a v s : exists s', store a v s = Ret tt s' /\ hw s' = dev_store a (u32 v) (hw s) /\ same_vars s s'.
Proof. by eexists. Qed.

Lemma load_step a s : exists s', load a s = Ret (dev_load a (hw s)).1 s' /\ hw s' = (dev_load a (hw s)).2 /\ same_vars s s'.
Proof. unfold load. destruct (dev_load a (hw s)) as [v d]. by eexists. Qed.

Lemma same_vars_trans s1 s2 s3 : same_vars s1 s2 -> same_vars s2 s3 -> same_vars s1 s3.
Proof. unfold same_vars. intuition congruence. Qed.
End Steps.

(** Run the next step [H]: a lemma of the form above. *)
Ltac dstep H :=
  let s' := fresh "s" in let E := fresh "E" in let Eh := fresh "Eh" in let V := fresh "V" in
  destruct H as (s' & E & Eh & V); first [rstep E | rewrite E]; clear E.

(** ** 8259A *)

(** A controller: how many initialisation words are still to come (0 when it is
    ready), its vector offset, the line or lines to the other controller, its mode,
    and the mask. *)
Record chip := mkchip { c_wait : nat; c_offset : Z; c_link : Z; c_mode : Z; c_mask : Z }.

(** A byte for the command port: ICW1 (bit 4) starts the initialisation with three more
    words and clears the mask; the other commands leave all this as it is. *)
Definition chip_cmd (v : Z) (c : chip) : chip :=
  if Z.testbit v 4 then mkchip 3 (c_offset c) (c_link c) (c_mode c) 0 else c.

(** A byte for the data port: ICW2, ICW3, ICW4 during the initialisation, else the mask. *)
Definition chip_data (v : Z) (c : chip) : chip :=
  match c_wait c with
  | 3%nat => mkchip 2 v (c_link c) (c_mode c) (c_mask c)
  | 2%nat => mkchip 1 (c_offset c) v (c_mode c) (c_mask c)
  | 1%nat => mkchip 0 (c_offset c) (c_link c) v (c_mask c)
  | _ => mkchip (c_wait c) (c_offset c) (c_link c) (c_mode c) v
  end.

Definition pic_out (port v : Z) (cs : chip * chip) : chip * chip :=
  if port =? IO_PIC1 then (chip_cmd v cs.1, cs.2)
  else if port =? IO_PIC1 + 1 then (chip_data v cs.1, cs.2)
  else if port =? IO_PIC2 then (cs.1, chip_cmd v cs.2)
  else if port =? IO_PIC2 + 1 then (cs.1, chip_data v cs.2)
  else cs.

Class PicLaws `{Device} := mkPicLaws {
  pics : dev -> chip * chip;
  pics_out : forall port v d, pics (dev_out port v d) = pic_out port v (pics d)
}.

(** The controllers when the mask is [m]. *)
Definition pics_ready (m : Z) : chip * chip :=
  (mkchip 0 T_IRQ0 (Z.shiftl 1 IRQ_SLAVE) 3 (u8 m), mkchip 0 (T_IRQ0 + 8) IRQ_SLAVE 3 (u8 (Z.shiftr m 8))).

Fixpoint picenables `{Device} (irqs : list Z) : M drivers unit :=
  match irqs with
  | [] => ret tt
  | irq :: irqs => picenable irq ;;; picenables irqs
  end.

Section Pic.
Context `{D : Device} {PL : PicLaws}.

Lemma picsetmask_ok m s :
  exists s', picsetmask m s = Ret tt s' /\ irqmask s' = m /\ pics (hw s') = pic_out 0xA1 (u8 (Z.shiftr m 8)) (pic_out 0x21 (u8 m) (pics (hw s))).
Proof. eexists. split; [reflexivity|]. split; [reflexivity|]. simpl. by rewrite !pics_out. Qed.

(** The writes of [picinit], whatever state the controllers are in. *)
Definition pic_writes (l : list (Z * Z)) (cs : chip * chip) : chip * chip := foldl (fun cs w => pic_out w.1 w.2 cs) cs l.

Lemma pic_writes_init cs :
  pic_writes [(0x21, 0xFF); (0xA1, 0xFF); (0x20, 0x11); (0x21, 32); (0x21, 4); (0x21, 3); (0xA0, 0x11); (0xA1, 40); (0xA1, 2); (0xA1, 3);
    (0x20, 0x68); (0x20, 0x0a); (0xA0, 0x68); (0xA0, 0x0a); (0x21, 0xFB); (0xA1, 0xFF)] cs = pics_ready irqmask0.
Proof. destruct cs as [[w1 o1 l1 d1 m1] [w2 o2 l2 d2 m2]]. by destruct w1 as [|[|[|[|?]]]], w2 as [|[|[|[|?]]]]. Qed.

Lemma out_then {A} (P : res drivers A -> Prop) p v k s :
  (forall s', irqmask s' = irqmask s -> pics (hw s') = pic_out p (u8 v) (pics (hw s)) -> P (k tt s')) -> P (bind (outb p v) k s).
Proof. intros H. destruct (outb_step p v s) as (s' & E & Eh & V). rstep E. apply H; [apply V|]. by rewrite Eh, pics_out. Qed.

Lemma picinit_ok s :
  irqmask s = irqmask0 -> exists s', picinit s = Ret tt s' /\ irqmask s' = irqmask0 /\ pics (hw s') = pics_ready irqmask0.
Proof.
  intros Hm. rewrite <- (pic_writes_init (pics (hw s))). unfold picinit, pic_writes. cbn [foldl fst snd].
  do 14 (apply out_then; intros ? ? ?). rewrite bind_gets.
  match goal with |- exists s', when _ _ ?z = _ /\ _ => assert (Em : irqmask z = irqmask0) by congruence; rewrite Em;
    destruct (picsetmask_ok irqmask0 z) as (sf & E & M1 & P1) end.
  exists sf. split; [exact E|]. split; [exact M1|]. rewrite P1.
  repeat match goal with H : pics (hw ?x) = _ |- context [pics (hw ?x)] => rewrite H end. reflexivity.
Qed.

Lemma testbit_enable m irq i :
  0 <= i < 16 -> 0 <= irq < 16 -> Z.testbit (u16 (Z.land m (Z.lnot (Z.shiftl 1 irq)))) i = Z.testbit m i && negb (i =? irq).
Proof.
  intros Hi Hq. unfold u16. rewrite Z.mod_pow2_bits_low by lia. rewrite Z.land_spec, Z.lnot_spec by lia. f_equal. f_equal.
  rewrite Z.shiftl_spec by lia. destruct (Z.eqb_spec i irq) as [->|Hne]; [by rewrite Z.sub_diag|].
  destruct (Z.lt_ge_cases i irq); [by rewrite Z.testbit_neg_r by lia|]. apply Z.bits_above_log2; [lia|]. change (Z.log2 1) with 0. lia.
Qed.

Lemma picenables_ok irqs : forall s,
  pics (hw s) = pics_ready (irqmask s) -> Forall (fun q => 0 <= q < 16) irqs ->
  exists s', picenables irqs s = Ret tt s' /\ pics (hw s') = pics_ready (irqmask s') /\
    forall i, 0 <= i < 16 -> Z.testbit (irqmask s') i = Z.testbit (irqmask s) i && negb (bool_decide (i ∈ irqs)).
Proof.
  induction irqs as [|q irqs IH]; intros s Hs Hq.
  { exists s. split_and!; try done. intros i Hi. rewrite bool_decide_false by set_solver. by rewrite andb_true_r. }
  apply list.Forall_cons in Hq as [Hq Hqs]. simpl. unfold picenable. erewrite bind_bind by reflexivity.
  set (m := u16 _). destruct (picsetmask_ok m s) as (s1 & E1 & M1 & P1). rstep E1.
  destruct (IH s1) as (s2 & E2 & P2 & B2); [rewrite P1, M1, Hs; done|done|]. exists s2. split; [done|]. split; [done|].
  intros i Hi. rewrite B2, M1 by done. unfold m. rewrite testbit_enable, <- andb_assoc by done. f_equal.
  destruct (Z.eqb_spec i q) as [->|Hne]; simpl.
  - by rewrite bool_decide_true by set_solver.
  - f_equal. apply bool_decide_ext. set_solver.
Qed.
End Pic.

(** ** I/O APIC *)

(** A register is selected by a write to the first word and then read or written
    through the data word.  [io_reg] are the registers; nothing is said of writes to the
    registers before the table. *)
Class IoApicLaws `{Device} := mkIoApicLaws {
  io_sel : dev -> Z;
  io_reg : dev -> Z -> Z;
  io_select : forall r d, io_sel (dev_store IOAPIC r d) = r /\ io_reg (dev_store IOAPIC r d) = io_reg d;
  io_write : forall v d, REG_TABLE <= io_sel d -> io_reg (dev_store (IOAPIC + 16) v d) = <[io_sel d := v]> (io_reg d);
  io_read : forall d, (dev_load (IOAPIC + 16) d).1 = io_reg d (io_sel d) /\ io_reg (dev_load (IOAPIC + 16) d).2 = io_reg d
}.

Fixpoint ioapicenables `{Device} (l : list (Z * Z)) : M drivers unit :=
  match l with
  | [] => ret tt
  | (irq, cpu) :: l => ioapicenable irq cpu ;;; ioapicenables l
  end.

(** The processor an interrupt goes to after the calls [l]; [c] before them. *)
Fixpoint routed (i : Z) (l : list (Z * Z)) (c : option Z) : option Z :=
  match l with
  | [] => c
  | (irq, cpu) :: l => routed i l (if i =? irq then Some cpu else c)
  end.

(** The two registers of an interrupt. *)
Definition redirection (i : Z) (c : option Z) : Z * Z :=
  match c with
  | None => (Z.lor INT_DISABLED (T_IRQ0 + i), 0)
  | Some cpu => (T_IRQ0 + i, u32 (Z.shiftl cpu 24))
  end.

Section IoApic.
Context `{D : Device} {IL : IoApicLaws}.

Definition entry_of (d : dev) (i : Z) : Z * Z := (io_reg d (REG_TABLE + 2 * i), io_reg d (REG_TABLE + 2 * i + 1)).

(** Nothing but the hardware changes, and of the registers only [reg]. *)
Lemma ioapicwrite_ok reg v s :
  REG_TABLE <= reg < 2 ^ 32 ->
  exists s', ioapicwrite reg v s = Ret tt s' /\ same_vars s s' /\ io_reg (hw s') = <[reg := u32 v]> (io_reg (hw s)).
Proof.
  intros Hr. unfold ioapicwrite. destruct (store_step IOAPIC reg s) as (s1 & E1 & H1 & V1). rstep E1.
  destruct (store_step (IOAPIC + 16) v s1) as (s2 & E2 & H2 & V2). exists s2. split; [done|].
  split; [by eapply same_vars_trans|]. destruct (io_select (u32 reg) (hw s)) as [S1 S2]. rewrite <- H1 in S1, S2.
  rewrite u32_small in S1 by (unfold is_u32, REG_TABLE in *; lia). by rewrite H2, io_write, S1, S2 by (rewrite S1; lia).
Qed.

Lemma ioapicread_ok reg s :
  is_u32 reg -> exists s', ioapicread reg s = Ret (io_reg (hw s) reg) s' /\ same_vars s s' /\ io_reg (hw s') = io_reg (hw s).
Proof.
  intros Hr. unfold ioapicread. destruct (store_step IOAPIC reg s) as (s1 & E1 & H1 & V1). rstep E1.
  destruct (load_step (IOAPIC + 16) s1) as (s2 & E2 & H2 & V2). exists s2.
  destruct (io_select (u32 reg) (hw s)) as [S1 S2]. rewrite <- H1 in S1, S2. rewrite u32_small in S1 by done.
  destruct (io_read (hw s1)) as [R1 R2]. rewrite E2, R1, S1, S2. split; [done|]. split; [by eapply same_vars_trans|]. congruence.
Qed.

(** Both registers of the interrupt [i]. *)
Lemma entry_write i lo hi s :
  0 <= i < 256 -> is_u32 lo ->
  exists s1 s2, ioapicwrite (REG_TABLE + 2 * i) lo s = Ret tt s1 /\ ioapicwrite (REG_TABLE + 2 * i + 1) hi s1 = Ret tt s2 /\
    same_vars s s2 /\ forall j, 0 <= j -> entry_of (hw s2) j = if j =? i then (lo, u32 hi) else entry_of (hw s) j.
Proof.
  intros Hi Hlo. destruct (ioapicwrite_ok (REG_TABLE + 2 * i) lo s) as (s1 & E1 & V1 & R1); [unfold REG_TABLE; lia|].
  destruct (ioapicwrite_ok (REG_TABLE + 2 * i + 1) hi s1) as (s2 & E2 & V2 & R2); [unfold REG_TABLE; lia|].
  rewrite u32_small in R1 by done. exists s1, s2. split; [done|]. split; [done|]. split; [by eapply same_vars_trans|].
  intros j Hj. unfold entry_of. rewrite R2, R1. destruct (Z.eqb_spec j i) as [->|Hne].
  - rewrite fn_lookup_insert, fn_lookup_insert_ne, fn_lookup_insert by lia. done.
  - by rewrite !fn_lookup_insert_ne by lia.
Qed.

Lemma disabled_u32 i : 0 <= i < 256 -> is_u32 (Z.lor INT_DISABLED (T_IRQ0 + i)).
Proof.
  intros Hi. assert (H0 : 0 <= Z.lor INT_DISABLED (T_IRQ0 + i)) by (apply Z.lor_nonneg; unfold INT_DISABLED, T_IRQ0; lia).
  split; [done|]. apply Z.log2_lt_cancel. rewrite Z.log2_lor by (unfold INT_DISABLED, T_IRQ0; lia).
  change (Z.log2 INT_DISABLED) with 16. change (Z.log2 (2 ^ 32)) with 32.
  pose proof (Z.log2_le_mono (T_IRQ0 + i) 300 ltac:(unfold T_IRQ0; lia)) as H. change (Z.log2 300) with 8 in H. lia.
Qed.

Lemma ioapicinit_loop_ok k : forall i s,
  0 <= i -> i + Z.of_nat k <= 256 ->
  exists s', ioapicinit_loop k i s = Ret tt s' /\ same_vars s s' /\
    forall j, 0 <= j -> entry_of (hw s') j = if (i <=? j) && (j <? i + Z.of_nat k) then redirection j None else entry_of (hw s) j.
Proof.
  induction k as [|k IH]; intros i s Hi Hk.
  { exists s. split_and!; try done. intros j Hj. rewrite (proj2 (andb_false_iff _ _)); [done|]. rewrite Z.leb_gt, Z.ltb_ge. lia. }
  cbn [ioapicinit_loop]. destruct (entry_write i (Z.lor INT_DISABLED (T_IRQ0 + i)) 0 s) as (s0 & s1 & E0 & E1 & V1 & R1);
    [lia|apply disabled_u32; lia|]. rstep E0. rstep E1.
  destruct (IH (i + 1) s1) as (s2 & E2 & V2 & R2); [lia|lia|]. exists s2. split; [done|].
  split; [by eapply same_vars_trans|]. intros j Hj. rewrite R2, R1 by done.
  destruct (Z.eqb_spec j i), (Z.leb_spec i j), (Z.ltb_spec j (i + Z.of_nat (S k))), (Z.leb_spec (i + 1) j), (Z.ltb_spec j (i + 1 + Z.of_nat k));
    try lia; simpl; subst; done.
Qed.

Lemma ioapicenables_ok m l : forall s c, m < 256 ->
  ismp (mpi s) = true -> Forall (fun x => 0 <= x.1 <= m) l -> (forall j, 0 <= j <= m -> entry_of (hw s) j = redirection j (c j)) ->
  exists s', ioapicenables l s = Ret tt s' /\ same_vars s s' /\
    forall j, 0 <= j <= m -> entry_of (hw s') j = redirection j (routed j l (c j)).
Proof.
  induction l as [|[irq cpu] l IH]; intros s c Hm Hmp Hl Hc; [by exists s|].
  apply list.Forall_cons in Hl as [Hi Hl]. simpl in Hi. cbn [ioapicenables]. unfold ioapicenable.
  erewrite bind_bind by reflexivity. rewrite Hmp. cbn [negb].
  destruct (entry_write irq (T_IRQ0 + irq) (Z.shiftl cpu 24) s) as (s1 & s2 & E1 & E2 & V2 & R2); [lia|unfold is_u32, T_IRQ0; lia|].
  rewrite (bind_bind _ _ _ _ _ _ E1). rstep E2.
  destruct (IH s2 (fun j => if j =? irq then Some cpu else c j)) as (s3 & E3 & V3 & R3); [done| |done| |].
  - by destruct V2 as (_ & -> & _).
  - intros j Hj. rewrite R2 by lia. destruct (Z.eqb_spec j irq) as [->|Hne]; [done|by apply Hc].
  - exists s3. split; [done|]. split; [by eapply same_vars_trans|]. done.
Qed.
End IoApic.

(** ** Local APIC *)

(** The commands to other processors: a write to the low word of the interrupt
    command register sends it to the processor in the high word. *)
Class LapicLaws `{Device} (base : Z) := mkLapicLaws {
  icr_hi : dev -> Z;
  ipis : dev -> list (Z * Z);
  icr_hi_write : forall v d, icr_hi (dev_store (base + 4 * L_ICRHI) v d) = v /\ ipis (dev_store (base + 4 * L_ICRHI) v d) = ipis d;
  icr_lo_write : forall v d, icr_hi (dev_store (base + 4 * L_ICRLO) v d) = icr_hi d /\
    ipis (dev_store (base + 4 * L_ICRLO) v d) = ipis d ++ [(icr_hi d, v)];
  icr_read : forall a d, icr_hi (dev_load a d).2 = icr_hi d /\ ipis (dev_load a d).2 = ipis d;
  icr_out : forall p v d, icr_hi (dev_out p v d) = icr_hi d /\ ipis (dev_out p v d) = ipis d
}.

Section Lapic.
Context `{D : Device} (base : Z) {LL : LapicLaws base}.

(** The commands so far, the destination of the next one, and the warm reset vector. *)
Definition tracked (s : drivers) (dest : Z) (l : list (Z * Z)) (w : Z * Z) : Prop :=
  lapic (mpi s) = base /\ icr_hi (hw s) = dest /\ ipis (hw s) = l /\ wrv s = w.

Lemma lapicw_step index v s :
  lapic (mpi s) = base ->
  exists s' d, lapicw index v s = Ret tt s' /\ same_vars s s' /\ d = dev_store (base + 4 * index) (u32 v) (hw s) /\
    icr_hi (hw s') = icr_hi d /\ ipis (hw s') = ipis d.
Proof using All.
  intros Hb. unfold lapicw, lapic_at. rewrite bind_gets, Hb. destruct (store_step (base + 4 * index) v s) as (s1 & E1 & H1 & V1).
  rstep E1. erewrite bind_bind by reflexivity. destruct (load_step (lapic (mpi s1) + 4 * L_ID) s1) as (s2 & E2 & H2 & V2). rstep E2.
  exists s2, (hw s1). split; [done|]. split; [by eapply same_vars_trans|]. split; [done|]. rewrite H2. apply icr_read.
Qed.

Lemma lapicw_hi v s dest l w :
  tracked s dest l w -> exists s', lapicw L_ICRHI v s = Ret tt s' /\ tracked s' (u32 v) l w.
Proof using All.
  intros (Hb & Hd & Hl & Hw). destruct (lapicw_step L_ICRHI v s Hb) as (s' & d & E & (_ & V1 & _ & V2) & -> & H1 & H2).
  exists s'. split; [done|]. unfold tracked. rewrite V1, V2, H1, H2. split_and!; try done; [apply icr_hi_write|].
  by rewrite (proj2 (icr_hi_write _ _)).
Qed.

Lemma lapicw_lo v s dest l w :
  tracked s dest l w -> exists s', lapicw L_ICRLO v s = Ret tt s' /\ tracked s' dest (l ++ [(dest, u32 v)]) w.
Proof using All.
  intros (Hb & Hd & Hl & Hw). destruct (lapicw_step L_ICRLO v s Hb) as (s' & d & E & (_ & V1 & _ & V2) & -> & H1 & H2).
  exists s'. split; [done|]. unfold tracked. rewrite V1, V2, H1, H2. split_and!; try done; [by rewrite (proj1 (icr_lo_write _ _))|].
  by rewrite (proj2 (icr_lo_write _ _)), Hd, Hl.
Qed.
End Lapic.

Lemma startup_vector v : 0 <= v < 256 -> Z.lor STARTUP v = STARTUP + v.
Proof.
  intros Hv. assert (H : forallb (fun v => Z.lor STARTUP v =? STARTUP + v) (seqZ 0 256) = true) by (by vm_compute).
  rewrite forallb_forall in H. apply Z.eqb_eq, H, list_elem_of_In, elem_of_seqZ. lia.
Qed.

(** ** Theorems *)

(** The interrupt controllers.  After [picinit] and any calls of [picenable], both
    controllers are initialised, the interrupts 0-7 arrive as traps [T_IRQ0] and up, 8-15
    as [T_IRQ0 + 8] and up, the second controller is connected to line 2 of the first,
    and an interrupt is masked unless it has been enabled or is line 2 itself. *)
Theorem pic_enabled `{D : Device} {PL : PicLaws} irqs s :
  irqmask s = irqmask0 -> Forall (fun q => 0 <= q < 16) irqs ->
  exists s', (picinit ;;; picenables irqs) s = Ret tt s' /\
    pics (hw s') = (mkchip 0 T_IRQ0 4 3 (u8 (irqmask s')), mkchip 0 (T_IRQ0 + 8) 2 3 (u8 (Z.shiftr (irqmask s') 8))) /\
    forall i, 0 <= i < 16 -> Z.testbit (irqmask s') i = false <-> i = IRQ_SLAVE \/ i ∈ irqs.
Proof.
  intros Hm Hq. destruct (picinit_ok s Hm) as (s1 & E1 & M1 & P1). rstep E1.
  destruct (picenables_ok irqs s1) as (s2 & E2 & P2 & B2); [by rewrite P1, M1|done|]. exists s2. split; [done|]. split; [done|].
  intros i Hi. rewrite B2, M1 by done. rewrite andb_false_iff, negb_false_iff, bool_decide_eq_true.
  assert (H : forallb (fun i => Bool.eqb (Z.testbit irqmask0 i) (negb (i =? IRQ_SLAVE))) (seqZ 0 16) = true) by (by vm_compute).
  rewrite forallb_forall in H. specialize (H i). rewrite eqb_true_iff in H. rewrite H by (apply list_elem_of_In, elem_of_seqZ; lia).
  by rewrite negb_false_iff, Z.eqb_eq.
Qed.

(** The I/O APIC.  On a machine with several processors, after [ioapicinit] and any
    calls of [ioapicenable], every interrupt the chip has arrives as trap [T_IRQ0] plus
    its number: it is disabled if it was never enabled, else it is delivered to the
    processor of the last call for it. *)
Theorem ioapic_routes `{D : Device} {IL : IoApicLaws} l s maxintr :
  ismp (mpi s) = true -> maxintr = Z.land (Z.shiftr (io_reg (hw s) REG_VER) 16) 0xFF ->
  Forall (fun x => 0 <= x.1 <= maxintr) l ->
  exists s', (ioapicinit ;;; ioapicenables l) s = Ret tt s' /\
    forall i, 0 <= i <= maxintr -> entry_of (hw s') i = redirection i (routed i l None).
Proof.
  intros Hmp Hv Hl. assert (Hmax : 0 <= maxintr < 256).
  { rewrite Hv. change 0xFF with (Z.ones 8). rewrite Z.land_ones by lia. apply Z.mod_pos_bound. lia. }
  unfold ioapicinit. rewrite (bind_bind _ _ _ _ _ _ (eq_refl : gets _ s = Ret _ s)), Hmp. cbn [negb].
  destruct (ioapicread_ok REG_VER s) as (s1 & E1 & V1 & R1); [unfold is_u32, REG_VER; lia|]. rewrite (bind_bind _ _ _ _ _ _ E1).
  destruct (ioapicread_ok REG_ID s1) as (s2 & E2 & V2 & R2); [unfold is_u32, REG_ID; lia|]. rewrite (bind_bind _ _ _ _ _ _ E2).
  rewrite <- Hv. rewrite (bind_bind _ _ _ _ _ _ (eq_refl : gets _ s2 = Ret _ s2)).
  set (msg := when _ _). assert (Hmsg : exists s3, msg s2 = Ret tt s3 /\ same_vars s2 s3 /\ hw s3 = hw s2).
  { unfold msg. destruct (negb _); [by eexists|by exists s2]. }
  destruct Hmsg as (s3 & E3 & V3 & R3). rewrite (bind_bind _ _ _ _ _ _ E3).
  destruct (ioapicinit_loop_ok (Z.to_nat (maxintr + 1)) 0 s3) as (s4 & E4 & V4 & R4); [lia|lia|]. rstep E4.
  destruct (ioapicenables_ok maxintr l s4 (fun _ => None)) as (s5 & E5 & V5 & R5); [lia| |done| |by exists s5].
  - destruct V4 as (_ & -> & _), V3 as (_ & -> & _), V2 as (_ & -> & _), V1 as (_ & -> & _). done.
  - intros j Hj. rewrite R4 by lia. by rewrite (proj2 (andb_true_iff _ _)) by (rewrite Z.leb_le, Z.ltb_lt; lia).
Qed.

(** Starting another processor.  [lapicstartap] sends the processor [apicid], and
    no other, the sequence of INIT, its end, and two STARTUP commands; the page number in
    the STARTUP commands and the warm reset vector both stand for the address
    [addr] of the entry code. *)
Theorem startap_commands `{D : Device} base {LL : LapicLaws base} apicid addr s :
  lapic (mpi s) = base -> 0 <= apicid < 256 -> 0 <= addr < 2 ^ 20 -> addr mod 4096 = 0 ->
  exists s', lapicstartap apicid addr s = Ret tt s' /\
    ipis (hw s') = ipis (hw s) ++ ((fun v => (apicid * 2 ^ 24, v)) <$>
      [INIT + LEVEL + ASSERT; INIT + LEVEL; STARTUP + addr / 4096; STARTUP + addr / 4096]) /\
    16 * (wrv s').2 + (wrv s').1 = addr.
Proof.
  intros Hb Hid Ha Hal. unfold lapicstartap.
  destruct (outb_step IO_RTC 0xF s) as (s1 & E1 & H1 & V1). rstep E1.
  destruct (outb_step (IO_RTC + 1) 0x0A s1) as (s2 & E2 & H2 & V2). rstep E2. rewrite bind_modify.
  assert (T3 : tracked base (set_wrv (0, u16 (Z.shiftr addr 4)) s2) (icr_hi (hw s2)) (ipis (hw s)) (0, u16 (Z.shiftr addr 4))).
  { split; [simpl; destruct V2 as (_ & -> & _), V1 as (_ & -> & _); done|]. split; [done|]. split; [|done]. simpl.
    by rewrite H2, H1, !(proj2 (icr_out _ _ _)). }
  assert (Ed : u32 (Z.shiftl apicid 24) = apicid * 2 ^ 24) by (rewrite Z.shiftl_mul_pow2, u32_small by (unfold is_u32; lia); done).
  assert (Hv : 0 <= addr / 4096 < 256) by (Z.div_mod_to_equations; lia).
  assert (Es : u32 (Z.lor STARTUP (Z.shiftr addr 12)) = STARTUP + addr / 4096).
  { rewrite Z.shiftr_div_pow2 by lia. change (2 ^ 12) with 4096. rewrite startup_vector, u32_small by (unfold is_u32, STARTUP; lia). done. }
  destruct (lapicw_hi base (Z.shiftl apicid 24) _ _ _ _ T3) as (s4 & E4 & T4). rstep E4.
  destruct (lapicw_lo base (Z.lor (Z.lor INIT LEVEL) ASSERT) _ _ _ _ T4) as (s5 & E5 & T5). rstep E5. rstep (eq_refl : microdelay 200 s5 = Ret tt s5).
  destruct (lapicw_lo base (Z.lor INIT LEVEL) _ _ _ _ T5) as (s6 & E6 & T6). rstep E6. rstep (eq_refl : microdelay 100 s6 = Ret tt s6).
  destruct (lapicw_hi base (Z.shiftl apicid 24) _ _ _ _ T6) as (s7 & E7 & T7). rstep E7.
  destruct (lapicw_lo base (Z.lor STARTUP (Z.shiftr addr 12)) _ _ _ _ T7) as (s8 & E8 & T8). rstep E8. rstep (eq_refl : microdelay 200 s8 = Ret tt s8).
  destruct (lapicw_hi base (Z.shiftl apicid 24) _ _ _ _ T8) as (s9 & E9 & T9). rstep E9.
  destruct (lapicw_lo base (Z.lor STARTUP (Z.shiftr addr 12)) _ _ _ _ T9) as (s10 & E10 & (_ & _ & T & W)).
  rstep E10. exists s10. split; [done|]. rewrite T, W, Ed, Es, <- !(assoc_L app). split; [done|]. simpl.
  rewrite Z.shiftr_div_pow2 by lia. unfold u16. rewrite Z.mod_small by (Z.div_mod_to_equations; lia). Z.div_mod_to_equations. lia.
Qed.

(** [cpunum] called with interrupts disabled says nothing and gives the number in the
    identification register of the local APIC, 0 before there is one. *)
Lemma cpunum_quiet `{D : Device} eflags caller n s :
  Z.land eflags 0x200 = 0 ->
  exists s', cpunum eflags caller n s = Ret (if lapic (mpi s) =? 0 then 0
    else Z.shiftr (u32 (dev_load (lapic (mpi s) + 4 * L_ID) (hw s)).1) 24, n) s' /\ printed s' = printed s.
Proof.
  intros Hf. unfold cpunum, lapic_at, load, bind, gets, ret. rewrite Hf. simpl.
  destruct (lapic (mpi s) =? 0); simpl; [by exists s|].
  destruct (dev_load _ (hw s)) as [v d]. simpl. by eexists.
Qed.

(** ** A machine *)

(** The two interrupt controllers, the I/O APIC and a local APIC at [PC_LAPIC]. *)
Record pc := mkpc { pc_pics : chip * chip; pc_sel : Z; pc_reg : Z -> Z; pc_icr : Z; pc_ipis : list (Z * Z) }.

Definition PC_LAPIC : Z := 0xFEE00000.

Definition pc_store (a v : Z) (p : pc) : pc :=
  if a =? IOAPIC then mkpc (pc_pics p) v (pc_reg p) (pc_icr p) (pc_ipis p)
  else if a =? IOAPIC + 16 then mkpc (pc_pics p) (pc_sel p) (<[pc_sel p := v]> (pc_reg p)) (pc_icr p) (pc_ipis p)
  else if a =? PC_LAPIC + 4 * L_ICRHI then mkpc (pc_pics p) (pc_sel p) (pc_reg p) v (pc_ipis p)
  else if a =? PC_LAPIC + 4 * L_ICRLO then mkpc (pc_pics p) (pc_sel p) (pc_reg p) (pc_icr p) (pc_ipis p ++ [(pc_icr p, v)])
  else p.

#[local] Instance Pc : Device := {|
  dev := pc;
  dev_out port v p := mkpc (pic_out port v (pc_pics p)) (pc_sel p) (pc_reg p) (pc_icr p) (pc_ipis p);
  dev_in _ p := (0, p);
  dev_ins _ n p := (replicate (Z.to_nat n) 0, p);
  dev_store := pc_store;
  dev_load a p := (if a =? IOAPIC + 16 then pc_reg p (pc_sel p) else 0, p)
|}.

#[local] Instance Pc_pics : PicLaws.
Proof. by refine (@mkPicLaws Pc pc_pics _). Defined.

#[local] Instance Pc_ioapic : IoApicLaws.
Proof. by refine (@mkIoApicLaws Pc pc_sel pc_reg _ _ _). Defined.

#[local] Instance Pc_lapic : LapicLaws PC_LAPIC.
Proof. by refine (@mkLapicLaws Pc PC_LAPIC pc_icr pc_ipis _ _ _ _). Defined.

Definition demo_pc : pc := mkpc (mkchip 0 0 0 0 0, mkchip 0 0 0 0 0) 0 (<[1 := 0x170011]> (fun _ => 0)) 0 [].

(** The state of the drivers of a machine with two processors. *)
Definition demo_drivers : drivers :=
  mkdrivers Pc demo_pc irqmask0 false false (0, 0) (set_lapic PC_LAPIC (set_ncpu 2 (set_ismp true mpst0))) [] [].

