(* ===== verification/Boot.v ===== *)
(** * The boot loader

    [bootmain.c]: it reads the kernel, an ELF file, from the disk that the firmware
    booted from, through the ports of the disk controller, and jumps to it. *)

From stdpp Require Import base list numbers strings tactics functions.
From Stdlib Require Import Lia.
From S2P Require Import Prelude Params StringC Devices.

Local Open Scope Z_scope.
Local Open Scope xv6_scope.

Definition SECTSIZE : Z := 512.
Definition ELF_AT : Z := 0x10000.
Definition BOOT_MAGIC : Z := 0x464C457F.
Definition PH_SIZE : Z := 32.

(** The hardware and the memory, which is not paged yet. *)
Record bootst `{Device} := mkbootst { b_hw : dev; b_mem : memory }.

(** Whether [x] is one of the [n] addresses from [a] on, which wrap around. *)
Definition from_on (a n x : Z) : bool := (0 <=? x) && (x <? 2 ^ 32) && (u32 (x - a) <? n).

(** The bytes [l] written at [a]. *)
Definition put (m : memory) (a : Z) (l : list Z) : memory :=
  fun x => if from_on a (Z.of_nat (length l)) x then default 0 (l !! Z.to_nat (u32 (x - a))) else m x.

Section Boot.
Context `{D : Device}.

Definition b_outb (port v : Z) : M bootst unit :=
  modify (fun s => mkbootst _ (dev_out port (u8 v) (b_hw s)) (b_mem s)).
Definition b_inb (port : Z) : M bootst Z :=
  fun s => let '(v, d) := dev_in port (b_hw s) in Ret v (mkbootst _ d (b_mem s)).
(** [insl]: [cnt] words. *)
Definition b_insl (port addr cnt : Z) : M bootst unit :=
  modify (fun s => let '(l, d) := dev_ins port (4 * cnt) (b_hw s) in mkbootst _ d (put (b_mem s) addr l)).

(** [stosb]: [cnt] times the byte [data]. *)
Definition b_stosb (addr data cnt : Z) : M bootst unit :=
  modify (fun s => mkbootst _ (b_hw s) (fun x => if from_on addr cnt x then u8 data else b_mem s x)).

Fixpoint waitdisk (fuel : nat) : M bootst unit :=
  match fuel with
  | O => outoffuel
  | S fuel =>
      v <- b_inb 0x1F7 ;;
      if negb (Z.land v 0xC0 =? 0x40) then waitdisk fuel else ret tt
  end.

Definition readsect (fuel : nat) (dst offset : Z) : M bootst unit :=
  waitdisk fuel ;;;
  b_outb 0x1F2 1 ;;;
  b_outb 0x1F3 offset ;;;
  b_outb 0x1F4 (Z.shiftr offset 8) ;;;
  b_outb 0x1F5 (Z.shiftr offset 16) ;;;
  b_outb 0x1F6 (Z.lor (Z.shiftr offset 24) 0xE0) ;;;
  b_outb 0x1F7 0x20 ;;;
  waitdisk fuel ;;;
  b_insl 0x1F0 dst (SECTSIZE / 4).

(** [for(; pa < epa; pa += SECTSIZE, offset++)]: at most [k] sectors. *)
Fixpoint readseg_loop (fuel k : nat) (pa epa offset : Z) : M bootst unit :=
  if negb (pa <? epa) then ret tt else
  match k with
  | O => outoffuel
  | S k =>
      readsect fuel pa offset ;;;
      readseg_loop fuel k (u32 (pa + SECTSIZE)) epa (u32 (offset + 1))
  end.

Definition readseg (fuel : nat) (pa count offset : Z) : M bootst unit :=
  let epa := u32 (pa + count) in
  let pa := u32 (pa - offset mod SECTSIZE) in
  let offset := u32 (offset / SECTSIZE + 1) in
  readseg_loop fuel (Z.to_nat (count / SECTSIZE + 2)) pa epa offset.

(** The fields of [struct elfhdr] and [struct proghdr] at an address. *)
Definition eh_magic (m : memory) (a : Z) : Z := load32 m a.
Definition eh_entry (m : memory) (a : Z) : Z := load32 m (a + 24).
Definition eh_phoff (m : memory) (a : Z) : Z := load32 m (a + 28).
Definition eh_phnum (m : memory) (a : Z) : Z := m (a + 44) + 2 ^ 8 * m (a + 45).
Definition bph_off (m : memory) (a : Z) : Z := load32 m (a + 4).
Definition bph_paddr (m : memory) (a : Z) : Z := load32 m (a + 12).
Definition bph_filesz (m : memory) (a : Z) : Z := load32 m (a + 16).
Definition bph_memsz (m : memory) (a : Z) : Z := load32 m (a + 20).

(** [for(; ph < eph; ph++)]: at most [n] program headers. *)
Fixpoint load_segments (fuel n : nat) (ph eph : Z) : M bootst unit :=
  if negb (ph <? eph) then ret tt else
  match n with
  | O => outoffuel
  | S n =>
      m <- gets b_mem ;;
      let pa := bph_paddr m ph in
      readseg fuel pa (bph_filesz m ph) (bph_off m ph) ;;;
      m <- gets b_mem ;;
      when (bph_filesz m ph <? bph_memsz m ph)
        (b_stosb (u32 (pa + bph_filesz m ph)) 0 (u32 (bph_memsz m ph - bph_filesz m ph))) ;;;
      load_segments fuel n (u32 (ph + PH_SIZE)) eph
  end.

(** The address it jumps to, or [None] when it returns to [bootasm.S]. *)
Definition bootmain (fuel : nat) : M bootst (option Z) :=
  readseg fuel ELF_AT 4096 0 ;;;
  m <- gets b_mem ;;
  if negb (eh_magic m ELF_AT =? BOOT_MAGIC) then ret None else
  let ph := u32 (ELF_AT + eh_phoff m ELF_AT) in
  let eph := u32 (ph + PH_SIZE * eh_phnum m ELF_AT) in
  load_segments fuel (Z.to_nat (eh_phnum m ELF_AT)) ph eph ;;;
  m <- gets b_mem ;;
  ret (Some (eh_entry m ELF_AT)).
End Boot.
