(* ===== verification/BootThm.v ===== *)
(** * The boot loader loads the kernel

    The disk controller is a class of laws about its ports; on any machine that
    satisfies them [bootmain] puts every segment of the kernel where its program header
    says and jumps to its entry point. *)

From stdpp Require Import base list numbers strings tactics functions.
From Stdlib Require Import Lia.
From S2P Require Import Prelude Params StringC Devices Boot.

Local Open Scope Z_scope.
Local Open Scope xv6_scope.

(** ** The disk controller *)

(** The sector that the registers name. *)
Definition lba (r : Z -> Z) : Z := r 0x1F3 + 2 ^ 8 * r 0x1F4 + 2 ^ 16 * r 0x1F5 + 2 ^ 24 * Z.land (r 0x1F6) 0xF.

Fixpoint polled `{Device} (n : nat) (d : dev) : dev :=
  match n with O => d | S n => polled n (dev_in 0x1F7 d).2 end.

(** Registers hold what is written to them; the command 0x20 with a count of one makes
    the sector the registers name the next data; the controller becomes ready after at
    most [polls] reads of its status. *)
Class IdeLaws `{Device} := mkIdeLaws {
  ide_regs : dev -> Z -> Z;
  ide_pending : dev -> option Z;
  ide_disk : dev -> Z -> list Z;
  polls : nat;
  ide_len : forall d s, length (ide_disk d s) = 512%nat;
  ide_write : forall p v d, 0x1F2 <= p <= 0x1F6 ->
    ide_regs (dev_out p v d) = <[p := v]> (ide_regs d) /\ ide_disk (dev_out p v d) = ide_disk d;
  ide_command : forall d, ide_regs d 0x1F2 = 1 ->
    ide_pending (dev_out 0x1F7 0x20 d) = Some (lba (ide_regs d)) /\ ide_disk (dev_out 0x1F7 0x20 d) = ide_disk d;
  ide_status : forall d, ide_regs (dev_in 0x1F7 d).2 = ide_regs d /\ ide_pending (dev_in 0x1F7 d).2 = ide_pending d /\
    ide_disk (dev_in 0x1F7 d).2 = ide_disk d;
  ide_ready : forall d, exists n, (n < polls)%nat /\ Z.land (dev_in 0x1F7 (polled n d)).1 0xC0 = 0x40;
  ide_data : forall d s, ide_pending d = Some s ->
    (dev_ins 0x1F0 512 d).1 = ide_disk d s /\ ide_disk (dev_ins 0x1F0 512 d).2 = ide_disk d
}.

Section Loader.
Context `{D : Device} {IL : IdeLaws}.

(** The same registers, data and disk. *)
Definition same_ide (d d' : dev) : Prop :=
  ide_regs d' = ide_regs d /\ ide_pending d' = ide_pending d /\ ide_disk d' = ide_disk d.

Lemma waitdisk_poll n : forall fuel s,
  (n < fuel)%nat -> Z.land (dev_in 0x1F7 (polled n (b_hw s))).1 0xC0 = 0x40 ->
  exists s', waitdisk fuel s = Ret tt s' /\ b_mem s' = b_mem s /\ same_ide (b_hw s) (b_hw s').
Proof.
  induction n as [|n IH]; intros fuel s Hf Hp; (destruct fuel as [|fuel]; [lia|]); cbn [waitdisk]; unfold bind, b_inb;
    pose proof (ide_status (b_hw s)) as Hst; simpl in Hp; destruct (dev_in 0x1F7 (b_hw s)) as [v d]; simpl in *.
  - rewrite Hp. by eexists.
  - destruct (Z.land v 192 =? 64); simpl; [by eexists|].
    destruct (IH fuel (mkbootst _ d (b_mem s))) as (s' & E & M & (R1 & R2 & R3)); [lia|done|]. exists s'. split; [done|].
    simpl in *. unfold same_ide. destruct Hst as (S1 & S2 & S3). split; [done|]. by rewrite R1, R2, R3.
Qed.

Lemma waitdisk_ok fuel s :
  (polls <= fuel)%nat -> exists s', waitdisk fuel s = Ret tt s' /\ b_mem s' = b_mem s /\ same_ide (b_hw s) (b_hw s').
Proof. intros Hf. destruct (ide_ready (b_hw s)) as (n & Hn & Hp). apply (waitdisk_poll n); [lia|done]. Qed.

(** A write to a register of the controller. *)
Lemma reg_step p v s :
  0x1F2 <= p <= 0x1F6 ->
  exists s', b_outb p v s = Ret tt s' /\ b_mem s' = b_mem s /\ ide_regs (b_hw s') = <[p := u8 v]> (ide_regs (b_hw s)) /\
    ide_disk (b_hw s') = ide_disk (b_hw s).
Proof. intros Hp. eexists. split; [reflexivity|]. split; [reflexivity|]. simpl. by apply ide_write. Qed.

Lemma lba_offset r o :
  0 <= o < 2 ^ 28 -> r 0x1F3 = u8 o -> r 0x1F4 = u8 (Z.shiftr o 8) -> r 0x1F5 = u8 (Z.shiftr o 16) ->
  r 0x1F6 = u8 (Z.lor (Z.shiftr o 24) 0xE0) -> lba r = o.
Proof.
  intros Ho E3 E4 E5 E6. unfold lba. rewrite E3, E4, E5, E6. rewrite !Z.shiftr_div_pow2 by lia.
  assert (Hh : 0 <= o / 2 ^ 24 < 16) by (Z.div_mod_to_equations; lia).
  assert (E : Z.land (u8 (Z.lor (o / 2 ^ 24) 0xE0)) 0xF = o / 2 ^ 24).
  { assert (H : forallb (fun x => Z.land (u8 (Z.lor x 0xE0)) 0xF =? x) (seqZ 0 16) = true) by (by vm_compute).
    rewrite forallb_forall in H. apply Z.eqb_eq, H, list_elem_of_In, elem_of_seqZ. lia. }
  rewrite E. unfold u8. Z.div_mod_to_equations. lia.
Qed.

Lemma readsect_ok fuel dst o s :
  (polls <= fuel)%nat -> 0 <= o < 2 ^ 28 ->
  exists s', readsect fuel dst o s = Ret tt s' /\ b_mem s' = put (b_mem s) dst (ide_disk (b_hw s) o) /\
    ide_disk (b_hw s') = ide_disk (b_hw s).
Proof.
  intros Hf Ho. unfold readsect. destruct (waitdisk_ok fuel s Hf) as (s1 & E1 & M1 & _ & _ & D1). rstep E1.
  destruct (reg_step 0x1F2 1 s1) as (s2 & E2 & M2 & R2 & D2); [lia|]. rstep E2.
  destruct (reg_step 0x1F3 o s2) as (s3 & E3 & M3 & R3 & D3); [lia|]. rstep E3.
  destruct (reg_step 0x1F4 (Z.shiftr o 8) s3) as (s4 & E4 & M4 & R4 & D4); [lia|]. rstep E4.
  destruct (reg_step 0x1F5 (Z.shiftr o 16) s4) as (s5 & E5 & M5 & R5 & D5); [lia|]. rstep E5.
  destruct (reg_step 0x1F6 (Z.lor (Z.shiftr o 24) 0xE0) s5) as (s6 & E6 & M6 & R6 & D6); [lia|]. rstep E6.
  assert (Hcnt : ide_regs (b_hw s6) 0x1F2 = 1) by (rewrite R6, R5, R4, R3, R2; done).
  assert (Hlba : lba (ide_regs (b_hw s6)) = o) by (apply lba_offset; [done|rewrite R6, R5, R4, R3, R2; done..]).
  destruct (ide_command (b_hw s6) Hcnt) as [P7 D7]. rewrite Hlba in P7.
  set (s7 := mkbootst _ (dev_out 0x1F7 0x20 (b_hw s6)) (b_mem s6)).
  rewrite (bind_ret (b_outb 0x1F7 0x20) _ s6 tt s7) by reflexivity.
  destruct (waitdisk_ok fuel s7 Hf) as (s8 & E8 & M8 & _ & P8 & D8). rstep E8.
  change (ide_pending (b_hw s7) = Some o) in P7. rewrite <- P8 in P7.
  destruct (ide_data (b_hw s8) o P7) as [L9 D9]. eexists. split; [reflexivity|]. simpl. change (4 * (SECTSIZE / 4)) with 512.
  destruct (dev_ins 496 512 (b_hw s8)) as [l d]. simpl in *. subst l. rewrite D9, D8. simpl. rewrite M8. simpl.
  rewrite D7, D6, D5, D4, D3, D2, D1, M6, M5, M4, M3, M2, M1. done.
Qed.

(** ** The kernel on the disk *)

(** The file [img] begins at sector 1. *)
Definition kernel_on (dk : Z -> list Z) (img : memory) : Prop :=
  forall k i, 0 <= k < 2 ^ 27 -> 0 <= i < 512 -> dk (1 + k) !! Z.to_nat i = Some (img (512 * k + i)).

(** [m] has the bytes [img o], [img (o + 1)], ... from [a] to [b], and what [m0] has before [a]. *)
Definition filled (m m0 img : memory) (a b o : Z) : Prop :=
  (forall x, a <= x < b -> m x = img (o + (x - a))) /\ forall x, x < a -> m x = m0 x.

Variable img : memory.

(** Writing [n] bytes that do not wrap around. *)
Lemma from_on_spec a n x :
  0 <= a -> 0 <= n -> a + n <= 2 ^ 32 -> from_on a n x = (a <=? x) && (x <? a + n).
Proof.
  intros Ha Hn Hw. apply eq_iff_eq_true. unfold from_on.
  rewrite !andb_true_iff, !Z.leb_le, !Z.ltb_lt. unfold u32. Z.div_mod_to_equations. lia.
Qed.

(** One sector in memory. *)
Lemma put_sector m pa d x :
  0 <= pa -> pa + 512 <= 2 ^ 32 -> length d = 512%nat ->
  put m pa d x = if decide (pa <= x < pa + 512) then default 0 (d !! Z.to_nat (x - pa)) else m x.
Proof.
  intros H0 H1 Hd. unfold put. rewrite Hd, from_on_spec by lia. case_decide as Hx.
  - rewrite (proj2 (andb_true_iff _ _)) by (rewrite Z.leb_le, Z.ltb_lt; lia).
    by rewrite u32_small by (unfold is_u32; lia).
  - rewrite (proj2 (andb_false_iff _ _)); [done|]. rewrite Z.leb_gt, Z.ltb_ge. lia.
Qed.

(** The sectors read from [pa] on end at [e]. *)
Definition ends_at (pa epa e : Z) : Prop := pa <= e /\ epa <= e /\ (e - pa) mod 512 = 0.

Lemma ends_at_step pa epa e : pa < epa -> ends_at pa epa e -> ends_at (pa + 512) epa e /\ pa + 512 <= e.
Proof. intros H (H1 & H2 & H3). unfold ends_at. Z.div_mod_to_equations. lia. Qed.

Lemma readseg_loop_ok fuel k : forall pa epa q s,
  (polls <= fuel)%nat -> kernel_on (ide_disk (b_hw s)) img -> 0 <= pa -> 0 <= epa -> epa + 512 <= 2 ^ 32 -> pa <= epa + 512 ->
  epa - pa <= 512 * Z.of_nat k -> 0 <= q -> q + Z.of_nat k < 2 ^ 27 ->
  exists s', readseg_loop fuel k pa epa (1 + q) s = Ret tt s' /\ filled (b_mem s') (b_mem s) img pa epa (512 * q) /\
    (forall e x, ends_at pa epa e -> e <= x -> b_mem s' x = b_mem s x) /\
    ide_disk (b_hw s') = ide_disk (b_hw s).
Proof.
  induction k as [|k IH]; intros pa epa q s Hf Hk H0 H1 H2 H3 Hn Hq Hq2; cbn [readseg_loop];
    (destruct (Z.ltb_spec pa epa) as [Hlt|Hge]; cbn [negb]; [|exists s; split; [done|]; split; [|done]; split; [lia|done]]); [lia|].
  destruct (readsect_ok fuel pa (1 + q) s Hf) as (s1 & E1 & M1 & D1); [lia|]. rstep E1. unfold SECTSIZE.
  assert (Hp : forall x, b_mem s1 x = if decide (pa <= x < pa + 512) then default 0 (ide_disk (b_hw s) (1 + q) !! Z.to_nat (x - pa)) else b_mem s x).
  { intros x. rewrite M1. apply put_sector; [lia..|apply ide_len]. }
  rewrite !u32_small by (unfold is_u32; lia). replace (1 + q + 1) with (1 + (q + 1)) by lia.
  destruct (IH (pa + 512) epa (q + 1) s1) as (s2 & E2 & [F1 F2] & F3 & D2); try lia; [by rewrite D1|].
  exists s2. split; [done|]. split_and!; [split| |by rewrite D2].
  - intros x Hx. destruct (Z.lt_ge_cases x (pa + 512)).
    + rewrite F2, Hp, decide_True by lia. by rewrite (Hk q (x - pa)) by lia.
    + rewrite F1 by lia. f_equal. lia.
  - intros x Hx. by rewrite F2, Hp, decide_False by lia.
  - intros e x He Hx. destruct (ends_at_step _ _ _ Hlt He). by rewrite (F3 e), Hp, decide_False by (done || lia).
Qed.

(** [readseg]: the [count] bytes of the file from [o] on are at [pa], and nothing
    outside the sectors read has changed. *)
Lemma readseg_ok fuel pa count o s :
  (polls <= fuel)%nat -> kernel_on (ide_disk (b_hw s)) img -> o mod 512 <= pa -> 0 <= count -> pa + count + 512 <= 2 ^ 32 -> 0 <= o ->
  o / 512 + count / 512 + 2 < 2 ^ 27 ->
  exists s', readseg fuel pa count o s = Ret tt s' /\ ide_disk (b_hw s') = ide_disk (b_hw s) /\
    (forall x, pa <= x < pa + count -> b_mem s' x = img (o + (x - pa))) /\
    (forall x, x < pa - o mod 512 -> b_mem s' x = b_mem s x) /\
    (forall e x, ends_at (pa - o mod 512) (pa + count) e -> e <= x -> b_mem s' x = b_mem s x).
Proof.
  intros Hf Hk Hm Hc Hp Ho Hq. pose proof (Z.mod_pos_bound o 512 ltac:(lia)) as Hmod. unfold readseg, SECTSIZE.
  assert (Hc5 : 0 <= count / 512 < 2 ^ 27 /\ 0 <= o / 512 < 2 ^ 27 /\ count < 512 * (count / 512) + 512) by (Z.div_mod_to_equations; lia).
  rewrite !u32_small by (unfold is_u32; lia). rewrite (Z.add_comm (o / 512) 1).
  destruct (readseg_loop_ok fuel (Z.to_nat (count / 512 + 2)) (pa - o mod 512) (pa + count) (o / 512) s) as (s' & E & [F1 F2] & F3 & D');
    try done; try lia.
  exists s'. split_and!; [done|done| |done|done]. intros x Hx. rewrite F1 by lia. f_equal. Z.div_mod_to_equations. lia.
Qed.
End Loader.

(** ** Segments *)

Record seg := mkseg { sg_off : Z; sg_pa : Z; sg_filesz : Z; sg_memsz : Z }.

(** The program header at offset [o] of the file. *)
Definition seg_at (img : memory) (o : Z) : seg :=
  mkseg (bph_off img o) (bph_paddr img o) (bph_filesz img o) (bph_memsz img o).

Fixpoint segs_at (img : memory) (o : Z) (n : nat) : list seg :=
  match n with O => [] | S n => seg_at img o :: segs_at img (o + PH_SIZE) n end.

(** The segments in increasing order from [lo] on, below the end of the addresses:
    each begins so far after the one before that the sector with its first byte
    does not reach back into it. *)
Fixpoint layout (lo : Z) (l : list seg) : Prop :=
  match l with
  | [] => True
  | g :: l =>
      0 <= sg_off g /\ 0 <= sg_filesz g /\ 0 <= sg_memsz g /\ lo <= sg_pa g - sg_off g mod 512 /\
      sg_pa g + sg_filesz g + 512 <= 2 ^ 32 /\ sg_pa g + sg_memsz g <= 2 ^ 32 /\ sg_off g / 512 + sg_filesz g / 512 + 2 < 2 ^ 27 /\
      layout (sg_pa g + Z.max (sg_filesz g) (sg_memsz g)) l
  end.

(** The segment is in memory: its bytes of the file, then zeroes. *)
Definition in_place (m img : memory) (g : seg) : Prop :=
  (forall x, sg_pa g <= x < sg_pa g + sg_filesz g -> m x = img (sg_off g + (x - sg_pa g))) /\
  (forall x, sg_pa g + sg_filesz g <= x < sg_pa g + sg_memsz g -> m x = 0).

(** The first page of the file is at [ELF_AT]. *)
Definition header_in (m img : memory) : Prop := forall x, 0 <= x < 4096 -> m (ELF_AT + x) = img x.

Lemma load32_shift m m' a b : (forall i, 0 <= i < 4 -> m (a + i) = m' (b + i)) -> load32 m a = load32 m' b.
Proof.
  intros H. unfold load32. pose proof (H 0 ltac:(lia)) as H0. rewrite !Z.add_0_r in H0. by rewrite H0, !H by lia.
Qed.

Lemma seg_in_header m img o :
  header_in m img -> 0 <= o -> o + PH_SIZE <= 4096 -> seg_at m (ELF_AT + o) = seg_at img o.
Proof.
  intros Hh H0 H1. unfold PH_SIZE in H1. unfold seg_at, bph_off, bph_paddr, bph_filesz, bph_memsz. f_equal; apply load32_shift; intros i Hi;
    rewrite <- !Z.add_assoc; apply Hh; lia.
Qed.

Section Segments.
Context `{D : Device} {IL : IdeLaws} (img : memory).

(** The bytes of the segment that are not in the file. *)
Lemma clear_tail g (s1 : bootst) :
  0 < sg_pa g -> 0 <= sg_filesz g -> sg_pa g + sg_memsz g <= 2 ^ 32 -> sg_filesz g < 2 ^ 32 -> sg_pa g + sg_filesz g < 2 ^ 32 ->
  (forall x, sg_pa g <= x < sg_pa g + sg_filesz g -> b_mem s1 x = img (sg_off g + (x - sg_pa g))) ->
  exists s2, when (sg_filesz g <? sg_memsz g)
      (b_stosb (u32 (sg_pa g + sg_filesz g)) 0 (u32 (sg_memsz g - sg_filesz g))) s1 = Ret tt s2 /\
    b_hw s2 = b_hw s1 /\ in_place (b_mem s2) img g /\ forall x, x < sg_pa g + sg_filesz g -> b_mem s2 x = b_mem s1 x.
Proof.
  intros H0 H1 H2 H3 H4 F. destruct (Z.ltb_spec (sg_filesz g) (sg_memsz g)) as [Hm|Hm]; simpl.
  - eexists. split; [reflexivity|]. cbn [b_hw b_mem]. split; [done|]. rewrite !u32_small by (unfold is_u32; lia).
    assert (Hst : forall x, from_on (sg_pa g + sg_filesz g) (sg_memsz g - sg_filesz g) x =
      (sg_pa g + sg_filesz g <=? x) && (x <? sg_pa g + sg_memsz g)).
    { intros x. rewrite from_on_spec by lia. f_equal. f_equal. lia. }
    split; [split|]; intros x Hx; cbv beta; rewrite Hst.
    + rewrite (proj2 (andb_false_iff _ _)); [by apply F|]. left. apply Z.leb_gt. lia.
    + by rewrite (proj2 (andb_true_iff _ _)) by (rewrite Z.leb_le, Z.ltb_lt; lia).
    + rewrite (proj2 (andb_false_iff _ _)); [done|]. left. apply Z.leb_gt. lia.
  - exists s1. split; [done|]. split; [done|]. split; [split; [done|intros x Hx; lia]|done].
Qed.

Lemma load_segments_ok fuel n : forall o lo s,
  (polls <= fuel)%nat -> kernel_on (ide_disk (b_hw s)) img -> header_in (b_mem s) img -> ELF_AT + 4096 <= lo ->
  0 <= o -> o + PH_SIZE * Z.of_nat n <= 4096 -> layout lo (segs_at img o n) ->
  exists s', load_segments fuel n (ELF_AT + o) (ELF_AT + (o + PH_SIZE * Z.of_nat n)) s = Ret tt s' /\
    Forall (in_place (b_mem s') img) (segs_at img o n) /\
    forall x, x < lo -> b_mem s' x = b_mem s x.
Proof.
  induction n as [|n IH]; intros o lo s Hf Hk Hh Hlo H0 H1 Hl; cbn [segs_at load_segments] in *.
  { rewrite (proj2 (Z.ltb_ge _ _)) by lia. by exists s. }
  rewrite (proj2 (Z.ltb_lt _ _)) by (unfold PH_SIZE; lia). cbn [negb].
  destruct Hl as (L1 & L2 & L3 & L4 & L5 & L5' & L6 & Hl). set (g := seg_at img o) in *.
  pose proof (seg_in_header (b_mem s) img o Hh H0 ltac:(unfold PH_SIZE in *; lia)) as Eg. injection Eg as E1 E2 E3 E4.
  rewrite bind_gets. rewrite E1, E2, E3. change (bph_off img o) with (sg_off g). change (bph_paddr img o) with (sg_pa g).
  change (bph_filesz img o) with (sg_filesz g).
  destruct (readseg_ok img fuel (sg_pa g) (sg_filesz g) (sg_off g) s) as (s1 & F1 & D1 & F2 & F3 & _); try done.
  { unfold ELF_AT in Hlo. lia. }
  rstep F1. rewrite bind_gets.
  assert (Hh1 : header_in (b_mem s1) img) by (intros x Hx; rewrite F3 by lia; by apply Hh).
  pose proof (seg_in_header (b_mem s1) img o Hh1 H0 ltac:(unfold PH_SIZE in *; lia)) as Eg. injection Eg as _ _ G3 G4. rewrite G3, G4.
  change (bph_filesz img o) with (sg_filesz g). change (bph_memsz img o) with (sg_memsz g).
  clear E1 E2 E3 E4 G3 G4. clearbody g. pose proof (Z.mod_pos_bound (sg_off g) 512 ltac:(lia)) as Hmod.
  destruct (clear_tail g s1) as (s2 & W & B2 & P2 & M2); try done; try (unfold ELF_AT in Hlo; lia). rstep W.
  rewrite u32_small by (unfold is_u32, ELF_AT, PH_SIZE in *; lia).
  replace (ELF_AT + o + PH_SIZE) with (ELF_AT + (o + PH_SIZE)) by lia.
  replace (o + PH_SIZE * Z.of_nat (S n)) with (o + PH_SIZE + PH_SIZE * Z.of_nat n) in * by lia.
  destruct (IH (o + PH_SIZE) (sg_pa g + Z.max (sg_filesz g) (sg_memsz g)) s2) as (s3 & E5 & P3 & M3); try done.
  - by rewrite B2, D1.
  - intros x Hx. rewrite M2 by lia. by apply Hh1.
  - lia.
  - unfold PH_SIZE in *. lia.
  - exists s3. split; [done|]. split; [|intros x Hx; rewrite M3, M2, F3 by lia; done].
    apply Forall_cons_2; [|done]. destruct P2 as [P21 P22]. split; intros x Hx; rewrite M3 by lia; auto.
Qed.
End Segments.

(** The segments of the kernel: its program headers are in its first page, and the
    segments are laid out above the loader's scratch page. *)
Definition segments (img : memory) : list seg := segs_at img (eh_phoff img 0) (Z.to_nat (eh_phnum img 0)).

Record loadable (img : memory) : Prop := mkloadable {
  ld_phoff : 0 <= eh_phoff img 0;
  ld_phnum : 0 <= eh_phnum img 0;
  ld_page : eh_phoff img 0 + PH_SIZE * eh_phnum img 0 <= 4096;
  ld_layout : layout (ELF_AT + 4096) (segments img)
}.

(** C23: the boot loader, when a file is on the disk from sector 1 on.  If the file does
    not begin with the ELF magic number, [bootmain] returns, and no byte of the memory
    outside its scratch page has changed.  If it does, and its program headers are
    in its first page and its segments lie in increasing order above the scratch
    page and below 2^32, with room for whole sectors before each, [bootmain] ends:
    every segment is in memory where its header says, its bytes from the file and
    zeroes after them, nothing below the scratch page has changed, and it jumps to
    the entry point of the header. *)
Theorem bootmain_loads `{D : Device} {IL : IdeLaws} img fuel s :
  (polls <= fuel)%nat -> kernel_on (ide_disk (b_hw s)) img ->
  (eh_magic img 0 <> BOOT_MAGIC ->
   exists s', bootmain fuel s = Ret None s' /\
     forall x, ~ (ELF_AT <= x < ELF_AT + 4096) -> b_mem s' x = b_mem s x) /\
  (eh_magic img 0 = BOOT_MAGIC -> loadable img ->
   exists s', bootmain fuel s = Ret (Some (eh_entry img 0)) s' /\
     Forall (in_place (b_mem s') img) (segments img) /\
     forall x, x < ELF_AT -> b_mem s' x = b_mem s x).
Proof.
  intros Hf Hk. unfold bootmain.
  destruct (readseg_ok img fuel ELF_AT 4096 0 s) as (s1 & E1 & D1 & F1 & F2 & F3); try done.
  change (0 mod 512) with 0 in F2, F3. assert (Hh : header_in (b_mem s1) img) by (intros x Hx; rewrite F1 by lia; f_equal; lia).
  assert (Eh : forall m, header_in m img -> forall o, 0 <= o <= 4092 -> load32 m (ELF_AT + o) = load32 img o).
  { intros m Hm o Ho. apply load32_shift. intros i Hi. rewrite <- Z.add_assoc. apply Hm. lia. }
  rstep E1. rewrite bind_gets.
  replace (eh_magic (b_mem s1) ELF_AT) with (eh_magic img 0) by (unfold eh_magic; rewrite <- (Eh _ Hh 0) by lia; done).
  split; intros Hm; [rewrite (proj2 (Z.eqb_neq _ _)) by done|intros [L1 L2 L3 L4]; rewrite (proj2 (Z.eqb_eq _ _)) by done];
    cbn [negb].
  { exists s1. split; [done|]. intros x Hx. destruct (Z.lt_ge_cases x ELF_AT); [apply F2; lia|].
    by apply (F3 (ELF_AT + 4096)); [|lia]. }
  replace (eh_phnum (b_mem s1) ELF_AT) with (eh_phnum img 0) by (unfold eh_phnum; rewrite !Hh by lia; done).
  replace (eh_phoff (b_mem s1) ELF_AT) with (eh_phoff img 0) by (unfold eh_phoff; rewrite Eh by (done || lia); done).
  destruct (load_segments_ok img fuel (Z.to_nat (eh_phnum img 0)) (eh_phoff img 0) (ELF_AT + 4096) s1) as (s2 & E2 & P2 & M2);
    try done; [by rewrite D1|unfold PH_SIZE in *; lia|].
  cbv zeta. rewrite !u32_small by (unfold is_u32, ELF_AT, PH_SIZE in *; lia).
  rewrite <- Z.add_assoc. rewrite Z2Nat.id in E2 by done. rstep E2. rewrite bind_gets. exists s2. split; [|split; [done|]].
  - unfold eh_entry. rewrite Eh; [done| |lia]. intros x Hx. rewrite M2 by lia. by apply Hh.
  - intros x Hx. by rewrite M2, F2 by lia.
Qed.

(** ** A machine *)

(** A kernel with one segment of 600 bytes from offset 4096 on, which takes 1000 bytes at 1 MB. *)
Definition demo_header : list Z :=
  [0x7F; 0x45; 0x4C; 0x46] ++ replicate 20 0 ++ [0x0C; 0; 0x10; 0] ++ [52; 0; 0; 0] ++ replicate 12 0 ++ [1; 0] ++ replicate 6 0 ++
  [1; 0; 0; 0; 0; 16; 0; 0; 0; 0; 0x10; 0x80; 0; 0; 0x10; 0; 0x58; 2; 0; 0; 0xE8; 3; 0; 0] ++ replicate 8 0.

Definition demo_kernel : memory := fun x => if x <? 84 then default 0 (demo_header !! Z.to_nat x) else x mod 251.

Definition demo_sector (s : Z) : list Z := (fun i => demo_kernel (512 * (s - 1) + Z.of_nat i)) <$> seq 0 512.

Record ide_box := mkide_box { box_regs : Z -> Z; box_pending : option Z }.

#[local] Instance Box : Device := {|
  dev := ide_box;
  dev_out p v d :=
    if p =? 0x1F7 then mkide_box (box_regs d) (Some (lba (box_regs d))) else mkide_box (<[p := v]> (box_regs d)) (box_pending d);
  dev_in _ d := (0x40, d);
  dev_ins _ _ d := (match box_pending d with Some s => demo_sector s | None => [] end, d);
  dev_store _ _ d := d;
  dev_load _ d := (0, d)
|}.

#[local] Instance Box_laws : IdeLaws.
Proof.
  refine (@mkIdeLaws Box box_regs box_pending (fun _ => demo_sector) 1 _ _ _ _ _ _); simpl; try done.
  - intros p v d Hp. by rewrite (proj2 (Z.eqb_neq _ _)) by lia.
  - intros d. exists 0%nat. split; [lia|done].
  - intros d s E. by rewrite E.
Defined.

Lemma demo_kernel_on (d : @dev Box) : kernel_on (ide_disk d) demo_kernel.
Proof.
  intros k i Hk Hi. simpl. unfold demo_sector. rewrite list_lookup_fmap, lookup_seq_lt by lia. simpl. do 2 f_equal. lia.
Qed.

Lemma bootmain_loads_witness :
  exists s', bootmain 1 (mkbootst Box (mkide_box (fun _ => 0) None) (fun _ => 99)) = Ret (Some 0x10000C) s' /\
    b_mem s' 0x100000 = 4096 mod 251 /\ b_mem s' 0x1003E7 = 0.
Proof.
  destruct (bootmain_loads demo_kernel 1 (mkbootst Box (mkide_box (fun _ => 0) None) (fun _ => 99))) as [_ H].
  - simpl. lia.
  - apply demo_kernel_on.
  - destruct H as (s' & E & P & _).
    + reflexivity.
    + split; [by vm_compute..|]. vm_compute. repeat split; discriminate.
    + apply Forall_cons_1 in P as [[P1 P2] _]. exists s'. split; [exact E|].
      change (sg_pa _) with 0x100000 in *. change (sg_filesz _) with 600 in *. change (sg_memsz _) with 1000 in *.
      split; [rewrite P1 by lia|rewrite P2 by lia]; done.
Defined.
