(* ===== verification/Console.v ===== *)
(** * Console output

    The printing half of [console.c] with the screen and the serial port, and
    [procdump] of [proc.c].  [Uart] and [Cga] are the two devices characters go
    to; [cprintf] takes its variable arguments as a list. *)

From stdpp Require Import base list numbers strings tactics gmap.
From Stdlib Require Import Lia.
From S2P Require Import Prelude Params StringC FsState KState Spinlock Mmu Sched.

Local Open Scope Z_scope.
Local Open Scope xv6_scope.

(** The characters of a string constant. *)
Definition chars (s : string) : list Z :=
  (fun c => Z.of_N (Ascii.N_of_ascii c)) <$> String.list_ascii_of_string s.

Definition BACKSPACE : Z := 0x100.
Definition NEWLINE : Z := 10.

(** ** Numbers *)

(** The digits of [x] in [base], least significant first:
    [do{ buf[i++] = digits[x % base]; }while((x /= base) != 0);] *)
Fixpoint digits (fuel : nat) (x base : Z) : list Z :=
  match fuel with
  | O => []
  | S fuel => x mod base :: (if x / base =? 0 then [] else digits fuel (x / base) base)
  end.

(** A 32-bit number has at most 32 digits. *)
Definition DIGITS : nat := 32.

Definition digit_char (d : Z) : Z := default 0 (aget (chars "0123456789abcdef") d).
Definition MINUS : Z := 45.

(** The characters [printint] prints, in order. *)
Definition printint (xx base : Z) (sign : bool) : list Z :=
  let neg := sign && (xx <? 0) in
  let x := if neg then u32 (- xx) else u32 xx in
  rev ((digit_char <$> digits DIGITS x base) ++ if neg then [MINUS] else []).

(** ** The screen *)

(** Cursor position and text memory. *)
Record cga := mkcga { pos : Z; crt : list Z }.

Definition CRTSIZE : Z := 25 * 80.

(** [crt[i] = x]; out of range is outside of the screen's memory. *)
Definition crt_set (i x : Z) (c : cga) : option cga :=
  if (0 <=? i) && (i <? CRTSIZE) then Some (mkcga (pos c) (aset (crt c) i x)) else None.

(** [memmove(crt, crt+80, 23*80 cells)] and the clearing of the last line. *)
Definition scroll (c : cga) : option cga :=
  let p := pos c - 80 in
  if (0 <=? p) && (p <=? 24 * 80) then
    let up := take (23 * 80) (drop 80 (crt c)) ++ drop (23 * 80) (crt c) in
    Some (mkcga p (take (Z.to_nat p) up ++ replicate (24 * 80 - Z.to_nat p) 0 ++ drop (24 * 80) up))
  else None.

Definition cgaputc (c : Z) (s : cga) : option cga :=
  s ← (if c =? NEWLINE then Some (mkcga (pos s + (80 - pos s mod 80)) (crt s))
       else if c =? BACKSPACE then Some (if 0 <? pos s then mkcga (pos s - 1) (crt s) else s)
       else s' ← crt_set (pos s) (Z.lor (Z.land c 0xff) 0x0700) s; Some (mkcga (pos s + 1) (crt s')));
  s ← (if 24 <=? pos s / 80 then scroll s else Some s);
  crt_set (pos s) (Z.lor 32 0x0700) s.

(** ** Characters *)

Definition uartputc (c : Z) : M kst unit :=
  u <- getfs uart ;;
  if u =? 0 then ret tt else modfs (fun x => set_tty (tty x ++ [u8 c]) x).

Definition consputc (c : Z) : M kst unit :=
  (if c =? BACKSPACE then uartputc 8 ;;; uartputc 32 ;;; uartputc 8 else uartputc c) ;;;
  s <- getfs (fun x => mkcga (cga_pos x) (cga_crt x)) ;;
  s <- deref (cgaputc c s) ;;
  modfs (fun x => set_cga_crt (crt s) (set_cga_pos (pos s) x)).

Fixpoint consputs (l : list Z) : M kst unit :=
  match l with
  | [] => ret tt
  | c :: l => consputc c ;;; consputs l
  end.

(** ** cprintf *)

(** An argument: a number, a string, the null pointer. *)
Inductive carg := ANum (z : Z) | AStr (s : list Z) | ANull.

Definition PERCENT : Z := 37.

(** The text of a call: [None] when an argument is missing or of another kind. *)
Fixpoint cformat (fmt : list Z) (args : list carg) : option (list Z) :=
  match fmt with
  | [] => Some []
  | c :: fmt =>
      if negb (c =? PERCENT) then (c ::.) <$> cformat fmt args else
      match fmt with
      | [] => Some []
      | c :: fmt =>
          if c =? 100 then
            match args with
            | ANum z :: args => (printint z 10 true ++.) <$> cformat fmt args
            | _ => None
            end
          else if (c =? 120) || (c =? 112) then
            match args with
            | ANum z :: args => (printint z 16 false ++.) <$> cformat fmt args
            | _ => None
            end
          else if c =? 115 then
            match args with
            | AStr s :: args => (s ++.) <$> cformat fmt args
            | ANull :: args => (chars "(null)" ++.) <$> cformat fmt args
            | _ => None
            end
          else if c =? PERCENT then (PERCENT ::.) <$> cformat fmt args
          else (fun l => PERCENT :: c :: l) <$> cformat fmt args
      end
  end.

Definition cprintf (fmt : string) (args : list carg) : M kst unit :=
  locking <- getfs cons_locking ;;
  when (negb (locking =? 0)) (acquire L_cons) ;;;
  l <- deref (cformat (chars fmt) args) ;;
  consputs l ;;;
  when (negb (locking =? 0)) (release L_cons).

(** ** procdump *)

(** The return addresses on a kernel stack ([getcallerpcs] of [spinlock.c]). *)
Fixpoint callerpcs (n : nat) (m : memory) (ebp : Z) : list Z :=
  match n with
  | O => []
  | S n =>
      if (ebp =? 0) || (ebp <? KERNBASE) || (ebp =? 0xffffffff) then replicate (S n) 0
      else load32 m (u32 (ebp + 4)) :: callerpcs n m (load32 m ebp)
  end.

Definition getcallerpcs (m : memory) (v : Z) : list Z := callerpcs 10 m (u32 (v - 8)).

Definition state_name (s : procstate) : string :=
  match s with
  | UNUSED => "unused" | EMBRYO => "embryo" | SLEEPING => "sleep "
  | RUNNABLE => "runnable" | RUNNING => "run   " | ZOMBIE => "zombie"
  end.

(** [for(i=0; i<10 && pc[i] != 0; i++) cprintf(" %p", pc[i]);] *)
Fixpoint print_pcs (l : list Z) : M kst unit :=
  match l with
  | [] => ret tt
  | pc :: l => if pc =? 0 then ret tt else cprintf " %p" [ANum pc] ;;; print_pcs l
  end.

(** The string [\n] *)
Definition newline : string := String (Ascii.ascii_of_nat 10) EmptyString.

(** ** panic *)

(** [for(i=0; i<10; i++) cprintf(" %p", pcs[i]);] *)
Fixpoint print_all_pcs (l : list Z) : M kst unit :=
  match l with
  | [] => ret tt
  | pc :: l => cprintf " %p" [ANum pc] ;;; print_all_pcs l
  end.

(** What [panic(s)] prints on the CPU [id]; [v] is the address of its argument. *)
Definition panic_report (id : Z) (s : string) (v : Z) : M kst unit :=
  modfs (set_cons_locking 0) ;;;
  cprintf "cpu%d: panic: " [ANum id] ;;;
  cprintf s [] ;;;
  cprintf newline [] ;;;
  m <- gets mem ;;
  print_all_pcs (getcallerpcs m v).

(** The machine stops in its last loop. *)
Definition kpanic (id : Z) (s : string) (v : Z) : M kst unit :=
  onlks cli ;;; panic_report id s v ;;; fun _ => Spin.

(** A string up to its zero byte. *)
Fixpoint cstr (l : list Z) : list Z :=
  match l with
  | [] => []
  | c :: l => if c =? 0 then [] else c :: cstr l
  end.

Fixpoint procdump_loop (ps : list nat) : M kst unit :=
  match ps with
  | [] => ret tt
  | p :: ps =>
      x <- getp p ;;
      (if bool_decide (p_state x = UNUSED) then ret tt else
         cprintf "%d %s %s %d"
           [ANum (p_pid x); AStr (chars (state_name (p_state x))); AStr (cstr (p_name x));
            ANum (p_priority x)] ;;;
         (if bool_decide (p_state x = SLEEPING) then
            m <- gets mem ;;
            print_pcs (getcallerpcs m (u32 (c_ebp (p_context x) + 8)))
          else ret tt) ;;;
         cprintf newline []) ;;;
      procdump_loop ps
  end.

Definition procdump : M kst unit := procdump_loop (seq 0 (Z.to_nat NPROC)).
