(* ===== verification/Pipe.v ===== *)
(** * Pipes

    [pipe.c]: a bounded buffer of [PIPESIZE] bytes between the two ends of a
    pipe.  A pipe is named by the address of the page that holds it; [nread]
    and [nwrite] are 32-bit counters that wrap around.  [pipealloc] is in
    [File], with the operations on open files it uses. *)

From stdpp Require Import base list numbers strings tactics gmap.
From Stdlib Require Import Lia.
From S2P Require Import Prelude Params StringC FsState KState Spinlock Mmu Kalloc Sched.

Local Open Scope Z_scope.
Local Open Scope xv6_scope.

Definition getpipe (p : Z) : M kst pipe := o <- getfs (fun f => pipes f !! p) ;; deref o.
Definition upd_pipe (p : Z) (f : pipe -> pipe) (x : fsst) : fsst := set_pipes (alter f p (pipes x)) x.
Definition modpipe (p : Z) (f : pipe -> pipe) : M kst unit := _ <- getpipe p ;; modfs (upd_pipe p f).

(** [p->nwrite == p->nread + PIPESIZE] *)
Definition full (q : pipe) : bool := pp_nwrite q =? u32 (pp_nread q + PIPESIZE).

(** [p->nread == p->nwrite] *)
Definition empty (q : pipe) : bool := pp_nread q =? pp_nwrite q.

(** [p->data[p->nwrite++ % PIPESIZE] = c] *)
Definition put_byte (c : Z) (q : pipe) : pipe :=
  set_pp_nwrite (u32 (pp_nwrite q + 1)) (set_pp_data (aset (pp_data q) (pp_nwrite q mod PIPESIZE) c) q).

(** [p->data[p->nread++ % PIPESIZE]] *)
Definition get_byte (q : pipe) : option Z := aget (pp_data q) (pp_nread q mod PIPESIZE).
Definition took (q : pipe) : pipe := set_pp_nread (u32 (pp_nread q + 1)) q.

Definition is_killed : M kst bool := p <- myproc ;; pr <- getp p ;; ret (negb (p_killed pr =? 0)).

Section Pipe.

(** First address after the kernel, and how often a process may be woken up in
    vain. *)
Variable kend : Z.
Variable waits : nat.

Definition pipeclose (p writable : Z) : M kst unit :=
  acquire (L_pipe p) ;;;
  (if negb (writable =? 0) then
     modpipe p (set_pp_writeopen 0) ;;;
     wakeup (CPipeRead p)
   else
     modpipe p (set_pp_readopen 0) ;;;
     wakeup (CPipeWrite p)) ;;;
  q <- getpipe p ;;
  if (pp_readopen q =? 0) && (pp_writeopen q =? 0) then
    release (L_pipe p) ;;;
    kfree kend p ;;;
    modfs (fun x => set_pipes (delete p (pipes x)) x)
  else release (L_pipe p).

(** Wait while the pipe is full; [false] when there is nobody left to read or
    the process has been killed. *)
Fixpoint pipewrite_wait (fuel : nat) (p : Z) : M kst bool :=
  q <- getpipe p ;;
  if full q then
    k <- is_killed ;;
    if (pp_readopen q =? 0) || k then
      release (L_pipe p) ;;;
      ret false
    else
    match fuel with
    | O => outoffuel
    | S fuel =>
        wakeup (CPipeRead p) ;;;
        sleep (CPipeWrite p) (Some (L_pipe p)) ;;;
        pipewrite_wait fuel p
    end
  else ret true.

(** [for(i = 0; i < n; i++)], with [k = n - i] rounds left. *)
Fixpoint pipewrite_loop (k : nat) (p addr : Z) : M kst bool :=
  match k with
  | O => ret true
  | S k =>
      b <- pipewrite_wait waits p ;;
      if negb b then ret false else
      c <- load8_va addr ;;
      modpipe p (put_byte c) ;;;
      pipewrite_loop k p (u32 (addr + 1))
  end.

Definition pipewrite (p addr n : Z) : M kst Z :=
  acquire (L_pipe p) ;;;
  b <- pipewrite_loop (Z.to_nat n) p addr ;;
  if negb b then ret (-1) else
  wakeup (CPipeRead p) ;;;
  release (L_pipe p) ;;;
  ret n.

(** Wait while the pipe is empty and somebody may write to it. *)
Fixpoint piperead_wait (fuel : nat) (p : Z) : M kst bool :=
  q <- getpipe p ;;
  if empty q && negb (pp_writeopen q =? 0) then
    k <- is_killed ;;
    if k then
      release (L_pipe p) ;;;
      ret false
    else
    match fuel with
    | O => outoffuel
    | S fuel =>
        sleep (CPipeRead p) (Some (L_pipe p)) ;;;
        piperead_wait fuel p
    end
  else ret true.

(** [for(i = 0; i < n; i++)], with [k = n - i] rounds left. *)
Fixpoint piperead_loop (k : nat) (p addr i : Z) : M kst Z :=
  match k with
  | O => ret i
  | S k =>
      q <- getpipe p ;;
      if empty q then ret i else
      c <- deref (get_byte q) ;;
      modpipe p took ;;;
      store8_va addr c ;;;
      piperead_loop k p (u32 (addr + 1)) (i + 1)
  end.

Definition piperead (p addr n : Z) : M kst Z :=
  acquire (L_pipe p) ;;;
  b <- piperead_wait waits p ;;
  if negb b then ret (-1) else
  i <- piperead_loop (Z.to_nat n) p addr 0 ;;
  wakeup (CPipeWrite p) ;;;
  release (L_pipe p) ;;;
  ret i.

End Pipe.
