(* ===== verification/PipeThm.v ===== *)
(** * A pipe is a bounded queue of bytes

    [pipewrite] and [piperead] of [pipe.c] against a queue: what is written goes
    to the end of the queue, what is read comes from its front. *)

From stdpp Require Import base list numbers strings tactics gmap.
From Stdlib Require Import Lia.
From S2P Require Import Prelude Params StringC FsState KState Spinlock Mmu Kalloc Sched Pipe.

Local Open Scope Z_scope.
Local Open Scope xv6_scope.

(** ** The ring *)

Definition byte_in (q : pipe) (i : nat) : Z := default 0 (pp_data q !! Z.to_nat ((pp_nread q + Z.of_nat i) mod PIPESIZE)).

(** The pipe [q] holds the bytes [c]. *)
Record holds_bytes (q : pipe) (c : list Z) : Prop := mkholds {
  hb_data : length (pp_data q) = Z.to_nat PIPESIZE;
  hb_nread : is_u32 (pp_nread q);
  hb_nwrite : pp_nwrite q = u32 (pp_nread q + Z.of_nat (length c));
  hb_room : Z.of_nat (length c) <= PIPESIZE;
  hb_bytes : forall i x, c !! i = Some x -> byte_in q i = x
}.

Lemma u32_mod_ring z : u32 z mod PIPESIZE = z mod PIPESIZE.
Proof. unfold u32, PIPESIZE. Z.div_mod_to_equations. lia. Qed.

Lemma full_iff q c : holds_bytes q c -> full q = (Z.of_nat (length c) =? PIPESIZE).
Proof.
  intros [_ H2 H3 H4 _]. unfold full. rewrite H3. unfold u32, PIPESIZE, is_u32 in *.
  destruct (Z.eqb_spec (Z.of_nat (length c)) 512) as [->|Hne]; [by rewrite Z.eqb_refl|].
  apply Z.eqb_neq. Z.div_mod_to_equations. lia.
Qed.

Lemma empty_iff q c : holds_bytes q c -> empty q = (Z.of_nat (length c) =? 0).
Proof.
  intros [_ H2 H3 H4 _]. unfold empty. rewrite H3. unfold u32, PIPESIZE, is_u32 in *.
  destruct (Z.eqb_spec (Z.of_nat (length c)) 0) as [->|Hne].
  - rewrite Z.add_0_r, Z.mod_small by lia. by rewrite Z.eqb_refl.
  - apply Z.eqb_neq. Z.div_mod_to_equations. lia.
Qed.

(** Two places of a ring that holds less than its size are different. *)
Lemma ring_ne a i j : 0 <= i -> i < j -> j < PIPESIZE -> (a + i) mod PIPESIZE <> (a + j) mod PIPESIZE.
Proof. unfold PIPESIZE. intros. Z.div_mod_to_equations. lia. Qed.

Lemma put_holds q c x :
  holds_bytes q c -> Z.of_nat (length c) < PIPESIZE -> holds_bytes (put_byte x q) (c ++ [x]).
Proof.
  intros [H1 H2 H3 H4 H5] Hr. unfold put_byte. split; simpl.
  - by rewrite length_aset.
  - done.
  - rewrite H3, length_app. simpl. unfold u32. rewrite Zplus_mod_idemp_l. f_equal. lia.
  - rewrite length_app. simpl. lia.
  - rewrite H3, u32_mod_ring. intros i y Hy. unfold byte_in. simpl.
    assert (Hm : forall z, 0 <= z mod PIPESIZE < PIPESIZE) by (intros z; apply Z.mod_pos_bound; done).
    unfold aset. rewrite (proj2 (Z.leb_le _ _)) by apply Hm.
    apply lookup_app_Some in Hy as [Hy|[Hi Hy]].
    + pose proof (lookup_lt_Some _ _ _ Hy). rewrite list_lookup_insert_ne; [by apply H5|].
      intros E. apply Z2Nat.inj in E; [|apply Hm..]. symmetry in E. by apply ring_ne in E; try lia.
    + apply list_lookup_singleton_Some in Hy as [Hi' <-]. replace i with (length c) by lia.
      rewrite list_lookup_insert_eq; [done|]. specialize (Hm (pp_nread q + Z.of_nat (length c))). lia.
Qed.

Lemma get_holds q c x : holds_bytes q (x :: c) -> get_byte q = Some x /\ holds_bytes (took q) c.
Proof.
  intros [H1 H2 H3 H4 H5]. assert (Hm : forall z, 0 <= z mod PIPESIZE < PIPESIZE) by (intros z; apply Z.mod_pos_bound; done).
  split.
  - unfold get_byte. apply aget_Some. split; [apply Hm|]. specialize (H5 0%nat x eq_refl). unfold byte_in in H5.
    rewrite Z.add_0_r in H5. destruct (lookup_lt_is_Some_2 (pp_data q) (Z.to_nat (pp_nread q mod PIPESIZE))) as [y Hy].
    + specialize (Hm (pp_nread q)). lia.
    + rewrite Hy in H5 |- *. simpl in H5. by subst.
  - unfold took. split; simpl in *; [done|apply u32_range| |lia|].
    + rewrite H3. unfold u32. rewrite Zplus_mod_idemp_l. f_equal. lia.
    + intros i y Hy. rewrite <- (H5 (S i) y Hy). unfold byte_in. simpl. do 3 f_equal.
      rewrite <- u32_mod_ring, u32_add_l, u32_mod_ring. f_equal. lia.
Qed.

(** ** The loops *)

Definition with_pipe (p : Z) (q : pipe) (s : kst) : kst := set_fs (set_pipes (<[p := q]> (pipes (fs s))) (fs s)) s.

Lemma with_pipe_twice p q q' s : with_pipe p q' (with_pipe p q s) = with_pipe p q' s.
Proof. unfold with_pipe. simpl. by rewrite insert_insert_eq. Qed.

Lemma with_pipe_same p q s : pipes (fs s) !! p = Some q -> with_pipe p q s = s.
Proof. intros H. unfold with_pipe. rewrite insert_id by done.
  replace (set_pipes (pipes (fs s)) (fs s)) with (fs s) by (by destruct (fs s)). by destruct s. Qed.

Lemma getpipe_ret s p q : pipes (fs s) !! p = Some q -> getpipe p s = Ret q s.
Proof. intros H. unfold getpipe, getfs. msimp. by rewrite H. Qed.

Lemma modpipe_ret s p q f : pipes (fs s) !! p = Some q -> modpipe p f s = Ret tt (with_pipe p (f q) s).
Proof.
  intros H. unfold modpipe. rstep (getpipe_ret _ _ _ H). unfold modfs, upd_pipe, with_pipe. msimp.
  assert (E : alter f p (pipes (fs s)) = <[p := f q]> (pipes (fs s)));
    [|exact (f_equal (fun t => Ret tt (set_fs (set_pipes t (fs s)) s)) E)]. apply map_eq. intros k. destruct (decide (k = p)) as [->|Hne].
  - by rewrite lookup_alter_eq, lookup_insert_eq, H.
  - by rewrite lookup_alter_ne, lookup_insert_ne.
Qed.

Definition puts (bs : list Z) (q : pipe) : pipe := foldl (fun q x => put_byte x q) q bs.

Lemma puts_holds bs q c :
  holds_bytes q c -> Z.of_nat (length c + length bs) <= PIPESIZE -> holds_bytes (puts bs q) (c ++ bs).
Proof.
  revert q c. induction bs as [|x bs IH]; intros q c Hq Hr; simpl in *; [by rewrite app_nil_r|].
  replace (c ++ x :: bs) with ((c ++ [x]) ++ bs) by by rewrite <- (assoc_L app).
  apply IH; [apply put_holds; [done|lia]|]. rewrite length_app. simpl. lia.
Qed.

Lemma pipewrite_loop_fits waits bs s p q c addr :
  pipes (fs s) !! p = Some q -> holds_bytes q c -> Z.of_nat (length c + length bs) <= PIPESIZE ->
  0 <= addr < 2 ^ 32 -> user_bytes s addr bs ->
  pipewrite_loop waits (length bs) p addr s = Ret true (with_pipe p (puts bs q) s).
Proof.
  revert s q c addr. induction bs as [|x bs IH]; intros s q c addr Hp Hq Hr Ha Hu; simpl in *.
  { by rewrite with_pipe_same. }
  assert (Hw : pipewrite_wait waits p s = Ret true s).
  { destruct waits; simpl; rstep (getpipe_ret _ _ _ Hp); rewrite (full_iff _ _ Hq), (proj2 (Z.eqb_neq _ _)) by lia; done. }
  rstep Hw. simpl. assert (Hx : load8_va addr s = Ret x s).
  { rewrite load8_va_peek. specialize (Hu 0%nat x eq_refl). rewrite Z.add_0_r, u32_small in Hu by done. by rewrite Hu. }
  rstep Hx. rstep (modpipe_ret _ _ _ (put_byte x) Hp).
  rewrite (IH _ (put_byte x q) (c ++ [x])); [by rewrite with_pipe_twice| | | |apply u32_range|].
  - simpl. by rewrite lookup_insert_eq.
  - apply put_holds; [done|lia].
  - rewrite length_app. simpl. lia.
  - by eapply user_bytes_next.
Qed.

(** The counters and bytes of a pipe may change, its ends do not. *)
Definition same_ends (q q' : pipe) : Prop := pp_readopen q' = pp_readopen q /\ pp_writeopen q' = pp_writeopen q.

#[local] Instance same_ends_preorder : PreOrder same_ends.
Proof. split; [done|]. intros a b d [] []. split; congruence. Qed.

Lemma piperead_loop_ok k s p q c addr ph n o i :
  pipes (fs s) !! p = Some q -> holds_bytes q c -> Forall (fun x => 0 <= x < 256) c ->
  user_buffer s addr n ph -> (o + k <= n)%nat ->
  let t := Nat.min k (length c) in
  exists m q', piperead_loop k p (u32 (addr + Z.of_nat o)) i s = Ret (i + Z.of_nat t) (with_pipe p q' (set_mem m s)) /\
    stored (mem s) m ph o (take t c) /\ holds_bytes q' (drop t c) /\ same_ends q q'.
Proof.
  revert s q c o i. induction k as [|k IH]; intros s q c o i Hp Hq Hb Hu Ho t; simpl in t.
  - exists (mem s), q. simpl. rewrite Z.add_0_r. split_and!; [|split; [by intros|done]|done|done].
    replace (set_mem (mem s) s) with s by (by destruct s). by rewrite with_pipe_same.
  - simpl. rstep (getpipe_ret s _ _ Hp). rewrite (empty_iff _ _ Hq). destruct c as [|x c].
    + simpl. exists (mem s), q. rewrite Z.add_0_r. split_and!; [|split; [by intros|done]|done|done].
      replace (set_mem (mem s) s) with s by (by destruct s). by rewrite with_pipe_same.
    + destruct (get_holds _ _ _ Hq) as [G1 G2]. rewrite (proj2 (Z.eqb_neq _ _)) by (simpl; lia).
      apply Forall_cons in Hb as [Hx Hb]. rewrite G1. msimp. rstep (modpipe_ret s _ _ took Hp).
      set (s1 := with_pipe p (took q) s). assert (Hu1 : user_buffer s1 addr n ph) by (destruct Hu as [U1 U2]; split; [exact U1|exact U2]).
      rstep (store8_buffer s1 addr n ph o x Hu1 ltac:(lia)). rewrite u8_small by done.
      set (s2 := set_mem _ s1). rewrite u32_add_l.
      replace (addr + Z.of_nat o + 1) with (addr + Z.of_nat (S o)) by lia.
      destruct (IH s2 (took q) c (S o) (i + 1)) as (m & q' & I1 & I2 & I3 & I4); [|done|done| |lia|].
      { simpl. by rewrite lookup_insert_eq. }
      { by apply user_buffer_store; [|lia]. }
      exists m, q'. split_and!; [|split|done|by destruct I4].
      * rewrite I1. f_equal; [unfold t; simpl; lia|]. unfold s2, s1, with_pipe. simpl. by rewrite insert_insert_eq.
      * unfold t. simpl. intros [|j] y Hy; simpl in Hy.
        -- injection Hy as <-. rewrite Nat.add_0_r. rewrite (st_else _ _ _ _ _ I2); [apply wr_eq|].
           intros j Hj E. apply (ub_inj _ _ _ _ Hu) in E; [lia|lia|]. rewrite length_take in Hj. lia.
        -- replace (o + S j)%nat with (S o + j)%nat by lia. by apply (st_bytes _ _ _ _ _ I2).
      * unfold t. simpl. intros y Hy. rewrite (st_else _ _ _ _ _ I2).
        -- simpl. apply wr_ne. specialize (Hy 0%nat ltac:(lia)). by rewrite Nat.add_0_r in Hy.
        -- intros j Hj. replace (S o + j)%nat with (o + S j)%nat by lia. apply Hy. lia.
Qed.

(** ** The system calls *)

(** The scheduler's queues are [mq] and no lock that a pipe needs is held. *)
Record pipe_ready (s : kst) (p : Z) (mq : list (list nat)) : Prop := mkready {
  pr_mlfq : mlfq s mq;
  pr_prio : prio_ok s;
  pr_procs : length (procs s) = Z.to_nat NPROC;
  pr_ptable : lk_free L_ptable (lks s);
  pr_lock : lk_free (L_pipe p) (lks s);
  pr_cli : cli_ok (lks s)
}.

(** The processes that sleep on [c] are woken up, each of them is in a queue, and the file
    system and memory apart nothing else changes. *)
Record only_wakes (c : chan) (mq : list (list nat)) (s s' : kst) : Prop := mkonly {
  ow_else : s' = set_fs (fs s') (set_mem (mem s') (set_lks (lks s') (set_procs (procs s') (set_mlf (mlf s') s))));
  ow_procs : same_procs (procs s') (woken c <$> procs s);
  ow_queues : mlfq s' (push_woken c (procs s) (seq 0 (Z.to_nat NPROC)) mq);
  ow_locks : lks_eq (lks s) (lks s')
}.

(** The wakeup and the release at the end of both calls. *)
Lemma wake_release f m s0 p mq c :
  pipe_ready s0 p mq ->
  exists s1 s2, wakeup c (set_fs f (set_mem m (set_lks (lk_acq (L_pipe p) (lks s0)) s0))) = Ret tt s1 /\
    release (L_pipe p) s1 = Ret tt s2 /\ only_wakes c mq s0 s2 /\ fs s2 = f /\ mem s2 = m.
Proof.
  intros [H1 H2 H3 H4 H5 H6]. set (s := set_fs f _).
  destruct (wakeup_ret c s mq) as (ps & ml & l & W1 & W2 & W3 & W4).
  - by apply (mlfq_ext _ s0).
  - exact H2.
  - exact H3.
  - by apply lk_acq_free.
  - by apply lk_acq_cli_ok.
  - destruct (release_ret (L_pipe p) (lks s0) (set_lks l (set_procs ps (set_mlf ml s))) W4 H5 H6) as [R1 R2].
    eexists _, _. split; [exact W1|]. split; [exact R1|]. split; [|by split].
    split; [by destruct s0|exact W3| |exact R2]. by eapply mlfq_ext, W2.
Qed.

Lemma pipewrite_ok waits bs s p q c addr mq :
  pipe_ready s p mq -> pipes (fs s) !! p = Some q -> holds_bytes q c -> Z.of_nat (length c + length bs) <= PIPESIZE ->
  0 <= addr < 2 ^ 32 -> user_bytes s addr bs ->
  exists s', pipewrite waits p addr (Z.of_nat (length bs)) s = Ret (Z.of_nat (length bs)) s' /\
    fs s' = set_pipes (<[p := puts bs q]> (pipes (fs s))) (fs s) /\ mem s' = mem s /\ only_wakes (CPipeRead p) mq s s'.
Proof.
  intros Hr Hp Hq Hn Ha Hu. unfold pipewrite. rstep (acquire_ret _ _ (pr_lock _ _ _ Hr)). set (s1 := set_lks _ s).
  rewrite Nat2Z.id. rstep (pipewrite_loop_fits waits bs s1 p q c addr Hp Hq Hn Ha Hu). cbn [negb].
  replace (with_pipe p _ s1) with (set_fs (set_pipes (<[p := puts bs q]> (pipes (fs s))) (fs s)) (set_mem (mem s) s1)) by (by destruct s).
  destruct (wake_release (set_pipes (<[p := puts bs q]> (pipes (fs s))) (fs s)) (mem s) s p mq (CPipeRead p) Hr) as (s3 & s4 & W0 & W1 & W2 & W3 & W4).
  rstep W0. rstep W1. exists s4. split_and!; [reflexivity|exact W3|exact W4|exact W2].
Qed.

Lemma piperead_wait_ready waits s p q c :
  pipes (fs s) !! p = Some q -> holds_bytes q c -> c <> [] \/ pp_writeopen q = 0 -> piperead_wait waits p s = Ret true s.
Proof.
  intros Hp Hq Hc. assert (E : empty q && negb (pp_writeopen q =? 0) = false).
  { rewrite (empty_iff _ _ Hq). destruct Hc as [Hc| ->]; [|apply andb_false_r]. destruct c; [done|].
    rewrite (proj2 (Z.eqb_neq _ _)) by (simpl; lia). done. }
  destruct waits; simpl; rstep (getpipe_ret _ _ _ Hp); by rewrite E.
Qed.

Lemma piperead_ok waits n s p q c addr ph mq :
  pipe_ready s p mq -> pipes (fs s) !! p = Some q -> holds_bytes q c -> Forall (fun x => 0 <= x < 256) c ->
  c <> [] \/ pp_writeopen q = 0 -> 0 <= addr < 2 ^ 32 -> user_buffer s addr n ph ->
  let t := Nat.min n (length c) in
  exists s' q', piperead waits p addr (Z.of_nat n) s = Ret (Z.of_nat t) s' /\
    stored (mem s) (mem s') ph 0 (take t c) /\
    fs s' = set_pipes (<[p := q']> (pipes (fs s))) (fs s) /\ holds_bytes q' (drop t c) /\ same_ends q q' /\
    only_wakes (CPipeWrite p) mq s s'.
Proof.
  intros Hr Hp Hq Hb Hc Ha Hu t. unfold piperead. rstep (acquire_ret _ _ (pr_lock _ _ _ Hr)). set (s1 := set_lks _ s).
  rstep (piperead_wait_ready waits s1 p q c Hp Hq Hc). cbn [negb]. rewrite Nat2Z.id.
  assert (Hu1 : user_buffer s1 addr n ph) by (destruct Hu as [U1 U2]; split; [exact U1|exact U2]).
  destruct (piperead_loop_ok n s1 p q c addr ph n 0 0 Hp Hq Hb Hu1 ltac:(done)) as (m & q' & L1 & L2 & L3 & L4).
  rewrite Z.add_0_r, (u32_small addr) in L1 by done. rewrite Z.add_0_l in L1. rstep L1.
  destruct (wake_release (set_pipes (<[p := q']> (pipes (fs s))) (fs s)) m s p mq (CPipeWrite p) Hr) as (s3 & s4 & W0 & W1 & W2 & W3 & W4).
  rstep W0. rstep W1. exists s4, q'. rewrite W4. split_and!; [reflexivity|exact L2|exact W3|exact L3|exact L4|exact W2].
Qed.

Lemma puts_ends bs q : same_ends q (puts bs q).
Proof. revert q. induction bs as [|x bs IH]; intros q; [done|]. etrans; [|apply IH]. done. Qed.

(** C18: a pipe is a queue of at most [PIPESIZE] bytes.  [pipewrite] of bytes that fit
    returns their number with the bytes of the user's buffer at the end of the queue, in
    order; [piperead] from a pipe that is not empty (or has no writer left) returns as
    many bytes as there are, at most the number asked for, and copies exactly those from
    the front of the queue to the user's buffer, in order.  The counters may wrap around.
    Both wake the processes that sleep at the other end of the pipe and leave the locks
    as they were; the ends of the pipe stay open or closed, the other pipes, the rest of
    the file system, the rest of memory, the other processes and the rest of the kernel
    stay as they were. *)
Theorem pipe_fifo waits s p q c mq addr :
  pipe_ready s p mq -> pipes (fs s) !! p = Some q -> holds_bytes q c -> 0 <= addr < 2 ^ 32 ->
  (forall bs, Z.of_nat (length c + length bs) <= PIPESIZE -> user_bytes s addr bs ->
   exists s' q', pipewrite waits p addr (Z.of_nat (length bs)) s = Ret (Z.of_nat (length bs)) s' /\
     fs s' = set_pipes (<[p := q']> (pipes (fs s))) (fs s) /\ holds_bytes q' (c ++ bs) /\ same_ends q q' /\
     mem s' = mem s /\ only_wakes (CPipeRead p) mq s s') /\
  (forall n ph, Forall (fun x => 0 <= x < 256) c -> c <> [] \/ pp_writeopen q = 0 -> user_buffer s addr n ph ->
   let t := Nat.min n (length c) in
   exists s' q', piperead waits p addr (Z.of_nat n) s = Ret (Z.of_nat t) s' /\
     fs s' = set_pipes (<[p := q']> (pipes (fs s))) (fs s) /\ holds_bytes q' (drop t c) /\ same_ends q q' /\
     stored (mem s) (mem s') ph 0 (take t c) /\ only_wakes (CPipeWrite p) mq s s').
Proof.
  intros Hr Hp Hq Ha. split.
  - intros bs Hn Hu. destruct (pipewrite_ok waits bs s p q c addr mq Hr Hp Hq Hn Ha Hu) as (s' & W1 & W2 & W3 & W4).
    exists s', (puts bs q). split_and!; [exact W1|exact W2|by apply puts_holds|apply puts_ends|exact W3|exact W4].
  - intros n ph Hb Hc Hu t.
    destruct (piperead_ok waits n s p q c addr ph mq Hr Hp Hq Hb Hc Ha Hu) as (s' & q' & R1 & R2 & R3 & R4 & R5 & R6).
    exists s', q'. split_and!; [exact R1|exact R3|exact R4|exact R5|exact R2|exact R6].
Qed.

(** A walk of the page tables. *)
Lemma translate_walk s va pde pte :
  va < KERNBASE -> load32 (mem s) (p2v (cr3 s) + 4 * PDX va) = pde -> bset pde PTE_P = true ->
  load32 (mem s) (p2v (PTE_ADDR pde) + 4 * PTX va) = pte -> bset pte PTE_P = true -> bset pte PTE_W = true ->
  translate s true va = Some (p2v (PTE_ADDR pte) + va mod PGSIZE).
Proof.
  intros Hva <- Hp <- Hq Hw. unfold translate, hw_pte. rewrite (proj2 (Z.leb_gt _ _)) by done. by rewrite Hp, Hq, Hw.
Qed.

(** A system with a pipe whose counters are about to wrap around, and one page of
    user memory. *)
Definition demo_pipe : pipe :=
  mkpipe ((fun i => if bool_decide (i = 510)%nat then 104 else if bool_decide (i = 511)%nat then 105 else 0) <$> seq 0 512)
    (2 ^ 32 - 2) 1 1 1.

Definition demo_mem : memory := store32 (store32 (fun _ => 0) 0x80400000 0x401007) 0x80401000 0x402007.

Definition demo_piped : kst :=
  set_fs (set_pipes {[0x80700000 := demo_pipe]} (fs demo)) (set_cr3 0x400000 (set_mem demo_mem demo)).

Lemma demo_piped_ready : pipe_ready demo_piped 0x80700000 [[]; [1; 2]; []; []]%nat.
Proof. split; [by apply (mlfq_ext _ demo), demo_ok|exact demo_prio|done|apply demo_locks|by vm_compute|apply demo_locks]. Qed.

Lemma demo_pipe_holds : holds_bytes demo_pipe [104; 105; 0].
Proof.
  split; [by vm_compute..|]. intros [|[|[|i]]] x Hx; simplify_eq/=; by vm_compute.
Qed.

Lemma demo_buffer s :
  cr3 s = 0x400000 -> mem s = demo_mem -> user_buffer s 16 2 (fun i => 0x80402010 + Z.of_nat i).
Proof.
  intros Hc Em. split; [intros; lia|]. intros m i Hm Hi. rewrite Em in Hm.
  assert (Hw : forall a, a + 4 <= 0x80402010 -> load32 m a = load32 demo_mem a).
  { intros a Ha. apply load32_ext. intros x Hx. destruct (decide (m x = demo_mem x)) as [|Hne]; [done|].
    destruct (Hm x Hne) as (j & _ & ->). lia. }
  assert (E1 : load32 m 0x80400000 = 0x401007) by (rewrite Hw by lia; by vm_compute).
  assert (E2 : load32 m 0x80401000 = 0x402007) by (rewrite Hw by lia; by vm_compute).
  assert (Ec : p2v (cr3 (set_mem m s)) = 0x80400000) by (simpl; rewrite Hc; reflexivity).
  destruct i as [|[|]]; [..|lia]; (erewrite (translate_walk _ _ 0x401007 0x402007);
    [by vm_compute|done|rewrite Ec; exact E1|done|exact E2|done|done]).
Qed.

Lemma pipe_fifo_witness :
  exists s' q', piperead 0 0x80700000 16 2 demo_piped = Ret 2 s' /\
    fs s' = set_pipes (<[0x80700000 := q']> (pipes (fs demo_piped))) (fs demo_piped) /\ holds_bytes q' [0] /\
    stored (mem demo_piped) (mem s') (fun i => 0x80402010 + Z.of_nat i) 0 [104; 105].
Proof.
  destruct (proj2 (pipe_fifo 0 demo_piped 0x80700000 demo_pipe [104; 105; 0] _ 16 demo_piped_ready eq_refl demo_pipe_holds ltac:(lia))
    2%nat _ ltac:(repeat constructor; lia) ltac:(by left) (demo_buffer demo_piped eq_refl eq_refl)) as (s' & q' & H1 & H2 & H3 & _ & H4 & _).
  exists s', q'. split_and!; [exact H1|exact H2|exact H3|exact H4].
Defined.
