(* ===== verification/ConsoleIn.v ===== *)
(** * Console input

    The line editing of [console.c], reads from and writes to the console as a
    device, and the keyboard driver of [kbd.c].  [input.r], [input.w] and
    [input.e] are 32-bit counters that wrap around. *)

From stdpp Require Import base list numbers strings tactics gmap.
From Stdlib Require Import Lia.
From S2P Require Import Prelude Params StringC FsState KState Spinlock Mmu Sched Bio Log Fs Pipe Console.

Local Open Scope Z_scope.
Local Open Scope xv6_scope.

(** [C(x)], Control-x *)
Definition Ctl (x : Z) : Z := x - 64.
Definition C_P : Z := Ctl 80.
Definition C_U : Z := Ctl 85.
Definition C_H : Z := Ctl 72.
Definition C_D : Z := Ctl 68.
Definition DEL : Z := 0x7f.
Definition CR : Z := 13.

Definition modin (f : inputst -> inputst) : M kst unit := modfs (fun x => set_input (f (input x)) x).

(** The character at counter [i] of the ring. *)
Definition in_at (x : inputst) (i : Z) : Z := default 0 (aget (in_buf x) (u32 i mod INPUT_BUF)).

(** [input.e--] *)
Definition back (x : inputst) : inputst := set_in_e (u32 (in_e x - 1)) x.

(** Kill line; at most [e - w] rounds. *)
Fixpoint kill_line (n : nat) : M kst unit :=
  x <- getfs input ;;
  if negb (in_e x =? in_w x) && negb (in_at x (in_e x - 1) =? NEWLINE) then
    match n with
    | O => outoffuel
    | S n =>
        modin back ;;;
        consputc BACKSPACE ;;;
        kill_line n
    end
  else ret tt.

(** [input.buf[input.e++ % INPUT_BUF] = c] *)
Definition add_char (c : Z) (x : inputst) : inputst :=
  set_in_e (u32 (in_e x + 1)) (set_in_buf (aset (in_buf x) (in_e x mod INPUT_BUF) c) x).

(** One character of the loop of [consoleintr]. *)
Definition consolechar (c : Z) : M kst unit :=
  if c =? C_P then procdump
  else if c =? C_U then
    x <- getfs input ;;
    kill_line (Z.to_nat (u32 (in_e x - in_w x)))
  else if (c =? C_H) || (c =? DEL) then
    x <- getfs input ;;
    if negb (in_e x =? in_w x) then
      modin back ;;;
      consputc BACKSPACE
    else ret tt
  else
    x <- getfs input ;;
    if negb (c =? 0) && (u32 (in_e x - in_r x) <? INPUT_BUF) then
      let c := if c =? CR then NEWLINE else c in
      modin (add_char c) ;;;
      consputc c ;;;
      x <- getfs input ;;
      if (c =? NEWLINE) || (c =? C_D) || (in_e x =? u32 (in_r x + INPUT_BUF)) then
        modin (fun x => set_in_w (in_e x) x) ;;;
        wakeup CInput
      else ret tt
    else ret tt.

(** [while((c = getc()) >= 0)]; a device has at most [n] characters. *)
Fixpoint consoleintr_loop (n : nat) (getc : M kst Z) : M kst unit :=
  c <- getc ;;
  if c <? 0 then ret tt else
  match n with
  | O => outoffuel
  | S n => consolechar c ;;; consoleintr_loop n getc
  end.

Definition consoleintr (n : nat) (getc : M kst Z) : M kst unit :=
  acquire L_input ;;;
  consoleintr_loop n getc ;;;
  release L_input.

Section Device.
Context `{Disk}.

(** Wait for a line; [false] when the process has been killed. *)
Fixpoint input_wait (fuel : nat) : M kst bool :=
  x <- getfs input ;;
  if in_r x =? in_w x then
    k <- is_killed ;;
    if k then ret false else
    match fuel with
    | O => outoffuel
    | S fuel => sleep CInput (Some L_input) ;;; input_wait fuel
    end
  else ret true.

(** [while(n > 0)]: the bytes read, [None] when killed. *)
Fixpoint consoleread_loop (n : nat) (dst : dest) (acc : list Z) : M kst (option (list Z)) :=
  match n with
  | O => ret (Some acc)
  | S n =>
      b <- input_wait waits ;;
      if negb b then ret None else
      x <- getfs input ;;
      let c := in_at x (in_r x) in
      modin (fun x => set_in_r (u32 (in_r x + 1)) x) ;;;
      if c =? C_D then
        (if bool_decide (acc = []) then ret tt
         else modin (fun x => set_in_r (u32 (in_r x - 1)) x)) ;;;
        ret (Some acc)
      else
      put_dest dst [c] ;;;
      if c =? NEWLINE then ret (Some (acc ++ [c]))
      else consoleread_loop n (dest_add dst 1) (acc ++ [c])
  end.

Definition consoleread (ip : nat) (dst : dest) (n : Z) : M kst (Z * list Z) :=
  iunlock (Some ip) ;;;
  acquire L_input ;;;
  o <- consoleread_loop (Z.to_nat n) dst [] ;;
  release L_input ;;;
  ilock (Some ip) ;;;
  match o with
  | None => ret (-1, [])
  | Some l => ret (Z.of_nat (length l), l)
  end.

Fixpoint consolewrite_loop (k : nat) (src : source) : M kst unit :=
  match k with
  | O => ret tt
  | S k =>
      l <- get_source src 1 ;;
      consputs l ;;;
      consolewrite_loop k (source_add src 1)
  end.

Definition consolewrite (ip : nat) (src : source) (n : Z) : M kst Z :=
  iunlock (Some ip) ;;;
  acquire L_cons ;;;
  consolewrite_loop (Z.to_nat n) src ;;;
  release L_cons ;;;
  ilock (Some ip) ;;;
  ret n.

(** [consoleinit] makes the console device number [CONSOLE]. *)
#[export] Instance ConsoleDev : Devsw := {|
  dev_read := fun major => if major =? CONSOLE then Some consoleread else None;
  dev_write := fun major => if major =? CONSOLE then Some consolewrite else None
|}.

Definition consoleinit : M kst unit :=
  onlks (initlock L_cons "console") ;;;
  onlks (initlock L_input "input") ;;;
  modfs (set_cons_locking 1).

End Device.
