(* ===== verification/ConsoleThm.v ===== *)
(** * The console: numbers, screen and line discipline

    Theorems about [console.c]: what [printint] prints reads back as the number,
    output never leaves the memory of the screen, and the interrupt handler
    implements a line discipline on the bytes between the counters [r], [w] and
    [e] of its ring buffer. *)

From stdpp Require Import base list numbers strings tactics gmap.
From Stdlib Require Import Lia.
From S2P Require Import Prelude Params StringC FsState KState Spinlock Mmu Sched Runs Bio Console ConsoleIn.

Local Open Scope Z_scope.
Local Open Scope xv6_scope.

(** ** Numbers *)

(** The value of a digit, and of a numeral in [base] with an optional sign. *)
Definition char_digit (c : Z) : Z := if c <? 58 then c - 48 else c - 87.

Definition numeral (base : Z) (l : list Z) : Z := foldl (fun v c => v * base + char_digit c) 0 l.

Definition read_int (base : Z) (l : list Z) : Z :=
  match l with
  | c :: l' => if c =? MINUS then - numeral base l' else numeral base l
  | [] => 0
  end.

Lemma char_digit_char d : 0 <= d < 16 -> char_digit (digit_char d) = d.
Proof.
  intros Hd. assert (H : forallb (fun d => char_digit (digit_char d) =? d) (seqZ 0 16) = true) by reflexivity.
  rewrite forallb_forall in H. apply Z.eqb_eq, H, list_elem_of_In, elem_of_seqZ. lia.
Qed.

Lemma digit_char_nominus d : 0 <= d < 16 -> digit_char d <> MINUS.
Proof.
  intros Hd. assert (H : forallb (fun d => negb (digit_char d =? MINUS)) (seqZ 0 16) = true) by reflexivity.
  rewrite forallb_forall in H. specialize (H d). rewrite <- list_elem_of_In, elem_of_seqZ in H.
  specialize (H ltac:(lia)). by apply negb_true_iff, Z.eqb_neq in H.
Qed.

Definition value (base : Z) (ds : list Z) : Z := foldr (fun d v => d + base * v) 0 ds.

Lemma digits_ok fuel x base :
  1 < base <= 16 -> 0 <= x < base ^ Z.of_nat fuel ->
  (0 < fuel)%nat ->
  value base (digits fuel x base) = x /\ Forall (fun d => 0 <= d < 16) (digits fuel x base) /\
  digits fuel x base <> [].
Proof.
  intros Hb. revert x. induction fuel as [|fuel IH]; intros x Hx Hf; [lia|]. simpl.
  pose proof (Z.mod_pos_bound x base ltac:(lia)). pose proof (Z.div_mod x base ltac:(lia)).
  destruct (Z.eqb_spec (x / base) 0) as [E|E].
  - simpl. split_and!; [lia|repeat constructor; lia|done].
  - assert (Hd : 0 <= x / base < base ^ Z.of_nat fuel).
    { split; [apply Z.div_pos; lia|]. apply Z.div_lt_upper_bound; [lia|].
      replace (base * base ^ Z.of_nat fuel) with (base ^ Z.of_nat (S fuel)); [lia|].
      rewrite Nat2Z.inj_succ, Z.pow_succ_r by lia. done. }
    assert (Hf' : (0 < fuel)%nat).
    { destruct fuel; [|lia]. simpl in Hd. lia. }
    destruct (IH (x / base) Hd Hf') as (H1 & H2 & _). split_and!; [|constructor; [lia|done]|done].
    cbn [value foldr]. fold (value base (digits fuel (x / base) base)). lia.
Qed.

Lemma digits_length fuel x base :
  1 < base -> 0 <= x < base ^ Z.of_nat fuel -> forall f, (fuel <= f)%nat -> (0 < fuel)%nat ->
  (length (digits f x base) <= fuel)%nat.
Proof.
  intros Hb. revert x. induction fuel as [|fuel IH]; intros x Hx f Hf H0; [lia|].
  destruct f as [|f]; [lia|]. simpl. destruct (Z.eqb_spec (x / base) 0) as [E|E]; simpl; [lia|].
  assert (Hd : 0 <= x / base < base ^ Z.of_nat fuel).
  { split; [apply Z.div_pos; lia|]. apply Z.div_lt_upper_bound; [lia|].
    rewrite <- Z.pow_succ_r, <- Nat2Z.inj_succ by lia. lia. }
  assert (0 < fuel)%nat by (destruct fuel; [simpl in Hd; lia|lia]).
  specialize (IH (x / base) Hd f ltac:(lia) ltac:(lia)). lia.
Qed.

Lemma numeral_digits base ds :
  Forall (fun d => 0 <= d < 16) ds -> numeral base (rev (digit_char <$> ds)) = value base ds.
Proof.
  intros H. unfold numeral. induction H as [|d ds Hd _ IH]; [done|].
  rewrite fmap_cons. simpl. rewrite foldl_app, IH. simpl. rewrite char_digit_char by done. lia.
Qed.

Lemma DIGITS_32 : DIGITS = 32%nat.
Proof. reflexivity. Qed.

#[local] Opaque DIGITS.

Lemma printint_value base x (neg : bool) :
  1 < base <= 16 -> 0 <= x < 2 ^ 32 -> base ^ 10 >= 2 ^ 32 ->
  let l := rev ((digit_char <$> digits DIGITS x base) ++ if neg then [MINUS] else []) in
  read_int base l = (if neg then - x else x) /\ (0 < length l <= 11)%nat.
Proof.
  intros Hb Hx Hp l.
  assert (base ^ 10 <= base ^ Z.of_nat DIGITS) by (apply Z.pow_le_mono_r; rewrite ?DIGITS_32; lia).
  destruct (digits_ok DIGITS x base Hb ltac:(lia) ltac:(rewrite DIGITS_32; lia)) as (H1 & H2 & H3).
  pose proof (digits_length 10 x base ltac:(lia) ltac:(lia) DIGITS ltac:(rewrite DIGITS_32; lia) ltac:(lia)) as H4.
  pose proof (numeral_digits base _ H2) as H5. rewrite H1 in H5. unfold l. clear l. split.
  - destruct neg; [rewrite rev_app_distr; simpl; by rewrite H5|]. rewrite app_nil_r.
    destruct (rev (digit_char <$> digits DIGITS x base)) as [|c l] eqn:E; simpl; [by rewrite <- H5|].
    destruct (Z.eqb_spec c MINUS) as [->|]; [|done].
    assert (Hin : MINUS ∈ digit_char <$> digits DIGITS x base).
    { apply list_elem_of_In, in_rev. rewrite E. by left. }
    apply list_elem_of_fmap in Hin as (d & Ed & Hd). rewrite Forall_forall in H2.
    by destruct (digit_char_nominus d (H2 d Hd)).
  - rewrite length_rev, length_app, length_fmap. destruct (digits DIGITS x base); [done|].
    destruct neg; simpl in *; lia.
Qed.

(** [printint] prints numbers that read back as the value: a signed
    decimal numeral for every [int], the smallest one included, an unsigned
    hexadecimal one for every [uint], and never more characters than its buffer
    of 16 holds. *)
Lemma printint_roundtrip z :
  (is_s32 z -> read_int 10 (printint z 10 true) = z) /\
  (is_u32 z -> read_int 16 (printint z 16 false) = z) /\
  (is_s32 z \/ is_u32 z -> (0 < length (printint z 10 true) <= 16)%nat /\ (0 < length (printint z 16 false) <= 16)%nat).
Proof.
  unfold is_s32, is_u32, printint. cbn [andb]. split_and!.
  - intros Hz. destruct (Z.ltb_spec z 0);
      (destruct (printint_value 10 (u32 (if z <? 0 then - z else z)) (z <? 0)) as [E _]; [lia|apply u32_range|lia|]);
      rewrite ?(proj2 (Z.ltb_lt z 0)), ?(proj2 (Z.ltb_ge z 0)) in E by lia;
      rewrite E, u32_small by (unfold is_u32; lia); lia.
  - intros Hz. destruct (printint_value 16 (u32 z) false) as [E _]; [lia|apply u32_range|lia|].
    by rewrite E, u32_small.
  - intros _. destruct (printint_value 16 (u32 z) false) as [_ E]; [lia|apply u32_range|lia|].
    destruct (printint_value 10 (u32 (if z <? 0 then - z else z)) (z <? 0)) as [_ E']; [lia|apply u32_range|lia|].
    split; [|lia]. destruct (z <? 0); lia.
Qed.

#[local] Transparent DIGITS.

(** ** The screen *)

(** The cursor is in the first 24 rows, the memory has 25. *)
Definition cga_ok (s : cga) : Prop := 0 <= pos s < 24 * 80 /\ length (crt s) = Z.to_nat CRTSIZE.

Lemma crt_set_ok i x s :
  0 <= i < CRTSIZE -> length (crt s) = Z.to_nat CRTSIZE ->
  exists s', crt_set i x s = Some s' /\ pos s' = pos s /\ length (crt s') = Z.to_nat CRTSIZE.
Proof.
  intros Hi Hl. unfold crt_set. rewrite (proj2 (Z.leb_le _ _)), (proj2 (Z.ltb_lt _ _)) by lia. simpl.
  eexists. split; [reflexivity|]. simpl. by rewrite length_aset.
Qed.

Lemma scroll_ok s :
  pos s = 24 * 80 -> length (crt s) = Z.to_nat CRTSIZE ->
  exists s', scroll s = Some s' /\ pos s' = 23 * 80 /\ length (crt s') = Z.to_nat CRTSIZE.
Proof.
  intros Hp Hl. unfold scroll, CRTSIZE in *. rewrite Hp. eexists. split; [reflexivity|].
  cbn [pos crt]. split; [lia|].
  repeat (rewrite ?length_app, ?length_take, ?length_drop, ?length_replicate). lia.
Qed.

Lemma cgaputc_ok c s : cga_ok s -> exists s', cgaputc c s = Some s' /\ cga_ok s'.
Proof.
  intros [Hp Hl]. unfold cgaputc.
  assert (H : exists s1, (if c =? NEWLINE then Some (mkcga (pos s + (80 - pos s mod 80)) (crt s))
       else if c =? BACKSPACE then Some (if 0 <? pos s then mkcga (pos s - 1) (crt s) else s)
       else s' ← crt_set (pos s) (Z.lor (Z.land c 0xff) 0x0700) s; Some (mkcga (pos s + 1) (crt s'))) = Some s1 /\
     0 <= pos s1 <= 24 * 80 /\ length (crt s1) = Z.to_nat CRTSIZE).
  { destruct (c =? NEWLINE).
    - eexists. split; [reflexivity|]. simpl. split; [|done]. Z.div_mod_to_equations. lia.
    - destruct (c =? BACKSPACE).
      + eexists. split; [reflexivity|]. destruct (Z.ltb_spec 0 (pos s)); simpl; split; lia || done.
      + destruct (crt_set_ok (pos s) (Z.lor (Z.land c 0xff) 0x0700) s) as (s' & -> & _ & E); [unfold CRTSIZE; lia|done|].
        simpl. eexists. split; [reflexivity|]. simpl. split; [lia|done]. }
  destruct H as (s1 & -> & Hp1 & Hl1). cbn [mbind option_bind].
  assert (H : exists s2, (if 24 <=? pos s1 / 80 then scroll s1 else Some s1) = Some s2 /\
    0 <= pos s2 < 24 * 80 /\ length (crt s2) = Z.to_nat CRTSIZE).
  { destruct (Z.leb_spec 24 (pos s1 / 80)) as [H|H].
    - assert (pos s1 = 24 * 80) by (Z.div_mod_to_equations; lia).
      destruct (scroll_ok s1) as (s2 & -> & E1 & E2); [done..|]. exists s2. rewrite E1. split_and!; [done|lia..|done].
    - exists s1. split_and!; [done|lia|Z.div_mod_to_equations; lia|done]. }
  destruct H as (s2 & -> & Hp2 & Hl2). cbn [mbind option_bind].
  destruct (crt_set_ok (pos s2) (Z.lor 32 0x0700) s2) as (s3 & -> & E & E'); [unfold CRTSIZE; lia|done|].
  exists s3. split; [done|]. unfold cga_ok. rewrite E. done.
Qed.

Definition screen_ok (x : fsst) : Prop := cga_ok (mkcga (cga_pos x) (cga_crt x)).

(** What goes to the serial line, when there is one. *)
Definition serial (x : fsst) (l : list Z) : list Z :=
  if uart x =? 0 then [] else
  l ≫= fun c => if c =? BACKSPACE then [8; 32; 8] else [u8 c].

(** The characters [l] have been shown; nothing else changes. *)
Definition shown (l : list Z) (x x' : fsst) : Prop :=
  screen_ok x' /\
  x' = set_cga_crt (cga_crt x') (set_cga_pos (cga_pos x') (set_tty (tty x ++ serial x l) x)).

Lemma shown_nil x : screen_ok x -> shown [] x x.
Proof. intros H. split; [done|]. unfold serial. simpl. destruct x, (_ =? 0); simpl; by rewrite app_nil_r. Qed.

Lemma shown_app l l' x x' x'' : shown l x x' -> shown l' x' x'' -> shown (l ++ l') x x''.
Proof.
  intros [H1 E1] [H2 E2]. split; [done|]. rewrite E2, E1. destruct x. unfold serial. simpl.
  destruct (_ =? 0); simpl; [by rewrite !app_nil_r|]. by rewrite bind_app, <- app_assoc.
Qed.

Section Output.
Context {h : list lockid} {c : fsst -> Prop}.

Lemma uartputc_triple ch x (q : unit -> fsst -> Prop) :
  q tt (set_tty (tty x ++ if uart x =? 0 then [] else [u8 ch]) x) -> triple h c (uartputc ch) h x q.
Proof.
  intros Hq. unfold uartputc. tstep. destruct (uart x =? 0); tstep; [|done].
  rewrite app_nil_r in Hq. by destruct x.
Qed.

Lemma consputc_triple ch x (q : unit -> fsst -> Prop) :
  screen_ok x -> (forall x', shown [ch] x x' -> q tt x') -> triple h c (consputc ch) h x q.
Proof.
  intros Hx Hq. unfold consputc.
  set (x1 := set_tty (tty x ++ serial x [ch]) x).
  eapply triple_bind with (q' := fun _ x' => x' = x1).
  - unfold x1, serial. simpl. destruct (ch =? BACKSPACE).
    + eapply triple_step, uartputc_triple. eapply triple_step, uartputc_triple. apply uartputc_triple.
      simpl. destruct x, (_ =? 0); simpl; by rewrite ?app_nil_r, <- ?app_assoc.
    + apply uartputc_triple. by destruct (_ =? 0).
  - intros _ ? ->. tstep. destruct (cgaputc_ok ch (mkcga (cga_pos x1) (cga_crt x1))) as (s & E & Hs); [exact Hx|].
    tstep; [exact E|]. tstep. apply Hq. split; [by destruct s|]. by destruct x.
Qed.

Lemma consputs_triple l x (q : unit -> fsst -> Prop) :
  screen_ok x -> (forall x', shown l x x' -> q tt x') -> triple h c (consputs l) h x q.
Proof.
  revert x q. induction l as [|ch l IH]; intros x q Hx Hq; simpl.
  - tstep. by apply Hq, shown_nil.
  - eapply triple_step, consputc_triple; [done|]. intros x1 H1. apply IH; [apply H1|].
    intros x2 H2. apply Hq. by apply (shown_app [ch] l x x1).
Qed.
End Output.

Section Printing.
Context {h : list lockid} {c : fsst -> Prop}.

Lemma cprintf_triple fmt args l x (q : unit -> fsst -> Prop) :
  L_cons ∉ h -> screen_ok x -> cformat (chars fmt) args = Some l -> (forall x', shown l x x' -> q tt x') ->
  triple h c (cprintf fmt args) h x q.
Proof.
  intros Hl Hx Hf Hq. unfold cprintf. tstep. destruct (negb (cons_locking x =? 0)); simpl.
  - tstep. tstep; [exact Hf|]. eapply triple_step, consputs_triple; [done|].
    intros x' H'. apply triple_release; [done|by apply Hq].
  - tstep. tstep; [exact Hf|]. eapply triple_step, consputs_triple; [done|]. intros x' H'. tstep. by apply Hq.
Qed.

(** Without the lock, when [panic] has turned it off. *)
Lemma cprintf_unlocked fmt args l x (q : unit -> fsst -> Prop) :
  cons_locking x = 0 -> screen_ok x -> cformat (chars fmt) args = Some l -> (forall x', shown l x x' -> q tt x') ->
  triple h c (cprintf fmt args) h x q.
Proof.
  intros Hl Hx Hf Hq. unfold cprintf. tstep. rewrite Hl. simpl.
  tstep. tstep; [exact Hf|]. eapply triple_step, consputs_triple; [done|]. intros x' H'. tstep. by apply Hq.
Qed.

(** Something has been shown. *)
Definition displayed (x x' : fsst) : Prop := exists l, shown l x x'.

Lemma displayed_trans x x' x'' : displayed x x' -> displayed x' x'' -> displayed x x''.
Proof. intros [l H] [l' H']. exists (l ++ l'). by eapply shown_app. Qed.

Lemma print_pcs_triple pcs x (q : unit -> fsst -> Prop) :
  L_cons ∉ h -> screen_ok x -> (forall x', displayed x x' -> q tt x') -> triple h c (print_pcs pcs) h x q.
Proof.
  intros Hl. revert x q. induction pcs as [|pc pcs IH]; intros x q Hx Hq; cbn [print_pcs].
  - tstep. apply Hq. exists []. by apply shown_nil.
  - destruct (pc =? 0); [tstep; apply Hq; exists []; by apply shown_nil|].
    eapply triple_step, cprintf_triple; [done|done|reflexivity|]. intros x1 H1.
    apply IH; [apply H1|]. intros x2 H2. apply Hq. eapply displayed_trans; [by eexists|done].
Qed.

Lemma triple_getp_bind {B} p (f : proc -> M kst B) x (q : B -> fsst -> Prop) :
  (p < Z.to_nat NPROC)%nat -> (forall pr, triple h c (f pr) h x q) -> triple h c (bind (getp p) f) h x q.
Proof.
  intros Hp Hf s Hs Hx. apply wp_bind. unfold getp.
  destruct (lookup_lt_is_Some_2 (procs s) p) as [pr Hpr]; [by rewrite (sys_len _ _ Hs)|].
  unfold bind, gets. simpl. rewrite Hpr. simpl. by apply Hf.
Qed.

Lemma triple_gets_bind {A B} (g : kst -> A) (f : A -> M kst B) x (q : B -> fsst -> Prop) :
  (forall a, triple h c (f a) h x q) -> triple h c (bind (gets g) f) h x q.
Proof. intros Hf s Hs Hx. by apply Hf. Qed.

(** The list of return addresses. *)
Definition pcs_text (pcs : list Z) : list Z := concat ((fun pc => 32 :: printint pc 16 false) <$> pcs).

Lemma shown_locking l x x' : shown l x x' -> cons_locking x' = cons_locking x.
Proof. intros [_ ->]. by destruct x. Qed.

Lemma print_all_pcs_triple pcs x (q : unit -> fsst -> Prop) :
  cons_locking x = 0 -> screen_ok x -> (forall x', shown (pcs_text pcs) x x' -> q tt x') ->
  triple h c (print_all_pcs pcs) h x q.
Proof.
  revert x q. induction pcs as [|pc pcs IH]; intros x q Hl Hx Hq; cbn [print_all_pcs].
  - tstep. apply Hq. by apply shown_nil.
  - eapply triple_step, cprintf_unlocked; [done|done|reflexivity|]. intros x1 H1.
    apply IH; [by rewrite (shown_locking _ _ _ H1)|apply H1|]. intros x2 H2. apply Hq.
    eapply shown_app in H2; [|exact H1]. by rewrite app_nil_r in H2.
Qed.

Lemma callerpcs_length n m ebp : length (callerpcs n m ebp) = n.
Proof. revert ebp. induction n as [|n IH]; intros ebp; [done|]. simpl. destruct (_ || _); simpl; [by rewrite length_replicate|by rewrite IH]. Qed.

(** [panic] gets its message out whatever locks are held, that of the console among them:
    the number of the CPU, the message and ten return addresses. *)
Theorem panic_report_shown id s v t x :
  screen_ok x -> cformat (chars s) [] = Some t ->
  triple h c (panic_report id s v) h x (fun _ x' => exists pcs, length pcs = 10%nat /\
    shown ((chars "cpu" ++ printint id 10 true ++ chars ": panic: ") ++ t ++ [NEWLINE] ++ pcs_text pcs) (set_cons_locking 0 x) x').
Proof.
  intros Hx Hf. unfold panic_report. tstep.
  assert (Hx0 : screen_ok (set_cons_locking 0 x)) by (by destruct x).
  assert (Hl0 : cons_locking (set_cons_locking 0 x) = 0) by (by destruct x).
  eapply triple_step, cprintf_unlocked; [done|done|reflexivity|]. intros x1 H1.
  assert (Hl1 := shown_locking _ _ _ H1). rewrite Hl0 in Hl1.
  eapply triple_step, cprintf_unlocked; [done|apply H1|exact Hf|]. intros x2 H2.
  assert (Hl2 := shown_locking _ _ _ H2). rewrite Hl1 in Hl2.
  eapply triple_step, cprintf_unlocked; [done|apply H2|reflexivity|]. intros x3 H3.
  assert (Hl3 := shown_locking _ _ _ H3). rewrite Hl2 in Hl3.
  apply triple_gets_bind. intros m. apply print_all_pcs_triple; [done|apply H3|]. intros x4 H4.
  exists (getcallerpcs m v). split; [apply callerpcs_length|].
  eapply shown_app; [exact H1|]. eapply shown_app; [exact H2|]. by eapply shown_app; [exact H3|].
Qed.

Lemma procdump_loop_triple ps x (q : unit -> fsst -> Prop) :
  L_cons ∉ h -> Forall (fun p => (p < Z.to_nat NPROC)%nat) ps -> screen_ok x ->
  (forall x', displayed x x' -> q tt x') -> triple h c (procdump_loop ps) h x q.
Proof.
  intros Hl Hps. revert x q. induction Hps as [|p ps Hp _ IH]; intros x q Hx Hq; cbn [procdump_loop].
  { tstep. apply Hq. exists []. by apply shown_nil. }
  apply triple_getp_bind; [done|]. intros pr.
  assert (Hrest : forall x1, displayed x x1 -> triple h c (procdump_loop ps) h x1 q).
  { intros x1 H1. apply IH; [by destruct H1 as [? []]|]. intros x2 H2. apply Hq. by eapply displayed_trans. }
  case_bool_decide; [tstep; apply Hrest; exists []; by apply shown_nil|].
  tstep. eapply triple_step, cprintf_triple; [done|done|reflexivity|]. intros x1 H1. tstep.
  assert (Hnl : forall x2, displayed x x2 -> triple h c (cprintf newline [] ;;; procdump_loop ps) h x2 q).
  { intros x2 H2. eapply triple_step, cprintf_triple; [done|by destruct H2 as [? []]|reflexivity|].
    intros x3 H3. apply Hrest. eapply displayed_trans; [done|by eexists]. }
  assert (D1 : displayed x x1) by (by eexists).
  case_bool_decide; [|tstep; by apply Hnl]. tstep. apply triple_gets_bind. intros m.
  eapply triple_step, print_pcs_triple; [done|by apply H1|]. intros x2 H2. apply Hnl. by eapply displayed_trans.
Qed.

Lemma procdump_triple x (q : unit -> fsst -> Prop) :
  L_cons ∉ h -> screen_ok x -> (forall x', displayed x x' -> q tt x') -> triple h c procdump h x q.
Proof.
  intros Hl Hx Hq. apply procdump_loop_triple; [done| |done..].
  apply Forall_forall. intros p Hp. apply elem_of_seq in Hp. lia.
Qed.
End Printing.

(** Printing keeps the cursor in the first 24 rows and never writes outside
    the memory of the screen, whatever is printed: scrolling, newlines and
    backspaces at the edges included.  The text of the call goes to the serial
    line, and the console lock is free again afterwards. *)
Theorem cprintf_shows fmt args l s :
  sys [] s -> screen_ok (fs s) -> cformat (chars fmt) args = Some l ->
  wp (fun _ => False) (cprintf fmt args s) (fun _ s' =>
    shown l (fs s) (fs s') /\ sys [] s' /\ frame s s').
Proof.
  intros Hs Hx Hf. eapply wp_mono.
  - apply (cprintf_triple (h := []) (c := fun _ => False) fmt args l (fs s) (fun _ x' => shown l (fs s) x'));
      [set_solver|done|done|done|exact Hs|done].
  - done.
  - intros _ s' (Hs' & Hfr & H). by split_and!.
Qed.

(** A cursor at the end of the last row. *)
Definition demo_screen : kst :=
  set_fs (set_uart 1 (set_cga_pos (24 * 80 - 1) (set_cga_crt (replicate (Z.to_nat CRTSIZE) 0) (fs demo)))) demo.

(** ** The line discipline *)

(** Finished input, and the line being edited. *)
Record line_is (x : inputst) (q l : list Z) : Prop := mkline_is {
  li_buf : length (in_buf x) = Z.to_nat INPUT_BUF;
  li_r : is_u32 (in_r x);
  li_w : in_w x = u32 (in_r x + Z.of_nat (length q));
  li_e : in_e x = u32 (in_r x + Z.of_nat (length (q ++ l)));
  li_room : Z.of_nat (length (q ++ l)) <= INPUT_BUF;
  li_data : forall i c, (q ++ l) !! i = Some c -> in_at x (in_r x + Z.of_nat i) = c
}.

(** What typing a character does to them. *)
Definition type_char (c : Z) (s : list Z * list Z) : list Z * list Z :=
  let '(q, l) := s in
  if c =? C_P then s
  else if c =? C_U then (q, [])
  else if (c =? C_H) || (c =? DEL) then (q, removelast l)
  else if negb (c =? 0) && (Z.of_nat (length (q ++ l)) <? INPUT_BUF) then
    let c := if c =? CR then NEWLINE else c in
    if (c =? NEWLINE) || (c =? C_D) || (Z.of_nat (length (q ++ l)) + 1 =? INPUT_BUF)
    then (q ++ l ++ [c], []) else (q, l ++ [c])
  else s.

Definition type_chars (cs : list Z) (s : list Z * list Z) : list Z * list Z :=
  foldl (fun s c => type_char c s) s cs.

Lemma u32_mod_buf i : u32 i mod INPUT_BUF = i mod INPUT_BUF.
Proof. unfold u32, INPUT_BUF. Z.div_mod_to_equations. lia. Qed.

Lemma u32_diff r n : 0 <= n < 2 ^ 32 -> u32 (u32 (r + n) - r) = n.
Proof. intros H. unfold u32. rewrite Zminus_mod_idemp_l. replace (r + n - r) with n by lia. by apply Z.mod_small. Qed.

Lemma u32_add_inj r a b : 0 <= a <= INPUT_BUF -> 0 <= b <= INPUT_BUF -> u32 (r + a) = u32 (r + b) -> a = b.
Proof. unfold INPUT_BUF. intros Ha Hb E. rewrite <- (u32_diff r a), <- (u32_diff r b) by lia. by rewrite E. Qed.

Lemma mod_buf_inj r a b : 0 <= a < INPUT_BUF -> 0 <= b < INPUT_BUF -> a <> b -> (r + a) mod INPUT_BUF <> (r + b) mod INPUT_BUF.
Proof. unfold INPUT_BUF. intros. Z.div_mod_to_equations. lia. Qed.

Lemma line_empty x q l : line_is x q l -> (in_e x =? in_w x) = true <-> l = [].
Proof.
  intros [_ _ Hw He Hr _]. rewrite length_app in *. split.
  - intros E%Z.eqb_eq. rewrite Hw, He in E. apply u32_add_inj in E; [|lia..]. destruct l; [done|simpl in E; lia].
  - intros ->. rewrite Hw, He. simpl. apply Z.eqb_eq. by rewrite Nat.add_0_r.
Qed.

(** One character less. *)
Lemma line_back x q l c : line_is x q (l ++ [c]) -> line_is (back x) q l.
Proof.
  intros [H1 H2 Hw He Hr Hd]. rewrite app_assoc, length_app in *. simpl in *. split; simpl; try done.
  - rewrite He. unfold u32. rewrite Zminus_mod_idemp_l. f_equal. lia.
  - lia.
  - intros i ch Hi. apply Hd. by apply lookup_app_l_Some.
Qed.

Lemma line_last x q l c : line_is x q (l ++ [c]) -> in_at x (in_e x - 1) = c.
Proof.
  intros [H1 H2 Hw He Hr Hd]. rewrite app_assoc in *.
  rewrite <- (Hd (length (q ++ l)) c) by (by rewrite lookup_app_r, Nat.sub_diag by lia).
  unfold in_at. rewrite !u32_mod_buf, He. rewrite length_app. simpl.
  rewrite Zminus_mod, u32_mod_buf, <- Zminus_mod. do 3 f_equal. lia.
Qed.

(** One character more. *)
Lemma line_add x q l c :
  line_is x q l -> Z.of_nat (length (q ++ l)) < INPUT_BUF -> line_is (add_char c x) q (l ++ [c]).
Proof.
  intros [H1 H2 Hw He Hr Hd] Hlt. split; simpl; try done.
  - by rewrite length_aset.
  - rewrite He, !length_app. simpl. unfold u32. rewrite Zplus_mod_idemp_l. f_equal. lia.
  - rewrite !length_app in *. simpl. lia.
  - intros i ch. rewrite app_assoc. unfold in_at. simpl. rewrite u32_mod_buf, He, u32_mod_buf.
    intros [Hi|[Hi Hl]]%lookup_app_Some.
    + rewrite aget_aset_ne; [rewrite <- (Hd i ch Hi); unfold in_at; by rewrite u32_mod_buf|].
      apply lookup_lt_Some in Hi. apply mod_buf_inj; lia.
    + apply list_lookup_singleton_Some in Hl as [E <-].
      replace (Z.of_nat i) with (Z.of_nat (length (q ++ l))) by lia.
      destruct (aget_in (in_buf x) ((in_r x + Z.of_nat (length (q ++ l))) mod INPUT_BUF)) as [y Hy].
      { rewrite H1. unfold INPUT_BUF. Z.div_mod_to_equations. lia. }
      by rewrite (aget_aset_eq _ _ _ _ Hy).
Qed.

(** The edited line is finished. *)
Lemma line_commit x q l : line_is x q l -> line_is (set_in_w (in_e x) x) (q ++ l) [].
Proof. intros [H1 H2 Hw He Hr Hd]. split; rewrite ?app_nil_r; done. Qed.

Lemma line_count x q l : line_is x q l -> u32 (in_e x - in_r x) = Z.of_nat (length (q ++ l)).
Proof. intros [_ _ _ He Hr _]. rewrite He. unfold INPUT_BUF in Hr. apply u32_diff. lia. Qed.

Lemma line_edited x q l : line_is x q l -> u32 (in_e x - in_w x) = Z.of_nat (length l).
Proof.
  intros [_ _ Hw He Hr _]. rewrite He, Hw. unfold u32. rewrite <- Zminus_mod, length_app in *.
  replace (_ - _) with (Z.of_nat (length l)) by lia. unfold INPUT_BUF in Hr. apply Z.mod_small. lia.
Qed.

(** Everything but the input buffer and the output. *)
Definition besides (x x' : fsst) : Prop :=
  x' = set_input (input x') (set_cga_crt (cga_crt x') (set_cga_pos (cga_pos x') (set_tty (tty x') x))).

#[export] Instance besides_preorder : PreOrder besides.
Proof.
  split; [intros x; unfold besides; by destruct x|].
  intros a b d Hb Hd. unfold besides in *. rewrite Hd, Hb. by destruct a.
Qed.

Lemma besides_shown l x x' : shown l x x' -> besides x x' /\ input x' = input x.
Proof. intros [_ ->]. by destruct x. Qed.

Lemma besides_input f x : besides x (set_input f x).
Proof. by destruct x. Qed.

Section Typing.
Context {h : list lockid} {c : fsst -> Prop}.

(** The input state [x'] reaches, and a screen in order. *)
Definition typed (s : list Z * list Z) (x x' : fsst) : Prop :=
  line_is (input x') (fst s) (snd s) /\ NEWLINE ∉ snd s /\ screen_ok x' /\ besides x x'.

Lemma kill_line_triple l x q (k : unit -> fsst -> Prop) :
  line_is (input x) q l -> NEWLINE ∉ l -> screen_ok x ->
  (forall x', typed (q, []) x x' -> k tt x') -> triple h c (kill_line (length l)) h x k.
Proof.
  revert x. induction l as [|ch l IH] using rev_ind; intros x Hx Hn Hs Hk.
  - simpl. tstep. rewrite (proj2 (line_empty _ _ _ Hx)) by done. simpl. tstep. by apply Hk.
  - rewrite length_app, Nat.add_comm. simpl. tstep.
    destruct (in_e (input x) =? in_w (input x)) eqn:E; [apply (line_empty _ _ _ Hx) in E; by destruct l|].
    rewrite (line_last _ _ _ _ Hx). destruct (Z.eqb_spec ch NEWLINE); [set_solver|]. simpl.
    unfold modin. tstep. eapply triple_step, consputc_triple; [exact Hs|]. intros x1 H1.
    destruct (besides_shown _ _ _ H1) as [B1 I1]. apply IH; [|set_solver|apply H1|].
    + rewrite I1. by eapply line_back.
    + intros x2 (H2 & H3 & H4 & H5). apply Hk. split_and!; [done..|]. etrans; [|exact H5]. etrans; [|exact B1].
      apply besides_input.
Qed.

Lemma add_char_triple ch q l x (k : unit -> fsst -> Prop) :
  L_ptable ∉ h -> line_is (input x) q l -> NEWLINE ∉ l -> screen_ok x -> Z.of_nat (length (q ++ l)) < INPUT_BUF ->
  (forall x', typed (if (ch =? NEWLINE) || (ch =? C_D) || (Z.of_nat (length (q ++ l)) + 1 =? INPUT_BUF)
    then (q ++ l ++ [ch], []) else (q, l ++ [ch])) x x' -> k tt x') ->
  triple h c (modin (add_char ch) ;;; consputc ch ;;; (x <- getfs input ;;
    if (ch =? NEWLINE) || (ch =? C_D) || (in_e x =? u32 (in_r x + INPUT_BUF)) then
      modin (fun x => set_in_w (in_e x) x) ;;; wakeup CInput
    else ret tt)) h x k.
Proof.
  intros Hp Hx Hn Hs Hroom Hk. unfold modin. tstep. eapply triple_step, consputc_triple; [exact Hs|]. intros x1 H1.
  destruct (besides_shown _ _ _ H1) as [B1 I1]. pose proof (line_add _ _ _ ch Hx Hroom) as Ha. cbn [input set_input] in I1.
  assert (B : besides x x1) by (etrans; [|exact B1]; apply besides_input).
  tstep. rewrite I1.
  replace (in_e (add_char ch (input x)) =? u32 (in_r (add_char ch (input x)) + INPUT_BUF))
    with (Z.of_nat (length (q ++ l)) + 1 =? INPUT_BUF).
  2:{ rewrite (li_e _ _ _ Ha). rewrite app_assoc, (length_app (q ++ l)) in *. simpl length.
      apply eq_true_iff_eq. rewrite !Z.eqb_eq. split; [intros <-; f_equal; lia|].
      intros E%u32_add_inj; lia. }
  destruct ((ch =? NEWLINE) || (ch =? C_D) || (Z.of_nat (length (q ++ l)) + 1 =? INPUT_BUF)) eqn:E.
  - tstep. apply triple_wakeup; [done|]. apply Hk. split_and!; [|set_solver|apply H1|].
    + simpl. rewrite I1. by apply line_commit.
    + etrans; [exact B|]. apply besides_input.
  - tstep. apply Hk. split_and!; [by rewrite I1| |apply H1|exact B].
    simpl. apply orb_false_iff in E as [[E _]%orb_false_iff _]. apply Z.eqb_neq in E. set_solver.
Qed.

Lemma consolechar_triple ch q l x (k : unit -> fsst -> Prop) :
  L_ptable ∉ h -> L_cons ∉ h -> line_is (input x) q l -> NEWLINE ∉ l -> screen_ok x ->
  (forall x', typed (type_char ch (q, l)) x x' -> k tt x') -> triple h c (consolechar ch) h x k.
Proof.
  intros Hp Hcons Hx Hn Hs Hk. unfold consolechar, type_char in *.
  assert (Hsame : typed (q, l) x x) by (by split_and!).
  destruct (ch =? C_P).
  { apply procdump_triple; [done..|]. intros x' (l' & H'). apply Hk.
    destruct (besides_shown _ _ _ H') as [B' I']. split_and!; [by rewrite I'|done|apply H'|done]. }
  destruct (ch =? C_U).
  { tstep. rewrite (line_edited _ _ _ Hx), Nat2Z.id. by eapply kill_line_triple. }
  destruct ((ch =? C_H) || (ch =? DEL)).
  { tstep. destruct (in_e (input x) =? in_w (input x)) eqn:E; simpl.
    - apply (line_empty _ _ _ Hx) in E as ->. tstep. by apply Hk.
    - destruct l as [|ch' l _] using rev_ind; [by rewrite (proj2 (line_empty _ _ _ Hx)) in E|].
      unfold modin. tstep. apply consputc_triple; [exact Hs|]. intros x1 H1. apply Hk.
      destruct (besides_shown _ _ _ H1) as [B1 I1]. rewrite removelast_last.
      split_and!; [rewrite I1; by eapply line_back|set_solver|apply H1|]. etrans; [apply besides_input|exact B1]. }
  tstep. rewrite (line_count _ _ _ Hx).
  destruct (negb (ch =? 0) && (Z.of_nat (length (q ++ l)) <? INPUT_BUF)) eqn:E.
  - apply andb_true_iff in E as [_ E%Z.ltb_lt]. by apply (add_char_triple _ q l).
  - tstep. by apply Hk.
Qed.
End Typing.

(** The characters an interrupt delivers, one after the other. *)
Fixpoint consolechars (cs : list Z) : M kst unit :=
  match cs with
  | [] => ret tt
  | ch :: cs => consolechar ch ;;; consolechars cs
  end.

Lemma consolechars_triple h c cs q l x (k : unit -> fsst -> Prop) :
  L_ptable ∉ h -> L_cons ∉ h -> line_is (input x) q l -> NEWLINE ∉ l -> screen_ok x ->
  (forall x', typed (type_chars cs (q, l)) x x' -> k tt x') -> triple h c (consolechars cs) h x k.
Proof.
  intros Hp Hc. revert q l x. induction cs as [|ch cs IH]; intros q l x Hx Hn Hs Hk; simpl.
  - tstep. apply Hk. by split_and!.
  - eapply triple_step, (consolechar_triple ch q l); [done..|]. intros x1 (H1 & H2 & H3 & H4).
    destruct (type_char ch (q, l)) as [q1 l1] eqn:E. apply (IH q1 l1); [done..|].
    intros x2 (G1 & G2 & G3 & G4). apply Hk.
    change (type_chars (ch :: cs) (q, l)) with (type_chars cs (type_char ch (q, l))). rewrite E.
    split_and!; [done..|by etrans].
Qed.

(** C32: the console implements a line discipline.  Whatever characters arrive,
    control characters included, the handler never sleeps or panics, and the ring
    buffer holds the finished input and the edited line that the specification
    [type_chars] gives: characters are appended while there is room, backspace
    and control-U edit the unfinished line only, and a newline, control-D or a
    full buffer finishes it.  The counters stay in order across their
    wrap-around, and the cursor on the screen. *)
Theorem console_line_discipline cs q l s :
  sys [L_input] s -> line_is (input (fs s)) q l -> NEWLINE ∉ l -> screen_ok (fs s) ->
  wp (fun _ => False) (consolechars cs s) (fun _ s' =>
    line_is (input (fs s')) (fst (type_chars cs (q, l))) (snd (type_chars cs (q, l))) /\
    NEWLINE ∉ snd (type_chars cs (q, l)) /\ screen_ok (fs s') /\ besides (fs s) (fs s') /\
    sys [L_input] s' /\ frame s s').
Proof.
  intros Hs Hx Hn Hsc. eapply wp_mono.
  - apply (consolechars_triple [L_input] (fun _ => False) cs q l (fs s) (fun _ x' => typed (type_chars cs (q, l)) (fs s) x'));
      [set_solver..|done|done|done|done|exact Hs|done].
  - done.
  - intros _ s' (Hs' & Hf & H1 & H2 & H3 & H4). by split_and!.
Qed.

Definition demo_console : kst :=
  set_fs (set_cga_crt (replicate (Z.to_nat CRTSIZE) 0) (set_input
    (mkinput (replicate (Z.to_nat INPUT_BUF) 0) (2 ^ 32 - 2) (2 ^ 32 - 2) (2 ^ 32 - 2)) (fs demo)))
    (set_lks (lk_acq L_input (lks demo)) demo).

(** [ab], backspace, [c], return, [d] *)
Lemma console_line_discipline_witness :
  wp (fun _ => False) (consolechars [97; 98; DEL; 99; CR; 100] demo_console) (fun _ s' =>
    line_is (input (fs s')) [97; 99; NEWLINE] [100]).
Proof.
  eapply wp_mono; [apply (console_line_discipline _ [] [] demo_console)|done|intros [] s' H'; exact (proj1 H')].
  - apply sys_set_fs, sys_acq; [apply demo_sys|set_solver].
  - split; [reflexivity|unfold is_u32; simpl; lia|reflexivity|reflexivity|simpl; unfold INPUT_BUF; lia|].
    intros i c Hi. simpl in Hi. by rewrite lookup_nil in Hi.
  - set_solver.
  - split; [simpl; lia|reflexivity].
Defined.
