(* ===== verification/File.v ===== *)
(** * Open files

    [file.c], the table of open files, and [pipealloc] of [pipe.c].  A [struct
    file*] is an index into [ftable.file]. *)

From stdpp Require Import base list numbers strings tactics gmap.
From Stdlib Require Import Lia.
From S2P Require Import Prelude Params StringC FsState KState Spinlock Mmu Kalloc Sched Bio Log Fs Pipe.

Local Open Scope Z_scope.
Local Open Scope xv6_scope.

Definition getf (f : nat) : M kst file := o <- getfs (fun x => files x !! f) ;; deref o.
Definition upd_file (f : nat) (g : file -> file) (x : fsst) : fsst := set_files (alter g f (files x)) x.
Definition modf (f : nat) (g : file -> file) : M kst unit := _ <- getf f ;; modfs (upd_file f g).

Definition fileinit : M kst unit := onlks (initlock L_ftable "ftable").

Definition filealloc : M kst (option nat) :=
  acquire L_ftable ;;;
  tab <- getfs files ;;
  match scan (fun f => f_ref f =? 0) tab with
  | Some f =>
      modf f (set_f_ref 1) ;;;
      release L_ftable ;;;
      ret (Some f)
  | None =>
      release L_ftable ;;;
      ret None
  end.

Definition filedup (f : nat) : M kst nat :=
  acquire L_ftable ;;;
  x <- getf f ;;
  if f_ref x <? 1 then panic "filedup" else
  modf f (fun x => set_f_ref (f_ref x + 1) x) ;;;
  release L_ftable ;;;
  ret f.

(** The page of a new pipe: the bytes of [data] are what the page held. *)
Definition PIPEDATA : Z := 52.

Definition page_pipe (m : memory) (p : Z) : list Z :=
  (fun i => m (p + PIPEDATA + Z.of_nat i)) <$> seq 0 (Z.to_nat PIPESIZE).

Section File.
Context `{Disk} `{Devsw} (kend : Z).

Definition fileclose (f : nat) : M kst unit :=
  acquire L_ftable ;;;
  x <- getf f ;;
  if f_ref x <? 1 then panic "fileclose" else
  modf f (fun x => set_f_ref (f_ref x - 1) x) ;;;
  ff <- getf f ;;
  if 0 <? f_ref ff then release L_ftable else
  modf f (set_f_ref 0) ;;;
  modf f (set_f_type FD_NONE) ;;;
  release L_ftable ;;;
  match f_type ff with
  | FD_PIPE => pipeclose kend (f_pipe ff) (f_writable ff)
  | FD_INODE =>
      begin_trans ;;;
      ip <- deref (f_ip ff) ;;
      iput ip ;;;
      commit_trans
  | FD_NONE => ret tt
  end.

Definition filestat (f : nat) (st : Z) : M kst Z :=
  x <- getf f ;;
  match f_type x with
  | FD_INODE =>
      ilock (f_ip x) ;;;
      ip <- deref (f_ip x) ;;
      stati ip st ;;;
      iunlock (f_ip x) ;;;
      ret 0
  | _ => ret (-1)
  end.

Definition fileread (f : nat) (addr n : Z) : M kst Z :=
  x <- getf f ;;
  if f_readable x =? 0 then ret (-1) else
  match f_type x with
  | FD_PIPE => piperead waits (f_pipe x) addr n
  | FD_INODE =>
      ilock (f_ip x) ;;;
      ip <- deref (f_ip x) ;;
      x <- getf f ;;
      ' (r, _) <- readi ip (ToMem addr) (f_off x) (u32 n) ;;
      (if 0 <? r then modf f (fun x => set_f_off (u32 (f_off x + r)) x) else ret tt) ;;;
      iunlock (f_ip x) ;;;
      ret r
  | FD_NONE => panic "fileread"
  end.

(** A few blocks at a time, to fit in the log. *)
Definition FILEMAX : Z := (LOGSIZE - 1 - 1 - 2) / 2 * 512.

(** [while(i < n)]: the bytes written in the end. *)
Fixpoint filewrite_loop (k : nat) (f : nat) (addr i n : Z) : M kst Z :=
  match k with
  | O => outoffuel
  | S k =>
      if i <? n then
        let n1 := if FILEMAX <? n - i then FILEMAX else n - i in
        x <- getf f ;;
        begin_trans ;;;
        ilock (f_ip x) ;;;
        ip <- deref (f_ip x) ;;
        x <- getf f ;;
        r <- writei ip (FromMem (u32 (addr + i))) (f_off x) n1 ;;
        (if 0 <? r then modf f (fun x => set_f_off (u32 (f_off x + r)) x) else ret tt) ;;;
        iunlock (f_ip x) ;;;
        commit_trans ;;;
        if r <? 0 then ret i else
        if negb (r =? n1) then panic "short filewrite" else
        filewrite_loop k f addr (i + r) n
      else ret i
  end.

Definition filewrite (f : nat) (addr n : Z) : M kst Z :=
  x <- getf f ;;
  if f_writable x =? 0 then ret (-1) else
  match f_type x with
  | FD_PIPE => pipewrite waits (f_pipe x) addr n
  | FD_INODE =>
      i <- filewrite_loop (S (S (Z.to_nat (n / FILEMAX)))) f addr 0 n ;;
      ret (if i =? n then n else -1)
  | FD_NONE => panic "filewrite"
  end.

(** The two ends of a new pipe; on failure what has been taken is given back. *)
Definition pipealloc : M kst (option (nat * nat)) :=
  f0 <- filealloc ;;
  match f0 with
  | None => ret None
  | Some f0 =>
      f1 <- filealloc ;;
      match f1 with
      | None => fileclose f0 ;;; ret None
      | Some f1 =>
          p <- kalloc ;;
          if p =? 0 then fileclose f0 ;;; fileclose f1 ;;; ret None else
          m <- gets mem ;;
          modfs (fun x => set_pipes (<[p := mkpipe (page_pipe m p) 0 0 1 1]> (pipes x)) x) ;;;
          onlks (initlock (L_pipe p) "pipe") ;;;
          modf f0 (fun x => set_f_pipe p (set_f_writable 0 (set_f_readable 1 (set_f_type FD_PIPE x)))) ;;;
          modf f1 (fun x => set_f_pipe p (set_f_writable 1 (set_f_readable 0 (set_f_type FD_PIPE x)))) ;;;
          ret (Some (f0, f1))
      end
  end.

End File.
