(* ===== verification/FileThm.v ===== *)
(** * Files survive

    The theorems about writing files: [writei] puts bytes into it, within the log
    space that [filewrite] leaves; and [filewrite], which cuts a long write into
    transactions, is durable: after a power failure at any moment the file has the
    first part of what was written, and every other file is as it was. *)

From stdpp Require Import base list numbers strings tactics gmap functions.
From Stdlib Require Import Lia.
From S2P Require Import Prelude Params StringC FsState KState Spinlock Mmu Sched Runs Bio BioSpec BioThm Log LogSpec LogThm Fs BlockThm Inode InodeThm Pipe File.

Local Open Scope Z_scope.
Local Open Scope xv6_scope.

#[local] Opaque HEAD.

(** ** Flags of inodes *)

Lemma bset_lor x m m' : bset (orm x m) m' = bset x m' || bset m m'.
Proof.
  unfold bset, orm. rewrite Z.land_lor_distr_l. destruct (Z.eqb_spec (Z.land x m') 0) as [->|H1].
  - by rewrite Z.lor_0_l.
  - cbn [negb orb]. apply negb_true_iff, Z.eqb_neq. intros [H _]%Z.lor_eq_0_iff. done.
Qed.

Lemma bset_clr_other x m m' : Z.land m m' = 0 -> bset (clrm x m) m' = bset x m'.
Proof.
  intros Hm. unfold bset, clrm. do 2 f_equal. rewrite <- Z.land_assoc. f_equal. apply Z.bits_inj'. intros n Hn.
  rewrite Z.land_spec, Z.lnot_spec by done. apply (f_equal (fun z => Z.testbit z n)) in Hm.
  rewrite Z.land_spec, Z.bits_0 in Hm. destruct (Z.testbit m n), (Z.testbit m' n); done.
Qed.

Lemma bset_clr x m : bset (clrm x m) m = false.
Proof.
  unfold bset, clrm. rewrite <- Z.land_assoc, (Z.land_comm (Z.lnot m)), Z.land_lnot_diag, Z.land_0_r. done.
Qed.

(** ** The table of open files *)

Section Steps.
Context {h : list lockid} {c : fsst -> Prop}.

Lemma triple_getf f fl x (q : file -> fsst -> Prop) : files x !! f = Some fl -> q fl x -> triple h c (getf f) h x q.
Proof. intros Hf Hq. unfold getf. tstep. by eapply triple_deref. Qed.

Lemma triple_modf f g fl x (q : unit -> fsst -> Prop) :
  files x !! f = Some fl -> q tt (set_files (<[f := g fl]> (files x)) x) -> triple h c (modf f g) h x q.
Proof.
  intros Hf Hq. unfold modf. eapply triple_step, triple_getf; [done|]. tstep. unfold upd_file. by rewrite (alter_as_insert _ _ _ fl).
Qed.
End Steps.

Section Locks.
Context `{D : Disk} {dsize : Z} `{!DiskLaws dsize} `{Devsw}.
Context {c : fsst -> Prop}.
Variables start lsize : Z.
Context (sb : superblock).

Notation geometry := (geometry (dsize := dsize) start lsize).
Notation holding := (holding (dsize := dsize) start lsize).
Notation intx := (holding ∅).
Notation views := (views start lsize).
Notation recovers_to := (recovers_to (dsize := dsize) start lsize).
Notation idle := (idle (dsize := dsize) start lsize).
Notation fsys := (fsys (dsize := dsize) start lsize sb).
Notation file_written := (file_written (dsize := dsize) start lsize sb).

(** The entry of the inode cache of a file that nobody has locked. *)
Record entry (dk : Z -> list Z) (i : inode) : Prop := mkentry {
  en_ref : 0 < i_ref i;
  en_free : bset (i_flags i) I_BUSY = false;
  en_dev : i_dev i = 1;
  en_inum : 0 < i_inum i < sb_ninodes sb;
  en_valid : bset (i_flags i) I_VALID = true -> agrees sb dk i
}.

(** It is locked by the process. *)
Record locked (dk : Z -> list Z) (i : inode) : Prop := mklocked {
  lk_ref : 0 < i_ref i;
  lk_busy : bset (i_flags i) I_BUSY = true;
  lk_valid : bset (i_flags i) I_VALID = true;
  lk_agrees : agrees sb dk i
}.

Lemma looked_set_inodes l x a x' : looked x a x' -> looked (set_inodes l x) a (set_inodes l x').
Proof. intros (R & S & E). split_and!; [by apply repr_set_inodes| |done]. unfold rest in *. rewrite S. by destruct x. Qed.

Lemma views_set_inodes l x a dk : views x a dk -> views (set_inodes l x) a dk.
Proof. intros []. split; [by apply repr_set_inodes|done..]. Qed.

Lemma looked_refl x a dk : views x a dk -> looked x a x.
Proof. intros V. split_and!; [apply V|reflexivity|done]. Qed.

Lemma ilock_wait_free n ip i h x (q : unit -> fsst -> Prop) :
  inodes x !! ip = Some i -> bset (i_flags i) I_BUSY = false -> q tt x -> triple h c (ilock_wait n ip) h x q.
Proof. intros Hip Hb Hq. destruct n; simpl; (eapply triple_geti_bind; [done|]); rewrite Hb; cbn [negb]; by tstep. Qed.

Lemma set_inodes_twice l l' x : set_inodes l (set_inodes l' x) = set_inodes l x.
Proof. by destruct x. Qed.

Lemma agrees_flags dk i fl : agrees sb dk i -> agrees sb dk (set_i_flags fl i).
Proof.
  intros [A1 A2 A3]. split; [done|done|]. rewrite <- A3 at 4. reflexivity.
Qed.

Lemma agrees_type dk i : agrees sb dk i -> i_type i = i_type (dinode dk (i_inum i)).
Proof. intros [_ _ A3]. rewrite <- A3 at 1. done. Qed.

Lemma ilock_look ip i x a dk (q : unit -> fsst -> Prop) :
  views x a dk -> inodes x !! ip = Some i -> entry dk i -> i_type (dinode dk (i_inum i)) <> 0 ->
  1 < IBLOCK (i_inum i) < dsize -> ~ inlog start lsize (IBLOCK (i_inum i)) ->
  (forall i' x', locked dk i' -> i_inum i' = i_inum i -> i_ref i' = i_ref i -> i_type i' = i_type (dinode dk (i_inum i)) ->
    looked (set_inodes (<[ip := i']> (inodes x)) x) a x' -> q tt x') ->
  triple [] c (ilock (Some ip)) [] x q.
Proof.
  intros V Hip [E1 E2 E3 E4 E5] Hty Hib Hil Hq. unfold ilock. eapply triple_geti_bind; [done|].
  rewrite (proj2 (Z.ltb_ge _ _)) by lia. tstep. eapply triple_step, ilock_wait_free; [done|done|].
  eapply triple_modi_bind; [done|]. tstep. set (i1 := set_i_flags _ i). set (x1 := set_inodes _ x).
  assert (Hlt : (ip < length (inodes x))%nat) by (by eapply lookup_lt_Some).
  assert (Hip1 : inodes x1 !! ip = Some i1) by (by apply list_lookup_insert_eq).
  assert (V1 : views x1 a dk) by by apply views_set_inodes.
  eapply triple_geti_bind; [exact Hip1|]. destruct (bset (i_flags i1) I_VALID) eqn:Hv.
  - tstep. assert (Hv0 : bset (i_flags i) I_VALID = true) by (unfold i1 in Hv; simpl in Hv; by rewrite bset_lor, orb_false_r in Hv).
    pose proof (E5 Hv0) as A. eapply (Hq i1 x1); [split| | | |by eapply looked_refl]; try done.
    + unfold i1. simpl. by rewrite bset_lor, orb_true_r.
    + by apply agrees_flags.
    + by apply (agrees_type dk i).
  - change (i_inum i1) with (i_inum i). change (i_dev i1) with (i_dev i). rewrite E3.
    eapply triple_step, bread_look; [exact V1|lia|done|]. intros b x2 L2.
    eapply triple_step, bdata_look; [exact V1|done|exact L2|].
    eapply triple_modi_bind; [by rewrite (looked_inodes _ _ _ L2)|]. rewrite (looked_inodes _ _ _ L2).
    set (i2 := get_dinode _ _ i1). apply (looked_set_inodes (<[ip := i2]> (inodes x1))) in L2.
    eapply triple_step, brelse_look; [by apply views_set_inodes, V1|exact L2|]. intros x3 L3.
    assert (Hip3 : inodes x3 !! ip = Some i2).
    { rewrite (looked_inodes _ _ _ L3). simpl. apply list_lookup_insert_eq. by rewrite length_insert. }
    eapply triple_modi_bind; [exact Hip3|]. set (i3 := set_i_flags _ i2).
    eapply triple_geti_bind; [simpl; apply list_lookup_insert_eq; by eapply lookup_lt_Some|].
    change (i_type i3) with (i_type (dinode dk (i_inum i))). rewrite (proj2 (Z.eqb_neq _ _)) by done. tstep.
    apply (Hq i3); [split|done|done|done|]; try done.
    + unfold i3. simpl. rewrite bset_lor. unfold i1. simpl. by rewrite bset_lor, orb_true_r.
    + unfold i3. simpl. by rewrite bset_lor, orb_true_r.
    + assert (El : <[ip := i3]> (inodes x3) = <[ip := i3]> (inodes x)).
      { rewrite (looked_inodes _ _ _ L3). simpl. by rewrite !list_insert_insert_eq. }
      rewrite El. apply (looked_set_inodes (<[ip := i3]> (inodes x))) in L3. by rewrite !set_inodes_twice in L3.
Qed.

Lemma iunlock_look ip i dk x (q : unit -> fsst -> Prop) :
  inodes x !! ip = Some i -> locked dk i ->
  (forall i', i' = set_i_flags (i_flags i') i -> entry dk i' -> q tt (set_inodes (<[ip := i']> (inodes x)) x)) ->
  triple [] c (iunlock (Some ip)) [] x q.
Proof.
  intros Hip [K1 K2 K3 K4] Hq. unfold iunlock. eapply triple_geti_bind; [done|]. rewrite K2, (proj2 (Z.ltb_ge _ _)) by lia. cbn [negb orb].
  tstep. eapply triple_modi_bind; [done|]. tstep. tstep. apply Hq; [by destruct i|].
  pose proof K4 as [A1 A2 _]. split; [done|apply bset_clr|done|done|]. intros _. by apply agrees_flags.
Qed.

(** *** In and out of a transaction *)

Lemma intx_views x a secs old dk : intx x a secs old dk -> views x a dk.
Proof.
  intros I. split; [apply I|apply I| |apply I]. rewrite (it_dirty _ _ _ _ _ _ _ _ I), size_secs by apply I. apply I.
Qed.

Lemma intx_looked x a secs old dk x' : intx x a secs old dk -> looked x a x' -> intx x' a secs old dk.
Proof.
  intros [R L Hl Ho Hb Hd Hlog Hh Hhl Hold Hnew Hcl Hbl] (R' & S & E). split; rewrite ?E, ?(rest_lg _ _ S); done.
Qed.

Lemma idle_views x dk :
  idle x dk ->
  exists a, views x a dk /\ forall x', looked x a x' -> idle x' dk /\ l_busy (lg x') = l_busy (lg x).
Proof.
  intros I. pose proof I as [(a & R & Hb & Hd) L Hrec Hn]. exists a. split.
  - split; [done|done|rewrite Hd, size_empty; pose proof HEAD_10; lia|]. intros s Hs. rewrite (repr_clean x a) by done.
    by apply (idle_disk (dsize := dsize) start lsize).
  - intros x' (R' & S & E). rewrite (rest_lg _ _ S). split; [|done]. split; [by exists a|by rewrite (rest_lg _ _ S)|by rewrite E..].
Qed.

(** ** One transaction of [filewrite] *)

(** The disk [dk'] is [dk] with [bytes] at [off] of file [inum]. *)
Record disk_written (inum off : Z) (bytes : list Z) (dk dk' : Z -> list Z) : Prop := mkdisk_written {
  dw_fsys : fsys dk';
  dw_content : content dk' (dinode dk' inum) = splice (content dk (dinode dk inum)) off bytes;
  dw_type : i_type (dinode dk' inum) = i_type (dinode dk inum);
  dw_others : forall j, 0 < j < sb_ninodes sb -> j <> inum ->
    dinode dk' j = dinode dk j /\ content dk' (dinode dk' j) = content dk (dinode dk j)
}.

(** Free blocks, one of them kept for the indirect block. *)
Definition spare (dk : Z -> list Z) (inum : Z) : Z := Z.of_nat (nfree sb dk) - Z.of_nat (lack (dinode dk inum)).

Lemma lack_dinode dk i : agrees sb dk i -> lack (dinode dk (i_inum i)) = lack i.
Proof. intros [E _]%agrees_dinode. unfold lack, addr_at. by rewrite E. Qed.

Lemma file_disk_written off bytes dk i dk' i' :
  agrees sb dk i -> file_written off bytes dk i dk' i' ->
  i_inum i' = i_inum i /\ disk_written (i_inum i) off bytes dk dk' /\
  spare dk (i_inum i) <= spare dk' (i_inum i) + Z.of_nat (nblk off (Z.of_nat (length bytes))).
Proof.
  intros A [W1 W2 W3 W4 W5 W6]. assert (En : i_inum i' = i_inum i) by (rewrite W3; done). split; [done|].
  split; [split|].
  - done.
  - rewrite <- En at 1. by rewrite (agrees_content sb dk' i'), (agrees_content sb dk i).
  - rewrite <- (agrees_type dk i) by done. rewrite <- En at 1. rewrite <- (agrees_type dk' i') by done. by rewrite W3.
  - done.
  - pose proof (lack_dinode dk i A). pose proof (lack_dinode dk' i' W2) as E2. rewrite En in E2. unfold spare. lia.
Qed.

Lemma nblk_chunk off n : 0 <= off -> n <= FILEMAX -> (nblk off n <= 4)%nat.
Proof.
  intros Ho Hn. change FILEMAX with 1536 in Hn. unfold nblk, BSIZE. destruct (Z.leb_spec n 0); [lia|]. Z.div_mod_to_equations. lia.
Qed.

(** A transaction that has logged nothing has room for it. *)
Lemma room_chunk i off n : 8 < lsize -> 0 <= off -> n <= FILEMAX -> room lsize (cost sb i [] + nblk off n).
Proof.
  intros Hl Ho Hn. pose proof (nblk_chunk off n Ho Hn). pose proof HEAD_10.
  assert (cost sb i [] <= 3)%nat; [|split; lia]. unfold cost. assert (size ({[bmb sb; IBLOCK (i_inum i)]} ∪ list_to_set [] : gset Z) <= 2)%nat.
  { pose proof (size_add (bmb sb) {[IBLOCK (i_inum i)]}) as Hs. rewrite size_singleton in Hs.
    etrans; [apply subseteq_size|exact Hs]. simpl. set_solver. }
  case_decide; lia.
Qed.

Lemma views_file g x a dk : views x a dk -> views (set_files g x) a dk.
Proof. intros [R]. split; try done. by destruct R; split. Qed.

Lemma holding_files bz g x a secs old dk : holding bz x a secs old dk -> holding bz (set_files g x) a secs old dk.
Proof. intros []. split; try done. by destruct it_repr; split. Qed.

(** What the transaction does; [k] is the rest of the loop. *)
Lemma chunk_at s0 f fl ip i src bytes off n x dk (k : Z -> M kst Z) (q : Z -> fsst -> Prop) :
  geometry -> 8 < lsize -> idle x dk -> l_busy (lg x) = 0 -> fsys dk ->
  files x !! f = Some fl -> f_ip fl = Some ip -> f_off fl = off -> inodes x !! ip = Some i -> entry dk i ->
  i_type (dinode dk (i_inum i)) <> 0 -> i_type (dinode dk (i_inum i)) <> T_DEV ->
  source_gives s0 src bytes -> n = Z.of_nat (length bytes) -> 0 < n <= FILEMAX ->
  0 <= off <= Z.of_nat (length (content dk (dinode dk (i_inum i)))) -> off + n <= MAXFILE * BSIZE -> 4 <= spare dk (i_inum i) ->
  (forall x', recovers_to (disk x' 1) dk -> c x') ->
  (forall x' dk', disk_written (i_inum i) off bytes dk dk' -> recovers_to (disk x' 1) dk' -> c x') ->
  (forall x' dk' i', idle x' dk' -> l_busy (lg x') = 0 -> disk_written (i_inum i) off bytes dk dk' ->
    spare dk (i_inum i) <= spare dk' (i_inum i) + 4 -> i_inum i' = i_inum i -> entry dk' i' ->
    kept (set_inodes (<[ip := i']> (inodes x)) (set_files (<[f := set_f_off (off + n) fl]> (files x)) x)) x' ->
    triple_at s0 [] c (k n) [] x' q) ->
  triple_at s0 [] c (begin_trans ;;;
    ilock (f_ip fl) ;;;
    ip <- deref (f_ip fl) ;;
    x <- getf f ;;
    r <- writei ip src (f_off x) n ;;
    (if 0 <? r then modf f (fun x => set_f_off (u32 (f_off x + r)) x) else ret tt) ;;;
    iunlock (f_ip x) ;;;
    commit_trans ;;;
    k r) [] x q.
Proof.
  intros G Hlz Hidle Hbz F Hf Hfip Hfoff Hip E Ht1 Ht2 Hsrc Hn Hnr Ho Hmax Hsp Hc1 Hc2 Hk.
  pose proof (do_inodes _ _ _ _ (fy_disk _ _ _ _ F) (i_inum i)) as Hib. pose proof (en_inum _ _ E) as Hin. specialize (Hib ltac:(lia)).
  destruct Hib as [Hib Hil]. rewrite Hfip.
  eapply triple_at_step, begin_trans_triple; [exact Hidle|done|lia|]. intros x1 a1 I1 K1.
  eapply triple_at_step, ilock_look; [by eapply intx_views|by rewrite (kept_inodes _ _ K1)|exact E|done|done|done|].
  intros i2 x2 Lk En2 _ Ety L2. pose proof (intx_looked _ _ _ _ _ _ (holding_inode _ _ _ _ _ _ _ _ _ I1) L2) as I2.
  assert (M2 : moved ip i2 x x2).
  { eapply moved_trans; [apply kept_moved; [exact Hip|exact K1]|]. by apply rest_kept, L2. }
  eapply triple_at_step, triple_deref; [done|].
  eapply triple_at_step, triple_getf; [by rewrite (kept_files _ _ M2)|]. rewrite Hfoff, Hfip.
  pose proof (lk_agrees _ _ Lk) as A2. rewrite <- En2 in *. rewrite (agrees_content sb dk i2), length_content in Ho by done.
  pose proof (fo_size _ _ _ _ _ (agrees_ok _ _ _ _ _ F A2)) as Hsz. pose proof (moved_inode _ _ _ _ _ Hip M2) as Hip2.
  eapply triple_at_bind, (writei_at start lsize sb s0 src bytes dk ip i2 off n); [exact G|exact Hsrc|done|exact Hc1|exact I2|exact Hip2|exact F|exact A2
    |congruence|lia|done| |by apply room_chunk; lia|].
  { right. pose proof (nblk_chunk off n ltac:(lia) ltac:(lia)). unfold spare in Hsp. rewrite (lack_dinode dk i2) in Hsp by done. lia. }
  intros x3 a3 secs3 dk3 i3 I3 M3 W3. destruct (file_disk_written _ _ _ _ _ _ A2 W3) as (En3 & Dw & Hsp3).
  rewrite (proj2 (Z.ltb_lt 0 n)) by lia. pose proof (moved_trans _ _ _ _ _ _ M2 M3) as M03.
  eapply triple_at_step, triple_modf; [by rewrite (kept_files _ _ M03)|]. rewrite Hfoff.
  rewrite u32_small by (change (MAXFILE * BSIZE) with 71680 in Hmax; unfold is_u32; lia). set (x4 := set_files _ x3).
  eapply triple_at_step, (iunlock_look ip i3 dk3); [exact (moved_inode _ _ _ _ _ Hip M03)| |].
  { destruct Lk as [B1 B2 B3 B4]. pose proof (fw_fields _ _ _ _ _ _ _ _ _ W3) as Ef. split; [by rewrite Ef..|apply W3]. }
  intros i4 Ei4 E4. eapply triple_at_step, commit_trans_triple; [exact G|apply holding_inode, holding_files, I3| |].
  { intros x' [Hr|Hr]; [by apply Hc1|by eapply Hc2]. }
  intros x6 Hidle6 Hbz6 K6. eapply (Hk x6 dk3 i4); try done; [| |].
  - pose proof (nblk_chunk off n ltac:(lia) ltac:(lia)). rewrite <- Hn in Hsp3. lia.
  - rewrite Ei4. simpl. congruence.
  - etrans; [|exact K6]. unfold x4, kept. simpl. unfold moved, kept in M03. rewrite M03. simpl. rewrite list_insert_insert_eq. by destruct x.
Qed.

(** ** The loop *)

Lemma splice_nil l o : splice l o [] = l.
Proof. unfold splice. simpl. rewrite Nat.add_0_r. apply take_drop. Qed.

Lemma splice_splice l o b1 b2 :
  0 <= o <= Z.of_nat (length l) -> splice (splice l o b1) (o + Z.of_nat (length b1)) b2 = splice l o (b1 ++ b2).
Proof.
  intros Ho. assert (Hl : length (splice l o b1) = Nat.max (length l) (Z.to_nat o + length b1))
    by (unfold splice; rewrite !length_app, length_take, length_drop; lia).
  apply list_eq. intros j. rewrite !lookup_splice by (rewrite ?Hl; lia). rewrite length_app.
  repeat case_decide; try lia; try done.
  - rewrite lookup_app_r by lia. f_equal. lia.
  - by rewrite lookup_app_l by lia.
Qed.

Lemma written_none inum off dk : fsys dk -> disk_written inum off [] dk dk.
Proof. intros F. split; [done|by rewrite splice_nil|done|done]. Qed.

Lemma written_more inum off b1 b2 dk dk1 dk2 :
  0 <= off <= Z.of_nat (length (content dk (dinode dk inum))) ->
  disk_written inum off b1 dk dk1 -> disk_written inum (off + Z.of_nat (length b1)) b2 dk1 dk2 ->
  disk_written inum off (b1 ++ b2) dk dk2.
Proof.
  intros Ho [A1 A2 A3 A4] [B1 B2 B3 B4]. split; [done| |congruence|].
  - by rewrite B2, A2, splice_splice.
  - intros j Hj Hne. destruct (A4 j Hj Hne), (B4 j Hj Hne). split; congruence.
Qed.

Lemma source_chunk s0 addr bytes p m :
  user_bytes s0 addr bytes -> 0 <= p -> source_gives s0 (FromMem (u32 (addr + p))) (slice bytes p m).
Proof.
  intros Hu Hp. apply source_mem; [apply u32_range|]. intros j v Hj. rewrite u32_add.
  unfold slice in Hj. apply lookup_take_Some in Hj as [Hj _]. rewrite lookup_drop in Hj.
  rewrite <- (Hu _ _ Hj). do 2 f_equal. lia.
Qed.

(** The number of transactions for [m] bytes. *)
Definition chunks (m : Z) : Z := (m + FILEMAX - 1) / FILEMAX.

Lemma chunks_step m n1 : 0 < n1 <= m -> n1 = FILEMAX \/ n1 = m /\ m <= FILEMAX -> chunks m = 1 + chunks (m - n1) /\ 0 <= chunks (m - n1).
Proof. unfold chunks. change FILEMAX with 1536. intros. Z.div_mod_to_equations. lia. Qed.

Section Loop.
Context (s0 : kst) (f : nat) (fl : file) (ip : nat) (inum off addr : Z) (bytes : list Z) (dk : Z -> list Z) (x0 : fsst).
Notation n := (Z.of_nat (length bytes)).
Hypothesis G : geometry.
Hypothesis Hlz : 8 < lsize.
Hypothesis Hfip : f_ip fl = Some ip.
Hypothesis Hf0 : files x0 !! f = Some fl.
Hypothesis Hu : user_bytes s0 addr bytes.
Hypothesis Ho : 0 <= off <= Z.of_nat (length (content dk (dinode dk inum))).
Hypothesis Hmax : off + n <= MAXFILE * BSIZE.
Hypothesis Ht1 : i_type (dinode dk inum) <> 0.
Hypothesis Ht2 : i_type (dinode dk inum) <> T_DEV.
Hypothesis Hc : forall x' m dk', 0 <= m <= n -> disk_written inum off (take (Z.to_nat m) bytes) dk dk' -> recovers_to (disk x' 1) dk' -> c x'.

(** The state after [p] bytes. *)
Record progress (p : Z) (x : fsst) (dkp : Z -> list Z) (i : inode) : Prop := mkprogress {
  pr_idle : idle x dkp;
  pr_free : l_busy (lg x) = 0;
  pr_disk : disk_written inum off (take (Z.to_nat p) bytes) dk dkp;
  pr_spare : 4 * chunks (n - p) <= spare dkp inum;
  pr_inum : i_inum i = inum;
  pr_entry : entry dkp i;
  pr_kept : kept (set_inodes (<[ip := i]> (inodes x0)) (set_files (<[f := set_f_off (off + p) fl]> (files x0)) x0)) x
}.

Lemma filewrite_loop_at k p x dkp i (q : Z -> fsst -> Prop) :
  0 <= p <= n -> progress p x dkp i -> inodes x0 !! ip <> None -> (Z.to_nat (chunks (n - p)) < k)%nat ->
  (forall x' dk' i', progress n x' dk' i' -> q n x') ->
  triple_at s0 [] c (filewrite_loop k f addr p n) [] x q.
Proof.
  intros Hp [P1 P2 P3 P4 P5 P6 P7] Hi0 Hk Hq. revert p x dkp i Hp P1 P2 P3 P4 P5 P6 P7 Hk.
  induction k as [|k IH]; intros p x dkp i Hp P1 P2 P3 P4 P5 P6 P7 Hk; [lia|]. cbn [filewrite_loop].
  destruct (Z.ltb_spec p n) as [Hlt|Hge]; cycle 1.
  { assert (p = n) as -> by lia. apply triple_at_of. tstep. by eapply Hq, mkprogress. }
  set (n1 := if FILEMAX <? n - p then FILEMAX else n - p).
  assert (Hn1 : 0 < n1 <= FILEMAX /\ n1 <= n - p /\ (n1 = FILEMAX \/ n1 = n - p /\ n - p <= FILEMAX)).
  { unfold n1. change FILEMAX with 1536. destruct (Z.ltb_spec 1536 (n - p)); lia. }
  assert (Hl1 : length (slice bytes p n1) = Z.to_nat n1) by (unfold slice; rewrite length_take, length_drop; lia).
  assert (Hlp : length (take (Z.to_nat p) bytes) = Z.to_nat p) by (rewrite length_take; lia).
  assert (Hip : inodes x !! ip = Some i).
  { rewrite (kept_inodes _ _ P7). simpl. apply list_lookup_insert_eq. destruct (inodes x0 !! ip) eqn:E; [|done]. by eapply lookup_lt_Some. }
  assert (Hlen : Z.of_nat (length (content dkp (dinode dkp inum))) >= off + p).
  { rewrite (dw_content _ _ _ _ _ P3). unfold splice. rewrite !length_app, Hlp, length_take, length_drop. lia. }
  set (fl' := set_f_off (off + p) fl) in *.
  assert (Hfl : files x !! f = Some fl').
  { rewrite (kept_files _ _ P7). simpl. apply list_lookup_insert_eq. by eapply lookup_lt_Some. }
  destruct (chunks_step (n - p) n1 ltac:(lia) ltac:(lia)) as [Hch Hch0]. assert (Hsp : 4 <= spare dkp inum) by lia.
  assert (Htk : take (Z.to_nat (p + n1)) bytes = take (Z.to_nat p) bytes ++ slice bytes p n1).
  { rewrite <- (take_drop (Z.to_nat p) (take (Z.to_nat (p + n1)) bytes)). unfold slice. rewrite take_take, skipn_firstn_comm. repeat f_equal; lia. }
  assert (Hnext : forall dk', disk_written inum (off + p) (slice bytes p n1) dkp dk' -> disk_written inum off (take (Z.to_nat (p + n1)) bytes) dk dk').
  { intros dk' W. rewrite Htk. eapply written_more; [done|exact P3|]. by rewrite Hlp, Z2Nat.id by lia. }
  eapply triple_at_step, triple_getf; [exact Hfl|]. pose proof (dw_type _ _ _ _ _ P3) as Ety.
  eapply (chunk_at s0 f fl' ip i _ (slice bytes p n1) (off + p) n1 x dkp); rewrite ?P5, ?Ety; try done.
  - apply P3.
  - by apply source_chunk; [|lia].
  - lia.
  - lia.
  - lia.
  - lia.
  - intros x' Hr. by apply (Hc x' p dkp).
  - intros x' dk' W Hr. eapply (Hc x' (p + n1) dk'); [lia|by apply Hnext|done].
  - intros x' dk' i' J1 J2 W Hs En E' K'. rewrite (proj2 (Z.ltb_ge n1 0)) by lia. rewrite Z.eqb_refl. cbn [negb].
    replace (n - p - n1) with (n - (p + n1)) in Hch, Hch0 by lia.
    eapply (IH (p + n1) x' dk' i'); [lia|exact J1|exact J2|by apply Hnext|lia|congruence|done| |lia].
    etrans; [|exact K']. unfold kept in P7 |- *. rewrite P7. simpl. rewrite !list_insert_insert_eq.
    replace (off + p + n1) with (off + (p + n1)) by lia. by destruct x0.
Qed.
End Loop.
End Locks.

Section Theorems.
Context `{D : Disk} {dsize : Z} `{!DiskLaws dsize} `{Devsw}.
Variables start lsize : Z.
Context (sb : superblock).

Notation geometry := (geometry (dsize := dsize) start lsize).
Notation up := (up (dsize := dsize) start lsize).
Notation comes_back := (comes_back (dsize := dsize) start lsize).
Notation fsys := (fsys (dsize := dsize) start lsize sb).
Notation intx := (holding (dsize := dsize) start lsize ∅).
Notation disk_written := (disk_written (dsize := dsize) start lsize sb).

(** File descriptor entry [f] is open for writing on the file of inode cache entry [ip]. *)
Record writable (s : kst) (dk : Z -> list Z) (f : nat) (fl : file) (ip : nat) (i : inode) : Prop := mkwritable {
  wt_file : files (fs s) !! f = Some fl;
  wt_type : f_type fl = FD_INODE;
  wt_mode : f_writable fl <> 0;
  wt_ip : f_ip fl = Some ip;
  wt_inode : inodes (fs s) !! ip = Some i;
  wt_entry : entry sb dk i;
  wt_alloc : i_type (dinode dk (i_inum i)) <> 0;
  wt_nodev : i_type (dinode dk (i_inum i)) <> T_DEV
}.

Lemma fsys_names dk dk' : fsys dk -> fsys dk' -> sb_names_log start lsize dk -> sb_names_log start lsize dk'.
Proof.
  intros F F' [N1 N2]. pose proof (bm_sb _ _ _ _ (do_bm _ _ _ _ (fy_disk _ _ _ _ F))) as E.
  pose proof (bm_sb _ _ _ _ (do_bm _ _ _ _ (fy_disk _ _ _ _ F'))) as E'. by split; rewrite E', <- E.
Qed.

(** C2: what [filewrite] writes is durable.  Called for an open file on a disk of
    files with enough free blocks and within the largest file, it
    returns the number of bytes; the file on the disk has the bytes of user memory
    from the offset on, every other file, its inode and its bytes are as they
    were, no two files share a block, and the offset has moved.  However
    long the write, none of its transactions is too big for the log.  If the
    machine loses power before any write to the disk, then when it is switched
    on again (and whatever happens while it recovers) it comes up with a disk
    of files in which a first part of the bytes has been written. *)
Theorem filewrite_durable s dk f fl ip i addr bytes :
  let n := Z.of_nat (length bytes) in let inum := i_inum i in let off := f_off fl in
  geometry -> 8 < lsize -> sb_names_log start lsize dk -> up dk s -> fsys dk ->
  writable s dk f fl ip i -> user_bytes s addr bytes ->
  0 <= off <= Z.of_nat (length (content dk (dinode dk inum))) -> off + n <= MAXFILE * BSIZE -> 4 * chunks n <= spare sb dk inum ->
  wp (fun s' => exists m dk', 0 <= m <= n /\ disk_written inum off (take (Z.to_nat m) bytes) dk dk' /\
        forall k, comes_back k dk' (disk (fs s') 1))
    (filewrite f addr n s)
    (fun r s' => r = n /\ exists dk' i', up dk' s' /\ disk_written inum off bytes dk dk' /\
       files (fs s') = <[f := set_f_off (off + n) fl]> (files (fs s)) /\
       inodes (fs s') = <[ip := i']> (inodes (fs s)) /\ entry sb dk' i' /\ i_inum i' = inum).
Proof.
  intros n inum off G Hlz N (Hs & Hidle & Hbz & _) F [W1 W2 W3 W4 W5 W6 W7 W8] Hu Ho Hmax Hsp.
  assert (Hd : 1 < dsize) by (destruct G; lia).
  set (cr := fun x => exists m dk', 0 <= m <= n /\ disk_written inum off (take (Z.to_nat m) bytes) dk dk' /\
    recovers_to (dsize := dsize) start lsize (disk x 1) dk').
  set (pg := progress (dsize := dsize) start lsize sb f fl ip inum off bytes dk (fs s)).
  assert (P : pg 0 (fs s) dk i).
  { split; [done|done|by apply written_none|by rewrite Z.sub_0_r|done|done|].
    rewrite Z.add_0_r. unfold kept. rewrite list_insert_id by done. rewrite list_insert_id by (rewrite W1; by destruct fl).
    by destruct (fs s). }
  assert (T : triple_at s [] cr (filewrite f addr n) [] (fs s) (fun r x => r = n /\ exists dk' i', pg n x dk' i')).
  { unfold filewrite. eapply triple_at_step, triple_getf; [done|]. rewrite (proj2 (Z.eqb_neq _ _)), W2 by done.
    eapply triple_at_bind, (filewrite_loop_at start lsize sb s f fl ip inum off addr bytes dk (fs s)); try done.
    - intros x' m dk' Hm Dw Hr. by exists m, dk'.
    - lia.
    - by rewrite W5.
    - rewrite Z.sub_0_r. unfold chunks. change FILEMAX with 1536. fold n. Z.div_mod_to_equations. lia.
    - intros x' dk' i' P'. apply triple_at_of. tstep. fold n. rewrite Z.eqb_refl. split; [done|]. by exists dk', i'. }
  eapply (wp_mono (fun s' => cr (fs s'))); [by apply T| |].
  - intros s' (m & dk' & Hm & Dw & Hr). exists m, dk'. split_and!; [lia|lia|done|]. intros k. apply recovers_comes_back; try done.
    eapply fsys_names; [exact F|apply Dw|done].
  - intros r s' (Hs' & _ & -> & dk' & i' & [P1 P2 P3 P4 P5 P6 P7]). split; [done|]. exists dk', i'.
    rewrite (kept_files _ _ P7), (kept_inodes _ _ P7). split_and!; try done.
    + split_and!; try done. intros sec. by apply (idle_disk (dsize := dsize)).
    + by rewrite firstn_all2 in P3 by (unfold n; lia).
Qed.
End Theorems.

(** ** A machine with one file *)

(** 100 sectors, the last ten for the log; inode 1 is a file of three bytes in block 5.  As on
    the image of [mkfs], the blocks of the log are not marked in the bitmap. *)
Definition demo1_sb : list Z := wr32 (wr32 (wr32 (replicate 512 0) 0 100) 8 4) 12 10.
Definition demo1_iblock : list Z := wr32 (wr32 (wr16 (wr16 (replicate 512 0) 128 T_FILE) 134 1) 136 3) 204 5.
Definition demo1_bitmap : list Z := <[0%nat := 0x3f]> (replicate 512 0).
Definition demo1 : Z -> list Z :=
  <[5 := [7; 8; 9] ++ replicate 509 0]> (<[4 := demo1_bitmap]> (<[2 := demo1_iblock]> (<[1 := demo1_sb]> (fun _ => replicate 512 0)))).

Definition demo1_super : superblock := sb_of demo1_sb.

Lemma forall_range lo n (P : Z -> bool) : forallb P (seqZ lo n) = true -> forall k, lo <= k < lo + n -> P k = true.
Proof. intros H k Hk. eapply forallb_forall; [exact H|]. apply list_elem_of_In, elem_of_seqZ. lia. Qed.

Lemma demo1_inums (P : Z -> Prop) : P 1 -> P 2 -> P 3 -> forall inum, 0 < inum < 4 -> P inum.
Proof. intros H1 H2 H3 inum Hi. assert (inum = 1 \/ inum = 2 \/ inum = 3) as [->|[->| ->]] by lia; done. Qed.

Lemma demo1_slot inum k : 0 < inum < 4 -> 0 <= k < 141 -> slot demo1 (dinode demo1 inum) k = if (inum =? 1) && (k =? 0) then 5 else 0.
Proof.
  intros Hi Hk. apply Z.eqb_eq. revert k Hk. revert inum Hi.
  apply (demo1_inums (fun inum => forall k, 0 <= k < 141 -> (slot demo1 (dinode demo1 inum) k =? if (inum =? 1) && (k =? 0) then 5 else 0) = true)).
  - apply (forall_range 0 141 (fun k => slot demo1 (dinode demo1 1) k =? if (1 =? 1) && (k =? 0) then 5 else 0)). vm_compute. reflexivity.
  - apply (forall_range 0 141 (fun k => slot demo1 (dinode demo1 2) k =? if (2 =? 1) && (k =? 0) then 5 else 0)). vm_compute. reflexivity.
  - apply (forall_range 0 141 (fun k => slot demo1 (dinode demo1 3) k =? if (3 =? 1) && (k =? 0) then 5 else 0)). vm_compute. reflexivity.
Qed.

Lemma demo1_fields inum : 0 < inum < 4 -> i_size (dinode demo1 inum) = (if inum =? 1 then 3 else 0) /\ length (i_addrs (dinode demo1 inum)) = 13%nat.
Proof.
  revert inum. apply (demo1_inums (fun inum => _ = _ /\ _ = _)); split; vm_compute; reflexivity.
Qed.

Lemma demo1_used b : 0 <= b < 100 -> used demo1_super demo1 b = (b <? 6).
Proof.
  intros Hb. apply eqb_true_iff. revert b Hb.
  apply (forall_range 0 100 (fun b => Bool.eqb (used demo1_super demo1 b) (b <? 6))). vm_compute. reflexivity.
Qed.

Lemma insert_length (dk : Z -> list Z) a d n : (forall s, length (dk s) = n) -> length d = n -> forall s, length (<[a := d]> dk s) = n.
Proof. intros H1 H2 s. destruct (decide (a = s)) as [->|]; [by rewrite fn_lookup_insert|by rewrite fn_lookup_insert_ne]. Qed.

Lemma demo1_length s : length (demo1 s) = 512%nat.
Proof. unfold demo1. revert s. repeat (apply insert_length; [|vm_compute; reflexivity]). intros s. apply length_replicate. Qed.

Lemma demo1_sizes : sb_size demo1_super = 100 /\ sb_ninodes demo1_super = 4 /\ bmb demo1_super = 4 /\ sb_nlog demo1_super = 10.
Proof. split_and!; vm_compute; reflexivity. Qed.

Lemma demo1_disk_ok : disk_ok (dsize := 100) 90 10 demo1_super demo1.
Proof.
  destruct demo1_sizes as (Es & En & Eb & El). split; rewrite ?Es, ?En, ?El.
  - split; [vm_compute; reflexivity|]. rewrite Es, En. intros b Hb. assert (BBLOCK b 4 = 4) as ->.
    { unfold BBLOCK. rewrite Z.div_small by (unfold BPB, BSIZE; lia). reflexivity. }
    split; [split; [lia|unfold inlog; lia]|]. rewrite demo1_length. reflexivity.
  - unfold BPB, BSIZE. lia.
  - lia.
  - intros inum Hi. assert (IBLOCK inum = 2) as -> by (unfold IBLOCK; change IPB with 4; Z.div_mod_to_equations; lia).
    split; [lia|unfold inlog; lia].
  - intros s _. rewrite demo1_length. reflexivity.
  - unfold data_end. rewrite Es, El. intros b Hb. rewrite demo1_used by lia. intros H1%Z.ltb_ge.
    unfold data_area. rewrite Eb, Es. split; [lia|]. split; [lia|unfold inlog; lia].
Qed.

Lemma demo1_ok : fsys (dsize := 100) 90 10 demo1_super demo1.
Proof.
  destruct demo1_sizes as (Es & En & Eb & _). change NSLOT with 141 in *.
  split; [apply demo1_disk_ok| |]; rewrite En.
  - intros inum Hi. destruct (demo1_fields inum Hi) as [F1 F2]. change NSLOT with 141.
    split; change NSLOT with 141; [done|rewrite F1; change (MAXFILE * BSIZE) with 71680; destruct (inum =? 1); lia| | |].
    + intros k Hk. rewrite demo1_slot by lia. destruct ((inum =? 1) && (k =? 0)); [|done]. intros _.
      rewrite demo1_used by lia. split; [|done]. unfold data_area. rewrite Eb, Es. split; [lia|]. split; [lia|unfold inlog; lia].
    + intros k k' Hk Hk'. rewrite !demo1_slot by lia.
      destruct (inum =? 1), (Z.eqb_spec k 0), (Z.eqb_spec k' 0); simpl; lia.
    + intros bn Hb. rewrite F1. unfold BSIZE. destruct (Z.eqb_spec inum 1) as [->|]; [|lia]. intros Hlt. assert (bn = 0) as -> by lia.
      vm_compute. discriminate.
  - change NSLOT with 141. intros inum inum' k k' Hi Hi' Hne Hk Hk'. rewrite !demo1_slot by lia.
    destruct (Z.eqb_spec inum 1), (Z.eqb_spec inum' 1), (k =? 0), (k' =? 0); simpl; lia.
Qed.

(** The file is open at its end; user memory is full of the letter A. *)
Definition demo1_file : file := mkfile FD_INODE 1 1 1 0 (Some 0%nat) 3.

Definition demo1_kst (flags : Z) : kst :=
  set_mem (fun _ => 65) (set_fs (set_inodes [get_dinode demo1_iblock 128 (mkinode 1 1 1 flags 0 0 0 0 0 [])]
    (set_files [demo1_file] (set_disk (<[1 := demo1]> (fun _ _ => [])) (fs demo)))) demo).

Definition NoDev : Devsw := {| dev_read := fun _ => None; dev_write := fun _ => None |}.

Lemma demo1_names : sb_names_log 90 10 demo1.
Proof. split; vm_compute; reflexivity. Qed.

Lemma demo1_boot s :
  sys [] s -> powered (fs s) -> disk (fs s) 1 = demo1 ->
  wp (fun _ => True) (boot (H := CrashDisk 100) s) (fun _ s' => up (dsize := 100) 90 10 demo1 s' /\ frame s s' /\ kept (fs s) (fs s')).
Proof.
  intros Hs Hp Hd. eapply wp_mono.
  - eapply (boot_triple (D := CrashDisk 100) (dsize := 100) 90 10 (fun _ => True) (fs s) demo1
      (fun _ x' => idle (dsize := 100) 90 10 x' demo1 /\ l_busy (lg x') = 0 /\ kept (fs s) x'));
      [apply demo_geometry|lia|apply demo1_names|exact Hp| |done|done|exact Hs|reflexivity].
    rewrite Hd. apply (recovers_clear (D := CrashDisk 100)); [vm_compute; reflexivity|rewrite demo1_length; unfold LOGSIZE; simpl; lia|lia|done].
  - done.
  - intros [] s' (Hs' & Fr & I' & Z' & K'). split_and!; [split_and!|done|done]; [done|done|done|].
    intros sec. by apply (idle_disk (dsize := 100)).
Qed.

Lemma demo1_sys flags : sys [] (demo1_kst flags).
Proof. destruct demo_sys as [[l Hl] H1 H2 H3 H4 H5 H6]. split; [|exact H1|exact H2|exact H3|exact H4|exact H5|exact H6]. exists l. by apply (mlfq_ext _ demo). Qed.

Lemma demo1_powered flags : powered (fs (demo1_kst flags)).
Proof. split; [reflexivity|apply flags_fsst0|reflexivity|reflexivity]. Qed.

Lemma filewrite_durable_witness :
  wp (fun _ => True) (bind (boot (H := CrashDisk 100)) (fun _ => filewrite (H := CrashDisk 100) (H0 := NoDev) 0 (2 ^ 31) 2000) (demo1_kst 0))
    (fun r s' => r = 2000 /\ exists dk, up (dsize := 100) 90 10 dk s' /\ content dk (dinode dk 1) = [7; 8; 9] ++ replicate 2000 65).
Proof.
  apply wp_bind. eapply wp_mono; [apply (demo1_boot (demo1_kst 0) (demo1_sys 0) (demo1_powered 0) eq_refl)|done|]. intros [] s1 (U1 & F1 & K1).
  eapply wp_mono.
  - apply (filewrite_durable (D := CrashDisk 100) (H := NoDev) 90 10 demo1_super s1 demo1 0 demo1_file 0
      (get_dinode demo1_iblock 128 (mkinode 1 1 1 0 0 0 0 0 0 [])) (2 ^ 31) (replicate 2000 65));
      [apply demo_geometry|lia|apply demo1_names|exact U1|apply demo1_ok| | | | |].
    + split; [by rewrite (kept_files _ _ K1)|done|done|done|by rewrite (kept_inodes _ _ K1)| |vm_compute; discriminate|vm_compute; discriminate].
      split; [done|done|done|vm_compute; split; reflexivity|done].
    + intros j v Hj. apply lookup_replicate in Hj as [-> Hj]. rewrite (frame_peek8 (demo1_kst 0)) by done.
      unfold peek8, translate. rewrite (proj2 (Z.leb_le _ _)); [reflexivity|].
      unfold KERNBASE, u32. rewrite Z.mod_small by lia. lia.
    + rewrite length_content. vm_compute. split; discriminate.
    + rewrite length_replicate. change (MAXFILE * BSIZE) with 71680. simpl. lia.
    + vm_compute. discriminate.
  - done.
  - intros r s' (-> & dk & i' & U & W & _). split; [by rewrite length_replicate|]. exists dk. split; [done|].
    pose proof (dw_content _ _ _ _ _ _ _ _ W) as E. etrans; [exact E|]. vm_compute. reflexivity.
Defined.
