(* ===== verification/ReadThm.v ===== *)
(** * Reading a file into memory

    [readi] of [fs.c] for both of its destinations, a local variable of the kernel and a
    buffer in memory: it delivers the bytes of the file. *)

From stdpp Require Import base list numbers strings tactics gmap functions.
From Stdlib Require Import Lia.
From S2P Require Import Prelude Params StringC FsState KState Spinlock Mmu Sched Runs Bio BioSpec BioThm Log LogSpec LogThm Fs BlockThm Inode InodeThm PipeThm File FileThm.

Local Open Scope Z_scope.
Local Open Scope xv6_scope.

#[local] Opaque HEAD.

(** ** Triples for code that stores into memory

    The machine is [s0] with the memory [mm] and another file system. *)

Definition triple_to {A} (s0 : kst) (h : list lockid) (c : fsst -> Prop) (m : M kst A) (h' : list lockid)
    (x : fsst) (mm : memory) (q : A -> fsst -> memory -> Prop) : Prop :=
  forall s, frame (set_mem mm s0) s -> sys h s -> fs s = x ->
    wp (fun s => c (fs s)) (m s) (fun a s' => sys h' s' /\ frame (set_mem (mem s') s0) s' /\ q a (fs s') (mem s')).

Lemma frame_mem s s' : frame s s' -> mem s' = mem s.
Proof. intros [E _]. rewrite E. by destruct s. Qed.

Lemma frame_mem_mem mm s0 s m : frame (set_mem mm s0) s -> frame (set_mem m s0) (set_mem m s).
Proof. intros [E H]. split; [rewrite E; by destruct s0|exact H]. Qed.

Lemma sys_set_mem h s m : sys h s -> sys h (set_mem m s).
Proof. intros []. split; simpl; try done. destruct sys_q as [q Hq]. exists q. by apply (mlfq_ext _ s). Qed.

Lemma frame_buffer mm s0 s addr n ph :
  frame (set_mem mm s0) s -> user_buffer (set_mem mm s0) addr n ph -> user_buffer s addr n ph.
Proof.
  intros F [H1 H2]. pose proof (frame_mem _ _ F) as Em. destruct F as [E _]. split; [done|]. intros m i Hm Hi. rewrite Em in Hm.
  rewrite <- (H2 m i Hm Hi). rewrite E. by destruct s0.
Qed.

Section To.
Context {s0 : kst} {h : list lockid} {c : fsst -> Prop}.

Lemma triple_to_ret {A} (a : A) x mm (q : A -> fsst -> memory -> Prop) : q a x mm -> triple_to s0 h c (ret a) h x mm q.
Proof.
  intros Hq s F Hs <-. simpl. pose proof (frame_mem _ _ F) as Em. change (mem (set_mem mm s0)) with mm in Em.
  rewrite Em. by split_and!.
Qed.

Lemma triple_to_step {A B} (m : M kst A) (f : A -> M kst B) h1 h2 x mm q :
  triple h c m h1 x (fun a x' => triple_to s0 h1 c (f a) h2 x' mm q) -> triple_to s0 h c (bind m f) h2 x mm q.
Proof.
  intros H s F Hs Hx. apply wp_bind. eapply wp_mono; [by apply H|done|].
  intros a s1 (Hs1 & F1 & H1). apply (H1 s1); [by etrans|done|done].
Qed.

Lemma triple_to_bind {A B} (m : M kst A) (f : A -> M kst B) h1 h2 x mm q :
  triple_to s0 h c m h1 x mm (fun a x' mm' => triple_to s0 h1 c (f a) h2 x' mm' q) -> triple_to s0 h c (bind m f) h2 x mm q.
Proof.
  intros H s F Hs Hx. apply wp_bind. eapply wp_mono; [by apply (H s)|done|].
  intros a s1 (Hs1 & F1 & H1). by apply (H1 s1).
Qed.

(** Bytes that go into the buffer. *)
Lemma put_va_to {B} addr n ph o l (f : unit -> M kst B) h' x mm q :
  user_buffer (set_mem mm s0) addr n ph -> (o + length l <= n)%nat ->
  (forall mm', stored mm mm' ph o (u8 <$> l) -> triple_to s0 h c (f tt) h' x mm' q) ->
  triple_to s0 h c (bind (put_va (u32 (addr + Z.of_nat o)) l) f) h' x mm q.
Proof.
  intros Hu Hn Hf s F Hs Hx. pose proof (frame_mem _ _ F) as Em. change (mem (set_mem mm s0)) with mm in Em.
  destruct (put_va_buffer s addr n ph o l (frame_buffer _ _ _ _ _ _ F Hu) Hn) as (m & E & St). rewrite Em in St.
  unfold bind. rewrite E. simpl. apply (Hf m St); [by eapply frame_mem_mem|by apply sys_set_mem|by destruct s].
Qed.
End To.

(** ** readi *)

(** The destination has room for [n] bytes; in memory, they are at the addresses [ph]. *)
Definition dest_at (s : kst) (dst : dest) (n : nat) (ph : nat -> Z) : Prop :=
  match dst with ToMem a => is_u32 a /\ user_buffer s a n ph | ToLocal => True end.

(** The bytes [l] are there, and the rest of memory is as it was; a local variable of the
    caller is not in memory. *)
Definition delivered (dst : dest) (ph : nat -> Z) (l : list Z) (m m' : memory) : Prop :=
  match dst with ToMem _ => stored m m' ph 0 (u8 <$> l) | ToLocal => m' = m end.

Section Read.
Context `{D : Disk} {dsize : Z} `{!DiskLaws dsize} `{Devsw}.
Context {c : fsst -> Prop}.
Variables start lsize : Z.
Context (sb : superblock).

Notation views := (views start lsize).
Notation disk_ok := (disk_ok (dsize := dsize) start lsize sb).
Notation inode_ok := (inode_ok (dsize := dsize) start lsize sb).

Lemma readi_loop_to s0 addr N ph k ip i off n acc pre x mm a dk (q : list Z -> fsst -> memory -> Prop) :
  user_buffer s0 addr N ph -> stored (mem s0) mm ph 0 (u8 <$> pre) -> Z.of_nat (length pre) + n <= Z.of_nat N ->
  views x a dk -> inodes x !! ip = Some i -> i_dev i = 1 -> disk_ok dk -> inode_ok dk i ->
  0 <= off -> 0 <= n -> off + n <= i_size i -> (nblk off n < k)%nat ->
  (forall x' mm', looked x a x' -> stored (mem s0) mm' ph 0 (u8 <$> (pre ++ slice (content dk i) off n)) ->
    q (acc ++ slice (content dk i) off n) x' mm') ->
  triple_to s0 [] c (readi_loop k ip (ToMem (u32 (addr + Z.of_nat (length pre)))) off n acc) [] x mm q.
Proof.
  intros Hu. revert off n acc pre x mm.
  induction k as [|k IH]; intros off n acc pre x mm St HN V Hip Hdev Hd Hi Ho Hn Hs Hk Hq; [lia|].
  cbn [readi_loop]. destruct (Z.ltb_spec 0 n) as [Hpos|Hz]; cycle 1.
  { assert (n = 0) as -> by lia. apply triple_to_ret. specialize (Hq x mm). unfold slice in Hq. simpl in Hq. rewrite !app_nil_r in Hq.
    apply Hq; [|done]. split_and!; [apply V|reflexivity|done]. }
  destruct (nblk_step off n Ho Hpos) as (Hblk & Hm & Hmb & _). set (m := Z.min n (BSIZE - off mod BSIZE)) in *.
  pose proof (fo_size _ _ _ _ _ Hi) as Hsz. destruct (block_range off ltac:(lia)) as [Hbn Hmod].
  assert (Hsl : slot dk i (idx (off / BSIZE)) <> 0) by (apply (fo_full _ _ _ _ _ Hi); unfold BSIZE in *; Z.div_mod_to_equations; lia).
  destruct (slot_data start lsize sb dk i _ Hd Hi (proj1 (idx_range _ Hbn)) Hsl) as (_ & [Hs1 Hs2] & _ & _).
  eapply triple_to_step, triple_geti; [done|]. eapply triple_to_step, (bmap_look start lsize sb); try done. intros x1 L1. rewrite Hdev.
  pose proof (looked_views _ _ _ _ _ _ V L1) as V1.
  eapply triple_to_step, (bread_look start lsize); [exact V1|lia|done|]. intros b x2 L2.
  eapply triple_to_step, (bdata_look start lsize); [exact V1|done|exact L2|]. rewrite (block_content start lsize sb) by (done || lia). cbn [put_dest].
  set (l := slice (content dk i) off m).
  assert (Hl : Z.of_nat (length l) = m).
  { unfold l, slice. rewrite length_take, length_drop, length_content. lia. }
  eapply put_va_to; [by eapply user_buffer_stored; [exact Hu|exact St|rewrite length_fmap; lia]|lia|]. intros mm1 St1.
  eapply triple_to_step, (brelse_look start lsize); [exact V1|exact L2|]. intros x3 L3. pose proof (looked_trans _ _ _ _ L1 L3) as L.
  cbn [dest_add]. rewrite u32_add. replace (addr + Z.of_nat (length pre) + m) with (addr + Z.of_nat (length (pre ++ l))) by (rewrite length_app; lia).
  eapply IH; [|rewrite length_app; lia|by eapply looked_views|by rewrite (looked_inodes _ _ _ L)|done|done|done|lia|lia|lia|lia|].
  { rewrite fmap_app. eapply stored_app; [apply (ub_inj _ _ _ _ Hu)|rewrite !length_fmap; lia|exact St|by rewrite length_fmap]. }
  intros x4 mm4 L4 St4. rewrite <- (assoc_L app) in St4 |- *. unfold l in *. rewrite slice_split in St4 |- * by lia.
  apply Hq; [by eapply looked_trans|done].
Qed.

(** The bounds of [readi]. *)
Lemma readi_bounds sz off n :
  0 <= sz < 2 ^ 31 -> is_u32 off -> is_u32 n ->
  (sz <? off) || (u32 (off + n) <? off) = (sz <? off) || (2 ^ 32 <=? off + n) /\
  ((sz <? off) || (2 ^ 32 <=? off + n) = false ->
    0 <= Z.min n (sz - off) < 2 ^ 31 /\ (if sz <? u32 (off + n) then sz - off else n) = Z.min n (sz - off)).
Proof.
  unfold is_u32. intros Hsz Ho Hn. split.
  - f_equal. unfold u32. destruct (Z.leb_spec (2 ^ 32) (off + n)).
    + apply Z.ltb_lt. Z.div_mod_to_equations. lia.
    + apply Z.ltb_ge. rewrite Z.mod_small by lia. lia.
  - intros [H1%Z.ltb_ge H2%Z.leb_gt]%orb_false_iff. split; [lia|]. rewrite u32_small by (unfold is_u32; lia).
    destruct (Z.ltb_spec sz (off + n)); lia.
Qed.

Lemma readi_to s ip i dst ph off n a dk (q : Z * list Z -> fsst -> memory -> Prop) :
  let r := read_result (content dk i) off n in
  views (fs s) a dk -> inodes (fs s) !! ip = Some i -> i_dev i = 1 -> disk_ok dk -> inode_ok dk i -> i_type i <> T_DEV ->
  is_u32 off -> is_u32 n -> dest_at s dst (length r.2) ph ->
  (forall x' mm', looked (fs s) a x' -> delivered dst ph r.2 (mem s) mm' -> q r x' mm') ->
  triple_to s [] c (readi ip dst off n) [] (fs s) (mem s) q.
Proof.
  intros r V Hip Hdev Hd Hi Hty Ho Hn Hu Hq. destruct dst as [addr|]; cycle 1.
  { intros s1 F Hs Hx. eapply wp_mono; [apply (readi_look (c := c) start lsize sb ip i off n (fs s) a dk (fun r x' => looked (fs s) a x' /\ r = read_result (content dk i) off n)); [done..|by intros|exact Hs|exact Hx]|done|].
    intros r1 s2 (Hs2 & F2 & L & ->). pose proof (frame_mem _ _ F) as E1. pose proof (frame_mem _ _ F2) as E2.
    change (mem (set_mem (mem s) s)) with (mem s) in E1. rewrite E2, E1. split_and!; [done|by etrans|by apply Hq]. }
  destruct Hu as [Ha Hu]. unfold readi. eapply triple_to_step, triple_geti; [done|]. rewrite (proj2 (Z.eqb_neq _ _)) by done.
  pose proof (fo_size _ _ _ _ _ Hi) as Hsz. change (MAXFILE * BSIZE) with 71680 in Hsz.
  destruct (readi_bounds (i_size i) off n ltac:(lia) Ho Hn) as [E1 E2]. rewrite E1.
  unfold r, read_result in Hu, Hq. rewrite length_content, Z2Nat.id in Hu, Hq by lia.
  destruct ((i_size i <? off) || (2 ^ 32 <=? off + n)) eqn:Eb.
  { apply triple_to_ret, Hq; [|apply stored_nil]. split_and!; [apply V|reflexivity|done]. }
  destruct (E2 eq_refl) as [Hm ->]. assert (Hoff : off + Z.min n (i_size i - off) <= i_size i) by lia.
  set (m := Z.min n (i_size i - off)) in *. cbn [snd] in Hu, Hq.
  assert (Hl : Z.of_nat (length (slice (content dk i) off m)) = m).
  { unfold slice. rewrite length_take, length_drop, length_content. unfold is_u32 in *. lia. }
  rewrite <- (u32_small addr Ha). replace addr with (addr + Z.of_nat (length ([] : list Z))) by (simpl; lia).
  eapply triple_to_bind, readi_loop_to; [exact Hu|apply stored_nil|simpl; lia|done|done|done|done|done|unfold is_u32 in *; lia|lia|lia|apply nblk_fuel; unfold is_u32 in *; lia|].
  intros x' mm' L' St. apply triple_to_ret. rewrite s32_small by (unfold is_s32; lia). by apply Hq.
Qed.
End Read.

Section Delivery.
Context `{D : Disk} {dsize : Z} `{!DiskLaws dsize} `{Devsw}.
Variables start lsize : Z.
Context (sb : superblock).

Notation up := (up (dsize := dsize) start lsize).
Notation fsys := (fsys (dsize := dsize) start lsize sb).
Notation intx := (holding (dsize := dsize) start lsize ∅).

(** C9: [readi] delivers the bytes of the file.  For an inode that the process has locked,
    not of a device, outside of a transaction as in a transaction (whose own writes it
    sees), it returns the number of bytes from the offset to the end of the file, at most
    as many as were asked for, and -1 for an offset past the end or a range past the last
    address.  If the destination is memory (a buffer of that size that is mapped for
    writing and not part of the page tables), these bytes are in the buffer, in order, and
    no other byte of memory has changed; if it is a variable of the kernel, they are the
    value of the variable, and memory has not changed.  Files, the disk and the rest of the
    kernel are as they were. *)
Theorem readi_content s ip i dst ph off n dk :
  let r0 := read_result (content dk (dinode dk (i_inum i))) off n in
  inodes (fs s) !! ip = Some i -> fsys dk -> locked sb dk i -> i_type i <> T_DEV -> is_u32 off -> is_u32 n ->
  dest_at s dst (length r0.2) ph ->
  (up dk s -> wp (fun _ => True) (readi ip dst off n s) (fun r s' =>
    r = r0 /\ delivered dst ph r0.2 (mem s) (mem s') /\ up dk s' /\ kept (fs s) (fs s') /\ frame (set_mem (mem s') s) s')) /\
  (forall a secs old, sys [] s -> intx (fs s) a secs old dk ->
    wp (fun _ => True) (readi ip dst off n s) (fun r s' =>
      r = r0 /\ delivered dst ph r0.2 (mem s) (mem s') /\ sys [] s' /\ intx (fs s') a secs old dk /\ kept (fs s) (fs s') /\
      frame (set_mem (mem s') s) s')).
Proof.
  intros r0 Hip F [_ _ _ A] Hty Ho Hn Hu. pose proof (agrees_ok _ _ _ _ _ F A) as Hi.
  assert (E0 : r0 = read_result (content dk i) off n) by (unfold r0; by rewrite (agrees_content sb dk i)).
  assert (T : forall a, views start lsize (fs s) a dk -> triple_to s [] (fun _ => True) (readi ip dst off n) [] (fs s) (mem s)
    (fun r x' mm' => r = r0 /\ looked (fs s) a x' /\ delivered dst ph r0.2 (mem s) mm')).
  { intros a V. eapply (readi_to start lsize sb); try done; [apply A|apply F|by rewrite <- E0|]. rewrite <- E0. by intros. }
  assert (Fr : frame (set_mem (mem s) s) s) by (split; [by destruct s|done]).
  split.
  - intros (Hs & Hidle & Hbz & _). destruct (idle_views start lsize _ _ Hidle) as (a & V & Hback).
    eapply wp_mono; [by apply (T a V s)|done|]. intros r s' (Hs' & Fs' & -> & L' & Hd). destruct (Hback _ L') as [J1 J2].
    split_and!; [done|done| |by apply rest_kept, L'|done]. split_and!; [done|done|congruence|]. intros sec. by apply (idle_disk (dsize := dsize)).
  - intros a secs old Hs I. eapply wp_mono; [by apply (T a ltac:(by eapply intx_views) s)|done|]. intros r s' (Hs' & Fs' & -> & L' & Hd).
    split_and!; [done|done|done|by eapply intx_looked|by apply rest_kept, L'|done].
Qed.
End Delivery.

(** The machine of [FileThm] with a page of user memory. *)
Definition demo2_kst : kst := set_cr3 0x400000 (set_mem demo_mem (demo1_kst 3)).

Lemma sys_set_cr3 h s a : sys h s -> sys h (set_cr3 a s).
Proof. intros []. split; simpl; try done. destruct sys_q as [q Hq]. exists q. by apply (mlfq_ext _ s). Qed.

Lemma demo2_sys : sys [] demo2_kst.
Proof. apply sys_set_cr3, sys_set_mem, demo1_sys. Qed.

Lemma readi_content_witness :
  wp (fun _ => True) (bind (boot (H := CrashDisk 100)) (fun _ => readi (H := CrashDisk 100) (H0 := NoDev) 0 (ToMem 16) 1 10) demo2_kst)
    (fun r s' => r = (2, [8; 9]) /\ mem s' 0x80402010 = 8 /\ mem s' 0x80402011 = 9 /\ mem s' 0x80402012 = 0).
Proof.
  apply wp_bind. eapply wp_mono; [apply (demo1_boot demo2_kst demo2_sys (demo1_powered 3) eq_refl)|done|]. intros [] s1 (U1 & F1 & K1).
  assert (Em : mem s1 = demo_mem) by exact (frame_mem _ _ F1).
  destruct (readi_content (D := CrashDisk 100) (H := NoDev) 90 10 demo1_super s1 0
    (get_dinode demo1_iblock 128 (mkinode 1 1 1 3 0 0 0 0 0 [])) (ToMem 16) (fun j => 0x80402010 + Z.of_nat j) 1 10 demo1) as [H1 _].
  - by rewrite (kept_inodes _ _ K1).
  - apply demo1_ok.
  - split; [done|vm_compute; reflexivity|vm_compute; reflexivity|].
    split; [done|vm_compute; split; reflexivity|reflexivity].
  - vm_compute. discriminate.
  - unfold is_u32. lia.
  - unfold is_u32. lia.
  - split; [unfold is_u32; lia|]. replace (length _) with 2%nat by (vm_compute; reflexivity).
    apply demo_buffer; [destruct F1 as [-> _]; reflexivity|exact Em].
  - eapply wp_mono; [apply (H1 U1)|done|]. intros r s' (-> & [B1 B2] & _). rewrite Em in B2.
    replace (u8 <$> _) with [8; 9] in B1, B2 by (vm_compute; reflexivity).
    split_and!; [vm_compute; reflexivity|exact (B1 0%nat 8 eq_refl)|exact (B1 1%nat 9 eq_refl)|].
    rewrite B2; [vm_compute; reflexivity|]. intros j Hj. simpl in Hj. lia.
Defined.
