(* ===== verification/NameiThm.v ===== *)
(** * Paths lead to files

    [namex] of [fs.c] against the tree of directories on the disk: it finds the inode
    that a walk over the contents of the directories finds, holds one reference
    to it, and has given back the references to the directories on the way. *)

From stdpp Require Import base list numbers strings tactics gmap functions.
From Stdlib Require Import Lia.
From S2P Require Import Prelude Params StringC FsState KState Spinlock Mmu Sched Runs Bio BioSpec BioThm Log LogSpec LogThm Fs BlockThm Inode InodeThm PathThm Pipe File FileThm.

Local Open Scope Z_scope.
Local Open Scope xv6_scope.

(** ** The tree on the disk *)

(** The entries of a directory with these bytes. *)
Definition dirents (l : list Z) : list (list Z) :=
  (fun j => slice l (DIRENT * Z.of_nat j) DIRENT) <$> seq 0 (length l / 16).

Definition entry_is (name de : list Z) : Prop := de_inum de <> 0 /\ name_of (de_name de) = name.

#[export] Instance entry_is_dec name de : Decision (entry_is name de) := _.

(** The inode number of the first entry with that name. *)
Definition dir_find (name : list Z) (l : list (list Z)) : option Z := de_inum <$> head (filter (entry_is name) l).

(** The inode at the end of a path from the directory [inum], or the directory of its
    last element. *)
Fixpoint walk (parent : bool) (dk : Z -> list Z) (inum : Z) (path : list (list Z)) : option Z :=
  match path with
  | [] => if parent then None else Some inum
  | e :: path =>
      if negb (i_type (dinode dk inum) =? T_DIR) then None else
      if parent && bool_decide (path = []) then Some inum else
      next ← dir_find (take (Z.to_nat DIRSIZ) e) (dirents (content dk (dinode dk inum)));
      walk parent dk next path
  end.

(** An inode that a directory may name, and directories in order. *)
Record linked (sb : superblock) (dk : Z -> list Z) (d : Z) : Prop := mklinked {
  ln_inum : 0 < d < sb_ninodes sb;
  ln_type : i_type (dinode dk d) <> 0;
  ln_nlink : i_nlink (dinode dk d) <> 0
}.

Record dir_ok (sb : superblock) (dk : Z -> list Z) (l : list Z) : Prop := mkdir_ok {
  di_len : Z.of_nat (length l) mod DIRENT = 0;
  di_bytes : byte_list l;
  di_linked : forall de, de ∈ dirents l -> de_inum de <> 0 -> linked sb dk (de_inum de)
}.

Record tree (sb : superblock) (dk : Z -> list Z) : Prop := mktree {
  tr_root : linked sb dk ROOTINO;
  tr_dirs : forall d, 0 < d < sb_ninodes sb -> i_type (dinode dk d) = T_DIR -> dir_ok sb dk (content dk (dinode dk d))
}.

Lemma lookup_dirents l j : (j < length l / 16)%nat -> dirents l !! j = Some (slice l (DIRENT * Z.of_nat j) DIRENT).
Proof. intros Hj. unfold dirents. by rewrite list_lookup_fmap, lookup_seq_lt. Qed.

Lemma length_dirents l : length (dirents l) = (length l / 16)%nat.
Proof. unfold dirents. by rewrite length_fmap, length_seq. Qed.

Lemma dir_find_cons name de l :
  dir_find name (de :: l) = if decide (entry_is name de) then Some (de_inum de) else dir_find name l.
Proof. unfold dir_find. rewrite filter_cons. by case_decide. Qed.

(** The test in [dirlookup]. *)
Lemma entry_is_namecmp name de :
  byte_list name -> byte_list de ->
  (if de_inum de =? 0 then false else namecmp name (de_name de) =? 0) = bool_decide (entry_is (name_of name) de).
Proof.
  intros Hn Hd. symmetry. destruct (Z.eqb_spec (de_inum de) 0) as [E|E].
  - apply bool_decide_eq_false_2. by intros [H _].
  - destruct (Z.eqb_spec (namecmp name (de_name de)) 0) as [E'|E'].
    + apply bool_decide_eq_true_2. split; [done|]. symmetry. apply namecmp_zero; [done|by apply Forall_drop|done].
    + apply bool_decide_eq_false_2. intros [_ H]. apply E', namecmp_zero; [done|by apply Forall_drop|done].
Qed.

(** ** References *)

(** [n] more references to the inode [d]. *)
Definition more (d n : Z) (r : Z -> Z) : Z -> Z := fun x => r x + (if x =? d then n else 0).

(** Entry [j] of the inode cache is for the inode [inum]. *)
Definition holds (l : list inode) (j : nat) (inum : Z) : Prop := exists i, l !! j = Some i /\ 0 < i_ref i /\ i_inum i = inum.

Lemma holds_insert l j i' k d : (j < length l)%nat ->
  holds (<[j := i']> l) k d <-> (k = j /\ 0 < i_ref i' /\ i_inum i' = d) \/ (k <> j /\ holds l k d).
Proof.
  intros Hj. unfold holds. destruct (decide (k = j)) as [->|Hne].
  - rewrite list_lookup_insert_eq by done. naive_solver.
  - rewrite list_lookup_insert_ne by done. naive_solver.
Qed.

Lemma agrees_set_ref sb dk n i : agrees sb dk i -> agrees sb dk (set_i_ref n i).
Proof. intros [A1 A2 A3]. split; [done|done|]. rewrite <- A3 at 4. reflexivity. Qed.

Lemma entry_set_ref sb dk n i : 0 < n -> entry sb dk i -> entry sb dk (set_i_ref n i).
Proof. intros Hn [E1 E2 E3 E4 E5]. split; try done. intros Hv. by apply agrees_set_ref, E5. Qed.

Lemma locked_set_ref sb dk n i : 0 < n -> locked sb dk i -> locked sb dk (set_i_ref n i).
Proof. intros Hn [E1 E2 E3 E4]. split; try done. by apply agrees_set_ref. Qed.

Section Cache.
Context (sb : superblock) (dk : Z -> list Z).

(** An inode cache with [r] references to each inode, and at most one entry locked. *)
Record icache (l : list inode) (r : Z -> Z) (lk : option (nat * Z)) : Prop := mkicache {
  ic_live : forall j i, l !! j = Some i -> 0 < i_ref i -> fst <$> lk <> Some j -> entry sb dk i;
  ic_lock : forall j d, lk = Some (j, d) -> exists i, l !! j = Some i /\ locked sb dk i /\ i_inum i = d;
  ic_ref : forall j i, l !! j = Some i -> 0 <= i_ref i /\ (0 < i_ref i -> r (i_inum i) = i_ref i);
  ic_pos : forall d, 0 <= r d;
  ic_has : forall d, 0 < r d -> exists j, holds l j d;
  ic_uniq : forall j j' d, holds l j d -> holds l j' d -> j = j'
}.

Lemma icache_ext l r r' lk : (forall d, r' d = r d) -> icache l r lk -> icache l r' lk.
Proof.
  intros E [A1 A2 A3 A0 A4 A5]. split; try done; [intros j i Hi; rewrite E; by eapply A3|intros d; rewrite E; apply A0|intros d; rewrite E; apply A4].
Qed.

(** Inode numbers with references: no more than entries in use. *)
Lemma icache_free l r lk L :
  icache l r lk -> (forall d, 0 < r d -> d ∈ L) -> (length L < length l)%nat -> exists j i, l !! j = Some i /\ i_ref i = 0.
Proof.
  intros [A1 A2 A3 A0 A4 A5] HL Hlen. destruct (decide (Exists (fun i => i_ref i = 0) l)) as [E|Hno].
  { apply list.Exists_exists in E as (i & [j Hj]%list_elem_of_lookup & Hi). by exists j, i. }
  assert (Hlive : forall j i, l !! j = Some i -> holds l j (i_inum i)).
  { intros j i Hi. destruct (A3 j i Hi) as [H0 _]. exists i. split_and!; [done| |done].
    destruct (decide (i_ref i = 0)) as [E|]; [|lia]. destruct Hno.
    apply list.Exists_exists. exists i. split; [by eapply list_elem_of_lookup_2|done]. }
  assert (Hs : (i_inum <$> l) ⊆+ L).
  { apply NoDup_submseteq.
    - apply NoDup_alt. intros j j' d. rewrite !list_lookup_fmap. intros (i & Hi & ->)%fmap_Some_1 (i' & Hi' & E)%fmap_Some_1.
      apply (A5 j j' (i_inum i)); [by apply Hlive|]. rewrite E. by apply Hlive.
    - intros d (i & -> & [j Hj]%list_elem_of_lookup)%list_elem_of_fmap. apply HL. destruct (Hlive j i Hj) as (i' & Hi' & H0 & _).
      assert (i' = i) as -> by congruence. by rewrite (proj2 (A3 j i Hj) H0). }
  apply submseteq_length in Hs. rewrite length_fmap in Hs. lia.
Qed.

(** A change of one entry, which has been empty or for the same inode. *)
Lemma icache_update l r lk j i i' r' lk' :
  icache l r lk -> l !! j = Some i ->
  (forall d, d <> i_inum i' -> r' d = r d) -> r' (i_inum i') = i_ref i' -> 0 <= i_ref i' ->
  0 < i_ref i /\ i_inum i = i_inum i' \/ i_ref i = 0 /\ r (i_inum i') = 0 ->
  (forall k d, lk' = Some (k, d) -> k = j /\ locked sb dk i' /\ i_inum i' = d \/ k <> j /\ lk = Some (k, d)) ->
  (fst <$> lk' <> Some j -> 0 < i_ref i' -> entry sb dk i') ->
  (forall k, k <> j -> fst <$> lk = Some k -> fst <$> lk' = Some k) ->
  icache (<[j := i']> l) r' lk'.
Proof.
  intros [A1 A2 A3 A0 A4 A5] Hi Hr Hr' H0 Hold Hlk He Hk. assert (Hj : (j < length l)%nat) by by eapply lookup_lt_Some.
  assert (Hoth : forall k, k <> j -> holds l k (i_inum i') -> False).
  { intros k Hne Hh. destruct Hold as [[Hp E]|[Hz E]].
    - apply Hne, (A5 _ _ _ Hh). by exists i.
    - destruct Hh as (i1 & H1 & H2 & H3). pose proof (proj2 (A3 k i1 H1) H2). rewrite H3 in *. lia. }
  split.
  - intros k x Hx Hp Hne. destruct (decide (k = j)) as [->|Hkj].
    + rewrite list_lookup_insert_eq in Hx by done. injection Hx as <-. by apply He.
    + rewrite list_lookup_insert_ne in Hx by done. eapply A1; [done|done|]. intros E. by apply Hne, Hk.
  - intros k d E. destruct (Hlk k d E) as [(-> & Hl & Hd)|[Hne E']].
    + exists i'. by rewrite list_lookup_insert_eq by done.
    + rewrite list_lookup_insert_ne by done. by apply A2.
  - intros k x Hx. destruct (decide (k = j)) as [->|Hkj].
    + rewrite list_lookup_insert_eq in Hx by done. injection Hx as <-. done.
    + rewrite list_lookup_insert_ne in Hx by done. destruct (A3 k x Hx) as [B1 B2]. split; [done|]. intros Hp.
      rewrite Hr; [by apply B2|]. intros E. apply (Hoth k Hkj). rewrite <- E. by exists x.
  - intros d. destruct (decide (d = i_inum i')) as [->|]; [lia|by rewrite Hr].
  - intros d Hd. destruct (decide (d = i_inum i')) as [->|Hne].
    + exists j. apply holds_insert; [done|]. left. split_and!; [done|lia|done].
    + rewrite Hr in Hd by done. destruct (A4 d Hd) as [k Hh]. exists k. apply holds_insert; [done|]. right. split; [|done].
      intros ->. destruct Hh as (i1 & H1 & H2 & H3). assert (i1 = i) as -> by congruence. destruct Hold as [[_ E]|[E _]]; [congruence|lia].
  - intros k k' d. rewrite !holds_insert by done. intros [(-> & P1 & <-)|[N1 B1]] [(-> & P2 & E)|[N2 B2]]; [done|..].
    + by destruct (Hoth k').
    + subst d. by destruct (Hoth k).
    + by eapply A5.
Qed.

Lemma more_eq d n r : more d n r d = r d + n.
Proof. unfold more. by rewrite Z.eqb_refl. Qed.

Lemma more_ne d n r x : x <> d -> more d n r x = r x.
Proof. intros. unfold more. rewrite (proj2 (Z.eqb_neq _ _)) by done. lia. Qed.

(** One more reference to an inode in the cache, ... *)
Lemma icache_hit l r lk j i :
  icache l r lk -> l !! j = Some i -> 0 < i_ref i -> icache (<[j := set_i_ref (i_ref i + 1) i]> l) (more (i_inum i) 1 r) lk.
Proof.
  intros I Hj Hp. pose proof I as [A1 A2 A3 A0 A4 A5]. pose proof (proj2 (A3 j i Hj) Hp) as Hr.
  eapply icache_update; [exact I|exact Hj|..]; simpl.
  - intros d Hne. by apply more_ne.
  - rewrite more_eq. lia.
  - lia.
  - by left.
  - intros k d E. destruct (decide (k = j)) as [->|]; [|by right]. left. destruct (A2 j d E) as (i' & Hi' & Hlk & Hd').
    assert (i' = i) as -> by congruence. split_and!; [done| |done]. apply locked_set_ref; [lia|done].
  - intros Hne _. apply entry_set_ref; [lia|]. by eapply A1.
  - done.
Qed.

(** ... and to one that was not. *)
Lemma icache_miss l r lk j i i' :
  icache l r lk -> l !! j = Some i -> i_ref i = 0 -> r (i_inum i') = 0 -> entry sb dk i' -> i_ref i' = 1 ->
  icache (<[j := i']> l) (more (i_inum i') 1 r) lk.
Proof.
  intros I Hj H0 Hr E H1. pose proof I as [A1 A2 A3 A0 A4 A5]. eapply icache_update; [exact I|exact Hj|..].
  - intros d' Hne. by apply more_ne.
  - rewrite more_eq. lia.
  - lia.
  - by right.
  - intros k e E'. right. split; [|done]. intros ->. destruct (A2 j e E') as (i1 & Hi1 & Hlk & _).
    assert (i1 = i) as -> by congruence. pose proof (lk_ref _ _ _ Hlk). lia.
  - done.
  - done.
Qed.

(** One reference less. *)
Lemma icache_put l r j i :
  icache l r None -> l !! j = Some i -> 0 < i_ref i ->
  icache (<[j := set_i_ref (i_ref i - 1) i]> l) (more (i_inum i) (-1) r) None.
Proof.
  intros I Hj Hp. pose proof I as [A1 A2 A3 A0 A4 A5]. pose proof (proj2 (A3 j i Hj) Hp) as Hr.
  eapply icache_update; [exact I|exact Hj|..]; simpl; try done.
  - intros d Hne. by apply more_ne.
  - rewrite more_eq. lia.
  - lia.
  - by left.
  - intros _ Hpos. apply entry_set_ref; [done|]. by eapply A1.
Qed.

Lemma icache_dev l r lk j i : icache l r lk -> l !! j = Some i -> 0 < i_ref i -> i_dev i = 1.
Proof.
  intros [A1 A2 _ _ _ _] Hi Hp. destruct lk as [[k e]|]; [|by apply (A1 j i Hi Hp)].
  destruct (decide (k = j)) as [->|]; [|apply (A1 j i Hi Hp); simpl; congruence].
  destruct (A2 j e eq_refl) as (i' & Hi' & Hlk & _). assert (i' = i) as -> by congruence. apply Hlk.
Qed.
End Cache.

(** ** The operations on the cache *)

(** What [namex] has found from inode [d], when there were [r] references; [els] are the
    elements of the path, [l] is the inode cache now. *)
Definition reached (sb : superblock) (dk : Z -> list Z) (parent : bool) (d : Z) (els : list (list Z)) (r : Z -> Z)
    (o : option nat * list Z) (l : list inode) : Prop :=
  match walk parent dk d els, fst o with
  | None, None => icache sb dk l r None
  | Some e, Some ip => icache sb dk l (more e 1 r) None /\ holds l ip e /\
      (parent = true -> name_of (snd o) = take (Z.to_nat DIRSIZ) (last els []))
  | _, _ => False
  end.

Section Ops.
Context `{D : Disk} {dsize : Z} `{!DiskLaws dsize} `{Devsw}.
Context {c : fsst -> Prop}.
Variables start lsize : Z.
Context (sb : superblock) (dk : Z -> list Z) (x0 : fsst) (a : acache).

Notation views := (views start lsize).
Notation fsys := (fsys (dsize := dsize) start lsize sb).
Notation icache := (icache sb dk).

Hypothesis V0 : views x0 a dk.
Hypothesis F : fsys dk.

(** The state is [x0] with other inodes in the cache. *)
Definition having (l : list inode) (x : fsst) : Prop := looked (set_inodes l x0) a x.

Lemma having_inodes l x : having l x -> inodes x = l.
Proof. intros L. by rewrite (looked_inodes _ _ _ L). Qed.

Lemma having_views l x : having l x -> views x a dk.
Proof. intros L. eapply looked_views; [|exact L]. by apply views_set_inodes. Qed.

Lemma having_looked l l' x x' : having l x -> looked (set_inodes l' x) a x' -> having l' x'.
Proof.
  intros L L'. eapply looked_trans; [|exact L']. apply (looked_set_inodes l') in L. by rewrite set_inodes_twice in L.
Qed.

Lemma having_set l l' x : having l x -> having l' (set_inodes l' x).
Proof. intros L. eapply having_looked; [done|]. eapply looked_refl, views_set_inodes. by eapply having_views. Qed.

Lemma iget_look d l r lk x (q : nat -> fsst -> Prop) :
  having l x -> icache l r lk -> 0 < d < sb_ninodes sb -> (exists j i, l !! j = Some i /\ i_ref i = 0) ->
  (forall j l' x', having l' x' -> icache l' (more d 1 r) lk -> length l' = length l -> holds l' j d -> q j x') ->
  triple [] c (iget 1 d) [] x q.
Proof.
  intros L I Hd (f & fi & Hf & Hf0) Hq. pose proof I as [A1 A2 A3 A0 A4 A5]. pose proof (having_inodes _ _ L) as El.
  unfold iget. tstep. tstep. rewrite El. destruct (scan _ l) as [j|] eqn:Es.
  - apply scan_Some in Es as [(i & Hj & (Hp & Ed)%andb_true_iff) _]. apply andb_true_iff in Hp as [Hp _].
    apply Z.ltb_lt in Hp. apply Z.eqb_eq in Ed. pose proof (proj2 (A3 j i Hj) Hp) as Hr. subst d.
    eapply triple_modi_bind; [by rewrite El|]. tstep. tstep. rewrite El.
    eapply Hq; [by eapply having_set|by apply icache_hit|by rewrite length_insert|].
    apply holds_insert; [by eapply lookup_lt_Some|]. left. simpl. lia.
  - assert (Hz : r d = 0).
    { destruct (decide (r d = 0)); [done|]. destruct (A4 d) as (j & i & Hi & Hp & <-); [specialize (A0 d); lia|].
      eapply scan_None in Es; [|exact Hi]. rewrite (proj2 (Z.ltb_lt _ _)), Z.eqb_refl in Es by done.
      rewrite andb_true_r, andb_true_l in Es. apply Z.eqb_neq in Es. by destruct Es; eapply icache_dev. }
    destruct (scan (fun ip => i_ref ip =? 0) l) as [j|] eqn:Es2.
    2:{ eapply scan_None in Es2; [|exact Hf]. rewrite Hf0 in Es2. done. }
    apply scan_Some in Es2 as [(i & Hj & Hr%Z.eqb_eq) _]. pose proof (lookup_lt_Some _ _ _ Hj) as Hlt.
    eapply triple_modi_bind; [by rewrite El|]. rewrite El.
    do 3 (eapply triple_modi_bind; [by apply list_lookup_insert_eq; rewrite ?length_insert|]; simpl inodes; rewrite list_insert_insert_eq, set_inodes_twice).
    tstep. tstep. set (i' := set_i_flags 0 _). eapply Hq; [by eapply having_set| |by rewrite length_insert|].
    + eapply (icache_miss _ _ _ _ _ j i i'); done.
    + apply holds_insert; [done|]. left. simpl. lia.
Qed.

Lemma iput_look ip d l r x (q : unit -> fsst -> Prop) :
  having l x -> icache l r None -> holds l ip d -> i_nlink (dinode dk d) <> 0 ->
  (forall l' x', having l' x' -> icache l' (more d (-1) r) None -> length l' = length l ->
    (forall j e, holds l j e -> 0 < more d (-1) r e -> holds l' j e) -> q tt x') ->
  triple [] c (iput ip) [] x q.
Proof.
  intros L I (i & Hi & Hp & <-) Hn Hq. pose proof I as [A1 A2 A3 A0 A4 A5]. pose proof (having_inodes _ _ L) as El.
  unfold iput. tstep. eapply triple_geti_bind; [by rewrite El|].
  assert (Hno : (i_ref i =? 1) && bset (i_flags i) I_VALID && (i_nlink i =? 0) = false).
  { destruct (bset (i_flags i) I_VALID) eqn:Hv; [|by rewrite andb_false_r]. rewrite (proj2 (Z.eqb_neq (i_nlink i) 0)); [by rewrite andb_false_r|].
    destruct (en_valid _ _ _ (A1 ip i Hi Hp ltac:(done)) Hv) as [_ _ E]. by rewrite <- E. }
  rewrite Hno. tstep. eapply triple_modi_bind; [by rewrite El|]. tstep. rewrite El.
  eapply Hq; [by eapply having_set|by apply icache_put|by rewrite length_insert|].
  intros j e Hh He. apply holds_insert; [by eapply lookup_lt_Some|]. destruct (decide (j = ip)) as [->|]; [left|by right].
  destruct Hh as (i' & Hi' & Hp' & <-). assert (i' = i) as -> by congruence. rewrite more_eq in He.
  pose proof (proj2 (A3 ip i Hi) Hp). simpl. lia.
Qed.

Lemma ilock_cache ip d l r x (q : unit -> fsst -> Prop) :
  having l x -> icache l r None -> holds l ip d -> i_type (dinode dk d) <> 0 ->
  (forall l' x', having l' x' -> icache l' r (Some (ip, d)) -> length l' = length l -> q tt x') ->
  triple [] c (ilock (Some ip)) [] x q.
Proof.
  intros L I (i & Hi & Hp & <-) Ht Hq. pose proof I as [A1 A2 A3 A0 A4 A5]. pose proof (having_inodes _ _ L) as El.
  pose proof (A1 ip i Hi Hp ltac:(done)) as E. destruct (do_inodes _ _ _ _ (fy_disk _ _ _ _ F) (i_inum i)) as [Hib Hil].
  { pose proof (en_inum _ _ _ E). lia. }
  eapply ilock_look; [by eapply having_views|by rewrite El|exact E|done|done|done|]. intros i' x' Lk En Er _ L'. rewrite El in L'.
  eapply Hq; [by eapply having_looked| |by rewrite length_insert].
  eapply icache_update; [exact I|exact Hi|..]; rewrite ?En, ?Er; try done; [by apply (A3 ip i)|lia|by left|].
  intros k d [= <- <-]. by left.
Qed.

Lemma iunlock_cache ip d l r x (q : unit -> fsst -> Prop) :
  having l x -> icache l r (Some (ip, d)) ->
  (forall l' x', having l' x' -> icache l' r None -> length l' = length l -> (forall j e, holds l j e -> holds l' j e) -> q tt x') ->
  triple [] c (iunlock (Some ip)) [] x q.
Proof.
  intros L I Hq. pose proof I as [A1 A2 A3 A0 A4 A5]. pose proof (having_inodes _ _ L) as El.
  destruct (A2 ip d eq_refl) as (i & Hi & Lk & Hd). pose proof (lk_ref _ _ _ Lk) as Hp. pose proof (lookup_lt_Some _ _ _ Hi) as Hlt.
  eapply iunlock_look; [by rewrite El|exact Lk|]. intros i' Ei' E'. rewrite El.
  assert (Er : i_ref i' = i_ref i) by (by rewrite Ei'). assert (En : i_inum i' = i_inum i) by (by rewrite Ei').
  eapply Hq; [by eapply having_set| |by rewrite length_insert|].
  - eapply icache_update; [exact I|exact Hi|..]; rewrite ?En, ?Er; try done; [by apply (A3 ip i)|lia|by left|].
    simpl. intros k Hk [= <-]. done.
  - intros j e Hh. apply holds_insert; [done|]. destruct (decide (j = ip)) as [->|]; [left|by right].
    destruct Hh as (i1 & H1 & H2 & H3). assert (i1 = i) as -> by congruence. split_and!; [done|lia|congruence].
Qed.

Lemma iunlockput_cache ip d l r x (q : unit -> fsst -> Prop) :
  having l x -> icache l r (Some (ip, d)) -> i_nlink (dinode dk d) <> 0 ->
  (forall l' x', having l' x' -> icache l' (more d (-1) r) None -> length l' = length l ->
    (forall j e, holds l j e -> 0 < more d (-1) r e -> holds l' j e) -> q tt x') ->
  triple [] c (iunlockput ip) [] x q.
Proof.
  intros L I Hn Hq. unfold iunlockput. eapply triple_step, iunlock_cache; [done|done|]. intros l1 x1 L1 I1 E1 H1.
  destruct (ic_lock _ _ _ _ _ I ip d eq_refl) as (i & Hi & Lk & Hd). pose proof (lk_ref _ _ _ Lk) as Hp.
  eapply iput_look; [done|exact I1|apply H1; by exists i|done|]. intros l2 x2 L2 I2 E2 H2.
  eapply Hq; [done|done|congruence|]. intros j e Hh He. by apply H2, He; apply H1.
Qed.

(** ** Directories *)

(** What [dirlookup] has found among the entries [ds] from a directory that is locked. *)
Definition found (name : list Z) (ds : list (list Z)) (lk : nat * Z) (l : list inode) (r : Z -> Z) (o : option (nat * Z)) (x : fsst) : Prop :=
  match o, dir_find name ds with
  | None, None => having l x
  | Some (j, _), Some n => exists l', having l' x /\ icache l' (more n 1 r) (Some lk) /\ length l' = length l /\ holds l' j n
  | _, _ => False
  end.

Lemma readi_dirent dp d i j l x (q : Z * list Z -> fsst -> Prop) :
  let bs := content dk (dinode dk d) in
  having l x -> l !! dp = Some i -> locked sb dk i -> i_inum i = d -> i_type (dinode dk d) <> T_DEV -> (j < length bs / 16)%nat ->
  (forall x', having l x' -> q (DIRENT, slice bs (DIRENT * Z.of_nat j) DIRENT) x') ->
  triple [] c (readi dp ToLocal (DIRENT * Z.of_nat j) DIRENT) [] x q.
Proof.
  intros bs L Hi Lk <- Ht Hj Hq. pose proof (having_inodes _ _ L) as El. pose proof (lk_agrees _ _ _ Lk) as A.
  pose proof (fo_size _ _ _ _ _ (agrees_ok _ _ _ _ _ F A)) as Hsz. change (MAXFILE * BSIZE) with 71680 in Hsz.
  pose proof (agrees_content _ _ _ A) as Ec. fold bs in Ec. unfold DIRENT in *.
  assert (Hlen : Z.of_nat (length bs) = i_size i) by (rewrite Ec, length_content; lia).
  assert (Hj16 : (16 * S j <= length bs)%nat) by (pose proof (Nat.Div0.mul_div_le (length bs) 16); lia).
  eapply (readi_look start lsize sb); [by eapply having_views|by rewrite El|apply A|apply F|by eapply agrees_ok
    |by rewrite (agrees_type sb dk i)|unfold is_u32; lia|unfold is_u32; lia|].
  intros x' L'. rewrite <- Ec. unfold read_result. rewrite (proj2 (Z.ltb_ge _ _)), (proj2 (Z.leb_gt _ _)) by lia. cbn [orb].
  rewrite Z.min_l by lia. apply Hq. by eapply looked_trans.
Qed.

Lemma dirlookup_loop_cache name d lk dp k j l r L x (q : option (nat * Z) -> fsst -> Prop) :
  let bs := content dk (dinode dk d) in
  lk = (dp, d) -> having l x -> icache l r (Some lk) -> dir_ok sb dk bs -> i_type (dinode dk d) <> T_DEV -> byte_list name ->
  (forall e, 0 < r e -> e ∈ L) -> (length L < length l)%nat ->
  (j <= length bs / 16)%nat -> (length bs / 16 - j < k)%nat ->
  (forall o x', found (name_of name) (drop j (dirents bs)) lk l r o x' -> q o x') ->
  triple [] c (dirlookup_loop k dp name (DIRENT * Z.of_nat j)) [] x q.
Proof.
  intros bs -> L1 I Hd Ht Hn HL HLl. destruct (ic_lock _ _ _ _ _ I dp d eq_refl) as (i & Hi & Lk & Ed).
  pose proof (lk_agrees _ _ _ Lk) as A. pose proof (agrees_content _ _ _ A) as Ec. rewrite Ed in Ec. fold bs in Ec.
  pose proof (fo_size _ _ _ _ _ (agrees_ok _ _ _ _ _ F A)) as Hsz.
  assert (Hlen : Z.of_nat (length bs) = i_size i) by (rewrite Ec, length_content; lia).
  assert (H16 : i_size i = DIRENT * Z.of_nat (length bs / 16)).
  { pose proof (di_len _ _ _ Hd) as Hm. unfold DIRENT in *. rewrite Nat2Z.inj_div. Z.div_mod_to_equations. lia. }
  clear Ec Hsz. revert j x L1. induction k as [|k IH]; intros j x L1 Hj Hk Hq; [lia|]. pose proof (having_inodes _ _ L1) as El. cbn [dirlookup_loop].
  eapply triple_geti_bind; [by rewrite El|]. destruct (Z.ltb_spec (DIRENT * Z.of_nat j) (i_size i)) as [Hlt|Hge].
  2:{ tstep. apply Hq. unfold found. rewrite drop_ge by (rewrite length_dirents; unfold DIRENT in *; lia). done. }
  assert (Hj' : (j < length bs / 16)%nat) by (unfold DIRENT in *; lia). pose proof (lookup_dirents bs j Hj') as Hde.
  eapply triple_step, readi_dirent; [done|done|done|done|done|done|]. intros x' L'. fold bs. set (de := slice bs _ _) in *.
  rewrite Z.eqb_refl. cbn [negb]. rewrite (drop_S _ _ _ Hde) in Hq.
  assert (Hb : byte_list de) by (apply Forall_take, Forall_drop, Hd).
  pose proof (entry_is_namecmp name de Hn Hb) as Et. unfold found in Hq. rewrite dir_find_cons in Hq.
  assert (Hnext : ~ entry_is (name_of name) de -> triple [] c (dirlookup_loop k dp name (DIRENT * Z.of_nat j + DIRENT)) [] x' q).
  { intros Hno. rewrite decide_False in Hq by done. replace (DIRENT * Z.of_nat j + DIRENT) with (DIRENT * Z.of_nat (S j)) by lia.
    eapply IH; [done|lia|lia|exact Hq]. }
  destruct (de_inum de =? 0) eqn:Ez; [apply Hnext; by eapply bool_decide_eq_false_1|].
  destruct (namecmp name (de_name de) =? 0) eqn:Ec; [|apply Hnext; by eapply bool_decide_eq_false_1].
  symmetry in Et. apply bool_decide_eq_true_1 in Et. rewrite decide_True in Hq by done.
  destruct A as [-> _ _]. eapply triple_step, iget_look; [exact L'|exact I| |by eapply icache_free|].
  { apply (di_linked _ _ _ Hd de); [by eapply list_elem_of_lookup_2|apply Et]. }
  intros n l' x2 L2 I2 E2 H2. tstep. apply Hq. by exists l'.
Qed.

Hypothesis Tr : tree sb dk.

Lemma dirlookup_cache name d dp l r L x (q : option (nat * Z) -> fsst -> Prop) :
  having l x -> icache l r (Some (dp, d)) -> i_type (dinode dk d) = T_DIR -> byte_list name ->
  (forall e, 0 < r e -> e ∈ L) -> (length L < length l)%nat ->
  (forall o x', found (name_of name) (dirents (content dk (dinode dk d))) (dp, d) l r o x' -> q o x') ->
  triple [] c (dirlookup dp name) [] x q.
Proof.
  intros L1 I Ht Hn HL HLl Hq. destruct (ic_lock _ _ _ _ _ I dp d eq_refl) as (i & Hi & Lk & Ed). pose proof (lk_agrees _ _ _ Lk) as A.
  pose proof (having_inodes _ _ L1) as El. pose proof (fo_size _ _ _ _ _ (agrees_ok _ _ _ _ _ F A)) as Hsz.
  unfold dirlookup. eapply triple_geti_bind; [by rewrite El|]. rewrite (agrees_type sb dk i A), Ed, Ht. cbn [negb].
  assert (El' : length (content dk (dinode dk d)) = Z.to_nat (i_size i)) by (rewrite <- Ed, (agrees_content _ _ _ A); apply length_content).
  eapply (dirlookup_loop_cache name d (dp, d) dp _ 0 l r L); try done.
  - apply Tr; [rewrite <- Ed; apply A|done].
  - by rewrite Ht.
  - lia.
  - rewrite El'. unfold DIRENT. pose proof (Nat2Z.inj_div (Z.to_nat (i_size i)) 16). Z.div_mod_to_equations. lia.
Qed.

(** ** Walks *)

Lemma more_swap (d n : Z) (r : Z -> Z) e : more d (-1) (more n 1 (more d 1 r)) e = more n 1 r e.
Proof. unfold more. destruct (e =? d), (e =? n); lia. Qed.

Lemma more_back (d : Z) (r : Z -> Z) e : more d (-1) (more d 1 r) e = r e.
Proof. unfold more. destruct (e =? d); lia. Qed.

Lemma copy_elem_bytes name e : byte_list name -> byte_list e -> byte_list (copy_elem name e).
Proof.
  intros Hn He. unfold copy_elem. case_match; [by apply Forall_take|]. apply Forall_app_2; [done|]. apply Forall_cons_2; [lia|by apply Forall_drop].
Qed.

Definition resolved (parent : bool) (d : Z) (els : list (list Z)) (n : nat) (r : Z -> Z) (o : option nat * list Z) (x : fsst) : Prop :=
  exists l, having l x /\ length l = n /\ reached sb dk parent d els r o l.

Lemma elements_none p : elements p = [] -> skip_slashes p = [].
Proof.
  unfold elements. induction p as [|x p IH]; [done|]. simpl. destruct (x =? SLASH); [done|]. by rewrite elements_split.
Qed.

Lemma skipelem_end path name rest name' : skipelem path name = Some (rest, name') -> (rest = [] <-> elements rest = []).
Proof.
  unfold skipelem. destruct (skip_slashes path) as [|x p]; [done|]. destruct (split_elem (x :: p)) as [e r']. intros [= <- _].
  split; [by intros ->|]. rewrite elements_slashes. apply elements_none.
Qed.

(** One element of a path. *)
Lemma skipelem_step path name rest name' :
  skipelem path name = Some (rest, name') -> byte_list path -> byte_list name -> Forall (fun c => c <> 0) path ->
  exists e, elements path = e :: elements rest /\ name_of name' = take (Z.to_nat DIRSIZ) e /\ (length rest < length path)%nat /\
    byte_list name' /\ byte_list rest /\ Forall (fun c => c <> 0) rest.
Proof.
  intros E Hp Hn Hz. pose proof (skipelem_elements path name) as Hs. rewrite E in Hs. destruct Hs as (e & Ee & -> & Hl & Hin).
  unfold byte_list in *. rewrite list.Forall_forall in Hp, Hz. assert (He : forall c, c ∈ e -> c ∈ path) by (intros; apply Hin; set_solver).
  assert (Hr : forall c, c ∈ rest -> c ∈ path) by (intros; apply Hin; set_solver). exists e. split_and!; [done| |done|..].
  - apply name_of_copy, list.Forall_forall. auto.
  - apply copy_elem_bytes; [done|]. apply list.Forall_forall. auto.
  - apply list.Forall_forall. auto.
  - apply list.Forall_forall. auto.
Qed.

Lemma namex_end parent name ip d l r x (q : option nat * list Z -> fsst -> Prop) :
  having l x -> icache l (more d 1 r) None -> holds l ip d -> linked sb dk d ->
  (forall o x', resolved parent d [] (length l) r o x' -> q o x') ->
  triple [] c (if parent then iput ip ;;; ret (None, name) else ret (Some ip, name)) [] x q.
Proof.
  intros L1 I Hh Hd Hq. destruct parent.
  - eapply triple_step, iput_look; [exact L1|exact I|exact Hh|apply Hd|]. intros l2 x2 L3 I3 E3 _. tstep. apply Hq.
    exists l2. split_and!; [done|done|]. simpl. eapply icache_ext; [|exact I3]. intros; by rewrite more_back.
  - tstep. apply Hq. exists l. by split_and!.
Qed.

Lemma dir_find_linked d name n :
  linked sb dk d -> i_type (dinode dk d) = T_DIR -> dir_find name (dirents (content dk (dinode dk d))) = Some n -> linked sb dk n.
Proof.
  intros Hd Ht. unfold dir_find. destruct (head _) as [de|] eqn:E; [|done]. intros [= <-].
  assert (Hin : de ∈ filter (entry_is name) (dirents (content dk (dinode dk d)))).
  { destruct (filter _ _) as [|de' ds]; [done|]. injection E as ->. by left. }
  apply list_elem_of_filter in Hin as [[Hz _] Hin]. by apply (di_linked _ _ _ (tr_dirs _ _ Tr d (ln_inum _ _ _ Hd) Ht)).
Qed.

(** One round for a directory: [next] is what follows. *)
Lemma namex_down name rest next ip d l r L x (q : option nat * list Z -> fsst -> Prop) :
  having l x -> icache l (more d 1 r) (Some (ip, d)) -> linked sb dk d -> i_type (dinode dk d) = T_DIR -> byte_list name ->
  (forall e, 0 <= r e) -> (forall e, 0 < r e -> e ∈ L) -> (S (length L) < length l)%nat ->
  (dir_find (name_of name) (dirents (content dk (dinode dk d))) = None ->
    forall l' x', having l' x' -> length l' = length l -> icache l' r None -> q (None, rest) x') ->
  (forall n, dir_find (name_of name) (dirents (content dk (dinode dk d))) = Some n ->
    forall j l' x', having l' x' -> length l' = length l -> icache l' (more n 1 r) None -> holds l' j n ->
      linked sb dk n -> triple [] c (next j) [] x' q) ->
  triple [] c (o <- dirlookup ip name ;;
    match o with
    | None => iunlockput ip ;;; ret (None, rest)
    | Some (j, _) => iunlockput ip ;;; next j
    end) [] x q.
Proof.
  intros L1 I Hd Ht Hn H0 HL HLl H1 H2. assert (HL' : forall e, 0 < more d 1 r e -> e ∈ d :: L).
  { intros e He. destruct (decide (e = d)) as [->|Hne]; [by left|]. rewrite more_ne in He by done. right. by apply HL. }
  eapply triple_step, dirlookup_cache; [exact L1|exact I|done|done|exact HL'|done|]. intros o x1. unfold found.
  destruct o as [[j off]|], (dir_find _ _) as [n|] eqn:Ef; try done.
  - intros (l1 & L2 & I2 & E2 & Hh). eapply triple_step, iunlockput_cache; [exact L2|exact I2|apply Hd|]. intros l2 x2 L3 I3 E3 H3.
    eapply (H2 n eq_refl j l2); [done|congruence| | |by eapply dir_find_linked].
    + eapply icache_ext; [|exact I3]. intros; by rewrite more_swap.
    + apply H3; [done|]. rewrite more_swap, more_eq. specialize (H0 n). lia.
  - intros L2. eapply triple_step, iunlockput_cache; [exact L2|exact I|apply Hd|]. intros l2 x2 L3 I3 E3 _. tstep.
    eapply H1; [done|done|done|]. eapply icache_ext; [|exact I3]. intros; by rewrite more_back.
Qed.

Lemma namex_loop_cache parent k path name ip d l r L x (q : option nat * list Z -> fsst -> Prop) :
  having l x -> icache l (more d 1 r) None -> holds l ip d -> linked sb dk d ->
  (forall e, 0 <= r e) -> (forall e, 0 < r e -> e ∈ L) -> (S (length L) < length l)%nat ->
  byte_list path -> byte_list name -> Forall (fun c => c <> 0) path -> (length path <= k)%nat ->
  (forall o x', resolved parent d (elements path) (length l) r o x' -> q o x') ->
  triple [] c (namex_loop k path name ip parent) [] x q.
Proof.
  revert path name ip d l x. induction k as [|k IH]; intros path name ip d l x L1 I Hh Hd H0 HL HLl Hp Hn Hz Hk Hq;
    pose proof (skipelem_elements path name) as Hs; cbn [namex_loop]; destruct (skipelem path name) as [[rest name']|] eqn:Es;
    [destruct Hs as (e & _ & _ & Hl & _); lia|rewrite Hs in Hq; by eapply namex_end| |rewrite Hs in Hq; by eapply namex_end].
  clear Hs. destruct (skipelem_step _ _ _ _ Es Hp Hn Hz) as (e & Ee & Enm & Hl & Hn' & Hr & Hz'). rewrite Ee in Hq.
  pose proof (skipelem_end _ _ _ _ Es) as Hend.
  eapply triple_step, ilock_cache; [exact L1|exact I|exact Hh|apply Hd|]. intros l1 x1 L2 I2 E2.
  destruct (ic_lock _ _ _ _ _ I2 ip d eq_refl) as (i & Hi & Lk & Ed). pose proof (lk_agrees _ _ _ Lk) as A.
  eapply triple_geti_bind; [by rewrite (having_inodes _ _ L2)|]. rewrite (agrees_type sb dk i A), Ed. unfold resolved, reached in Hq. cbn [walk] in Hq.
  destruct (Z.eqb_spec (i_type (dinode dk d)) T_DIR) as [Ht|Ht]; cbn [negb] in *; cycle 1.
  { eapply triple_step, iunlockput_cache; [exact L2|exact I2|apply Hd|]. intros l2 x2 L3 I3 E3 _. tstep. apply Hq.
    exists l2. split_and!; [done|congruence|]. simpl. eapply icache_ext; [|exact I3]. intros; by rewrite more_back. }
  rewrite (bool_decide_ext _ _ Hend). destruct (parent && bool_decide (elements rest = [])) eqn:Epar.
  { apply andb_true_iff in Epar as [-> Ht0%bool_decide_eq_true_1]. eapply triple_step, iunlock_cache; [exact L2|exact I2|].
    intros l2 x2 L3 I3 E3 H3. tstep. apply Hq. exists l2. split_and!; [done|congruence|]. simpl. split_and!; [done| |].
    - apply H3. exists i. split_and!; [done|apply Lk|done].
    - intros _. by rewrite Ht0. }
  eapply namex_down; [exact L2|exact I2|done|done|done|done|exact HL|congruence| |]; rewrite Enm.
  - intros Ef l2 x2 L3 E3 I3. apply Hq. exists l2. rewrite Ef. split_and!; [done|congruence|done].
  - intros n Ef j l2 x2 L3 E3 I3 Hj Hln. eapply (IH rest name' j n l2); try done; [congruence|lia|].
    intros o x3 (l3 & L4 & E4 & R4). apply Hq. exists l3. split_and!; [done|congruence|]. rewrite Ef. cbn [mbind option_bind]. unfold reached in R4.
    destruct (walk parent dk n (elements rest)), (fst o); try done. destruct R4 as (R1 & R2 & R3). split_and!; [done|done|].
    intros Hpar. rewrite (R3 Hpar). rewrite Hpar in Epar. cbn [andb] in Epar. apply bool_decide_eq_false_1 in Epar.
    by destruct (elements rest).
Qed.
End Ops.

(** ** Absolute paths *)

Definition free_slots (l : list inode) : nat := length (filter (fun i => i_ref i = 0) l).

Lemma free_slots_cover sb dk l r :
  icache sb dk l r None -> exists L, (forall d, 0 < r d -> d ∈ L) /\ (length L + free_slots l = length l)%nat.
Proof.
  intros I. exists (i_inum <$> filter (fun i => i_ref i <> 0) l). split.
  - intros d Hd. destruct (ic_has _ _ _ _ _ I d Hd) as (j & i & Hi & Hp & <-). apply list_elem_of_fmap_2, list_elem_of_filter.
    split; [lia|by eapply list_elem_of_lookup_2].
  - rewrite length_fmap. unfold free_slots. clear I. induction l as [|i l IH]; [done|]. rewrite !filter_cons. repeat case_decide; simpl; lia || done.
Qed.

Section Absolute.
Context `{D : Disk} {dsize : Z} `{!DiskLaws dsize} `{Devsw}.
Variables start lsize : Z.
Context (sb : superblock).

Notation up := (up (dsize := dsize) start lsize).
Notation fsys := (fsys (dsize := dsize) start lsize sb).
Notation intx := (holding (dsize := dsize) start lsize ∅).
Notation views := (views start lsize).

Lemma idle_set_inodes x dk l : idle (dsize := dsize) start lsize x dk -> idle (dsize := dsize) start lsize (set_inodes l x) dk.
Proof. intros [(a & R & Hb & Hd) I2 I3 I4]. split; try done. exists a. split_and!; [by apply repr_set_inodes|done|done]. Qed.

Lemma namex_look {c : fsst -> Prop} x a dk path parent r :
  views x a dk -> fsys dk -> tree sb dk -> icache sb dk (inodes x) r None -> (2 <= free_slots (inodes x))%nat ->
  head path = Some SLASH -> byte_list path -> Forall (fun c => c <> 0) path ->
  triple [] c (namex path parent) [] x (fun o x' =>
    looked (set_inodes (inodes x') x) a x' /\ length (inodes x') = length (inodes x) /\
    reached sb dk parent ROOTINO (elements path) r o (inodes x')).
Proof.
  intros V F Tr I Hfree Hs Hb Hz. destruct (free_slots_cover _ _ _ _ I) as (L & HL & Hlen).
  destruct path as [|s path]; [done|]. injection Hs as ->. unfold namex. rewrite Z.eqb_refl.
  assert (L0 : having x a (inodes x) x) by (unfold having; replace (set_inodes (inodes x) x) with x by (by destruct x); by eapply looked_refl).
  pose proof (tr_root _ _ Tr) as Hr. eapply triple_step, (iget_look (dsize := dsize) start lsize sb dk x a); [done|done|exact L0|exact I|apply Hr| |].
  { eapply icache_free; [exact I|exact HL|lia]. }
  intros ip l x1 L1 I1 E1 H1. eapply (namex_loop_cache start lsize sb dk x a); try done.
  - apply I.
  - lia.
  - by apply Forall_replicate.
  - intros o x' (l' & L' & E' & R'). rewrite (having_inodes _ _ _ _ L'). split_and!; [done|congruence|done].
Qed.

(** C6: [namei] and [nameiparent] follow the tree of directories.  For an absolute path on a
    disk of files whose directories are in order, with two unused entries in
    the inode cache, they return the inode at the end of the walk over the
    contents of the directories (or the directory of the last element, with its
    name), and nothing when a name is missing or something on the way is not a
    directory.  In the cache there is then one more reference, to the inode that is
    returned; those to the directories on the way are given back and nothing
    is locked.  Nothing is written to the disk, in a transaction or outside of one. *)
Theorem namex_walk s dk path parent r :
  fsys dk -> tree sb dk -> icache sb dk (inodes (fs s)) r None -> (2 <= free_slots (inodes (fs s)))%nat ->
  head path = Some SLASH -> byte_list path -> Forall (fun c => c <> 0) path ->
  let post (o : option nat * list Z) (s' : kst) :=
    kept (set_inodes (inodes (fs s')) (fs s)) (fs s') /\ disk (fs s') = disk (fs s) /\
    reached sb dk parent ROOTINO (elements path) r o (inodes (fs s')) in
  (up dk s -> wp (fun _ => False) (namex path parent s) (fun o s' => post o s' /\ up dk s')) /\
  (forall a secs old, sys [] s -> intx (fs s) a secs old dk ->
    wp (fun _ => False) (namex path parent s) (fun o s' => post o s' /\ sys [] s' /\ intx (fs s') a secs old dk)).
Proof.
  intros F Tr I Hfree Hs Hb Hz post. split.
  - intros (Hs' & Hidle & Hbz & _). destruct (idle_views start lsize _ _ Hidle) as (a & V & Hback).
    pose proof (namex_look (c := fun _ => False) (fs s) a dk path parent r V F Tr I Hfree Hs Hb Hz s Hs' eq_refl) as T.
    eapply wp_mono; [exact T|done|]. intros o s1 (Hs1 & _ & L1 & E1 & R1).
    split; [split_and!; [by apply rest_kept, L1|apply L1|done]|]. apply (looked_set_inodes (inodes (fs s))) in L1.
    rewrite set_inodes_twice in L1. replace (set_inodes (inodes (fs s)) (fs s)) with (fs s) in L1 by (by destruct (fs s)).
    destruct (Hback _ L1) as [J1 J2]. apply (idle_set_inodes _ _ (inodes (fs s1))) in J1. rewrite set_inodes_twice in J1.
    replace (set_inodes (inodes (fs s1)) (fs s1)) with (fs s1) in J1 by (by destruct (fs s1)).
    split_and!; [done|done|simpl in J2; congruence|]. intros sec. by apply (idle_disk (dsize := dsize)).
  - intros a secs old Hs' J. pose proof (intx_views _ _ _ _ _ _ _ J) as V.
    pose proof (namex_look (c := fun _ => False) (fs s) a dk path parent r V F Tr I Hfree Hs Hb Hz s Hs' eq_refl) as T.
    eapply wp_mono; [exact T|done|]. intros o s1 (Hs1 & _ & L1 & E1 & R1).
    split; [split_and!; [by apply rest_kept, L1|apply L1|done]|split; [done|]]. eapply intx_looked; [|exact L1]. by apply holding_inode.
Qed.
End Absolute.
