(* ===== verification/MkfsFs.v ===== *)
(** * The kernel reads what [mkfs] wrote

    The image of [mkfs.c] is a disk of files in the sense of [fs.c]: no two inodes
    share a block, every block in use is marked, and the bytes of the files of the
    command line are the contents that [readi] returns. *)

From stdpp Require Import base list numbers strings tactics gmap functions.
From Stdlib Require Import Lia.
From S2P Require Import Prelude Params StringC FsState KState Spinlock Mmu Sched Runs Bio BioSpec BioThm Log LogSpec LogThm Fs BlockThm Mkfs MkfsThm Inode InodeThm PathThm Pipe File FileThm NameiThm.

Local Open Scope Z_scope.

(** ** The inode as [ilock] reads it *)

Lemma rd32_slice d o m x : 0 <= o -> 0 <= x -> x + 4 <= m -> rd32 (slice d o m) x = rd32 d (o + x).
Proof. intros. unfold rd32. rewrite !byte_at_slice by lia. by rewrite !Z.add_assoc. Qed.

Lemma rd16_slice d o m x : 0 <= o -> 0 <= x -> x + 2 <= m -> rd16 (slice d o m) x = rd16 d (o + x).
Proof. intros. unfold rd16. rewrite !byte_at_slice by lia. by rewrite !Z.add_assoc. Qed.

Lemma dinode_offset inum : 0 <= dinode_at inum /\ dinode_at inum + DINODE <= 512.
Proof.
  unfold dinode_at, IPB, BSIZE, DINODE. change (512 / 128) with 4. pose proof (Z.mod_pos_bound inum 4 eq_refl). lia.
Qed.

Lemma dinode_size im inum : i_size (dinode im inum) = rd32 (din_of im inum) 8.
Proof.
  unfold dinode, get_dinode, din_of. simpl. rewrite rd32_slice by (unfold DINODE; (lia || apply (dinode_offset inum))).
  do 2 f_equal; unfold IBLOCK, i2b, dinode_at; lia.
Qed.

Lemma dinode_type im inum : i_type (dinode im inum) = file_type im inum.
Proof.
  unfold dinode, get_dinode, file_type, din_of. simpl. rewrite rd16_slice by (unfold DINODE; (lia || apply (dinode_offset inum))).
  do 2 f_equal; unfold IBLOCK, i2b, dinode_at; lia.
Qed.

Lemma dinode_nlink im inum : i_nlink (dinode im inum) = s16 (file_nlink im inum).
Proof.
  unfold dinode, get_dinode, file_nlink, din_of. simpl. rewrite rd16_slice by (unfold DINODE; (lia || apply (dinode_offset inum))).
  do 2 f_equal; unfold IBLOCK, i2b, dinode_at; lia.
Qed.

Lemma dinode_addr im inum k : 0 <= k <= NDIRECT -> addr_at (dinode im inum) k = addr (din_of im inum) k.
Proof.
  unfold NDIRECT. intros Hk. unfold addr_at, dinode, get_dinode. cbn [i_addrs]. rewrite rd_addrs_lookup by lia. simpl.
  unfold addr, din_of. rewrite rd32_slice by (unfold DINODE, ADDRS; (lia || apply (dinode_offset inum))).
  unfold IBLOCK, i2b, dinode_at. f_equal. lia.
Qed.

(** The block numbers of a file. *)
Lemma described_slot im inum x k :
  describes im (din_of im inum) x -> 0 <= k < NSLOT ->
  slot im (dinode im inum) k = if k =? NDIRECT then af_ind x else default 0 (af_blocks x !! Z.to_nat (if k <? NDIRECT then k else k - 1)).
Proof.
  intros [H1 H2 HN H3 H4 H5 H6 H7 H8 H9] Hk. unfold slot. change NSLOT with 141 in Hk. unfold NDIRECT in *.
  destruct (Z.eqb_spec k 12) as [->|Hne]; [rewrite dinode_addr by (unfold NDIRECT; lia); exact H4|].
  destruct (Z.ltb_spec k 12) as [Hlt|Hge].
  { rewrite (proj2 (Z.leb_le _ _)), dinode_addr by (unfold NDIRECT; lia). apply H3. lia. }
  rewrite (proj2 (Z.leb_gt _ _)), dinode_addr by (unfold NDIRECT; lia). unfold NDIRECT. rewrite H4.
  destruct (Z.eqb_spec (af_ind x) 0) as [E|E]; [by rewrite lookup_ge_None_2 by (specialize (H5 E); lia)|].
  rewrite H6 by (done || change NINDIRECT with 128; lia). do 3 f_equal. lia.
Qed.

Lemma described_idx im inum x bn :
  describes im (din_of im inum) x -> 0 <= bn < MAXFILE -> slot im (dinode im inum) (idx bn) = default 0 (af_blocks x !! Z.to_nat bn).
Proof.
  intros Hd Hb. destruct (idx_range bn Hb) as [H1 H2]. rewrite (described_slot im inum x) by done.
  rewrite (proj2 (Z.eqb_neq _ _)) by done. do 3 f_equal. unfold idx, NDIRECT in *.
  destruct (Z.ltb_spec bn 12); [by rewrite (proj2 (Z.ltb_lt _ _)) by done|]. rewrite (proj2 (Z.ltb_ge _ _)) by lia. lia.
Qed.

(** Different slots have different blocks. *)
Lemma described_inj im inum x k k' :
  describes im (din_of im inum) x -> NoDup (owned x) -> 0 <= k < NSLOT -> 0 <= k' < NSLOT ->
  slot im (dinode im inum) k <> 0 -> slot im (dinode im inum) k = slot im (dinode im inum) k' -> k = k'.
Proof.
  intros Hd Hn Hk Hk'. rewrite !(described_slot im inum x) by done. unfold owned in Hn. unfold NDIRECT in *.
  apply list.NoDup_app in Hn as (Hb & Hi & _).
  assert (Hne : forall j, af_ind x <> 0 -> default 0 (af_blocks x !! j) <> af_ind x).
  { intros j Hz. destruct (af_blocks x !! j) as [b|] eqn:E; simpl; [|congruence]. intros ->.
    apply (Hi (af_ind x)); [by eapply list_elem_of_lookup_2|]. rewrite (proj2 (Z.eqb_neq _ _)) by done. set_solver. }
  destruct (Z.eqb_spec k 12) as [->|K], (Z.eqb_spec k' 12) as [->|K']; intros Hz E; try done.
  - by destruct (Hne _ Hz (eq_sym E)).
  - rewrite E in Hz. by destruct (Hne _ Hz E).
  - destruct (af_blocks x !! Z.to_nat _) as [b|] eqn:E1 in Hz, E; [|done]. simpl in *.
    destruct (af_blocks x !! Z.to_nat (if k' <? 12 then k' else k' - 1)) as [b'|] eqn:E2; simpl in E; [|congruence]. subst b'.
    pose proof (NoDup_lookup _ _ _ _ Hb E1 E2) as Hj. destruct (Z.ltb_spec k 12), (Z.ltb_spec k' 12); lia.
Qed.

Lemma described_owned im inum x k :
  describes im (din_of im inum) x -> 0 <= k < NSLOT -> slot im (dinode im inum) k <> 0 -> slot im (dinode im inum) k ∈ owned x.
Proof.
  intros Hd Hk. rewrite (described_slot im inum x) by done. destruct (k =? NDIRECT); [apply ind_owned|].
  destruct (af_blocks x !! _) as [b|] eqn:E; [|done]. intros _. apply elem_of_app. left. by eapply list_elem_of_lookup_2.
Qed.

(** ** The bytes of a file *)

Lemma byte_at_concat (im : Z -> list Z) bl o :
  (forall b, b ∈ bl -> length (im b) = 512%nat) -> 0 <= o < 512 * Z.of_nat (length bl) ->
  concat (im <$> bl) !! Z.to_nat o = im (default 0 (bl !! Z.to_nat (o / 512))) !! Z.to_nat (o mod 512).
Proof.
  revert o. induction bl as [|b bl IH]; intros o Hl Ho; [simpl in Ho; lia|]. rewrite fmap_cons. simpl concat.
  pose proof (Hl b ltac:(set_solver)) as Hb. simpl in Ho. destruct (Z.lt_ge_cases o 512) as [H|H].
  - rewrite lookup_app_l by lia. by rewrite Z.div_small, Z.mod_small by lia.
  - rewrite lookup_app_r by lia. rewrite Hb. replace (Z.to_nat o - 512)%nat with (Z.to_nat (o - 512)) by lia.
    rewrite IH by (lia || (intros; apply Hl; by right)). replace (o / 512) with (Z.succ ((o - 512) / 512)) by (Z.div_mod_to_equations; lia).
    replace (o mod 512) with ((o - 512) mod 512) by (Z.div_mod_to_equations; lia).
    by rewrite (Z2Nat.inj_succ ((o - 512) / 512)) by (apply Z.div_pos; lia).
Qed.

Lemma content_read im inum x sz :
  describes im (din_of im inum) x -> tidy x -> rd32 (din_of im inum) 8 = Z.of_nat sz -> cdiv sz = Z.of_nat (length (af_blocks x)) ->
  (forall b, b ∈ owned x -> length (im b) = 512%nat) -> content im (dinode im inum) = read_file im inum.
Proof.
  intros Hd T Es Ec Hl. destruct (describes_read im inum x sz Hd T Es Ec) as (_ & -> & _).
  assert (Hc : length (concat (im <$> af_blocks x)) = (512 * length (af_blocks x))%nat).
  { rewrite (ds_data _ _ _ Hd), length_app, length_replicate. pose proof (ds_room _ _ _ Hd). lia. }
  rewrite <- (ds_data _ _ _ Hd). unfold content. rewrite dinode_size, Es.
  assert (Hsz : (sz <= 512 * length (af_blocks x))%nat) by (unfold cdiv in Ec; Z.div_mod_to_equations; lia).
  apply list_eq. intros j. rewrite list_lookup_fmap. destruct (decide (j < sz)%nat) as [Hj|Hj]; cycle 1.
  { rewrite lookup_seqZ_ge, lookup_take_ge by lia. done. }
  rewrite lookup_seqZ_lt, lookup_take_lt by lia. simpl. unfold fbyte, BSIZE. pose proof (ds_max _ _ _ Hd) as Hm.
  rewrite (described_idx im inum x) by (done || Z.div_mod_to_equations; lia). unfold byte_at.
  rewrite <- byte_at_concat by (lia || (intros b Hb; apply Hl, elem_of_app; by left)). rewrite Z.add_0_l, Nat2Z.id.
  destruct (lookup_lt_is_Some_2 (concat (im <$> af_blocks x)) j) as [v ->]; [lia|done].
Qed.

(** ** A disk of files *)

Definition mkfs_sb : superblock := mksb size nblocks ninodes nlog.

Notation data_area := (data_area (dsize := size) (size - nlog) nlog mkfs_sb).
Notation disk_ok := (disk_ok (dsize := size) (size - nlog) nlog mkfs_sb).
Notation inode_ok := (inode_ok (dsize := size) (size - nlog) nlog mkfs_sb).
Notation fsys := (fsys (dsize := size) (size - nlog) nlog mkfs_sb).

Lemma mkfs_data b : DATA <= b < size - nlog -> data_area b.
Proof.
  intros Hb. change (DATA <= b < 2038) in Hb. unfold DATA in Hb. split; [change (103 < b < 2048); lia|]. split; [unfold size; lia|].
  unfold inlog. change (size - nlog) with 2038. lia.
Qed.

Lemma sealed_len s fl t : built s fl -> length (sealed s t) = 512%nat.
Proof.
  intros B. unfold sealed. destruct (decide (BITMAP = t)) as [<-|Hne].
  - rewrite fn_lookup_insert. apply (bitmap_bit _ 0); [|done]. pose proof (bt_max _ _ B). rewrite (bt_used _ _ B). unfold size in *. lia.
  - rewrite fn_lookup_insert_ne by done. apply (inode_put_sound s fl); [done|lia|].
    rewrite length_wr32. unfold din_of. rewrite length_slice; rewrite ?(bt_len _ _ B); try done; pose proof (dinode_offset 1); unfold dinode_at, DINODE in *; lia.
Qed.

Section Sealed.
Context (files : list (list Z * list Z)) (s : mk) (x : afile) (fl : list afile).
Hypothesis C : command_ok files.
Hypothesis W : whole s (x :: fl).
Hypothesis Hal : (length (af_data x) mod 512 <> 0)%nat.
Hypothesis Hlen : length fl = length files.
Hypothesis Hfree : freeblock s = DATA + blocks_needed files.
Hypothesis I : image_of files (sealed s).
Notation im := (sealed s).

Let B : built s (x :: fl) := wh_built _ _ W.

Lemma sealed_used b : 0 <= b < size -> used mkfs_sb im b = (b <? freeblock s).
Proof. intros Hb. rewrite Hfree, <- (im_bitmap _ _ I) by done. by rewrite (im_super _ _ I). Qed.

Lemma sealed_end : freeblock s <= size - nlog.
Proof. rewrite Hfree. pose proof (cm_blocks _ C). unfold nblocks, DATA, size, nlog, LOGSIZE in *. lia. Qed.

Lemma sealed_disk : disk_ok im.
Proof.
  split.
  - split; [apply I|]. intros i Hi. rewrite (sealed_len s (x :: fl)) by done. split; [|done]. change (0 <= i < 2048) in Hi.
    unfold BBLOCK. change BPB with 4096. rewrite Z.div_small by lia. split; [change (1 < 103 < 2048); lia|].
    unfold inlog. change (size - nlog) with 2038. change (sb_ninodes mkfs_sb / IPB) with 100. lia.
  - done.
  - done.
  - intros inum Hi. change (0 <= inum < 400) in Hi. unfold IBLOCK. change IPB with 4. split; [unfold size; Z.div_mod_to_equations; lia|].
    unfold inlog. change (size - nlog) with 2038. Z.div_mod_to_equations. lia.
  - intros t _. by apply (sealed_len s (x :: fl)).
  - intros b Hb Hu. change (0 <= b < 2038) in Hb. apply mkfs_data. change (size - nlog) with 2038.
    rewrite sealed_used in Hu by (unfold size; lia). apply Z.ltb_ge in Hu. pose proof (bt_count _ _ B). lia.
Qed.

(** The blocks of the file with inode number [1 + j]. *)
Lemma sealed_block j y b : (x :: fl) !! j = Some y -> b ∈ owned y -> data_area b /\ used mkfs_sb im b = true.
Proof.
  intros Hj Hb. pose proof (bt_range _ _ B b (owned_in _ _ _ _ Hj Hb)) as Hr. pose proof sealed_end as He.
  split; [apply mkfs_data; lia|]. rewrite sealed_used; [apply Z.ltb_lt; lia|]. unfold DATA, size, nlog, LOGSIZE in *. lia.
Qed.

Lemma sealed_file j y :
  (x :: fl) !! j = Some y -> describes im (din_of im (1 + Z.of_nat j)) y /\
  exists sz, rd32 (din_of im (1 + Z.of_nat j)) 8 = Z.of_nat sz /\ cdiv sz = Z.of_nat (length (af_blocks y)).
Proof.
  intros Hj. destruct (sealed_files s x fl W Hal) as (Hd & Hx & Hy). split; [by apply Hd|]. destruct j as [|j].
  - injection Hj as <-. eexists. split; [exact Hx|]. unfold cdiv. Z.div_mod_to_equations. lia.
  - eexists. replace (1 + Z.of_nat (S j)) with (2 + Z.of_nat j) by lia. split; [by eapply Hy|]. by destruct (wh_tidy _ _ W _ _ Hj).
Qed.

Lemma sealed_inode j y : (x :: fl) !! j = Some y -> inode_ok im (dinode im (1 + Z.of_nat j)).
Proof.
  intros Hj. destruct (sealed_file j y Hj) as (Hd & sz & Es & Ec). pose proof (ds_max _ _ _ Hd) as Hm. change MAXFILE with 140 in Hm.
  assert (Hsz : Z.of_nat sz <= 512 * Z.of_nat (length (af_blocks y))) by (unfold cdiv in Ec; Z.div_mod_to_equations; lia).
  split.
  - done.
  - rewrite dinode_size, Es. change (MAXFILE * BSIZE) with 71680. lia.
  - intros k Hk Hz. eapply sealed_block; [exact Hj|]. by apply described_owned.
  - intros k k'. apply (described_inj _ _ y); [done|]. by eapply owned_nodup.
  - intros bn H0 Hbn. rewrite dinode_size, Es in Hbn. unfold BSIZE in Hbn. rewrite (described_idx _ _ y) by (done || change MAXFILE with 140; lia).
    destruct (lookup_lt_is_Some_2 (af_blocks y) (Z.to_nat bn)) as [b Hb]; [lia|]. rewrite Hb. simpl.
    destruct (sealed_block j y b Hj) as [[Hr _] _]; [|change (103 < b < 2048) in Hr; lia].
    apply elem_of_app. left. by eapply list_elem_of_lookup_2.
Qed.

(** The inodes after the last file are free. *)
Lemma sealed_blank inum k : 1 + Z.of_nat (length (x :: fl)) <= inum < 400 -> 0 <= k < NSLOT ->
  i_size (dinode im inum) = 0 /\ i_type (dinode im inum) = 0 /\ slot im (dinode im inum) k = 0.
Proof.
  intros Hi Hk. assert (E : din_of im inum = replicate (Z.to_nat DINODE) 0).
  { unfold din_of, sealed. rewrite fn_lookup_insert_ne by (unfold BITMAP, i2b; change IPB with 4; Z.div_mod_to_equations; lia).
    apply (inode_put_sound s (x :: fl) 1); [done|lia| |rewrite (proj1 (bt_inodes _ _ B)); lia|simpl in Hi; lia].
    destruct (wh_saved _ _ W 0%nat x eq_refl) as [Dx _]. rewrite length_wr32. apply Dx. }
  assert (Ha : forall j, 0 <= j <= NDIRECT -> addr_at (dinode im inum) j = 0).
  { unfold NDIRECT. intros j Hj. rewrite dinode_addr, E by (unfold NDIRECT; lia). unfold addr, rd32, byte_at, ADDRS, DINODE.
    by rewrite !lookup_replicate_2 by lia. }
  split; [by rewrite dinode_size, E|]. split; [rewrite dinode_type; unfold file_type; by rewrite E|]. unfold slot. destruct (Z.leb_spec k NDIRECT); [apply Ha; lia|]. by rewrite Ha.
Qed.

Lemma sealed_fsys : fsys im.
Proof.
  assert (Hc : forall inum, 0 < inum < 400 ->
    (exists j y, inum = 1 + Z.of_nat j /\ (x :: fl) !! j = Some y) \/ 1 + Z.of_nat (length (x :: fl)) <= inum < 400).
  { intros inum Hi. destruct ((x :: fl) !! Z.to_nat (inum - 1)) as [y|] eqn:Hy.
    - left. exists (Z.to_nat (inum - 1)), y. split; [lia|done].
    - right. apply lookup_ge_None in Hy. lia. }
  split; [apply sealed_disk| |].
  - intros inum Hi. destruct (Hc inum Hi) as [(j & y & -> & Hy)|Hb]; [by eapply sealed_inode|].
    assert (Z0 : i_size (dinode im inum) = 0) by (by apply (sealed_blank inum 0)).
    split; [done|rewrite Z0; done|..].
    + intros k Hk Hz. by destruct Hz; apply sealed_blank.
    + intros k k' Hk _ Hz. by destruct Hz; apply sealed_blank.
    + intros bn Hn. rewrite Z0. unfold BSIZE. lia.
  - intros inum inum' k k' Hi Hi' Hne Hk Hk' Hz E. pose proof Hz as Hz'. rewrite E in Hz'.
    destruct (Hc inum Hi) as [(j & y & -> & Hy)|Hb]; [|by destruct Hz; apply sealed_blank].
    destruct (Hc inum' Hi') as [(j' & y' & -> & Hy')|Hb]; [|by destruct Hz'; apply sealed_blank].
    apply (owned_apart (x :: fl) j j' y y' (slot im (dinode im (1 + Z.of_nat j)) k)); [apply B|done|done|congruence|..].
    + apply described_owned; [|done|done]. by apply sealed_file.
    + rewrite E. apply described_owned; [|done|done]. by apply sealed_file.
Qed.

Lemma sealed_content j : (j <= length files)%nat -> content im (dinode im (1 + Z.of_nat j)) = read_file im (1 + Z.of_nat j).
Proof.
  intros Hj. destruct (lookup_lt_is_Some_2 (x :: fl) j) as [y Hy]; [simpl; lia|]. destruct (sealed_file j y Hy) as (Hd & sz & Es & Ec).
  eapply content_read; [done|by eapply wh_tidy|done|done|]. intros b _. by eapply sealed_len.
Qed.
End Sealed.

(** The image as the kernel sees it. *)
Record kernel_image (files : list (list Z * list Z)) (im : Z -> list Z) : Prop := mkkernel_image {
  ki_image : image_of files im;
  ki_fsys : fsys im;
  ki_content : forall j, (j <= length files)%nat -> content im (dinode im (1 + Z.of_nat j)) = read_file im (1 + Z.of_nat j);
  ki_root : exists n, read_file im ROOTINO = root_bytes files ++ replicate (16 * n) 0;
  ki_blank : forall inum, 2 + Z.of_nat (length files) <= inum < 400 -> i_type (dinode im inum) = 0;
  ki_names : sb_names_log (size - nlog) nlog im;
  ki_recovers : recovers_to (dsize := size) (size - nlog) nlog im im
}.

Lemma mkfs_kernel files :
  command_ok files -> root_spare files -> exists m, mkfs files = Some m /\ kernel_image files (img m).
Proof.
  intros C Hr. destruct (mkfs_builds files C) as (s & H & Hk). pose proof (sealed_image files s C Hr H) as I. pose proof H as (fl & W & Hc).
  destruct (sealed_ok s fl (wh_built _ _ W)) as (s5 & s6 & E5 & E6 & E). exists s6. rewrite E. split; [by eapply Hk|].
  pose proof (whole_free _ _ W) as Hfree. rewrite Hc in Hfree. change (freeblock s = DATA + blocks_needed files) in Hfree.
  destruct fl as [|x fl]; [done|]. assert (Hcs : contents fl = as_files files) by exact (f_equal (@tail _) Hc). injection Hc as Tx Dx _.
  assert (Hlen : length fl = length files) by (pose proof (f_equal length Hcs) as E'; unfold contents, as_files in E'; by rewrite !length_fmap in E').
  assert (Hal : (length (af_data x) mod 512 <> 0)%nat).
  { rewrite Dx, length_root. change 512%nat with (16 * 32)%nat. rewrite Nat.Div0.mul_mod_distr_l. unfold root_spare in Hr. lia. }
  destruct (sealed_log files s C H) as [N R].
  split; [done|by eapply (sealed_fsys files s x fl)|intros; by eapply (sealed_content files s x fl)| | |done|done].
  { destruct (sealed_reads s x fl 0 x W Hal eq_refl) as (_ & _ & _ & E4). rewrite decide_True in E4 by done.
    exists (32 * length (af_blocks x) - (2 + length files))%nat. change ROOTINO with (1 + Z.of_nat 0). rewrite E4, Dx. do 2 f_equal.
    rewrite length_root. lia. }
  intros inum Hi. eapply (sealed_blank files s x fl); try done. simpl. lia.
Qed.

(** ** The root directory *)

Lemma de_name_dirent inum name : de_name (dirent inum name) = dirname name.
Proof. done. Qed.

Lemma dirent_bytes inum name : byte_list name -> byte_list (dirent inum name).
Proof.
  intros Hn. apply Forall_app_2; [|by apply dirname_bytes]. unfold bytes16, u8. repeat apply Forall_cons_2; [apply Z.mod_pos_bound; lia..|done].
Qed.

#[local] Opaque dirent.

(** The entries of the root directory. *)
Definition root_dir (files : list (list Z * list Z)) : list (list Z) :=
  dirent 1 [46] :: dirent 1 [46; 46] :: imap (fun k f => dirent (2 + Z.of_nat k) (entry_name f.1)) files.

Lemma root_dir_bytes files : root_bytes files = concat (root_dir files).
Proof.
  assert (H : forall n, entries (2 + Z.of_nat n) files = concat (imap (fun k f => dirent (2 + Z.of_nat (n + k)) (entry_name f.1)) files)).
  { induction files as [|f fl IH]; intros n; [done|]. simpl. rewrite Nat.add_0_r. f_equal.
    replace (2 + Z.of_nat n + 1) with (2 + Z.of_nat (S n)) by lia. rewrite IH. f_equal. apply imap_ext. intros k x _. simpl.
    by rewrite Nat.add_succ_r. }
  unfold root_bytes, dots, root_dir. simpl concat. rewrite <- (assoc_L app). do 2 f_equal. apply (H 0%nat).
Qed.

Lemma dirents_app d l : length d = 16%nat -> dirents (d ++ l) = d :: dirents l.
Proof.
  intros Hd. unfold dirents. rewrite length_app, Hd. replace ((16 + length l) / 16)%nat with (S (length l / 16)).
  2:{ pose proof (Nat.div_add (length l) 1 16 ltac:(done)) as E. replace (16 + length l)%nat with (length l + 1 * 16)%nat by lia. lia. }
  rewrite <- cons_seq, fmap_cons. f_equal.
  - unfold slice, DIRENT. change (Z.to_nat (16 * Z.of_nat 0)) with 0%nat. rewrite drop_0. by apply take_app_length'.
  - rewrite <- fmap_S_seq, <- list_fmap_compose. apply list_fmap_ext. intros i j _. unfold slice, DIRENT, compose.
    rewrite drop_app_ge by lia. do 2 f_equal. lia.
Qed.

Lemma dirents_concat ds l : Forall (fun d => length d = 16%nat) ds -> dirents (concat ds ++ l) = ds ++ dirents l.
Proof. induction 1 as [|d ds Hd _ IH]; [done|]. simpl. rewrite <- (assoc_L app), dirents_app by done. by rewrite IH. Qed.

Lemma de_inum_dirent inum name : de_inum (dirent inum name) = u16 inum.
Proof. change (u8 inum + 2 ^ 8 * u8 (inum / 2 ^ 8) = u16 inum). unfold u8, u16. Z.div_mod_to_equations. lia. Qed.

(** Every entry after the files is empty. *)
Lemma dirents_zeroes n de : de ∈ dirents (replicate n 0) -> de_inum de = 0.
Proof.
  intros (j & -> & _)%list_elem_of_fmap. unfold slice. rewrite drop_replicate, take_replicate. unfold de_inum, rd16, byte_at.
  assert (H : forall k i, default 0 (replicate k 0 !! i) = 0).
  { intros k i. destruct (replicate k 0 !! i) eqn:E; [|done]. by apply lookup_replicate in E as [-> _]. }
  by rewrite !H.
Qed.

(** Names that can be told apart, and are not empty. *)
Definition entry_names (files : list (list Z * list Z)) : list (list Z) :=
  [46] :: [46; 46] :: ((fun f => take (Z.to_nat DIRSIZ) (entry_name f.1)) <$> files).

Record names_ok (files : list (list Z * list Z)) : Prop := mknames_ok {
  nm_bytes : forall f, f ∈ files -> byte_list (entry_name f.1);
  nm_ends : forall f, f ∈ files -> Forall (fun c => c <> 0) (entry_name f.1);
  nm_some : forall f, f ∈ files -> entry_name f.1 <> [];
  nm_distinct : NoDup (entry_names files)
}.

Lemma name_of_entry inum name : Forall (fun c => c <> 0) name -> name_of (de_name (dirent inum name)) = take (Z.to_nat DIRSIZ) name.
Proof. intros Hn. rewrite de_name_dirent, name_of_dirname. by apply cut_full. Qed.

Lemma root_dir_lookup files k f : files !! k = Some f -> root_dir files !! S (S k) = Some (dirent (2 + Z.of_nat k) (entry_name f.1)).
Proof.
  intros Hk. unfold root_dir. change (imap (fun k f => dirent (2 + Z.of_nat k) (entry_name f.1)) files !! k = Some (dirent (2 + Z.of_nat k) (entry_name f.1))).
  by rewrite list_lookup_imap, Hk.
Qed.

Lemma root_dir_elem files de :
  de ∈ root_dir files -> de = dirent 1 [46] \/ de = dirent 1 [46; 46] \/
    exists k f, files !! k = Some f /\ de = dirent (2 + Z.of_nat k) (entry_name f.1).
Proof.
  unfold root_dir. rewrite !elem_of_cons. intros [->|[->|[k Hk]%list_elem_of_lookup]]; [by left|by right; left|right; right].
  rewrite list_lookup_imap in Hk. destruct (files !! k) as [f|] eqn:E; [|done]. injection Hk as <-. by exists k, f.
Qed.

Lemma root_dir_names files : names_ok files -> (fun de => name_of (de_name de)) <$> root_dir files = entry_names files.
Proof.
  intros N. unfold root_dir, entry_names. rewrite !fmap_cons, !name_of_entry by (repeat constructor; lia). do 2 f_equal.
  apply list_eq. intros k. rewrite list_lookup_fmap, list_lookup_imap, list_lookup_fmap. destruct (files !! k) as [f|] eqn:E; [|done].
  simpl. f_equal. apply name_of_entry, N. by eapply list_elem_of_lookup_2.
Qed.

Lemma root_dir_length files : Forall (fun d => length d = 16%nat) (root_dir files).
Proof.
  apply list.Forall_forall. intros de [->|[->|(k & f & _ & ->)]]%root_dir_elem; apply length_dirent.
Qed.

(** The only entry with a name is the first one. *)
Lemma dir_find_unique ds l j de :
  NoDup ((fun de => name_of (de_name de)) <$> ds) -> ds !! j = Some de -> de_inum de <> 0 ->
  dir_find (name_of (de_name de)) (ds ++ l) = Some (de_inum de).
Proof.
  revert j. induction ds as [|d ds IH]; intros j Hn Hj Hz; [done|]. rewrite fmap_cons in Hn. apply list.NoDup_cons in Hn as [Hd Hn].
  simpl. rewrite dir_find_cons. destruct j as [|j]; simpl in Hj; [injection Hj as ->; by rewrite decide_True|].
  rewrite decide_False; [by eapply IH|]. intros [_ E]. apply Hd. rewrite E. apply list_elem_of_fmap. exists de.
  split; [done|]. by eapply list_elem_of_lookup_2.
Qed.

Section Tree.
Context (files : list (list Z * list Z)) (im : Z -> list Z).
Hypothesis C : command_ok files.
Hypothesis N : names_ok files.
Hypothesis K : kernel_image files im.

Lemma image_linked j : (j <= length files)%nat ->
  linked mkfs_sb im (1 + Z.of_nat j) /\ i_type (dinode im (1 + Z.of_nat j)) = if decide (j = 0%nat) then T_DIR else T_FILE.
Proof.
  intros Hj. pose proof (cm_inodes _ C) as Hi. unfold ninodes in Hi. pose proof (ki_image _ _ K) as I.
  assert (E : file_type im (1 + Z.of_nat j) = (if decide (j = 0%nat) then T_DIR else T_FILE) /\ file_nlink im (1 + Z.of_nat j) = 1).
  { destruct j as [|j]; [destruct (im_root _ _ I) as (E1 & E2 & _); done|].
    destruct (lookup_lt_is_Some_2 files j) as [f Hf]; [lia|]. destruct (im_file _ _ I j f Hf) as (E1 & E2 & _).
    replace (1 + Z.of_nat (S j)) with (2 + Z.of_nat j) by lia. done. }
  destruct E as [E1 E2]. rewrite <- dinode_type in E1. split; [|done]. split.
  - change (0 < 1 + Z.of_nat j < 400). lia.
  - rewrite E1. by case_decide.
  - by rewrite dinode_nlink, E2.
Qed.

Lemma image_root_dir : exists n, content im (dinode im ROOTINO) = concat (root_dir files) ++ replicate (16 * n) 0.
Proof.
  destruct (ki_root _ _ K) as [n E]. exists n. rewrite <- root_dir_bytes, <- E. by apply (ki_content _ _ K 0); lia.
Qed.

Lemma image_tree : tree mkfs_sb im.
Proof.
  split; [by apply (image_linked 0); lia|]. intros d Hd Ht. change (0 < d < 400) in Hd.
  assert (d = ROOTINO) as ->.
  { destruct (decide (d < 2 + Z.of_nat (length files))) as [Hlt|Hge]; [|rewrite (ki_blank _ _ K d) in Ht by lia; done].
    destruct (image_linked (Z.to_nat (d - 1))) as [_ E]; [lia|]. replace (1 + Z.of_nat (Z.to_nat (d - 1))) with d in E by lia.
    rewrite E in Ht. case_decide; [unfold ROOTINO; lia|done]. }
  destruct image_root_dir as [n ->]. pose proof (root_dir_length files) as Hl. split.
  - rewrite <- root_dir_bytes, length_app, length_root, length_replicate. unfold DIRENT. Z.div_mod_to_equations. lia.
  - apply Forall_app_2; [|apply Forall_replicate; lia]. apply list.Forall_forall. intros c Hc%list_elem_of_In.
    apply in_concat in Hc as (de & Hde%list_elem_of_In & Hc%list_elem_of_In).
    assert (Hb : byte_list de); [|by eapply list.Forall_forall in Hb].
    apply root_dir_elem in Hde as [->|[->|(k & f & Hf & ->)]]; apply dirent_bytes; [by repeat constructor..|].
    apply N. by eapply list_elem_of_lookup_2.
  - rewrite dirents_concat by done. intros de [Hde|Hde]%elem_of_app Hz; [|by destruct Hz; eapply dirents_zeroes].
    apply root_dir_elem in Hde as [->|[->|(k & f & Hf & ->)]]; rewrite de_inum_dirent; [apply (image_linked 0); lia..|].
    pose proof (lookup_lt_Some _ _ _ Hf) as Hlt. pose proof (cm_inodes _ C) as Hi. unfold ninodes in Hi.
    rewrite (Z.mod_small _ _ : _ -> u16 _ = _) by lia. replace (2 + Z.of_nat k) with (1 + Z.of_nat (S k)) by lia. apply image_linked. lia.
Qed.

(** Where the name of a file leads. *)
Lemma image_walk k f : files !! k = Some f -> walk false im ROOTINO [entry_name f.1] = Some (2 + Z.of_nat k).
Proof.
  intros Hf. cbn [walk]. destruct (image_linked 0) as [_ E]; [lia|]. change (1 + Z.of_nat 0) with ROOTINO in E. rewrite E. simpl negb. cbn [andb].
  destruct image_root_dir as [n ->]. rewrite dirents_concat by apply root_dir_length.
  pose proof (lookup_lt_Some _ _ _ Hf) as Hlt. pose proof (cm_inodes _ C) as Hi. unfold ninodes in Hi.
  assert (Hd : de_inum (dirent (2 + Z.of_nat k) (entry_name f.1)) = 2 + Z.of_nat k) by (rewrite de_inum_dirent; apply Z.mod_small; lia).
  rewrite <- (name_of_entry (2 + Z.of_nat k) (entry_name f.1)) by (apply N; by eapply list_elem_of_lookup_2).
  rewrite (dir_find_unique _ _ (S (S k)) (dirent (2 + Z.of_nat k) (entry_name f.1)));
    [by rewrite Hd|rewrite root_dir_names by done; apply N|by apply root_dir_lookup|rewrite Hd; lia].
Qed.
End Tree.

(** ** From the image to the bytes *)

Lemma icache_empty sb dk l : Forall (fun i => i_ref i = 0) l -> icache sb dk l (fun _ => 0) None /\ free_slots l = length l.
Proof.
  intros Hl. assert (Hz : forall j i, l !! j = Some i -> i_ref i = 0) by (intros j i Hi; exact (Forall_lookup_1 _ _ _ _ Hl Hi)).
  assert (Hh : forall j d, ~ holds l j d) by (intros j d (i & Hi & Hp & _); rewrite (Hz j i Hi) in Hp; lia).
  split; [split; try done; try lia|].
  - intros j i Hi Hp. rewrite (Hz j i Hi) in Hp. lia.
  - intros j i Hi. rewrite (Hz j i Hi). split; lia.
  - intros j j' d Hj. by destruct (Hh j d).
  - unfold free_slots. f_equal. clear Hz Hh. induction Hl as [|i l Hi _ IH]; [done|]. rewrite filter_cons_True by done. by rewrite IH.
Qed.

Lemma elements_file name : SLASH ∉ name -> name <> [] -> elements (SLASH :: name) = [name].
Proof.
  intros Hs Hn. unfold elements. simpl. assert (H : forall cur, cur ++ name <> [] -> elements_from cur name = [cur ++ name]).
  { clear Hn. induction name as [|c name IH]; intros cur Hc; simpl; [rewrite app_nil_r in *; by destruct cur|].
    rewrite (proj2 (Z.eqb_neq c SLASH)) by set_solver. rewrite IH by (set_solver || by destruct cur). by rewrite <- (assoc_L app). }
  by apply H.
Qed.

Local Open Scope xv6_scope.

Section Read.
Context `{D : Disk} `{!DiskLaws size} `{Devsw}.

(** Part of the file with a path, as a process reads it. *)
Definition read_path (path : list Z) (off n : Z) : M kst (Z * list Z) :=
  o <- namei path ;;
  match o with
  | None => panic "no such file"
  | Some ip => ilock (Some ip) ;;; readi ip ToLocal off n
  end.

Lemma read_path_look files im k f x off n (q : Z * list Z -> fsst -> Prop) :
  command_ok files -> names_ok files -> kernel_image files im -> files !! k = Some f ->
  idle (dsize := size) (size - nlog) nlog x im -> Forall (fun i => i_ref i = 0) (inodes x) -> (2 <= length (inodes x))%nat ->
  is_u32 off -> is_u32 n -> (forall x', q (read_result f.2 off n) x') ->
  triple [] (fun _ => True) (read_path (SLASH :: entry_name f.1) off n) [] x q.
Proof.
  intros C N K Hf Hidle Hl Hlen Ho Hn Hq. destruct (idle_views (size - nlog) nlog _ _ Hidle) as (a & V & _).
  destruct (icache_empty mkfs_sb im _ Hl) as [I Hfree]. pose proof (ki_fsys _ _ K) as F. pose proof (image_tree files im C N K) as Tr.
  pose proof (list_elem_of_lookup_2 _ _ _ Hf) as Hin. pose proof (lookup_lt_Some _ _ _ Hf) as Hlt.
  assert (Hs : SLASH ∉ entry_name f.1).
  { pose proof (cm_files _ C) as Hc. eapply list.Forall_forall in Hc; [|exact Hin]. destruct Hc as [Hc _].
    unfold entry_name. destruct f.1 as [|c nm]; [done|]. destruct (c =? 95); set_solver. }
  unfold read_path, namei. tstep. eapply triple_step.
  pose proof (elements_file _ Hs (nm_some _ N f Hin)) as Eel.
  eapply triple_mono; [apply (namex_look (size - nlog) nlog mkfs_sb x a im (SLASH :: entry_name f.1) false (fun _ => 0) V F Tr I)|].
  - lia.
  - done.
  - apply Forall_cons_2; [unfold SLASH; lia|by apply N].
  - apply Forall_cons_2; [done|by apply N].
  - intros [o nm] x1 (L1 & E1 & R1). unfold reached in R1. rewrite Eel, (image_walk files im C N K k f Hf) in R1. simpl in R1.
    destruct o as [ip|]; [|done]. destruct R1 as (I1 & H1 & _). tstep.
    destruct (image_linked files im C K (S k)) as [Ln Ety]; [lia|]. replace (1 + Z.of_nat (S k)) with (2 + Z.of_nat k) in * by lia.
    eapply triple_step, (ilock_cache (size - nlog) nlog mkfs_sb im x a V F); [exact L1|exact I1|exact H1|apply Ln|].
    intros l2 x2 L2 I2 _. destruct (ic_lock _ _ _ _ _ I2 ip _ eq_refl) as (i & Hi & Lk & Ed). pose proof (lk_agrees _ _ _ Lk) as A.
    eapply (readi_look (size - nlog) nlog mkfs_sb); [by eapply having_views|by rewrite (having_inodes _ _ _ _ L2)|apply A|apply F
      |by eapply agrees_ok|by rewrite (agrees_type _ _ _ A), Ed, Ety|done|done|].
    intros x3 _. rewrite <- (agrees_content _ _ _ A), Ed.
    replace (2 + Z.of_nat k) with (1 + Z.of_nat (S k)) by lia. rewrite (ki_content _ _ K) by lia.
    replace (1 + Z.of_nat (S k)) with (2 + Z.of_nat k) by lia.
    destruct (im_file _ _ (ki_image _ _ K) k f Hf) as (_ & _ & ->). apply Hq.
Qed.

(** C7: the kernel reads what [mkfs] wrote.  For a command line whose files fit and have
    names that differ in their first [DIRSIZ] bytes, and whose number plus two is not a
    multiple of 32, so that the entries of the root directory leave room in its
    last block, the image of [mkfs] is a disk
    of files that do not share blocks, with directories in order; and when a
    machine is switched on with that disk, then [namei] of a slash and the name of a
    file of the command line finds it, and [readi] returns the bytes of that file (a
    run that gives up the CPU on the way is followed up to there). *)
Theorem mkfs_boot_read files :
  command_ok files -> root_spare files -> names_ok files ->
  exists m, mkfs files = Some m /\ fsys (img m) /\ tree mkfs_sb (img m) /\
    forall k f s off n, files !! k = Some f -> sys [] s -> powered (fs s) -> disk (fs s) 1 = img m ->
      Forall (fun i => i_ref i = 0) (inodes (fs s)) -> (2 <= length (inodes (fs s)))%nat -> is_u32 off -> is_u32 n ->
      wp (fun _ => True) ((boot ;;; read_path (SLASH :: entry_name f.1) off n) s) (fun r _ => r = read_result f.2 off n).
Proof.
  intros C Hr N. destruct (mkfs_kernel files C Hr) as (m & E & K). exists m. split_and!; [done|apply K|by eapply image_tree|].
  intros k f s off n Hf Hs Hp Hd Hl Hlen Ho Hn.
  assert (T : triple [] (fun _ => True) (boot ;;; read_path (SLASH :: entry_name f.1) off n) [] (fs s) (fun r _ => r = read_result f.2 off n)).
  { eapply triple_step, (boot_triple (dsize := size) (size - nlog) nlog); [split; unfold size, nlog, LOGSIZE; lia|unfold size; lia|apply K|done| |done|].
    - rewrite Hd. apply K.
    - intros x1 Hidle _ K1. rewrite <- (kept_inodes _ _ K1) in Hl, Hlen.
      by apply (read_path_look files (img m) k f x1 off n _ C N K Hf Hidle Hl Hlen Ho Hn). }
  eapply wp_mono; [by apply T|done|]. by intros r s' (_ & _ & ->).
Qed.
End Read.

(** ** A machine with the image of two files *)

Definition power_on (dk : Z -> list Z) : kst :=
  set_fs (set_inodes (replicate (Z.to_nat NINODE) (mkinode 0 0 0 0 0 0 0 0 0 []))
    (set_disk (<[1 := dk]> (fun _ _ => [])) (fs demo))) demo.

Lemma power_on_ok dk :
  sys [] (power_on dk) /\ powered (fs (power_on dk)) /\ disk (fs (power_on dk)) 1 = dk /\
  Forall (fun i => i_ref i = 0) (inodes (fs (power_on dk))) /\ length (inodes (fs (power_on dk))) = 50%nat.
Proof.
  split_and!; [exact (sys_set_fs _ _ _ demo_sys)|split; [reflexivity|apply flags_fsst0|reflexivity|reflexivity]|apply fn_lookup_insert| |reflexivity].
  by apply Forall_replicate.
Qed.

Lemma demo_command : command_ok demo_files.
Proof.
  split; [|unfold ninodes; simpl; lia|vm_compute; discriminate].
  repeat (apply Forall_cons_2; [split; [set_solver|vm_compute; discriminate]|]). apply Forall_nil_2.
Qed.

Lemma demo_spare : root_spare demo_files.
Proof. by vm_compute. Qed.

Lemma demo_names : names_ok demo_files.
Proof.
  split; [intros f [->|[->|[]%list_elem_of_In]%elem_of_cons]%elem_of_cons..|].
  1-6: simpl; try discriminate; repeat constructor; lia.
  vm_compute. repeat (apply list.NoDup_cons; split; [set_solver|]). apply base.NoDup_nil_2.
Qed.

Lemma mkfs_boot_read_witness :
  exists m, mkfs demo_files = Some m /\
    wp (fun _ => True) ((boot (H := CrashDisk size) ;;; read_path (D := CrashDisk size) (H := NoDev) [47; 98; 105; 103] 6990 100) (power_on (img m)))
      (fun r _ => r = (10, replicate 10 7)).
Proof.
  destruct (mkfs_boot_read (D := CrashDisk size) (H := NoDev) demo_files demo_command demo_spare demo_names) as (m & E & _ & _ & H).
  exists m. split; [done|]. destruct (power_on_ok (img m)) as (H1 & H2 & H3 & H4 & H5).
  eapply wp_mono; [apply (H 1%nat _ (power_on (img m)) 6990 100 eq_refl H1 H2 H3 H4); [rewrite H5; lia|unfold is_u32; lia..]|done|].
  intros r s' ->. vm_compute. reflexivity.
Defined.

Lemma namex_walk_witness :
  exists m, mkfs demo_files = Some m /\
    wp (fun _ => True) ((boot (H := CrashDisk size) ;;; namex (H := CrashDisk size) (H0 := NoDev) [47; 47; 98; 105; 103] false) (power_on (img m)))
      (fun o s' => exists ip, fst o = Some ip /\ holds (inodes (fs s')) ip 3).
Proof.
  destruct (mkfs_kernel demo_files demo_command demo_spare) as (m & E & K). exists m. split; [done|].
  destruct (power_on_ok (img m)) as (H1 & H2 & H3 & H4 & H5). remember (power_on (img m)) as s eqn:Es. clear Es.
  assert (T : triple [] (fun _ => True) (boot (H := CrashDisk size)) [] (fs s)
    (fun _ x' => idle (dsize := size) (size - nlog) nlog x' (img m) /\ l_busy (lg x') = 0 /\ kept (fs s) x')).
  { eapply (boot_triple (D := CrashDisk size) (dsize := size) (size - nlog) nlog);
      [split; unfold size, nlog, LOGSIZE; lia|unfold size; lia|apply K|exact H2|rewrite H3; apply K|done|intros x' I' Z' K'; split_and!; assumption]. }
  apply wp_bind. eapply wp_mono; [exact (T s H1 eq_refl)|done|].
  intros [] s1 (Hs1 & _ & I1 & Z1 & K1). rewrite <- (kept_inodes _ _ K1) in H4, H5. destruct (icache_empty mkfs_sb (img m) _ H4) as [Ic Hfree].
  assert (U : up (dsize := size) (size - nlog) nlog (img m) s1).
  { split_and!; [exact Hs1|exact I1|exact Z1|]. intros sec. by apply (idle_disk (dsize := size)). }
  assert (Hb : byte_list [47; 47; 98; 105; 103] /\ Forall (fun c => c <> 0) [47; 47; 98; 105; 103]) by (split; repeat constructor; lia).
  assert (Hf : (2 <= free_slots (inodes (fs s1)))%nat) by (rewrite Hfree, H5; lia).
  pose proof (image_tree demo_files (img m) demo_command demo_names K) as Tr.
  eapply wp_mono; [|done|].
  - exact (proj1 (namex_walk (D := CrashDisk size) (H := NoDev) (size - nlog) nlog mkfs_sb s1 (img m) [47; 47; 98; 105; 103] false (fun _ => 0)
      (ki_fsys _ _ K) Tr Ic Hf eq_refl (proj1 Hb) (proj2 Hb)) U).
  - intros o s2 ((_ & _ & R) & _). unfold reached in R.
    pose proof (image_walk demo_files (img m) demo_command demo_names K 1 _ eq_refl) as Hw.
    change (walk false (img m) ROOTINO [[98; 105; 103]] = Some 3) in Hw.
    change (elements [47; 47; 98; 105; 103]) with [[98; 105; 103]] in R. rewrite Hw in R.
    destruct (fst o) as [ip|]; [|destruct R]. destruct R as (_ & R & _). exists ip. split; [reflexivity|exact R].
Defined.
