(* ===== verification/Vm.v ===== *)
(** * Virtual memory

    [vm.c]: the two-level page tables, built in byte memory out of pages from
    [kalloc].  A [pte_t*] is the kernel address of the entry, 0 the null
    pointer.  The loops over pages are bounded by the number of pages of their
    range, which is computed from the arguments, so no fuel is passed in. *)

From stdpp Require Import base list numbers strings tactics gmap.
From Stdlib Require Import Lia.
From S2P Require Import Prelude Params StringC KState Spinlock Mmu Kalloc Sched.

Local Open Scope Z_scope.
Local Open Scope xv6_scope.

Definition getmem (a : Z) : M kst Z := gets (fun s => load32 (mem s) a).

Definition walkpgdir (pgdir va : Z) (alloc : bool) : M kst Z :=
  let pde := pgdir + 4 * PDX va in
  e <- getmem pde ;;
  if bset e PTE_P then ret (p2v (PTE_ADDR e) + 4 * PTX va)
  else if negb alloc then ret 0 else
  pgtab <- kalloc ;;
  if pgtab =? 0 then ret 0 else
  setmem (fun m => memset m pgtab 0 PGSIZE) ;;;
  setmem (fun m => store32 m pde (Z.lor (Z.lor (Z.lor (v2p pgtab) PTE_P) PTE_W) PTE_U)) ;;;
  ret (pgtab + 4 * PTX va).

(** The [for(;;)] loop of [mappages]; [n] is the number of pages left. *)
Fixpoint mappages_loop (n : nat) (pgdir a last pa perm : Z) : M kst Z :=
  match n with
  | O => outoffuel
  | S n =>
      pte <- walkpgdir pgdir a true ;;
      if pte =? 0 then ret (-1) else
      e <- getmem pte ;;
      if bset e PTE_P then panic "remap" else
      setmem (fun m => store32 m pte (Z.lor (Z.lor pa perm) PTE_P)) ;;;
      if a =? last then ret 0
      else mappages_loop n pgdir (u32 (a + PGSIZE)) last (u32 (pa + PGSIZE)) perm
  end.

Definition mappages (pgdir va size pa perm : Z) : M kst Z :=
  let a := PGROUNDDOWN va in
  let last := PGROUNDDOWN (u32 (va + size - 1)) in
  mappages_loop (S (Z.to_nat (u32 (last - a) / PGSIZE))) pgdir a last pa perm.

(** Whether physical page [pa] is a shared-memory frame in use: its index plus
    one, 0 otherwise. *)
Definition is_shared (pa : Z) : M kst Z :=
  tab <- gets shmtab ;;
  ret (match scan (fun e => (p2v pa =? addr e) && (0 <? shm_refcount e)) tab with
       | Some j => Z.of_nat j + 1
       | None => 0
       end).

Section Vm.

(** [end] and [data]: addresses the linker gives the kernel image. *)
Variables kend kdata : Z.

(** The [kmap] table: virtual start, physical start and end, permissions. *)
Definition kmap : list (Z * Z * Z * Z) :=
  [ (KERNBASE, 0, EXTMEM, PTE_W);
    (KERNLINK, v2p KERNLINK, v2p kdata, 0);
    (kdata, v2p kdata, PHYSTOP, PTE_W);
    (DEVSPACE, DEVSPACE, 0, PTE_W) ].

Fixpoint setupkvm_loop (pgdir : Z) (ks : list (Z * Z * Z * Z)) : M kst Z :=
  match ks with
  | [] => ret pgdir
  | (virt, phys_start, phys_end, perm) :: ks =>
      r <- mappages pgdir virt (u32 (phys_end - phys_start)) phys_start perm ;;
      if r <? 0 then ret 0 else setupkvm_loop pgdir ks
  end.

Definition setupkvm : M kst Z :=
  pgdir <- kalloc ;;
  if pgdir =? 0 then ret 0 else
  setmem (fun m => memset m pgdir 0 PGSIZE) ;;;
  if DEVSPACE <? p2v PHYSTOP then panic "PHYSTOP too high" else
  setupkvm_loop pgdir kmap.

Definition kvmalloc : M kst unit :=
  d <- setupkvm ;;
  modify (set_kpgdir d) ;;;
  switchkvm.

(** [mem = kalloc()] is not tested against 0 by the source. *)
Definition inituvm (pgdir init sz : Z) : M kst unit :=
  if PGSIZE <=? sz then panic "inituvm: more than a page" else
  pg <- kalloc ;;
  setmem (fun m => memset m pg 0 PGSIZE) ;;;
  _ <- mappages pgdir 0 PGSIZE (v2p pg) (Z.lor PTE_W PTE_U) ;;
  setmem (fun m => memmove m pg init sz).

(** [*pte = 0] after giving the frame back unless it is shared. *)
Fixpoint deallocuvm_loop (n : nat) (pgdir a oldsz : Z) : M kst unit :=
  match n with
  | O => outoffuel
  | S n =>
      if a <? oldsz then
        pte <- walkpgdir pgdir a false ;;
        if pte =? 0 then
          deallocuvm_loop n pgdir (u32 (u32 (a + (NPTENTRIES - 1) * PGSIZE) + PGSIZE)) oldsz
        else
          e <- getmem pte ;;
          (if bset e PTE_P then
             let pa := PTE_ADDR e in
             save_this <- is_shared pa ;;
             if pa =? 0 then panic "kfree" else
             (if save_this =? 0 then kfree kend (p2v pa) else ret tt) ;;;
             setmem (fun m => store32 m pte 0)
           else ret tt) ;;;
          deallocuvm_loop n pgdir (u32 (a + PGSIZE)) oldsz
      else ret tt
  end.

(** The number of iterations a loop from [a] to [b] by pages can make, with one
    more to find the end. *)
Definition npages (a b : Z) : nat := S (Z.to_nat ((b - a + PGSIZE - 1) / PGSIZE)).

Definition deallocuvm (pgdir oldsz newsz : Z) : M kst Z :=
  if oldsz <=? newsz then ret oldsz else
  let a := PGROUNDUP newsz in
  deallocuvm_loop (npages a oldsz) pgdir a oldsz ;;;
  ret newsz.

Fixpoint allocuvm_loop (n : nat) (pgdir a oldsz newsz : Z) : M kst Z :=
  match n with
  | O => outoffuel
  | S n =>
      if a <? newsz then
        pg <- kalloc ;;
        if pg =? 0 then
          cprint "allocuvm out of memory" ;;;
          _ <- deallocuvm pgdir newsz oldsz ;;
          ret 0
        else
          setmem (fun m => memset m pg 0 PGSIZE) ;;;
          _ <- mappages pgdir a PGSIZE (v2p pg) (Z.lor PTE_W PTE_U) ;;
          allocuvm_loop n pgdir (u32 (a + PGSIZE)) oldsz newsz
      else ret newsz
  end.

Definition allocuvm (pgdir oldsz newsz : Z) : M kst Z :=
  if KERNBASE <=? newsz then ret 0 else
  if newsz <? oldsz then ret oldsz else
  let a := PGROUNDUP oldsz in
  allocuvm_loop (npages a newsz) pgdir a oldsz newsz.

Fixpoint unmap_loop (n : nat) (pgdir a top freeframes : Z) : M kst unit :=
  match n with
  | O => outoffuel
  | S n =>
      if a <? top then
        pte <- walkpgdir pgdir a false ;;
        if pte =? 0 then
          unmap_loop n pgdir (u32 (u32 (a + (NPTENTRIES - 1) * PGSIZE) + PGSIZE)) top freeframes
        else
          e <- getmem pte ;;
          (if bset e PTE_P then
             let pa := PTE_ADDR e in
             if pa =? 0 then panic "kfree unmappages" else
             (if freeframes =? 0 then kfree kend (p2v pa) else ret tt) ;;;
             setmem (fun m => store32 m pte 0)
           else ret tt) ;;;
          unmap_loop n pgdir (u32 (a + PGSIZE)) top freeframes
      else ret tt
  end.

Definition unmap (pgdir va size freeframes : Z) : M kst Z :=
  let a := PGROUNDUP va in
  let top := u32 (va + size) in
  unmap_loop (npages a top) pgdir a top freeframes ;;;
  ret 0.

(** The loop of [freevm] over the page directory, from entry [i]. *)
Fixpoint freevm_loop (n : nat) (pgdir i : Z) : M kst unit :=
  match n with
  | O => ret tt
  | S n =>
      e <- getmem (pgdir + 4 * i) ;;
      (if bset e PTE_P then kfree kend (p2v (PTE_ADDR e)) else ret tt) ;;;
      freevm_loop n pgdir (i + 1)
  end.

Definition freevm (pgdir : Z) : M kst unit :=
  if pgdir =? 0 then panic "freevm: no pgdir" else
  _ <- deallocuvm pgdir KERNBASE 0 ;;
  freevm_loop (Z.to_nat NPDENTRIES) pgdir 0 ;;;
  kfree kend pgdir.

Definition clearpteu (pgdir uva : Z) : M kst unit :=
  pte <- walkpgdir pgdir uva false ;;
  if pte =? 0 then panic "clearpteu" else
  setmem (fun m => store32 m pte (Z.land (load32 m pte) (u32 (Z.lnot PTE_U)))).

Fixpoint copyuvm_loop (n : nat) (pgdir d i sz : Z) : M kst Z :=
  match n with
  | O => outoffuel
  | S n =>
      if i <? sz then
        pte <- walkpgdir pgdir i false ;;
        if pte =? 0 then panic "copyuvm: pte should exist" else
        e <- getmem pte ;;
        if negb (bset e PTE_P) then panic "copyuvm: page not present" else
        let pa := PTE_ADDR e in
        let flags := PTE_FLAGS e in
        only_map <- is_shared pa ;;
        if only_map =? 0 then
          pg <- kalloc ;;
          if pg =? 0 then freevm d ;;; ret 0 else
          setmem (fun m => memmove m pg (p2v pa) PGSIZE) ;;;
          r <- mappages d i PGSIZE (v2p pg) flags ;;
          if r <? 0 then freevm d ;;; ret 0
          else copyuvm_loop n pgdir d (u32 (i + PGSIZE)) sz
        else
          r <- mappages d i PGSIZE pa flags ;;
          if r <? 0 then freevm d ;;; ret 0
          else copyuvm_loop n pgdir d (u32 (i + PGSIZE)) sz
      else ret d
  end.

Definition copyuvm (pgdir sz : Z) : M kst Z :=
  d <- setupkvm ;;
  if d =? 0 then ret 0 else
  copyuvm_loop (npages 0 sz) pgdir d 0 sz.

(** The source does not test [pte] against 0: it reads through it, which is a
    read of the word at address 0. *)
Definition uva2ka (pgdir uva : Z) : M kst Z :=
  pte <- walkpgdir pgdir uva false ;;
  e <- (if pte =? 0 then load32_va 0 else getmem pte) ;;
  if negb (bset e PTE_P) then ret 0 else
  if negb (bset e PTE_U) then ret 0 else
  ret (p2v (PTE_ADDR e)).

(** Store the bytes of a kernel buffer from kernel address [a] on. *)
Fixpoint wrs (m : memory) (a : Z) (l : list Z) : memory :=
  match l with
  | [] => m
  | b :: l => wrs (wr m a b) (a + 1) l
  end.

(** [buf] is what is left of the source buffer, so [len] is its length. *)
Fixpoint copyout_loop (n : nat) (pgdir va : Z) (buf : list Z) : M kst Z :=
  match buf with
  | [] => ret 0
  | _ =>
      match n with
      | O => outoffuel
      | S n =>
          let va0 := PGROUNDDOWN va in
          pa0 <- uva2ka pgdir va0 ;;
          if pa0 =? 0 then ret (-1) else
          let len := Z.of_nat (length buf) in
          let k := PGSIZE - (va - va0) in
          let k := if len <? k then len else k in
          setmem (fun m => wrs m (pa0 + (va - va0)) (take (Z.to_nat k) buf)) ;;;
          copyout_loop n pgdir (u32 (va0 + PGSIZE)) (drop (Z.to_nat k) buf)
      end
  end.

(** Each page takes at least one byte, except that the first may be partial. *)
Definition copyout (pgdir va : Z) (buf : list Z) : M kst Z :=
  copyout_loop (S (S (Z.to_nat (Z.of_nat (length buf) / PGSIZE)))) pgdir va buf.

End Vm.
