(* ===== verification/VmSpec.v ===== *)
(** * Page tables refine a map from pages to entries

    The specification of [vm.c]: under the directory [pgdir] the processor sees
    a partial map from virtual pages to page-table entries ([hw_pte]).
    [walkpgdir] never changes that map, [mappages] extends it by its range,
    [deallocuvm] removes a range, and pages of other owners keep their bytes. *)

From stdpp Require Import base list numbers strings tactics gmap.
From Stdlib Require Import Lia.
From S2P Require Import Prelude Params StringC KState Spinlock Mmu Kalloc Sched Vm.

Local Open Scope Z_scope.
Local Open Scope xv6_scope.

(** ** Entries *)

(** The page table a directory entry points to. *)
Definition tab_of (e : Z) : option Z := if bset e PTE_P then Some (p2v (PTE_ADDR e)) else None.

Definition tab_at (m : memory) (pgdir i : Z) : option Z := tab_of (load32 m (pgdir + 4 * i)).

Definition tables (m : memory) (pgdir : Z) : list Z := omap (tab_at m pgdir) (seqZ 0 1024).

(** The pages a page table consists of. *)
Definition ptpages (m : memory) (pgdir : Z) : list Z := pgdir :: tables m pgdir.

(** A page-aligned physical address with flag bits. *)
Definition entry (pa flags : Z) : Z := pa + flags.

Lemma bset_P e : bset e PTE_P = Z.odd e.
Proof.
  unfold bset, PTE_P. change 1 with (Z.ones 1) at 1. rewrite Z.land_ones by lia.
  change (2 ^ 1) with 2. rewrite Zmod_odd. by destruct (Z.odd e).
Qed.

Lemma bset_W e : bset e PTE_W = Z.testbit e 1.
Proof.
  unfold bset, PTE_W. destruct (Z.testbit e 1) eqn:E.
  - apply negb_true_iff, Z.eqb_neq. intros H. apply (f_equal (fun z => Z.testbit z 1)) in H.
    rewrite Z.land_spec, E in H. done.
  - apply negb_false_iff, Z.eqb_eq. apply Z.bits_inj'. intros n Hn.
    rewrite Z.land_spec, Z.bits_0. destruct (decide (n = 1)) as [->|Hne]; [by rewrite E|].
    change 2 with (2 ^ 1). rewrite Z.pow2_bits_false by done. by rewrite andb_false_r.
Qed.

Lemma PTE_ADDR_entry pa f :
  is_u32 pa -> pa mod 4096 = 0 -> 0 <= f < 4096 -> PTE_ADDR (entry pa f) = pa.
Proof.
  intros Hr Ha Hf. unfold entry. rewrite PTE_ADDR_eq.
  - rewrite Z.add_mod, Ha, (Z.mod_small f) by lia. rewrite Z.mod_small; lia.
  - unfold is_u32 in *. Z.div_mod_to_equations. lia.
Qed.

Lemma PTE_FLAGS_entry pa f :
  is_u32 pa -> pa mod 4096 = 0 -> 0 <= f < 4096 -> PTE_FLAGS (entry pa f) = f.
Proof.
  intros Hr Ha Hf. unfold entry. rewrite PTE_FLAGS_eq.
  - rewrite Z.add_mod, Ha, (Z.mod_small f) by lia. rewrite Z.mod_small; lia.
  - unfold is_u32 in *. Z.div_mod_to_equations. lia.
Qed.

(** [pa | perm | PTE_P] as the code writes it. *)
Lemma lor_entry pa perm :
  pa mod 4096 = 0 -> 0 <= perm < 4096 ->
  Z.lor (Z.lor pa perm) PTE_P = entry pa (Z.lor perm PTE_P) /\ 0 <= Z.lor perm PTE_P < 4096.
Proof.
  intros Ha Hp. assert (Hr : 0 <= Z.lor perm PTE_P < 4096).
  { split; [apply Z.lor_nonneg; unfold PTE_P; lia|]. apply (Z.log2_lt_cancel _ 4096).
    rewrite Z.log2_lor by (unfold PTE_P; lia). apply Z.max_lub_lt; [|by unfold PTE_P].
    destruct (decide (perm = 0)) as [->|]; [by vm_compute|].
    change (Z.log2 4096) with 12. apply Z.log2_lt_pow2; lia. }
  split; [|done]. rewrite <- Z.lor_assoc. by apply lor_page_flags.
Qed.

Lemma odd_lor_P f : Z.odd (Z.lor f PTE_P) = true.
Proof. rewrite <- Z.bit0_odd, Z.lor_spec. by rewrite orb_true_r. Qed.

Lemma odd_entry pa f : pa mod 4096 = 0 -> Z.odd (entry pa f) = Z.odd f.
Proof.
  intros Ha. unfold entry. rewrite Z.odd_add.
  replace pa with (2 * (2048 * (pa / 4096))) by (Z.div_mod_to_equations; lia).
  by rewrite Z.odd_mul.
Qed.

(** Words of a page are untouched by a write to another page. *)
Lemma load32_outside m m' p x :
  (forall y, m' y <> m y -> p <= y < p + 4096) -> x + 4 <= p \/ p + 4096 <= x ->
  load32 m' x = load32 m x.
Proof.
  intros H Hx. apply load32_ext. intros y Hy. destruct (decide (m' y = m y)) as [|Hn]; [done|].
  apply H in Hn. lia.
Qed.

Lemma store32_diff m a v y : store32 m a v y <> m y -> a <= y < a + 4.
Proof.
  intros H. destruct (decide (a <= y < a + 4)) as [|Hn]; [done|].
  exfalso. apply H, store32_other. lia.
Qed.

Lemma tab_in m pgdir i t : 0 <= i < 1024 -> tab_at m pgdir i = Some t -> t ∈ tables m pgdir.
Proof.
  intros Hi H. apply list_elem_of_omap. exists i. split; [|done]. apply elem_of_seqZ. lia.
Qed.

Lemma tables_ext m m' pgdir :
  (forall i, 0 <= i < 1024 -> tab_at m' pgdir i = tab_at m pgdir i) ->
  tables m' pgdir = tables m pgdir.
Proof.
  intros H. unfold tables. apply list_omap_ext, Forall_Forall2_diag, Forall_forall.
  intros i Hi%elem_of_seqZ. apply H. lia.
Qed.

Lemma omap_inj {A B} (f : A -> option B) l x y b :
  NoDup (omap f l) -> x ∈ l -> y ∈ l -> f x = Some b -> f y = Some b -> x = y.
Proof.
  induction l as [|a l IH]; intros Hn Hx Hy Fx Fy; [set_solver|]. csimpl in Hn.
  assert (Hin : forall z, z ∈ l -> f z = Some b -> b ∈ omap f l)
    by (intros z Hz Fz; apply list_elem_of_omap; eauto).
  apply elem_of_cons in Hx as [->|Hx], Hy as [->|Hy]; [done| | |].
  - rewrite Fx in Hn. apply NoDup_cons in Hn as [Hn _]. exfalso. eauto.
  - rewrite Fy in Hn. apply NoDup_cons in Hn as [Hn _]. exfalso. eauto.
  - apply IH; try done. destruct (f a); [by apply NoDup_cons in Hn as [_ ?] | done].
Qed.

(** Filling one empty directory entry adds one table. *)
Lemma tables_insert m m' pgdir i t :
  0 <= i < 1024 -> tab_at m pgdir i = None -> tab_at m' pgdir i = Some t ->
  (forall j, 0 <= j < 1024 -> j <> i -> tab_at m' pgdir j = tab_at m pgdir j) ->
  tables m' pgdir ≡ₚ t :: tables m pgdir.
Proof.
  intros Hi H0 H1 Hj. unfold tables.
  assert (E : seqZ 0 1024 = seqZ 0 i ++ i :: seqZ (i + 1) (1023 - i)).
  { replace 1024 with (i + (1 + (1023 - i))) by lia. rewrite seqZ_app by lia.
    rewrite (seqZ_cons (0 + i)) by lia. rewrite Z.add_0_l.
    replace (Z.pred (1 + (1023 - i))) with (1023 - i) by lia. reflexivity. }
  assert (Ho : forall a n, (forall j, a <= j < a + n -> 0 <= j < 1024 /\ j <> i) ->
            omap (tab_at m' pgdir) (seqZ a n) = omap (tab_at m pgdir) (seqZ a n)).
  { intros a n H. apply list_omap_ext, Forall_Forall2_diag, Forall_forall.
    intros j Hin%elem_of_seqZ. apply Hj; apply H; lia. }
  rewrite E, !omap_app. csimpl. rewrite H0, H1, !Ho by lia. by rewrite Permutation_middle.
Qed.

Lemma tables_inj m pgdir i j t :
  NoDup (tables m pgdir) -> 0 <= i < 1024 -> 0 <= j < 1024 ->
  tab_at m pgdir i = Some t -> tab_at m pgdir j = Some t -> i = j.
Proof.
  unfold tables. intros Hn Hi Hj. apply (omap_inj _ _ _ _ _ Hn); apply elem_of_seqZ; lia.
Qed.

(** ** The representation invariant *)

Section Spec.

Variable kend : Z.
Hypothesis kend_high : KERNBASE < kend.

#[local] Set Default Proof Using "Type".

(** The page table under [pgdir] is made of pages that are distinct from each
    other, from the pages [rest] of other owners and from the free pages [l]. *)
Record pt_ok (s : kst) (pgdir : Z) (rest l : list Z) : Prop := mk_pt_ok {
  pt_kmem : kmem_ok kend s l;
  pt_bytes : bytes (mem s);
  pt_pages : Forall (page_ok kend) (ptpages (mem s) pgdir);
  pt_rest : Forall (page_ok kend) rest;
  pt_nodup : NoDup (ptpages (mem s) pgdir ++ rest ++ l)
}.

Lemma page_p2v a : page_ok kend a -> p2v (v2p a) = a /\ is_u32 (v2p a) /\ v2p a mod 4096 = 0.
Proof using Type kend_high.
  intros Ha. pose proof (page_ok_top kend kend_high a Ha) as [H1 H2]. destruct Ha as (H & Hm & _).
  unfold p2v, v2p, KERNBASE, PHYSTOP, PGSIZE, is_u32 in *.
  rewrite (u32_small (a - _)) by (unfold is_u32; lia). split; [|split; [lia|]].
  - rewrite u32_small; [lia | unfold is_u32; lia].
  - Z.div_mod_to_equations. lia.
Qed.

(** The entry [walkpgdir] writes into the directory for a new table. *)
Lemma new_pde a :
  page_ok kend a ->
  let e := Z.lor (Z.lor (Z.lor (v2p a) PTE_P) PTE_W) PTE_U in
  is_u32 e /\ tab_of e = Some a.
Proof using Type kend_high.
  intros Ha. destruct (page_p2v a Ha) as (H1 & H2 & H3).
  replace (Z.lor (Z.lor (Z.lor (v2p a) PTE_P) PTE_W) PTE_U) with (entry (v2p a) 7).
  2: { rewrite <- !Z.lor_assoc. change (Z.lor PTE_P (Z.lor PTE_W PTE_U)) with 7.
       rewrite lor_page_flags by lia. done. }
  cbv zeta. split.
  - unfold entry, is_u32 in *. Z.div_mod_to_equations. lia.
  - unfold tab_of. rewrite bset_P, odd_entry by done. cbn [Z.odd].
    rewrite PTE_ADDR_entry by (done || lia). by rewrite H1.
Qed.

#[local] Opaque tables.

(** ** Walking *)

Lemma hw_pte_tab m pgdir va :
  hw_pte m pgdir va =
  match tab_at m pgdir (PDX va) with
  | Some t => let e := load32 m (t + 4 * PTX va) in if bset e PTE_P then Some e else None
  | None => None
  end.
Proof. unfold hw_pte, tab_at, tab_of. by destruct (bset _ PTE_P). Qed.

Lemma pt_page_tab s pgdir rest l i t :
  pt_ok s pgdir rest l -> 0 <= i < 1024 -> tab_at (mem s) pgdir i = Some t ->
  page_ok kend t /\ t <> pgdir /\ t ∉ rest /\ t ∉ l.
Proof using Type kend_high.
  intros [_ _ Hp _ Hn] Hi Ht. apply tab_in in Ht; [|done].
  apply Forall_cons_1 in Hp as [_ Hp']. rewrite Forall_forall in Hp'.
  unfold ptpages in Hn. simpl in Hn. apply NoDup_cons in Hn as [Hn1 Hn2].
  apply NoDup_app in Hn2 as (_ & Hd & _). specialize (Hd t Ht). set_solver.
Qed.

Lemma pt_pgdir_page s pgdir rest l : pt_ok s pgdir rest l -> page_ok kend pgdir.
Proof. intros [_ _ Hp _ _]. by apply Forall_cons_1 in Hp as [? _]. Qed.

Lemma pt_tab_inj s pgdir rest l i j t :
  pt_ok s pgdir rest l -> 0 <= i < 1024 -> 0 <= j < 1024 ->
  tab_at (mem s) pgdir i = Some t -> tab_at (mem s) pgdir j = Some t -> i = j.
Proof.
  intros [_ _ _ _ Hn] Hi Hj Ti Tj. unfold ptpages in Hn. simpl in Hn.
  apply NoDup_cons in Hn as [_ Hn]. apply NoDup_app in Hn as (Hn & _ & _).
  by eapply tables_inj.
Qed.

(** A state that differs from [s] in the locks only. *)
Lemma pt_ok_lks s pgdir rest l l' : pt_ok s pgdir rest l -> pt_ok (set_lks l' s) pgdir rest l.
Proof. intros [H1 H2 H3 H4 H5]. split; try done. by apply kmem_ok_lks. Qed.

(** Every byte that changes lies in a page that is not in [l]. *)
Definition changes_off (l : list Z) (m m' : memory) : Prop :=
  forall y, m' y <> m y -> exists q, page_ok kend q /\ q ∉ l /\ q <= y < q + 4096.

Lemma changes_off_same l m m' p y :
  changes_off l m m' -> Forall (page_ok kend) l -> p ∈ l -> p <= y < p + 4096 -> m' y = m y.
Proof.
  intros Hc Hl Hp Hy. destruct (decide (m' y = m y)) as [|Hne]; [done|].
  destruct (Hc y Hne) as (q & Hq & Hn & Hqy). rewrite Forall_forall in Hl.
  pose proof (pages_disjoint kend q p Hq (Hl _ Hp)) as D. unfold PGSIZE in D.
  assert (q <> p) by congruence. lia.
Qed.

Lemma kmem_ok_write s l m' :
  changes_off l (mem s) m' -> kmem_ok kend s l -> kmem_ok kend (set_mem m' s) l.
Proof.
  intros Hc [K1 K2 K3]. split; simpl; [|done|done].
  apply (flist_ext (mem s)); [|done]. intros a Ha. symmetry.
  apply load32_ext. intros x Hx. apply (changes_off_same l _ _ a); [done|done|done|lia].
Qed.

(** ** What a page-table operation may change *)

(** Only the memory, the free list and the allocator's lock. *)
Definition vm_frame (s s' : kst) : Prop :=
  exists m fl l', s' = set_lks l' (set_freelist fl (set_mem m s)) /\ lks_eq (lks s) l'.

#[export] Instance vm_frame_preorder : PreOrder vm_frame.
Proof.
  split.
  - intros s. exists (mem s), (freelist s), (lks s). split; [by destruct s | reflexivity].
  - intros a b c (m1 & f1 & l1 & -> & H1) (m2 & f2 & l2 & -> & H2).
    exists m2, f2, l2. split; [done|]. by etransitivity.
Qed.

Lemma vm_frame_lock s s' : vm_frame s s' -> kmem_lock_ok s -> kmem_lock_ok s'.
Proof. intros (m & fl & l' & -> & He) [H1 H2]. unfold kmem_lock_ok. simpl. by rewrite <- He. Qed.

(** The bytes of the pages [rest] are kept. *)
Definition same_pages (rest : list Z) (m m' : memory) : Prop :=
  forall p y, p ∈ rest -> p <= y < p + 4096 -> m' y = m y.

#[export] Instance same_pages_preorder rest : PreOrder (same_pages rest).
Proof.
  split; [by intros m p y|]. intros a b c H1 H2 p y Hp Hy. by rewrite (H2 p y), (H1 p y).
Qed.

Lemma same_pages_write rest m m' :
  Forall (page_ok kend) rest -> changes_off rest m m' -> same_pages rest m m'.
Proof. intros Hr Hc p y Hp Hy. by apply (changes_off_same rest _ _ p). Qed.

(** ** The map the processor sees, by page number *)

Definition view (m : memory) (pgdir vpn : Z) : option Z := hw_pte m pgdir (4096 * vpn).

Lemma PDX_page vpn : 0 <= vpn < 2 ^ 20 -> PDX (4096 * vpn) = vpn / 1024.
Proof.
  intros H. rewrite PDX_eq by (unfold is_u32; lia). Z.div_mod_to_equations. lia.
Qed.

Lemma PTX_page vpn : 0 <= vpn < 2 ^ 20 -> PTX (4096 * vpn) = vpn mod 1024.
Proof.
  intros H. rewrite PTX_eq by (unfold is_u32; lia).
  replace (4096 * vpn / 4096) with vpn; [done|]. Z.div_mod_to_equations. lia.
Qed.

(** All addresses of a page have the same entry. *)
Lemma hw_pte_page m pgdir va : is_u32 va -> hw_pte m pgdir va = view m pgdir (va / 4096).
Proof.
  intros H. unfold view. rewrite !hw_pte_tab.
  assert (Hv : 0 <= va / 4096 < 2 ^ 20) by (unfold is_u32 in H; Z.div_mod_to_equations; lia).
  rewrite PDX_page, PTX_page, PDX_eq, PTX_eq by done.
  replace (va / 4096 / 1024) with (va / 2 ^ 22); [done|].
  rewrite Z.div_div by lia. done.
Qed.

Lemma view_tab m pgdir vpn :
  0 <= vpn < 2 ^ 20 ->
  view m pgdir vpn =
  match tab_at m pgdir (vpn / 1024) with
  | Some t => let e := load32 m (t + 4 * (vpn mod 1024)) in if bset e PTE_P then Some e else None
  | None => None
  end.
Proof. intros H. unfold view. by rewrite hw_pte_tab, PDX_page, PTX_page. Qed.

(** Writing an entry of a page table. *)
Lemma pt_set_pte s pgdir rest l vpn t e :
  pt_ok s pgdir rest l -> 0 <= vpn < 2 ^ 20 -> is_u32 e ->
  tab_at (mem s) pgdir (vpn / 1024) = Some t ->
  let m' := store32 (mem s) (t + 4 * (vpn mod 1024)) e in
  pt_ok (set_mem m' s) pgdir rest l /\ same_pages rest (mem s) m' /\
  (forall i, 0 <= i < 1024 -> tab_at m' pgdir i = tab_at (mem s) pgdir i) /\
  (forall p, 0 <= p < 2 ^ 20 -> view m' pgdir p =
     if p =? vpn then (if bset e PTE_P then Some e else None) else view (mem s) pgdir p).
Proof using Type kend_high.
  intros Hok Hv He Ht. cbv zeta. set (m' := store32 _ _ _).
  assert (Hi : 0 <= vpn / 1024 < 1024) by (Z.div_mod_to_equations; lia).
  destruct (pt_page_tab _ _ _ _ _ _ Hok Hi Ht) as (Hp & Hne & Hr & Hl).
  pose proof (pt_pgdir_page _ _ _ _ Hok) as Hpd.
  assert (Hd : forall y, m' y <> mem s y -> t <= y < t + 4096).
  { intros y Hy%store32_diff. Z.div_mod_to_equations. lia. }
  assert (Hother : forall q x, page_ok kend q -> q <> t -> q <= x -> x + 4 <= q + 4096 ->
            load32 m' x = load32 (mem s) x).
  { intros q x Hq Hqt H1 H2. apply (load32_outside _ _ t); [done|].
    pose proof (pages_disjoint kend q t Hq Hp Hqt). unfold PGSIZE in *. lia. }
  assert (Htab : forall i, 0 <= i < 1024 -> tab_at m' pgdir i = tab_at (mem s) pgdir i).
  { intros i Hi'. unfold tab_at. by rewrite (Hother pgdir) by (done || lia). }
  assert (Htabs : tables m' pgdir = tables (mem s) pgdir) by by apply tables_ext.
  split; [|split; [|split; [done|]]].
  - destruct Hok as [K1 K2 K3 K4 K5]. unfold ptpages in *.
    split; simpl; unfold ptpages; rewrite ?Htabs; try done.
    + apply kmem_ok_write; [|done]. intros y Hy. exists t. auto.
    + by apply bytes_store32.
  - apply same_pages_write; [by apply (pt_rest _ _ _ _ Hok)|]. intros y Hy. exists t. auto.
  - intros p Hp'. rewrite !view_tab by done.
    assert (Hpi : 0 <= p / 1024 < 1024) by (Z.div_mod_to_equations; lia). rewrite Htab by done.
    destruct (tab_at (mem s) pgdir (p / 1024)) as [t'|] eqn:Ht'.
    + destruct (Z.eqb_spec p vpn) as [->|Hne'].
      * rewrite Ht in Ht'. simplify_eq. unfold m'. cbv zeta. by rewrite load_store32_eq.
      * cbv zeta. destruct (decide (t' = t)) as [->|Htt].
        -- assert (p / 1024 = vpn / 1024) by (by eapply pt_tab_inj).
           unfold m'. rewrite load_store32_ne; [done|]. Z.div_mod_to_equations. lia.
        -- destruct (pt_page_tab _ _ _ _ _ _ Hok Hpi Ht') as (Hp2 & _).
           rewrite (Hother t') by (done || Z.div_mod_to_equations; lia). done.
    + destruct (Z.eqb_spec p vpn) as [->|Hne']; [congruence|done].
Qed.

(** Clearing a page and hanging it into the directory. *)
Definition with_table (m : memory) (pgdir i a : Z) : memory :=
  store32 (memset m a 0 PGSIZE) (pgdir + 4 * i)
    (Z.lor (Z.lor (Z.lor (v2p a) PTE_P) PTE_W) PTE_U).

Lemma with_table_diff m pgdir i a y :
  0 <= i < 1024 -> with_table m pgdir i a y <> m y ->
  a <= y < a + 4096 \/ pgdir <= y < pgdir + 4096.
Proof.
  intros Hi H. unfold with_table in H.
  destruct (decide (pgdir + 4 * i <= y < pgdir + 4 * i + 4)) as [|Hn]; [lia|].
  rewrite store32_other, memset_fill in H by (unfold PGSIZE; lia). unfold fill, PGSIZE in H.
  destruct (Z.leb_spec a y), (Z.ltb_spec y (a + 4096)); simpl in H; try done. lia.
Qed.

Lemma with_table_zero m pgdir i a j :
  page_ok kend a -> page_ok kend pgdir -> a <> pgdir -> 0 <= i < 1024 -> 0 <= j < 1024 ->
  load32 (with_table m pgdir i a) (a + 4 * j) = 0.
Proof.
  intros Ha Hp Hne Hi Hj. unfold with_table.
  pose proof (pages_disjoint kend a pgdir Ha Hp Hne) as D. unfold PGSIZE in *.
  rewrite load_store32_ne by lia. unfold load32. rewrite !memset_fill by lia. unfold fill.
  bdestr. done.
Qed.

Lemma with_table_tab m pgdir i a :
  page_ok kend a -> page_ok kend pgdir -> a <> pgdir -> 0 <= i < 1024 ->
  tab_at (with_table m pgdir i a) pgdir i = Some a /\
  forall j, 0 <= j < 1024 -> j <> i -> tab_at (with_table m pgdir i a) pgdir j = tab_at m pgdir j.
Proof using Type kend_high.
  intros Ha Hp Hne Hi. destruct (new_pde a Ha) as [He Ht].
  pose proof (pages_disjoint kend a pgdir Ha Hp Hne) as D. unfold PGSIZE in D. split.
  - unfold tab_at, with_table. by rewrite load_store32_eq.
  - intros j Hj Hji. unfold tab_at, with_table. rewrite load_store32_ne by lia. f_equal.
    apply load32_ext. intros x Hx. rewrite memset_fill by (unfold PGSIZE; lia).
    unfold fill, PGSIZE. bdestr; lia.
Qed.

Lemma pt_new_table s pgdir rest l vpn a :
  pt_ok s pgdir rest (a :: l) -> 0 <= vpn < 2 ^ 20 ->
  tab_at (mem s) pgdir (vpn / 1024) = None ->
  let m' := with_table (mem s) pgdir (vpn / 1024) a in
  pt_ok (set_mem m' (kalloced s)) pgdir rest l /\ same_pages rest (mem s) m' /\
  tab_at m' pgdir (vpn / 1024) = Some a /\
  (forall p, 0 <= p < 2 ^ 20 -> view m' pgdir p = view (mem s) pgdir p).
Proof using Type kend_high.
  intros Hok Hv Ht. cbv zeta. set (i := vpn / 1024) in *. set (m' := with_table _ _ _ _).
  assert (Hi : 0 <= i < 1024) by (unfold i; Z.div_mod_to_equations; lia).
  pose proof (pt_pgdir_page _ _ _ _ Hok) as Hpd.
  destruct Hok as [K1 K2 K3 K4 K5]. pose proof (kmem_pages _ _ _ K1) as Kp.
  apply Forall_cons_1 in Kp as [Ha Kl]. unfold ptpages in K3, K5. simpl in K5.
  apply Forall_cons_1 in K3 as [_ K3].
  assert (E : tables (mem s) pgdir ++ rest ++ a :: l ≡ₚ a :: tables (mem s) pgdir ++ rest ++ l).
  { rewrite !app_assoc. by rewrite <- Permutation_middle. }
  rewrite E in K5. apply NoDup_cons in K5 as [N1 K5]. apply NoDup_cons in K5 as [N2 K5].
  assert (Hne : a <> pgdir) by set_solver.
  destruct (with_table_tab (mem s) pgdir i a Ha Hpd Hne Hi) as [Ti Tj]. fold m' in Ti, Tj.
  pose proof (tables_insert _ _ _ _ _ Hi Ht Ti Tj) as Htabs.
  assert (Hch : changes_off (rest ++ l) (mem s) m').
  { intros y Hy. apply with_table_diff in Hy as [Hy|Hy]; [|..|done].
    - exists a. split; [done|]. split; [set_solver|done].
    - exists pgdir. split; [done|]. split; [set_solver|done]. }
  assert (Hch' : forall k, (forall q, q ∈ k -> q ∈ rest ++ l) -> changes_off k (mem s) m').
  { intros k Hk y Hy. destruct (Hch y Hy) as (q & ? & ? & ?). exists q. split; [done|]. split; auto. }
  split; [|split; [|split; [done|]]].
  - split; simpl.
    + apply kmem_ok_write; [|by eapply kmem_ok_kalloced]. unfold kalloced.
      destruct (_ =? 0); apply Hch'; set_solver.
    + unfold m', with_table. apply bytes_store32. intros x. rewrite memset_fill by (unfold PGSIZE; lia).
      unfold fill. destruct (_ && _); [by vm_compute|apply K2].
    + unfold ptpages. rewrite Htabs. constructor; [done|]. by constructor.
    + done.
    + unfold ptpages. rewrite Htabs. simpl. apply NoDup_cons. split; [set_solver|].
      apply NoDup_cons. by split.
  - apply same_pages_write; [done|]. apply Hch'. set_solver.
  - intros p Hp. rewrite !view_tab by done.
    destruct (decide (p / 1024 = i)) as [->|Hpi].
    + rewrite Ti, Ht. cbv zeta. unfold m'. rewrite with_table_zero; [done..|].
      Z.div_mod_to_equations. lia.
    + assert (Hpr : 0 <= p / 1024 < 1024) by (Z.div_mod_to_equations; lia). rewrite Tj by done.
      destruct (tab_at (mem s) pgdir (p / 1024)) as [t'|] eqn:Ht'; [|done]. cbv zeta.
      apply tab_in in Ht' as Hin; [|done]. rewrite Forall_forall in K3.
      rewrite (load32_ext m' (mem s)); [done|]. intros x Hx.
      destruct (decide (m' x = mem s x)) as [|Hx']; [done|].
      assert (Ht'p : page_ok kend t') by auto.
      assert (t' <> a) by set_solver. assert (t' <> pgdir) by set_solver.
      pose proof (pages_disjoint kend t' a Ht'p Ha ltac:(done)).
      pose proof (pages_disjoint kend t' pgdir Ht'p Hpd ltac:(done)). unfold PGSIZE in *.
      apply with_table_diff in Hx'; [|done]. Z.div_mod_to_equations. lia.
Qed.

(** [walkpgdir] on an existing table, or without [alloc]. *)
Lemma walkpgdir_find s pgdir vpn alloc :
  0 <= vpn < 2 ^ 20 ->
  match tab_at (mem s) pgdir (vpn / 1024) with
  | Some t => walkpgdir pgdir (4096 * vpn) alloc s = Ret (t + 4 * (vpn mod 1024)) s
  | None => walkpgdir pgdir (4096 * vpn) false s = Ret 0 s
  end.
Proof.
  intros Hv. unfold walkpgdir, getmem, tab_at, tab_of. msimp. rewrite PDX_page, PTX_page by done.
  by destruct (bset _ PTE_P).
Qed.

Lemma walkpgdir_true s pgdir rest l vpn :
  pt_ok s pgdir rest l -> kmem_lock_ok s -> 0 <= vpn < 2 ^ 20 ->
  exists r s' l', walkpgdir pgdir (4096 * vpn) true s = Ret r s' /\
    vm_frame s s' /\ pt_ok s' pgdir rest l' /\ same_pages rest (mem s) (mem s') /\
    (forall p, 0 <= p < 2 ^ 20 -> view (mem s') pgdir p = view (mem s) pgdir p) /\
    (exists u, l = u ++ l') /\
    ((r = 0 /\ l = [] /\ l' = []) \/
     exists t, tab_at (mem s') pgdir (vpn / 1024) = Some t /\ r = t + 4 * (vpn mod 1024) /\
       (length l <= S (length l'))%nat).
Proof using Type kend_high.
  intros Hok Hlk Hv. pose proof (walkpgdir_find s pgdir vpn true Hv) as Hw.
  destruct (tab_at (mem s) pgdir (vpn / 1024)) as [t|] eqn:Ht.
  { exists (t + 4 * (vpn mod 1024)), s, l. split_and!; try done; [by exists []|right].
    exists t. split_and!; [done|done|lia]. }
  clear Hw. unfold walkpgdir. unfold getmem. msimp. rewrite PDX_page, PTX_page by done.
  unfold tab_at, tab_of in Ht. destruct (bset _ PTE_P) eqn:Eb; [done|]. msimp.
  destruct (kalloc_ret s Hlk) as (lk & Hk & He). rstep Hk.
  pose proof (kmem_list _ _ _ (pt_kmem _ _ _ _ Hok)) as Hfl.
  assert (Hvf : vm_frame s (set_lks lk (kalloced s))).
  { exists (mem s), (freelist (kalloced s)), lk. split; [|done]. unfold kalloced.
    destruct (_ =? 0); by destruct s. }
  destruct l as [|a l]; simpl in Hfl.
  - rewrite Hfl. cbn [Z.eqb]. assert (Hs : kalloced s = s) by (unfold kalloced; by rewrite Hfl).
    rewrite Hs in *. exists 0, (set_lks lk s), []. split_and!; try done.
    + by apply pt_ok_lks.
    + by exists [].
    + by left.
  - destruct Hfl as [Hfl _].
    assert (Ha : page_ok kend a) by (pose proof (kmem_pages _ _ _ (pt_kmem _ _ _ _ Hok)) as Kp;
      by apply Forall_cons_1 in Kp as [? _]).
    assert (Hs : tab_at (mem s) pgdir (vpn / 1024) = None) by (unfold tab_at, tab_of; by rewrite Eb).
    destruct (pt_new_table s pgdir rest l vpn a Hok Hv Hs) as (H1 & H2 & H3 & H4).
    rewrite Hfl. destruct (Z.eqb_spec a 0) as [Hz|_]; [by apply page_ok_nonzero in Ha|].
    set (m' := with_table (mem s) pgdir (vpn / 1024) a) in *.
    exists (a + 4 * (vpn mod 1024)), (set_lks lk (set_mem m' (kalloced s))), l.
    split; [unfold setmem; msimp; unfold kalloced; by destruct (freelist s =? 0)|].
    split_and!; try done.
    + etransitivity; [exact Hvf|]. exists m', (freelist (kalloced s)), lk. split; [|done].
      unfold kalloced. destruct (_ =? 0); by destruct s.
    + by apply pt_ok_lks.
    + by exists [a].
    + right. exists a. split_and!; [done|done|simpl; lia].
Qed.

(** ** Mapping a range *)

(** The map [v] with [k] pages from [p0] on mapped to consecutive frames. *)
Definition extend (v : Z -> option Z) (p0 k pa fl p : Z) : option Z :=
  if (p0 <=? p) && (p <? p0 + k) then Some (entry (pa + 4096 * (p - p0)) fl) else v p.

Lemma extend_S v p0 k pa fl p :
  0 <= k ->
  extend (fun q => if q =? p0 then Some (entry pa fl) else v q) (p0 + 1) k (pa + 4096) fl p
  = extend v p0 (k + 1) pa fl p.
Proof.
  intros Hk. unfold extend. destruct (Z.eqb_spec p p0) as [->|Hne].
  - destruct (Z.leb_spec (p0 + 1) p0); [lia|]. simpl. bdestr. f_equal. f_equal. lia.
  - bdestr; try done. f_equal. f_equal. lia.
Qed.

(** One page: find or make its table, and write the entry. *)
Lemma map_one s pgdir rest l vpn pa perm :
  pt_ok s pgdir rest l -> kmem_lock_ok s -> 0 <= vpn < 2 ^ 20 ->
  is_u32 pa -> pa mod 4096 = 0 -> 0 <= perm < 4096 -> view (mem s) pgdir vpn = None ->
  exists r s1 l', walkpgdir pgdir (4096 * vpn) true s = Ret r s1 /\
    vm_frame s s1 /\ pt_ok s1 pgdir rest l' /\ same_pages rest (mem s) (mem s1) /\
    (exists u, l = u ++ l') /\
    ((r = 0 /\ l = [] /\ l' = [] /\
      forall p, 0 <= p < 2 ^ 20 -> view (mem s1) pgdir p = view (mem s) pgdir p) \/
     (r <> 0 /\ (length l <= S (length l'))%nat /\ bset (load32 (mem s1) r) PTE_P = false /\
      let m' := store32 (mem s1) r (Z.lor (Z.lor pa perm) PTE_P) in
      pt_ok (set_mem m' s1) pgdir rest l' /\ same_pages rest (mem s) m' /\
      forall p, 0 <= p < 2 ^ 20 -> view m' pgdir p =
        if p =? vpn then Some (entry pa (Z.lor perm PTE_P)) else view (mem s) pgdir p)).
Proof using Type kend_high.
  intros Hok Hlk Hv Hpa Hal Hpm Hno.
  destruct (walkpgdir_true s pgdir rest l vpn Hok Hlk Hv)
    as (r & s1 & l' & H1 & H2 & H3 & H4 & H5 & H6 & H7).
  exists r, s1, l'. split_and!; try done. destruct H7 as [(-> & -> & ->)|(t & Ht & -> & Hlen)]; [by left|right].
  assert (Hi : 0 <= vpn / 1024 < 1024) by (Z.div_mod_to_equations; lia).
  destruct (pt_page_tab _ _ _ _ _ _ H3 Hi Ht) as (Hp & _).
  pose proof (page_ok_top kend kend_high t Hp) as [Htop _]. unfold KERNBASE in Htop.
  destruct (lor_entry pa perm Hal Hpm) as [He Hfl].
  assert (Hu : is_u32 (entry pa (Z.lor perm PTE_P)))
    by (unfold entry, is_u32 in *; Z.div_mod_to_equations; lia).
  split; [Z.div_mod_to_equations; lia|]. split; [done|]. split.
  - rewrite <- H5, view_tab, Ht in Hno by done. cbv zeta in Hno. by destruct (bset _ PTE_P).
  - cbv zeta. rewrite He. destruct (pt_set_pte s1 pgdir rest l' vpn t _ H3 Hv Hu Ht) as (G1 & G2 & _ & G4).
    split_and!; [done|by etransitivity|]. intros p Hp'. rewrite G4 by done.
    destruct (p =? vpn); [|by apply H5]. by rewrite bset_P, odd_entry, odd_lor_P by done.
Qed.

Lemma mappages_loop_ok n pgdir rest perm s l p0 pa :
  pt_ok s pgdir rest l -> kmem_lock_ok s -> 0 <= p0 -> p0 + Z.of_nat (S n) <= 2 ^ 20 ->
  pa mod 4096 = 0 -> 0 <= pa -> pa + 4096 * Z.of_nat (S n) <= 2 ^ 32 -> 0 <= perm < 4096 ->
  (forall p, p0 <= p < p0 + Z.of_nat (S n) -> view (mem s) pgdir p = None) ->
  exists k s' l', (k <= S n)%nat /\
    mappages_loop (S n) pgdir (4096 * p0) (4096 * (p0 + Z.of_nat n)) pa perm s
      = Ret (if (k =? S n)%nat then 0 else -1) s' /\
    vm_frame s s' /\ pt_ok s' pgdir rest l' /\ same_pages rest (mem s) (mem s') /\
    (exists u, l = u ++ l') /\ ((k <= n)%nat -> l' = []) /\ (length l <= length l' + k)%nat /\
    forall p, 0 <= p < 2 ^ 20 -> view (mem s') pgdir p
      = extend (view (mem s) pgdir) p0 (Z.of_nat k) pa (Z.lor perm PTE_P) p.
Proof using Type kend_high.
  revert s l p0 pa. induction n as [|n IH]; intros s l p0 pa Hok Hlk Hp0 Hpn Hal Hpa0 Hpa Hpm Hno.
  all: destruct (map_one s pgdir rest l p0 pa perm Hok Hlk) as (r & s1 & l1 & H1 & H2 & H3 & H4 & H5 & H6);
    [lia|unfold is_u32; lia|done|done|apply Hno; lia|].
  all: cbn [mappages_loop]; rstep H1; destruct H6 as [(-> & -> & -> & Hvw)|(Hr & Hln & Hb & G1 & G2 & G3)].
  1, 3: exists 0%nat, s1, []; split_and!; try done; [lia|]; intros p Hp; rewrite Hvw by done;
    unfold extend; simpl; bdestr; try done; lia.
  all: destruct (Z.eqb_spec r 0) as [|_]; [done|]; unfold getmem, setmem; msimp; rewrite Hb; msimp.
  all: set (m1 := store32 (mem s1) r _) in *; set (s2 := set_mem m1 s1) in *.
  all: assert (Hvf : vm_frame s s2)
    by (etransitivity; [exact H2|]; exists m1, (freelist s1), (lks s1); split; [by destruct s1|reflexivity]).
  - destruct (Z.eqb_spec (4096 * p0) (4096 * (p0 + Z.of_nat 0))) as [_|]; [|lia].
    exists 1%nat, s2, l1. split_and!; try done; [lia|lia|]. intros p Hp. rewrite G3 by done.
    unfold extend. destruct (Z.eqb_spec p p0) as [->|]; bdestr; try done. f_equal. f_equal. lia.
  - destruct (Z.eqb_spec (4096 * p0) (4096 * (p0 + Z.of_nat (S n)))) as [|_]; [lia|].
    rewrite (u32_small (4096 * p0 + PGSIZE)) by (unfold is_u32, PGSIZE; lia).
    rewrite (u32_small (pa + PGSIZE)) by (unfold is_u32, PGSIZE; lia). unfold PGSIZE.
    replace (4096 * p0 + 4096) with (4096 * (p0 + 1)) by lia.
    destruct (IH s2 l1 (p0 + 1) (pa + 4096)) as (k & s' & l' & K1 & K2 & K3 & K4 & K5 & K6 & K7 & K9 & K8);
      [done|by eapply vm_frame_lock|lia|lia|Z.div_mod_to_equations; lia|lia|lia|done| |].
    { intros p Hp. simpl. rewrite G3 by lia. destruct (Z.eqb_spec p p0); [lia|]. apply Hno. lia. }
    replace (4096 * (p0 + Z.of_nat (S n))) with (4096 * (p0 + 1 + Z.of_nat n)) by lia.
    exists (S k), s', l'. split_and!.
    + lia.
    + exact K2.
    + by etransitivity.
    + done.
    + by etransitivity.
    + destruct H5 as [u ->], K6 as [u' ->]. exists (u ++ u'). by rewrite app_assoc.
    + intros Hk. apply K7. lia.
    + lia.
    + intros p Hp. rewrite K8 by done. replace (Z.of_nat (S k)) with (Z.of_nat k + 1) by lia.
      rewrite <- extend_S by lia. unfold extend at 1 2. simpl. rewrite G3 by done. done.
Qed.

Lemma PGROUNDDOWN_page va : is_u32 va -> PGROUNDDOWN va = 4096 * (va / 4096).
Proof. intros H. rewrite PGROUNDDOWN_eq by done. Z.div_mod_to_equations. lia. Qed.

(** The pages [va .. va+size) touches. *)
Definition pages_of (va size : Z) : Z := (va + size - 1) / 4096 - va / 4096 + 1.

Lemma mappages_ok pgdir rest va size pa perm s l :
  pt_ok s pgdir rest l -> kmem_lock_ok s -> 0 <= va -> 0 < size -> va + size <= 2 ^ 32 ->
  pa mod 4096 = 0 -> 0 <= pa -> pa + 4096 * pages_of va size <= 2 ^ 32 -> 0 <= perm < 4096 ->
  (forall p, va / 4096 <= p < va / 4096 + pages_of va size -> view (mem s) pgdir p = None) ->
  exists k s' l', 0 <= k <= pages_of va size /\
    mappages pgdir va size pa perm s = Ret (if k =? pages_of va size then 0 else -1) s' /\
    vm_frame s s' /\ pt_ok s' pgdir rest l' /\ same_pages rest (mem s) (mem s') /\
    (exists u, l = u ++ l') /\ (k < pages_of va size -> l' = []) /\
    Z.of_nat (length l) <= Z.of_nat (length l') + k /\
    forall p, 0 <= p < 2 ^ 20 -> view (mem s') pgdir p
      = extend (view (mem s) pgdir) (va / 4096) k pa (Z.lor perm PTE_P) p.
Proof using Type kend_high.
  intros Hok Hlk H1 H2 H3 H4 H5 H6 H7 H8. unfold mappages.
  rewrite (u32_small (va + size - 1)) by (unfold is_u32; lia).
  rewrite !PGROUNDDOWN_page by (unfold is_u32; lia).
  assert (Hn : exists n, pages_of va size = Z.of_nat (S n)).
  { exists (Z.to_nat (pages_of va size - 1)). unfold pages_of in *. Z.div_mod_to_equations. lia. }
  destruct Hn as [n Hn]. rewrite Hn in *. unfold pages_of in Hn.
  assert (Hlast : (va + size - 1) / 4096 = va / 4096 + Z.of_nat n) by lia.
  replace (Z.to_nat (u32 (4096 * ((va + size - 1) / 4096) - 4096 * (va / 4096)) / PGSIZE)) with n.
  2: { rewrite Hlast. rewrite u32_small by (unfold is_u32; Z.div_mod_to_equations; lia).
       unfold PGSIZE. replace (4096 * (va / 4096 + Z.of_nat n) - 4096 * (va / 4096))
         with (Z.of_nat n * 4096) by lia. rewrite Z.div_mul by lia. lia. }
  rewrite Hlast.
  destruct (mappages_loop_ok n pgdir rest perm s l (va / 4096) pa)
    as (k & s' & l' & K1 & K2 & K3 & K4 & K5 & K6 & K7 & K9 & K8);
    [done|done|apply Z.div_pos; lia|Z.div_mod_to_equations; lia|done|done|lia|done|exact H8|].
  exists (Z.of_nat k), s', l'. split_and!; [lia|lia| |done|done|done|done| |lia|exact K8].
  - rewrite K2. destruct (Nat.eqb_spec k (S n)), (Z.eqb_spec (Z.of_nat k) (Z.of_nat (S n))); done || lia.
  - intros Hk. apply K7. lia.
Qed.

(** C19: [mappages] maps every page of the range to its frame with the given
    permissions and returns 0, or, when the allocator runs out of pages for
    page tables, maps a prefix of the range and returns -1; every other page
    keeps its mapping, and pages of other owners keep their contents. *)
Theorem mappages_extends pgdir rest va size pa perm s l :
  pt_ok s pgdir rest l -> kmem_lock_ok s -> 0 <= va -> 0 < size -> va + size <= 2 ^ 32 ->
  pa mod 4096 = 0 -> 0 <= pa -> pa + 4096 * pages_of va size <= 2 ^ 32 -> 0 <= perm < 4096 ->
  (forall p, va / 4096 <= p < va / 4096 + pages_of va size -> view (mem s) pgdir p = None) ->
  exists k s' l', 0 <= k <= pages_of va size /\
    mappages pgdir va size pa perm s = Ret (if k =? pages_of va size then 0 else -1) s' /\
    pt_ok s' pgdir rest l' /\ same_pages rest (mem s) (mem s') /\
    (k < pages_of va size -> l' = []) /\
    forall x, is_u32 x -> hw_pte (mem s') pgdir x
      = extend (view (mem s) pgdir) (va / 4096) k pa (Z.lor perm PTE_P) (x / 4096).
Proof using Type kend_high.
  intros Hok Hlk H1 H2 H3 H4 H5 H6 H7 H8.
  destruct (mappages_ok pgdir rest va size pa perm s l Hok Hlk H1 H2 H3 H4 H5 H6 H7 H8)
    as (k & s' & l' & K1 & K2 & K3 & K4 & K5 & K6 & K7 & _ & K8).
  exists k, s', l'. split_and!; try done; try lia. intros x Hx. rewrite hw_pte_page by done.
  apply K8. unfold is_u32 in Hx. Z.div_mod_to_equations. lia.
Qed.

(** ** Growing a process *)

(** A page taken from the free list has an owner. *)
Lemma pt_take s pgdir rest a l lk :
  pt_ok s pgdir rest (a :: l) -> pt_ok (set_lks lk (kalloced s)) pgdir (a :: rest) l.
Proof using Type kend_high.
  intros [K1 K2 K3 K4 K5].
  assert (Hm : mem (kalloced s) = mem s) by (unfold kalloced; by destruct (_ =? 0)).
  pose proof (kmem_pages _ _ _ K1) as Kp. apply Forall_cons_1 in Kp as [Ha Kl].
  split; simpl; rewrite ?Hm; try done.
  - apply kmem_ok_lks. by eapply kmem_ok_kalloced.
  - by constructor.
  - assert (E : ptpages (mem s) pgdir ++ (a :: rest) ++ l ≡ₚ ptpages (mem s) pgdir ++ rest ++ a :: l).
    { apply Permutation_app_head. apply (Permutation_middle rest l a). }
    by rewrite E.
Qed.

(** Writing into a page of another owner leaves the page table alone. *)
Lemma pt_write_rest s pgdir rest l m' q :
  pt_ok s pgdir rest l -> q ∈ rest -> bytes m' ->
  (forall y, m' y <> mem s y -> q <= y < q + 4096) ->
  pt_ok (set_mem m' s) pgdir rest l /\
  (forall i, 0 <= i < 1024 -> tab_at m' pgdir i = tab_at (mem s) pgdir i) /\
  (forall p, 0 <= p < 2 ^ 20 -> view m' pgdir p = view (mem s) pgdir p).
Proof using Type kend_high.
  intros Hok Hq Hb Hd. pose proof Hok as [K1 K2 K3 K4 K5].
  assert (Hqp : page_ok kend q) by (rewrite Forall_forall in K4; auto).
  assert (Hch : forall l', q ∉ l' -> changes_off l' (mem s) m') by (intros l' Hl y Hy; exists q; auto).
  pose proof K5 as N. apply NoDup_app in N as (N1 & N2 & N3). apply NoDup_app in N3 as (N3 & N4 & N5).
  assert (Hqt : q ∉ ptpages (mem s) pgdir) by (intros H; specialize (N2 q H); set_solver).
  assert (Hsame : forall p x, p ∈ ptpages (mem s) pgdir -> p <= x -> x + 4 <= p + 4096 ->
            load32 m' x = load32 (mem s) x).
  { intros p x Hp H1 H2. apply load32_ext. intros y Hy.
    apply (changes_off_same (ptpages (mem s) pgdir) _ _ p); [by apply Hch|done|done|lia]. }
  assert (Htab : forall i, 0 <= i < 1024 -> tab_at m' pgdir i = tab_at (mem s) pgdir i).
  { intros i Hi. unfold tab_at. rewrite (Hsame pgdir); [done|constructor|lia|lia]. }
  assert (Htabs : tables m' pgdir = tables (mem s) pgdir) by by apply tables_ext.
  split; [|split; [done|]].
  - split; simpl; try done; unfold ptpages in *; rewrite ?Htabs; try done.
    apply kmem_ok_write; [|done]. apply Hch. auto.
  - intros p Hp. rewrite !view_tab by done.
    assert (Hpi : 0 <= p / 1024 < 1024) by (Z.div_mod_to_equations; lia). rewrite Htab by done.
    destruct (tab_at (mem s) pgdir (p / 1024)) as [t|] eqn:Ht; [|done]. cbv zeta.
    rewrite (Hsame t); [done| | |].
    + constructor. by eapply tab_in.
    + Z.div_mod_to_equations. lia.
    + Z.div_mod_to_equations. lia.
Qed.

Definition zero_page (m : memory) (p : Z) : Prop := forall y, p <= y < p + 4096 -> m y = 0.

Lemma memset_zero m a : zero_page (memset m a 0 PGSIZE) a /\
  (forall y, memset m a 0 PGSIZE y <> m y -> a <= y < a + 4096) /\
  (bytes m -> bytes (memset m a 0 PGSIZE)).
Proof.
  assert (E : forall y, memset m a 0 PGSIZE y = fill m a 4096 0 y)
    by (intros y; by rewrite memset_fill by (unfold PGSIZE; lia)).
  split_and!.
  - intros y Hy. rewrite E. unfold fill. bdestr; lia.
  - intros y. rewrite E. unfold fill. destruct (Z.leb_spec a y), (Z.ltb_spec y (a + 4096)); simpl; lia || done.
  - intros Hb y. rewrite E. unfold fill. destruct (_ && _); [lia | apply Hb].
Qed.

(** One round of [allocuvm] with at least two free pages. *)
Lemma alloc_one s pgdir rest a l vpn :
  pt_ok s pgdir rest (a :: l) -> kmem_lock_ok s -> (1 <= length l)%nat -> 0 <= vpn < 2 ^ 19 ->
  view (mem s) pgdir vpn = None ->
  exists lk s' l', kalloc s = Ret a (set_lks lk (kalloced s)) /\
    (setmem (fun m => memset m a 0 PGSIZE) ;;;
     mappages pgdir (4096 * vpn) PGSIZE (v2p a) (Z.lor PTE_W PTE_U)) (set_lks lk (kalloced s))
      = Ret 0 s' /\
    vm_frame s s' /\ pt_ok s' pgdir (a :: rest) l' /\ same_pages rest (mem s) (mem s') /\
    zero_page (mem s') a /\ (length l <= length l' + 1)%nat /\
    forall p, 0 <= p < 2 ^ 20 -> view (mem s') pgdir p =
      if p =? vpn then Some (entry (v2p a) 7) else view (mem s) pgdir p.
Proof using Type kend_high.
  intros Hok Hlk Hlen Hv Hno. destruct (kalloc_ret s Hlk) as (lk & Hk & He).
  pose proof (kmem_list _ _ _ (pt_kmem _ _ _ _ Hok)) as [Hfl _]. rewrite Hfl in Hk.
  pose proof (pt_take s pgdir rest a l lk Hok) as H1. set (s1 := set_lks lk (kalloced s)) in *.
  assert (Hm : mem s1 = mem s) by (unfold s1, kalloced; by destruct (_ =? 0)).
  assert (Hf1 : vm_frame s s1).
  { exists (mem s), (freelist (kalloced s)), lk. split; [|done]. unfold s1, kalloced.
    destruct (_ =? 0); by destruct s. }
  destruct (memset_zero (mem s1) a) as (Z1 & Z2 & Z3). set (m2 := memset (mem s1) a 0 PGSIZE) in *.
  pose proof (pt_bytes _ _ _ _ H1) as Hb.
  destruct (pt_write_rest s1 pgdir (a :: rest) l m2 a H1 ltac:(constructor) (Z3 Hb) Z2) as (H2 & _ & H3).
  assert (Hf2 : vm_frame s (set_mem m2 s1)).
  { etransitivity; [exact Hf1|]. exists m2, (freelist s1), (lks s1). split; [by destruct s1|reflexivity]. }
  pose proof (pt_rest _ _ _ _ H2) as Hrp. apply Forall_cons_1 in Hrp as [Ha Hrest].
  destruct (page_p2v a Ha) as (P1 & P2 & P3).
  destruct (mappages_ok pgdir (a :: rest) (4096 * vpn) PGSIZE (v2p a) (Z.lor PTE_W PTE_U) (set_mem m2 s1) l)
    as (k & s' & l' & M1 & M2 & M3 & M4 & M5 & M6 & M7 & M8 & M9).
  all: assert (Hpo : pages_of (4096 * vpn) PGSIZE = 1) by (unfold pages_of, PGSIZE; Z.div_mod_to_equations; lia).
  all: assert (Hdv : 4096 * vpn / 4096 = vpn) by (rewrite Z.mul_comm; by apply Z.div_mul).
  1: done. 1: by eapply vm_frame_lock. 1: lia. 1: done. 1: unfold PGSIZE; lia. 1: done.
  1: apply P2. 1: rewrite Hpo; unfold is_u32 in P2; Z.div_mod_to_equations; lia. 1: by vm_compute.
  1: intros p Hp; rewrite Hpo, Hdv in Hp; simpl; replace p with vpn by lia;
     rewrite H3, Hm by lia; exact Hno.
  rewrite Hpo in *. assert (k = 1) as ->.
  { destruct (decide (k = 1)); [done|]. specialize (M7 ltac:(lia)). subst l'. simpl in M8. lia. }
  exists lk, s', l'. split; [exact Hk|]. unfold setmem. msimp. split; [exact M2|].
  split_and!; [by etransitivity|done| | |lia|].
  - intros p y Hp Hy. rewrite (M5 p y) by (lia || set_solver). simpl.
    destruct (decide (m2 y = mem s1 y)) as [E|E]; [by rewrite E, Hm|].
    apply Z2 in E. rewrite Forall_forall in Hrest.
    pose proof (pages_disjoint kend p a (Hrest _ Hp) Ha) as D. unfold PGSIZE in D.
    assert (Hne : p <> a); [|lia]. intros ->. destruct H1 as [_ _ _ _ N]. rewrite app_assoc in N.
    apply NoDup_app in N as (N & _ & _). apply NoDup_app in N as (_ & _ & N).
    apply NoDup_cons in N as [N _]. done.
  - intros y Hy. rewrite (M5 a y) by (lia || constructor). simpl. by apply Z1.
  - intros p Hp. rewrite M9 by done. unfold extend. rewrite Hdv. simpl mem. rewrite H3, Hm by done.
    destruct (Z.eqb_spec p vpn) as [->|Hne]; bdestr; try done. f_equal. unfold entry. f_equal. lia.
Qed.

(** The frames [fs] are mapped from page [p0] on, user-writable and zeroed. *)
Record grown (m m' : memory) (pgdir p0 : Z) (fs : list Z) : Prop := mk_grown {
  gr_new : forall i f, fs !! i = Some f -> view m' pgdir (p0 + Z.of_nat i) = Some (entry (v2p f) 7);
  gr_zero : Forall (zero_page m') fs;
  gr_old : forall p, 0 <= p < 2 ^ 20 -> p < p0 \/ p0 + Z.of_nat (length fs) <= p ->
    view m' pgdir p = view m pgdir p
}.

Lemma allocuvm_loop_ok n fuel pgdir oldsz newsz s rest l p0 :
  (n < fuel)%nat -> pt_ok s pgdir rest l -> kmem_lock_ok s -> 0 <= p0 ->
  p0 + Z.of_nat n <= 2 ^ 19 -> (2 * n <= length l)%nat ->
  4096 * (p0 + Z.of_nat n - 1) < newsz <= 4096 * (p0 + Z.of_nat n) ->
  (forall p, p0 <= p < p0 + Z.of_nat n -> view (mem s) pgdir p = None) ->
  exists s' fs l', allocuvm_loop kend fuel pgdir (4096 * p0) oldsz newsz s = Ret newsz s' /\
    vm_frame s s' /\ length fs = n /\ pt_ok s' pgdir (rev fs ++ rest) l' /\
    same_pages rest (mem s) (mem s') /\ grown (mem s) (mem s') pgdir p0 fs.
Proof using Type kend_high.
  revert fuel s rest l p0. induction n as [|n IH];
    intros [|fuel] s rest l p0 Hfu Hok Hlk Hp0 Hpn Hlen Hsz Hno; try lia; cbn [allocuvm_loop].
  - destruct (Z.ltb_spec (4096 * p0) newsz); [lia|].
    exists s, [], l. split_and!; try done.
  - destruct (Z.ltb_spec (4096 * p0) newsz); [|lia].
    destruct l as [|a l]; [simpl in Hlen; lia|]. simpl in Hlen.
    destruct (alloc_one s pgdir rest a l p0 Hok Hlk) as (lk & s1 & l1 & A1 & A2 & A3 & A4 & A5 & A6 & A7 & A8);
      [lia|lia|apply Hno; lia|].
    rstep A1. destruct (Z.eqb_spec a 0) as [Hz|_].
    { exfalso. pose proof (pt_rest _ _ _ _ A4) as R. apply Forall_cons_1 in R as [R _].
      by apply (page_ok_nonzero kend kend_high a). }
    unfold setmem in *. rewrite bind_modify in A2. msimp. rstep A2.
    rewrite (u32_small (4096 * p0 + PGSIZE)) by (unfold is_u32, PGSIZE; lia).
    replace (4096 * p0 + PGSIZE) with (4096 * (p0 + 1)) by (unfold PGSIZE; lia).
    destruct (IH fuel s1 (a :: rest) l1 (p0 + 1)) as (s' & fs & l' & B1 & B2 & B3 & B4 & B5 & [B6 B7 B8]);
      [lia|done|by eapply vm_frame_lock|lia|lia|lia|lia| |].
    { intros p Hp. rewrite A8 by lia. destruct (Z.eqb_spec p p0); [lia|]. apply Hno. lia. }
    exists s', (a :: fs), l'. split; [exact B1|]. split_and!.
    + by etransitivity.
    + simpl. lia.
    + simpl. by rewrite <- app_assoc.
    + etransitivity; [exact A5|]. intros p y Hp Hy. apply (B5 p y); [by constructor|done].
    + split.
      * intros [|i] f Hf; simpl in Hf.
        -- simplify_eq. rewrite Z.add_0_r, B8, A8, Z.eqb_refl by lia. done.
        -- replace (p0 + Z.of_nat (S i)) with (p0 + 1 + Z.of_nat i) by lia. by apply B6.
      * constructor; [|done]. intros y Hy. rewrite (B5 a y) by (lia || constructor). by apply A6.
      * simpl. intros p Hp Hr. rewrite B8, A8 by lia. destruct (Z.eqb_spec p p0); [lia|done].
Qed.

(** C20: with two free pages per new page (one may be needed for its page table),
    [allocuvm] returns the new size, gives every page between the old and the
    new size a fresh zeroed frame of its own, mapped writable for the user, and
    leaves all other mappings and the pages of other owners alone. *)
Theorem allocuvm_grows pgdir oldsz newsz s rest l :
  pt_ok s pgdir rest l -> kmem_lock_ok s -> 0 <= oldsz -> oldsz <= newsz < KERNBASE ->
  2 * ((newsz + 4095) / 4096 - (oldsz + 4095) / 4096) <= Z.of_nat (length l) ->
  (forall p, (oldsz + 4095) / 4096 <= p < (newsz + 4095) / 4096 -> view (mem s) pgdir p = None) ->
  exists s' fs l', allocuvm kend pgdir oldsz newsz s = Ret newsz s' /\
    Z.of_nat (length fs) = (newsz + 4095) / 4096 - (oldsz + 4095) / 4096 /\
    pt_ok s' pgdir (rev fs ++ rest) l' /\ same_pages rest (mem s) (mem s') /\
    grown (mem s) (mem s') pgdir ((oldsz + 4095) / 4096) fs.
Proof using Type kend_high.
  intros Hok Hlk H0 [H1 H2] Hlen Hno. unfold allocuvm, KERNBASE in *.
  destruct (Z.leb_spec 0x80000000 newsz); [lia|]. destruct (Z.ltb_spec newsz oldsz); [lia|]. cbv zeta.
  set (p0 := (oldsz + 4095) / 4096) in *. set (p1 := (newsz + 4095) / 4096) in *.
  assert (Hp : 0 <= p0 <= p1 /\ p1 <= 2 ^ 19) by (unfold p0, p1; Z.div_mod_to_equations; lia).
  assert (Ha : PGROUNDUP oldsz = 4096 * p0) by (rewrite PGROUNDUP_eq by lia; unfold p0; lia).
  rewrite Ha. set (fuel := npages (4096 * p0) newsz).
  assert (Hfu : (Z.to_nat (p1 - p0) < fuel)%nat).
  { unfold fuel, npages, PGSIZE. apply Nat.lt_succ_r, Z2Nat.inj_le;
      unfold p0, p1 in *; Z.div_mod_to_equations; lia. }
  destruct (decide (p0 = p1)) as [E|E].
  - destruct fuel as [|f]; [lia|]. cbn [allocuvm_loop].
    destruct (Z.ltb_spec (4096 * p0) newsz) as [Hlt|_].
    { exfalso. unfold p1 in *. Z.div_mod_to_equations. lia. }
    exists s, [], l. split; [done|]. split; [simpl; lia|]. split_and!; try done.
  - destruct (allocuvm_loop_ok (Z.to_nat (p1 - p0)) fuel pgdir oldsz newsz s rest l p0)
      as (s' & fs & l' & B1 & B2 & B3 & B4 & B5 & B6); try done; try lia.
    + unfold p1 in *. Z.div_mod_to_equations. lia.
    + intros p Hp'. apply Hno. lia.
    + exists s', fs, l'. split_and!; try done. lia.
Qed.

(** No page left for a page table. *)
Lemma walkpgdir_oom s pgdir vpn :
  0 <= vpn < 2 ^ 20 -> tab_at (mem s) pgdir (vpn / 1024) = None -> freelist s = 0 ->
  kmem_lock_ok s ->
  exists lk, walkpgdir pgdir (4096 * vpn) true s = Ret 0 (set_lks lk s).
Proof.
  intros Hv Ht Hf Hlk. unfold walkpgdir, getmem. msimp. rewrite PDX_page by done.
  unfold tab_at, tab_of in Ht. destruct (bset _ PTE_P); [done|]. msimp.
  destruct (kalloc_ret s Hlk) as (lk & Hk & _). rstep Hk. rewrite Hf. cbn [Z.eqb].
  exists lk. unfold kalloced. by rewrite Hf.
Qed.

(** When the last free page is taken for the frame and none is left for the
    page table, [allocuvm] ignores the failure of [mappages]: it returns the
    new size although the new page is not mapped. *)
Theorem allocuvm_unmapped_page pgdir p s rest a :
  pt_ok s pgdir rest [a] -> kmem_lock_ok s -> 0 <= p < 2 ^ 19 - 1 ->
  tab_at (mem s) pgdir (p / 1024) = None ->
  exists s', allocuvm kend pgdir (4096 * p) (4096 * p + 4096) s = Ret (4096 * p + 4096) s' /\
    hw_pte (mem s') pgdir (4096 * p) = None.
Proof using Type kend_high.
  intros Hok Hlk Hp Ht. unfold allocuvm, KERNBASE.
  destruct (Z.leb_spec 0x80000000 (4096 * p + 4096)) as [|_]; [lia|].
  destruct (Z.ltb_spec (4096 * p + 4096) (4096 * p)) as [|_]; [lia|]. cbv zeta.
  assert (Ha : PGROUNDUP (4096 * p) = 4096 * p) by (rewrite PGROUNDUP_eq; Z.div_mod_to_equations; lia).
  assert (Hn : npages (4096 * p) (4096 * p + 4096) = 2%nat).
  { unfold npages, PGSIZE. by replace (4096 * p + 4096 - 4096 * p + 4096 - 1) with 8191 by lia. }
  rewrite Ha, Hn. cbn [allocuvm_loop]. destruct (Z.ltb_spec (4096 * p) (4096 * p + 4096)) as [_|]; [|lia].
  destruct (kalloc_ret s Hlk) as (lk & Hk & He). rstep Hk.
  pose proof (kmem_list _ _ _ (pt_kmem _ _ _ _ Hok)) as Hfl. destruct Hfl as [Hfa Hfe]. simpl in Hfe.
  pose proof (pt_take s pgdir rest a [] lk Hok) as H1. set (s1 := set_lks lk (kalloced s)) in *.
  pose proof (pt_rest _ _ _ _ H1) as R. apply Forall_cons_1 in R as [R _].
  rewrite Hfa. destruct (Z.eqb_spec a 0) as [Hz|_]; [by apply (page_ok_nonzero kend kend_high a) in R|].
  unfold setmem. msimp. destruct (memset_zero (mem s1) a) as (Z1 & Z2 & Z3).
  destruct (pt_write_rest s1 pgdir (a :: rest) [] _ a H1 ltac:(constructor) (Z3 (pt_bytes _ _ _ _ H1)) Z2)
    as (H2 & H4 & H3).
  set (s2 := set_mem (memset (mem s1) a 0 PGSIZE) s1) in *.
  assert (Hm : mem s1 = mem s) by (unfold s1, kalloced; by destruct (_ =? 0)).
  assert (Hlk2 : kmem_lock_ok s2).
  { destruct Hlk as [L1 L2]. unfold kmem_lock_ok. simpl. by rewrite <- He. }
  assert (Hpr : 0 <= p / 1024 < 1024) by (Z.div_mod_to_equations; lia).
  destruct (walkpgdir_oom s2 pgdir p) as (lk2 & Hw); [lia| | |done|].
  { simpl. by rewrite H4, Hm. }
  { simpl. unfold kalloced. rewrite Hfa. destruct (Z.eqb_spec a 0); [lia|]. simpl. by rewrite <- Hfe. }
  assert (Hmp : mappages pgdir (4096 * p) PGSIZE (v2p a) (Z.lor PTE_W PTE_U) s2 = Ret (-1) (set_lks lk2 s2)).
  { unfold mappages, PGSIZE. rewrite (u32_small (4096 * p + 4096 - 1)) by (unfold is_u32; lia).
    rewrite !PGROUNDDOWN_page by (unfold is_u32; lia).
    replace (4096 * p / 4096) with p by (Z.div_mod_to_equations; lia).
    cbn [mappages_loop]. rstep Hw. done. }
  rstep Hmp. rewrite (u32_small (4096 * p + PGSIZE)) by (unfold is_u32, PGSIZE; lia).
  destruct (Z.ltb_spec (4096 * p + PGSIZE) (4096 * p + 4096)) as [Hlt|_]; [unfold PGSIZE in Hlt; lia|].
  eexists. split; [reflexivity|]. change (view (mem s2) pgdir p = None). simpl. rewrite H3, Hm by lia.
  rewrite view_tab by lia. by rewrite Ht.
Qed.

End Spec.

(** ** Witnesses *)

(** An empty page directory at 0x80400000 and [n] free pages from 0x80200000. *)
Definition demo_vm (n : nat) : kst :=
  let pgs := pages 0x80200000 n in
  set_freelist (hd 0 pgs)
    (set_mem (foldr (fun p m => store32 m p (if p =? 0x80200000 + 4096 * (Z.of_nat n - 1) then 0 else p + 4096))
                (fun _ => 0) pgs) kst0).

Definition pt_okb (s : kst) (pgdir : Z) (rest l : list Z) : bool :=
  forallb (page_okb demo_end) (ptpages (mem s) pgdir) && forallb (page_okb demo_end) rest &&
  bool_decide (NoDup (ptpages (mem s) pgdir ++ rest ++ l)).

Lemma forallb_page l : forallb (page_okb demo_end) l = true -> Forall (page_ok demo_end) l.
Proof.
  intros H. apply Forall_forall. intros x Hx. apply page_okb_ok.
  rewrite forallb_forall in H. apply H. by apply list_elem_of_In.
Qed.

Lemma pt_okb_ok s pgdir rest l :
  kmem_ok demo_end s l -> bytes (mem s) -> pt_okb s pgdir rest l = true ->
  pt_ok demo_end s pgdir rest l.
Proof.
  intros H1 H2 H. unfold pt_okb in H. rewrite !andb_true_iff, bool_decide_eq_true in H.
  destruct H as [[H3 H4] H5]. split; auto using forallb_page.
Qed.

Lemma bytes_foldr (f : Z -> Z) l : bytes (foldr (fun p m => store32 m p (f p)) (fun _ => 0) l).
Proof. induction l; simpl; [intros x; lia | by apply bytes_store32]. Qed.

Lemma demo_vm_ok n : (n = 1 \/ n = 4)%nat ->
  pt_ok demo_end (demo_vm n) 0x80400000 [] (pages 0x80200000 n) /\ kmem_lock_ok (demo_vm n).
Proof.
  intros Hn. split; [|split; [done|split; simpl; lia]]. apply pt_okb_ok.
  - split.
    + destruct Hn as [-> | ->]; by vm_compute.
    + eapply bool_decide_eq_true_1. destruct Hn as [-> | ->]; vm_compute; reflexivity.
    + apply forallb_page. destruct Hn as [-> | ->]; vm_compute; reflexivity.
  - apply bytes_foldr.
  - destruct Hn as [-> | ->]; vm_compute; reflexivity.
Qed.

Lemma demo_vm_empty p : 0 <= p < 4 -> view (mem (demo_vm 4)) 0x80400000 p = None.
Proof. intros H. assert (p = 0 \/ p = 1 \/ p = 2 \/ p = 3) as [->|[->|[->| ->]]] by lia; vm_compute; reflexivity. Qed.

(** Whether a routine returns the value [v]. *)
Definition returns (v : Z) (r : res kst Z) : bool := match r with Ret a _ => a =? v | _ => false end.

Lemma mappages_extends_witness :
  exists s', mappages 0x80400000 0x1000 0x1800 0x7000 6 (demo_vm 4) = Ret 0 s' /\
    hw_pte (mem s') 0x80400000 0x2000 = Some 0x8007.
Proof.
  destruct (demo_vm_ok 4 (or_intror eq_refl)) as [H1 H2].
  destruct (mappages_extends demo_end ltac:(done) 0x80400000 [] 0x1000 0x1800 0x7000 6 (demo_vm 4) _ H1 H2)
    as (k & s' & l' & K1 & K2 & K3 & K4 & K5 & K6); [lia|lia|lia|done|lia|by vm_compute|lia| |].
  - intros p Hp. change (0x1000 / 4096) with 1 in Hp. change (pages_of 0x1000 0x1800) with 2 in Hp.
    apply demo_vm_empty. lia.
  - assert (E : returns 0 (mappages 0x80400000 0x1000 0x1800 0x7000 6 (demo_vm 4)) = true)
      by (vm_compute; reflexivity).
    rewrite K2 in E. change (pages_of 0x1000 0x1800) with 2 in *.
    destruct (Z.eqb_spec k 2) as [->|]; [|done]. exists s'. split; [exact K2|].
    rewrite K6 by (unfold is_u32; lia). reflexivity.
Defined.

Lemma allocuvm_grows_witness :
  exists s' fs, allocuvm demo_end 0x80400000 0 0x1800 (demo_vm 4) = Ret 0x1800 s' /\ length fs = 2%nat /\
    grown (mem (demo_vm 4)) (mem s') 0x80400000 0 fs.
Proof.
  destruct (demo_vm_ok 4 (or_intror eq_refl)) as [H1 H2].
  destruct (allocuvm_grows demo_end ltac:(done) 0x80400000 0 0x1800 (demo_vm 4) [] _ H1 H2)
    as (s' & fs & l' & K1 & K2 & K3 & K4 & K5); [lia|by vm_compute|by vm_compute| |].
  - intros p Hp. change ((0 + 4095) / 4096) with 0 in Hp. change ((0x1800 + 4095) / 4096) with 2 in Hp.
    apply demo_vm_empty. lia.
  - exists s', fs. split; [exact K1|]. change ((0 + 4095) / 4096) with 0 in *.
    change ((0x1800 + 4095) / 4096) with 2 in *. split; [lia|exact K5].
Defined.

