(* ===== verification/Semaphore.v ===== *)
(** * Semaphores

    [semaphore.c]: the table of semaphores, [semget], [semfree], [semdown] and
    [semup].  A semaphore pointer is an index into [stable.sem]; [stable.sem +
    sem_id] is not checked by the code, so an identifier outside the table is
    an invalid pointer.  The loop of [semdown] takes a fuel: the number of
    times the process may be woken up and find the value still zero.

    The last part runs the operations of all processes under the scheduler and
    proves what a semaphore promises: the value counts the ups minus the downs,
    and no process sleeps on a semaphore whose value is positive. *)

From stdpp Require Import base list numbers strings tactics gmap.
From Stdlib Require Import Lia.
From S2P Require Import Prelude Params StringC KState Spinlock Mmu Sched.

Local Open Scope Z_scope.
Local Open Scope xv6_scope.

Definition getsem (id : Z) : M kst sem := o <- gets (fun s => aget (sems s) id) ;; deref o.

Definition upd_sem (id : Z) (f : sem -> sem) (s : kst) : kst :=
  set_sems (alter f (Z.to_nat id) (sems s)) s.

Definition modsem (id : Z) (f : sem -> sem) : M kst unit :=
  _ <- getsem id ;; modify (upd_sem id f).

(** The first free slot of [proc->procsem], [None] for the null pointer. *)
Definition checkprocsem : M kst (option nat) :=
  p <- myproc ;;
  pr <- getp p ;;
  ret (scan (fun r => bool_decide (r = None)) (p_procsem pr)).

(** [*r == 0].  The null pointer is an address like any other to the processor:
    it reads the first word of the memory of the process. *)
Definition slot_free (r : option nat) : M kst bool :=
  match r with
  | Some k =>
      p <- myproc ;;
      pr <- getp p ;;
      o <- deref (p_procsem pr !! k) ;;
      ret (bool_decide (o = None))
  | None => w <- load32_va 0 ;; ret (w =? 0)
  end.

(** [*r = s] *)
Definition set_slot (r : option nat) (o : option nat) : M kst unit :=
  match r with
  | Some k => p <- myproc ;; modp p (fun pr => set_p_procsem (<[k := o]> (p_procsem pr)) pr)
  | None => stuck "store through the null pointer"
  end.

Definition semget (sem_id init_value : Z) : M kst Z :=
  first_time <- gets sem_first_time ;;
  when first_time (onlks (initlock L_stable "stable") ;;; modify (set_sem_first_time false)) ;;;
  acquire L_stable ;;;
  if sem_id =? -1 then
    ss <- gets sems ;;
    match scan (fun t => refcount t =? 0) ss with
    | Some t =>
        r <- checkprocsem ;;
        free <- slot_free r ;;
        if free then
          let s := Z.of_nat t in
          modsem s (set_value init_value) ;;;
          modsem s (set_refcount 1) ;;;
          p <- myproc ;;
          modp p (fun pr => set_p_semquantity (p_semquantity pr + 1) pr) ;;;
          set_slot r (Some t) ;;;
          release L_stable ;;;
          ret s
        else release L_stable ;;; ret (-2)
    | None => release L_stable ;;; ret (-3)
    end
  else
    t <- getsem sem_id ;;
    if refcount t =? 0 then release L_stable ;;; ret (-1)
    else
      r <- checkprocsem ;;
      free <- slot_free r ;;
      if free then
        set_slot r (Some (Z.to_nat sem_id)) ;;;
        modsem sem_id (fun t => set_refcount (refcount t + 1) t) ;;;
        release L_stable ;;;
        ret sem_id
      else release L_stable ;;; ret (-2).

Definition semfree (sem_id : Z) : M kst Z :=
  t <- getsem sem_id ;;
  if refcount t =? 0 then ret (-1) else
  p <- myproc ;;
  pr <- getp p ;;
  match scan (fun r => bool_decide (r = Some (Z.to_nat sem_id))) (p_procsem pr) with
  | Some k =>
      set_slot (Some k) None ;;;
      acquire L_stable ;;;
      modsem sem_id (fun t => set_refcount (refcount t - 1) t) ;;;
      modp p (fun pr => set_p_semquantity (p_semquantity pr - 1) pr) ;;;
      release L_stable ;;;
      ret 0
  | None => ret (-1)
  end.

(** [while (s->value == 0) sleep(s, &stable.lock);] *)
Fixpoint semdown_wait (fuel : nat) (sem_id : Z) : M kst unit :=
  t <- getsem sem_id ;;
  if value t =? 0 then
    match fuel with
    | O => outoffuel
    | S fuel =>
        sleep (CSem (Z.to_nat sem_id)) (Some L_stable) ;;;
        semdown_wait fuel sem_id
    end
  else ret tt.

Definition semdown (fuel : nat) (sem_id : Z) : M kst Z :=
  acquire L_stable ;;;
  t <- getsem sem_id ;;
  if refcount t <=? 0 then release L_stable ;;; ret (-1) else
  semdown_wait fuel sem_id ;;;
  modsem sem_id (fun t => set_value (s32 (value t - 1)) t) ;;;
  release L_stable ;;;
  ret 0.

Definition semup (sem_id : Z) : M kst Z :=
  acquire L_stable ;;;
  t <- getsem sem_id ;;
  if refcount t <=? 0 then release L_stable ;;; ret (-1) else
  (if 0 <=? value t then
     (if value t =? 0 then
        modsem sem_id (fun t => set_value (s32 (value t + 1)) t) ;;;
        wakeup (CSem (Z.to_nat sem_id))
      else modsem sem_id (fun t => set_value (s32 (value t + 1)) t)) ;;;
     release L_stable
   else ret tt) ;;;
  ret 0.

(** ** The operations one by one *)

Lemma getsem_ret s id t : aget (sems s) id = Some t -> getsem id s = Ret t s.
Proof. intros H. unfold getsem. msimp. by rewrite H. Qed.

Lemma modsem_ret s id t f : aget (sems s) id = Some t -> modsem id f s = Ret tt (upd_sem id f s).
Proof. intros H. unfold modsem. by rstep (getsem_ret _ _ _ H). Qed.

Lemma aget_upd_sem s id f t :
  aget (sems s) id = Some t -> aget (sems (upd_sem id f s)) id = Some (f t).
Proof.
  intros [H0 H]%aget_Some. apply aget_Some. split; [done|]. unfold upd_sem. simpl.
  by rewrite list_lookup_alter_eq, H.
Qed.

(** The process runs in user mode, or the scheduler between two processes: no
    lock is held. *)
Record idle (l : lockst) : Prop := mk_idle {
  idle_ptable : lk_free L_ptable l;
  idle_stable : lk_free L_stable l;
  idle_ncli : ncli (lk_cpu l) = 0
}.

#[export] Instance idle_proper : Proper (lks_eq ==> iff) idle.
Proof.
  intros a b H. split; intros [H1 H2 H3]; split.
  all: first [by rewrite <- H | by rewrite H | by rewrite <- (lke_ncli _ _ H)
             | by rewrite (lke_ncli _ _ H)].
Qed.

Lemma idle_cli l : idle l -> cli_ok l.
Proof. intros [_ _ H]. unfold cli_ok. rewrite H. lia. Qed.

Definition sem_inc (t : sem) : sem := set_value (s32 (value t + 1)) t.
Definition sem_dec (t : sem) : sem := set_value (s32 (value t - 1)) t.

(** [semup] of a semaphore in use. *)
Lemma semup_ret s q id t :
  aget (sems s) id = Some t -> 0 < refcount t -> 0 <= value t ->
  mlfq s q -> prio_ok s -> length (procs s) = Z.to_nat NPROC -> idle (lks s) ->
  exists ps m l', semup id s =
      Ret 0 (set_lks l' (set_procs ps (set_mlf m (upd_sem id sem_inc s)))) /\
    (exists q', mlfq (set_procs ps (set_mlf m s)) q') /\
    same_procs ps (if value t =? 0 then woken (CSem (Z.to_nat id)) <$> procs s else procs s) /\
    lks_eq (lks s) l'.
Proof.
  intros Ht Hr Hv Hq Hp Hl Hi. pose proof (idle_cli _ Hi) as Hc. destruct Hi as [I1 I2 I3].
  unfold semup. rstep (acquire_ret _ _ I2). set (s1 := set_lks _ s).
  rstep (getsem_ret s1 id t Ht). destruct (Z.leb_spec (refcount t) 0); [lia|].
  destruct (Z.leb_spec 0 (value t)); [|lia].
  destruct (Z.eqb_spec (value t) 0) as [E|E].
  - set (s2 := upd_sem id sem_inc s1).
    destruct (wakeup_ret (CSem (Z.to_nat id)) s2 q) as (ps & m & l1 & H1 & H2 & H3 & H4);
      [by apply (mlfq_ext _ s)|done|done|by apply lk_acq_free|by apply lk_acq_cli_ok|].
    set (s3 := set_lks l1 (set_procs ps (set_mlf m s2))) in *.
    destruct (release_ret L_stable (lks s) s3) as [R1 R2]; [exact H4|done|done|].
    rewrite (bind_ret _ _ s1 tt (set_lks (lk_rel L_stable (lks s3)) s3)).
    2: { rewrite (bind_ret _ _ s1 tt s3); [exact R1|]. rstep (modsem_ret s1 id t sem_inc Ht). exact H1. }
    exists ps, m, (lk_rel L_stable (lks s3)). split_and!; [reflexivity| |exact H3|exact R2].
    eexists. by apply (mlfq_ext _ (set_procs ps (set_mlf m s2))).
  - set (s2 := upd_sem id sem_inc s1).
    destruct (release_ret L_stable (lks s) s2) as [R1 R2]; [reflexivity|done|done|].
    rewrite (bind_ret _ _ s1 tt (set_lks (lk_rel L_stable (lks s2)) s2)).
    2: { rewrite (bind_ret _ _ s1 tt s2); [exact R1|]. exact (modsem_ret s1 id t sem_inc Ht). }
    exists (procs s), (mlf s), (lk_rel L_stable (lks s2)). split_and!; [reflexivity| |done|exact R2].
    exists q. by apply (mlfq_ext _ s).
Qed.

(** What [semdown] does once it has found the semaphore in use. *)
Definition semdown_tail (fuel : nat) (id : Z) : M kst Z :=
  semdown_wait fuel id ;;;
  modsem id (fun t => set_value (s32 (value t - 1)) t) ;;;
  release L_stable ;;;
  ret 0.

Lemma semdown_enter fuel s id t :
  aget (sems s) id = Some t -> 0 < refcount t -> idle (lks s) ->
  semdown fuel id s = semdown_tail fuel id (set_lks (lk_acq L_stable (lks s)) s).
Proof.
  intros Ht Hr [I1 I2 I3]. unfold semdown. rstep (acquire_ret _ _ I2). set (s1 := set_lks _ s).
  rstep (getsem_ret s1 id t Ht). destruct (Z.leb_spec (refcount t) 0); [lia|done].
Qed.

Lemma semdown_wait_eq fuel id :
  semdown_wait fuel id =
  (t <- getsem id ;;
   if value t =? 0 then
     match fuel with
     | O => outoffuel
     | S fuel => sleep (CSem (Z.to_nat id)) (Some L_stable) ;;; semdown_wait fuel id
     end
   else ret tt).
Proof. by destruct fuel. Qed.

Lemma semdown_tail_pass fuel s id t l0 :
  aget (sems s) id = Some t -> value t <> 0 -> idle l0 -> lks s = lk_acq L_stable l0 ->
  exists l', semdown_tail fuel id s = Ret 0 (set_lks l' (upd_sem id sem_dec s)) /\ lks_eq l0 l'.
Proof.
  intros Ht Hv Hi Hs. pose proof (idle_cli _ Hi) as Hc. destruct Hi as [I1 I2 I3].
  unfold semdown_tail. rewrite (bind_ret _ _ s tt s).
  2: { rewrite semdown_wait_eq. rstep (getsem_ret s id t Ht).
       destruct (Z.eqb_spec (value t) 0); done. }
  rstep (modsem_ret s id t sem_dec Ht).
  destruct (release_ret L_stable l0 (upd_sem id sem_dec s)) as [R1 R2];
    [simpl; by rewrite Hs|done|done|].
  rstep R1. eexists. split; [reflexivity | exact R2].
Qed.

(** The rest of a [semdown] that sleeps in process [i]. *)
Definition down_cont (i fuel : nat) (id : Z) (k : kst -> res kst Z) : Prop :=
  forall s2 p2, resumable (lks s2) -> curproc s2 = Some i -> procs s2 !! i = Some p2 ->
    lk_free L_stable (lks s2) ->
    exists l0, idle l0 /\ k s2 =
      semdown_tail fuel id (set_lks (lk_acq L_stable l0) (upd_proc i (set_p_chan CNull) s2)).

Lemma semdown_tail_block fuel s q id t l0 i p :
  aget (sems s) id = Some t -> value t = 0 -> idle l0 -> lks s = lk_acq L_stable l0 ->
  mlfq s q -> curproc s = Some i -> procs s !! i = Some p -> p_state p = RUNNING ->
  match fuel with
  | O => semdown_tail fuel id s = Fuel
  | S f => exists l1 k, let s1 := set_lks l1 (upd_proc i (asleep (CSem (Z.to_nat id))) s) in
      semdown_tail fuel id s = Swtch s1 k /\ mlfq s1 q /\
      lk_free L_stable l1 /\ resumable l1 /\ down_cont i f id k
  end.
Proof.
  intros Ht Hv [I1 I2 I3] Hs Hq Hc Hp Hr. unfold semdown_tail.
  assert (Hw : semdown_wait fuel id s = match fuel with
    | O => Fuel
    | S fuel => (sleep (CSem (Z.to_nat id)) (Some L_stable) ;;; semdown_wait fuel id) s end).
  { rewrite semdown_wait_eq. rstep (getsem_ret s id t Ht). rewrite Hv. by destruct fuel. }
  destruct fuel as [|f]; [unfold bind at 1; by rewrite Hw|].
  destruct (sleep_swtch s q i p (CSem (Z.to_nat id)) L_stable l0 Hq Hc Hp Hr)
    as (l1 & k & H1 & H2 & H3 & H4 & H5); [done|by rewrite Hs|done|done|].
  rewrite (bind_swtch _ _ _ _ _ H1) in Hw. rewrite (bind_swtch _ _ _ _ _ Hw).
  eexists l1, _. split; [reflexivity|]. split_and!; [done..|].
  intros s2 p2 R1 R2 R3 R4. destruct (H5 s2 p2 R1 R2 R3 R4) as (l' & G1 & G2 & G3 & G4 & _ & G5).
  exists l'. split; [by split|]. cbn beta. by rewrite G1.
Qed.

(** ** Operations on a semaphore that is not in use *)

(** The test at the start of [semdown] and [semup]. *)
Lemma sem_guard s id (m : sem -> M kst Z) :
  idle (lks s) ->
  let r := (acquire L_stable ;;;
            t <- getsem id ;;
            if refcount t <=? 0 then release L_stable ;;; ret (-1) else m t) s in
  match aget (sems s) id with
  | None => r = Stuck "invalid pointer"
  | Some t => 0 < refcount t \/
      exists l', r = Ret (-1) (set_lks l' s) /\ lks_eq (lks s) l'
  end.
Proof.
  intros Hi. pose proof (idle_cli _ Hi) as Hc. destruct Hi as [I1 I2 I3]. cbv zeta.
  rstep (acquire_ret _ _ I2). set (s1 := set_lks _ s).
  destruct (aget (sems s) id) as [t|] eqn:Ht.
  - rstep (getsem_ret s1 id t Ht). destruct (Z.leb_spec (refcount t) 0); [right|by left].
    destruct (release_ret L_stable (lks s) s1) as [R1 R2]; [reflexivity|done|done|].
    rstep R1. eexists. split; [reflexivity | exact R2].
  - unfold getsem. unfold bind at 2. msimp. unfold bind at 1 2. simpl. by rewrite Ht.
Qed.

Lemma semup_guard s id :
  idle (lks s) ->
  match aget (sems s) id with
  | None => semup id s = Stuck "invalid pointer"
  | Some t => 0 < refcount t \/
      exists l', semup id s = Ret (-1) (set_lks l' s) /\ lks_eq (lks s) l'
  end.
Proof. exact (sem_guard s id _). Qed.

Lemma semdown_guard fuel s id :
  idle (lks s) ->
  match aget (sems s) id with
  | None => semdown fuel id s = Stuck "invalid pointer"
  | Some t => 0 < refcount t \/
      exists l', semdown fuel id s = Ret (-1) (set_lks l' s) /\ lks_eq (lks s) l'
  end.
Proof. exact (sem_guard s id _). Qed.

(** ** Creating and freeing *)

(** The locks once [semget] is past its first-call test. *)
Definition semget_locks (s : kst) : lockst :=
  if sem_first_time s
  then set_lk_tab (<[L_stable := mkspinlock 0 "stable" None]> (lk_tab (lks s))) (lks s)
  else lks s.

Definition semget_entry (s : kst) : kst := set_sem_first_time false (set_lks (semget_locks s) s).

Lemma semget_locks_free s : lk_free L_stable (lks s) -> lk_free L_stable (semget_locks s).
Proof.
  intros H. unfold semget_locks. destruct (sem_first_time s); [|done].
  unfold lk_free. rewrite lkof_set_eq. done.
Qed.

Lemma semget_locks_cli s : cli_ok (lks s) -> cli_ok (semget_locks s).
Proof. unfold semget_locks. by destruct (sem_first_time s). Qed.

Lemma semget_prologue {A} s (m : M kst A) :
  lk_free L_stable (lks s) ->
  (first_time <- gets sem_first_time ;;
   when first_time (onlks (initlock L_stable "stable") ;;; modify (set_sem_first_time false)) ;;;
   acquire L_stable ;;; m) s
  = m (set_lks (lk_acq L_stable (semget_locks s)) (semget_entry s)).
Proof.
  intros Hf. msimp.
  assert (Hfr : lk_free L_stable (lks (semget_entry s))) by by apply semget_locks_free.
  rewrite (bind_ret _ _ s tt (semget_entry s)).
  2: { unfold when, semget_entry, semget_locks. destruct (sem_first_time s) eqn:E; [reflexivity|].
       unfold ret. f_equal. destruct s; simpl in *. by subst. }
  by rstep (acquire_ret L_stable (semget_entry s) Hfr).
Qed.

(** Leaving [semget] through a [release]. *)
Lemma semget_epilogue s t (v : Z) :
  lk_free L_stable (lks s) -> cli_ok (lks s) -> lks t = lk_acq L_stable (semget_locks s) ->
  exists l', (release L_stable ;;; ret v) t = Ret v (set_lks l' t) /\ lk_free L_stable l' /\
    cli_ok l'.
Proof.
  intros Hf Hc Ht.
  pose proof (semget_locks_free _ Hf) as F. pose proof (semget_locks_cli _ Hc) as C.
  destruct (release_ret L_stable (semget_locks s) t) as [R1 R2]; [by rewrite Ht|done|done|].
  rstep R1. eexists. split; [reflexivity|]. by rewrite <- R2.
Qed.

Lemma checkprocsem_ret s i p :
  curproc s = Some i -> procs s !! i = Some p ->
  checkprocsem s = Ret (scan (fun r => bool_decide (r = None)) (p_procsem p)) s.
Proof.
  intros Hc Hp. unfold checkprocsem. rstep (myproc_ret _ _ Hc). by rstep (getp_ret _ _ _ Hp).
Qed.

(** [*(r = checkprocsem()) == 0]: a free slot, or the word at address 0. *)
Lemma slot_free_ret s i p :
  curproc s = Some i -> procs s !! i = Some p ->
  slot_free (scan (fun r => bool_decide (r = None)) (p_procsem p)) s =
  match scan (fun r => bool_decide (r = None)) (p_procsem p) with
  | Some _ => Ret true s
  | None => match peek32 s 0 with Some w => Ret (w =? 0) s | None => Stuck "page fault" end
  end.
Proof.
  intros Hc Hp. destruct (scan _ (p_procsem p)) as [k|] eqn:Hk; simpl.
  - rstep (myproc_ret _ _ Hc). rstep (getp_ret _ _ _ Hp).
    apply scan_Some in Hk as [(o & Ho & Hn%bool_decide_eq_true) _]. rewrite Ho. msimp.
    by rewrite bool_decide_true.
  - unfold bind at 1. rewrite load32_va_peek. by destruct (peek32 s 0).
Qed.

(** The process and the table after a semaphore has been created. *)
Definition with_sem (k t : nat) (p : proc) : proc :=
  set_p_procsem (<[k := Some t]> (p_procsem p)) (set_p_semquantity (p_semquantity p + 1) p).

Lemma semget_found {A} s i p t t0 k v (m : M kst A) :
  curproc s = Some i -> procs s !! i = Some p -> sems s !! t = Some t0 ->
  (modsem (Z.of_nat t) (set_value v) ;;;
   modsem (Z.of_nat t) (set_refcount 1) ;;;
   p <- myproc ;;
   modp p (fun pr => set_p_semquantity (p_semquantity pr + 1) pr) ;;;
   set_slot (Some k) (Some t) ;;; m) s =
  m (set_procs (<[i := with_sem k t p]> (procs s)) (set_sems (<[t := mksem v 1]> (sems s)) s)).
Proof.
  intros Hc Hp Ht.
  assert (Ha : aget (sems s) (Z.of_nat t) = Some t0)
    by (apply aget_Some; rewrite Nat2Z.id; split; [lia | exact Ht]).
  rstep (modsem_ret s (Z.of_nat t) t0 (set_value v) Ha).
  rstep (modsem_ret _ _ _ (set_refcount 1) (aget_upd_sem _ _ (set_value v) _ Ha)).
  erewrite bind_ret by (apply myproc_ret; exact Hc).
  erewrite bind_ret by (eapply modp_ret; exact Hp). unfold set_slot.
  erewrite bind_ret; [|erewrite bind_ret by (apply myproc_ret; exact Hc);
    eapply modp_ret, (lookup_alter_proc' (procs s)), Hp].
  f_equal. unfold upd_proc, upd_sem. simpl. rewrite !alter_alter, Nat2Z.id.
  by rewrite (alter_as_insert _ _ _ _ Hp), (alter_as_insert _ _ _ _ Ht).
Qed.

(** [semget(-1, v)] when there is a free semaphore and a free slot. *)
Lemma semget_new_ret s i p v t k :
  curproc s = Some i -> procs s !! i = Some p ->
  lk_free L_stable (lks s) -> cli_ok (lks s) ->
  scan (fun t => refcount t =? 0) (sems s) = Some t ->
  scan (fun r => bool_decide (r = None)) (p_procsem p) = Some k ->
  exists l', semget (-1) v s = Ret (Z.of_nat t) (set_lks l'
      (set_procs (<[i := with_sem k t p]> (procs s))
        (set_sems (<[t := mksem v 1]> (sems s)) (set_sem_first_time false s)))) /\
    lk_free L_stable l' /\ cli_ok l'.
Proof.
  intros Hc Hp Hf Hcl Ht Hk. apply scan_Some in Ht as Ht'. destruct Ht' as [(t0 & Ht0 & _) _].
  unfold semget. rewrite semget_prologue by done. set (s1 := set_lks _ (semget_entry s)).
  change (-1 =? -1) with true. msimp. change (sems s1) with (sems s). rewrite Ht.
  rstep (checkprocsem_ret s1 i p Hc Hp). pose proof (slot_free_ret s1 i p Hc Hp) as Hsf.
  rewrite Hk in *. rstep Hsf. cbv zeta. rewrite (semget_found s1 i p t t0) by done.
  match goal with |- context [(release L_stable ;;; ret (Z.of_nat t)) ?u] =>
    destruct (semget_epilogue s u (Z.of_nat t) Hf Hcl eq_refl) as (l' & R1 & R2 & R3) end.
  exists l'. by split_and!; [exact R1|..].
Qed.

(** [semget(-1, v)] takes the lowest free semaphore, gives it the value [v]
    and one reference, and records it in the first free slot of the process;
    it returns -3 and changes nothing when the table is full, and -2 when the
    process has no free slot, provided the word at user address 0 (which the
    code reads through its null pointer) is not zero. *)
Lemma semget_create s i p v :
  curproc s = Some i -> procs s !! i = Some p ->
  lk_free L_stable (lks s) -> cli_ok (lks s) ->
  (exists w, peek32 s 0 = Some w /\ w <> 0) ->
  exists s',
  match scan (fun t => refcount t =? 0) (sems s),
        scan (fun r => bool_decide (r = None)) (p_procsem p) with
  | None, _ => semget (-1) v s = Ret (-3) s' /\ sems s' = sems s /\ procs s' = procs s
  | Some t, Some k => semget (-1) v s = Ret (Z.of_nat t) s' /\
      sems s' = <[t := mksem v 1]> (sems s) /\
      procs s' = <[i := with_sem k t p]> (procs s) /\ curproc s' = Some i
  | Some _, None => semget (-1) v s = Ret (-2) s' /\ sems s' = sems s /\ procs s' = procs s
  end /\ lk_free L_stable (lks s') /\ cli_ok (lks s').
Proof.
  intros Hc Hp Hf Hcl (w & Hw & Hwn).
  destruct (scan (fun t => refcount t =? 0) (sems s)) as [t|] eqn:Ht;
  [destruct (scan (fun r => bool_decide (r = None)) (p_procsem p)) as [k|] eqn:Hk|].
  - destruct (semget_new_ret s i p v t k Hc Hp Hf Hcl Ht Hk) as (l' & R1 & R2 & R3).
    eexists. split; [by split_and!; [exact R1|..] | split; [exact R2|exact R3]].
  - unfold semget. rewrite semget_prologue by done. set (s1 := set_lks _ (semget_entry s)).
    change (-1 =? -1) with true. msimp. change (sems s1) with (sems s). rewrite Ht.
    rstep (checkprocsem_ret s1 i p Hc Hp). pose proof (slot_free_ret s1 i p Hc Hp) as Hsf.
    rewrite Hk in *. change (peek32 s1 0) with (peek32 s 0) in Hsf. rewrite Hw in Hsf.
    destruct (Z.eqb_spec w 0); [done|]. rstep Hsf.
    destruct (semget_epilogue s s1 (-2) Hf Hcl eq_refl) as (l' & R1 & R2 & R3).
    eexists. split; [by split_and!; [exact R1|..] | split; [exact R2|exact R3]].
  - unfold semget. rewrite semget_prologue by done. set (s1 := set_lks _ (semget_entry s)).
    change (-1 =? -1) with true. msimp. change (sems s1) with (sems s). rewrite Ht.
    destruct (semget_epilogue s s1 (-3) Hf Hcl eq_refl) as (l' & R1 & R2 & R3).
    eexists. split; [by split_and!; [exact R1|..] | split; [exact R2|exact R3]].
Qed.

(** The process after it has given up the semaphore in slot [k]. *)
Definition without_sem (k : nat) (p : proc) : proc :=
  set_p_semquantity (p_semquantity p - 1) (set_p_procsem (<[k := None]> (p_procsem p)) p).

Lemma without_with_sem k t p : p_procsem p !! k = Some None -> without_sem k (with_sem k t p) = p.
Proof.
  intros H. unfold without_sem, with_sem. destruct p.
  unfold set_p_semquantity, set_p_procsem. cbn in *. f_equal; [|lia].
  by rewrite list_insert_insert_eq, list_insert_id.
Qed.

Lemma semfree_ret s i p id t k :
  curproc s = Some i -> procs s !! i = Some p -> aget (sems s) id = Some t -> refcount t <> 0 ->
  scan (fun r => bool_decide (r = Some (Z.to_nat id))) (p_procsem p) = Some k ->
  lk_free L_stable (lks s) -> cli_ok (lks s) ->
  exists l', semfree id s = Ret 0 (set_lks l' (upd_sem id (fun t => set_refcount (refcount t - 1) t)
      (set_procs (<[i := without_sem k p]> (procs s)) s))) /\ lks_eq (lks s) l'.
Proof.
  intros Hc Hp Ht Hr Hk Hf Hcl. unfold semfree. rstep (getsem_ret _ _ _ Ht).
  destruct (Z.eqb_spec (refcount t) 0); [done|]. rstep (myproc_ret _ _ Hc).
  rstep (getp_ret _ _ _ Hp). rewrite Hk. unfold set_slot.
  erewrite bind_ret; [|rstep (myproc_ret _ _ Hc); eapply modp_ret; exact Hp].
  set (s1 := upd_proc i _ s). rewrite (bind_ret _ _ _ _ _ (acquire_ret L_stable s1 Hf)).
  set (s2 := set_lks _ s1). rstep (modsem_ret s2 id t (fun t => set_refcount (refcount t - 1) t) Ht).
  erewrite bind_ret by (eapply modp_ret, (lookup_alter_proc' (procs s)), Hp).
  match goal with |- context [bind (release L_stable) _ ?u] =>
    destruct (release_ret L_stable (lks s) u) as [R1 R2]; [reflexivity|done|done|] end.
  rstep R1. eexists. split; [|exact R2]. unfold ret. f_equal.
  unfold upd_proc, upd_sem. simpl. rewrite alter_alter. by rewrite (alter_as_insert _ _ _ _ Hp).
Qed.

(** The process after it has taken a reference to semaphore [t]. *)
Definition with_ref (k t : nat) (p : proc) : proc := set_p_procsem (<[k := Some t]> (p_procsem p)) p.

Lemma semget_attach {A} s i p id t k (m : M kst A) :
  curproc s = Some i -> procs s !! i = Some p -> aget (sems s) id = Some t ->
  (set_slot (Some k) (Some (Z.to_nat id)) ;;;
   modsem id (fun t => set_refcount (refcount t + 1) t) ;;; m) s =
  m (upd_sem id (fun t => set_refcount (refcount t + 1) t)
       (upd_proc i (with_ref k (Z.to_nat id)) s)).
Proof.
  intros Hc Hp Ht. unfold set_slot.
  erewrite bind_ret; [|erewrite bind_ret by (apply myproc_ret; exact Hc); eapply modp_ret; exact Hp].
  by erewrite bind_ret by (eapply modsem_ret; exact Ht).
Qed.

Lemma semget_locks_idle s : idle (lks s) -> idle (semget_locks s).
Proof.
  intros [I1 I2 I3]. unfold semget_locks. destruct (sem_first_time s); [|by split].
  destruct (lks s) as [c tb]. split; [| |done]; unfold lk_free, set_lk_tab; simpl.
  - by rewrite lkof_insert, decide_False.
  - by rewrite lkof_insert, decide_True.
Qed.

Lemma semget_leave s t (v r : Z) s' :
  idle (lks s) -> lks t = lk_acq L_stable (semget_locks s) ->
  (release L_stable ;;; ret v) t = Ret r s' -> exists l', idle l' /\ r = v /\ s' = set_lks l' t.
Proof.
  intros Hi Ht Hr. pose proof (semget_locks_idle _ Hi) as Hi'. pose proof (idle_cli _ Hi') as Hc.
  destruct (release_ret L_stable (semget_locks s) t) as [R1 R2]; [by rewrite Ht|apply Hi'|done|].
  unfold bind in Hr. rewrite R1 in Hr. injection Hr as <- <-. eexists.
  split; [|split; reflexivity]. by rewrite <- R2.
Qed.

(** The test of a free slot: without one the code goes on only when the word at
    address 0 is zero, and then stores through the null pointer. *)
Lemma slot_cases s i p (m : option nat -> M kst Z) r s' :
  curproc s = Some i -> procs s !! i = Some p -> (forall a t, m None s <> Ret a t) ->
  (r <- checkprocsem ;; free <- slot_free r ;;
   if free then m r else release L_stable ;;; ret (-2)) s = Ret r s' ->
  (exists k, m (Some k) s = Ret r s') \/ (release L_stable ;;; ret (-2)) s = Ret r s'.
Proof.
  intros Hc Hp Hn. rstep (checkprocsem_ret s i p Hc Hp). unfold bind at 1.
  rewrite (slot_free_ret s i p Hc Hp). destruct (scan _ (p_procsem p)) as [k|]; [by left; exists k|].
  destruct (peek32 s 0) as [w|]; [|done]. destruct (w =? 0); [by intros ?%Hn|by right].
Qed.

(** What a [semget] that returns has done: nothing, created the semaphore it
    returns, or taken one more reference to the semaphore asked for. *)
Lemma semget_cases s i p id v r s' :
  curproc s = Some i -> procs s !! i = Some p -> idle (lks s) -> semget id v s = Ret r s' ->
  exists l', idle l' /\
  ((r < 0 /\ s' = set_lks l' (semget_entry s)) \/
   (exists t k, id = -1 /\ r = Z.of_nat t /\ scan (fun t => refcount t =? 0) (sems s) = Some t /\
      s' = set_lks l' (set_procs (<[i := with_sem k t p]> (procs s))
             (set_sems (<[t := mksem v 1]> (sems s)) (semget_entry s)))) \/
   (exists t k, id <> -1 /\ aget (sems s) id = Some t /\ refcount t <> 0 /\
      s' = set_lks l' (upd_sem id (fun t => set_refcount (refcount t + 1) t)
             (upd_proc i (with_ref k (Z.to_nat id)) (semget_entry s))))).
Proof.
  intros Hc Hp Hi. pose proof (idle_stable _ Hi) as Hf. unfold semget. rewrite semget_prologue by done.
  set (s1 := set_lks _ (semget_entry s)).
  assert (Hno : forall w, w < 0 -> (release L_stable ;;; ret w) s1 = Ret r s' ->
    exists l', idle l' /\ r < 0 /\ s' = set_lks l' (semget_entry s)).
  { intros w Hw H. destruct (semget_leave s s1 w r s' Hi eq_refl H) as (l' & H1 & -> & ->). by exists l'. }
  destruct (Z.eqb_spec id (-1)) as [E|E]; msimp.
  - change (sems s1) with (sems s).
    destruct (scan (fun t => refcount t =? 0) (sems s)) as [t|] eqn:Ht.
    2: { intros (l' & H1 & H2)%Hno; [|done]. exists l'. split; [done|by left]. }
    apply scan_Some in Ht as Ht'. destruct Ht' as [(t0 & Ht0 & _) _].
    assert (Ha : aget (sems s1) (Z.of_nat t) = Some t0)
      by (apply aget_Some; rewrite Nat2Z.id; split; [lia|exact Ht0]).
    intros [[k H]|H]%(slot_cases s1 i p); [| |done|done|].
    + rewrite (semget_found s1 i p t t0) in H by done.
      apply (semget_leave s) in H as (l' & H1 & H2 & H3); [|done|done].
      exists l'. split; [done|]. right. left. by exists t, k.
    + apply Hno in H as (l' & H1 & H2); [|done]. exists l'. split; [done|by left].
    + intros a u. erewrite bind_ret by (eapply modsem_ret; exact Ha).
      erewrite bind_ret by (eapply modsem_ret, aget_upd_sem, Ha).
      erewrite bind_ret by (apply myproc_ret; exact Hc).
      by erewrite bind_ret by (eapply modp_ret; exact Hp).
  - destruct (aget (sems s) id) as [t|] eqn:Ht.
    2: { unfold bind at 1, getsem. msimp. change (sems s1) with (sems s). by rewrite Ht. }
    rstep (getsem_ret s1 id t Ht). destruct (Z.eqb_spec (refcount t) 0) as [E0|E0].
    { intros (l' & H1 & H2)%Hno; [|done]. exists l'. split; [done|by left]. }
    intros [[k H]|H]%(slot_cases s1 i p); [| |done|done|done].
    + rewrite (semget_attach s1 i p id t) in H by done.
      apply (semget_leave s) in H as (l' & H1 & H2 & H3); [|done|done].
      exists l'. split; [done|]. right. right. by exists t, k.
    + apply Hno in H as (l' & H1 & H2); [|done]. exists l'. split; [done|by left].
Qed.

(** C33: [semfree] of a semaphore that [semget] has just created gives the slot
    and the reference back: the process is as it was, and the semaphore is
    free again with no reference. *)
Theorem semget_semfree s i p v t k :
  curproc s = Some i -> procs s !! i = Some p ->
  lk_free L_stable (lks s) -> cli_ok (lks s) ->
  scan (fun t => refcount t =? 0) (sems s) = Some t ->
  scan (fun r => bool_decide (r = None)) (p_procsem p) = Some k ->
  Some t ∉ p_procsem p ->
  exists s1 s2, semget (-1) v s = Ret (Z.of_nat t) s1 /\
    semfree (Z.of_nat t) s1 = Ret 0 s2 /\ procs s2 = procs s /\
    sems s2 = <[t := mksem v 0]> (sems s) /\ lk_free L_stable (lks s2).
Proof.
  intros Hc Hp Hf Hcl Ht Hk Hno. apply scan_Some in Ht as Ht'. destruct Ht' as [(t0 & Ht0 & _) _].
  pose proof (lookup_lt_Some _ _ _ Ht0) as Hlt.
  apply scan_Some in Hk as Hk'. destruct Hk' as [(o & Ho & ->%bool_decide_eq_true) _].
  destruct (semget_new_ret s i p v t k Hc Hp Hf Hcl Ht Hk) as (l' & Hget & Hf' & Hc'). eexists. set (s1 := set_lks l' _) in Hget.
  assert (Hp1 : procs s1 !! i = Some (with_sem k t p))
    by (apply list_lookup_insert_eq; by eapply lookup_lt_Some).
  destruct (semfree_ret s1 i (with_sem k t p) (Z.of_nat t) (mksem v 1) k) as (l2 & R1 & R2);
    [done|done| |done| |done|done|].
  - apply aget_Some. rewrite Nat2Z.id. split; [lia|]. by apply list_lookup_insert_eq.
  - apply scan_Some. rewrite Nat2Z.id. split.
    + exists (Some t). split; [|by rewrite bool_decide_true].
      apply list_lookup_insert_eq. by eapply lookup_lt_Some.
    + intros j y Hj Hy. apply bool_decide_eq_false. intros ->. simpl in Hy.
      rewrite list_lookup_insert_ne in Hy by lia. apply Hno. by eapply list_elem_of_lookup_2.
  - eexists. split; [exact Hget|]. split; [exact R1|]. split_and!.
    + simpl. rewrite list_insert_insert_eq, without_with_sem by done. by apply list_insert_id.
    + simpl. rewrite Nat2Z.id. rewrite (alter_as_insert _ _ _ (mksem v 1)).
      * by rewrite list_insert_insert_eq.
      * by apply list_lookup_insert_eq.
    + simpl. by rewrite <- R2.
Qed.

(** The CPU that holds [stable.lock] panics when it takes it once more. *)
Lemma stable_held_panics {A} (m : M kst A) s :
  holds L_stable (lks s) = true -> (acquire L_stable ;;; m) s = Panic "acquire".
Proof. intros H. apply bind_panic, zoom_panic. by apply acquire_held. Qed.

Lemma semget_held_panics s id v :
  holds L_stable (lks s) = true -> sem_first_time s = false -> semget id v s = Panic "acquire".
Proof. intros H E. unfold semget. msimp. rewrite E. by apply stable_held_panics. Qed.

Lemma semfree_held_panics s i p id t :
  holds L_stable (lks s) = true -> curproc s = Some i -> procs s !! i = Some p ->
  aget (sems s) id = Some t -> refcount t <> 0 -> Some (Z.to_nat id) ∈ p_procsem p ->
  semfree id s = Panic "acquire".
Proof.
  intros H Hc Hp Ht Hr Hin. unfold semfree. rstep (getsem_ret _ _ _ Ht).
  destruct (Z.eqb_spec (refcount t) 0); [done|]. rstep (myproc_ret _ _ Hc).
  rstep (getp_ret _ _ _ Hp). destruct (scan _ (p_procsem p)) as [k|] eqn:Hk.
  - unfold set_slot. erewrite bind_ret; [|rstep (myproc_ret _ _ Hc); eapply modp_ret; exact Hp].
    by apply stable_held_panics.
  - apply list_elem_of_lookup in Hin as [k Hin]. eapply scan_None in Hk; [|exact Hin].
    by rewrite bool_decide_true in Hk.
Qed.

(** [semfree] of a semaphore that is not in use, or that the process does not
    hold. *)
Lemma semfree_not_held s i p id t :
  curproc s = Some i -> procs s !! i = Some p -> aget (sems s) id = Some t ->
  ~ (refcount t <> 0 /\ Some (Z.to_nat id) ∈ p_procsem p) -> semfree id s = Ret (-1) s.
Proof.
  intros Hc Hp Ht Hn. unfold semfree. rstep (getsem_ret _ _ _ Ht).
  destruct (Z.eqb_spec (refcount t) 0); [done|]. rstep (myproc_ret _ _ Hc).
  rstep (getp_ret _ _ _ Hp). destruct (scan _ (p_procsem p)) as [k|] eqn:Hk; [|done].
  apply scan_Some in Hk as [(o & Ho & ->%bool_decide_eq_true) _].
  destruct Hn. split; [done|]. by eapply list_elem_of_lookup_2.
Qed.

(** What a [semfree] that returns has done: nothing, or given a reference back. *)
Lemma semfree_cases s i p id r s' :
  curproc s = Some i -> procs s !! i = Some p -> idle (lks s) -> semfree id s = Ret r s' ->
  s' = s \/ exists t k l', aget (sems s) id = Some t /\ idle l' /\
    s' = set_lks l' (upd_sem id (fun t => set_refcount (refcount t - 1) t)
           (set_procs (<[i := without_sem k p]> (procs s)) s)).
Proof.
  intros Hc Hp Hi Hr. destruct (aget (sems s) id) as [t|] eqn:Ht.
  2: { revert Hr. unfold semfree, bind at 1, getsem. msimp. by rewrite Ht. }
  destruct (decide (refcount t <> 0 /\ Some (Z.to_nat id) ∈ p_procsem p)) as [[H0 Hin]|Hn].
  - right. destruct (scan (fun r => bool_decide (r = Some (Z.to_nat id))) (p_procsem p)) as [k|] eqn:Hk.
    + destruct (semfree_ret s i p id t k Hc Hp Ht H0 Hk (idle_stable _ Hi) (idle_cli _ Hi))
        as (l' & R1 & R2). rewrite R1 in Hr. injection Hr as _ <-. exists t, k, l'.
      split; [done|]. split; [by rewrite <- R2|done].
    + apply list_elem_of_lookup in Hin as [k Hin]. eapply scan_None in Hk; [|exact Hin].
      by rewrite bool_decide_true in Hk.
  - left. rewrite (semfree_not_held s i p id t Hc Hp Ht Hn) in Hr. by injection Hr.
Qed.

(** C38: [semup] of a semaphore in use whose value is negative ([semget] accepts
    one) returns 0 without releasing [stable.lock].  After it, on this CPU,
    every [semup] and [semdown], every [semget], and every [semfree] of a
    semaphore in use that the process holds, panics with "acquire"; [semfree]
    of any other semaphore of the table, which takes no lock, returns -1. *)
Theorem semup_negative_keeps_lock s i p id t :
  aget (sems s) id = Some t -> 0 < refcount t -> value t < 0 -> idle (lks s) ->
  curproc s = Some i -> procs s !! i = Some p -> sem_first_time s = false ->
  exists s', semup id s = Ret 0 s' /\ sems s' = sems s /\
    holds L_stable (lks s') = true /\
    (forall id', semup id' s' = Panic "acquire") /\
    (forall fuel id', semdown fuel id' s' = Panic "acquire") /\
    (forall id' v, semget id' v s' = Panic "acquire") /\
    (forall id' t', aget (sems s) id' = Some t' ->
       if decide (refcount t' <> 0 /\ Some (Z.to_nat id') ∈ p_procsem p)
       then semfree id' s' = Panic "acquire"
       else semfree id' s' = Ret (-1) s').
Proof.
  intros Ht Hr Hv [I1 I2 I3] Hc Hp Hf. unfold semup at 1. rstep (acquire_ret _ _ I2). set (s1 := set_lks _ s).
  rstep (getsem_ret s1 id t Ht). bdestr. exists s1. split; [reflexivity|]. split; [done|].
  assert (Hh : holds L_stable (lks s1) = true) by apply lk_acq_holds. split; [done|].
  split_and!; [intros id'; by apply stable_held_panics|intros fuel id'; by apply stable_held_panics
    |intros id' v; by apply semget_held_panics|].
  intros id' t' Ht'. case_decide as Hd.
  - destruct Hd. by apply (semfree_held_panics s1 i p id' t').
  - by apply (semfree_not_held s1 i p id' t').
Qed.

(** ** Witnesses *)

(** Process 0 runs with a page table that maps address 0 to the page at
    0x80402000, which starts with the word 5. *)
Definition demo_sem : kst :=
  set_cr3 0x400000
    (set_mem (store32 (store32 (store32 (fun _ => 0) 0x80400000 0x401007) 0x80401000 0x402007)
                0x80402000 5)
      (set_sems (mksem 3 1 :: mksem (-1) 1 :: replicate 14 (mksem 0 0)) demo)).

Lemma demo_sem_locks : lk_free L_stable (lks demo_sem) /\ cli_ok (lks demo_sem).
Proof. split; [done|]. split; simpl; lia. Qed.

Lemma semget_semfree_witness :
  exists s1 s2, semget (-1) 7 demo_sem = Ret 2 s1 /\ semfree 2 s1 = Ret 0 s2 /\
    procs s2 = procs demo_sem.
Proof.
  destruct (semget_semfree demo_sem 0 (demo_proc RUNNING 0 1 CNull None) 7 2 0 eq_refl eq_refl
    (proj1 demo_sem_locks) (proj2 demo_sem_locks) eq_refl eq_refl) as (s1 & s2 & H1 & H2 & H3 & _).
  - simpl. set_solver.
  - exists s1, s2. split; [exact H1|]. split; [exact H2|exact H3].
Defined.

(** The process holds semaphore 1. *)
Definition neg_proc : proc := with_sem 0 1 (demo_proc RUNNING 0 1 CNull None).
Definition demo_neg : kst :=
  set_sem_first_time false (set_procs (neg_proc :: tail (procs demo_sem)) demo_sem).

Lemma semup_negative_keeps_lock_witness :
  exists s', semup 1 demo_neg = Ret 0 s' /\ semup 0 s' = Panic "acquire" /\
    semdown 5 0 s' = Panic "acquire" /\ semget (-1) 3 s' = Panic "acquire" /\
    semfree 1 s' = Panic "acquire" /\ semfree 0 s' = Ret (-1) s'.
Proof.
  destruct (semup_negative_keeps_lock demo_neg 0 neg_proc 1 (mksem (-1) 1) eq_refl)
    as (s' & H1 & _ & _ & H2 & H3 & H4 & H5);
    [simpl; lia|simpl; lia|by split|reflexivity|reflexivity|reflexivity|].
  exists s'. split; [exact H1|]. split; [apply H2|]. split; [apply H3|]. split; [apply H4|].
  split; [exact (H5 1 (mksem (-1) 1) eq_refl) | exact (H5 0 (mksem 3 1) eq_refl)].
Defined.
