(* ===== verification/SharedMem.v ===== *)
(** * Shared memory

    [sharedmem.c]: a table of [MAXSHM] pages, each attached to the processes
    that asked for it by its key. *)

From stdpp Require Import base list numbers strings tactics gmap.
From Stdlib Require Import Lia.
From S2P Require Import Prelude Params StringC FsState KState Spinlock Mmu Kalloc Sched Vm.

Local Open Scope Z_scope.
Local Open Scope xv6_scope.

Definition getshm (key : Z) : M kst sharedmemory := o <- gets (fun s => aget (shmtab s) key) ;; deref o.

Definition upd_shm (key : Z) (f : sharedmemory -> sharedmemory) (s : kst) : kst :=
  set_shmtab (alter f (Z.to_nat key) (shmtab s)) s.

Definition modshm (key : Z) (f : sharedmemory -> sharedmemory) : M kst unit :=
  _ <- getshm key ;; modify (upd_shm key f).

Definition shm_init : M kst Z :=
  onlks (initlock L_shmtable "shmtable") ;;;
  modify (fun s => set_shmtab (set_shm_refcount (-1) <$> shmtab s) s) ;;;
  ret 0.

(** [memset(a, 0, PGSIZE)] of the page [kalloc] returned, which is not tested:
    a null pointer is the first page of the process. *)
Definition clear_page (a : Z) : M kst unit :=
  if a =? 0 then put_va 0 (replicate (Z.to_nat PGSIZE) 0)
  else setmem (fun m => memset m a 0 PGSIZE).

Definition shm_create : M kst Z :=
  acquire L_shmtable ;;;
  q <- gets shm_quantity ;;
  if q =? MAXSHM then
    release L_shmtable ;;;
    ret (-1)
  else
  tab <- gets shmtab ;;
  match scan (fun x => shm_refcount x =? -1) tab with
  | Some i =>
      a <- kalloc ;;
      modshm (Z.of_nat i) (set_addr a) ;;;
      clear_page a ;;;
      modshm (Z.of_nat i) (fun x => set_shm_refcount (s32 (shm_refcount x + 1)) x) ;;;
      modify (fun s => set_shm_quantity (u16 (shm_quantity s + 1)) s) ;;;
      release L_shmtable ;;;
      ret (Z.of_nat i)
  | None =>
      release L_shmtable ;;;
      ret (-1)
  end.

Section SharedMem.

Variable kend : Z.

Definition shm_close (key : Z) : M kst Z :=
  acquire L_shmtable ;;;
  bad <- (if (key <? 0) || (MAXSHM <? key) then ret true
          else x <- getshm key ;; ret (shm_refcount x =? -1)) ;;
  if bad then release L_shmtable ;;; ret (-1) else
  p <- myproc ;;
  pr <- getp p ;;
  match scan (Z.eqb key) (p_shmem pr) with
  | None =>
      release L_shmtable ;;;
      ret (-1)
  | Some i =>
      modp p (fun x => set_p_shmemquantity (p_shmemquantity x - 1) x) ;;;
      modp p (fun x => set_p_shmem (<[i := -1]> (p_shmem x)) x) ;;;
      modshm key (fun x => set_shm_refcount (s32 (shm_refcount x - 1)) x) ;;;
      x <- getshm key ;;
      (if shm_refcount x =? 0 then
         modshm key (set_shm_refcount (-1)) ;;;
         modify (fun s => set_shm_quantity (u16 (shm_quantity s - 1)) s)
       else ret tt) ;;;
      x <- getshm key ;;
      pr <- getp p ;;
      va <- deref (p_shmref pr !! i) ;;
      unmap kend (p_pgdir pr) va PGSIZE (shm_refcount x) ;;;
      release L_shmtable ;;;
      ret 0
  end.

(** [addr] is where the result goes, an address of the process. *)
Definition shm_get (key addr_ : Z) : M kst Z :=
  acquire L_shmtable ;;;
  bad <- (if (key <? 0) || (MAXSHM <? key) then ret true
          else x <- getshm key ;; ret (shm_refcount x =? MAXSHMPROC)) ;;
  if bad then release L_shmtable ;;; ret (-1) else
  p <- myproc ;;
  pr <- getp p ;;
  match scan (Z.eqb (-1)) (p_shmem pr) with
  | None =>
      release L_shmtable ;;;
      ret (-1)
  | Some i =>
      modshm key (fun x => set_shm_refcount (s32 (shm_refcount x + 1)) x) ;;;
      modp p (fun x => set_p_shmem (<[i := key]> (p_shmem x)) x) ;;;
      modp p (fun x => set_p_shmemquantity (p_shmemquantity x + 1) x) ;;;
      x <- getshm (Z.of_nat i) ;;
      let va := PGROUNDDOWN (p_sz pr) in
      j <- mappages (p_pgdir pr) va PGSIZE (v2p (addr x)) (Z.lor PTE_W PTE_U) ;;
      (if j =? -1 then cprint "mappages error \n" else ret tt) ;;;
      modp p (fun x => set_p_shmref (<[i := va]> (p_shmref x)) x) ;;;
      store32_va addr_ va ;;;
      modp p (fun x => set_p_sz (u32 (p_sz x + PGSIZE)) x) ;;;
      release L_shmtable ;;;
      ret 0
  end.

End SharedMem.
