(* ===== verification/SharedMemThm.v ===== *)
(** * Shared memory: what the calls do

    Functional theorems about [shm_create], [shm_get] and [shm_close] of
    [sharedmem.c] over the page tables of [VmSpec]. *)

From stdpp Require Import base list numbers strings tactics gmap.
From Stdlib Require Import Lia.
From S2P Require Import Prelude Params StringC FsState KState Spinlock Mmu Kalloc Sched Vm VmSpec SharedMem.

Local Open Scope Z_scope.
Local Open Scope xv6_scope.

Section Shm.
Variable kend : Z.
Hypothesis kend_high : KERNBASE < kend.

#[local] Set Default Proof Using "Type".

(** ** Stores of a process *)

(** The user page [vpn] is mapped writable to the page [q] of another owner. *)
Definition mapped (m : memory) (pgdir vpn q : Z) : Prop :=
  exists e, view m pgdir vpn = Some e /\ bset e PTE_W = true /\ p2v (PTE_ADDR e) = q.

Lemma store8_va_ok s pgdir rest l va q v :
  pt_ok kend s pgdir rest l -> p2v (cr3 s) = pgdir -> 0 <= va < KERNBASE ->
  mapped (mem s) pgdir (va / 4096) q -> q ∈ rest ->
  let m' := wr (mem s) (q + va mod 4096) (u8 v) in
  store8_va va v s = Ret tt (set_mem m' s) /\ pt_ok kend (set_mem m' s) pgdir rest l /\
  (forall y, m' y <> mem s y -> q <= y < q + 4096) /\
  (forall p, 0 <= p < 2 ^ 20 -> view m' pgdir p = view (mem s) pgdir p).
Proof using Type kend_high.
  intros Hok Hcr Hva (e & He & Hw & Hq) Hin m'. unfold KERNBASE in Hva.
  assert (Hch : forall y, m' y <> mem s y -> q <= y < q + 4096).
  { intros y Hy. destruct (decide (y = q + va mod 4096)) as [->|Hne]; [Z.div_mod_to_equations; lia|].
    unfold m' in Hy. by rewrite wr_ne in Hy. }
  destruct (pt_write_rest kend kend_high s pgdir rest l m' q Hok Hin) as (H1 & _ & H2);
    [apply bytes_wr; [apply Hok|apply u8_range]|done|].
  split_and!; [|done..]. unfold store8_va, translate. msimp.
  rewrite (proj2 (Z.leb_gt KERNBASE va)) by (unfold KERNBASE; lia).
  rewrite Hcr, hw_pte_page, He by (unfold is_u32; lia). rewrite Hw. simpl. rewrite Hq. done.
Qed.

Lemma store32_va_ok s pgdir rest l va q v :
  pt_ok kend s pgdir rest l -> p2v (cr3 s) = pgdir -> 0 <= va < KERNBASE -> va mod 4096 <= 4092 ->
  mapped (mem s) pgdir (va / 4096) q -> q ∈ rest ->
  exists m', store32_va va v s = Ret tt (set_mem m' s) /\ pt_ok kend (set_mem m' s) pgdir rest l /\
    (forall y, m' y <> mem s y -> q <= y < q + 4096) /\
    (forall p, 0 <= p < 2 ^ 20 -> view m' pgdir p = view (mem s) pgdir p).
Proof using Type kend_high.
  intros Hok Hcr Hva Hal Hmap Hin. unfold store32_va, KERNBASE in *.
  assert (Hvpn : 0 <= va / 4096 < 2 ^ 20) by (Z.div_mod_to_equations; lia).
  assert (Hk : forall k, 0 <= k < 4 -> u32 (va + k) = va + k /\ (va + k) / 4096 = va / 4096 /\ 0 <= va + k < 2 ^ 31).
  { intros k Hk. rewrite u32_small by (unfold is_u32; Z.div_mod_to_equations; lia). Z.div_mod_to_equations. lia. }
  assert (Hstep : forall k w m, 0 <= k < 4 -> pt_ok kend (set_mem m s) pgdir rest l ->
    (forall p, 0 <= p < 2 ^ 20 -> view m pgdir p = view (mem s) pgdir p) ->
    (forall y, m y <> mem s y -> q <= y < q + 4096) ->
    exists m', store8_va (va + k) w (set_mem m s) = Ret tt (set_mem m' s) /\ pt_ok kend (set_mem m' s) pgdir rest l /\
      (forall p, 0 <= p < 2 ^ 20 -> view m' pgdir p = view (mem s) pgdir p) /\
      (forall y, m' y <> mem s y -> q <= y < q + 4096)).
  { intros k w m Hkr Hm Hv Hd. destruct (Hk k Hkr) as (_ & E & Hr).
    destruct (store8_va_ok (set_mem m s) pgdir rest l (va + k) q w Hm Hcr) as (H1 & H2 & H3 & H4);
      [unfold KERNBASE; lia| |done|].
    { rewrite E. destruct Hmap as (e & He & Hmap). exists e. simpl. by rewrite Hv. }
    eexists. split_and!; [exact H1|exact H2| |].
    - intros p Hp. rewrite H4 by done. by apply Hv.
    - intros y Hy. destruct (decide (m y = mem s y)) as [Ey|Ey]; [|by apply Hd]. apply H3. simpl. by rewrite Ey. }
  destruct (Hstep 0 v (mem s)) as (m1 & S1 & P1 & V1 & D1); [lia|by destruct s|done|done|].
  destruct (Hstep 1 (v / 2 ^ 8) m1) as (m2 & S2 & P2 & V2 & D2); [lia|done..|].
  destruct (Hstep 2 (v / 2 ^ 16) m2) as (m3 & S3 & P3 & V3 & D3); [lia|done..|].
  destruct (Hstep 3 (v / 2 ^ 24) m3) as (m4 & S4 & P4 & V4 & D4); [lia|done..|].
  replace (set_mem (mem s) s) with s in S1 by (by destruct s). rewrite Z.add_0_r in S1.
  exists m4. split_and!; [|done..]. rstep S1.
  rewrite (proj1 (Hk 1 ltac:(lia))), (proj1 (Hk 2 ltac:(lia))), (proj1 (Hk 3 ltac:(lia))).
  rstep S2. rstep S3. exact S4.
Qed.

(** ** The table *)

Lemma getshm_ret s key x : aget (shmtab s) key = Some x -> getshm key s = Ret x s.
Proof. intros H. unfold getshm. msimp. by rewrite H. Qed.

Lemma modshm_ret s key x f : aget (shmtab s) key = Some x -> modshm key f s = Ret tt (upd_shm key f s).
Proof. intros H. unfold modshm. by rstep (getshm_ret _ _ _ H). Qed.

Lemma aget_upd_shm s key x f :
  aget (shmtab s) key = Some x -> aget (shmtab (upd_shm key f s)) key = Some (f x).
Proof.
  intros [Hk Hx]%aget_Some. apply aget_Some. split; [done|]. simpl. rewrite list_lookup_alter_eq. by rewrite Hx.
Qed.

Definition shm_free (x : sharedmemory) : bool := shm_refcount x =? -1.

(** The state after a block has been made of the page [a], with the memory [m]. *)
Definition shm_created (i : nat) (a : Z) (m : memory) (s : kst) : kst :=
  set_shm_quantity (u16 (shm_quantity s + 1)) (set_shmtab (<[i := mkshm a 0]> (shmtab s))
    (set_mem m (kalloced s))).

(** [clear_page] leaves a memory with the property [P]. *)
Definition clears (a : Z) (s : kst) (P : memory -> Prop) : Prop :=
  forall t, mem t = mem s -> cr3 t = cr3 s -> exists m, clear_page a t = Ret tt (set_mem m t) /\ P m.

Lemma kalloced_same s :
  mem (kalloced s) = mem s /\ cr3 (kalloced s) = cr3 s /\ shmtab (kalloced s) = shmtab s /\
  shm_quantity (kalloced s) = shm_quantity s.
Proof. unfold kalloced. by destruct (_ =? 0). Qed.

Lemma shm_create_ret s i P :
  kmem_lock_ok s -> lk_free L_shmtable (lks s) ->
  shm_quantity s <> MAXSHM -> scan shm_free (shmtab s) = Some i -> clears (freelist s) s P ->
  exists l' m, shm_create s = Ret (Z.of_nat i) (set_lks l' (shm_created i (freelist s) m s)) /\ P m /\ lks_eq (lks s) l'.
Proof.
  intros [Hkf Hc] Hf Hq Hs HP. pose proof Hs as [(x & Hx & Hr) _]%scan_Some.
  apply Z.eqb_eq in Hr. unfold shm_create. rstep (acquire_ret L_shmtable s Hf). set (s1 := set_lks _ s). msimp.
  change (shm_quantity s1) with (shm_quantity s). rewrite (proj2 (Z.eqb_neq _ _) Hq).
  msimp. change (shmtab s1) with (shmtab s). change (fun x => shm_refcount x =? -1) with shm_free. rewrite Hs.
  destruct (kalloc_ret s1) as (l1 & K1 & K2); [split; [by apply lk_acq_free|by apply lk_acq_cli_ok]|]. rstep K1.
  change (freelist s1) with (freelist s). set (a := freelist s) in *.
  assert (Ek : kalloced s1 = set_lks (lk_acq L_shmtable (lks s)) (kalloced s)).
  { unfold kalloced. change (freelist s1) with (freelist s). destruct (freelist s =? 0); done. }
  destruct (kalloced_same s) as (Em & Ec & Et & Eq). rewrite Ek.
  assert (Hg : aget (shmtab (set_lks l1 (set_lks (lk_acq L_shmtable (lks s)) (kalloced s)))) (Z.of_nat i) = Some x).
  { apply aget_Some. rewrite Nat2Z.id. split; [lia|]. simpl. by rewrite Et. }
  rstep (modshm_ret _ _ _ (set_addr a) Hg).
  match goal with |- context [bind (clear_page _) _ ?t] => destruct (HP t Em Ec) as (m & C1 & C2) end. rstep C1.
  match goal with |- context [bind (modshm _ _) _ ?t] => set (s2 := t) end.
  pose proof (modshm_ret s2 (Z.of_nat i) _ (fun x => set_shm_refcount (s32 (shm_refcount x + 1)) x) (aget_upd_shm _ _ _ (set_addr a) Hg)) as M2.
  rstep M2. msimp. match goal with |- context [bind (release L_shmtable) _ ?t] => set (s3 := t) end.
  destruct (release_ret L_shmtable (lks s) s3 K2 Hf Hc) as [R1 R2]. rstep R1. msimp.
  exists (lk_rel L_shmtable (lks s3)), m. split; [|done]. f_equal.
  unfold s3, s2, shm_created, upd_shm. simpl. rewrite Et, Eq, !Nat2Z.id.
  rewrite alter_alter. replace (alter _ i (shmtab s)) with (<[i := mkshm a 0]> (shmtab s)); [done|].
  rewrite (alter_as_insert _ _ _ _ Hx). f_equal. unfold compose, set_shm_refcount, set_addr. simpl. by rewrite Hr.
Qed.

(** A page of the kernel. *)
Lemma clears_page s a : a <> 0 -> clears a s (fun m => m = memset (mem s) a 0 PGSIZE).
Proof.
  intros Ha t Em _. unfold clear_page. rewrite (proj2 (Z.eqb_neq _ _) Ha). unfold setmem. msimp.
  eexists. split; [reflexivity|]. by rewrite Em.
Qed.

(** No page: the address 0 of the process. *)
Lemma clears_null s ph :
  user_buffer s 0 (Z.to_nat PGSIZE) ph ->
  clears 0 s (fun m => stored (mem s) m ph 0 (replicate (Z.to_nat PGSIZE) 0)).
Proof.
  intros Hu t Em Ec. unfold clear_page. change (0 =? 0) with true. cbv iota.
  assert (Hu' : user_buffer t 0 (Z.to_nat PGSIZE) ph).
  { destruct Hu as [H1 H2]. split; [done|]. intros m j Hm Hj. rewrite Em in Hm. rewrite <- (H2 m j Hm Hj).
    unfold translate. simpl. by rewrite Ec. }
  destruct (put_va_buffer t 0 _ ph 0 (replicate (Z.to_nat PGSIZE) 0) Hu') as (m & E & St); [by rewrite length_replicate|].
  rewrite fmap_replicate in St. exists m. split; [exact E|]. by rewrite <- Em.
Qed.

(** Nothing free: the call only takes and gives back its lock. *)
Lemma shm_create_none s :
  lk_free L_shmtable (lks s) -> cli_ok (lks s) ->
  (shm_quantity s = MAXSHM \/ scan shm_free (shmtab s) = None) ->
  exists l', shm_create s = Ret (-1) (set_lks l' s) /\ lks_eq (lks s) l'.
Proof.
  intros Hf Hc Hno. unfold shm_create. rstep (acquire_ret L_shmtable s Hf). set (s1 := set_lks _ s). msimp.
  destruct (release_ret L_shmtable (lks s) s1 ltac:(reflexivity) Hf Hc) as [R1 R2].
  exists (lk_rel L_shmtable (lks s1)). split; [|done].
  change (shm_quantity s1) with (shm_quantity s). destruct (Z.eqb_spec (shm_quantity s) MAXSHM) as [E|E].
  - rstep R1. done.
  - destruct Hno as [|Hno]; [done|]. msimp. change (shmtab s1) with (shmtab s).
    change (fun x => shm_refcount x =? -1) with shm_free. rewrite Hno. rstep R1. done.
Qed.

Lemma shm_created_kmem s i a l :
  kmem_ok kend s (a :: l) -> kmem_ok kend (shm_created i a (memset (mem s) a 0 PGSIZE) s) l.
Proof using Type kend_high.
  intros Hk. pose proof (kmem_ok_kalloced kend kend_high a s l Hk) as Hk'.
  destruct (kalloced_same s) as (Em & _).
  assert (Hw : kmem_ok kend (set_mem (memset (mem (kalloced s)) a 0 PGSIZE) (kalloced s)) l).
  { apply kmem_ok_write; [|done]. intros y Hy.
    destruct (memset_zero (mem (kalloced s)) a) as (_ & Z3 & _). exists a. pose proof Hk as [_ N P].
    apply Forall_cons_1 in P as [P _]. apply NoDup_cons in N as [N _]. auto. }
  destruct Hw as [W1 W2 W3]. rewrite Em in W1. by split.
Qed.

(** C34: [shm_create].  When all blocks are in use it returns -1 and changes nothing.
    Otherwise it takes the first free block and returns its number.  If the
    allocator has a page, the block is that page, filled with zeroes; other
    blocks and all other memory stay as they are.  If it has none, the code does
    not notice: the block has the address 0, and where the first page of the
    process is mapped writable, that page of the process is filled with zeroes
    instead. *)
Theorem shm_create_spec s pages :
  kmem_ok kend s pages -> kmem_lock_ok s -> lk_free L_shmtable (lks s) ->
  match (if shm_quantity s =? MAXSHM then None else scan shm_free (shmtab s)), pages with
  | Some i, a :: l => exists s', shm_create s = Ret (Z.of_nat i) s' /\
      shmtab s' = <[i := mkshm a 0]> (shmtab s) /\ shm_quantity s' = u16 (shm_quantity s + 1) /\
      zero_page (mem s') a /\ (forall y, ~ a <= y < a + 4096 -> mem s' y = mem s y) /\
      kmem_ok kend s' l /\ lks_eq (lks s) (lks s') /\ procs s' = procs s
  | Some i, [] => forall ph, user_buffer s 0 (Z.to_nat PGSIZE) ph ->
      exists s', shm_create s = Ret (Z.of_nat i) s' /\
      shmtab s' = <[i := mkshm 0 0]> (shmtab s) /\ shm_quantity s' = u16 (shm_quantity s + 1) /\
      stored (mem s) (mem s') ph 0 (replicate (Z.to_nat PGSIZE) 0) /\ lks_eq (lks s) (lks s') /\ procs s' = procs s
  | None, _ => exists l', shm_create s = Ret (-1) (set_lks l' s) /\ lks_eq (lks s) l'
  end.
Proof using Type kend_high.
  intros Hk Hl Hf. pose proof Hl as [Hkf Hc].
  destruct (Z.eqb_spec (shm_quantity s) MAXSHM) as [E|E]; [apply shm_create_none; auto|].
  destruct (scan shm_free (shmtab s)) as [i|] eqn:Hs; [|apply shm_create_none; auto].
  pose proof (kmem_list _ _ _ Hk) as Hfl. destruct pages as [|a l].
  - intros ph Hu. simpl in Hfl. pose proof (clears_null s ph Hu) as C. rewrite <- Hfl in C at 1.
    destruct (shm_create_ret s i _ Hl Hf E Hs C) as (l' & m & R1 & R2 & R3). rewrite Hfl in R1.
    exists (set_lks l' (shm_created i 0 m s)). split_and!; try done. simpl. unfold kalloced. by destruct (_ =? 0).
  - destruct Hfl as [Hfl _]. assert (Ha0 : a <> 0) by (eapply page_ok_nonzero; [exact kend_high|];
      pose proof (kmem_pages _ _ _ Hk) as P; by apply Forall_cons_1 in P as [P _]).
    pose proof (clears_page s a Ha0) as C. rewrite <- Hfl in C at 1.
    destruct (shm_create_ret s i _ Hl Hf E Hs C) as (l' & m & R1 & -> & R3). rewrite Hfl in R1. destruct (memset_zero (mem s) a) as (Z1 & Z2 & _).
    exists (set_lks l' (shm_created i a (memset (mem s) a 0 PGSIZE) s)). split_and!; try done.
    + intros y Hy. simpl. destruct (decide (memset (mem s) a 0 PGSIZE y = mem s y)) as [|Hne]; [done|]. by apply Z2 in Hne.
    + by apply kmem_ok_lks, shm_created_kmem.
    + simpl. unfold kalloced. by destruct (_ =? 0).
Qed.

(** ** Attaching *)

Lemma pt_ok_ext s s' pgdir rest l :
  pt_ok kend s pgdir rest l -> mem s' = mem s -> freelist s' = freelist s -> pt_ok kend s' pgdir rest l.
Proof. intros [[K1 K2 K3] H2 H3 H4 H5] Em Ef. split; rewrite ?Em; try done. split; rewrite ?Em, ?Ef; done. Qed.

(** The process with key [key] in slot [i], attached at [va]. *)
Definition shm_attached (i : nat) (key va : Z) (p : proc) : proc :=
  set_p_sz (u32 (p_sz p + PGSIZE)) (set_p_shmref (<[i := va]> (p_shmref p))
    (set_p_shmemquantity (p_shmemquantity p + 1) (set_p_shmem (<[i := key]> (p_shmem p)) p))).

(** The table and the process before the page is mapped. *)
Definition shm_booked (p i : nat) (key : Z) (s : kst) : kst :=
  upd_proc p (fun x => set_p_shmemquantity (p_shmemquantity x + 1) x)
    (upd_proc p (fun x => set_p_shmem (<[i := key]> (p_shmem x)) x)
      (upd_shm key (fun x => set_shm_refcount (s32 (shm_refcount x + 1)) x) s)).

Lemma shm_booked_proc s p pr i key :
  procs s !! p = Some pr -> procs (shm_booked p i key s) !! p =
    Some (set_p_shmemquantity (p_shmemquantity pr + 1) (set_p_shmem (<[i := key]> (p_shmem pr)) pr)).
Proof. intros Hp. unfold shm_booked, upd_proc. simpl. by rewrite !list_lookup_alter_eq, Hp. Qed.

Lemma shm_booked_addr s p i key n y :
  aget (shmtab s) n = Some y -> exists y', aget (shmtab (shm_booked p i key s)) n = Some y' /\ addr y' = addr y.
Proof.
  intros [Hn Hy]%aget_Some. simpl. destruct (decide (Z.to_nat key = Z.to_nat n)) as [E|E].
  - exists (set_shm_refcount (s32 (shm_refcount y + 1)) y). split; [|done]. apply aget_Some. split; [done|].
    by rewrite E, list_lookup_alter_eq, Hy.
  - exists y. split; [|done]. apply aget_Some. split; [done|]. by rewrite list_lookup_alter_ne.
Qed.

(** [shm_get] after the table and the process have been updated. *)
Definition shm_map (p : nat) (pr : proc) (i : nat) (addr_ : Z) : M kst Z :=
  x <- getshm (Z.of_nat i) ;;
  let va := PGROUNDDOWN (p_sz pr) in
  j <- mappages (p_pgdir pr) va PGSIZE (v2p (addr x)) (Z.lor PTE_W PTE_U) ;;
  (if j =? -1 then cprint "mappages error \n" else ret tt) ;;;
  modp p (fun x => set_p_shmref (<[i := va]> (p_shmref x)) x) ;;;
  store32_va addr_ va ;;;
  modp p (fun x => set_p_sz (u32 (p_sz x + PGSIZE)) x) ;;;
  release L_shmtable ;;;
  ret 0.

Lemma shm_get_start s p pr key x i addr_ :
  curproc s = Some p -> procs s !! p = Some pr -> 0 <= key < MAXSHM ->
  aget (shmtab s) key = Some x -> shm_refcount x <> MAXSHMPROC ->
  scan (Z.eqb (-1)) (p_shmem pr) = Some i -> lk_free L_shmtable (lks s) ->
  shm_get key addr_ s = shm_map p pr i addr_ (shm_booked p i key (set_lks (lk_acq L_shmtable (lks s)) s)).
Proof.
  intros Hcp Hp Hkey Hx Hrc Hi Hf.
  unfold shm_get. rstep (acquire_ret L_shmtable s Hf). set (s1 := set_lks _ s). unfold MAXSHM in *.
  rewrite (proj2 (Z.ltb_ge key 0)), (proj2 (Z.ltb_ge 12 key)) by lia. simpl orb. cbv iota.
  assert (Hbad : (x <- getshm key ;; ret (shm_refcount x =? MAXSHMPROC)) s1 = Ret false s1)
    by (rstep (getshm_ret s1 key x Hx); by rewrite (proj2 (Z.eqb_neq _ _) Hrc)).
  rstep Hbad.
  rstep (myproc_ret s1 p Hcp). rstep (getp_ret s1 p pr Hp). rewrite Hi.
  rstep (modshm_ret s1 key x (fun x => set_shm_refcount (s32 (shm_refcount x + 1)) x) Hx).
  erewrite bind_ret by (eapply modp_ret; exact Hp).
  erewrite bind_ret by (eapply modp_ret, (lookup_alter_proc' (procs s)), Hp).
  reflexivity.
Qed.

(** C39: [shm_get] maps, at the end of the process, the page of the block whose
    number is the first free slot [i] of the process, and not the page of the
    block [key] that the process asked for; the reference it counts is that of
    [key].  The two are the same block only when [key = i]. *)
Theorem shm_get_maps_slot s p pr key x i y addr_ q rest l :
  curproc s = Some p -> procs s !! p = Some pr -> 0 <= key < MAXSHM ->
  aget (shmtab s) key = Some x -> shm_refcount x <> MAXSHMPROC ->
  scan (Z.eqb (-1)) (p_shmem pr) = Some i ->
  aget (shmtab s) (Z.of_nat i) = Some y -> page_ok kend (addr y) ->
  pt_ok kend s (p_pgdir pr) rest l -> l <> [] -> kmem_lock_ok s -> lk_free L_shmtable (lks s) ->
  p2v (cr3 s) = p_pgdir pr -> 0 <= p_sz pr < KERNBASE -> p_sz pr mod 4096 = 0 ->
  view (mem s) (p_pgdir pr) (p_sz pr / 4096) = None ->
  0 <= addr_ < KERNBASE -> addr_ mod 4096 <= 4092 -> mapped (mem s) (p_pgdir pr) (addr_ / 4096) q -> q ∈ rest ->
  exists s', shm_get key addr_ s = Ret 0 s' /\
    view (mem s') (p_pgdir pr) (p_sz pr / 4096) = Some (entry (v2p (addr y)) 7) /\
    shmtab s' = alter (fun x => set_shm_refcount (s32 (shm_refcount x + 1)) x) (Z.to_nat key) (shmtab s) /\
    procs s' !! p = Some (shm_attached i key (p_sz pr) pr).
Proof using Type kend_high.
  intros Hcp Hp Hkey Hx Hrc Hi Hy Hpy Hok Hl [Hkf Hc] Hf Hcr Hsz Hal Hno Ha Ham Hmap Hq. unfold KERNBASE in Hsz.
  rewrite (shm_get_start s p pr key x i) by done. set (s1 := set_lks _ s). unfold shm_map.
  destruct (shm_booked_addr s1 p i key (Z.of_nat i) y Hy) as (y' & Hy' & Ey). rstep (getshm_ret _ _ _ Hy').
  rewrite PGROUNDDOWN_page by (unfold is_u32; lia). replace (4096 * (p_sz pr / 4096)) with (p_sz pr) by (Z.div_mod_to_equations; lia).
  cbv zeta. rewrite Ey. destruct (page_p2v kend kend_high (addr y) Hpy) as (_ & Hv2p & Hv2pal).
  pose proof (page_ok_top kend kend_high (addr y) Hpy) as [_ Htop].
  set (s2 := shm_booked p i key s1). assert (Hok2 : pt_ok kend s2 (p_pgdir pr) rest l) by (by apply (pt_ok_ext s)).
  assert (Hpo : pages_of (p_sz pr) PGSIZE = 1) by (unfold pages_of, PGSIZE; Z.div_mod_to_equations; lia).
  destruct (mappages_ok kend kend_high (p_pgdir pr) rest (p_sz pr) PGSIZE (v2p (addr y)) (Z.lor PTE_W PTE_U) s2 l Hok2)
    as (k & s3 & l' & K1 & K2 & (m3 & fl & lk3 & -> & K3) & K4 & K5 & K6 & K7 & K8 & K9);
    [split; [by apply lk_acq_free|by apply lk_acq_cli_ok]|lia|done|unfold PGSIZE; lia|done|unfold is_u32 in Hv2p; lia
    |rewrite Hpo; unfold v2p, KERNBASE, PHYSTOP, PGSIZE, is_u32 in *; Z.div_mod_to_equations; lia|done
    |intros n Hn; assert (n = p_sz pr / 4096) as -> by lia; exact Hno|].
  rewrite Hpo in *. assert (k = 1) as ->.
  { destruct (decide (k = 1)); [done|]. specialize (K7 ltac:(lia)). subst l'. destruct l; [done|]. simpl in K8. lia. }
  rstep K2. change (if 1 =? 1 then 0 else -1) with 0. change (0 =? -1) with false. cbv iota. msimp.
  set (s3 := set_lks lk3 _) in *.
  assert (Hp3 : procs s3 !! p = Some _) by (exact (shm_booked_proc s1 p pr i key Hp)).
  erewrite bind_ret by (eapply modp_ret; exact Hp3). set (s4 := upd_proc p _ s3).
  assert (Hv4 : forall n, 0 <= n < 2 ^ 20 -> view (mem s4) (p_pgdir pr) n =
    extend (view (mem s) (p_pgdir pr)) (p_sz pr / 4096) 1 (v2p (addr y)) 7 n) by (intros n Hn; exact (K9 n Hn)).
  assert (Hav : 0 <= addr_ / 4096 < 2 ^ 20) by (unfold KERNBASE in Ha; Z.div_mod_to_equations; lia).
  assert (Hsv : 0 <= p_sz pr / 4096 < 2 ^ 20) by (Z.div_mod_to_equations; lia).
  destruct (store32_va_ok s4 (p_pgdir pr) rest l' addr_ q (p_sz pr)) as (m5 & T1 & T2 & T3 & T4);
    [by apply (pt_ok_ext s3)|exact Hcr|done|done| |done|].
  { destruct Hmap as (e & He & Hmap). exists e. split; [|done]. rewrite Hv4 by done. unfold extend.
    destruct (Z.leb_spec (p_sz pr / 4096) (addr_ / 4096)), (Z.ltb_spec (addr_ / 4096) (p_sz pr / 4096 + 1)); try done.
    assert (addr_ / 4096 = p_sz pr / 4096) as E by lia. by rewrite E, Hno in He. }
  rstep T1. erewrite bind_ret by (eapply modp_ret, (lookup_alter_proc' (procs s3)), Hp3).
  match goal with |- context [bind (release L_shmtable) _ ?t] => set (s5 := t) end.
  destruct (release_ret L_shmtable (lks s) s5 K3 Hf Hc) as [R1 _]. rstep R1. msimp.
  eexists. split_and!; [reflexivity| |done|].
  - simpl. rewrite T4, Hv4 by done. unfold extend. rewrite Z.leb_refl, (proj2 (Z.ltb_lt _ _)) by lia. simpl. f_equal. f_equal. lia.
  - exact (lookup_alter_proc' _ (fun x => set_p_sz (u32 (p_sz x + PGSIZE)) x) p _
      (lookup_alter_proc' _ (fun x => set_p_shmref (<[i := p_sz pr]> (p_shmref x)) x) p _ Hp3)).
Qed.
End Shm.

(** ** Witnesses *)

(** A process of one page, with the page table at 0x80401000, and two blocks. *)
Definition demo_shm : kst :=
  let s := demo_vm 4 in
  set_shm_quantity 2 (set_shmtab (mkshm 0x80403000 0 :: mkshm 0x80404000 0 :: replicate 10 (mkshm 0 (-1)))
    (set_cr3 (v2p 0x80400000) (set_curproc (Some 0%nat)
      (set_procs [set_p_sz 4096 (set_p_pgdir 0x80400000 (set_p_shmem (replicate 4 (-1)) (set_p_shmref (replicate 4 0) proc0)))]
        (set_mem (store32 (store32 (mem s) 0x80400000 (v2p 0x80401000 + 7)) 0x80401000 (v2p 0x80402000 + 7)) s))))).

Lemma demo_shm_ok :
  pt_ok demo_end demo_shm 0x80400000 [0x80402000; 0x80403000; 0x80404000] (pages 0x80200000 4) /\ kmem_lock_ok demo_shm.
Proof.
  split; [|split; [done|split; simpl; lia]]. apply pt_okb_ok.
  - split; [by vm_compute|eapply bool_decide_eq_true_1; vm_compute; reflexivity|].
    apply forallb_page. vm_compute. reflexivity.
  - apply bytes_store32, bytes_store32, bytes_foldr.
  - vm_compute. reflexivity.
Qed.

Lemma shm_create_spec_witness :
  exists s', shm_create demo_shm = Ret 2 s' /\ zero_page (mem s') 0x80200000.
Proof.
  destruct demo_shm_ok as [[K _ _ _ _] Hl].
  destruct (shm_create_spec demo_end ltac:(done) demo_shm _ K Hl ltac:(done)) as (s' & E & _ & _ & Hz & _).
  exists s'. split; [exact E|exact Hz].
Defined.

(** Asked for block 1, the process gets block 0. *)
Lemma shm_get_maps_slot_witness :
  exists s', shm_get 1 0 demo_shm = Ret 0 s' /\
    view (mem s') 0x80400000 1 = Some (entry (v2p 0x80403000) 7) /\ v2p 0x80403000 <> v2p 0x80404000.
Proof.
  destruct demo_shm_ok as [Hok Hl].
  destruct (shm_get_maps_slot demo_end ltac:(done) demo_shm 0 _ 1 (mkshm 0x80404000 0) 0 (mkshm 0x80403000 0) 0
    0x80402000 [0x80402000; 0x80403000; 0x80404000] (pages 0x80200000 4) eq_refl eq_refl) as (s' & E & Hv & _); [done|done|done|done|done| |exact Hok|done|exact Hl|done|done
    |done|done|vm_compute; reflexivity|done|done| |set_solver|].
  - apply page_okb_ok. vm_compute. reflexivity.
  - exists (v2p 0x80402000 + 7). split_and!; vm_compute; reflexivity.
  - exists s'. split_and!; [exact E|exact Hv|done].
Defined.
