(* ===== verification/Proc.v ===== *)
(** * Processes

    The life of a process in [proc.c]: [allocproc], [userinit], [growproc],
    [fork], [exit], [wait] and [forkret].  The queues and the scheduler are in
    [Sched]. *)

From stdpp Require Import base list numbers strings tactics gmap.
From Stdlib Require Import Lia.
From S2P Require Import Prelude Params StringC FsState KState Spinlock Mmu Kalloc Sched Vm Bio Log Fs Console Pipe File Semaphore SharedMem.

Local Open Scope Z_scope.
Local Open Scope xv6_scope.

(** [safestrcpy(old, new, sizeof old)] *)
Definition setname (old new : list Z) : list Z :=
  (fun i => safestrcpy (two_strings old new) 0 1000 (Z.of_nat (length old)) (Z.of_nat i)) <$> seq 0 (length old).

Definition SEG_UCODE : Z := 4.
Definition SEG_UDATA : Z := 5.
Definition DPL_USER : Z := 3.
Definition FL_IF : Z := 0x200.

(** [sizeof(struct trapframe)] *)
Definition TFSIZE : Z := 76.

Section Proc.
Context `{Disk} `{Devsw}.

(** Linker symbols: the end of the kernel, the start of its data, [trapret] and
    [forkret]; [initcode] is the binary of the first process and its size. *)
Context (kend kdata trapret forkret_addr initcode initcode_size : Z).

(** The trap frame and the saved context are on the kernel stack; they are kept
    in the process itself, with what [allocproc] stores in them. *)
Definition allocproc : M kst (option nat) :=
  acquire L_ptable ;;;
  ps <- gets procs ;;
  match scan (fun p => bool_decide (p_state p = UNUSED)) ps with
  | None =>
      release L_ptable ;;;
      ret None
  | Some p =>
      modp p (set_p_state EMBRYO) ;;;
      n <- gets nextpid ;;
      modp p (set_p_pid n) ;;;
      modify (fun s => set_nextpid (s32 (nextpid s + 1)) s) ;;;
      release L_ptable ;;;
      modp p (set_p_priority 0) ;;;
      k <- kalloc ;;
      modp p (set_p_kstack k) ;;;
      if k =? 0 then
        modp p (set_p_state UNUSED) ;;;
        ret None
      else
      setmem (fun m => store32 m (k + KSTACKSIZE - TFSIZE - 4) trapret) ;;;
      modp p (set_p_context (mkcontext 0 0 0 0 forkret_addr)) ;;;
      ret (Some p)
  end.

(** [growproc] *)
Definition growproc (n : Z) : M kst Z :=
  p <- myproc ;;
  pr <- getp p ;;
  let sz := p_sz pr in
  r <- (if 0 <? n then
          sz <- allocuvm kend (p_pgdir pr) sz (u32 (sz + n)) ;;
          ret (if sz =? 0 then None else Some sz)
        else if n <? 0 then
          sz <- deallocuvm kend (p_pgdir pr) sz (u32 (sz + n)) ;;
          ret (if sz =? 0 then None else Some sz)
        else ret (Some sz)) ;;
  match r with
  | None => ret (-1)
  | Some sz =>
      modp p (set_p_sz sz) ;;;
      switchuvm p ;;;
      ret 0
  end.

Definition user_tf : trapframe :=
  let cs := Z.lor (Z.shiftl SEG_UCODE 3) DPL_USER in
  let ds := Z.lor (Z.shiftl SEG_UDATA 3) DPL_USER in
  mktf 0 0 0 0 0 0 0 0 0 0 ds ds 0 0 0 cs FL_IF PGSIZE ds.

Definition userinit : M kst unit :=
  o <- allocproc ;;
  modify (set_initproc o) ;;;
  p <- deref o ;;
  d <- setupkvm kdata ;;
  modp p (set_p_pgdir d) ;;;
  if d =? 0 then panic "userinit: out of memory?" else
  inituvm d initcode initcode_size ;;;
  modp p (set_p_sz PGSIZE) ;;;
  modp p (set_p_tf user_tf) ;;;
  modp p (fun x => set_p_name (setname (p_name x) (chars "initcode")) x) ;;;
  cwd <- namei [SLASH] ;;
  modp p (set_p_cwd cwd) ;;;
  makerunnable p 0.

(** [for(i = 0; i < NOFILE; i++) if(proc->ofile[i]) np->ofile[i] = filedup(proc->ofile[i]);] *)
Fixpoint dup_files (n : nat) (i : nat) (p np : nat) : M kst unit :=
  match n with
  | O => ret tt
  | S n =>
      pr <- getp p ;;
      o <- deref (p_ofile pr !! i) ;;
      (match o with
       | Some f => f <- filedup f ;; modp np (fun x => set_p_ofile (<[i := Some f]> (p_ofile x)) x)
       | None => ret tt
       end) ;;;
      dup_files n (S i) p np
  end.

Definition fork : M kst Z :=
  o <- allocproc ;;
  match o with
  | None => ret (-1)
  | Some np =>
      p <- myproc ;;
      pr <- getp p ;;
      d <- copyuvm kend kdata (p_pgdir pr) (p_sz pr) ;;
      modp np (set_p_pgdir d) ;;;
      if d =? 0 then
        x <- getp np ;;
        kfree kend (p_kstack x) ;;;
        modp np (set_p_state UNUSED) ;;;
        ret (-1)
      else
      modp np (set_p_sz (p_sz pr)) ;;;
      modp np (set_p_parent (Some p)) ;;;
      modp np (set_p_tf (set_tf_eax 0 (p_tf pr))) ;;;
      dup_files (Z.to_nat NOFILE) 0 p np ;;;
      pr <- getp p ;;
      cwd <- deref (p_cwd pr) ;;
      cwd <- idup cwd ;;
      modp np (set_p_cwd (Some cwd)) ;;;
      x <- getp np ;;
      let pid := p_pid x in
      modp np (set_p_shmem (replicate (Z.to_nat MAXSHMPROC) (-1))) ;;;
      makerunnable np 0 ;;;
      pr <- getp p ;;
      modp np (fun x => set_p_name (setname (p_name x) (p_name pr)) x) ;;;
      ret pid
  end.

(** The loops of [exit] over the open files, the semaphores and the shared
    pages of the process. *)
Fixpoint close_files (n : nat) (fd : nat) (p : nat) : M kst unit :=
  match n with
  | O => ret tt
  | S n =>
      pr <- getp p ;;
      o <- deref (p_ofile pr !! fd) ;;
      (match o with
       | Some f =>
           fileclose kend f ;;;
           modp p (fun x => set_p_ofile (<[fd := None]> (p_ofile x)) x)
       | None => ret tt
       end) ;;;
      close_files n (S fd) p
  end.

Fixpoint free_sems (n : nat) (sd : nat) (p : nat) : M kst unit :=
  match n with
  | O => ret tt
  | S n =>
      pr <- getp p ;;
      o <- deref (p_procsem pr !! sd) ;;
      (match o with
       | Some t => semfree (Z.of_nat t) ;;; ret tt
       | None => ret tt
       end) ;;;
      free_sems n (S sd) p
  end.

Fixpoint close_shms (n : nat) (i : nat) (p : nat) : M kst unit :=
  match n with
  | O => ret tt
  | S n =>
      pr <- getp p ;;
      k <- deref (p_shmem pr !! i) ;;
      (if negb (k =? -1) then shm_close kend k ;;; ret tt else ret tt) ;;;
      close_shms n (S i) p
  end.

(** The address of a process as a sleep channel. *)
Definition chan_of (o : option nat) : chan := match o with Some p => CProc p | None => CNull end.

(** Abandoned children are passed to init. *)
Fixpoint reparent (ps : list nat) (p : nat) : M kst unit :=
  match ps with
  | [] => ret tt
  | c :: ps =>
      x <- getp c ;;
      (if bool_decide (p_parent x = Some p) then
         i <- gets initproc ;;
         modp c (set_p_parent i) ;;;
         if bool_decide (p_state x = ZOMBIE) then wakeup1 (chan_of i) else ret tt
       else ret tt) ;;;
      reparent ps p
  end.

(** Everything of [exit] before it takes the process table lock. *)
Definition exit_close (p : nat) : M kst unit :=
  close_files (Z.to_nat NOFILE) 0 p ;;;
  free_sems (Z.to_nat MAXSEMPROC) 0 p ;;;
  modp p (set_p_semquantity 0) ;;;
  begin_trans ;;;
  pr <- getp p ;;
  cwd <- deref (p_cwd pr) ;;
  iput cwd ;;;
  commit_trans ;;;
  modp p (set_p_cwd None) ;;;
  close_shms (Z.to_nat MAXSHMPROC) 0 p ;;;
  modp p (set_p_shmemquantity 0).

Definition exit_finish (p : nat) : M kst unit :=
  acquire L_ptable ;;;
  pr <- getp p ;;
  wakeup1 (chan_of (p_parent pr)) ;;;
  reparent (seq 0 (Z.to_nat NPROC)) p ;;;
  modp p (set_p_state ZOMBIE) ;;;
  sched ;;;
  panic "zombie exit".

Definition exit : M kst unit :=
  p <- myproc ;;
  i <- gets initproc ;;
  if bool_decide (i = Some p) then panic "init exiting" else
  exit_close p ;;;
  exit_finish p.

Definition is_child (p : nat) (x : proc) : bool := bool_decide (p_parent x = Some p).
Definition is_zombie (x : proc) : bool := bool_decide (p_state x = ZOMBIE).

(** The fields [wait] resets when it frees a process. *)
Definition reaped (x : proc) : proc :=
  set_p_killed 0 (set_p_name (<[0%nat := 0]> (p_name x))
    (set_p_parent None (set_p_pid 0 (set_p_state UNUSED x)))).

Fixpoint wait_loop (fuel : nat) : M kst Z :=
  p <- myproc ;;
  ps <- gets procs ;;
  match scan (fun x => is_child p x && is_zombie x) ps with
  | Some c =>
      x <- getp c ;;
      let pid := p_pid x in
      kfree kend (p_kstack x) ;;;
      modp c (set_p_kstack 0) ;;;
      freevm kend (p_pgdir x) ;;;
      modp c reaped ;;;
      release L_ptable ;;;
      ret pid
  | None =>
      pr <- getp p ;;
      if negb (existsb (is_child p) ps) || negb (p_killed pr =? 0) then
        release L_ptable ;;;
        ret (-1)
      else
      match fuel with
      | O => outoffuel
      | S fuel =>
          sleep (CProc p) (Some L_ptable) ;;;
          wait_loop fuel
      end
  end.

Definition wait : M kst Z := acquire L_ptable ;;; wait_loop waits.

(** [first] is the static variable of [forkret]. *)
Definition forkret (first : bool) : M kst bool :=
  release L_ptable ;;;
  if first then initlog ;;; ret false else ret false.

End Proc.
