(* ===== verification/Exec.v ===== *)
(** * Loading programs

    [exec.c] and [loaduvm] of [vm.c].  The path and the argument strings are
    lists of bytes, without the terminating zero. *)

From stdpp Require Import base list numbers strings tactics gmap.
From Stdlib Require Import Lia.
From S2P Require Import Prelude Params StringC FsState KState Spinlock Mmu Kalloc Sched Vm Bio Log Fs Console Proc.

Local Open Scope Z_scope.
Local Open Scope xv6_scope.

(** ** elf.h *)
Definition ELF_MAGIC : Z := 0x464C457F.
Definition ELFHDR : Z := 52.
Definition PROGHDR : Z := 32.
Definition ELF_PROG_LOAD : Z := 1.

(** [struct elfhdr] *)
Definition elf_magic (d : list Z) : Z := rd32 d 0.
Definition elf_entry (d : list Z) : Z := rd32 d 24.
Definition elf_phoff (d : list Z) : Z := rd32 d 28.
Definition elf_phnum (d : list Z) : Z := rd16 d 44.

(** [struct proghdr] *)
Definition ph_type (d : list Z) : Z := rd32 d 0.
Definition ph_off (d : list Z) : Z := rd32 d 4.
Definition ph_vaddr (d : list Z) : Z := rd32 d 8.
Definition ph_filesz (d : list Z) : Z := rd32 d 16.
Definition ph_memsz (d : list Z) : Z := rd32 d 20.

Definition bytes32 (z : Z) : list Z := [u8 z; u8 (z / 2 ^ 8); u8 (z / 2 ^ 16); u8 (z / 2 ^ 24)].

Section Exec.
Context `{Disk} `{Devsw} (kend kdata : Z).

(** [for(i = 0; i < sz; i += PGSIZE)] *)
Fixpoint loaduvm_loop (k : nat) (pgdir addr : Z) (ip : nat) (offset i sz : Z) : M kst Z :=
  match k with
  | O => outoffuel
  | S k =>
      if i <? sz then
        pte <- walkpgdir pgdir (u32 (addr + i)) false ;;
        if pte =? 0 then panic "loaduvm: address should exist" else
        e <- getmem pte ;;
        let n := if sz - i <? PGSIZE then sz - i else PGSIZE in
        ' (r, _) <- readi ip (ToMem (p2v (PTE_ADDR e))) (u32 (offset + i)) n ;;
        if negb (r =? n) then ret (-1) else
        loaduvm_loop k pgdir addr ip offset (u32 (i + PGSIZE)) sz
      else ret 0
  end.

Definition loaduvm (pgdir addr : Z) (ip : nat) (offset sz : Z) : M kst Z :=
  if negb (addr mod PGSIZE =? 0) then panic "loaduvm: addr must be page aligned" else
  loaduvm_loop (S (Z.to_nat ((sz + PGSIZE - 1) / PGSIZE))) pgdir addr ip offset 0 sz.

(** The program headers; [None] for [goto bad]. *)
Fixpoint load_segments (n : nat) (ip : nat) (pgdir off sz : Z) : M kst (option Z) :=
  match n with
  | O => ret (Some sz)
  | S n =>
      ' (r, ph) <- readi ip ToLocal (u32 off) PROGHDR ;;
      if negb (r =? PROGHDR) then ret None else
      if negb (ph_type ph =? ELF_PROG_LOAD) then load_segments n ip pgdir (s32 (off + PROGHDR)) sz else
      if ph_memsz ph <? ph_filesz ph then ret None else
      sz <- allocuvm kend pgdir sz (u32 (ph_vaddr ph + ph_memsz ph)) ;;
      if sz =? 0 then ret None else
      r <- loaduvm pgdir (ph_vaddr ph) ip (ph_off ph) (ph_filesz ph) ;;
      if r <? 0 then ret None else
      load_segments n ip pgdir (s32 (off + PROGHDR)) sz
  end.

(** The argument strings, copied from the top of the stack down; the addresses
    are [ustack[3+argc]]. *)
Fixpoint push_args (argv : list (list Z)) (argc pgdir sp : Z) (us : list Z) : M kst (option (Z * list Z)) :=
  match argv with
  | [] => ret (Some (sp, us))
  | a :: argv =>
      if MAXARG <=? argc then ret None else
      let sp := Z.land (u32 (sp - (Z.of_nat (length a) + 1))) (u32 (Z.lnot 3)) in
      r <- copyout pgdir sp (a ++ [0]) ;;
      if r <? 0 then ret None else
      push_args argv (argc + 1) pgdir sp (us ++ [sp])
  end.

(** The words of [ustack]. *)
Definition ustack (argc sp : Z) (us : list Z) : list Z :=
  0xffffffff :: argc :: u32 (sp - (argc + 1) * 4) :: us ++ [0].

(** The name after the last slash. *)
Fixpoint last_elem (last s : list Z) : list Z :=
  match s with
  | [] => last
  | c :: s => last_elem (if c =? SLASH then s else last) s
  end.

(** [bad]: what has been taken is given back. *)
Definition exec_bad (pgdir : Z) (ip : option nat) : M kst Z :=
  (if negb (pgdir =? 0) then freevm kend pgdir else ret tt) ;;;
  (match ip with Some ip => iunlockput ip | None => ret tt end) ;;;
  ret (-1).

(** After the segments: the stack, and the switch to the new image. *)
Definition exec_commit (path : list Z) (argv : list (list Z)) (pgdir sz entry : Z) : M kst Z :=
  let sz := PGROUNDUP sz in
  sz <- allocuvm kend pgdir sz (u32 (sz + 2 * PGSIZE)) ;;
  if sz =? 0 then exec_bad pgdir None else
  clearpteu pgdir (u32 (sz - 2 * PGSIZE)) ;;;
  o <- push_args argv 0 pgdir sz [] ;;
  match o with
  | None => exec_bad pgdir None
  | Some (sp, us) =>
      let argc := Z.of_nat (length us) in
      let w := ustack argc sp us in
      let sp := u32 (sp - (3 + argc + 1) * 4) in
      r <- copyout pgdir sp (w ≫= bytes32) ;;
      if r <? 0 then exec_bad pgdir None else
      p <- myproc ;;
      modp p (fun x => set_p_name (setname (p_name x) (last_elem path path)) x) ;;;
      pr <- getp p ;;
      modp p (set_p_pgdir pgdir) ;;;
      modp p (set_p_sz sz) ;;;
      modp p (fun x => set_p_tf (set_tf_esp sp (set_tf_eip entry (p_tf x))) x) ;;;
      switchuvm p ;;;
      freevm kend (p_pgdir pr) ;;;
      ret 0
  end.

(** The result of [readi] is compared with a [sizeof] as an unsigned number: a
    negative one passes, and the header is not initialised. *)
Definition exec (path : list Z) (argv : list (list Z)) : M kst Z :=
  o <- namei path ;;
  match o with
  | None => ret (-1)
  | Some ip =>
      ilock (Some ip) ;;;
      ' (r, elf) <- readi ip ToLocal 0 ELFHDR ;;
      if u32 r <? ELFHDR then exec_bad 0 (Some ip) else
      if r <? 0 then stuck "uninitialised ELF header" else
      if negb (elf_magic elf =? ELF_MAGIC) then exec_bad 0 (Some ip) else
      pgdir <- setupkvm kdata ;;
      if pgdir =? 0 then exec_bad 0 (Some ip) else
      o <- load_segments (Z.to_nat (elf_phnum elf)) ip pgdir (s32 (elf_phoff elf)) 0 ;;
      match o with
      | None => exec_bad pgdir (Some ip)
      | Some sz =>
          iunlockput ip ;;;
          exec_commit path argv pgdir sz (elf_entry elf)
      end
  end.

End Exec.
