(* ===== verification/Syscall.v ===== *)
(** * System call arguments, and the calls of [sysproc.c]

    The argument checks of [syscall.c], and the system calls about processes,
    time, semaphores ([sysproc.c]) and shared memory ([syssharedmem.c]).  An
    argument that cannot be fetched ([-1]) is [None]. *)

From stdpp Require Import base list numbers strings tactics gmap.
From Stdlib Require Import Lia.
From S2P Require Import Prelude Params StringC FsState KState Spinlock Mmu Kalloc Sched Vm Bio Log Fs Console Pipe File Semaphore SharedMem Proc.

Local Open Scope Z_scope.
Local Open Scope xv6_scope.

(** ** syscall.c *)

Definition curp : M kst proc := p <- myproc ;; getp p.

Definition fetchint (addr : Z) : M kst (option Z) :=
  pr <- curp ;;
  if (p_sz pr <=? addr) || (p_sz pr <? u32 (addr + 4)) then ret None else
  w <- load32_va addr ;;
  ret (Some (s32 w)).

(** The bytes before the first zero among the [n] ones from [s] on. *)
Fixpoint fetchstr_loop (n : nat) (s : Z) (acc : list Z) : M kst (option (list Z)) :=
  match n with
  | O => ret None
  | S n =>
      c <- load8_va s ;;
      if c =? 0 then ret (Some acc) else fetchstr_loop n (u32 (s + 1)) (acc ++ [c])
  end.

(** The string itself; the C function sets a pointer to it. *)
Definition fetchstr (addr : Z) : M kst (option (list Z)) :=
  pr <- curp ;;
  if p_sz pr <=? addr then ret None else
  fetchstr_loop (Z.to_nat (p_sz pr - addr)) addr [].

Definition argint (n : Z) : M kst (option Z) :=
  pr <- curp ;;
  fetchint (u32 (tf_esp (p_tf pr) + 4 + 4 * n)).

Definition argptr (n size : Z) : M kst (option Z) :=
  o <- argint n ;;
  match o with
  | None => ret None
  | Some i =>
      pr <- curp ;;
      if (p_sz pr <=? u32 i) || (p_sz pr <? u32 (i + size)) then ret None else ret (Some (u32 i))
  end.

Definition argstr (n : Z) : M kst (option (list Z)) :=
  o <- argint n ;;
  match o with
  | None => ret None
  | Some addr => fetchstr (u32 addr)
  end.

(** [if(arg < 0) return -1;] *)
Definition orfail {A} (m : M kst (option A)) (k : A -> M kst Z) : M kst Z :=
  o <- m ;;
  match o with
  | None => ret (-1)
  | Some a => k a
  end.

(** ** sysproc.c *)

Section Sysproc.
Context `{Disk} `{Devsw} (kend kdata trapret forkret_addr : Z).

Definition sys_fork : M kst Z := fork kend kdata trapret forkret_addr.
Definition sys_exit : M kst Z := exit kend ;;; ret 0.
Definition sys_wait : M kst Z := wait kend.
Definition sys_kill : M kst Z := orfail (argint 0) kill.
Definition sys_getpid : M kst Z := pr <- curp ;; ret (p_pid pr).

Definition sys_sbrk : M kst Z :=
  orfail (argint 0) (fun n =>
    pr <- curp ;;
    r <- growproc kend n ;;
    if r <? 0 then ret (-1) else ret (s32 (p_sz pr))).

(** [while(ticks - ticks0 < n)]: the comparison is unsigned. *)
Fixpoint sleep_ticks (fuel : nat) (ticks0 n : Z) : M kst Z :=
  t <- gets ticks ;;
  if u32 (t - ticks0) <? u32 n then
    k <- is_killed ;;
    if k then release L_tickslock ;;; ret (-1) else
    match fuel with
    | O => outoffuel
    | S fuel => sleep CTicks (Some L_tickslock) ;;; sleep_ticks fuel ticks0 n
    end
  else
    release L_tickslock ;;;
    ret 0.

Definition sys_sleep : M kst Z :=
  orfail (argint 0) (fun n =>
    acquire L_tickslock ;;;
    ticks0 <- gets ticks ;;
    sleep_ticks waits ticks0 n).

Definition sys_uptime : M kst Z :=
  acquire L_tickslock ;;;
  xticks <- gets ticks ;;
  release L_tickslock ;;;
  ret (s32 xticks).

Definition sys_procstat : M kst Z := procdump ;;; ret 0.

(** The result of [argint] is not tested: without it [pr] is not initialised. *)
Definition sys_set_priority : M kst Z :=
  o <- argint 0 ;;
  pr <- deref o ;;
  p <- myproc ;;
  modp p (set_p_priority pr) ;;;
  ret 0.

Definition sys_semget : M kst Z :=
  orfail (argint 1) (fun init_value => orfail (argint 0) (fun semid => semget semid init_value)).
Definition sys_semfree : M kst Z := orfail (argint 0) semfree.
Definition sys_semdown : M kst Z := orfail (argint 0) (semdown waits).
Definition sys_semup : M kst Z := orfail (argint 0) semup.

(** ** syssharedmem.c *)

(** When [argint] fails [size] is not initialised, and the answer depends on
    it. *)
Definition sys_shm_create : M kst Z :=
  o <- argint 0 ;;
  _ <- deref o ;;
  shm_create.

Definition sys_shm_get : M kst Z :=
  pr <- curp ;;
  if MAXSHMPROC <=? p_shmemquantity pr then ret (-1) else
  orfail (argint 0) (fun k =>
    o <- argint 1 ;;
    r <- shm_get k (u32 (default 0 o)) ;;
    ret (if r =? 0 then 0 else -1)).

Definition sys_shm_close : M kst Z :=
  orfail (argint 0) (fun k =>
    r <- shm_close kend k ;;
    ret (if r =? 0 then 0 else -1)).

End Sysproc.
