(* ===== verification/SyscallThm.v ===== *)
(** * System call arguments stay inside the process

    The checks of [syscall.c] on the numbers, pointers and strings that a process
    passes to the kernel. *)

From stdpp Require Import base list numbers strings tactics gmap.
From Stdlib Require Import Lia.
From S2P Require Import Prelude Params StringC FsState KState Spinlock Mmu Kalloc Sched Pipe PipeThm Syscall.

Local Open Scope Z_scope.
Local Open Scope xv6_scope.

(** The current process is [pr], and its memory is mapped. *)
Record user_ok (s : kst) (pr : proc) : Prop := mkuser {
  us_cur : exists i, curproc s = Some i /\ procs s !! i = Some pr;
  us_sz : 0 <= p_sz pr <= KERNBASE;
  us_mapped : forall va, 0 <= va < p_sz pr -> is_Some (peek8 s va)
}.

Lemma curp_ret s pr : user_ok s pr -> curp s = Ret pr s.
Proof. intros [(i & H1 & H2) _ _]. unfold curp. rstep (myproc_ret _ _ H1). by apply getp_ret. Qed.

Lemma peek32_mapped s pr a :
  user_ok s pr -> 0 <= a -> a + 4 <= p_sz pr -> is_Some (peek32 s a).
Proof.
  intros [_ H2 H3] Ha Hs. unfold peek32, KERNBASE in *. rewrite !u32_small by (unfold is_u32; lia).
  destruct (H3 a) as [? E0]; [lia|]. destruct (H3 (a + 1)) as [? E1]; [lia|].
  destruct (H3 (a + 2)) as [? E2]; [lia|]. destruct (H3 (a + 3)) as [? E3]; [lia|]. rewrite E0, E1, E2, E3. by eexists.
Qed.

(** [fetchint] answers, and reads only inside the process. *)
Lemma fetchint_ok s pr a :
  user_ok s pr -> 0 <= a < 2 ^ 32 ->
  fetchint a s = Ret (if a + 4 <=? p_sz pr then s32 <$> peek32 s a else None) s /\
  (a + 4 <= p_sz pr -> is_Some (peek32 s a)).
Proof.
  intros Hu Ha. pose proof (us_sz _ _ Hu) as Hz. unfold KERNBASE in Hz. split; [|intros; eapply peek32_mapped; [done|lia|done]].
  unfold fetchint. rstep (curp_ret _ _ Hu). destruct (Z.leb_spec (p_sz pr) a) as [H1|H1]; simpl.
  { by rewrite (proj2 (Z.leb_gt _ _)) by lia. }
  rewrite u32_small by (unfold is_u32; lia). destruct (Z.ltb_spec (p_sz pr) (a + 4)) as [H2|H2].
  { by rewrite (proj2 (Z.leb_gt _ _)) by lia. }
  rewrite (proj2 (Z.leb_le _ _)) by lia. destruct (peek32_mapped s pr a Hu) as [w Hw]; [lia..|].
  unfold bind. rewrite load32_va_peek, Hw. done.
Qed.

(** The words of the user's stack. *)
Definition stack_word (s : kst) (pr : proc) (n : Z) : option Z :=
  let a := u32 (tf_esp (p_tf pr) + 4 + 4 * n) in
  if a + 4 <=? p_sz pr then s32 <$> peek32 s a else None.

Lemma argint_ok s pr n : user_ok s pr -> argint n s = Ret (stack_word s pr n) s.
Proof.
  intros Hu. unfold argint. rstep (curp_ret _ _ Hu). apply (fetchint_ok _ _ _ Hu). apply u32_range.
Qed.

(** The bytes [bs] and a zero byte at [a]. *)
Definition cstring_at (s : kst) (a : Z) (bs : list Z) : Prop :=
  Forall (fun c => c <> 0) bs /\ forall i c, (bs ++ [0]) !! i = Some c -> peek8 s (a + Z.of_nat i) = Some c.

Lemma fetchstr_loop_ok n s pr a acc :
  user_ok s pr -> 0 <= a -> a + Z.of_nat n = p_sz pr ->
  exists r, fetchstr_loop n a acc s = Ret r s /\
    match r with
    | Some bs => exists l, bs = acc ++ l /\ cstring_at s a l /\ Z.of_nat (length l) < Z.of_nat n
    | None => forall i, 0 <= i < Z.of_nat n -> peek8 s (a + i) <> Some 0
    end.
Proof.
  intros Hu. revert a acc. induction n as [|n IH]; intros a acc Ha Hn; simpl.
  { exists None. split; [done|]. intros i Hi. lia. }
  pose proof (us_sz _ _ Hu) as Hz. unfold KERNBASE in Hz. destruct (us_mapped _ _ Hu a) as [c Hc]; [lia|].
  assert (Hl : load8_va a s = Ret c s) by by rewrite load8_va_peek, Hc. rstep Hl. destruct (Z.eqb_spec c 0) as [->|Hne].
  - exists (Some acc). split; [done|]. exists []. rewrite app_nil_r. split_and!; [done| |simpl; lia].
    split; [done|]. intros [|i] x Hx; simplify_eq/=. by rewrite Z.add_0_r.
  - rewrite u32_small by (unfold is_u32; lia). destruct (IH (a + 1) (acc ++ [c])) as (r & E & Hr); [lia..|].
    exists r. split; [done|]. destruct r as [bs|].
    + destruct Hr as (l & -> & [L1 L2] & L3). exists (c :: l). rewrite <- (assoc_L app). split_and!; [done| |simpl; lia].
      split; [by constructor|]. intros [|i] x Hx; simplify_eq/=; [by rewrite Z.add_0_r|].
      rewrite <- (L2 i x Hx). f_equal. lia.
    + intros i Hi. destruct (decide (i = 0)) as [->|]; [rewrite Z.add_0_r; congruence|].
      replace (a + i) with (a + 1 + (i - 1)) by lia. apply Hr. lia.
Qed.

(** C17: The arguments of a system call never take the kernel outside the memory
    of the process.  Let every address below the size of the process be mapped,
    as [allocuvm] leaves it.  Then for any stack pointer and any contents of the
    stack, [argint], [argptr] and [argstr] return without a page fault and
    change nothing; a number comes from a stack word inside the process; a
    pointer that [argptr] accepts is an address of the process and, for a
    [size] that is not negative, has all [size] bytes inside the process; and a
    string that [argstr] accepts lies with its final zero byte inside the
    process, while a string it refuses has a bad address or no zero byte before
    the end of the process. *)
Theorem args_inside s pr n size :
  user_ok s pr -> - 2 ^ 31 <= size < 2 ^ 31 ->
  argint n s = Ret (stack_word s pr n) s /\
  (exists r, argptr n size s = Ret r s /\
     forall a, r = Some a -> (u32 <$> stack_word s pr n) = Some a /\ 0 <= a < p_sz pr /\
       (0 <= size -> a + size <= p_sz pr)) /\
  (exists r, argstr n s = Ret r s /\
     match r with
     | Some bs => exists a, (u32 <$> stack_word s pr n) = Some a /\ cstring_at s a bs /\
         0 <= a /\ a + Z.of_nat (length bs) < p_sz pr
     | None => forall a, (u32 <$> stack_word s pr n) = Some a ->
         p_sz pr <= a \/ forall va, a <= va < p_sz pr -> peek8 s va <> Some 0
     end).
Proof.
  intros Hu Hs. pose proof (us_sz _ _ Hu) as Hz. unfold KERNBASE in Hz. pose proof (argint_ok s pr n Hu) as Ha.
  split_and!; [done| |].
  - unfold argptr. rstep Ha. destruct (stack_word s pr n) as [i|]; [|by exists None].
    rstep (curp_ret _ _ Hu). pose proof (u32_range i) as Hi. rewrite <- (u32_add_l i). unfold is_u32 in Hi.
    destruct (Z.leb_spec (p_sz pr) (u32 i)) as [H1|H1]; simpl; [by exists None|].
    destruct (Z.ltb_spec (p_sz pr) (u32 (u32 i + size))) as [H2|H2]; [by exists None|].
    eexists. split; [done|]. intros a [= <-]. split_and!; [done|lia..|]. intros Hpos.
    by rewrite (u32_small (_ + _)) in H2 by (unfold is_u32; lia).
  - unfold argstr. rstep Ha. destruct (stack_word s pr n) as [i|]; [|by exists None].
    unfold fetchstr. rstep (curp_ret _ _ Hu). pose proof (u32_range i) as Hi. unfold is_u32 in Hi. simpl.
    destruct (Z.leb_spec (p_sz pr) (u32 i)) as [H1|H1].
    { exists None. split; [done|]. intros a [= <-]. by left. }
    destruct (fetchstr_loop_ok (Z.to_nat (p_sz pr - u32 i)) s pr (u32 i) [] Hu) as (r & E & Hr); [lia..|].
    exists r. split; [done|]. destruct r as [bs|].
    + destruct Hr as (l & -> & L1 & L2). exists (u32 i). split_and!; [done|done|lia|simpl; lia].
    + intros a [= <-]. right. intros va Hva. replace va with (u32 i + (va - u32 i)) by lia. apply Hr. lia.
Qed.

Lemma translate_read s va pde pte :
  va < KERNBASE -> load32 (mem s) (p2v (cr3 s) + 4 * PDX va) = pde -> bset pde PTE_P = true ->
  load32 (mem s) (p2v (PTE_ADDR pde) + 4 * PTX va) = pte -> bset pte PTE_P = true ->
  translate s false va = Some (p2v (PTE_ADDR pte) + va mod PGSIZE).
Proof.
  intros Hva <- Hp <- Hq. unfold translate, hw_pte. rewrite (proj2 (Z.leb_gt _ _)) by done. by rewrite Hp, Hq.
Qed.

(** The process of a system with one page of user memory. *)
Definition demo_caller : proc := set_p_sz 4096 (demo_proc RUNNING 0 1 CNull None).
Definition demo_user : kst := set_procs (<[0%nat := demo_caller]> (procs demo_piped)) demo_piped.

Lemma demo_user_ok : user_ok demo_user demo_caller.
Proof.
  split; [by exists 0%nat|by vm_compute|]. intros va Hva. change (p_sz demo_caller) with 4096 in Hva.
  unfold peek8. apply fmap_is_Some. erewrite (translate_read _ _ 0x401007 0x402007); [by eexists| | |done| |done].
  - unfold KERNBASE. lia.
  - replace (PDX va) with 0; [by vm_compute|]. unfold PDX. rewrite u32_small by (unfold is_u32; lia).
    rewrite Z.shiftr_div_pow2 by done. by rewrite Z.div_small by (unfold PDXSHIFT, PTXSHIFT; lia).
  - replace (PTX va) with 0; [by vm_compute|]. unfold PTX. rewrite u32_small by (unfold is_u32; lia).
    rewrite Z.shiftr_div_pow2 by done. by rewrite Z.div_small by (unfold PDXSHIFT, PTXSHIFT; lia).
Qed.

Lemma args_inside_witness :
  argint 0 demo_user = Ret (Some 0) demo_user /\
  exists r, argptr 0 100 demo_user = Ret r demo_user /\
     forall a, r = Some a -> 0 <= a /\ a + 100 <= 4096.
Proof.
  destruct (args_inside demo_user demo_caller 0 100 demo_user_ok ltac:(lia)) as (H1 & (r & H2 & H3) & _).
  split; [rewrite H1; by vm_compute|]. exists r. split; [exact H2|]. intros a Ha. destruct (H3 a Ha) as (_ & G1 & G2).
  split; [exact (proj1 G1)|]. apply G2. lia.
Defined.
