(* ===== verification/Sysfile.v ===== *)
(** * The file system calls

    [sysfile.c].  A path argument is the list of its bytes. *)

From stdpp Require Import base list numbers strings tactics gmap.
From Stdlib Require Import Lia.
From S2P Require Import Prelude Params StringC FsState KState Spinlock Mmu Kalloc Sched Vm Bio Log Fs Console Pipe File Proc Exec Syscall.

Local Open Scope Z_scope.
Local Open Scope xv6_scope.

Definition SEEK_SET : Z := 0.
Definition SEEK_CUR : Z := 1.
Definition SEEK_END : Z := 2.

(** The descriptor and the file. *)
Definition argfd (n : Z) : M kst (option (Z * nat)) :=
  o <- argint n ;;
  match o with
  | None => ret None
  | Some fd =>
      if (fd <? 0) || (NOFILE <=? fd) then ret None else
      pr <- curp ;;
      o <- deref (aget (p_ofile pr) fd) ;;
      match o with
      | None => ret None
      | Some f => ret (Some (fd, f))
      end
  end.

Definition fdalloc (f : nat) : M kst (option Z) :=
  p <- myproc ;;
  pr <- getp p ;;
  match scan (fun o => bool_decide (o = None)) (p_ofile pr) with
  | Some fd =>
      modp p (fun x => set_p_ofile (<[fd := Some f]> (p_ofile x)) x) ;;;
      ret (Some (Z.of_nat fd))
  | None => ret None
  end.

(** [proc->ofile[fd] = 0] *)
Definition clear_fd (fd : Z) : M kst unit :=
  p <- myproc ;;
  modp p (fun x => set_p_ofile (aset (p_ofile x) fd None) x).

Section Sysfile.
Context `{Disk} `{Devsw} (kend kdata : Z).

Definition sys_dup : M kst Z :=
  orfail (argfd 0) (fun '(_, f) =>
    orfail (fdalloc f) (fun fd =>
      filedup f ;;;
      ret fd)).

Definition sys_read : M kst Z :=
  orfail (argfd 0) (fun '(_, f) =>
    orfail (argint 2) (fun n =>
      orfail (argptr 1 n) (fun p => fileread f p n))).

Definition sys_write : M kst Z :=
  orfail (argfd 0) (fun '(_, f) =>
    orfail (argint 2) (fun n =>
      orfail (argptr 1 n) (fun p => filewrite f p n))).

(** The result of [argfd] is not tested: without a file [f] is not initialised. *)
Definition sys_isatty : M kst Z :=
  o <- argfd 0 ;;
  ' (_, f) <- deref o ;;
  x <- getf f ;;
  match f_type x, f_ip x with
  | FD_INODE, Some ip => i <- geti ip ;; ret (if i_type i =? T_DEV then 1 else 0)
  | _, _ => ret 0
  end.

(** [while (zerosize > 0)] *)
Fixpoint lseek_loop (k : nat) (f : nat) (zeroed zerosize : Z) : M kst unit :=
  if 0 <? zerosize then
    match k with
    | O => outoffuel
    | S k => filewrite f zeroed zerosize ;;; lseek_loop k f zeroed (s32 (zerosize - 4096))
    end
  else ret tt.

(** [*z++ = 0], 4096 times, through the pointer [kalloc] returned. *)
Definition zero_page_at (a : Z) : M kst unit := put_va a (replicate 4096 0).

Definition sys_lseek : M kst Z :=
  o <- argfd 0 ;;
  offset <- argint 1 ;;
  base <- argint 2 ;;
  ' (_, f) <- deref o ;;
  offset <- deref offset ;;
  base <- deref base ;;
  x <- getf f ;;
  ip <- deref (f_ip x) ;;
  i <- geti ip ;;
  newoff <- (if base =? SEEK_SET then ret offset
             else if base =? SEEK_CUR then ret (s32 (f_off x + offset))
             else if base =? SEEK_END then ret (s32 (i_size i + offset))
             else stuck "uninitialised newoff") ;;
  if u32 newoff <? i_size i then ret (-1) else
  (if i_size i <? u32 newoff then
     let zerosize := s32 (newoff - i_size i) in
     zeroed <- kalloc ;;
     zero_page_at zeroed ;;;
     lseek_loop (S (Z.to_nat (zerosize / 4096))) f zeroed zerosize ;;;
     kfree kend zeroed
   else ret tt) ;;;
  modf f (set_f_off (u32 newoff)) ;;;
  ret 0.

Definition sys_close : M kst Z :=
  orfail (argfd 0) (fun '(fd, f) =>
    clear_fd fd ;;;
    fileclose kend f ;;;
    ret 0).

Definition sys_fstat : M kst Z :=
  orfail (argfd 0) (fun '(_, f) =>
    orfail (argptr 1 STAT) (fun st => filestat f st)).

(** [bad] of [sys_link] *)
Definition link_bad (ip : nat) : M kst Z :=
  ilock (Some ip) ;;;
  modi ip (fun i => set_i_nlink (s16 (i_nlink i - 1)) i) ;;;
  iupdate ip ;;;
  iunlockput ip ;;;
  commit_trans ;;;
  ret (-1).

Definition link (old new : list Z) : M kst Z :=
  orfail (namei old) (fun ip =>
    begin_trans ;;;
    ilock (Some ip) ;;;
    i <- geti ip ;;
    if i_type i =? T_DIR then iunlockput ip ;;; commit_trans ;;; ret (-1) else
    modi ip (fun i => set_i_nlink (s16 (i_nlink i + 1)) i) ;;;
    iupdate ip ;;;
    iunlock (Some ip) ;;;
    ' (o, name) <- nameiparent new ;;
    match o with
    | None => link_bad ip
    | Some dp =>
        ilock (Some dp) ;;;
        d <- geti dp ;;
        i <- geti ip ;;
        r <- (if negb (i_dev d =? i_dev i) then ret (-1) else dirlink dp name (i_inum i)) ;;
        if r <? 0 then iunlockput dp ;;; link_bad ip else
        iunlockput dp ;;;
        iput ip ;;;
        commit_trans ;;;
        ret 0
    end).

Definition sys_link : M kst Z :=
  orfail (argstr 0) (fun old => orfail (argstr 1) (fun new => link old new)).

Fixpoint isdirempty_loop (k : nat) (dp : nat) (off : Z) : M kst bool :=
  match k with
  | O => outoffuel
  | S k =>
      x <- geti dp ;;
      if off <? i_size x then
        ' (r, de) <- readi dp ToLocal off DIRENT ;;
        if negb (r =? DIRENT) then panic "isdirempty: readi" else
        if negb (de_inum de =? 0) then ret false else isdirempty_loop k dp (off + DIRENT)
      else ret true
  end.

Definition isdirempty (dp : nat) : M kst bool :=
  x <- geti dp ;;
  isdirempty_loop (S (Z.to_nat ((i_size x + DIRENT - 1) / DIRENT))) dp (2 * DIRENT).

Definition DOT : list Z := [46].
Definition DOTDOT : list Z := [46; 46].

Definition unlink (path : list Z) : M kst Z :=
  ' (o, name) <- nameiparent path ;;
  match o with
  | None => ret (-1)
  | Some dp =>
      begin_trans ;;;
      ilock (Some dp) ;;;
      let bad := iunlockput dp ;;; commit_trans ;;; ret (-1) in
      if (namecmp name DOT =? 0) || (namecmp name DOTDOT =? 0) then bad else
      o <- dirlookup dp name ;;
      match o with
      | None => bad
      | Some (ip, off) =>
          ilock (Some ip) ;;;
          i <- geti ip ;;
          if i_nlink i <? 1 then panic "unlink: nlink < 1" else
          e <- (if i_type i =? T_DIR then isdirempty ip else ret true) ;;
          if negb e then iunlockput ip ;;; bad else
          r <- writei dp (FromLocal (replicate (Z.to_nat DIRENT) 0)) off DIRENT ;;
          if negb (r =? DIRENT) then panic "unlink: writei" else
          i <- geti ip ;;
          (if i_type i =? T_DIR then
             modi dp (fun d => set_i_nlink (s16 (i_nlink d - 1)) d) ;;;
             iupdate dp
           else ret tt) ;;;
          iunlockput dp ;;;
          modi ip (fun i => set_i_nlink (s16 (i_nlink i - 1)) i) ;;;
          iupdate ip ;;;
          iunlockput ip ;;;
          commit_trans ;;;
          ret 0
      end
  end.

Definition sys_unlink : M kst Z := orfail (argstr 0) unlink.

(** A locked inode. *)
Definition create (path : list Z) (type major minor : Z) : M kst (option nat) :=
  ' (o, name) <- nameiparent path ;;
  match o with
  | None => ret None
  | Some dp =>
      ilock (Some dp) ;;;
      o <- dirlookup dp name ;;
      match o with
      | Some (ip, _) =>
          iunlockput dp ;;;
          ilock (Some ip) ;;;
          i <- geti ip ;;
          if (type =? T_FILE) && (i_type i =? T_FILE) then ret (Some ip) else
          iunlockput ip ;;;
          ret None
      | None =>
          d <- geti dp ;;
          ip <- ialloc (i_dev d) type ;;
          ilock (Some ip) ;;;
          modi ip (fun i => set_i_nlink 1 (set_i_minor minor (set_i_major major i))) ;;;
          iupdate ip ;;;
          i <- geti ip ;;
          (if type =? T_DIR then
             modi dp (fun d => set_i_nlink (s16 (i_nlink d + 1)) d) ;;;
             iupdate dp ;;;
             r <- dirlink ip DOT (i_inum i) ;;
             if r <? 0 then panic "create dots" else
             r <- dirlink ip DOTDOT (i_inum d) ;;
             if r <? 0 then panic "create dots" else ret tt
           else ret tt) ;;;
          r <- dirlink dp name (i_inum i) ;;
          if r <? 0 then panic "create: dirlink" else
          iunlockput dp ;;;
          ret (Some ip)
      end
  end.

(** After the inode: a file and a descriptor for it. *)
Definition open_file (ip : nat) (omode : Z) : M kst Z :=
  o <- filealloc ;;
  match o with
  | None => iunlockput ip ;;; ret (-1)
  | Some f =>
      fd <- fdalloc f ;;
      match fd with
      | None => fileclose kend f ;;; iunlockput ip ;;; ret (-1)
      | Some fd =>
          iunlock (Some ip) ;;;
          modf f (fun x =>
            set_f_writable (if bset omode O_WRONLY || bset omode O_RDWR then 1 else 0)
              (set_f_readable (if bset omode O_WRONLY then 0 else 1)
                (set_f_off 0 (set_f_ip (Some ip) (set_f_type FD_INODE x))))) ;;;
          ret fd
      end
  end.

Definition open_ (path : list Z) (omode : Z) : M kst Z :=
  if bset omode O_CREATE then
    begin_trans ;;;
    o <- create path T_FILE 0 0 ;;
    commit_trans ;;;
    match o with
    | None => ret (-1)
    | Some ip => open_file ip omode
    end
  else
  orfail (namei path) (fun ip =>
    ilock (Some ip) ;;;
    i <- geti ip ;;
    if (i_type i =? T_DIR) && negb (omode =? O_RDONLY) then iunlockput ip ;;; ret (-1)
    else open_file ip omode).

Definition sys_open : M kst Z :=
  orfail (argstr 0) (fun path => orfail (argint 1) (fun omode => open_ path omode)).

(** The end of [sys_mkdir] and [sys_mknod]. *)
Definition created (o : option nat) : M kst Z :=
  match o with
  | None => commit_trans ;;; ret (-1)
  | Some ip => iunlockput ip ;;; commit_trans ;;; ret 0
  end.

Definition sys_mkdir : M kst Z :=
  begin_trans ;;;
  path <- argstr 0 ;;
  o <- (match path with
        | None => ret None
        | Some path => create path T_DIR 0 0
        end) ;;
  created o.

Definition sys_mknod : M kst Z :=
  begin_trans ;;;
  path <- argstr 0 ;;
  o <- (match path with
        | None => ret None
        | Some path =>
            major <- argint 1 ;;
            match major with
            | None => ret None
            | Some major =>
                minor <- argint 2 ;;
                match minor with
                | None => ret None
                | Some minor => create path T_DEV (s16 major) (s16 minor)
                end
            end
        end) ;;
  created o.

Definition sys_chdir : M kst Z :=
  orfail (argstr 0) (fun path =>
    orfail (namei path) (fun ip =>
      ilock (Some ip) ;;;
      i <- geti ip ;;
      if negb (i_type i =? T_DIR) then iunlockput ip ;;; ret (-1) else
      iunlock (Some ip) ;;;
      p <- myproc ;;
      pr <- getp p ;;
      cwd <- deref (p_cwd pr) ;;
      iput cwd ;;;
      modp p (set_p_cwd (Some ip)) ;;;
      ret 0)).

(** [for(i=0;; i++)] over the vector of argument pointers. *)
Fixpoint fetch_argv (k : nat) (uargv : Z) (argv : list (list Z)) : M kst (option (list (list Z))) :=
  match k with
  | O => ret None
  | S k =>
      o <- fetchint (u32 (uargv + 4 * Z.of_nat (length argv))) ;;
      match o with
      | None => ret None
      | Some uarg =>
          if uarg =? 0 then ret (Some argv) else
          o <- fetchstr (u32 uarg) ;;
          match o with
          | None => ret None
          | Some a => fetch_argv k uargv (argv ++ [a])
          end
      end
  end.

Definition sys_exec : M kst Z :=
  orfail (argstr 0) (fun path =>
    orfail (argint 1) (fun uargv =>
      orfail (fetch_argv (Z.to_nat MAXARG) (u32 uargv) []) (fun argv =>
        exec kend kdata path argv))).

Definition sys_pipe : M kst Z :=
  orfail (argptr 0 8) (fun fd =>
    orfail (pipealloc kend) (fun '(rf, wf) =>
      fd0 <- fdalloc rf ;;
      match fd0 with
      | None => fileclose kend rf ;;; fileclose kend wf ;;; ret (-1)
      | Some fd0 =>
          fd1 <- fdalloc wf ;;
          match fd1 with
          | None =>
              clear_fd fd0 ;;;
              fileclose kend rf ;;;
              fileclose kend wf ;;;
              ret (-1)
          | Some fd1 =>
              store32_va fd fd0 ;;;
              store32_va (u32 (fd + 4)) fd1 ;;;
              ret 0
          end
      end)).

End Sysfile.
