(* ===== verification/Kbd.v ===== *)
(** * The keyboard

    [kbd.c] with the tables of [kbd.h]: scan codes to characters.  [inb] reads
    an I/O port. *)

From stdpp Require Import base list numbers strings tactics gmap.
From Stdlib Require Import Lia.
From S2P Require Import Prelude Params FsState KState.

Local Open Scope Z_scope.
Local Open Scope xv6_scope.

Definition KBSTATP : Z := 0x64.
Definition KBS_DIB : Z := 0x01.
Definition KBDATAP : Z := 0x60.
Definition NO : Z := 0.
Definition SHIFT : Z := 1.
Definition CTL : Z := 2.
Definition ALT : Z := 4.
Definition CAPSLOCK : Z := 8.
Definition NUMLOCK : Z := 16.
Definition SCROLLLOCK : Z := 32.
Definition E0ESC : Z := 64.

Definition KEY_HOME : Z := 0xE0.
Definition KEY_END : Z := 0xE1.
Definition KEY_UP : Z := 0xE2.
Definition KEY_DN : Z := 0xE3.
Definition KEY_LF : Z := 0xE4.
Definition KEY_RT : Z := 0xE5.
Definition KEY_PGUP : Z := 0xE6.
Definition KEY_PGDN : Z := 0xE7.
Definition KEY_INS : Z := 0xE8.
Definition KEY_DEL : Z := 0xE9.

(** An array initialiser with designators: a prefix, then single entries. *)
Fixpoint at_key (l : list (Z * Z)) (i : Z) : option Z :=
  match l with
  | [] => None
  | (k, v) :: l => if k =? i then Some v else at_key l i
  end.

Definition table (pre : list Z) (rest : list (Z * Z)) (i : Z) : Z :=
  match aget pre i with
  | Some v => v
  | None => default NO (at_key rest i)
  end.

Definition shiftcode : Z -> Z :=
  table [] [(0x1D, CTL); (0x2A, SHIFT); (0x36, SHIFT); (0x38, ALT); (0x9D, CTL); (0xB8, ALT)].

Definition togglecode : Z -> Z := table [] [(0x3A, CAPSLOCK); (0x45, NUMLOCK); (0x46, SCROLLLOCK)].

Definition keypad : list (Z * Z) :=
  [(0xC8, KEY_UP); (0xD0, KEY_DN); (0xC9, KEY_PGUP); (0xD1, KEY_PGDN); (0xCB, KEY_LF); (0xCD, KEY_RT);
   (0x97, KEY_HOME); (0xCF, KEY_END); (0xD2, KEY_INS); (0xD3, KEY_DEL)].

Definition normalmap : Z -> Z := table
  [NO;  0x1B; 49;  50;  51;  52;  53;  54;
   55;  56;   57;  48;  45;  61;  8;   9;
   113; 119;  101; 114; 116; 121; 117; 105;
   111; 112;  91;  93;  10;  NO;  97;  115;
   100; 102;  103; 104; 106; 107; 108; 59;
   39;  96;   NO;  92;  122; 120; 99;  118;
   98;  110;  109; 44;  46;  47;  NO;  42;
   NO;  32;   NO;  NO;  NO;  NO;  NO;  NO;
   NO;  NO;   NO;  NO;  NO;  NO;  NO;  55;
   56;  57;   45;  52;  53;  54;  43;  49;
   50;  51;   48;  46;  NO;  NO;  NO;  NO]
  ((0x9C, 10) :: (0xB5, 47) :: keypad).

Definition shiftmap : Z -> Z := table
  [NO;  27;  33;  64;  35;  36;  37;  94;
   38;  42;  40;  41;  95;  43;  8;   9;
   81;  87;  69;  82;  84;  89;  85;  73;
   79;  80;  123; 125; 10;  NO;  65;  83;
   68;  70;  71;  72;  74;  75;  76;  58;
   34;  126; NO;  124; 90;  88;  67;  86;
   66;  78;  77;  60;  62;  63;  NO;  42;
   NO;  32;  NO;  NO;  NO;  NO;  NO;  NO;
   NO;  NO;  NO;  NO;  NO;  NO;  NO;  55;
   56;  57;  45;  52;  53;  54;  43;  49;
   50;  51;  48;  46;  NO;  NO;  NO;  NO]
  ((0x9C, 10) :: (0xB5, 47) :: keypad).

(** [C(x)] stored in an unsigned character. *)
Definition ctl (x : Z) : Z := u8 (x - 64).

Definition ctlmap : Z -> Z := table
  [NO;     NO;     NO;     NO;     NO;     NO;     NO;     NO;
   NO;     NO;     NO;     NO;     NO;     NO;     NO;     NO;
   ctl 81; ctl 87; ctl 69; ctl 82; ctl 84; ctl 89; ctl 85; ctl 73;
   ctl 79; ctl 80; NO;     NO;     13;     NO;     ctl 65; ctl 83;
   ctl 68; ctl 70; ctl 71; ctl 72; ctl 74; ctl 75; ctl 76; NO;
   NO;     NO;     NO;     ctl 92; ctl 90; ctl 88; ctl 67; ctl 86;
   ctl 66; ctl 78; ctl 77; NO;     NO;     ctl 47; NO;     NO]
  ((0x9C, 13) :: (0xB5, ctl 47) :: keypad).

Definition charcode (i : Z) : Z -> Z :=
  if i =? 0 then normalmap else if i =? 1 then shiftmap else ctlmap.

(** The part of [kbdgetc] after the byte has been read: the new [shift] and the
    result. *)
Definition kbdcode (shift data : Z) : Z * Z :=
  if data =? 0xE0 then (Z.lor shift E0ESC, 0)
  else if bset data 0x80 then
    let data := if bset shift E0ESC then data else Z.land data 0x7F in
    (Z.land shift (Z.lnot (Z.lor (shiftcode data) E0ESC)), 0)
  else
    let '(data, shift) :=
      if bset shift E0ESC then (Z.lor data 0x80, Z.land shift (Z.lnot E0ESC)) else (data, shift) in
    let shift := Z.lxor (Z.lor shift (shiftcode data)) (togglecode data) in
    let c := charcode (Z.land shift (Z.lor CTL SHIFT)) data in
    let c := if bset shift CAPSLOCK then
               if (97 <=? c) && (c <=? 122) then c - 32
               else if (65 <=? c) && (c <=? 90) then c + 32 else c
             else c in
    (shift, c).

Section Kbd.
Variable inb : Z -> M kst Z.

Definition kbdgetc : M kst Z :=
  st <- inb KBSTATP ;;
  if negb (bset st KBS_DIB) then ret (-1) else
  data <- inb KBDATAP ;;
  shift <- getfs kbd_shift ;;
  let '(shift, c) := kbdcode shift data in
  modfs (set_kbd_shift shift) ;;;
  ret c.

(** [uart.c] *)
Definition COM1 : Z := 0x3f8.

Definition uartgetc : M kst Z :=
  u <- getfs uart ;;
  if u =? 0 then ret (-1) else
  st <- inb (COM1 + 5) ;;
  if negb (bset st 0x01) then ret (-1) else inb COM1.

End Kbd.
