(* ===== verification/Trap.v ===== *)
(** * Traps

    [syscall] of [syscall.c], and [trap] of [trap.c]: system calls, device
    interrupts, faults and the clock tick that takes the CPU away from a
    process. *)

From stdpp Require Import base list numbers strings tactics gmap.
From Stdlib Require Import Lia.
From S2P Require Import Prelude Params StringC FsState KState Spinlock Mmu Kalloc Sched Vm Bio Log Fs Console Pipe ConsoleIn File Semaphore SharedMem Proc Exec Syscall Sysfile Kbd.

Local Open Scope Z_scope.
Local Open Scope xv6_scope.

Section Trap.
Context `{Disk} (kend kdata trapret forkret_addr : Z).

(** The I/O ports, [ideintr] of the disk driver, the faulting address in [cr2],
    and how many characters a device can have ready. *)
Context (inb : Z -> M kst Z) (ideintr : M kst unit) (rcr2 : kst -> Z) (chars_ready : nat).

(** The table [syscalls]. *)
Definition syscalls (num : Z) : option (M kst Z) :=
  match num with
  | 1 => Some (sys_fork kend kdata trapret forkret_addr)
  | 2 => Some (sys_exit kend)
  | 3 => Some (sys_wait kend)
  | 4 => Some (sys_pipe kend)
  | 5 => Some sys_read
  | 6 => Some sys_kill
  | 7 => Some (sys_exec kend kdata)
  | 8 => Some sys_fstat
  | 9 => Some sys_chdir
  | 10 => Some sys_dup
  | 11 => Some sys_getpid
  | 12 => Some (sys_sbrk kend)
  | 13 => Some sys_sleep
  | 14 => Some sys_uptime
  | 15 => Some (sys_open kend)
  | 16 => Some sys_write
  | 17 => Some sys_mknod
  | 18 => Some sys_unlink
  | 19 => Some sys_link
  | 20 => Some sys_mkdir
  | 21 => Some (sys_close kend)
  | 22 => Some (sys_lseek kend)
  | 23 => Some sys_isatty
  | 24 => Some sys_procstat
  | 25 => Some sys_set_priority
  | 26 => Some sys_semget
  | 27 => Some sys_semfree
  | 28 => Some sys_semdown
  | 29 => Some sys_semup
  | 30 => Some sys_shm_create
  | 31 => Some (sys_shm_close kend)
  | 32 => Some sys_shm_get
  | _ => None
  end.

(** [proc->tf->eax = v] *)
Definition set_eax (p : nat) (v : Z) : M kst unit :=
  modp p (fun x => set_p_tf (set_tf_eax (u32 v) (p_tf x)) x).

Definition syscall : M kst unit :=
  p <- myproc ;;
  pr <- getp p ;;
  let num := s32 (tf_eax (p_tf pr)) in
  match syscalls num with
  | Some f =>
      r <- f ;;
      set_eax p r
  | None =>
      cprintf (("%d %s: unknown sys call %d") ++ newline)
        [ANum (p_pid pr); AStr (cstr (p_name pr)); ANum num] ;;;
      set_eax p (-1)
  end.

Definition kbdintr : M kst unit := consoleintr chars_ready (kbdgetc inb).
Definition uartintr : M kst unit := consoleintr chars_ready (uartgetc inb).

(** [if(proc && proc->killed && (tf->cs&3) == DPL_USER) exit();] *)
Definition exit_if_killed (tf : trapframe) : M kst unit :=
  o <- gets curproc ;;
  match o with
  | Some p =>
      pr <- getp p ;;
      if negb (p_killed pr =? 0) && (Z.land (tf_cs tf) 3 =? DPL_USER) then exit kend else ret tt
  | None => ret tt
  end.

(** The [switch] on the trap number; the acknowledgement of the interrupt
    ([lapiceoi]) has no effect on the state. *)
Definition trap_dispatch (tf : trapframe) : M kst unit :=
  let no := tf_trapno tf in
  id <- gets (fun s => cpu_id (lk_cpu (lks s))) ;;
  if no =? T_IRQ0 + IRQ_TIMER then
    if id =? 0 then
      acquire L_tickslock ;;;
      modify (fun s => set_ticks (u32 (ticks s + 1)) s) ;;;
      wakeup CTicks ;;;
      release L_tickslock
    else ret tt
  else if no =? T_IRQ0 + IRQ_IDE then ideintr
  else if no =? T_IRQ0 + IRQ_IDE + 1 then ret tt
  else if no =? T_IRQ0 + IRQ_KBD then kbdintr
  else if no =? T_IRQ0 + IRQ_COM1 then uartintr
  else if (no =? T_IRQ0 + 7) || (no =? T_IRQ0 + IRQ_SPURIOUS) then
    cprintf ("cpu%d: spurious interrupt at %x:%x" ++ newline) [ANum id; ANum (tf_cs tf); ANum (tf_eip tf)]
  else
    o <- gets curproc ;;
    cr2 <- gets rcr2 ;;
    match o with
    | Some p =>
        if Z.land (tf_cs tf) 3 =? 0 then
          cprintf ("unexpected trap %d from cpu %d eip %x (cr2=0x%x)" ++ newline)
            [ANum no; ANum id; ANum (tf_eip tf); ANum cr2] ;;;
          panic "trap"
        else
        pr <- getp p ;;
        cprintf ("pid %d %s: trap %d err %d on cpu %d eip 0x%x addr 0x%x--kill proc" ++ newline)
          [ANum (p_pid pr); AStr (cstr (p_name pr)); ANum no; ANum (tf_err tf); ANum id;
           ANum (tf_eip tf); ANum cr2] ;;;
        modp p (set_p_killed 1)
    | None =>
        cprintf ("unexpected trap %d from cpu %d eip %x (cr2=0x%x)" ++ newline)
          [ANum no; ANum id; ANum (tf_eip tf); ANum cr2] ;;;
        panic "trap"
    end.

(** The CPU goes to another process when the quantum of this one is over. *)
Definition trap_preempt (tf : trapframe) : M kst unit :=
  o <- gets curproc ;;
  match o with
  | Some p =>
      pr <- getp p ;;
      if bool_decide (p_state pr = RUNNING) && (tf_trapno tf =? T_IRQ0 + IRQ_TIMER) then
        modp p (fun x => set_p_ticksProc (s32 (p_ticksProc x + 1)) x) ;;;
        pr <- getp p ;;
        if p_ticksProc pr =? QUANTUM then yield else ret tt
      else ret tt
  | None => ret tt
  end.

Definition trap_syscall (tf : trapframe) : M kst unit :=
  p <- myproc ;;
  k <- is_killed ;;
  when k (exit kend) ;;;
  modp p (set_p_tf tf) ;;;
  syscall ;;;
  k <- is_killed ;;
  when k (exit kend).

Definition trap (tf : trapframe) : M kst unit :=
  if tf_trapno tf =? T_SYSCALL then trap_syscall tf else
  trap_dispatch tf ;;;
  exit_if_killed tf ;;;
  trap_preempt tf ;;;
  exit_if_killed tf.

End Trap.
