(* ===== verification/TrapThm.v ===== *)
(** * The clock takes the CPU away

    A process that keeps running in user mode gives up the CPU at the timer
    interrupt that ends its quantum ([trap] of [trap.c]), and not before. *)

From stdpp Require Import base list numbers strings tactics gmap.
From Stdlib Require Import Lia.
From S2P Require Import Prelude Params StringC FsState KState Spinlock Mmu Kalloc Sched Vm Bio BioSpec Log Fs Pipe Proc Trap.

Local Open Scope Z_scope.
Local Open Scope xv6_scope.

(** Process [i] runs on this CPU with priority [k], has used [t] ticks of its quantum and
    has the mark [kl] of a killed process; no lock is held and the rest of the kernel is in
    order. *)
Record running (s : kst) (i : nat) (t k kl : Z) : Prop := mkrunning {
  rn_q : exists q, mlfq s q;
  rn_prio : prio_ok s;
  rn_len : length (procs s) = Z.to_nat NPROC;
  rn_ptable : lk_free L_ptable (lks s);
  rn_ticks : lk_free L_tickslock (lks s);
  rn_cli : cli_ok (lks s);
  rn_ncli : ncli (lk_cpu (lks s)) = 0;
  rn_cur : curproc s = Some i;
  rn_proc : exists p, procs s !! i = Some p /\ p_state p = RUNNING /\ p_killed p = kl /\ p_ticksProc p = t /\
    p_priority p = k
}.

Lemma nonext_fields p r : nonext p = nonext r ->
  p_state p = p_state r /\ p_killed p = p_killed r /\ p_ticksProc p = p_ticksProc r /\ p_priority p = p_priority r.
Proof.
  intros H. pose proof (f_equal p_state H). pose proof (f_equal p_killed H).
  pose proof (f_equal p_ticksProc H). pose proof (f_equal p_priority H). done.
Qed.

(** The running process is not asleep, so nobody wakes it up. *)
Lemma woken_running ch p : p_state p = RUNNING -> woken ch p = p.
Proof. intros H. unfold woken, sleeps_on. by rewrite bool_decide_false by congruence. Qed.

Lemma prio_ok_woken s ps ch :
  prio_ok s -> same_procs ps (woken ch <$> procs s) -> Forall (fun p => 0 <= p_priority p < MLF_LEVELS) ps.
Proof.
  intros Hp Hs. apply Forall_forall. intros p [j Hj]%list_elem_of_lookup. specialize (Hs j).
  rewrite Hj, list_lookup_fmap in Hs. destruct (procs s !! j) as [r|] eqn:Hr; [|done]. simpl in Hs.
  apply (inj Some), nonext_fields in Hs as (_ & _ & _ & ->).
  eapply Forall_lookup_1 in Hp; [|exact Hr]. unfold woken. destruct (sleeps_on ch r); [|done].
  unfold runnable, newprio. simpl. destruct (Z.ltb_spec 0 (p_priority r)); lia.
Qed.

(** A clock interrupt that finds the process in user mode. *)
Definition in_user (tf : trapframe) : Prop := Z.land (tf_cs tf) 3 = DPL_USER.

(** A clock interrupt that does not find a killed process in user mode. *)
Definition spares (kl : Z) (tf : trapframe) : Prop :=
  tf_trapno tf = T_IRQ0 + IRQ_TIMER /\ (kl = 0 \/ ~ in_user tf).

Section Clock.
Context `{Disk} (kend kdata trapret forkret_addr : Z).
Context (inb : Z -> M kst Z) (ideintr : M kst unit) (rcr2 : kst -> Z) (chars_ready : nat).

Notation trap := (trap kend kdata trapret forkret_addr inb ideintr rcr2 chars_ready).
Notation trap_dispatch := (trap_dispatch inb ideintr rcr2 chars_ready).

(** The clock interrupt itself: [ticks] and the processes that wait for it. *)
Lemma timer_dispatch s i t k kl tf :
  running s i t k kl -> tf_trapno tf = T_IRQ0 + IRQ_TIMER ->
  exists s', trap_dispatch tf s = Ret tt s' /\ running s' i t k kl.
Proof.
  intros [[q Hq] Hpr Hlen Hpt Htk Hcli Hn Hcur (p & Hp & H1 & H2 & H3 & H4)] Htf. unfold Trap.trap_dispatch. msimp.
  rewrite Htf, Z.eqb_refl. destruct (cpu_id (lk_cpu (lks s)) =? 0).
  - rstep (acquire_ret L_tickslock s Htk). msimp. set (s1 := set_ticks _ _).
    destruct (wakeup_ret CTicks s1 q) as (ps & m & l & W1 & W2 & W3 & W4);
      [by apply (mlfq_ext _ s)|done|done|by apply lk_acq_free|by apply lk_acq_cli_ok|].
    rstep W1. set (s2 := set_lks l _).
    destruct (release_ret L_tickslock (lks s) s2 W4 Htk Hcli) as [R1 R2]. rewrite R1. eexists. split; [reflexivity|].
    change (lks s2) with l in R2.
    pose proof (W3 i) as Hi. rewrite list_lookup_fmap in Hi. change (procs s1) with (procs s) in Hi. rewrite Hp in Hi. simpl in Hi.
    rewrite woken_running in Hi by done. destruct (ps !! i) as [p'|] eqn:Hp'; [|done]. simpl in Hi.
    apply (inj Some), nonext_fields in Hi as (E1 & E2 & E3 & E4).
    split; simpl; [eexists; by eapply mlfq_ext, W2|by apply (prio_ok_woken s1 ps CTicks)| | | | | |done|].
    + by rewrite (same_procs_length _ _ W3), length_fmap.
    + by rewrite <- R2.
    + by rewrite <- R2.
    + by rewrite <- R2.
    + by rewrite <- Hn, (lke_ncli _ _ R2).
    + exists p'. split_and!; congruence.
  - exists s. split; [done|]. split; try done; [by exists q|by exists p].
Qed.

Lemma not_killed s i t k kl tf : running s i t k kl -> spares kl tf -> exit_if_killed kend tf s = Ret tt s.
Proof.
  intros R [_ Hsp]. destruct (rn_proc _ _ _ _ _ R) as (p & Hp & _ & Hk & _ & _). unfold exit_if_killed. msimp.
  rewrite (rn_cur _ _ _ _ _ R). rstep (getp_ret _ _ _ Hp). rewrite Hk.
  destruct Hsp as [->|Hu]; [done|]. by rewrite (proj2 (Z.eqb_neq _ _) Hu), andb_false_r.
Qed.

(** A killed process does not go back to user mode. *)
Lemma killed_exits s i t k kl tf : running s i t k kl -> kl <> 0 -> in_user tf -> exit_if_killed kend tf s = exit kend s.
Proof.
  intros R Hkl Hu. destruct (rn_proc _ _ _ _ _ R) as (p & Hp & _ & Hk & _ & _). unfold exit_if_killed. msimp.
  rewrite (rn_cur _ _ _ _ _ R). rstep (getp_ret _ _ _ Hp). rewrite Hk.
  by rewrite (proj2 (Z.eqb_neq _ _) Hkl), (proj2 (Z.eqb_eq _ _) Hu).
Qed.

(** The process after one more tick. *)
Lemma running_tick s i t k kl p :
  running s i t k kl -> procs s !! i = Some p -> 0 <= t < QUANTUM ->
  running (upd_proc i (fun x => set_p_ticksProc (s32 (p_ticksProc x + 1)) x) s) i (t + 1) k kl.
Proof.
  intros [[q Hq] Hpr Hlen Hpt Htk Hcli Hn Hcur (p' & Hp' & H1 & H2 & H3 & H4)] Hp Ht. simplify_eq.
  split; simpl; try done.
  - exists q. by apply mlfq_upd_neutral.
  - unfold prio_ok. simpl. apply Forall_alter; [done|]. intros x Hx. simplify_eq. by eapply Forall_lookup_1 in Hpr.
  - by rewrite length_alter.
  - exists (set_p_ticksProc (s32 (p_ticksProc p' + 1)) p'). split_and!; [by rewrite list_lookup_alter_eq, Hp'|done|done| |done].
    simpl. apply s32_small. unfold is_s32, QUANTUM in *. lia.
Qed.
Lemma preempt_tick s i t k kl tf :
  running s i t k kl -> tf_trapno tf = T_IRQ0 + IRQ_TIMER -> 0 <= t < QUANTUM ->
  exists s', running s' i (t + 1) k kl /\
    trap_preempt tf s = if t + 1 =? QUANTUM then yield s' else Ret tt s'.
Proof.
  intros R Htf Ht. destruct (rn_proc _ _ _ _ _ R) as (p & Hp & Hs & Hk & Hi & _). unfold trap_preempt. msimp.
  pose proof (running_tick _ _ _ _ _ _ R Hp Ht) as R'.
  rewrite (rn_cur _ _ _ _ _ R). rstep (getp_ret _ _ _ Hp). rewrite Hs, Htf, Z.eqb_refl. rewrite bool_decide_true by done. cbn [andb].
  rstep (modp_ret _ _ _ (fun x => set_p_ticksProc (s32 (p_ticksProc x + 1)) x) Hp).
  destruct (rn_proc _ _ _ _ _ R') as (p' & Hp' & _ & _ & Hi' & _). rstep (getp_ret _ _ _ Hp'). rewrite Hi'.
  eexists. split; [exact R'|]. by destruct (t + 1 =? QUANTUM).
Qed.

(** The clock interrupts of the trap frames [tfs], one after the other. *)
Fixpoint interrupts (tfs : list trapframe) : M kst unit :=
  match tfs with
  | [] => ret tt
  | tf :: r => trap tf ;;; interrupts r
  end.

Lemma trap_tick s i t k kl tf :
  running s i t k kl -> spares kl tf -> 0 <= t < QUANTUM ->
  exists s', running s' i (t + 1) k kl /\
    trap tf s = if t + 1 =? QUANTUM then (yield ;;; exit_if_killed kend tf) s' else Ret tt s'.
Proof.
  intros R Hsp Ht. pose proof Hsp as [Htf _]. destruct (timer_dispatch s i t k kl tf R Htf) as (s1 & E1 & R1).
  destruct (preempt_tick s1 i t k kl tf R1 Htf Ht) as (s2 & R2 & E2). exists s2. split; [done|].
  unfold Trap.trap. rewrite Htf. simpl. rstep E1. rstep (not_killed _ _ _ _ _ tf R1 Hsp).
  unfold bind at 1. rewrite E2. destruct (t + 1 =? QUANTUM); [done|]. by apply (not_killed _ _ _ _ _ tf R2).
Qed.

Lemma interrupts_run tfs s i t k kl :
  running s i t k kl -> Forall (spares kl) tfs ->
  0 <= t -> t + Z.of_nat (length tfs) < QUANTUM ->
  exists s', interrupts tfs s = Ret tt s' /\ running s' i (t + Z.of_nat (length tfs)) k kl.
Proof.
  revert s t. induction tfs as [|tf tfs IH]; intros s t R Hf Ht Hl; cbn [interrupts length] in *.
  { exists s. split; [done|]. by rewrite Z.add_0_r. }
  inversion_clear Hf as [|? ? F1 F2]. destruct (trap_tick s i t k kl tf R F1) as (s1 & R1 & E1); [lia|].
  rewrite (proj2 (Z.eqb_neq _ _)) in E1 by lia. destruct (IH s1 (t + 1) R1 F2) as (s2 & E2 & R2); [lia..|].
  exists s2. split; [by rstep E1|]. by replace (t + Z.of_nat (S (length tfs))) with (t + 1 + Z.of_nat (length tfs)) by lia.
Qed.

(** The interrupt that ends the quantum. *)
Lemma interrupts_end tfs s i t k kl :
  running s i t k kl -> Forall (spares kl) tfs ->
  0 <= t < QUANTUM -> t + Z.of_nat (length tfs) = QUANTUM ->
  exists s1 s' kont, running s1 i QUANTUM k kl /\ interrupts tfs s = Swtch s' kont /\
    exists kont', yield s1 = Swtch s' kont'.
Proof.
  revert s t. induction tfs as [|tf tfs IH]; intros s t R Hf Ht Hl; cbn [interrupts length] in *; [lia|].
  inversion_clear Hf as [|? ? F1 F2]. destruct (trap_tick s i t k kl tf R F1 Ht) as (s1 & R1 & E1).
  destruct (Z.eqb_spec (t + 1) QUANTUM) as [Hq|Hq].
  - destruct R1 as [[q Hmq] Hpr ? ? ? ? ? ? (p & Hp & ? & ? & ? & ?)].
    destruct (yield_swtch s1 q i p) as (ps & m & l1 & k1 & Y1 & _); try done.
    { by eapply Forall_lookup_1 in Hpr. }
    rewrite (bind_swtch _ _ _ _ _ Y1) in E1. rewrite (bind_swtch _ _ _ _ _ E1).
    eexists s1, _, _. split_and!; [|reflexivity|eauto]. rewrite <- Hq. split; try done; eauto 10.
  - destruct (IH s1 (t + 1) R1 F2) as (s2 & s3 & kont & G1 & G2 & G3); [lia..|].
    exists s2, s3, kont. split_and!; [done| |done]. by rstep E1.
Qed.

(** C11: a process that runs on a CPU at priority [k], with [t] ticks of its quantum used
    and no lock held, keeps the CPU through every timer interrupt before the quantum ends,
    and the interrupt at which its ticks reach [QUANTUM] takes the CPU away: [trap]
    switches to the scheduler with the process RUNNABLE, last in the queue of the level
    two below its own (the lowest level at most).  This holds for a process that has not
    been killed, and for a killed one while the interrupts find it in the kernel; a killed
    process that a timer interrupt finds in user mode is sent to [exit] at once. *)
Theorem quantum_preempts tfs s i t k kl :
  running s i t k kl -> 0 <= t < QUANTUM ->
  (Forall (spares kl) tfs -> t + Z.of_nat (length tfs) < QUANTUM -> exists s', interrupts tfs s = Ret tt s' /\
     running s' i (t + Z.of_nat (length tfs)) k kl) /\
  (Forall (spares kl) tfs -> t + Z.of_nat (length tfs) = QUANTUM -> exists s' kont q p, interrupts tfs s = Swtch s' kont /\
     mlfq s' (push (Z.min 3 (k + 2)) i q) /\ procs s' !! i = Some p /\ p_state p = RUNNABLE) /\
  (forall tf, kl <> 0 -> in_user tf -> tf_trapno tf = T_IRQ0 + IRQ_TIMER ->
     exists s', running s' i t k kl /\ trap tf s = (exit kend ;;; trap_preempt tf ;;; exit_if_killed kend tf) s').
Proof.
  intros R Ht. split_and!; [intros Hf Hl; by apply interrupts_run; [..|lia|]| |].
  2: { intros tf Hkl Hu Htf. destruct (timer_dispatch s i t k kl tf R Htf) as (s1 & E1 & R1). exists s1. split; [done|].
       unfold Trap.trap. rewrite Htf. simpl. rstep E1. unfold bind at 1. by rewrite (killed_exits _ _ _ _ _ tf R1). }
  intros Hf Hl.
  destruct (interrupts_end tfs s i t k kl R Hf Ht Hl) as (s1 & s' & kont & R1 & E & k' & Y).
  destruct R1 as [[q Hmq] Hpr ? ? ? ? ? ? (p & Hp & ? & ? & ? & Hk)].
  destruct (yield_swtch s1 q i p) as (ps & m & l1 & k1 & Y1 & Y2 & Y3 & _); try done.
  { by eapply Forall_lookup_1 in Hpr. }
  rewrite Y1 in Y. simplify_eq. specialize (Y3 i).
  rewrite list_lookup_alter_eq, Hp in Y3. simpl in Y3. destruct (ps !! i) as [r|] eqn:Hr; [|done].
  apply (inj Some), nonext_fields in Y3 as [Hst _].
  eexists _, _, q, r. split_and!; [exact E|by eapply mlfq_ext, Y2|done|done].
Qed.
End Clock.

(** A timer interrupt of user code. *)
Definition demo_tick : trapframe := set_tf_trapno (T_IRQ0 + IRQ_TIMER) (p_tf proc0).

Lemma demo_running : running demo 0%nat 0 0 0.
Proof.
  split; [eexists; exact demo_ok|exact demo_prio|done|apply demo_locks|by vm_compute|apply demo_locks|done|done|].
  by eexists.
Qed.

Lemma quantum_preempts_witness :
  exists s' kont q p, interrupts (H := CrashDisk 100) 4194304 1048576 0 0 (fun _ => ret 0) (ret tt) (fun _ => 0) 0
      (replicate 6 demo_tick) demo = Swtch s' kont /\
    mlfq s' (push 2 0%nat q) /\ procs s' !! 0%nat = Some p /\ p_state p = RUNNABLE.
Proof.
  apply (quantum_preempts (H := CrashDisk 100) 4194304 1048576 0 0 (fun _ => ret 0) (ret tt) (fun _ => 0) 0
    (replicate 6 demo_tick) demo 0%nat 0 0 0 demo_running); [by vm_compute|repeat constructor; by left|reflexivity].
Defined.
