(* ===== verification/Gates.v ===== *)
(** * Segments and interrupt gates

    The descriptors of [mmu.h] with their bit fields, the segment table that [seginit]
    of [vm.c] fills and the interrupt table of [tvinit] in [trap.c]; how the processor
    reads a descriptor; and that it reads what the code meant to write. *)

From stdpp Require Import base list numbers strings tactics gmap.
From Stdlib Require Import Lia.
From S2P Require Import Prelude Params KState Spinlock Sched Proc.

Local Open Scope Z_scope.
Local Open Scope xv6_scope.

(** ** Bit fields *)

(** An assignment to a bit field of [w] bits keeps the low ones. *)
Definition bf (w z : Z) : Z := z mod 2 ^ w.

(** The word of a sequence of fields, each with its width, from the lowest bit. *)
Fixpoint pack (l : list (Z * Z)) : Z :=
  match l with [] => 0 | (w, x) :: l => x + 2 ^ w * pack l end.

(** ** Descriptors *)

Definition SEG_KCODE : Z := 1.
Definition SEG_KDATA : Z := 2.
Definition SEG_KCPU : Z := 3.
Definition SEG_TSS : Z := 6.
Definition NSEGS : Z := 7.
Definition STA_X : Z := 0x8.
Definition STA_W : Z := 0x2.
Definition STA_R : Z := 0x2.
Definition STS_T32A : Z := 0x9.
Definition STS_IG32 : Z := 0xE.
Definition STS_TG32 : Z := 0xF.

Record segdesc := mksegdesc {
  lim_15_0 : Z; base_15_0 : Z; base_23_16 : Z; seg_type : Z; seg_s : Z; seg_dpl : Z; seg_p : Z;
  lim_19_16 : Z; avl : Z; seg_rsv1 : Z; db : Z; gran : Z; base_31_24 : Z }.

Definition seg_fields (d : segdesc) : list (Z * Z) :=
  [(16, lim_15_0 d); (16, base_15_0 d); (8, base_23_16 d); (4, seg_type d); (1, seg_s d); (2, seg_dpl d); (1, seg_p d);
   (4, lim_19_16 d); (1, avl d); (1, seg_rsv1 d); (1, db d); (1, gran d); (8, base_31_24 d)].
Definition seg_word (d : segdesc) : Z := pack (seg_fields d).

Definition SEG (type base lim dpl : Z) : segdesc :=
  mksegdesc (bf 16 (Z.land (Z.shiftr lim 12) 0xffff)) (bf 16 (Z.land (u32 base) 0xffff))
    (bf 8 (Z.land (Z.shiftr (u32 base) 16) 0xff)) (bf 4 type) 1 (bf 2 dpl) 1
    (bf 4 (Z.shiftr (u32 lim) 28)) 0 0 1 1 (bf 8 (Z.shiftr (u32 base) 24)).

Definition SEG16 (type base lim dpl : Z) : segdesc :=
  mksegdesc (bf 16 (Z.land lim 0xffff)) (bf 16 (Z.land (u32 base) 0xffff))
    (bf 8 (Z.land (Z.shiftr (u32 base) 16) 0xff)) (bf 4 type) 1 (bf 2 dpl) 1
    (bf 4 (Z.shiftr (u32 lim) 16)) 0 0 1 0 (bf 8 (Z.shiftr (u32 base) 24)).

Record gatedesc := mkgatedesc {
  off_15_0 : Z; gate_cs : Z; gate_args : Z; gate_rsv1 : Z; gate_type : Z; gate_s : Z; gate_dpl : Z; gate_p : Z; off_31_16 : Z }.

Definition gate_fields (g : gatedesc) : list (Z * Z) :=
  [(16, off_15_0 g); (16, gate_cs g); (5, gate_args g); (3, gate_rsv1 g); (4, gate_type g); (1, gate_s g);
   (2, gate_dpl g); (1, gate_p g); (16, off_31_16 g)].
Definition gate_word (g : gatedesc) : Z := pack (gate_fields g).

(** The gate after [SETGATE], which sets every field. *)
Definition SETGATE (istrap : bool) (sel off d : Z) : gatedesc :=
  mkgatedesc (bf 16 (Z.land (u32 off) 0xffff)) (bf 16 sel) 0 0 (if istrap then STS_TG32 else STS_IG32) 0 (bf 2 d) 1
    (bf 16 (Z.shiftr (u32 off) 16)).

(** ** The tables *)

(** The six bytes [lgdt] and [lidt] give to the processor, as three words. *)
Definition table_pd (p size : Z) : list Z := [u16 (size - 1); u16 (u32 p); u16 (Z.shiftr (u32 p) 16)].

(** Offsets of [gdt], [ts] and [cpu] in [struct cpu]. *)
Definition CPU_TS : Z := 8.
Definition CPU_GDT : Z := 112.
Definition CPU_SELF : Z := 180.
Definition TS_SIZE : Z := 104.

(** What [seginit] changes of a CPU: its table, the registers, and the variables
    [cpu] and [proc] behind [%gs]. *)
Record segs := mksegs { gdt : list segdesc; gdtr : list Z; gs : Z; self_cpu : Z; self_proc : Z }.

(** [seginit] on the CPU whose structure is at address [c]. *)
Definition seginit (c : Z) (s : segs) : segs :=
  let g := gdt s in
  let g := <[Z.to_nat SEG_KCODE := SEG (Z.lor STA_X STA_R) 0 0xffffffff 0]> g in
  let g := <[Z.to_nat SEG_KDATA := SEG STA_W 0 0xffffffff 0]> g in
  let g := <[Z.to_nat SEG_UCODE := SEG (Z.lor STA_X STA_R) 0 0xffffffff DPL_USER]> g in
  let g := <[Z.to_nat SEG_UDATA := SEG STA_W 0 0xffffffff DPL_USER]> g in
  let g := <[Z.to_nat SEG_KCPU := SEG STA_W (c + CPU_SELF) 8 0]> g in
  mksegs g (table_pd (c + CPU_GDT) (8 * NSEGS)) (Z.shiftl SEG_KCPU 3) c 0.

(** The two lines of [switchuvm] that install the task state segment. *)
Definition set_tss (c : Z) (s : segs) : segs :=
  let d := SEG16 STS_T32A (c + CPU_TS) (TS_SIZE - 1) 0 in
  let d := mksegdesc (lim_15_0 d) (base_15_0 d) (base_23_16 d) (seg_type d) 0 (seg_dpl d) (seg_p d)
             (lim_19_16 d) (avl d) (seg_rsv1 d) (db d) (gran d) (base_31_24 d) in
  mksegs (<[Z.to_nat SEG_TSS := d]> (gdt s)) (gdtr s) (gs s) (self_cpu s) (self_proc s).

(** The gates [tvinit] installs; [vectors] are the addresses in the generated [vectors.S]. *)
Definition tv_gates (vectors : list Z) (idt : list gatedesc) : list gatedesc :=
  let at_ i := default 0 (vectors !! i) in
  let sel := Z.shiftl SEG_KCODE 3 in
  let idt := foldl (fun idt i => <[i := SETGATE false sel (at_ i) 0]> idt) idt (seq 0 256) in
  <[Z.to_nat T_SYSCALL := SETGATE true sel (at_ (Z.to_nat T_SYSCALL)) DPL_USER]> idt.

(** The whole of [tvinit], on the table [idt], and the register after [idtinit], for a table
    at that address. *)
Definition tvinit (vectors : list Z) (idt : list gatedesc) : M kst (list gatedesc) :=
  let idt := tv_gates vectors idt in
  onlks (initlock L_tickslock "time") ;;;
  ret idt.

Definition idtinit (idt : Z) : list Z := table_pd idt (8 * 256).

(** ** How the processor reads a descriptor *)

(** [n] bits of [w] from bit [lo] on. *)
Definition bits (lo n w : Z) : Z := (w / 2 ^ lo) mod 2 ^ n.

Definition hw_base (w : Z) : Z := bits 16 16 w + 2 ^ 16 * bits 32 8 w + 2 ^ 24 * bits 56 8 w.

(** In bytes: the limit counts pages when the granularity bit is set. *)
Definition hw_limit (w : Z) : Z :=
  let l := bits 0 16 w + 2 ^ 16 * bits 48 4 w in
  if bits 55 1 w =? 1 then 4096 * l + 4095 else l.

Definition hw_type (w : Z) : Z := bits 40 4 w.
Definition hw_system (w : Z) : bool := bits 44 1 w =? 0.
Definition hw_dpl (w : Z) : Z := bits 45 2 w.
Definition hw_present (w : Z) : bool := bits 47 1 w =? 1.
Definition hw_sel (w : Z) : Z := bits 16 16 w.
Definition hw_offset (w : Z) : Z := bits 0 16 w + 2 ^ 16 * bits 48 16 w.

(** What a descriptor says: base, limit, type, system, privilege level, present. *)
Definition hw_seg (w : Z) := (hw_base w, hw_limit w, hw_type w, hw_system w, hw_dpl w, hw_present w).

(** May the instruction [int] be used on a gate from privilege level [cpl]? *)
Definition may_int (cpl w : Z) : bool := hw_present w && (cpl <=? hw_dpl w).

(** ** Reading a field back *)

Definition fits (l : list (Z * Z)) : Prop := Forall (fun f => 0 <= f.1 /\ 0 <= f.2 < 2 ^ f.1) l.
Definition width (l : list (Z * Z)) : Z := foldr (fun f n => f.1 + n) 0 l.

Lemma width_nonneg l : fits l -> 0 <= width l.
Proof. induction 1 as [|[w x] l [Hw _] _ IH]; simpl in *; lia. Qed.

Lemma pack_range l : fits l -> 0 <= pack l < 2 ^ width l.
Proof.
  induction 1 as [|[w x] l [Hw Hx] Hl IH]; simpl in *; [lia|]. rewrite Z.pow_add_r by (try apply width_nonneg; done).
  nia.
Qed.

Lemma pack_bits l1 w x l2 : fits l1 -> 0 <= w -> 0 <= x < 2 ^ w -> bits (width l1) w (pack (l1 ++ (w, x) :: l2)) = x.
Proof.
  intros H1 Hw Hx. unfold bits. induction H1 as [|[v y] l1 [Hv Hy] Hl IH]; simpl in *.
  - rewrite Z.div_1_r. replace (x + 2 ^ w * pack l2) with (x + pack l2 * 2 ^ w) by lia. rewrite Z_mod_plus_full. by apply Z.mod_small.
  - pose proof (width_nonneg l1 Hl). rewrite Z.pow_add_r, <- Z.div_div by lia.
    rewrite (Z.mul_comm (2 ^ v)), Z.div_add, (Z.div_small y) by lia. exact IH.
Qed.

Lemma pack_field l i lo w x : fits l -> width (take i l) = lo -> l !! i = Some (w, x) -> bits lo w (pack l) = x.
Proof.
  intros H <- E. rewrite <- (take_drop_middle l i (w, x) E) at 2.
  assert (Hx := proj1 (list.Forall_forall _ _) H _ (list_elem_of_lookup_2 _ _ _ E)). simpl in Hx.
  apply pack_bits; [by apply Forall_take|lia|lia].
Qed.

Lemma bf_range w z : 0 <= w -> 0 <= bf w z < 2 ^ w.
Proof. intros H. apply Z.mod_pos_bound. lia. Qed.

Lemma bf_small w z : 0 <= z < 2 ^ w -> bf w z = z.
Proof. apply Z.mod_small. Qed.

(** The fields of a descriptor are in range: bit fields and constants. *)
Ltac fits_tac :=
  repeat (apply Forall_cons_2; [split; [simpl; lia|cbn [fst snd]; first [apply bf_range; lia|split; [discriminate|reflexivity]]]|]); apply Forall_nil_2.

Lemma seg_read d : fits (seg_fields d) ->
  hw_seg (seg_word d) =
  (base_15_0 d + 2 ^ 16 * base_23_16 d + 2 ^ 24 * base_31_24 d,
   (let l := lim_15_0 d + 2 ^ 16 * lim_19_16 d in if gran d =? 1 then 4096 * l + 4095 else l),
   seg_type d, seg_s d =? 0, seg_dpl d, seg_p d =? 1).
Proof.
  intros H. unfold hw_seg, hw_base, hw_limit, hw_type, hw_system, hw_dpl, hw_present, seg_word.
  rewrite (pack_field _ 0 0 16 (lim_15_0 d) H eq_refl eq_refl), (pack_field _ 1 16 16 (base_15_0 d) H eq_refl eq_refl),
    (pack_field _ 2 32 8 (base_23_16 d) H eq_refl eq_refl), (pack_field _ 3 40 4 (seg_type d) H eq_refl eq_refl),
    (pack_field _ 4 44 1 (seg_s d) H eq_refl eq_refl), (pack_field _ 5 45 2 (seg_dpl d) H eq_refl eq_refl),
    (pack_field _ 6 47 1 (seg_p d) H eq_refl eq_refl), (pack_field _ 7 48 4 (lim_19_16 d) H eq_refl eq_refl),
    (pack_field _ 11 55 1 (gran d) H eq_refl eq_refl), (pack_field _ 12 56 8 (base_31_24 d) H eq_refl eq_refl).
  reflexivity.
Qed.

Lemma gate_read g : fits (gate_fields g) ->
  let w := gate_word g in
  0 <= w < 2 ^ 64 /\ hw_offset w = off_15_0 g + 2 ^ 16 * off_31_16 g /\ hw_sel w = gate_cs g /\ hw_type w = gate_type g /\
  hw_system w = (gate_s g =? 0) /\ hw_dpl w = gate_dpl g /\ hw_present w = (gate_p g =? 1).
Proof.
  intros H w. split; [exact (pack_range _ H)|]. unfold w, gate_word, hw_offset, hw_sel, hw_type, hw_system, hw_dpl, hw_present.
  rewrite (pack_field _ 0 0 16 (off_15_0 g) H eq_refl eq_refl), (pack_field _ 1 16 16 (gate_cs g) H eq_refl eq_refl),
    (pack_field _ 4 40 4 (gate_type g) H eq_refl eq_refl), (pack_field _ 5 44 1 (gate_s g) H eq_refl eq_refl),
    (pack_field _ 6 45 2 (gate_dpl g) H eq_refl eq_refl), (pack_field _ 7 47 1 (gate_p g) H eq_refl eq_refl),
    (pack_field _ 8 48 16 (off_31_16 g) H eq_refl eq_refl).
  done.
Qed.

(** ** Halves of a word *)

Lemma low_bits z n : 0 <= n -> Z.land z (Z.ones n) = z mod 2 ^ n.
Proof. intros. by apply Z.land_ones. Qed.

Lemma base_parts b : is_u32 b ->
  bf 16 (Z.land (u32 b) 0xffff) + 2 ^ 16 * bf 8 (Z.land (Z.shiftr (u32 b) 16) 0xff) + 2 ^ 24 * bf 8 (Z.shiftr (u32 b) 24) = b.
Proof.
  intros H. rewrite (u32_small b H). unfold bf, is_u32 in *. change 0xffff with (Z.ones 16). change 0xff with (Z.ones 8).
  rewrite !low_bits, !Z.shiftr_div_pow2, !Z.mod_mod by lia. Z.div_mod_to_equations. lia.
Qed.

Lemma offset_parts o : is_u32 o -> bf 16 (Z.land (u32 o) 0xffff) + 2 ^ 16 * bf 16 (Z.shiftr (u32 o) 16) = o.
Proof.
  intros H. rewrite (u32_small o H). unfold bf, is_u32 in *. change 0xffff with (Z.ones 16).
  rewrite !low_bits, !Z.shiftr_div_pow2, !Z.mod_mod by lia. Z.div_mod_to_equations. lia.
Qed.

Lemma limit_parts l : is_u32 l -> bf 16 (Z.land (Z.shiftr l 12) 0xffff) + 2 ^ 16 * bf 4 (Z.shiftr (u32 l) 28) = l / 4096.
Proof.
  intros H. rewrite (u32_small l H). unfold bf, is_u32 in *. change 0xffff with (Z.ones 16).
  rewrite !low_bits, !Z.shiftr_div_pow2, !Z.mod_mod by lia. Z.div_mod_to_equations. lia.
Qed.

(** ** The tables as the processor sees them *)

(** A segment is read back as it was given, its limit up to the end of a page. *)
Lemma seg_hw type base lim dpl : is_u32 base -> is_u32 lim -> 0 <= type < 16 -> 0 <= dpl < 4 ->
  hw_seg (seg_word (SEG type base lim dpl)) = (base, 4096 * (lim / 4096) + 4095, type, false, dpl, true).
Proof.
  intros Hb Hl Ht Hd. rewrite seg_read by fits_tac. unfold SEG. cbn -[bf u32 Z.land Z.shiftr Z.mul Z.add Z.pow].
  rewrite base_parts, limit_parts, !bf_small by done. done.
Qed.

Lemma tss_hw c s : is_u32 (c + CPU_TS) -> (Z.to_nat SEG_TSS < length (gdt s))%nat ->
  hw_seg ∘ seg_word <$> gdt (set_tss c s) !! Z.to_nat SEG_TSS = Some (c + CPU_TS, TS_SIZE - 1, STS_T32A, true, 0, true).
Proof.
  intros Hb Hn. unfold set_tss. cbn [gdt]. rewrite list_lookup_insert_eq by done. cbn [fmap option_fmap option_map compose]. f_equal.
  rewrite seg_read by fits_tac. unfold SEG16. cbn -[bf u32 Z.land Z.shiftr Z.mul Z.add Z.pow].
  rewrite base_parts by done. done.
Qed.

(** C25: after [seginit] and the first [switchuvm] the processor finds in the table of
    the CPU at address [c] flat segments of the whole 4 Gbyte for kernel and user code
    and data, with the privilege levels 0 and 3, the task state of this CPU, and,
    through [%gs], a segment that begins at the variable [cpu] of this CPU's own
    structure; and the table register holds the address and the size of the table. *)
Theorem seginit_segments c s : 0 <= c -> c + CPU_SELF + 8 < 2 ^ 32 -> length (gdt s) = Z.to_nat NSEGS ->
  let s' := set_tss c (seginit c s) in
  let seg i := hw_seg ∘ seg_word <$> gdt s' !! Z.to_nat i in
  seg SEG_KCODE = Some (0, 2 ^ 32 - 1, Z.lor STA_X STA_R, false, 0, true) /\
  seg SEG_KDATA = Some (0, 2 ^ 32 - 1, STA_W, false, 0, true) /\
  seg SEG_UCODE = Some (0, 2 ^ 32 - 1, Z.lor STA_X STA_R, false, DPL_USER, true) /\
  seg SEG_UDATA = Some (0, 2 ^ 32 - 1, STA_W, false, DPL_USER, true) /\
  seg (gs s' / 8) = Some (c + CPU_SELF, 4095, STA_W, false, 0, true) /\
  seg SEG_TSS = Some (c + CPU_TS, TS_SIZE - 1, STS_T32A, true, 0, true) /\
  self_cpu s' = c /\ self_proc s' = 0 /\
  exists lo hi, gdtr s' = [8 * NSEGS - 1; lo; hi] /\ lo + 2 ^ 16 * hi = c + CPU_GDT.
Proof.
  intros Hc Hm Hn s' seg. assert (Ht : seg SEG_TSS = Some (c + CPU_TS, TS_SIZE - 1, STS_T32A, true, 0, true)).
  { apply tss_hw; [unfold is_u32, CPU_TS, CPU_SELF in *; lia|]. unfold seginit. cbn [gdt]. rewrite !length_insert, Hn. unfold SEG_TSS, NSEGS. lia. }
  unfold seg in *. clear seg. destruct s as [g r gs0 sc sp]. cbn [gdt] in Hn.
  destruct g as [|g0 [|g1 [|g2 [|g3 [|g4 [|g5 [|g6 [|]]]]]]]]; try discriminate Hn. clear Hn.
  assert (Hcpu : is_u32 (c + CPU_SELF)) by (unfold is_u32, CPU_SELF in *; lia).
  do 6 (split; [first [exact Ht|apply (f_equal Some), seg_hw; first [done|unfold is_u32; lia]]|]).
  split; [done|]. split; [done|]. exists (u16 (u32 (c + CPU_GDT))), (u16 (Z.shiftr (u32 (c + CPU_GDT)) 16)). split; [reflexivity|].
  assert (Hg : is_u32 (c + CPU_GDT)) by (unfold is_u32, CPU_SELF, CPU_GDT in *; lia). rewrite (u32_small _ Hg).
  unfold u16, is_u32 in *. rewrite Z.shiftr_div_pow2 by lia. Z.div_mod_to_equations. lia.
Qed.

Lemma seginit_segments_witness : let s' := set_tss 0x80112000 (seginit 0x80112000 (mksegs (replicate 7 (SEG 0 0 0 0)) [] 0 0 0)) in
  hw_seg ∘ seg_word <$> gdt s' !! Z.to_nat SEG_UCODE = Some (0, 2 ^ 32 - 1, 10, false, 3, true).
Proof.
  pose proof (seginit_segments 0x80112000 (mksegs (replicate 7 (SEG 0 0 0 0)) [] 0 0 0) ltac:(lia) ltac:(unfold CPU_SELF; lia) eq_refl) as H.
  exact (proj1 (proj2 (proj2 H))).
Defined.

Lemma length_gates (f : nat -> gatedesc) l : forall idt, length (foldl (fun idt i => <[i := f i]> idt) idt l) = length idt.
Proof. induction l as [|x l IH]; intros idt; [done|]. simpl. by rewrite IH, length_insert. Qed.

Lemma gates_filled (f : nat -> gatedesc) n : forall idt i, (i < n)%nat -> (n <= length idt)%nat ->
  foldl (fun idt i => <[i := f i]> idt) idt (seq 0 n) !! i = Some (f i).
Proof.
  induction n as [|n IH]; intros idt i Hi Hn; [lia|]. rewrite seq_S, foldl_app. cbn [foldl]. rewrite Nat.add_0_l.
  destruct (decide (i = n)) as [->|]; [rewrite list_lookup_insert_eq by (rewrite length_gates; lia); done|].
  rewrite list_lookup_insert_ne by done. apply IH; lia.
Qed.

Lemma gate_hw istrap off d : is_u32 off -> 0 <= d < 4 ->
  let w := gate_word (SETGATE istrap (Z.shiftl SEG_KCODE 3) off d) in
  0 <= w < 2 ^ 64 /\ hw_offset w = off /\ hw_sel w = 8 * SEG_KCODE /\
  hw_type w = (if istrap then STS_TG32 else STS_IG32) /\ hw_system w = true /\ hw_dpl w = d /\ hw_present w = true.
Proof.
  intros Ho Hd w. destruct (gate_read (SETGATE istrap (Z.shiftl SEG_KCODE 3) off d)) as (R1 & R2 & R3 & R4 & R5 & R6 & R7).
  { destruct istrap; fits_tac. }
  split; [exact R1|]. unfold w. rewrite R2, R3, R4, R5, R6, R7. cbn [off_15_0 off_31_16 gate_cs gate_type gate_s gate_dpl gate_p SETGATE].
  rewrite offset_parts, (bf_small 2 d) by done. done.
Qed.

(** [tvinit] leaves the lock of the clock free and says nothing of the other locks;
    [idtinit] tells the processor the last byte of the table and its address. *)
Lemma tvinit_clock vectors idt s : exists s', tvinit vectors idt s = Ret (tv_gates vectors idt) s' /\
  locked (lkof (lks s') L_tickslock) = 0 /\ forall l, l <> L_tickslock -> lkof (lks s') l = lkof (lks s) l.
Proof.
  eexists. split; [reflexivity|]. unfold lkof. simpl. split; [by rewrite lookup_insert_eq|].
  intros l Hl. by rewrite lookup_insert_ne.
Qed.

Lemma idtinit_table idt : is_u32 idt -> exists lo hi, idtinit idt = [2047; lo; hi] /\ lo + 2 ^ 16 * hi = idt.
Proof.
  intros H. eexists _, _. split; [reflexivity|]. rewrite u32_small, Z.shiftr_div_pow2 by (done || lia). unfold u16, is_u32 in *.
  rewrite (Z.mod_small (idt / _)) by (Z.div_mod_to_equations; lia). Z.div_mod_to_equations. lia.
Qed.

(** C24: after [tvinit] every one of the 256 entries of the interrupt table is a
    well-formed 64-bit gate, whatever the table held: present, of the system kind, into
    the kernel code segment at the vector of its number, an interrupt gate but for the
    system call, which is a trap gate and leaves interrupts on; and the gate of the
    system call is the only one that user code can reach with [int]. *)
Theorem tvinit_gates vectors idt : length vectors = 256%nat -> Forall is_u32 vectors -> length idt = 256%nat ->
  forall i, (i < 256)%nat -> exists g v, tv_gates vectors idt !! i = Some g /\ vectors !! i = Some v /\
  let w := gate_word g in
  0 <= w < 2 ^ 64 /\ hw_present w = true /\ hw_system w = true /\ hw_sel w = 8 * SEG_KCODE /\ hw_offset w = v /\
  hw_type w = (if Z.of_nat i =? T_SYSCALL then STS_TG32 else STS_IG32) /\
  may_int DPL_USER w = (Z.of_nat i =? T_SYSCALL).
Proof.
  intros Hv Hu Hi i Hlt. destruct (lookup_lt_is_Some_2 vectors i ltac:(lia)) as [v Ev].
  assert (Hw := proj1 (list.Forall_forall _ _) Hu v (list_elem_of_lookup_2 _ _ _ Ev)).
  set (f i := SETGATE false (Z.shiftl SEG_KCODE 3) (default 0 (vectors !! i)) 0).
  unfold tv_gates. cbv zeta. destruct (Z.eqb_spec (Z.of_nat i) T_SYSCALL) as [E|E].
  - replace (Z.to_nat T_SYSCALL) with i by lia. eexists _, v. split; [apply list_lookup_insert_eq|split; [exact Ev|]].
    { rewrite (length_gates f). lia. }
    rewrite Ev. destruct (gate_hw true v DPL_USER Hw ltac:(unfold DPL_USER; lia)) as (R1 & R2 & R3 & R4 & R5 & R6 & R7).
    unfold may_int. cbn [default from_option id] in *. rewrite R7, R6. done.
  - exists (f i), v. split; [rewrite list_lookup_insert_ne by (unfold T_SYSCALL in *; lia); apply (gates_filled f); lia|split; [exact Ev|]].
    unfold f. rewrite Ev. destruct (gate_hw false v 0 Hw ltac:(lia)) as (R1 & R2 & R3 & R4 & R5 & R6 & R7).
    unfold may_int. cbn [default from_option id] in *. rewrite R7, R6. done.
Qed.

Lemma tvinit_gates_witness : exists g v, tv_gates (replicate 256 0x80105000) (replicate 256 (SETGATE false 0 0 0)) !! 64%nat = Some g /\
  replicate 256 0x80105000 !! 64%nat = Some v /\ hw_offset (gate_word g) = v.
Proof.
  destruct (tvinit_gates (replicate 256 0x80105000) (replicate 256 (SETGATE false 0 0 0)) ltac:(reflexivity)
    ltac:(apply Forall_replicate; unfold is_u32; lia) ltac:(reflexivity) 64%nat ltac:(lia)) as (g & v & E1 & E2 & _ & _ & _ & _ & E3 & _).
  exists g, v. split; [exact E1|]. split; [exact E2|exact E3].
Defined.
