(* ===== verification/SemSystem.v ===== *)
(** * Semaphores under the scheduler

    All processes of the system run [semdown], [semup], [semget] and [semfree] of
    [semaphore.c] and [kill] of [proc.c] on one CPU: a process in user mode
    calls an operation or is preempted by the timer ([yield]); an operation
    that has to wait gives the CPU to [scheduler], which resumes another process
    where it stopped.  The steps are the routines of the kernel themselves; a
    suspended process is the rest of the routine it was in.

    The theorem is the contract of a semaphore: the value is the value the
    semaphore was created with plus the ups minus the downs completed since, it
    is never negative, and no process sleeps on a semaphore whose value is
    positive, so no wake-up is lost.  It needs that no counter overflows, that
    [semget] is not asked for a negative value, and that the last reference to
    a semaphore is not freed while a process waits for it.  [fork] and [exit]
    are not among the steps: the set of processes is fixed during a run, and a
    killed process goes on (the kernel makes it exit when it returns to user
    mode). *)

From stdpp Require Import base list numbers strings tactics gmap functions relations.
From Stdlib Require Import Lia.
From S2P Require Import Prelude Params StringC KState Spinlock Mmu Sched Semaphore.

Local Open Scope Z_scope.
Local Open Scope xv6_scope.

(** Where a process is when it does not have the CPU. *)
Inductive thread :=
| User                                        (* in user mode *)
| Blocked (id : Z) (k : kst -> res kst Z)     (* in semdown(id), inside sleep *)
| Preempted (k : kst -> res kst unit).        (* in yield *)

Record sys := mksys {
  ks : kst;
  thr : nat -> thread;
  start : nat -> Z;     (* the value each semaphore was created with *)
  ups : nat -> Z;       (* completed ups of each semaphore since then *)
  downs : nat -> Z      (* completed downs *)
}.

(** Count an operation that returned 0. *)
Definition count (v id : Z) (f : nat -> Z) : nat -> Z :=
  if v =? 0 then <[Z.to_nat id := f (Z.to_nat id) + 1]> f else f.

(** Semaphore [n] has just been created with the value [v]. *)
Definition created (n : nat) (v : Z) (s : kst) (y : sys) : sys :=
  mksys s (thr y) (<[n := v]> (start y)) (<[n := 0]> (ups y)) (<[n := 0]> (downs y)).

(** The last reference to a semaphore is not given up while a process waits in
    [semdown] for it: such a process would sleep on a free semaphore. *)
Definition keeps_waiters (y : sys) (id : Z) : Prop :=
  forall t, aget (sems (ks y)) id = Some t -> refcount t = 1 ->
    forall j k, thr y j <> Blocked id k.

Inductive step : sys -> sys -> Prop :=
| step_up (y : sys) (i : nat) (id v : Z) (s' : kst) :
    curproc (ks y) = Some i ->
    semup id (ks y) = Ret v s' ->
    step y (mksys s' (thr y) (start y) (count v id (ups y)) (downs y))
| step_down (y : sys) (i fuel : nat) (id v : Z) (s' : kst) :
    curproc (ks y) = Some i ->
    semdown fuel id (ks y) = Ret v s' ->
    step y (mksys s' (thr y) (start y) (ups y) (count v id (downs y)))
| step_block (y : sys) (i fuel : nat) (id : Z) (s1 s2 : kst) (k : kst -> res kst Z) :
    curproc (ks y) = Some i ->
    semdown fuel id (ks y) = Swtch s1 k -> scheduler_leave s1 = Ret tt s2 ->
    step y (mksys s2 (<[i := Blocked id k]> (thr y)) (start y) (ups y) (downs y))
| step_preempt (y : sys) (i : nat) (s1 s2 : kst) (k : kst -> res kst unit) :
    curproc (ks y) = Some i ->
    yield (ks y) = Swtch s1 k -> scheduler_leave s1 = Ret tt s2 ->
    step y (mksys s2 (<[i := Preempted k]> (thr y)) (start y) (ups y) (downs y))
| step_idle (y : sys) (s1 : kst) :
    curproc (ks y) = None ->
    scheduler_enter (ks y) = Ret None s1 ->
    step y (mksys s1 (thr y) (start y) (ups y) (downs y))
| step_resume (y : sys) (i : nat) (s1 s2 : kst) (k : kst -> res kst unit) :
    curproc (ks y) = None ->
    scheduler_enter (ks y) = Ret (Some i) s1 ->
    thr y i = Preempted k -> k s1 = Ret tt s2 ->
    step y (mksys s2 (<[i := User]> (thr y)) (start y) (ups y) (downs y))
| step_wake (y : sys) (i : nat) (id v : Z) (s1 s2 : kst) (k : kst -> res kst Z) :
    curproc (ks y) = None ->
    scheduler_enter (ks y) = Ret (Some i) s1 ->
    thr y i = Blocked id k -> k s1 = Ret v s2 ->
    step y (mksys s2 (<[i := User]> (thr y)) (start y) (ups y) (count v id (downs y)))
| step_again (y : sys) (i : nat) (id : Z) (s1 s2 s3 : kst) (k k' : kst -> res kst Z) :
    curproc (ks y) = None ->
    scheduler_enter (ks y) = Ret (Some i) s1 ->
    thr y i = Blocked id k -> k s1 = Swtch s2 k' -> scheduler_leave s2 = Ret tt s3 ->
    step y (mksys s3 (<[i := Blocked id k']> (thr y)) (start y) (ups y) (downs y))
| step_kill (y : sys) (i : nat) (pid v : Z) (s' : kst) :
    curproc (ks y) = Some i ->
    kill pid (ks y) = Ret v s' ->
    step y (mksys s' (thr y) (start y) (ups y) (downs y))
| step_get (y : sys) (i : nat) (id v r : Z) (s' : kst) :
    curproc (ks y) = Some i ->
    (id = -1 -> 0 <= v) ->
    semget id v (ks y) = Ret r s' ->
    step y (if (id =? -1) && (0 <=? r) then created (Z.to_nat r) v s' y
            else mksys s' (thr y) (start y) (ups y) (downs y))
| step_free (y : sys) (i : nat) (id r : Z) (s' : kst) :
    curproc (ks y) = Some i ->
    keeps_waiters y id ->
    semfree id (ks y) = Ret r s' ->
    step y (mksys s' (thr y) (start y) (ups y) (downs y)).

(** ** The invariant *)

(** The rest of [yield], or of [forkret] for a process that has not run yet. *)
Definition yield_cont (k : kst -> res kst unit) : Prop :=
  forall s2, resumable (lks s2) -> lk_free L_stable (lks s2) ->
    exists l', k s2 = Ret tt (set_lks l' s2) /\ idle l'.

(** The thread is inside [semdown] of a semaphore in use. *)
Definition in_down (ss : list sem) (i : nat) (th : thread) (id : Z) : Prop :=
  exists fuel k t, th = Blocked id k /\ down_cont i fuel id k /\
    aget ss id = Some t /\ 0 < refcount t.

Definition pinv (ss : list sem) (cur : option nat) (th : nat -> thread) (i : nat) (p : proc) : Prop :=
  0 <= p_priority p < MLF_LEVELS /\
  (p_state p = RUNNING <-> cur = Some i) /\
  match p_state p with
  | RUNNING => p_pgdir p <> 0
  | RUNNABLE => p_pgdir p <> 0 /\
      ((exists id, in_down ss i (th i) id) \/ exists k, th i = Preempted k /\ yield_cont k)
  | SLEEPING => p_pgdir p <> 0 /\
      exists id t, in_down ss i (th i) id /\ p_chan p = CSem (Z.to_nat id) /\
        aget ss id = Some t /\ value t = 0
  | _ => True
  end.

Definition bounded (v0 : nat -> Z) (u : nat -> Z) : Prop := forall n, v0 n + u n < 2 ^ 31.

Record inv (y : sys) : Prop := mkinv {
  inv_mlfq : exists q, mlfq (ks y) q;
  inv_len : length (procs (ks y)) = Z.to_nat NPROC;
  inv_idle : idle (lks (ks y));
  inv_cur : forall i, curproc (ks y) = Some i -> (i < Z.to_nat NPROC)%nat;
  inv_proc : forall i p, procs (ks y) !! i = Some p ->
    pinv (sems (ks y)) (curproc (ks y)) (thr y) i p;
  inv_sem : forall n t, sems (ks y) !! n = Some t -> 0 < refcount t ->
    value t = start y n + ups y n - downs y n /\ 0 <= value t;
  inv_downs : forall n, 0 <= downs y n
}.

(** A property that does not look at the queue links carries over. *)
Lemma same_procs_all (P : nat -> proc -> Prop) a b :
  (forall i p, P i (nonext p) -> P i p) -> (forall i p, P i p -> P i (nonext p)) ->
  same_procs a b -> (forall i p, b !! i = Some p -> P i p) -> forall i p, a !! i = Some p -> P i p.
Proof.
  intros H1 H2 Hs Hb i p Hp. symmetry in Hs.
  destruct (same_procs_lookup _ _ _ _ Hs Hp) as (r & Hr & Er).
  apply H1. rewrite <- Er. apply H2. by apply Hb.
Qed.

Lemma pinv_same ss cur th a b :
  same_procs a b -> (forall i p, b !! i = Some p -> pinv ss cur th i p) ->
  forall i p, a !! i = Some p -> pinv ss cur th i p.
Proof. apply same_procs_all; by intros ? []. Qed.

Lemma scheduler_leave_ret s :
  resumable (lks s) ->
  exists l' c, scheduler_leave s = Ret tt (set_lks l' (set_curproc None (set_cr3 c s))) /\
    lk_free L_ptable l' /\ ncli (lk_cpu l') = 0 /\
    forall k, k <> L_ptable -> lkof l' k = lkof (lks s) k.
Proof.
  intros (Hh & Hn & Hi). unfold scheduler_leave, switchkvm.
  set (s1 := set_curproc None (set_cr3 (v2p (kpgdir s)) s)).
  assert (Hr : release L_ptable s1 = Ret tt (set_lks (lk_rel L_ptable (lks s1)) s1))
    by (apply release_run; simpl; [done|done|lia]).
  exists (lk_rel L_ptable (lks s)), (v2p (kpgdir s)). split; [exact Hr|]. split_and!.
  - unfold lk_free, lk_rel. by rewrite lkof_insert, decide_True by done.
  - simpl. lia.
  - intros k Hk. unfold lk_rel. rewrite lkof_insert, decide_False by done. by destruct (lks s).
Qed.

(** The scheduler gets the CPU back from a process that left [ptable.lock] held. *)
Lemma leave_idle s :
  resumable (lks s) -> lk_free L_stable (lks s) ->
  exists l' c, scheduler_leave s = Ret tt (set_lks l' (set_curproc None (set_cr3 c s))) /\ idle l'.
Proof.
  intros Hr Hf. destruct (scheduler_leave_ret s Hr) as (l' & c & H1 & H2 & H3 & H4).
  exists l', c. split; [done|]. split; [done| |done]. unfold lk_free. by rewrite H4.
Qed.

Lemma aget_alter {A} (f : A -> A) (l : list A) id n t :
  0 <= id -> aget (alter f (Z.to_nat id) l) n = Some t ->
  exists t0, aget l n = Some t0 /\ t = if n =? id then f t0 else t0.
Proof.
  intros Hid [Hn Ht]%aget_Some. rewrite list_lookup_alter in Ht.
  destruct (Z.eqb_spec n id) as [->|Hne].
  - rewrite decide_True in Ht by done. apply fmap_Some in Ht as (t0 & H0 & ->).
    exists t0. split; [by apply aget_Some | done].
  - rewrite decide_False in Ht by lia. exists t. split; [by apply aget_Some | done].
Qed.

Lemma aget_alter_at {A} (f : A -> A) (l : list A) id n t0 :
  0 <= id -> aget l n = Some t0 ->
  aget (alter f (Z.to_nat id) l) n = Some (if n =? id then f t0 else t0).
Proof.
  intros Hid [Hn Ht]%aget_Some. apply aget_Some. split; [done|]. rewrite list_lookup_alter.
  destruct (Z.eqb_spec n id) as [->|Hne]; [by rewrite decide_True, Ht|].
  by rewrite decide_False by lia.
Qed.

Lemma in_down_upd ss i th n id f :
  (forall t, refcount (f t) = refcount t) -> 0 <= id ->
  in_down ss i th n -> in_down (alter f (Z.to_nat id) ss) i th n.
Proof.
  intros Hf Hid (fuel & k & t & H1 & H2 & H3 & H4).
  exists fuel, k, (if n =? id then f t else t). split_and!; [done|done|by apply aget_alter_at|].
  destruct (n =? id); by rewrite ?Hf.
Qed.

(** Changing a semaphore on which the process does not sleep. *)
Lemma pinv_upd_sem ss cur th i p id f :
  (forall t, refcount (f t) = refcount t) -> 0 <= id ->
  sleeps_on (CSem (Z.to_nat id)) p = false ->
  pinv ss cur th i p -> pinv (alter f (Z.to_nat id) ss) cur th i p.
Proof.
  intros Hf Hid Hs (H1 & H2 & H3). split; [done|]; split; [done|]. unfold sleeps_on in Hs.
  destruct (p_state p) eqn:E; try done.
  - destruct H3 as (G0 & n & t & G1 & G2 & G3 & G4). split; [done|].
    exists n, t. split_and!; [by apply in_down_upd|done| |done].
    rewrite (aget_alter_at _ _ _ _ t) by done. destruct (Z.eqb_spec n id) as [->|]; [|done].
    rewrite !bool_decide_true in Hs by done. done.
  - destruct H3 as (G0 & [[n G]|G]); (split; [done|]); [left; exists n; by apply in_down_upd | by right].
Qed.

(** Only a semaphore with value zero has sleepers. *)
Lemma pinv_not_asleep ss cur th i p id t :
  aget ss id = Some t -> value t <> 0 -> pinv ss cur th i p ->
  sleeps_on (CSem (Z.to_nat id)) p = false.
Proof.
  intros Ht Hv (_ & _ & H). unfold sleeps_on. apply andb_false_iff.
  destruct (bool_decide_reflect (p_state p = SLEEPING)) as [E|]; [|by left]. right.
  rewrite E in H. destruct H as (_ & n & t' & _ & G2 & G3 & G4).
  apply bool_decide_eq_false. rewrite G2. intros [= Hn].
  apply aget_Some in Ht as Ht1. apply aget_Some in G3 as G31. replace n with id in * by lia. congruence.
Qed.

(** ** Preservation *)

Lemma inv_lks y l' :
  inv y -> idle l' -> inv (mksys (set_lks l' (ks y)) (thr y) (start y) (ups y) (downs y)).
Proof.
  intros [[q Hq] H2 H3 H4 H5 H6 H7] Hi. split; try done. exists q. by apply (mlfq_ext _ (ks y)).
Qed.

Lemma inv_prio y : inv y -> prio_ok (ks y).
Proof.
  intros H. apply Forall_lookup. intros i p Hp. by destruct (inv_proc _ H i p Hp).
Qed.

Lemma inv_run y i :
  inv y -> curproc (ks y) = Some i ->
  exists p, procs (ks y) !! i = Some p /\ p_state p = RUNNING /\ p_pgdir p <> 0.
Proof.
  intros H Hc. destruct (lookup_lt_is_Some_2 (procs (ks y)) i) as [p Hp].
  { rewrite (inv_len _ H). by apply (inv_cur _ H). }
  exists p. destruct (inv_proc _ H i p Hp) as (_ & [_ Hr] & Hs). specialize (Hr Hc).
  rewrite Hr in Hs. done.
Qed.

(** The value of a semaphore after a counted operation. *)
Lemma inv_sem_upd (v0 u d : nat -> Z) ss id t f x :
  aget ss id = Some t -> (forall t, refcount (f t) = refcount t) ->
  value (f t) = value t + x -> 0 <= value t + x ->
  (forall n t, ss !! n = Some t -> 0 < refcount t -> value t = v0 n + u n - d n /\ 0 <= value t) ->
  forall u' d', (forall n, u' n - d' n = u n - d n + (if decide (n = Z.to_nat id) then x else 0)) ->
  forall n t, alter f (Z.to_nat id) ss !! n = Some t -> 0 < refcount t ->
    value t = v0 n + u' n - d' n /\ 0 <= value t.
Proof.
  intros [Hid Ht]%aget_Some Hf Hv Hx H u' d' Hud n r Hn Hr. specialize (Hud n).
  rewrite list_lookup_alter in Hn. case_decide as Hd.
  - subst n. rewrite decide_True in Hud by done. rewrite Ht in Hn. simpl in Hn. simplify_eq.
    rewrite Hf in Hr. destruct (H _ _ Ht Hr). rewrite Hv. lia.
  - rewrite decide_False in Hud by congruence. destruct (H _ _ Hn Hr). lia.
Qed.

Lemma fn_count v id (f : nat -> Z) n :
  count v id f n = f n + (if decide (n = Z.to_nat id) then (if v =? 0 then 1 else 0) else 0).
Proof.
  unfold count. destruct (v =? 0); [|case_decide; lia].
  destruct (decide (n = Z.to_nat id)) as [->|Hne].
  - rewrite fn_lookup_insert. lia.
  - rewrite fn_lookup_insert_ne by congruence. lia.
Qed.

Lemma pinv_woken ss cur th i p id f :
  (forall t, refcount (f t) = refcount t) -> 0 <= id ->
  pinv ss cur th i p -> pinv (alter f (Z.to_nat id) ss) cur th i (woken (CSem (Z.to_nat id)) p).
Proof.
  intros Hf Hid H. unfold woken. destruct (sleeps_on (CSem (Z.to_nat id)) p) eqn:E.
  - apply andb_prop in E as [Es%bool_decide_eq_true _]. destruct H as (H1 & H2 & H3).
    rewrite Es in H2, H3. destruct H3 as (G0 & n & t & G1 & _).
    split; [by apply newprio_range|]. split; [split; [done|by intros ?%H2]|].
    simpl. split; [done|]. left. exists n. by apply in_down_upd.
  - by apply pinv_upd_sem.
Qed.

Lemma inv_semup y id v s' :
  inv y -> semup id (ks y) = Ret v s' -> bounded (start y) (count v id (ups y)) ->
  inv (mksys s' (thr y) (start y) (count v id (ups y)) (downs y)).
Proof.
  intros H Hr Hb. pose proof (inv_idle _ H) as Hi. pose proof (semup_guard (ks y) id Hi) as Hg.
  destruct (aget (sems (ks y)) id) as [t|] eqn:Ht; [|congruence].
  destruct Hg as [Hpos|(l' & Hg & He)].
  2: { rewrite Hg in Hr. simplify_eq. apply inv_lks; [done|]. by rewrite <- He. }
  destruct (inv_mlfq _ H) as [q Hq]. apply aget_Some in Ht as Ht'. destruct Ht' as [Hid Ht'].
  destruct (inv_sem _ H _ _ Ht' Hpos) as [Hval Hnn].
  destruct (semup_ret (ks y) q id t Ht Hpos Hnn Hq (inv_prio _ H) (inv_len _ H) Hi)
    as (ps & m & l' & H1 & [q' H2] & H3 & H4).
  rewrite H1 in Hr. simplify_eq.
  assert (Hfin : value (sem_inc t) = value t + 1).
  { simpl. apply s32_small. specialize (Hb (Z.to_nat id)). rewrite fn_count, decide_True in Hb by done.
    simpl in Hb. pose proof (inv_downs _ H (Z.to_nat id)). unfold is_s32. lia. }
  split; simpl.
  - exists q'. by apply (mlfq_ext _ (set_procs ps (set_mlf m (ks y)))).
  - rewrite (same_procs_length _ _ H3). destruct (_ =? 0); rewrite ?length_fmap; apply H.
  - by rewrite <- H4.
  - apply H.
  - apply (pinv_same _ _ _ _ _ H3). intros i p Hp. destruct (Z.eqb_spec (value t) 0) as [Hz|Hz].
    + rewrite list_lookup_fmap in Hp. apply fmap_Some in Hp as (p0 & Hp0 & ->).
      apply pinv_woken; [done|done|]. by apply (inv_proc _ H).
    + pose proof (inv_proc _ H i p Hp) as Hpi.
      apply pinv_upd_sem; [done|done|by eapply pinv_not_asleep|done].
  - eapply (inv_sem_upd (start y) (ups y) (downs y) _ id t _ 1 Ht); [done|done|lia|apply H|].
    intros n. rewrite fn_count. case_decide; simpl; lia.
  - apply H.
Qed.

(** The current process goes through, or is put to sleep by, [semdown]. *)
Lemma inv_down_pass y fuel id t l0 v s' :
  inv y -> idle l0 -> aget (sems (ks y)) id = Some t -> 0 < refcount t -> value t <> 0 ->
  semdown_tail fuel id (set_lks (lk_acq L_stable l0) (ks y)) = Ret v s' ->
  bounded (start y) (ups y) ->
  inv (mksys s' (thr y) (start y) (ups y) (count v id (downs y))).
Proof.
  intros H Hi Ht Hpos Hv Hr Hb.
  destruct (semdown_tail_pass fuel (set_lks (lk_acq L_stable l0) (ks y)) id t l0 Ht Hv Hi eq_refl)
    as (l' & H1 & H2).
  rewrite H1 in Hr. simplify_eq. apply aget_Some in Ht as Ht'. destruct Ht' as [Hid Ht'].
  destruct (inv_sem _ H _ _ Ht' Hpos) as [Hval Hnn].
  assert (Hfin : value (sem_dec t) = value t + -1).
  { simpl. rewrite s32_small; [lia|]. specialize (Hb (Z.to_nat id)).
    pose proof (inv_downs _ H (Z.to_nat id)). unfold is_s32. lia. }
  destruct H as [[q Hq] G2 G3 G4 G5 G6 G7]. split; simpl.
  - exists q. by apply (mlfq_ext _ (ks y)).
  - done.
  - by rewrite <- H2.
  - done.
  - intros i p Hp. apply pinv_upd_sem; [done|done|by eapply pinv_not_asleep, G5|by apply G5].
  - eapply (inv_sem_upd (start y) (ups y) (downs y) _ id t _ (-1) Ht); [done|done|lia|done|].
    intros n. rewrite fn_count. case_decide; simpl; lia.
  - intros n. rewrite fn_count. specialize (G7 n). case_decide; simpl; lia.
Qed.

Lemma pinv_thr ss cur th th' i p : th' i = th i -> pinv ss cur th i p -> pinv ss cur th' i p.
Proof. intros E. unfold pinv. by rewrite E. Qed.

(** The current process [i] gives up the CPU as [f], every other process stays. *)
Lemma inv_leave y i p f x ps s2 q :
  inv y -> curproc (ks y) = Some i -> procs (ks y) !! i = Some p ->
  mlfq s2 q -> procs s2 = ps -> same_procs ps (alter f i (procs (ks y))) ->
  sems s2 = sems (ks y) -> curproc s2 = None -> idle (lks s2) ->
  pinv (sems (ks y)) None (<[i := x]> (thr y)) i (f p) ->
  inv (mksys s2 (<[i := x]> (thr y)) (start y) (ups y) (downs y)).
Proof.
  intros [_ G2 G3 G4 G5 G6 G7] Hc Hp Hq Hps Hsp Hse Hcu Hid Hpi. split; simpl.
  - by exists q.
  - by rewrite Hps, (same_procs_length _ _ Hsp), length_alter.
  - done.
  - by rewrite Hcu.
  - rewrite Hps, Hse, Hcu. apply (pinv_same _ _ _ _ _ Hsp). intros j r Hj.
    destruct (decide (j = i)) as [->|Hne].
    + rewrite (lookup_alter_proc' _ _ _ _ Hp) in Hj. by simplify_eq.
    + rewrite list_lookup_alter_ne in Hj by done. apply (pinv_thr _ _ (thr y)).
      { by rewrite fn_lookup_insert_ne. }
      destruct (G5 j r Hj) as (P1 & P2 & P3). split; [done|]. split; [|done].
      rewrite P2, Hc. split; [congruence | done].
  - by rewrite Hse.
  - done.
Qed.

Lemma inv_down_block y i fuel id t l0 s1 s2 k :
  inv y -> idle l0 -> aget (sems (ks y)) id = Some t -> 0 < refcount t -> value t = 0 ->
  curproc (ks y) = Some i ->
  semdown_tail fuel id (set_lks (lk_acq L_stable l0) (ks y)) = Swtch s1 k ->
  scheduler_leave s1 = Ret tt s2 ->
  inv (mksys s2 (<[i := Blocked id k]> (thr y)) (start y) (ups y) (downs y)).
Proof.
  intros H Hi Ht Hpos Hv Hc Hr Hl. destruct (inv_run _ _ H Hc) as (p & Hp & Hps & Hpg).
  destruct (inv_mlfq _ H) as [q Hq].
  assert (Hq' : mlfq (set_lks (lk_acq L_stable l0) (ks y)) q) by by apply (mlfq_ext _ (ks y)).
  pose proof (semdown_tail_block fuel (set_lks (lk_acq L_stable l0) (ks y)) q id t l0 i p
    Ht Hv Hi eq_refl Hq' Hc Hp Hps) as Hb.
  destruct fuel as [|f]; [by rewrite Hb in Hr|].
  destruct Hb as (l1 & k1 & H1 & H2 & H3 & H4 & H5). rewrite H1 in Hr. simplify_eq.
  destruct (leave_idle (set_lks l1 (upd_proc i (asleep (CSem (Z.to_nat id)))
    (set_lks (lk_acq L_stable l0) (ks y)))) H4 H3) as (l' & c & E & Hid).
  rewrite E in Hl. simplify_eq.
  eapply (inv_leave y i p (asleep (CSem (Z.to_nat id)))); try done.
  - by eapply mlfq_ext, H2.
  - destruct (inv_proc _ H i p Hp) as (P1 & _ & _). split.
    { simpl. unfold MLF_LEVELS in *. bdestr. }
    split; [done|]. simpl. split; [done|]. exists id, t. split_and!; [|done|done|done].
    exists f, k, t. by rewrite fn_lookup_insert.
Qed.

Lemma inv_preempt y i s1 s2 k :
  inv y -> curproc (ks y) = Some i ->
  yield (ks y) = Swtch s1 k -> scheduler_leave s1 = Ret tt s2 ->
  inv (mksys s2 (<[i := Preempted k]> (thr y)) (start y) (ups y) (downs y)).
Proof.
  intros H Hc Hr Hl. destruct (inv_run _ _ H Hc) as (p & Hp & Hps & Hpg).
  destruct (inv_mlfq _ H) as [q Hq]. destruct (inv_proc _ H i p Hp) as (P1 & _ & _).
  destruct (inv_idle _ H) as [I1 I2 I3].
  destruct (yield_swtch (ks y) q i p Hq Hc Hp Hps P1 I1 I3)
    as (ps & m & l1 & k1 & H1 & H2 & H3 & (H4 & _ & H4') & H5).
  rewrite H1 in Hr. simplify_eq.
  destruct (leave_idle (set_lks l1 (set_procs ps (set_mlf m (ks y)))) H4) as (l' & c & E & Hid).
  { unfold lk_free. simpl. by rewrite H4'. }
  rewrite E in Hl. simplify_eq.
  eapply (inv_leave y i p yielded_proc); try done.
  - by eapply mlfq_ext, H2.
  - split; [simpl; unfold MLF_LEVELS in *; lia|]. split; [done|]. simpl. split; [done|]. right.
    exists k. rewrite fn_lookup_insert. split; [done|]. intros t Ht1 Ht2.
    destruct (H5 t Ht1) as (l2 & G1 & G2 & G3 & _ & G4). exists l2. split; [done|].
    split; [done| |done]. unfold lk_free. by rewrite G4.
Qed.

(** The scheduler makes process [i] the current one. *)
Lemma inv_dispatch y i s1 :
  inv y -> curproc (ks y) = None -> scheduler_enter (ks y) = Ret (Some i) s1 ->
  inv (mksys (set_lks (lks (ks y)) s1) (<[i := User]> (thr y)) (start y) (ups y) (downs y)) /\
  curproc s1 = Some i /\ sems s1 = sems (ks y) /\ resumable (lks s1) /\ lk_free L_stable (lks s1) /\
  ((exists id, in_down (sems (ks y)) i (thr y i) id) \/
   exists k, thr y i = Preempted k /\ yield_cont k).
Proof.
  intros H Hc Hr. destruct (inv_idle _ H) as [I1 I2 I3]. destruct (inv_mlfq _ H) as [q Hq].
  assert (Hpg : forall i p, procs (ks y) !! i = Some p -> p_state p = RUNNABLE -> p_pgdir p <> 0).
  { intros j p Hp Hs. destruct (inv_proc _ H j p Hp) as (_ & _ & P). rewrite Hs in P. by destruct P. }
  destruct (choose q) as [[i' q']|] eqn:Hch.
  2: { destruct (scheduler_enter_none _ q Hq I1 I3 Hch) as (l' & E & _). congruence. }
  destruct (scheduler_enter_some _ q i' q' Hq I1 I3 Hpg Hch)
    as (p & ps & m & l' & E & Hp & Hs & H4 & H5 & H6 & _ & H7).
  rewrite E in Hr. simplify_eq. destruct (inv_proc _ H i p Hp) as (P1 & _ & P3).
  rewrite Hs in P3. split; [|split_and!; [done|done|done| |by apply P3]].
  2: { unfold lk_free. simpl. by rewrite H7. }
  destruct H as [_ G2 G3 G4 G5 G6 G7]. split; simpl; try done.
  - exists q'. by apply (mlfq_ext _ (sched_state i p ps m (ks y))).
  - by rewrite (same_procs_length _ _ H5), length_alter.
  - intros j [= <-]. apply lookup_lt_Some in Hp. lia.
  - apply (pinv_same _ _ _ _ _ H5). intros j r Hj. destruct (decide (j = i)) as [->|Hne].
    + rewrite (lookup_alter_proc' _ _ _ _ Hp) in Hj. simplify_eq. split; [done|]. split; [done|].
      simpl. by apply P3.
    + rewrite list_lookup_alter_ne in Hj by done. apply (pinv_thr _ _ (thr y)).
      { by rewrite fn_lookup_insert_ne. }
      destruct (G5 j r Hj) as (Q1 & Q2 & Q3). split; [done|]. split; [|done].
      rewrite Q2, Hc. split; [done | congruence].
Qed.

(** A change of the running process that concerns neither its state nor the queues. *)
Lemma inv_self y i f :
  (forall p, p_next (f p) = p_next p) -> (forall p, p_state (f p) = p_state p) ->
  (forall p, p_priority (f p) = p_priority p) -> (forall p, p_pgdir (f p) = p_pgdir p) ->
  inv y -> curproc (ks y) = Some i ->
  inv (mksys (upd_proc i f (ks y)) (thr y) (start y) (ups y) (downs y)).
Proof.
  intros F1 F2 F3 F4 H Hc. destruct (inv_run _ _ H Hc) as (p & Hp & Hs & _).
  destruct H as [[q Hq] G2 G3 G4 G5 G6 G7]. split; try done.
  - exists q. by apply mlfq_upd_neutral.
  - simpl. by rewrite length_alter.
  - simpl. intros j r Hj. rewrite list_lookup_alter in Hj. case_decide as Hd; [|by apply G5].
    subst j. rewrite Hp in Hj. simpl in Hj. simplify_eq.
    destruct (G5 i p Hp) as (P1 & P2 & P3). unfold pinv. rewrite F2, F3, F4.
    split; [done|]. split; [done|]. rewrite Hs in *. done.
Qed.

Lemma inv_chan y i c :
  inv y -> curproc (ks y) = Some i ->
  inv (mksys (upd_proc i (set_p_chan c) (ks y)) (thr y) (start y) (ups y) (downs y)).
Proof. by apply inv_self. Qed.

(** The parts of the kernel state the invariant reads. *)
Lemma inv_ext y s :
  procs s = procs (ks y) -> mlf s = mlf (ks y) -> sems s = sems (ks y) ->
  curproc s = curproc (ks y) -> idle (lks s) -> inv y ->
  inv (mksys s (thr y) (start y) (ups y) (downs y)).
Proof.
  intros E1 E2 E3 E4 Hi [[q Hq] G2 G3 G4 G5 G6 G7]. split; simpl; rewrite ?E1, ?E3, ?E4; try done.
  exists q. by apply (mlfq_ext _ (ks y)).
Qed.

(** Another table, that keeps the semaphores with waiters and whose values
    agree with the counters. *)
Lemma inv_table y ss v u d :
  inv y ->
  (forall j id k t, thr y j = Blocked id k -> aget (sems (ks y)) id = Some t -> 0 < refcount t ->
     exists t', aget ss id = Some t' /\ 0 < refcount t' /\ value t' = value t) ->
  (forall n t, ss !! n = Some t -> 0 < refcount t -> value t = v n + u n - d n /\ 0 <= value t) ->
  (forall n, 0 <= d n) ->
  inv (mksys (set_sems ss (ks y)) (thr y) v u d).
Proof.
  intros [[q Hq] G2 G3 G4 G5 G6 G7] Hw Hv Hd. split; try done.
  { exists q. by apply (mlfq_ext _ (ks y)). }
  assert (Hin : forall i id, in_down (sems (ks y)) i (thr y i) id -> in_down ss i (thr y i) id).
  { intros i id (fuel & k & t & H1 & H2 & H3 & H4).
    destruct (Hw i id k t H1 H3 H4) as (t' & K1 & K2 & _). by exists fuel, k, t'. }
  intros i p Hp. destruct (G5 i p Hp) as (P1 & P2 & P3). split; [done|]. split; [done|].
  destruct (p_state p); try done.
  - destruct P3 as (P0 & id & t & Hd' & Hc & Ha & Hz). split; [done|]. pose proof Hd' as Hd2.
    destruct Hd2 as (fuel & k & t2 & H1 & H2 & H3 & H4). rewrite Ha in H3. simplify_eq.
    destruct (Hw i id k t2 H1 Ha H4) as (t' & K1 & K2 & K3).
    exists id, t'. split_and!; [by apply Hin|done|done|by rewrite K3].
  - destruct P3 as (P0 & [[id P]|P]); (split; [done|]); [left; exists id; by apply Hin|by right].
Qed.

(** One reference more, or one less that is not the last of a semaphore with
    waiters. *)
Lemma inv_refs y id x :
  inv y ->
  (forall j k t, thr y j = Blocked id k -> aget (sems (ks y)) id = Some t -> 0 < refcount t ->
     0 < refcount t + x) ->
  (forall t, aget (sems (ks y)) id = Some t -> 0 < refcount t + x -> 0 < refcount t) ->
  0 <= id ->
  inv (mksys (upd_sem id (fun t => set_refcount (refcount t + x) t) (ks y))
         (thr y) (start y) (ups y) (downs y)).
Proof.
  intros H Hw Hn Hid. apply inv_table; [done| | |apply H].
  - intros j n k t Hj Ha Hr. rewrite (aget_alter_at _ _ _ _ t) by done. eexists. split; [reflexivity|].
    destruct (Z.eqb_spec n id) as [->|]; [|done]. split; [by eapply Hw|done].
  - intros n t Ht Hr. rewrite list_lookup_alter in Ht. case_decide as Hd; [|by apply H].
    apply fmap_Some in Ht as (t0 & Ht0 & ->). subst n. apply (inv_sem _ H _ t0 Ht0).
    apply Hn; [|done]. by apply aget_Some.
Qed.

Lemma inv_kill y pid v s' :
  inv y -> kill pid (ks y) = Ret v s' -> inv (mksys s' (thr y) (start y) (ups y) (downs y)).
Proof.
  intros H Hr. destruct (inv_mlfq _ H) as [q Hq]. pose proof (inv_idle _ H) as Hi.
  destruct (kill_spec pid (ks y) q Hq (idle_ptable _ Hi) (idle_cli _ Hi)) as (s1 & Hk & Hl & Hse & Hcu).
  destruct (scan _ (procs (ks y))) as [i|].
  2: { destruct Hk as (E & Ep & Em). rewrite E in Hr. simplify_eq.
       destruct H as [_ G2 G3 G4 G5 G6 G7]. split; simpl; rewrite ?Ep, ?Hse, ?Hcu; try done.
       - by exists q.
       - by rewrite <- Hl. }
  destruct Hk as (p & Hp & _ & E & Hsp & Hm). rewrite E in Hr. simplify_eq.
  destruct H as [_ G2 G3 G4 G5 G6 G7]. split; simpl; rewrite ?Hse, ?Hcu; try done.
  - by eexists.
  - by rewrite (same_procs_length _ _ Hsp), length_alter.
  - by rewrite <- Hl.
  - apply (pinv_same _ _ _ _ _ Hsp). intros j r Hj. rewrite list_lookup_alter in Hj.
    case_decide as Hd; [|by apply G5]. subst j. rewrite Hp in Hj. simpl in Hj. simplify_eq.
    destruct (G5 i p Hp) as (P1 & P2 & P3). unfold killed.
    destruct (decide (p_state p = SLEEPING)) as [Hs|Hs];
      [rewrite bool_decide_true by done|rewrite bool_decide_false by done; exact (conj P1 (conj P2 P3))].
    rewrite Hs in P2, P3. destruct P3 as (P0 & id & t & P & _).
    split; [by apply newprio_range|]. split; [split; [done|by intros ?%P2]|]. simpl.
    split; [done|]. left. by exists id.
Qed.

Lemma insert_as_alter {A} (f : A -> A) (l : list A) i x :
  l !! i = Some x -> <[i := f x]> l = alter f i l.
Proof. intros H. by rewrite (alter_as_insert _ _ _ _ H). Qed.

Lemma inv_semget y i id v r s' :
  inv y -> curproc (ks y) = Some i -> (id = -1 -> 0 <= v) -> semget id v (ks y) = Ret r s' ->
  inv (if (id =? -1) && (0 <=? r) then created (Z.to_nat r) v s' y
       else mksys s' (thr y) (start y) (ups y) (downs y)).
Proof.
  intros H Hc Hv Hr. destruct (inv_run _ _ H Hc) as (p & Hp & _). pose proof (inv_idle _ H) as Hi.
  destruct (semget_cases (ks y) i p id v r s' Hc Hp Hi Hr)
    as (l' & Hl & [(Hr0 & ->)|[(t & k & -> & -> & Ht & ->)|(t & k & Hid & Ha & Hr0 & ->)]]).
  - rewrite (proj2 (Z.leb_gt 0 r)), andb_false_r by lia. by apply inv_ext.
  - rewrite (proj2 (Z.leb_le 0 (Z.of_nat t))) by lia. rewrite Nat2Z.id.
    change (-1 =? -1) with true. cbn [andb]. unfold created.
    apply scan_Some in Ht as [(t0 & Ht0 & Hz%Z.eqb_eq) _].
    refine (inv_ext (mksys (set_sems (<[t := mksem v 1]> (sems (ks y)))
      (upd_proc i (with_sem k t) (ks y))) (thr y) _ _ _) _ _ _ _ _ _ _); try done.
    { simpl. by apply insert_as_alter. }
    refine (inv_table (mksys (upd_proc i (with_sem k t) (ks y)) (thr y) (start y) (ups y) (downs y))
      _ _ _ _ _ _ _ _); [by apply inv_self| | |].
    + intros j n k' t' _ Ha Hpos. exists t'. apply aget_Some in Ha as [Hn Ha].
      split_and!; [|done|done]. apply aget_Some. split; [done|].
      rewrite list_lookup_insert_ne; [done|]. intros ->. simpl in Ha. rewrite Ha in Ht0. simplify_eq. lia.
    + intros n t' Hn Hpos. destruct (decide (n = t)) as [->|Hne].
      * rewrite list_lookup_insert_eq in Hn by by eapply lookup_lt_Some. simplify_eq. simpl.
        unfold fn_insert. rewrite !decide_True by done. specialize (Hv eq_refl). lia.
      * rewrite list_lookup_insert_ne in Hn by done. simpl. unfold fn_insert.
        rewrite !decide_False by done. by apply (inv_sem _ H).
    + intros n. simpl. unfold fn_insert. case_decide; [lia|apply H].
  - rewrite (proj2 (Z.eqb_neq id (-1))) by done. simpl. apply aget_Some in Ha as Ha'.
    refine (inv_ext (mksys (upd_sem id (fun t => set_refcount (refcount t + 1) t)
      (upd_proc i (with_ref k (Z.to_nat id)) (ks y))) (thr y) (start y) (ups y) (downs y))
      _ _ _ _ _ _ _); try done.
    refine (inv_refs (mksys (upd_proc i (with_ref k (Z.to_nat id)) (ks y)) (thr y) (start y) (ups y)
      (downs y)) id 1 _ _ _ _); [by apply inv_self| | |by apply Ha'].
    + intros. lia.
    + intros t' Ht'. simpl in Ht'. rewrite Ha in Ht'. simplify_eq. lia.
Qed.

Lemma inv_semfree y i id r s' :
  inv y -> curproc (ks y) = Some i -> keeps_waiters y id -> semfree id (ks y) = Ret r s' ->
  inv (mksys s' (thr y) (start y) (ups y) (downs y)).
Proof.
  intros H Hc Hk Hr. destruct (inv_run _ _ H Hc) as (p & Hp & _). pose proof (inv_idle _ H) as Hi.
  destruct (semfree_cases (ks y) i p id r s' Hc Hp Hi Hr) as [->|(t & k & l' & Ha & Hl & ->)].
  { by apply inv_ext. }
  apply aget_Some in Ha as Ha'.
  refine (inv_ext (mksys (upd_sem id (fun t => set_refcount (refcount t + -1) t)
    (upd_proc i (without_sem k) (ks y))) (thr y) (start y) (ups y) (downs y)) _ _ _ _ _ _ _); try done.
  { simpl. by apply insert_as_alter. }
  refine (inv_refs (mksys (upd_proc i (without_sem k) (ks y)) (thr y) (start y) (ups y) (downs y))
    id (-1) _ _ _ _); [by apply inv_self| | |by apply Ha'].
  - intros j k' t' Hj Ht' Hpos. simpl in Hj, Ht'. destruct (decide (refcount t' = 1)) as [E|]; [|lia].
    by destruct (Hk t' Ht' E j k').
  - intros. lia.
Qed.

(** A process resumed inside [semdown] is back at the test of the value. *)
Lemma inv_resume y i s1 id k :
  inv y -> curproc (ks y) = None -> scheduler_enter (ks y) = Ret (Some i) s1 ->
  thr y i = Blocked id k ->
  exists fuel t l0 y1, k s1 = semdown_tail fuel id (set_lks (lk_acq L_stable l0) (ks y1)) /\
    inv y1 /\ curproc (ks y1) = Some i /\ idle l0 /\
    aget (sems (ks y1)) id = Some t /\ 0 < refcount t /\
    thr y1 = <[i := User]> (thr y) /\ start y1 = start y /\ ups y1 = ups y /\ downs y1 = downs y.
Proof.
  intros H Hc Hr Ht. destruct (inv_dispatch y i s1 H Hc Hr) as (H1 & H2 & H3 & H4 & H5 & H6).
  destruct H6 as [(n & fuel & k' & t & E & Hd & Ha & Hpos)|(k' & E & _)]; [|congruence].
  rewrite Ht in E. simplify_eq. destruct (inv_run _ _ H1 H2) as (p & Hp & _).
  destruct (Hd s1 p H4 H2 Hp H5) as (l0 & Hi & Ek).
  eexists fuel, t, l0, (mksys (upd_proc i (set_p_chan CNull) (set_lks (lks (ks y)) s1)) _ _ _ _).
  split_and!; [exact Ek|by apply (inv_chan _ _ CNull H1)|exact H2|done| |done|reflexivity..].
  simpl. by rewrite H3.
Qed.

(** [semdown] returns exactly when the value is not zero. *)
Lemma tail_returns y i fuel id t l0 v s' :
  inv y -> idle l0 -> aget (sems (ks y)) id = Some t -> curproc (ks y) = Some i ->
  semdown_tail fuel id (set_lks (lk_acq L_stable l0) (ks y)) = Ret v s' -> value t <> 0.
Proof.
  intros H Hi Ha Hc Hr E. destruct (inv_run _ _ H Hc) as (p & Hp & Hps & _).
  destruct (inv_mlfq _ H) as [q Hq].
  assert (Hq' : mlfq (set_lks (lk_acq L_stable l0) (ks y)) q) by by apply (mlfq_ext _ (ks y)).
  pose proof (semdown_tail_block fuel (set_lks (lk_acq L_stable l0) (ks y)) q id t l0 i p
    Ha E Hi eq_refl Hq' Hc Hp Hps) as Hb.
  destruct fuel as [|f]; [congruence|]. destruct Hb as (? & ? & Hb & _). congruence.
Qed.

Lemma tail_blocks y fuel id t l0 s1 k :
  inv y -> idle l0 -> aget (sems (ks y)) id = Some t ->
  semdown_tail fuel id (set_lks (lk_acq L_stable l0) (ks y)) = Swtch s1 k -> value t = 0.
Proof.
  intros H Hi Ha Hr. destruct (decide (value t = 0)) as [|E]; [done|].
  destruct (semdown_tail_pass fuel (set_lks (lk_acq L_stable l0) (ks y)) id t l0 Ha E Hi eq_refl)
    as (l' & Hp & _). congruence.
Qed.

(** The table of threads matters pointwise. *)
Lemma inv_thr_ext s th th' v u d :
  (forall i, th i = th' i) -> inv (mksys s th v u d) -> inv (mksys s th' v u d).
Proof.
  intros E [G1 G2 G3 G4 G5 G6 G7]. split; try done. intros i p Hp. simpl in *.
  apply (pinv_thr _ _ th); [done|]. by apply G5.
Qed.

Lemma inv_semdown y i fuel id v s' :
  inv y -> curproc (ks y) = Some i -> bounded (start y) (ups y) ->
  semdown fuel id (ks y) = Ret v s' ->
  inv (mksys s' (thr y) (start y) (ups y) (count v id (downs y))).
Proof.
  intros H Hc Hb Hr. pose proof (inv_idle _ H) as Hi.
  pose proof (semdown_guard fuel (ks y) id Hi) as Hg.
  destruct (aget (sems (ks y)) id) as [t|] eqn:Ha; [|congruence].
  destruct Hg as [Hpos|(l' & Hg & He)].
  - rewrite (semdown_enter _ _ _ _ Ha Hpos Hi) in Hr.
    eapply inv_down_pass; eauto using tail_returns.
  - rewrite Hg in Hr. simplify_eq. apply inv_lks; [done|]. by rewrite <- He.
Qed.

Lemma inv_block y i fuel id s1 s2 k :
  inv y -> curproc (ks y) = Some i ->
  semdown fuel id (ks y) = Swtch s1 k -> scheduler_leave s1 = Ret tt s2 ->
  inv (mksys s2 (<[i := Blocked id k]> (thr y)) (start y) (ups y) (downs y)).
Proof.
  intros H Hc Hr Hl. pose proof (inv_idle _ H) as Hi.
  pose proof (semdown_guard fuel (ks y) id Hi) as Hg.
  destruct (aget (sems (ks y)) id) as [t|] eqn:Ha; [|congruence].
  destruct Hg as [Hpos|(l' & Hg & He)]; [|congruence].
  rewrite (semdown_enter _ _ _ _ Ha Hpos Hi) in Hr.
  eapply inv_down_block; eauto using tail_blocks.
Qed.

Lemma inv_wake y i id v s1 s2 k :
  inv y -> curproc (ks y) = None -> bounded (start y) (ups y) ->
  scheduler_enter (ks y) = Ret (Some i) s1 -> thr y i = Blocked id k -> k s1 = Ret v s2 ->
  inv (mksys s2 (<[i := User]> (thr y)) (start y) (ups y) (count v id (downs y))).
Proof.
  intros H Hc Hb Hr Ht Hk. destruct (inv_resume y i s1 id k H Hc Hr Ht)
    as (fuel & t & l0 & y1 & E & H1 & H2 & H3 & H4 & H5 & <- & Es & Eu & Ed).
  rewrite E in Hk. rewrite <- Es, <- Eu, <- Ed. rewrite <- Es, <- Eu in Hb.
  eapply inv_down_pass; eauto using tail_returns.
Qed.

Lemma inv_again y i id s1 s2 s3 k k' :
  inv y -> curproc (ks y) = None ->
  scheduler_enter (ks y) = Ret (Some i) s1 -> thr y i = Blocked id k -> k s1 = Swtch s2 k' ->
  scheduler_leave s2 = Ret tt s3 ->
  inv (mksys s3 (<[i := Blocked id k']> (thr y)) (start y) (ups y) (downs y)).
Proof.
  intros H Hc Hr Ht Hk Hl. destruct (inv_resume y i s1 id k H Hc Hr Ht)
    as (fuel & t & l0 & y1 & E & H1 & H2 & H3 & H4 & H5 & Et & <- & <- & <-).
  rewrite E in Hk. apply (inv_thr_ext _ (<[i := Blocked id k']> (thr y1))).
  { intros j. rewrite Et. destruct (decide (i = j)) as [<-|].
    - by rewrite !fn_lookup_insert.
    - by rewrite !fn_lookup_insert_ne. }
  eapply inv_down_block; eauto using tail_blocks.
Qed.

Lemma inv_step y y' : inv y -> step y y' -> bounded (start y') (ups y') -> inv y'.
Proof.
  intros H Hst. destruct Hst as [y i id v s' Hc Hr|y i fuel id v s' Hc Hr|y i fuel id s1 s2 k Hc Hr Hl
    |y i s1 s2 k Hc Hr Hl|y s1 Hc Hr|y i s1 s2 k Hc Hr Ht Hk|y i id v s1 s2 k Hc Hr Ht Hk
    |y i id s1 s2 s3 k k' Hc Hr Ht Hk Hl|y i pid v s' Hc Hr|y i id v r s' Hc Hv Hr|y i id r s' Hc Hk Hr]; intros Hb.
  - by apply inv_semup.
  - by eapply inv_semdown.
  - by eapply inv_block.
  - by eapply inv_preempt.
  - destruct (inv_idle _ H) as [I1 I2 I3]. destruct (inv_mlfq _ H) as [q Hq].
    destruct (choose q) as [[i q']|] eqn:Hch.
    + destruct (scheduler_enter_some _ q i q' Hq I1 I3) as (p & ps & m & l' & E & _); [|done|congruence].
      intros j p Hp Hs. destruct (inv_proc _ H j p Hp) as (_ & _ & P). rewrite Hs in P. by destruct P.
    + destruct (scheduler_enter_none _ q Hq I1 I3 Hch) as (l' & E & E1 & E2).
      rewrite E in Hr. simplify_eq. apply inv_lks; [done|].
      split; unfold lk_free; rewrite ?E2; done.
  - destruct (inv_dispatch y i s1 H Hc Hr) as (H1 & H2 & H3 & H4 & H5 & [H6|H6]).
    + destruct H6 as (n & fuel & k' & t & E & _). congruence.
    + destruct H6 as (k' & E & Hy). rewrite Ht in E. simplify_eq.
      destruct (Hy s1 H4 H5) as (l' & E1 & E2). rewrite E1 in Hk. simplify_eq.
      exact (inv_lks _ l' H1 E2).
  - by eapply inv_wake.
  - by eapply inv_again.
  - by eapply inv_kill.
  - by eapply inv_semget.
  - by eapply inv_semfree.
Qed.

(** ** The contract of a semaphore *)

(** Processes that have not run yet return from [forkret], which releases
    [ptable.lock]; none sleeps. *)
Record initial (y : sys) : Prop := mkinitial {
  init_mlfq : exists q, mlfq (ks y) q;
  init_len : length (procs (ks y)) = Z.to_nat NPROC;
  init_idle : idle (lks (ks y));
  init_cur : forall i, curproc (ks y) = Some i -> (i < Z.to_nat NPROC)%nat;
  init_proc : forall i p, procs (ks y) !! i = Some p ->
    0 <= p_priority p < MLF_LEVELS /\ (p_state p = RUNNING <-> curproc (ks y) = Some i) /\
    match p_state p with
    | RUNNING => p_pgdir p <> 0
    | RUNNABLE => p_pgdir p <> 0 /\ thr y i = Preempted (release L_ptable)
    | SLEEPING => False
    | _ => True
    end;
  init_sem : forall n t, sems (ks y) !! n = Some t -> 0 < refcount t ->
    value t = start y n /\ 0 <= value t;
  init_count : forall n, ups y n = 0 /\ downs y n = 0
}.

Lemma forkret_cont : yield_cont (release L_ptable).
Proof.
  intros s (Hh & Hn & Hi) Hf. rewrite release_run by (done || lia).
  eexists. split; [reflexivity|]. split.
  - unfold lk_free, lk_rel. by rewrite lkof_insert, decide_True by done.
  - unfold lk_free, lk_rel. rewrite lkof_insert, decide_False by done. by destruct (lks s).
  - simpl. lia.
Qed.

Lemma initial_inv y : initial y -> inv y.
Proof.
  intros [H1 H2 H3 H4 H5 H6 H7]. split; try done.
  - intros i p Hp. destruct (H5 i p Hp) as (P1 & P2 & P3). split; [done|]. split; [done|].
    destruct (p_state p); try done. destruct P3 as [P3 P4]. split; [done|]. right.
    exists (release L_ptable). split; [done | apply forkret_cont].
  - intros n t Hn Ht. destruct (H7 n) as [-> ->]. destruct (H6 n t Hn Ht). lia.
  - intros n. destruct (H7 n) as [_ ->]. lia.
Qed.

(** A step after which no counter has overflowed. *)
Definition small_step (y y' : sys) : Prop := step y y' /\ bounded (start y') (ups y').

Lemma inv_reachable y0 y : initial y0 -> rtc small_step y0 y -> inv y.
Proof.
  intros H0 Hr. revert y Hr. apply (rtc_ind_r inv y0); [by apply initial_inv|].
  intros y y' _ [Hs Hb] IH. by eapply inv_step.
Qed.

(** C14: the processes call [semdown], [semup], [semget], [semfree] and [kill] and
    are preempted by the timer in any order, under the scheduler.  As long as
    no semaphore is created with a negative value, the last reference to a
    semaphore is not freed while a process waits for it, and no counter
    overflows: the value of every semaphore in use is the value it was created
    with plus the ups minus the downs completed since and is not negative, and
    a process sleeps on a semaphore only while its value is zero (no wake-up is
    lost).  ([fork] and [exit] do not happen during the run.) *)
Theorem semaphore_contract y0 y id t :
  initial y0 -> rtc small_step y0 y ->
  sems (ks y) !! id = Some t -> 0 < refcount t ->
  value t = start y id + ups y id - downs y id /\ 0 <= value t /\
  (forall i p, procs (ks y) !! i = Some p -> p_state p = SLEEPING -> p_chan p = CSem id ->
     value t = 0).
Proof.
  intros H0 Hr Ht Hpos. pose proof (inv_reachable _ _ H0 Hr) as H.
  destruct (inv_sem _ H _ _ Ht Hpos) as [H1 H2]. split_and!; [done|done|].
  intros i p Hp Hs Hc. destruct (inv_proc _ H i p Hp) as (_ & _ & P). rewrite Hs in P.
  destruct P as (_ & n & t' & _ & E & Ha & Hv). rewrite E in Hc. simplify_eq.
  apply aget_Some in Ha as [_ Ha]. congruence.
Qed.

(** ** A run: process 0 waits for semaphore 0, process 1 ups it *)

Section Outcome.
Context {A : Type} (d : A).

Definition st_of (r : res kst A) : kst :=
    match r with Ret _ s => s | Swtch s _ => s | _ => kst0 end.
Definition k_of (r : res kst A) : kst -> res kst A :=
    match r with Swtch _ k => k | _ => fun s => Ret d s end.
Definition is_swtch (r : res kst A) : bool := match r with Swtch _ _ => true | _ => false end.
Definition is_ret (p : A -> bool) (r : res kst A) : bool :=
    match r with Ret a _ => p a | _ => false end.

Lemma swtch_eta r : is_swtch r = true -> r = Swtch (st_of r) (k_of r).
  Proof. by destruct r. Qed.

Lemma ret_eta p v r : (forall a, p a = true -> a = v) -> is_ret p r = true -> r = Ret v (st_of r).
  Proof. intros Hp. destruct r as [a s| | | | |]; simpl; try done. intros ->%Hp. done. Qed.
End Outcome.

Definition run0 : sys :=
  mksys
    (set_sems (mksem 0 2 :: replicate 15 (mksem 0 0))
      (set_curproc (Some 0%nat) (set_mlf [mknode None None; mknode (Some 1%nat) (Some 1%nat);
        mknode None None; mknode None None]
      (set_procs ([demo_proc RUNNING 0 1 CNull None; demo_proc RUNNABLE 1 2 CNull None]
        ++ replicate 62 proc0) kst0))))
    (fun _ => Preempted (release L_ptable)) (fun _ => 0) (fun _ => 0) (fun _ => 0).

Definition run_down : res kst Z := semdown 1 0 (ks run0).
Definition run1 : sys :=
  mksys (st_of (scheduler_leave (st_of run_down)))
    (<[0%nat := Blocked 0 (k_of 0 run_down)]> (thr run0)) (start run0) (ups run0) (downs run0).
Definition run2 : sys :=
  mksys (st_of (release L_ptable (st_of (scheduler_enter (ks run1)))))
    (<[1%nat := User]> (thr run1)) (start run1) (ups run1) (downs run1).
Definition run3 : sys :=
  mksys (st_of (semup 0 (ks run2))) (thr run2) (start run2) (count 0 0 (ups run2)) (downs run2).

Lemma run0_initial : initial run0.
Proof.
  split.
  - exists [[]; [1]; []; []]%nat. apply mlfqb_ok. vm_compute. reflexivity.
  - reflexivity.
  - by split.
  - intros i [= <-]. vm_compute. lia.
  - intros i p Hp. destruct i as [|[|i]]; simpl in Hp; [simplify_eq..|].
    + by vm_compute.
    + split; [done|]. split; [done|]. by split.
    + apply (lookup_replicate 62) in Hp as [-> _]. split; [done|]. by split.
  - intros n t Ht Hr. destruct n as [|n]; simpl in Ht; [by simplify_eq|].
    apply (lookup_replicate 15) in Ht as [-> _]. done.
  - done.
Qed.

Lemma run_step1 : step run0 run1.
Proof.
  assert (E1 : is_swtch run_down = true) by (vm_compute; reflexivity).
  assert (E2 : is_ret (fun _ => true) (scheduler_leave (st_of run_down)) = true)
    by (vm_compute; reflexivity).
  exact (step_block run0 0 1 0 (st_of run_down) _ (k_of 0 run_down) eq_refl
    (swtch_eta 0 run_down E1) (ret_eta _ tt _ (fun a _ => match a with tt => eq_refl end) E2)).
Qed.

Lemma run_step2 : step run1 run2.
Proof.
  assert (E0 : curproc (ks run1) = None) by (vm_compute; reflexivity).
  assert (E1 : is_ret (fun o => bool_decide (o = Some 1%nat)) (scheduler_enter (ks run1)) = true)
    by (vm_compute; reflexivity).
  assert (E2 : is_ret (fun _ => true) (release L_ptable (st_of (scheduler_enter (ks run1)))) = true)
    by (vm_compute; reflexivity).
  exact (step_resume run1 1 (st_of (scheduler_enter (ks run1))) _ (release L_ptable) E0
    (ret_eta _ (Some 1%nat) _ (fun a H => proj1 (bool_decide_eq_true _) H) E1) eq_refl
    (ret_eta _ tt _ (fun a _ => match a with tt => eq_refl end) E2)).
Qed.

Lemma run_step3 : step run2 run3.
Proof.
  assert (E0 : curproc (ks run2) = Some 1%nat) by (vm_compute; reflexivity).
  assert (E1 : is_ret (fun v => v =? 0) (semup 0 (ks run2)) = true) by (vm_compute; reflexivity).
  exact (step_up run2 1 0 0 _ E0
    (ret_eta _ 0 _ (fun a H => proj1 (Z.eqb_eq a 0) H) E1)).
Qed.

Lemma run3_reachable : rtc small_step run0 run3.
Proof.
  assert (Hb : forall v id, bounded (fun _ => 0) (count v id (fun _ => 0)))
    by (intros v id n; rewrite fn_count; case_decide; [|lia]; destruct (v =? 0); lia).
  apply (rtc_l _ _ run1 _ (conj run_step1 (Hb 1 0))), (rtc_l _ _ run2 _ (conj run_step2 (Hb 1 0))).
  apply (rtc_l _ _ run3 _ (conj run_step3 (Hb 0 0))). apply rtc_refl.
Qed.

Lemma semaphore_contract_witness :
  sems (ks run3) !! 0%nat = Some (mksem 1 2) /\ ups run3 0%nat = 1 /\ 1 = 0 + ups run3 0%nat - 0.
Proof.
  split_and!; [vm_compute; reflexivity|reflexivity|].
  apply (semaphore_contract run0 run3 0 (mksem 1 2) run0_initial run3_reachable);
    [vm_compute; reflexivity|simpl; lia].
Defined.
