(* ===== verification/Prodcons.v ===== *)
(** * Producers and consumers

    [user/prodcons-test.c]: four producers and two consumers that share a byte, with
    three semaphores.  Each process is its place in the loop of [produce] or
    [consume]; the processes take steps in any order.  A [semdown] returns when the
    value is positive and takes one unit, a [semup] adds one: the contract that
    [SemSystem] shows for the kernel.  A process that [main] has not forked yet is one that
    has not taken a step. *)

From stdpp Require Import base list numbers strings tactics relations.
From Stdlib Require Import Lia.
From S2P Require Import Prelude Params.

Local Open Scope Z_scope.

Definition PRODUCERS : nat := 4.
Definition CONSUMERS : nat := 2.
Definition BUFF_SIZE : Z := 4.
Definition MAX_IT : nat := 5.

Inductive role := Producer | Consumer.

(** Where a process is: at the first [semdown], at [semdown(sembuff)], at the read of
    the byte, at its write (with the value read), at [semup(sembuff)], at the last [semup]. *)
Inductive place := Enter | Lock | Load | Store (v : Z) | Unlock | Leave.

(** [it]: the rounds of the loop that are not finished. *)
Record proc := mkproc { rl : role; it : nat; at_ : place }.

Record state := mkstate { semprod : Z; semcom : Z; sembuff : Z; byte : Z; ps : list proc }.

(** The semaphore a process takes first, and the one it gives last. *)
Definition first_sem (r : role) (s : state) : Z := match r with Producer => semprod s | Consumer => semcom s end.

Definition down_first (r : role) (s : state) : state :=
  match r with
  | Producer => mkstate (semprod s - 1) (semcom s) (sembuff s) (byte s) (ps s)
  | Consumer => mkstate (semprod s) (semcom s - 1) (sembuff s) (byte s) (ps s)
  end.

Definition up_last (r : role) (s : state) : state :=
  match r with
  | Producer => mkstate (semprod s) (semcom s + 1) (sembuff s) (byte s) (ps s)
  | Consumer => mkstate (semprod s + 1) (semcom s) (sembuff s) (byte s) (ps s)
  end.

(** [*mem = ((int)*mem) + 1] or [- 1]: the byte is a [char]. *)
Definition change (r : role) (v : Z) : Z := s8 (match r with Producer => v + 1 | Consumer => v - 1 end).

Definition set_sembuff (v : Z) (s : state) : state := mkstate (semprod s) (semcom s) v (byte s) (ps s).
Definition set_byte_ (v : Z) (s : state) : state := mkstate (semprod s) (semcom s) (sembuff s) v (ps s).
Definition set_ps (l : list proc) (s : state) : state := mkstate (semprod s) (semcom s) (sembuff s) (byte s) l.

(** The next step of a process, [None] if it has to wait or is finished. *)
Definition pstep (p : proc) (s : state) : option (proc * state) :=
  match at_ p with
  | Enter =>
      if (0 <? it p)%nat && (0 <? first_sem (rl p) s) then Some (mkproc (rl p) (it p) Lock, down_first (rl p) s) else None
  | Lock => if 0 <? sembuff s then Some (mkproc (rl p) (it p) Load, set_sembuff (sembuff s - 1) s) else None
  | Load => Some (mkproc (rl p) (it p) (Store (byte s)), s)
  | Store v => Some (mkproc (rl p) (it p) Unlock, set_byte_ (change (rl p) v) s)
  | Unlock => Some (mkproc (rl p) (it p) Leave, set_sembuff (sembuff s + 1) s)
  | Leave => Some (mkproc (rl p) (pred (it p)) Enter, up_last (rl p) s)
  end.

Inductive step : state -> state -> Prop :=
| step_proc (s s' : state) (i : nat) (p p' : proc) :
    ps s !! i = Some p -> pstep p s = Some (p', s') -> step s (set_ps (<[i := p']> (ps s')) s').

(** [main]: the byte is 8, and the semaphores have their initial values. *)
Definition start : state :=
  mkstate BUFF_SIZE 0 1 8
    (replicate PRODUCERS (mkproc Producer (MAX_IT * CONSUMERS) Enter) ++
     replicate CONSUMERS (mkproc Consumer (MAX_IT * PRODUCERS) Enter)).

Definition finished (p : proc) : Prop := it p = O /\ at_ p = Enter.

(** ** Sums over the processes *)

Definition zsum (f : proc -> Z) (l : list proc) : Z := foldr (fun p a => f p + a) 0 l.

Lemma zsum_insert f l i p p' : l !! i = Some p -> zsum f (<[i := p']> l) = zsum f l - f p + f p'.
Proof.
  revert i. induction l as [|q l IH]; intros [|i] Hi; simpl in *; [done|done|injection Hi as ->; lia|]. rewrite (IH _ Hi). lia.
Qed.

Lemma zsum_nonneg f l : (forall p, 0 <= f p) -> 0 <= zsum f l.
Proof. intros H. induction l as [|p l IH]; simpl; [lia|]. specialize (H p). lia. Qed.

Lemma zsum_elem f l i p : (forall p, 0 <= f p) -> l !! i = Some p -> f p <= zsum f l.
Proof. intros H. revert i. induction l as [|q l IH]; intros [|i] Hi; simpl in *; try done.
  - injection Hi as ->. pose proof (zsum_nonneg f l H). lia.
  - specialize (IH _ Hi). specialize (H q). lia.
Qed.

Lemma zsum_zero f l i p : (forall p, 0 <= f p) -> zsum f l = 0 -> l !! i = Some p -> f p = 0.
Proof. intros H Hz Hi. pose proof (zsum_elem f l i p H Hi). specialize (H p). lia. Qed.

(** ** The invariant *)

(** Between the two operations on [sembuff]. *)
Definition inside (p : proc) : Z := match at_ p with Load | Store _ | Unlock => 1 | _ => 0 end.
(** Holds a unit of its first semaphore. *)
Definition held (p : proc) : Z := match at_ p with Enter => 0 | _ => 1 end.
(** Items in the buffer that no value of [semcom] stands for. *)
Definition item (p : proc) : Z :=
  match rl p, at_ p with
  | Producer, (Unlock | Leave) => 1
  | Consumer, (Lock | Load | Store _) => 1
  | _, _ => 0
  end.
(** Rounds left, and rounds not begun, of producers and of consumers. *)
Definition makes (p : proc) : Z := match rl p with Producer => Z.of_nat (it p) | Consumer => 0 end.
Definition takes (p : proc) : Z := match rl p with Producer => 0 | Consumer => Z.of_nat (it p) end.
Definition mheld (p : proc) : Z := match rl p with Producer => held p | Consumer => 0 end.
Definition theld (p : proc) : Z := match rl p with Producer => 0 | Consumer => held p end.
(** Steps left. *)
Definition left_ (p : proc) : Z :=
  6 * Z.of_nat (it p) - match at_ p with Enter => 0 | Lock => 1 | Load => 2 | Store _ => 3 | Unlock => 4 | Leave => 5 end.

Record inv (n : Z) (s : state) : Prop := mkinv {
  in_lock : sembuff s = 1 - zsum inside (ps s);
  in_units : semprod s + semcom s + zsum held (ps s) = BUFF_SIZE;
  in_byte : byte s = 8 + semcom s + zsum item (ps s);
  in_full : semcom s + zsum makes (ps s) = zsum takes (ps s) - zsum theld (ps s);
  in_empty : semprod s + zsum takes (ps s) = BUFF_SIZE + zsum makes (ps s) - zsum mheld (ps s);
  in_steps : zsum left_ (ps s) = n;
  in_pos : 0 <= semprod s /\ 0 <= semcom s /\ 0 <= sembuff s;
  in_proc : forall i p, ps s !! i = Some p -> (it p = O -> at_ p = Enter) /\ (forall v, at_ p = Store v -> v = byte s)
}.

Lemma zsum_two f l i j p q :
  (forall p, 0 <= f p) -> i <> j -> l !! i = Some p -> l !! j = Some q -> f p + f q <= zsum f l.
Proof.
  intros H. revert i j. induction l as [|x l IH]; intros [|i] [|j] Hne Hi Hj; simpl in *; try done.
  - injection Hi as ->. pose proof (zsum_elem f l j q H Hj). lia.
  - injection Hj as ->. pose proof (zsum_elem f l i p H Hi). lia.
  - specialize (IH i j ltac:(congruence) Hi Hj). specialize (H x). lia.
Qed.

Lemma zsum_le f g l : (forall p, f p <= g p) -> zsum f l <= zsum g l.
Proof. intros H. induction l as [|p l IH]; simpl; [lia|]. specialize (H p). lia. Qed.

Lemma inside_nonneg p : 0 <= inside p. Proof. unfold inside. by destruct (at_ p). Qed.
Lemma held_nonneg p : 0 <= held p. Proof. unfold held. by destruct (at_ p). Qed.
Lemma item_nonneg p : 0 <= item p. Proof. unfold item. by destruct (rl p), (at_ p). Qed.
Lemma item_held p : item p <= held p. Proof. unfold item, held. by destruct (rl p), (at_ p). Qed.
Lemma makes_nonneg p : 0 <= makes p. Proof. unfold makes. destruct (rl p); lia. Qed.
Lemma takes_nonneg p : 0 <= takes p. Proof. unfold takes. destruct (rl p); lia. Qed.

(** The byte is within the size of the buffer. *)
Lemma inv_byte n s : inv n s -> 8 <= byte s <= 8 + BUFF_SIZE.
Proof.
  intros [_ Hu Hb _ _ _ (H1 & H2 & _) _]. pose proof (zsum_nonneg item (ps s) item_nonneg). pose proof (zsum_le _ _ (ps s) item_held). lia.
Qed.

Lemma inv_start : inv 480 start.
Proof.
  split; try done. intros i p Hi. assert (Hp : p ∈ ps start) by (by eapply list_elem_of_lookup_2).
  simpl in Hp. rewrite !elem_of_cons in Hp. repeat (destruct Hp as [-> | Hp]; [done|]). by apply elem_of_nil in Hp.
Qed.

(** Only the process that takes the step is inside when the byte changes. *)
Lemma others_outside n s i j p q v w :
  inv n s -> i <> j -> ps s !! i = Some p -> ps s !! j = Some q -> at_ p = Store v -> at_ q <> Store w.
Proof.
  intros I Hne Hi Hj Ep Eq. pose proof (zsum_two inside (ps s) i j p q inside_nonneg Hne Hi Hj) as H.
  pose proof (in_lock _ _ I). pose proof (in_pos _ _ I). unfold inside in H at 1 2. rewrite Ep, Eq in H. lia.
Qed.

(** What a step of one process changes. *)
Record moved (p p' : proc) (s s' : state) : Prop := mkmoved {
  mv_ps : ps s' = ps s;
  mv_lock : sembuff s' - sembuff s = inside p - inside p';
  mv_units : semprod s' + semcom s' - (semprod s + semcom s) = held p - held p';
  mv_byte : byte s' - byte s - (semcom s' - semcom s) = item p' - item p;
  mv_full : semcom s' - semcom s + makes p' - makes p = takes p' - theld p' - (takes p - theld p);
  mv_empty : semprod s' - semprod s + takes p' - takes p = makes p' - mheld p' - (makes p - mheld p);
  mv_left : left_ p' = left_ p - 1;
  mv_pos : 0 <= semprod s' /\ 0 <= semcom s' /\ 0 <= sembuff s';
  mv_place : it p' = O -> at_ p' = Enter;
  mv_same : byte s' = byte s \/ exists v, at_ p = Store v;
  mv_value : forall v, at_ p' = Store v -> v = byte s'
}.

Lemma s8_small v : -128 <= v < 128 -> s8 v = v.
Proof. intros. unfold s8. rewrite Z.mod_small by lia. lia. Qed.

Lemma pstep_moved p p' s s' :
  pstep p s = Some (p', s') -> 0 <= semprod s -> 0 <= semcom s -> 0 <= sembuff s -> 8 <= byte s <= 12 ->
  (it p = O -> at_ p = Enter) -> (forall v, at_ p = Store v -> v = byte s) -> moved p p' s s'.
Proof.
  intros Hp P1 P2 P3 Hb A1 A2. destruct p as [r k l]. unfold pstep in Hp. cbn [rl it at_] in *. destruct l as [| | |v| |].
  1: destruct (Nat.ltb_spec 0 k) as [Hk|]; [|done]; destruct (Z.ltb_spec 0 (first_sem r s)) as [Hf|]; [|done].
  2: destruct (Z.ltb_spec 0 (sembuff s)) as [Hf|]; [|done].
  all: injection Hp as <- <-; try pose proof (A2 _ eq_refl) as ->;
    assert (Hk' : (0 < k)%nat) by (destruct k; [by specialize (A1 eq_refl)|lia]) || idtac.
  all: destruct r; split; simpl in *; unfold inside, item, makes, takes, mheld, theld, left_, change, held; simpl; rewrite ?s8_small by lia; try lia; try done.
  all: try (by left); try (right; by eexists).
  all: try (intros v [= <-]; done).
Qed.

Lemma pc_inv_step n s s' : inv n s -> step s s' -> inv (n - 1) s'.
Proof.
  intros I Hs. destruct Hs as [s s' i p p' Hi Hp]. pose proof I as [L U B F E N (P1 & P2 & P3) A].
  destruct (A i p Hi) as [A1 A2]. pose proof (inv_byte _ _ I) as Hb. unfold BUFF_SIZE in Hb.
  destruct (pstep_moved p p' s s') as [M1 M2 M3 M4 M5 M6 M7 M8 M9 M10 M11]; try done.
  split; cbn [set_ps ps semprod semcom sembuff byte]; rewrite ?M1, ?(zsum_insert _ _ _ _ _ Hi); try lia.
  intros j q Hj. destruct (decide (i = j)) as [<-|Hne].
  - rewrite list_lookup_insert_eq in Hj by (by eapply lookup_lt_Some). by injection Hj as <-.
  - rewrite list_lookup_insert_ne in Hj by done. destruct (A j q Hj) as [A3 A4]. split; [done|]. intros v Hv.
    destruct M10 as [-> | [w Hw]]; [by apply A4|]. by destruct (others_outside n s i j p q w v I Hne Hi Hj Hw).
Qed.

Lemma pc_inv_steps k : forall n s s', inv n s -> nsteps step k s s' -> inv (n - Z.of_nat k) s'.
Proof.
  induction k as [|k IH]; intros n s s' I H; inversion H; subst; [by rewrite Z.sub_0_r|].
  replace (n - Z.of_nat (S k)) with (n - 1 - Z.of_nat k) by lia. eapply IH; [by eapply pc_inv_step|done].
Qed.

(** ** No deadlock *)

Lemma stuck_place s i p : ps s !! i = Some p -> (forall s', ~ step s s') -> at_ p = Enter \/ at_ p = Lock /\ sembuff s <= 0.
Proof.
  intros Hi Hn. destruct p as [r k l]. assert (H : pstep (mkproc r k l) s = None).
  { destruct (pstep (mkproc r k l) s) as [[p' s']|] eqn:E; [|done]. by destruct (Hn _ (step_proc _ _ _ _ _ Hi E)). }
  unfold pstep in H. simpl in *. destruct l; try done; [by left|]. right. destruct (Z.ltb_spec 0 (sembuff s)); done.
Qed.

Lemma stuck_enter s i p : ps s !! i = Some p -> at_ p = Enter -> (forall s', ~ step s s') -> it p = O \/ first_sem (rl p) s <= 0.
Proof.
  intros Hi Ha Hn. destruct p as [r k l]. simpl in Ha. subst l. simpl. destruct (Nat.ltb_spec 0 k); [|left; lia].
  destruct (Z.ltb_spec 0 (first_sem r s)) as [Hf|Hf]; [|by right]. exfalso.
  assert (E : pstep (mkproc r k Enter) s = Some (mkproc r k Lock, down_first r s)).
  { unfold pstep. simpl. by rewrite (proj2 (Nat.ltb_lt _ _)), (proj2 (Z.ltb_lt _ _)). }
  exact (Hn _ (step_proc _ _ _ _ _ Hi E)).
Qed.

Lemma zsum_all_zero f l : (forall i p, l !! i = Some p -> f p = 0) -> zsum f l = 0.
Proof.
  induction l as [|p l IH]; intros H; simpl; [done|]. rewrite (H 0%nat p eq_refl), IH; [done|]. intros i q Hi. exact (H (S i) q Hi).
Qed.

(** When nothing can move, every process is at the start of its loop. *)
Lemma stuck_all_enter n s : inv n s -> (forall s', ~ step s s') -> forall i p, ps s !! i = Some p -> at_ p = Enter.
Proof.
  intros I Hn i p Hi. destruct (stuck_place s i p Hi Hn) as [|[_ Hs]]; [done|]. exfalso.
  assert (Hz : zsum inside (ps s) = 0).
  { apply zsum_all_zero. intros j q Hj. unfold inside. destruct (stuck_place s j q Hj Hn) as [-> | [-> _]]; done. }
  pose proof (in_lock _ _ I). lia.
Qed.

Lemma stuck_finished n s : inv n s -> (forall s', ~ step s s') -> Forall finished (ps s) /\ byte s = 8.
Proof.
  intros I Hn. pose proof (stuck_all_enter n s I Hn) as He. pose proof I as [L U B F E _ (P1 & P2 & _) A].
  assert (Zh : zsum held (ps s) = 0) by (apply zsum_all_zero; intros i p Hi; unfold held; by rewrite (He i p Hi)).
  assert (Zi : zsum item (ps s) = 0) by (apply zsum_all_zero; intros i p Hi; unfold item; rewrite (He i p Hi); by destruct (rl p)).
  assert (Zm : zsum mheld (ps s) = 0) by (apply zsum_all_zero; intros i p Hi; unfold mheld, held; rewrite (He i p Hi); by destruct (rl p)).
  assert (Zt : zsum theld (ps s) = 0) by (apply zsum_all_zero; intros i p Hi; unfold theld, held; rewrite (He i p Hi); by destruct (rl p)).
  pose proof (zsum_nonneg makes (ps s) makes_nonneg) as Nm. pose proof (zsum_nonneg takes (ps s) takes_nonneg) as Nt. unfold BUFF_SIZE in *.
  assert (Hmk : 0 < semprod s -> zsum makes (ps s) = 0).
  { intros Hp. apply zsum_all_zero. intros i p Hi. unfold makes. destruct (rl p) eqn:Er; [|done].
    destruct (stuck_enter s i p Hi (He i p Hi) Hn) as [-> | Hf]; [done|]. rewrite Er in Hf. simpl in Hf. lia. }
  assert (Htk : 0 < semcom s -> zsum takes (ps s) = 0).
  { intros Hp. apply zsum_all_zero. intros i p Hi. unfold takes. destruct (rl p) eqn:Er; [done|].
    destruct (stuck_enter s i p Hi (He i p Hi) Hn) as [-> | Hf]; [done|]. rewrite Er in Hf. simpl in Hf. lia. }
  assert (Z0 : semcom s = 0 /\ zsum makes (ps s) = 0 /\ zsum takes (ps s) = 0).
  { destruct (Z.lt_ge_cases 0 (semcom s)) as [Hc|Hc]; [specialize (Htk Hc); lia|]. specialize (Hmk ltac:(lia)). lia. }
  destruct Z0 as (Z1 & Z2 & Z3). split; [|lia]. apply list.Forall_forall. intros p Hp.
  apply list_elem_of_lookup_1 in Hp as [i Hi]. split; [|by eapply He].
  pose proof (zsum_zero makes _ i p makes_nonneg Z2 Hi) as Hm. pose proof (zsum_zero takes _ i p takes_nonneg Z3 Hi) as Ht.
  unfold makes, takes in Hm, Ht. destruct (rl p); lia.
Qed.

Lemma left_nonneg n s : inv n s -> 0 <= n.
Proof.
  intros I. rewrite <- (in_steps _ _ I). pose proof (in_proc _ _ I) as A. induction (ps s) as [|p l IH]; simpl; [done|].
  assert (0 <= left_ p).
  { destruct (A 0%nat p eq_refl) as [A1 _]. unfold left_. destruct p as [r [|k] l']; simpl in *; [by rewrite A1|]. destruct l'; lia. }
  specialize (IH (fun i q Hi => A (S i) q Hi)). lia.
Qed.

(** C15: the producers and consumers of the test.  In every order in which the six
    processes can take their steps: at most one of them is between the operations on
    [sembuff]; the shared byte stays between 8 and 8 plus the size of the buffer; the
    processes take at most 480 steps; and when none of them can go on, all of them have
    finished, after exactly 480 steps, and the byte is 8 again: no update is lost, and
    there is no deadlock. *)
Theorem prodcons_correct k s :
  nsteps step k start s ->
  (k <= 480)%nat /\ 8 <= byte s <= 8 + BUFF_SIZE /\
  (forall i j p q, ps s !! i = Some p -> ps s !! j = Some q -> inside p = 1 -> inside q = 1 -> i = j) /\
  ((forall s', ~ step s s') -> k = 480%nat /\ Forall finished (ps s) /\ byte s = 8).
Proof.
  intros H. pose proof (pc_inv_steps k 480 start s inv_start H) as I. pose proof (left_nonneg _ _ I) as Hk.
  split; [lia|]. split; [by eapply inv_byte|]. split.
  - intros i j p q Hi Hj Hp Hq. destruct (decide (i = j)) as [|Hne]; [done|].
    pose proof (zsum_two inside (ps s) i j p q inside_nonneg Hne Hi Hj). pose proof (in_lock _ _ I). pose proof (in_pos _ _ I). lia.
  - intros Hn. destruct (stuck_finished _ s I Hn) as [Hf Hb]. split; [|done]. pose proof (in_steps _ _ I) as Hs.
    rewrite zsum_all_zero in Hs; [lia|]. intros i p Hi. rewrite list.Forall_forall in Hf.
    destruct (Hf p (list_elem_of_lookup_2 _ _ _ Hi)) as [H1 H2]. unfold left_. by rewrite H1, H2.
Qed.

(** Run the processes in turn, each until it waits or is finished. *)
Fixpoint schedule (fuel : nat) (i : nat) (s : state) : nat * state :=
  match fuel with
  | O => (0%nat, s)
  | S fuel =>
      match ps s !! i with
      | None => schedule fuel 0 s
      | Some p =>
          match pstep p s with
          | Some (p', s') => let '(n, s'') := schedule fuel i (set_ps (<[i := p']> (ps s')) s') in (S n, s'')
          | None => schedule fuel (S i) s
          end
      end
  end.

Lemma schedule_steps fuel : forall i s, nsteps step (schedule fuel i s).1 s (schedule fuel i s).2.
Proof.
  induction fuel as [|fuel IH]; intros i s; simpl; [constructor|]. destruct (ps s !! i) as [p|] eqn:Hi; [|apply IH].
  destruct (pstep p s) as [[p' s']|] eqn:Hp; [|apply IH]. specialize (IH i (set_ps (<[i := p']> (ps s')) s')).
  destruct (schedule fuel i _) as [n s'']. simpl in *. econstructor; [by eapply step_proc|done].
Qed.

Lemma prodcons_correct_witness : (schedule 700 0 start).1 = 480%nat /\ byte (schedule 700 0 start).2 = 8.
Proof.
  destruct (prodcons_correct _ _ (schedule_steps 700 0 start)) as (_ & _ & _ & H).
  assert (Hall : forallb (fun p => match pstep p (schedule 700 0 start).2 with None => true | _ => false end) (ps (schedule 700 0 start).2) = true)
    by (by vm_compute).
  revert H Hall. generalize (schedule 700 0 start) as r. intros r H Hall. destruct H as (H1 & _ & H2); [|exact (conj H1 H2)].
  intros s' Hs. inversion Hs as [s0 s1 i p p' Hi Hp E1 E2]; subst. rewrite forallb_forall in Hall.
  specialize (Hall p (proj1 (list_elem_of_In _ _) (list_elem_of_lookup_2 _ _ _ Hi))). by rewrite Hp in Hall.
Defined.
