(* ===== verification/Ulib.v ===== *)
(** * The user library

    [user/ulib.c] and [user/printf.c].  Pointers are addresses in the memory of a
    process where the functions write through them, and the list of characters
    before the zero byte where they only read. *)

From stdpp Require Import base list numbers strings tactics sets.
From Stdlib Require Import Lia.
From S2P Require Import Prelude StringC Console ConsoleThm.

Local Open Scope Z_scope.

(** ** Strings and memory *)

(** [while(( *s++ = *t++ ) != 0);] *)
Fixpoint u_strcpy (fuel : nat) (m : memory) (s t : Z) : option memory :=
  match fuel with
  | O => None
  | S fuel =>
      let m := wr m s (m t) in
      if m s =? 0 then Some m else u_strcpy fuel m (s + 1) (t + 1)
  end.

(** On strings; a string that has ended gives its zero byte. *)
Fixpoint u_strcmp (p q : list Z) : Z :=
  match p, q with
  | a :: p', b :: q' => if a =? b then u_strcmp p' q' else u8 a - u8 b
  | a :: _, [] => u8 a
  | [], b :: _ => - u8 b
  | [], [] => 0
  end.

Fixpoint u_strlen (fuel : nat) (m : memory) (s n : Z) : option Z :=
  match fuel with
  | O => None
  | S fuel => if m (s + n) =? 0 then Some n else u_strlen fuel m s (n + 1)
  end.

Definition u_memset (m : memory) (dst c n : Z) : memory := stosb m dst c (Z.to_nat n).

(** [while(n-- > 0) *dst++ = *src++;] *)
Definition u_memmove (m : memory) (dst src n : Z) : memory := copy_up m dst src (Z.to_nat n).

(** ** Numbers *)

Definition is_digit (c : Z) : bool := (48 <=? c) && (c <=? 57).

Fixpoint atoi_loop (n : Z) (s : list Z) : Z :=
  match s with
  | c :: s => if is_digit c then atoi_loop (s32 (n * 10 + c - 48)) s else n
  | [] => n
  end.

Definition atoi (s : list Z) : Z := atoi_loop 0 s.

(** ** Input *)

(** [gets]: the characters stored before the final zero byte, and the input that
    is left; [read(0, &c, 1)] takes one character of the input. *)
Fixpoint gets_loop (max i : nat) (input : list Z) : list Z * list Z :=
  match max with
  | O => ([], input)
  | S max =>
      match input with
      | [] => ([], [])
      | c :: input =>
          if (c =? 10) || (c =? 13) then ([c], input)
          else let '(l, rest) := gets_loop max (S i) input in (c :: l, rest)
      end
  end.

Definition gets (max : Z) (input : list Z) : list Z * list Z := gets_loop (Z.to_nat (max - 1)) 0 input.

(** ** printf *)

Definition u_digit_char (d : Z) : Z := default 0 (aget (chars "0123456789ABCDEF") d).

Definition u_printint (xx base : Z) (sgn : bool) : list Z :=
  let neg := sgn && (xx <? 0) in
  let x := if neg then u32 (- xx) else u32 xx in
  rev ((u_digit_char <$> digits DIGITS x base) ++ if neg then [MINUS] else []).

(** The loop of [printf]: [pct] is [state == '%'].  The result is what is written,
    [None] when an argument is missing or of another kind. *)
Fixpoint printf_loop (pct : bool) (fmt : list Z) (ap : list carg) : option (list Z) :=
  match fmt with
  | [] => Some []
  | c :: fmt =>
      if negb pct then
        if c =? PERCENT then printf_loop true fmt ap
        else (c ::.) <$> printf_loop false fmt ap
      else if c =? 100 then
        match ap with
        | ANum z :: ap => (u_printint z 10 true ++.) <$> printf_loop false fmt ap
        | _ => None
        end
      else if (c =? 120) || (c =? 112) then
        match ap with
        | ANum z :: ap => (u_printint z 16 false ++.) <$> printf_loop false fmt ap
        | _ => None
        end
      else if c =? 115 then
        match ap with
        | AStr s :: ap => (s ++.) <$> printf_loop false fmt ap
        | ANull :: ap => (chars "(null)" ++.) <$> printf_loop false fmt ap
        | _ => None
        end
      else if c =? 99 then
        match ap with
        | ANum z :: ap => (u8 z ::.) <$> printf_loop false fmt ap
        | _ => None
        end
      else if c =? PERCENT then (c ::.) <$> printf_loop false fmt ap
      else (fun l => PERCENT :: c :: l) <$> printf_loop false fmt ap
  end.

Definition u_printf (fmt : list Z) (ap : list carg) : option (list Z) := printf_loop false fmt ap.

(** ** Theorems *)

(** No conversion of the format is one of [cs]. *)
Fixpoint no_conv (cs : list Z) (pct : bool) (fmt : list Z) : Prop :=
  match fmt with
  | [] => True
  | c :: fmt =>
      if negb pct then no_conv cs (c =? PERCENT) fmt
      else c ∉ cs /\ no_conv cs false fmt
  end.

Lemma u_digit_char_low d : 0 <= d < 10 -> u_digit_char d = digit_char d.
Proof.
  intros Hd. assert (H : forallb (fun d => u_digit_char d =? digit_char d) (seqZ 0 10) = true) by reflexivity.
  rewrite forallb_forall in H. apply Z.eqb_eq, H, list_elem_of_In, elem_of_seqZ. lia.
Qed.

Lemma digits_range fuel x base : 0 < base -> Forall (fun d => 0 <= d < base) (digits fuel x base).
Proof.
  intros Hb. revert x. induction fuel as [|fuel IH]; intros x; simpl; [constructor|].
  constructor; [by apply Z.mod_pos_bound|]. destruct (_ =? 0); [constructor|apply IH].
Qed.

Lemma u_printint_decimal z sgn : u_printint z 10 sgn = printint z 10 sgn.
Proof.
  unfold u_printint, printint. f_equal. f_equal. apply list_fmap_ext. intros i d Hd.
  apply u_digit_char_low. exact (Forall_lookup_1 _ _ _ _ (digits_range _ _ 10 ltac:(lia)) Hd).
Qed.

(** The user library's [printf], a state machine over the format, writes what
    the kernel's [cprintf] prints, on every format without the conversions in
    which they differ: [%c], which only [printf] knows, and the hexadecimal ones,
    which it writes in capitals. *)
Theorem printf_like_cprintf fmt args :
  no_conv [99; 120; 112] false fmt -> u_printf fmt args = cformat fmt args.
Proof.
  unfold u_printf. remember (length fmt) as n eqn:Hn. revert fmt args Hn.
  induction n as [n IH] using lt_wf_ind; intros fmt args -> H.
  destruct fmt as [|c fmt]; [done|]. cbn [printf_loop cformat]. cbn [no_conv negb] in H.
  destruct (c =? PERCENT); cbn [negb]; [|rewrite (IH (length fmt)); [done|simpl; lia|done|done]].
  destruct fmt as [|d fmt]; [done|]. cbn [printf_loop negb]. destruct H as [Hd H].
  assert (IH' : forall args, printf_loop false fmt args = cformat fmt args)
    by (intros args'; apply (IH (length fmt)); [simpl; lia|done|done]).
  assert (d <> 99 /\ d <> 120 /\ d <> 112) as (H1 & H2 & H3) by set_solver.
  rewrite (proj2 (Z.eqb_neq _ _) H1), (proj2 (Z.eqb_neq _ _) H2), (proj2 (Z.eqb_neq _ _) H3). cbn [orb].
  destruct (d =? 100); [destruct args as [|[z|s|] args]; try done; by rewrite IH', u_printint_decimal|].
  destruct (d =? 115); [destruct args as [|[z|s|] args]; try done; by rewrite IH'|].
  destruct (Z.eqb_spec d PERCENT) as [->|]; by rewrite IH'.
Qed.

(** *** [atoi] reads what [printf] writes *)

Lemma numeral_ge l v :
  Forall (fun c => is_digit c = true) l -> 0 <= v -> v <= foldl (fun v c => v * 10 + char_digit c) v l.
Proof.
  intros Hl. revert v. induction Hl as [|c l Hc _ IH]; intros v Hv; simpl; [lia|].
  unfold is_digit in Hc. apply andb_true_iff in Hc as [H1%Z.leb_le H2%Z.leb_le].
  assert (0 <= char_digit c) by (unfold char_digit; rewrite (proj2 (Z.ltb_lt c 58)) by lia; lia).
  etrans; [|apply IH; lia]. lia.
Qed.

Lemma atoi_loop_numeral l v :
  Forall (fun c => is_digit c = true) l -> 0 <= v -> foldl (fun v c => v * 10 + char_digit c) v l < 2 ^ 31 ->
  atoi_loop v l = foldl (fun v c => v * 10 + char_digit c) v l.
Proof.
  intros Hl. revert v. induction Hl as [|c l Hc Hl IH]; intros v Hv Hb; simpl in *; [done|]. rewrite Hc.
  unfold is_digit in Hc. apply andb_true_iff in Hc as [H1%Z.leb_le H2%Z.leb_le].
  assert (Ed : char_digit c = c - 48) by (unfold char_digit; rewrite (proj2 (Z.ltb_lt c 58)) by lia; lia).
  pose proof (numeral_ge l (v * 10 + char_digit c) Hl ltac:(lia)) as Hge. rewrite Ed in *.
  rewrite s32_small by (unfold is_s32; lia). replace (v * 10 + c - 48) with (v * 10 + (c - 48)) by lia. apply IH; lia.
Qed.

Lemma digit_char_digit d : 0 <= d < 10 -> is_digit (digit_char d) = true.
Proof.
  intros Hd. assert (H : forallb (fun d => is_digit (digit_char d)) (seqZ 0 10) = true) by reflexivity.
  rewrite forallb_forall in H. apply H, list_elem_of_In, elem_of_seqZ. lia.
Qed.

(** [atoi] reads back every non-negative [int] that [printf] writes with [%d];
    a minus sign it does not know, so a negative number reads as 0. *)
Theorem atoi_printf z :
  is_s32 z -> exists l, u_printf [PERCENT; 100] [ANum z] = Some l /\ atoi l = Z.max 0 z.
Proof.
  intros Hz. exists (u_printint z 10 true). split; [unfold u_printf; simpl; by rewrite app_nil_r|].
  unfold is_s32 in Hz. unfold atoi, u_printint. cbn [andb].
  destruct (Z.ltb_spec z 0); [rewrite rev_app_distr; simpl; lia|]. rewrite app_nil_r, u32_small by (unfold is_u32; lia).
  assert (Hpow : 10 ^ Z.of_nat DIGITS = 10 ^ 32) by reflexivity.
  destruct (digits_ok DIGITS z 10) as (Hv & Hd & _); [lia|rewrite Hpow; lia|unfold DIGITS; lia|].
  assert (Hr : Forall (fun d => 0 <= d < 10) (digits DIGITS z 10)) by (by apply digits_range).
  assert (Ef : u_digit_char <$> digits DIGITS z 10 = digit_char <$> digits DIGITS z 10).
  { apply list_fmap_ext. intros i d Hi. apply u_digit_char_low. exact (Forall_lookup_1 _ _ _ _ Hr Hi). }
  rewrite Ef. pose proof (numeral_digits 10 _ Hd) as Hn. rewrite Hv in Hn. unfold numeral in Hn.
  rewrite atoi_loop_numeral; [rewrite Hn; lia| |lia|rewrite Hn; lia].
  apply Forall_rev, Forall_fmap. eapply Forall_impl; [exact Hr|]. intros d Hd'. by apply digit_char_digit.
Qed.

(** *** [memmove] *)

Lemma copy_up_low m d s n x : x < d -> copy_up m d s n x = m x.
Proof.
  revert m d s. induction n as [|n IH]; intros m d s Hx; simpl; [done|]. rewrite IH by lia. apply wr_ne. lia.
Qed.

(** The user library's [memmove] copies upwards whatever the addresses are.
    When the destination lies after the source, byte [i] of the result is byte
    [i mod (dst - src)] of the source: the copy is right if the blocks do not
    overlap, and repeats the first [dst - src] bytes if they do. *)
Theorem u_memmove_upwards m dst src n i :
  src < dst -> 0 <= i < n -> u_memmove m dst src n (dst + i) = m (src + i mod (dst - src)).
Proof.
  intros Hd Hi. unfold u_memmove. assert (Hn : (Z.to_nat i < Z.to_nat n)%nat) by lia. revert Hn.
  generalize (Z.to_nat n) as k. destruct Hi as [Hi _]. clear n. intros k. revert m dst src i Hd Hi.
  induction k as [|k IH]; intros m dst src i Hd Hi Hk; [lia|]. simpl.
  destruct (Z.eq_dec i 0) as [->|Hne].
  - rewrite copy_up_low, Z.add_0_r, wr_eq by lia. f_equal. rewrite Z.mod_0_l by lia. lia.
  - replace (dst + i) with (dst + 1 + (i - 1)) by lia. rewrite IH by lia.
    replace (dst + 1 - (src + 1)) with (dst - src) by lia. set (n := dst - src) in *.
    pose proof (Z.mod_pos_bound (i - 1) n ltac:(lia)) as Hr.
    destruct (Z.eq_dec ((i - 1) mod n + 1) n) as [E|E].
    + assert (i mod n = 0) as ->.
      { symmetry. apply (Z.mod_unique i n ((i - 1) / n + 1)); [lia|]. pose proof (Z.div_mod (i - 1) n ltac:(lia)). nia. }
      replace (src + 1 + (i - 1) mod n) with dst by lia. rewrite wr_eq. f_equal. lia.
    + assert (i mod n = (i - 1) mod n + 1) as ->.
      { symmetry. apply (Z.mod_unique i n ((i - 1) / n)); [lia|]. pose proof (Z.div_mod (i - 1) n ltac:(lia)). nia. }
      rewrite wr_ne by lia. f_equal. lia.
Qed.

