(* ===== verification/Umalloc.v ===== *)
(** * The user memory allocator

    [malloc] and [free] of [user/umalloc.c], after Kernighan and Ritchie: a
    circular list of free blocks in the order of their addresses, whose headers
    are in the memory they describe.  The specification is the list of the tiles
    that the memory from [lo], the first break, to the current break is cut into. *)

From stdpp Require Import base list numbers tactics.
From Stdlib Require Import Lia.
From S2P Require Import Prelude Params StringC Mmu.

Local Open Scope Z_scope.

(** ** The code *)

(** The memory of the process, [freep] (0 until the first [malloc]), and the end
    of the process's memory. *)
Record ust := mkust { um : memory; freep : Z; brk : Z }.

(** [sbrk], as a function of its int argument. *)
Class Sbrk := sbrk : Z -> ust -> Z * ust.

(** [p->s.ptr], [p->s.size]; a header takes 8 bytes. *)
Definition ptr (m : memory) (p : Z) : Z := load32 m p.
Definition size (m : memory) (p : Z) : Z := load32 m (p + 4).
Definition set_ptr (m : memory) (p v : Z) : memory := store32 m p v.
Definition set_size (m : memory) (p v : Z) : memory := store32 m (p + 4) v.

(** [p + n] for a [Header *p] *)
Definition hplus (p n : Z) : Z := u32 (p + 8 * n).

(** The loop of [free], which looks for the free block before [bp]. *)
Fixpoint free_loop (fuel : nat) (m : memory) (bp p : Z) : option Z :=
  if (p <? bp) && (bp <? ptr m p) then Some p
  else if (ptr m p <=? p) && ((p <? bp) || (bp <? ptr m p)) then Some p
  else match fuel with
       | O => None
       | S fuel => free_loop fuel m bp (ptr m p)
       end.

(** [if(bp + bp->s.size == p->s.ptr)] ... *)
Definition join_up (m : memory) (bp p : Z) : memory :=
  if hplus bp (size m bp) =? ptr m p then
    let m := set_size m bp (u32 (size m bp + size m (ptr m p))) in
    set_ptr m bp (ptr m (ptr m p))
  else set_ptr m bp (ptr m p).

(** [if(p + p->s.size == bp)] ... *)
Definition join_down (m : memory) (bp p : Z) : memory :=
  if hplus p (size m p) =? bp then
    let m := set_size m p (u32 (size m p + size m bp)) in
    set_ptr m p (ptr m bp)
  else set_ptr m p bp.

Definition free (fuel : nat) (ap : Z) (s : ust) : option ust :=
  let bp := u32 (ap - 8) in
  p ← free_loop fuel (um s) bp (freep s);
  Some (mkust (join_down (join_up (um s) bp p) bp p) p (brk s)).

Section Malloc.
Context `{Sbrk} (base : Z).

(** The new [freep], or 0. *)
Definition morecore (fuel : nat) (nu : Z) (s : ust) : option (Z * ust) :=
  let nu := if nu <? 4096 then 4096 else nu in
  let '(p, s) := sbrk (s32 (nu * 8)) s in
  if p =? u32 (-1) then Some (0, s) else
  s ← free fuel (hplus p 1) (mkust (set_size (um s) p nu) (freep s) (brk s));
  Some (freep s, s).

(** The block at [p], or the end of it, leaves the free list. *)
Definition take_block (nunits prevp p : Z) (s : ust) : Z * ust :=
  let m := um s in
  let '(m, p) :=
    if size m p =? nunits then (set_ptr m prevp (ptr m p), p)
    else
      let m := set_size m p (u32 (size m p - nunits)) in
      let p := hplus p (size m p) in
      (set_size m p nunits, p) in
  (hplus p 1, mkust m prevp (brk s)).

Fixpoint malloc_loop (fuel loops : nat) (nunits prevp p : Z) (s : ust) : option (Z * ust) :=
  match fuel with
  | O => None
  | S fuel =>
      if nunits <=? size (um s) p then Some (take_block nunits prevp p s)
      else if p =? freep s then
        ' (p, s) ← morecore loops nunits s;
        if p =? 0 then Some (0, s) else malloc_loop fuel loops nunits p (ptr (um s) p) s
      else malloc_loop fuel loops nunits p (ptr (um s) p) s
  end.

Definition malloc (fuel loops : nat) (nbytes : Z) (s : ust) : option (Z * ust) :=
  let nunits := u32 (nbytes + 8 - 1) / 8 + 1 in
  let s :=
    if freep s =? 0 then mkust (set_size (set_ptr (um s) base base) base 0) base (brk s) else s in
  malloc_loop fuel loops nunits (freep s) (ptr (um s) (freep s)) s.
End Malloc.
