(* ===== verification/UmallocThm.v ===== *)
(** * The user memory allocator implements a tiling of the heap

    The memory from [lo] to the break is cut into tiles, each free or in use;
    [malloc] and [free] (in [Umalloc]) cut and join tiles, never touch a byte of
    a tile in use, and lose nothing. *)

From stdpp Require Import base list numbers tactics.
From Stdlib Require Import Lia.
From S2P Require Import Prelude Params StringC Mmu Umalloc.

Local Open Scope Z_scope.

(** ** Tiles *)

(** The size of a tile in headers, and whether it is free. *)
Notation tile := (Z * bool)%type.

Fixpoint total (bl : list tile) : Z :=
  match bl with
  | [] => 0
  | (n, _) :: r => n + total r
  end.

(** The addresses of the free tiles, the first tile at [a]. *)
Fixpoint frees (a : Z) (bl : list tile) : list Z :=
  match bl with
  | [] => []
  | (n, f) :: r => if f : bool then a :: frees (a + 8 * n) r else frees (a + 8 * n) r
  end.

(** The tiles in use. *)
Fixpoint lives (a : Z) (bl : list tile) : list (Z * Z) :=
  match bl with
  | [] => []
  | (n, f) :: r => if f : bool then lives (a + 8 * n) r else (a, n) :: lives (a + 8 * n) r
  end.

(** The headers say the sizes. *)
Fixpoint tiled (m : memory) (a : Z) (bl : list tile) : Prop :=
  match bl with
  | [] => True
  | (n, _) :: r => 0 < n /\ size m a = n /\ tiled m (a + 8 * n) r
  end.

(** No two free tiles touch; [b] tells whether there is a free one before. *)
Fixpoint apart (b : bool) (bl : list tile) : Prop :=
  match bl with
  | [] => True
  | (_, f) :: r => (b = true -> f = false) /\ apart f r
  end.

Fixpoint endf (b : bool) (bl : list tile) : bool :=
  match bl with
  | [] => b
  | (_, f) :: r => endf f r
  end.

(** [p] leads through the nodes [l] to [e]. *)
Fixpoint chain (m : memory) (p : Z) (l : list Z) (e : Z) : Prop :=
  match l with
  | [] => ptr m p = e
  | x :: r => ptr m p = x /\ chain m x r e
  end.

Definition in_use (a : Z) (bl : list tile) (x : Z) : Prop :=
  exists b n, (b, n) ∈ lives a bl /\ b <= x < b + 8 * n.

Lemma total_app l r : total (l ++ r) = total l + total r.
Proof. induction l as [|[n f] l IH]; simpl; lia. Qed.

Lemma frees_app a l r : frees a (l ++ r) = frees a l ++ frees (a + 8 * total l) r.
Proof.
  revert a. induction l as [|[n [|]] l IH]; intros a; simpl; [by rewrite Z.add_0_r|..];
    rewrite IH; by replace (a + 8 * n + 8 * total l) with (a + 8 * (n + total l)) by lia.
Qed.

Lemma lives_app a l r : lives a (l ++ r) = lives a l ++ lives (a + 8 * total l) r.
Proof.
  revert a. induction l as [|[n [|]] l IH]; intros a; simpl; [by rewrite Z.add_0_r|..];
    rewrite IH; by replace (a + 8 * n + 8 * total l) with (a + 8 * (n + total l)) by lia.
Qed.

Lemma tiled_app m a l r : tiled m a (l ++ r) <-> tiled m a l /\ tiled m (a + 8 * total l) r.
Proof.
  revert a. induction l as [|[n f] l IH]; intros a; simpl; [rewrite Z.add_0_r; tauto|].
  rewrite IH. replace (a + 8 * n + 8 * total l) with (a + 8 * (n + total l)) by lia. tauto.
Qed.

Lemma tiled_flag m a l n f f' r : tiled m a (l ++ (n, f) :: r) -> tiled m a (l ++ (n, f') :: r).
Proof. by rewrite !tiled_app. Qed.

Lemma apart_app b l r : apart b (l ++ r) <-> apart b l /\ apart (endf b l) r.
Proof. revert b. induction l as [|[n f] l IH]; intros b; simpl; [tauto|]. rewrite IH. tauto. Qed.

Lemma endf_snoc b l n f : endf b (l ++ [(n, f)]) = f.
Proof. revert b. induction l as [|[k g] l IH]; intros b; simpl; eauto. Qed.

Lemma total_nonneg m a bl : tiled m a bl -> 0 <= total bl.
Proof. revert a. induction bl as [|[n f] r IH]; intros a; simpl; [lia|]. intros (? & ? & ?%IH). lia. Qed.

(** A free tile is between the ends of the heap, and the tiles are apart from
    each other. *)
Lemma frees_bounds m a bl x : tiled m a bl -> x ∈ frees a bl -> a <= x /\ x + 8 <= a + 8 * total bl.
Proof.
  revert a. induction bl as [|[n f] r IH]; intros a; simpl; [by intros _ ?%not_elem_of_nil|].
  intros (Hn & _ & Ht) Hx. pose proof (total_nonneg _ _ _ Ht).
  assert (H0 : x = a \/ x ∈ frees (a + 8 * n) r) by (destruct f; [by apply elem_of_cons in Hx|by right]).
  destruct H0 as [->|Hx']; [lia|]. specialize (IH _ Ht Hx'). lia.
Qed.

Lemma free_inside m a bl x :
  tiled m a bl -> x ∈ frees a bl -> 0 < size m x /\ a <= x /\ x + 8 * size m x <= a + 8 * total bl.
Proof.
  revert a. induction bl as [|[n f] r IH]; intros a; simpl; [by intros _ ?%not_elem_of_nil|].
  intros (Hn & Hs & Ht) Hx. pose proof (total_nonneg _ _ _ Ht).
  assert (H0 : x = a \/ x ∈ frees (a + 8 * n) r) by (destruct f; [by apply elem_of_cons in Hx|by right]).
  destruct H0 as [->|Hx']; [lia|]. specialize (IH _ Ht Hx'). lia.
Qed.

(** A free tile before one in use ends before it. *)
Lemma free_before m a l x :
  tiled m a l -> endf false l = false -> x ∈ frees a l -> x + 8 * size m x < a + 8 * total l.
Proof.
  destruct l as [|[k f] l' _] using rev_ind; [by intros _ _ ?%not_elem_of_nil|].
  rewrite tiled_app, frees_app, total_app. simpl. intros (Ht & Hk & _) He Hx.
  rewrite endf_snoc in He. subst f.
  rewrite app_nil_r in Hx. pose proof (free_inside _ _ _ _ Ht Hx). lia.
Qed.

(** ** Links *)

Fixpoint incr (p : Z) (l : list Z) : Prop :=
  match l with
  | [] => True
  | x :: r => p + 8 <= x /\ incr x r
  end.

(** The last node of [p :: l]. *)
Fixpoint lst (p : Z) (l : list Z) : Z :=
  match l with
  | [] => p
  | x :: r => lst x r
  end.

Lemma incr_lb p l x : incr p l -> x ∈ l -> p + 8 <= x.
Proof.
  revert p. induction l as [|y l IH]; intros p; [by intros _ ?%not_elem_of_nil|].
  intros [H1 H2] [->|Hx]%elem_of_cons; [done|]. specialize (IH y H2 Hx). lia.
Qed.

Lemma incr_app p l r : incr p (l ++ r) <-> incr p l /\ incr (lst p l) r.
Proof. revert p. induction l as [|x l IH]; intros p; simpl; [tauto|]. rewrite IH. tauto. Qed.

Lemma incr_weaken p q l : q <= p -> incr p l -> incr q l.
Proof. destruct l; simpl; [done|]. intros ? []. split; [lia|done]. Qed.

Lemma frees_incr m p a bl : tiled m a bl -> p + 8 <= a -> incr p (frees a bl).
Proof.
  revert p a. induction bl as [|[n f] r IH]; intros p a; simpl; [done|]. intros (Hn & _ & Ht) Hp.
  destruct f; [split; [done|]|]; apply IH; (done || lia).
Qed.

Lemma lst_app p l r : lst p (l ++ r) = lst (lst p l) r.
Proof. revert p. induction l as [|x l IH]; intros p; simpl; [done|]. apply IH. Qed.

Lemma lst_elem p l : lst p l = p /\ l = [] \/ lst p l ∈ l.
Proof.
  revert p. induction l as [|x l IH]; intros p; simpl; [by left|right].
  destruct (IH x) as [[-> ->]|H]; [by left|by right].
Qed.

Lemma lst_le p l : incr p l -> p <= lst p l.
Proof. intros H. destruct (lst_elem p l) as [[-> _]|Hl]; [lia|]. pose proof (incr_lb _ _ _ H Hl). lia. Qed.

Lemma incr_ub p l x : incr p l -> x ∈ l -> x <= lst p l.
Proof.
  revert p. induction l as [|y l IH]; intros p; [by intros _ ?%not_elem_of_nil|].
  intros [H1 H2] [->|Hx]%elem_of_cons; simpl; [by apply lst_le|by apply IH].
Qed.

Lemma chain_app m p l r e : chain m p (l ++ r) e <-> chain m p l (hd e r) /\ (r <> [] -> chain m (hd e r) (tl r) e).
Proof.
  revert p. induction l as [|x l IH]; intros p; simpl.
  - destruct r as [|y r]; simpl; split; naive_solver.
  - rewrite IH. tauto.
Qed.

(** [b] is linked in after [l] in the place of what it leads to. *)
Lemma chain_glue m p l b r e : chain m p l (ptr m b) -> chain m b r e -> chain m p (l ++ r) e.
Proof.
  intros Hl Hr. apply chain_app. destruct r as [|x r]; simpl in *; [by rewrite Hr in Hl|].
  destruct Hr as [Hx Hr]. by rewrite Hx in Hl.
Qed.

Lemma chain_mid m p l b r e : chain m p l b -> chain m b r e -> chain m p (l ++ b :: r) e.
Proof. intros Hl Hr. by apply chain_app. Qed.

(** The part of a list from one of its nodes on. *)
Lemma node_split m p l r e q :
  incr p (l ++ r) -> chain m p (l ++ r) e -> q ∈ p :: l ->
  exists l2, p <= q /\ incr q (l2 ++ r) /\ chain m q (l2 ++ r) e /\ lst q l2 = lst p l /\ (length l2 <= length l)%nat.
Proof.
  revert p. induction l as [|x l IH]; intros p Hi Hc [->|Hq]%elem_of_cons; [by exists []|by apply not_elem_of_nil in Hq| |].
  - by exists (x :: l).
  - destruct Hi as [Hi1 Hi2], Hc as [_ Hc]. destruct (IH x Hi2 Hc Hq) as (l2 & H1 & H2 & H3 & H4 & H5).
    exists l2. simpl. split_and!; (done || lia).
Qed.

Lemma chain_hd m p l e : ptr m p = hd e l -> (l <> [] -> chain m (hd e l) (tl l) e) -> chain m p l e.
Proof. destruct l; simpl; [done|]. intros ? H. split; [done|]. by apply H. Qed.

Lemma chain_lst m p l e : chain m p l e -> ptr m (lst p l) = e.
Proof. revert p. induction l as [|x l IH]; intros p; simpl; [done|]. intros [_ H]. by apply IH. Qed.

(** ** Headers *)

Definition away (p q : Z) : Prop := p + 8 <= q \/ q + 8 <= p.

(** [m'] is [m] with a new header at [p]. *)
Record header (m m' : memory) (p n v : Z) : Prop := mkheader {
  hd_else : forall x, x < p \/ p + 8 <= x -> m' x = m x;
  hd_size : size m' p = n;
  hd_ptr : ptr m' p = v
}.

Lemma header_ptr m m' p n v q : header m m' p n v -> away p q -> ptr m' q = ptr m q.
Proof. intros [H _ _] Ha. apply load32_ext. intros x Hx. apply H. unfold away in Ha. lia. Qed.

Lemma header_size m m' p n v q : header m m' p n v -> away p q -> size m' q = size m q.
Proof. intros [H _ _] Ha. apply load32_ext. intros x Hx. apply H. unfold away in Ha. lia. Qed.

Lemma set_header m p n v : is_u32 n -> is_u32 v -> header m (set_ptr (set_size m p n) p v) p n v.
Proof.
  intros Hn Hv. split; unfold set_ptr, set_size, size, ptr.
  - intros x Hx. rewrite !store32_other by lia. done.
  - rewrite load_store32_ne by lia. by apply load_store32_eq.
  - by apply load_store32_eq.
Qed.

Lemma set_ptr_header m p v : is_u32 v -> header m (set_ptr m p v) p (size m p) v.
Proof.
  intros Hv. split; unfold set_ptr, size, ptr.
  - intros x Hx. by rewrite store32_other by lia.
  - by rewrite load_store32_ne by lia.
  - by apply load_store32_eq.
Qed.

Lemma set_size_header m p n : is_u32 n -> header m (set_size m p n) p n (ptr m p).
Proof.
  intros Hv. split; unfold set_size, size, ptr.
  - intros x Hx. by rewrite store32_other by lia.
  - by apply load_store32_eq.
  - by rewrite load_store32_ne by lia.
Qed.

Lemma size_set_eq m p n : is_u32 n -> size (set_size m p n) p = n.
Proof. apply load_store32_eq. Qed.

Lemma tiled_ext m m' a bl :
  (forall x, a <= x < a + 8 * total bl -> m' x = m x) -> tiled m a bl -> tiled m' a bl.
Proof.
  revert a. induction bl as [|[n f] r IH]; intros a; simpl; [done|].
  intros Hm (Hn & Hs & Ht). pose proof (total_nonneg _ _ _ Ht). split_and!; [done| |].
  - rewrite <- Hs. apply load32_ext. intros x Hx. apply Hm. lia.
  - apply IH; [|done]. intros x Hx. apply Hm. lia.
Qed.

(** A new header in place of that of a tile. *)
Lemma tiled_header m m' a l n f n' f' v r r' :
  tiled m a (l ++ (n, f) :: r) -> header m m' (a + 8 * total l) n' v -> 0 < n' ->
  tiled m (a + 8 * total l + 8 * n') r' -> tiled m' a (l ++ (n', f') :: r').
Proof.
  rewrite !tiled_app. simpl. intros (Hl & Hn & _) Hh Hn' Hr.
  pose proof (total_nonneg _ _ _ Hl). pose proof (total_nonneg _ _ _ Hr).
  split_and!; [|done|apply Hh|]; (eapply tiled_ext; [|eassumption]; intros x Hx; apply Hh; lia).
Qed.

Lemma chain_header m m' p l e n v :
  incr p l -> chain m p l e -> header m m' (lst p l) n v -> chain m' p l v.
Proof.
  revert p. induction l as [|x l IH]; intros p; simpl; [by intros _ _ []|].
  intros [Hx Hi] [Hp Hc] Hh. split; [|by eapply IH].
  rewrite <- Hp. eapply header_ptr; [done|]. pose proof (lst_le _ _ Hi). right. lia.
Qed.

Lemma chain_ext m m' p l e : (forall x, x ∈ p :: l -> ptr m' x = ptr m x) -> chain m p l e -> chain m' p l e.
Proof.
  revert p. induction l as [|x l IH]; intros p Hm;
    (assert (E : ptr m' p = ptr m p) by (apply Hm; by left)); simpl; rewrite E; [done|].
  intros [Hx Hc]. split; [done|]. apply IH; [|done]. intros y Hy. apply Hm. by right.
Qed.

Lemma chain_away m m' p l e q n v :
  header m m' q n v -> away q p -> (forall x, x ∈ l -> away q x) -> chain m p l e -> chain m' p l e.
Proof.
  intros Hh. revert p. induction l as [|x l IH]; intros p Hp Hl; simpl.
  - intros <-. by eapply header_ptr.
  - intros [<- Hc]. split; [by eapply header_ptr|]. apply IH; [apply Hl; by left| |done]. intros y Hy. apply Hl. by right.
Qed.

(** ** The heap *)

(** What the kernel promises: [sbrk] of a positive number fails and changes
    nothing, or adds memory at the old break, which it returns. *)
Class SbrkLaws `{Sbrk} : Prop := sbrk_law n s :
  0 < n < 2 ^ 31 ->
  sbrk n s = (u32 (-1), s) \/
  brk s + n < KERNBASE /\ exists m, sbrk n s = (brk s, mkust m (freep s) (brk s + n)) /\ forall x, x < brk s -> m x = um s x.

Section Heap.
Context (base lo : Z).

Record heap (s : ust) (bl : list tile) : Prop := mkheap {
  hp_base : 0 < base /\ base + 8 <= lo;
  hp_brk : brk s = lo + 8 * total bl;
  hp_top : brk s <= KERNBASE;
  hp_base_size : size (um s) base = 0;
  hp_tiled : tiled (um s) lo bl;
  hp_apart : apart false bl;
  hp_chain : chain (um s) base (frees lo bl) base;
  hp_freep : freep s ∈ base :: frees lo bl
}.

(** ** free *)

(** The tile and the free one after it. *)
Definition tjoin_up (n : Z) (r : list tile) : Z * list tile :=
  match r with
  | (n2, true) :: r' => (n + n2, r')
  | _ => (n, r)
  end.

(** The free tile before it and the tile. *)
Definition tjoin_down (l : list tile) (n : Z) : list tile * Z :=
  match reverse l with
  | (n1, true) :: l' => (reverse l', n1 + n)
  | _ => (l, n)
  end.

Definition tfree (l : list tile) (n : Z) (r : list tile) : list tile :=
  let '(n, r) := tjoin_up n r in
  let '(l, n) := tjoin_down l n in
  l ++ (n, true) :: r.

(** The search, from a block after [bp] ... *)
Lemma free_loop_above fuel m bp q l :
  base < bp -> bp < q -> incr q l -> chain m q l base -> (length l < fuel)%nat ->
  free_loop fuel m bp q = free_loop (fuel - S (length l)) m bp base.
Proof.
  intros Hb. revert fuel q. induction l as [|x l IH]; intros fuel q Hq Hi Hc Hf.
  - destruct fuel as [|fuel]; [simpl in Hf; lia|]. simpl in Hc. simpl free_loop at 1. rewrite Hc.
    rewrite (proj2 (Z.ltb_ge q bp)), (proj2 (Z.ltb_ge bp base)) by lia. rewrite Nat.sub_succ, Nat.sub_0_r. by destruct (base <=? q).
  - destruct fuel as [|fuel]; [simpl in Hf; lia|]. destruct Hc as [Hc1 Hc2], Hi as [Hi1 Hi2].
    simpl free_loop at 1. rewrite Hc1, (proj2 (Z.ltb_ge q bp)), (proj2 (Z.leb_gt x q)) by lia. simpl.
    simpl in Hf. rewrite IH by (done || lia). done.
Qed.

(** ... and from one before it. *)
Lemma free_loop_below fuel m bp q l r :
  base <= q -> incr q (l ++ r) -> chain m q (l ++ r) base -> lst q l < bp -> (forall x, x ∈ r -> bp < x) ->
  (length l <= fuel)%nat -> free_loop fuel m bp q = Some (lst q l).
Proof.
  revert fuel q. induction l as [|x l IH]; intros fuel q Hb Hi Hc Hl Hr Hf.
  - simpl in Hl |- *. replace (free_loop fuel m bp q) with (Some q); [done|].
    assert (H : (q <? bp) = true) by (apply Z.ltb_lt; lia).
    destruct r as [|y r]; simpl in Hc.
    + destruct fuel; simpl; rewrite H, Hc, (proj2 (Z.leb_le base q)) by lia; simpl; by destruct (bp <? base).
    + destruct Hc as [Hc _]. assert (H' : (bp <? y) = true) by (apply Z.ltb_lt, Hr; by left).
      by destruct fuel; simpl; rewrite H, Hc, H'.
  - destruct fuel as [|fuel]; [simpl in Hf; lia|]. destruct Hc as [Hc1 Hc2], Hi as [Hi1 Hi2].
    assert (Hx : x < bp). { apply incr_app in Hi2 as [Hi2 _]. pose proof (lst_le _ _ Hi2). simpl in Hl. lia. }
    simpl free_loop. rewrite Hc1, (proj2 (Z.ltb_ge bp x)), andb_false_r, (proj2 (Z.leb_gt x q)) by lia.
    simpl in Hf. apply IH; (done || lia).
Qed.

Lemma free_loop_finds fuel m bp q l r :
  base < bp -> incr base (l ++ r) -> chain m base (l ++ r) base -> lst base l < bp -> (forall x, x ∈ r -> bp < x) ->
  q ∈ base :: l ++ r -> (length (l ++ r) < fuel)%nat -> free_loop fuel m bp q = Some (lst base l).
Proof.
  intros Hb Hi Hc Hl Hr Hq Hf. rewrite app_comm_cons in Hq. rewrite length_app in Hf.
  apply elem_of_app in Hq as [Hq|Hq].
  - destruct (node_split _ _ _ _ _ _ Hi Hc Hq) as (l2 & H1 & H2 & H3 & H4 & H5). rewrite <- H4 in *.
    apply (free_loop_below _ _ _ _ l2 r); (done || lia).
  - destruct r as [|y r]; [by apply not_elem_of_nil in Hq|].
    pose proof (Hr y ltac:(by left)). pose proof Hc as [_ Hc']%chain_app. specialize (Hc' ltac:(done)). simpl in Hc'.
    pose proof Hi as [_ [_ Hi']]%incr_app. rewrite <- (app_nil_r r) in Hi', Hc'.
    destruct (node_split _ _ _ _ _ _ Hi' Hc' Hq) as (r2 & H1 & H2 & H3 & H4 & H5). rewrite app_nil_r in *. simpl in Hf.
    rewrite (free_loop_above _ _ _ _ r2) by (done || lia).
    apply (free_loop_below _ _ _ _ l (y :: r)); (done || lia).
Qed.
(** The node before the tile at the end of [l]. *)
Notation before l := (lst base (frees lo l)).

Section Frame.
Hypothesis base_ok : 0 < base /\ base + 8 <= lo.

Lemma before_le m l : tiled m lo l -> before l + 8 <= lo + 8 * total l.
Proof.
  intros Ht. destruct (lst_elem base (frees lo l)) as [[-> _]|Hx].
  - pose proof (total_nonneg _ _ _ Ht). lia.
  - pose proof (frees_bounds _ _ _ _ Ht Hx). lia.
Qed.

Lemma frees_lb m a bl x : tiled m a bl -> x ∈ frees a bl -> a <= x.
Proof. intros H1 H2. apply (frees_bounds _ _ _ _ H1 H2). Qed.

Lemma hplus_small p n : 0 <= p -> 0 <= n -> p + 8 * n <= KERNBASE -> hplus p n = p + 8 * n.
Proof. intros. unfold hplus, KERNBASE in *. apply u32_small. unfold is_u32. lia. Qed.

Lemma hd_u32 m a bl : lo <= a -> a + 8 * total bl <= KERNBASE -> tiled m a bl -> is_u32 (hd base (frees a bl)).
Proof.
  intros Ha Hk Ht. pose proof (total_nonneg _ _ _ Ht). unfold is_u32, KERNBASE in *.
  destruct (frees a bl) as [|x r] eqn:E; simpl; [lia|].
  assert (Hx : x ∈ frees a bl) by (rewrite E; by left). pose proof (frees_bounds _ _ _ _ Ht Hx). lia.
Qed.

Lemma join_up_ok m l n r n' r' :
  let bp := lo + 8 * total l in
  tiled m lo (l ++ (n, false) :: r) -> chain m base (frees lo l ++ frees (bp + 8 * n) r) base ->
  bp + 8 * (n + total r) <= KERNBASE -> tjoin_up n r = (n', r') ->
  header m (join_up m bp (before l)) bp n' (hd base (frees (bp + 8 * n') r')) /\
  0 < n' /\ tiled m (bp + 8 * n') r' /\ n' + total r' = n + total r /\
  let F := frees (bp + 8 * n') r' in F <> [] -> chain m (hd base F) (tl F) base.
Proof.
  intros bp Ht Hc Hk Hj. apply tiled_app in Ht as [Hl (Hn & Hs & Hr)]. fold bp in Hs, Hr.
  pose proof (before_le _ _ Hl) as Hp. fold bp in Hp. pose proof (total_nonneg _ _ _ Hl). pose proof (total_nonneg _ _ _ Hr).
  apply chain_app in Hc as [Hc1 Hc2]. apply chain_lst in Hc1.
  assert (Hu : is_u32 (hd base (frees (bp + 8 * n) r))) by (apply (hd_u32 m); [lia..|done]).
  unfold join_up. rewrite Hs, Hc1, hplus_small by lia. pose proof Hk as Hk'. unfold KERNBASE in Hk'.
  destruct r as [|[n2 [|]] r2]; simpl in Hj; injection Hj as <- <-; simpl in *.
  - rewrite (proj2 (Z.eqb_neq _ _)) by lia. split_and!; try done. pose proof (set_ptr_header m bp _ Hu) as G. by rewrite Hs in G.
  - rewrite Z.eqb_refl. destruct Hr as (Hn2 & Hs2 & Hr2). specialize (Hc2 ltac:(done)).
    pose proof (total_nonneg _ _ _ Hr2). rewrite Hs2. rewrite u32_small by (unfold is_u32; lia).
    pose proof (set_size_header m bp (n + n2) ltac:(unfold is_u32; lia)) as Hm. set (m1 := set_size _ _ _) in *.
    replace (bp + 8 * (n + n2)) with (bp + 8 * n + 8 * n2) by lia.
    assert (Hv : ptr m (bp + 8 * n) = hd base (frees (bp + 8 * n + 8 * n2) r2) /\
      let F := frees (bp + 8 * n + 8 * n2) r2 in F <> [] -> chain m (hd base F) (tl F) base).
    { destruct (frees _ r2); simpl in *; naive_solver. }
    destruct Hv as [Hv1 Hv2]. rewrite (header_ptr _ _ _ _ _ (before l) Hm), Hc1, (header_ptr _ _ _ _ _ _ Hm), Hv1; unfold away; [|lia..].
    split_and!; [|lia|done|lia|done]. apply set_header; [unfold is_u32; lia|]. apply (hd_u32 m); [lia..|done].
  - destruct Hr as (Hn2 & Hs2 & Hr2). rewrite (proj2 (Z.eqb_neq _ _)).
    + split_and!; try done. pose proof (set_ptr_header m bp _ Hu) as G. by rewrite Hs in G.
    + destruct (frees _ r2) as [|x F] eqn:E; simpl; [lia|].
      pose proof (frees_lb _ _ _ x Hr2 ltac:(rewrite E; by left)). lia.
Qed.

Lemma join_down_ok m m1 l n l' n' v :
  let bp := lo + 8 * total l in
  tiled m lo l -> size m base = 0 -> header m m1 bp n v -> tjoin_down l n = (l', n') -> 0 < n -> is_u32 v ->
  bp + 8 * n <= KERNBASE ->
  (l' = l /\ n' = n /\ endf false l = false /\ header m1 (join_down m1 bp (before l)) (before l) (size m (before l)) bp) \/
  (exists n1, l = l' ++ [(n1, true)] /\ n' = n1 + n /\ before l = lo + 8 * total l' /\
     header m1 (join_down m1 bp (before l)) (before l) n' v).
Proof.
  intros bp Hl Hb Hm Hj Hn Hv Hk. pose proof (before_le _ _ Hl) as Hp. fold bp in Hp.
  pose proof (total_nonneg _ _ _ Hl). unfold join_down.
  rewrite (header_size _ _ _ _ _ _ Hm), (hd_size _ _ _ _ _ Hm) by (unfold away; lia).
  destruct (endf false l) eqn:He.
  - right. destruct l as [|[n1 f] l0 _] using rev_ind; [done|].
    rewrite endf_snoc in He. subst f.
    unfold tjoin_down in Hj. rewrite reverse_snoc, reverse_involutive in Hj. injection Hj as <- <-.
    apply tiled_app in Hl as [Hl0 (Hn1 & Hs1 & _)]. unfold bp in *. rewrite total_app in *. simpl in *.
    rewrite frees_app, lst_app in *. simpl in *. exists n1. split_and!; [done..|].
    rewrite Hs1, hplus_small by (pose proof (total_nonneg _ _ _ Hl0); lia).
    pose proof (total_nonneg _ _ _ Hl0). unfold KERNBASE in Hk.
    rewrite (proj2 (Z.eqb_eq _ _)) by lia. rewrite u32_small by (unfold is_u32; lia).
    pose proof (set_size_header m1 (lo + 8 * total l0) (n1 + n) ltac:(unfold is_u32; lia)) as Hm2.
    rewrite (header_ptr _ _ _ _ _ _ Hm2), (hd_ptr _ _ _ _ _ Hm) by (unfold away; lia).
    apply set_header; [unfold is_u32; lia|done].
  - left. assert (tjoin_down l n = (l, n)) as E.
    { unfold tjoin_down. destruct l as [|[n1 f] l0 _] using rev_ind; [done|]. rewrite endf_snoc in He. subst f.
      by rewrite reverse_snoc. }
    rewrite Hj in E. injection E as -> ->. rewrite (proj2 (Z.eqb_neq _ _)).
    + split_and!; [done..|]. pose proof (set_ptr_header m1 (before l) bp) as G.
      rewrite (header_size _ _ _ _ _ _ Hm) in G by (unfold away; lia). apply G. unfold is_u32, KERNBASE in *. lia.
    + destruct (lst_elem base (frees lo l)) as [[-> _]|Hx].
      * rewrite Hb, hplus_small by (unfold KERNBASE in *; lia). lia.
      * pose proof (free_before _ _ _ _ Hl He Hx). pose proof (free_inside _ _ _ _ Hl Hx).
        unfold bp in *. rewrite hplus_small by lia. lia.
Qed.
Lemma frees_split a bl x :
  x ∈ frees a bl -> exists l k r, bl = l ++ (k, true) :: r /\ x = a + 8 * total l.
Proof.
  revert a. induction bl as [|[n f] bl IH]; intros a; simpl; [by intros ?%not_elem_of_nil|].
  intros Hx. assert (H0 : (f = true /\ x = a) \/ x ∈ frees (a + 8 * n) bl).
  { destruct f; [apply elem_of_cons in Hx as [->|]; auto|auto]. }
  destruct H0 as [[-> ->]|(l & k & r & -> & ->)%IH]; [exists [], n, bl; simpl; split; [done|lia]|].
  exists ((n, f) :: l), k, r. simpl. split; [done|lia].
Qed.

(** A new link in a free tile, or below the tiles. *)
Lemma tiled_relink m m' a bl x v :
  tiled m a bl -> header m m' x (size m x) v -> x + 8 <= a \/ x ∈ frees a bl -> tiled m' a bl.
Proof.
  intros Ht Hh [Hx|(l & k & r & -> & ->)%frees_split].
  - eapply tiled_ext; [|done]. intros y Hy. apply Hh. lia.
  - pose proof Ht as [_ (Hk & Hs & Hr)]%tiled_app. rewrite Hs in Hh. by eapply tiled_header.
Qed.

Lemma tjoin_up_apart n r n' r' : apart false r -> tjoin_up n r = (n', r') -> apart true r'.
Proof. destruct r as [|[n2 [|]] r]; simpl; intros H E; simplify_eq; simpl; naive_solver. Qed.

(** A header at the end of the nodes of [l] leaves the nodes after it alone. *)
Lemma tail_away m m' p n v a bl e :
  header m m' p n v -> p + 8 <= a -> tiled m a bl ->
  (let F := frees a bl in F <> [] -> chain m (hd e F) (tl F) e) ->
  let F := frees a bl in F <> [] -> chain m' (hd e F) (tl F) e.
Proof.
  intros Hh Hp Ht Hc F HF. specialize (Hc HF). fold F in Hc. destruct F as [|x F'] eqn:E; [done|].
  assert (Hx : forall y, y ∈ x :: F' -> away p y).
  { intros y Hy. left. rewrite <- E in Hy. pose proof (frees_lb _ _ _ _ Ht Hy). lia. }
  eapply chain_away; [done|apply Hx; by left| |done]. intros y Hy. apply Hx. by right.
Qed.

(** The memory before the tile at [bp] is put on the list: [m], whose tiles are
    those of [l] and [r] with the tile between them, the free ones of [l] in a
    list that ends anywhere, [bp] leading to those of [r]. *)
Record unlinked (m : memory) (l : list tile) (n : Z) (r : list tile) : Prop := mkunlinked {
  ul_size : size m base = 0;
  ul_tiled : tiled m lo (l ++ (n, false) :: r);
  ul_left : apart false l;
  ul_right : apart true r;
  ul_list : exists e, chain m base (frees lo l) e;
  ul_ptr : ptr m (lo + 8 * total l) = hd base (frees (lo + 8 * total l + 8 * n) r);
  ul_rest : let F := frees (lo + 8 * total l + 8 * n) r in F <> [] -> chain m (hd base F) (tl F) base
}.

Lemma nodes_below m l x : tiled m lo l -> x ∈ base :: frees lo l -> x + 8 <= lo + 8 * total l.
Proof.
  intros Ht [->|Hx]%elem_of_cons; [pose proof (total_nonneg _ _ _ Ht); lia|].
  pose proof (frees_bounds _ _ _ _ Ht Hx). lia.
Qed.

Lemma base_size m m' p k v :
  size m base = 0 -> header m m' p k v -> p = base /\ k = 0 \/ away p base -> size m' base = 0.
Proof. intros Hm Hh [[-> ->]|Ha]; [apply Hh|]. by rewrite (header_size _ _ _ _ _ _ Hh Ha). Qed.

Lemma link_apart m m' l n r b :
  unlinked m l n r -> endf false l = false ->
  header m m' (before l) (size m (before l)) (lo + 8 * total l) ->
  b = lo + 8 * total (l ++ (n, true) :: r) -> b <= KERNBASE -> heap (mkust m' (before l) b) (l ++ (n, true) :: r).
Proof.
  intros [U1 U2 U3 U4 [e U5] U6 U7] He D -> Hk. set (bp := lo + 8 * total l) in *.
  pose proof U2 as [Hl (Hn & _ & Hr)]%tiled_app. fold bp in Hr.
  pose proof (before_le _ _ Hl) as Hp. fold bp in Hp.
  pose proof (frees_incr _ base _ _ Hl (proj2 base_ok)) as Hi. pose proof (lst_elem base (frees lo l)) as Hx.
  assert (Hf : frees lo (l ++ (n, true) :: r) = frees lo l ++ bp :: frees (bp + 8 * n) r) by by rewrite frees_app.
  split; simpl; [done|done|done| | | | |].
  - eapply base_size; [exact U1|exact D|]. destruct Hx as [[E _]|Hx]; [left; rewrite E; done|right; right].
    pose proof (incr_lb _ _ _ Hi Hx). lia.
  - apply (tiled_flag _ _ _ _ false). apply (tiled_relink m m' _ _ (before l) bp U2 D).
    destruct Hx as [[-> _]|Hx]; [left; lia|right]. rewrite frees_app. apply elem_of_app. by left.
  - apply apart_app. rewrite He. simpl. done.
  - rewrite Hf. apply chain_mid; [by eapply chain_header|]. apply chain_hd.
    + rewrite (header_ptr _ _ _ _ _ _ D); [done|]. left. lia.
    + apply (tail_away m m' (before l) _ _ _ _ _ D); [lia|done|done].
  - rewrite Hf. destruct Hx as [[-> _]|Hx]; [by left|]. right. apply elem_of_app. by left.
Qed.

Lemma link_join m m' l n1 n r b :
  unlinked m (l ++ [(n1, true)]) n r ->
  header m m' (lo + 8 * total l) (n1 + n) (ptr m (lo + 8 * total (l ++ [(n1, true)]))) ->
  b = lo + 8 * total (l ++ (n1 + n, true) :: r) -> b <= KERNBASE ->
  heap (mkust m' (lo + 8 * total l) b) (l ++ (n1 + n, true) :: r).
Proof.
  intros [U1 U2 U3 U4 [e U5] U6 U7] D -> Hk. rewrite U6 in D. clear U6. set (p := lo + 8 * total l) in *.
  rewrite <- (assoc_L app) in U2. simpl in U2. pose proof U2 as [Hl (Hn1 & Hs1 & Hn & _ & Hr)]%tiled_app. fold p in Hs1, Hr.
  rewrite total_app in *. rewrite frees_app in U5. simpl in *. fold p in U5.
  replace (lo + 8 * (total l + (n1 + 0)) + 8 * n) with (p + 8 * (n1 + n)) in * by lia.
  replace (p + 8 * n1 + 8 * n) with (p + 8 * (n1 + n)) in * by lia.
  pose proof (total_nonneg _ _ _ Hl).
  assert (Hi : incr base (frees lo l ++ [p])).
  { apply incr_app. split; [eapply frees_incr; [exact Hl|lia]|]. split; [by apply (before_le m)|done]. }
  assert (Hf : frees lo (l ++ (n1 + n, true) :: r) = (frees lo l ++ [p]) ++ frees (p + 8 * (n1 + n)) r).
  { rewrite frees_app. by rewrite <- (assoc_L app). }
  split; simpl; [done|by rewrite total_app|done| | | | |].
  - eapply base_size; [exact U1|exact D|]. right. right. lia.
  - eapply tiled_header; [exact U2|exact D|lia|exact Hr].
  - apply apart_app. apply apart_app in U3 as [U3 [U3' _]]. by simpl.
  - rewrite Hf. apply chain_app. split; [eapply chain_header; [exact Hi|exact U5|]|].
    + rewrite lst_app. exact D.
    + apply (tail_away m m' p _ _ _ _ _ D); [lia|done|done].
  - rewrite Hf. right. apply elem_of_app. left. apply elem_of_app. right. by left.
Qed.

(** The memory after [free]. *)
Lemma free_heap m q b l n r p :
  heap (mkust m q b) (l ++ (n, false) :: r) -> p = before l ->
  let bp := lo + 8 * total l in
  heap (mkust (join_down (join_up m bp p) bp p) p b) (tfree l n r).
Proof.
  intros Hh ->. intros bp. destruct Hh as [H1 H2 H3 H4 H5 H6 H7 H8]. simpl in *.
  unfold tfree. destruct (tjoin_up n r) as [n' r'] eqn:E1. destruct (tjoin_down l n') as [l' n''] eqn:E2.
  rewrite frees_app in H7. rewrite total_app in H2. simpl in H7, H2. fold bp in H7.
  destruct (join_up_ok m l n r n' r' H5 H7 ltac:(lia) E1) as (J1 & J2 & J3 & J4 & J5). fold bp in J1, J3, J5.
  set (m1 := join_up m bp (before l)) in *. pose proof H5 as [Hl _]%tiled_app.
  pose proof (total_nonneg _ _ _ Hl). pose proof (total_nonneg _ _ _ J3).
  apply apart_app in H6 as [A1 [_ A2]]. apply chain_app in H7 as [C1 _].
  assert (U : unlinked m1 l n' r').
  { split.
    - eapply base_size; [exact H4|exact J1|]. right. right. lia.
    - by eapply tiled_header.
    - done.
    - by eapply tjoin_up_apart.
    - eexists. eapply chain_away; [exact J1|..|exact C1].
      + right; apply (nodes_below m); [done|by left].
      + intros x Hx. right; apply (nodes_below m); [done|by right].
    - apply J1.
    - apply (tail_away m m1 bp _ _ _ _ _ J1); [lia|done|done]. }
  destruct (join_down_ok m m1 l n' l' n'' _ Hl H4 J1 E2 J2) as [(-> & -> & He & D)|(n1 & -> & -> & Hb & D)];
    [apply (hd_u32 m); [lia..|done]|lia| |].
  - apply (link_apart m1); [done|done| |rewrite total_app; simpl; lia|done].
    rewrite (header_size _ _ _ _ _ _ J1); [done|]. right. by apply (before_le m).
  - unfold bp in *. rewrite Hb in *. apply (link_join m1); [done| | |done].
    + by rewrite (hd_ptr _ _ _ _ _ J1).
    + rewrite !total_app in *. simpl in *. lia.
Qed.
(** The tiles in use are apart from the free ones. *)
Lemma live_bounds m a bl b n : tiled m a bl -> (b, n) ∈ lives a bl -> a <= b /\ b + 8 * n <= a + 8 * total bl.
Proof.
  revert a. induction bl as [|[k f] r IH]; intros a; simpl; [by intros _ ?%not_elem_of_nil|].
  intros (Hk & _ & Ht) Hb. pose proof (total_nonneg _ _ _ Ht).
  assert (H0 : (b = a /\ n = k) \/ (b, n) ∈ lives (a + 8 * k) r).
  { destruct f; [auto|]. apply elem_of_cons in Hb as [?|?]; [left; by simplify_eq|auto]. }
  destruct H0 as [[-> ->]|H0]; [lia|]. specialize (IH _ Ht H0). lia.
Qed.

Lemma live_free m a bl b n x :
  tiled m a bl -> (b, n) ∈ lives a bl -> x ∈ frees a bl -> x + 8 <= b \/ b + 8 * n <= x.
Proof.
  revert a. induction bl as [|[k f] r IH]; intros a; simpl; [by intros _ ?%not_elem_of_nil|].
  intros (Hk & _ & Ht) Hb Hx. destruct f.
  - pose proof (live_bounds _ _ _ _ _ Ht Hb). apply elem_of_cons in Hx as [->|Hx]; [left; lia|eauto].
  - pose proof (frees_lb _ _ _ _ Ht Hx). apply elem_of_cons in Hb as [E|Hb]; [simplify_eq; right; lia|eauto].
Qed.

Lemma join_up_else m bp p x : x < bp \/ bp + 8 <= x -> join_up m bp p x = m x.
Proof.
  intros H. unfold join_up, set_ptr, set_size. destruct (_ =? _); rewrite !store32_other by lia; done.
Qed.

Lemma join_down_else m bp p x : x < p \/ p + 8 <= x -> join_down m bp p x = m x.
Proof.
  intros H. unfold join_down, set_ptr, set_size. destruct (_ =? _); rewrite !store32_other by lia; done.
Qed.

Lemma in_use_app a l r x : in_use a (l ++ r) x <-> in_use a l x \/ in_use (a + 8 * total l) r x.
Proof. unfold in_use. rewrite lives_app. setoid_rewrite elem_of_app. naive_solver. Qed.

(** The header of a free tile, or of [base], holds no byte in use. *)
Lemma in_use_away m a bl x y :
  tiled m a bl -> in_use a bl y -> x + 8 <= a \/ x ∈ frees a bl -> y < x \/ x + 8 <= y.
Proof.
  intros Ht (b & n & Hb & Hy) [Hx|Hx].
  - pose proof (live_bounds _ _ _ _ _ Ht Hb). lia.
  - pose proof (live_free _ _ _ _ _ _ Ht Hb Hx). lia.
Qed.

Lemma before_node l : before l = base \/ before l ∈ frees lo l.
Proof. destruct (lst_elem base (frees lo l)) as [[]|]; auto. Qed.

Lemma free_frame m l n r x :
  let bp := lo + 8 * total l in
  tiled m lo (l ++ (n, false) :: r) -> in_use lo l x \/ in_use (bp + 8 * n) r x ->
  join_down (join_up m bp (before l)) bp (before l) x = m x.
Proof.
  intros bp Ht Hx. pose proof Ht as [Hl (Hn & _ & Hr)]%tiled_app. fold bp in Hr.
  pose proof (before_le _ _ Hl) as Hp. fold bp in Hp. pose proof (total_nonneg _ _ _ Hl).
  rewrite join_down_else, join_up_else; [done|..].
  - destruct Hx as [(b & k & Hb & Hy)|(b & k & Hb & Hy)].
    + pose proof (live_bounds _ _ _ _ _ Hl Hb). lia.
    + pose proof (live_bounds _ _ _ _ _ Hr Hb). lia.
  - destruct Hx as [Hx|(b & k & Hb & Hy)].
    + eapply in_use_away; [exact Hl|exact Hx|]. destruct (before_node l) as [->|]; [left; lia|by right].
    + pose proof (live_bounds _ _ _ _ _ Hr Hb). lia.
Qed.

Lemma lives_tfree l n r :
  lives lo (tfree l n r) = lives lo l ++ lives (lo + 8 * total l + 8 * n) r.
Proof.
  unfold tfree, tjoin_up, tjoin_down.
  assert (H : forall k r', lives lo (let '(l, n) := match reverse l with (n1, true) :: l' => (reverse l', n1 + k) | _ => (l, k) end in
    l ++ (n, true) :: r') = lives lo l ++ lives (lo + 8 * total l + 8 * k) r').
  { intros k r'. destruct l as [|[n1 f] l0 _] using rev_ind; [simpl; by rewrite Z.add_0_r|].
    rewrite reverse_snoc. destruct f; rewrite ?reverse_involutive; [|by rewrite lives_app].
    rewrite !lives_app, total_app. simpl. rewrite app_nil_r. do 2 f_equal. lia. }
  destruct r as [|[n2 [|]] r2]; [apply H| |apply H]. rewrite H. simpl. do 2 f_equal. lia.
Qed.

Lemma length_frees a bl : (length (frees a bl) <= length bl)%nat.
Proof. revert a. induction bl as [|[n [|]] r IH]; intros a; simpl; [done|..]; specialize (IH (a + 8 * n)); lia. Qed.

Lemma free_ok fuel s l n r :
  heap s (l ++ (n, false) :: r) -> (length (l ++ (n, false) :: r) <= fuel)%nat ->
  let bp := lo + 8 * total l in
  exists m, free fuel (bp + 8) s = Some (mkust m (before l) (brk s)) /\
    heap (mkust m (before l) (brk s)) (tfree l n r) /\
    forall x, in_use lo l x \/ in_use (bp + 8 * n) r x -> m x = um s x.
Proof.
  intros Hh Hf bp. destruct s as [m q b]. pose proof (free_heap _ _ _ _ _ _ _ Hh eq_refl) as Hh'. fold bp in Hh'.
  destruct Hh as [H1 H2 H3 H4 H5 H6 H7 H8]. simpl in *.
  pose proof H5 as [Hl (Hn & _ & Hr)]%tiled_app. fold bp in Hr. pose proof (before_le _ _ Hl) as Hp. fold bp in Hp.
  pose proof (total_nonneg _ _ _ Hl). pose proof (total_nonneg _ _ _ Hr). rewrite total_app in H2. simpl in H2.
  pose proof (frees_incr _ base _ _ H5 (proj2 base_ok)) as Hi.
  rewrite frees_app in *. simpl in *. fold bp in H7, H8, Hi.
  pose proof (length_frees lo l). pose proof (length_frees (bp + 8 * n) r). rewrite length_app in Hf. simpl in Hf.
  unfold free. simpl. rewrite Z.add_simpl_r, u32_small by (unfold is_u32, KERNBASE in *; lia).
  rewrite (free_loop_finds fuel m bp q (frees lo l) (frees (bp + 8 * n) r)); try done; [|lia|lia| |rewrite length_app; lia].
  - simpl. eexists. split_and!; [reflexivity|exact Hh'|]. intros x. by apply free_frame.
  - intros x Hx. pose proof (frees_lb _ _ _ _ Hr Hx). lia.
Qed.
(** ** malloc *)

(** The node before [x] in the list. *)
Lemma chain_pred m p l x r e y :
  incr p (l ++ x :: r) -> e <= p -> chain m p (l ++ x :: r) e -> y ∈ p :: l ++ x :: r -> ptr m y = x -> y = lst p l.
Proof.
  revert p. induction l as [|z l IH]; intros p Hi He Hc Hy Hx; simpl in *.
  - apply elem_of_cons in Hy as [->|Hy]; [done|]. exfalso. destruct Hi as [Hi1 Hi2], Hc as [_ Hc].
    rewrite <- (app_nil_r r) in Hi2, Hc. destruct (node_split _ _ _ _ _ _ Hi2 Hc Hy) as (l2 & H1 & H2 & H3 & _).
    rewrite app_nil_r in *. destruct l2 as [|w l2]; simpl in *; lia.
  - destruct Hi as [Hi1 Hi2], Hc as [Hc1 Hc2]. apply elem_of_cons in Hy as [->|Hy]; [|apply IH; (done || lia)].
    assert (H : z + 8 <= x) by (eapply incr_lb; [exact Hi2|]; apply elem_of_app; right; by left). lia.
Qed.

(** The list from one of its nodes around to itself. *)
Lemma rotate m l f :
  incr base l -> chain m base l base -> f ∈ base :: l ->
  exists ns, chain m f ns f /\ f ∉ ns /\ length ns = length l /\ forall x, x ∈ base :: l <-> x ∈ f :: ns.
Proof.
  intros Hi Hc [->|Hf]%elem_of_cons.
  - exists l. split_and!; try done. intros Hx. pose proof (incr_lb _ _ _ Hi Hx). lia.
  - apply list_elem_of_split in Hf as (a & b & ->). apply incr_app in Hi as [Hi1 [Hi2 Hi3]].
    apply chain_app in Hc as [Hc1 Hc2]. specialize (Hc2 ltac:(done)). simpl in Hc1, Hc2.
    exists (b ++ base :: a). pose proof (lst_le _ _ Hi1). split_and!.
    + by apply chain_mid.
    + intros [Hx|[->|Hx]%elem_of_cons]%elem_of_app; [pose proof (incr_lb _ _ _ Hi3 Hx); lia|lia|].
      pose proof (incr_ub _ _ _ Hi1 Hx). lia.
    + rewrite !length_app. simpl. lia.
    + intros x. rewrite !elem_of_cons, !elem_of_app, !elem_of_cons. naive_solver.
Qed.

(** The block taken from the tile of [k] between [l] and [r], its end when it is
    too large. *)
Lemma take_exact m q b l k r :
  heap (mkust m q b) (l ++ (k, true) :: r) ->
  let x := lo + 8 * total l in
  let m' := set_ptr m (before l) (ptr m x) in
  heap (mkust m' (before l) b) (l ++ (k, false) :: r) /\
  (forall y, in_use lo (l ++ (k, true) :: r) y -> m' y = m y).
Proof.
  intros [H1 H2 H3 H4 H5 H6 H7 H8] x m'. simpl in *.
  pose proof H5 as [Hl (Hk & _ & Hr)]%tiled_app. fold x in Hr. pose proof (before_le _ _ Hl) as Hp. fold x in Hp.
  pose proof (total_nonneg _ _ _ Hl). pose proof (total_nonneg _ _ _ Hr). rewrite total_app in H2. simpl in H2.
  pose proof (frees_incr _ base _ _ Hl (proj2 base_ok)) as Hi. rewrite frees_app in H7. simpl in H7. fold x in H7.
  apply chain_app in H7 as [C1 C2]. specialize (C2 ltac:(done)). simpl in C1, C2.
  assert (Hv : ptr m x = hd base (frees (x + 8 * k) r) /\
    let F := frees (x + 8 * k) r in F <> [] -> chain m (hd base F) (tl F) base).
  { destruct (frees (x + 8 * k) r); simpl in *; naive_solver. }
  destruct Hv as [Hv1 Hv2].
  assert (D : header m m' (before l) (size m (before l)) (ptr m x)).
  { apply set_ptr_header. rewrite Hv1. apply (hd_u32 m); [lia..|done]. }
  assert (Hb : before l + 8 <= lo \/ before l ∈ frees lo (l ++ (k, true) :: r)).
  { rewrite frees_app. destruct (before_node l) as [->|Hx]; [left; lia|right; apply elem_of_app; by left]. }
  assert (Hf : frees lo (l ++ (k, false) :: r) = frees lo l ++ frees (x + 8 * k) r) by by rewrite frees_app.
  split; [split; simpl; [done|rewrite total_app; simpl; lia|done| | | | |]|].
  - eapply base_size; [exact H4|exact D|]. destruct (before_node l) as [E|Hx]; [left; by rewrite E|right; right].
    pose proof (incr_lb _ _ _ Hi Hx). lia.
  - apply (tiled_flag _ _ _ _ true). by apply (tiled_relink m m' _ _ (before l) (ptr m x)).
  - apply apart_app in H6 as [A1 [A2 A3]]. apply apart_app. split; [done|]. split; [done|].
    destruct r as [|[? ?] ?]; [done|]. destruct A3 as [_ A3]. by split.
  - rewrite Hf. apply chain_app. split; [rewrite <- Hv1; by eapply chain_header|].
    apply (tail_away m m' (before l) _ _ _ _ _ D); [lia|done|done].
  - rewrite Hf. destruct (before_node l) as [->|Hx]; [by left|right; apply elem_of_app; by left].
  - intros y Hy. apply D. eapply in_use_away; [exact H5|exact Hy|exact Hb].
Qed.
Lemma take_end m q b l k r nu :
  heap (mkust m q b) (l ++ (k, true) :: r) -> 0 < nu < k ->
  let x := lo + 8 * total l in
  let m' := set_size (set_size m x (k - nu)) (x + 8 * (k - nu)) nu in
  heap (mkust m' (before l) b) (l ++ (k - nu, true) :: (nu, false) :: r) /\
  (forall y, in_use lo (l ++ (k, true) :: r) y -> m' y = m y).
Proof.
  intros [H1 H2 H3 H4 H5 H6 H7 H8] Hnu x m'. simpl in *.
  pose proof H5 as [Hl (Hk & Hs & Hr)]%tiled_app. fold x in Hr, Hs. pose proof (before_le _ _ Hl) as Hp. fold x in Hp.
  pose proof (total_nonneg _ _ _ Hl). pose proof (total_nonneg _ _ _ Hr). rewrite total_app in H2. simpl in H2.
  set (m1 := set_size m x (k - nu)) in m'. set (x' := x + 8 * (k - nu)) in *.
  assert (D1 : header m m1 x (k - nu) (ptr m x)) by (apply set_size_header; unfold is_u32, KERNBASE in *; lia).
  assert (D2 : header m1 m' x' nu (ptr m1 x')) by (apply set_size_header; unfold is_u32, KERNBASE in *; lia).
  assert (Hf : frees lo (l ++ (k - nu, true) :: (nu, false) :: r) = frees lo (l ++ (k, true) :: r)).
  { rewrite !frees_app. simpl. fold x. do 3 f_equal. lia. }
  assert (Ha : forall y, y ∈ base :: frees lo (l ++ (k, true) :: r) -> ptr m' y = ptr m y /\ away x' y).
  { intros y Hy. assert (Hy' : away x' y /\ (y = x \/ away x y)).
    { rewrite frees_app in Hy. simpl in Hy. fold x in Hy. rewrite app_comm_cons in Hy.
      apply elem_of_app in Hy as [Hy|[->|Hy]%elem_of_cons]; [|split; [right|left]; lia|].
      - pose proof (nodes_below _ _ _ Hl Hy). unfold away. lia.
      - pose proof (frees_lb _ _ _ _ Hr Hy). unfold away. lia. }
    destruct Hy' as [Hy1 Hy2]. split; [|done]. rewrite (header_ptr _ _ _ _ _ _ D2 Hy1).
    destruct Hy2 as [->|Hy2]; [apply D1|by rewrite (header_ptr _ _ _ _ _ _ D1 Hy2)]. }
  assert (Hm : forall y, y < x \/ x + 8 <= y -> y < x' \/ x' + 8 <= y -> m' y = m y).
  { intros y Y1 Y2. by rewrite (hd_else _ _ _ _ _ D2), (hd_else _ _ _ _ _ D1). }
  split; [split; simpl; [done|rewrite total_app; simpl; lia|done| | | | |]|].
  - rewrite (header_size _ _ _ _ _ _ D2), (header_size _ _ _ _ _ _ D1); [done|right; lia..].
  - apply tiled_app. simpl. fold x x'. split_and!; [|lia| |lia|apply D2|].
    + eapply tiled_ext; [|exact Hl]. intros y Hy. apply Hm; lia.
    + rewrite (header_size _ _ _ _ _ _ D2); [apply D1|]. right. lia.
    + replace (x' + 8 * nu) with (x + 8 * k) by lia. eapply tiled_ext; [|exact Hr]. intros y Hy. apply Hm; lia.
  - apply apart_app in H6 as [A1 [A2 A3]]. apply apart_app. split; [done|]. split; [done|]. split; [done|].
    destruct r as [|[? ?] ?]; [done|]. destruct A3 as [_ A3]. by split.
  - rewrite Hf. eapply chain_ext; [|exact H7]. intros y Hy. by apply Ha.
  - rewrite Hf, frees_app. destruct (before_node l) as [->|Hx]; [by left|right; apply elem_of_app; by left].
  - intros y Hy. assert (Hy' : y < x \/ x + 8 * k <= y).
    { apply in_use_app in Hy as [(c & n & Hc & Hy)|(c & n & Hc & Hy)]; simpl in Hc.
      - pose proof (live_bounds _ _ _ _ _ Hl Hc). lia.
      - pose proof (live_bounds _ _ _ _ _ Hr Hc). fold x in Hc. lia. }
    apply Hm; lia.
Qed.
(** What a successful [malloc] of [nu] headers leaves: the new tile of [nu]
    between [l] and [r]. *)
Definition grants (bl : list tile) (nu : Z) (s : ust) (a : Z) (s' : ust) : Prop :=
  exists l r, a = lo + 8 * total l + 8 /\ heap s' (l ++ (nu, false) :: r) /\
    lives lo l ++ lives (lo + 8 * total l + 8 * nu) r = lives lo bl /\
    forall x, in_use lo bl x -> um s' x = um s x.

Lemma take_block_ok s bl y x nu :
  heap s bl -> 0 < nu -> y ∈ base :: frees lo bl -> x ∈ base :: frees lo bl -> ptr (um s) y = x -> nu <= size (um s) x ->
  grants bl nu s (fst (take_block nu y x s)) (snd (take_block nu y x s)).
Proof.
  intros Hh Hnu Hy Hx Hyx Hs. pose proof Hh as [H1 H2 H3 H4 H5 H6 H7 H8]. destruct s as [m q b]. simpl in *.
  apply elem_of_cons in Hx as [->|(l & k & r & -> & E)%frees_split]; [lia|]. rewrite E in *. clear E.
  pose proof (frees_incr _ base _ _ H5 (proj2 base_ok)) as Hi. rewrite frees_app in Hi, Hy, H7. simpl in Hi, Hy, H7.
  apply (chain_pred m base (frees lo l) (lo + 8 * total l) _ base) in Hy as ->; [|done|lia|done|done].
  pose proof H5 as [Hl (Hk & Hsz & Hr)]%tiled_app. rewrite Hsz in Hs. unfold take_block. simpl. rewrite Hsz.
  rewrite total_app in H2. simpl in H2. pose proof (total_nonneg _ _ _ Hl). pose proof (total_nonneg _ _ _ Hr).
  destruct (Z.eqb_spec k nu) as [->|Hne]; simpl.
  - destruct (take_exact _ _ _ _ _ _ Hh) as [T1 T2]. exists l, r. split_and!; [|exact T1| |exact T2].
    + rewrite hplus_small by (unfold KERNBASE in *; lia). lia.
    + by rewrite lives_app.
  - destruct (take_end _ _ _ _ _ _ nu Hh ltac:(lia)) as [T1 T2].
    rewrite (u32_small (k - nu)) by (unfold is_u32, KERNBASE in *; lia).
    rewrite size_set_eq by (unfold is_u32, KERNBASE in *; lia).
    rewrite (hplus_small (lo + 8 * total l)) by (unfold KERNBASE in *; lia).
    exists (l ++ [(k - nu, true)]), r. rewrite <- (assoc_L app). simpl. rewrite total_app. simpl. split_and!; [|exact T1| |exact T2].
    + rewrite hplus_small by (unfold KERNBASE in *; lia). lia.
    + rewrite !lives_app. simpl. rewrite app_nil_r. do 2 f_equal. lia.
Qed.

Context `{Sbrk}.

(** One round of the list. *)
Lemma malloc_round fuel loops nu s ns prevp :
  chain (um s) prevp ns (freep s) -> freep s ∉ ns -> (length ns < fuel)%nat ->
  (exists y x, y ∈ prevp :: ns /\ x ∈ ns ++ [freep s] /\ ptr (um s) y = x /\ nu <= size (um s) x /\
     malloc_loop fuel loops nu prevp (ptr (um s) prevp) s = Some (take_block nu y x s)) \/
  (Forall (fun x => size (um s) x < nu) (ns ++ [freep s]) /\
   malloc_loop fuel loops nu prevp (ptr (um s) prevp) s =
     ' (p, s') ← morecore loops nu s;
     if p =? 0 then Some (0, s') else malloc_loop (fuel - S (length ns)) loops nu p (ptr (um s') p) s').
Proof.
  revert fuel prevp. induction ns as [|x ns IH]; intros fuel prevp Hc Hn Hf; (destruct fuel as [|fuel]; [simpl in Hf; lia|]).
  - simpl in Hc. cbn [malloc_loop]. rewrite Hc, Z.eqb_refl. destruct (Z.leb_spec nu (size (um s) (freep s))) as [Hs|Hs].
    + left. exists prevp, (freep s). split_and!; try done; by left.
    + right. split; [by constructor|]. simpl. by rewrite Nat.sub_0_r.
  - destruct Hc as [Hc1 Hc2]. apply not_elem_of_cons in Hn as [Hn1 Hn2]. cbn [malloc_loop]. rewrite Hc1.
    destruct (Z.leb_spec nu (size (um s) x)) as [Hs|Hs].
    + left. exists prevp, x. split_and!; try done; by left.
    + rewrite (proj2 (Z.eqb_neq _ _)) by done.
      destruct (IH fuel x Hc2 Hn2 ltac:(simpl in Hf; lia)) as [(y & z & G1 & G2 & G3 & G4 & G5)|[G1 G2]].
      * left. exists y, z. split_and!; try done; by right.
      * right. split; [by constructor|]. exact G2.
Qed.
(** No free tile has [nu] headers. *)
Definition no_room (nu : Z) (bl : list tile) : Prop := Forall (fun t => snd t = true -> fst t < nu) bl.

Lemma no_room_sizes m a bl nu : tiled m a bl -> Forall (fun x => size m x < nu) (frees a bl) -> no_room nu bl.
Proof.
  revert a. induction bl as [|[n f] r IH]; intros a; simpl; [by constructor|]. intros (Hn & Hs & Ht) Hf.
  destruct f; [inversion_clear Hf as [|? ? Hf1 Hf2]|]; constructor; simpl; try done; [intros _; lia|..]; by eapply IH.
Qed.

Lemma malloc_search fuel loops nu s bl :
  heap s bl -> 0 < nu -> (length bl < fuel)%nat ->
  (exists a s', malloc_loop fuel loops nu (freep s) (ptr (um s) (freep s)) s = Some (a, s') /\ grants bl nu s a s') \/
  (no_room nu bl /\ exists fuel', (fuel <= fuel' + S (length bl))%nat /\
   malloc_loop fuel loops nu (freep s) (ptr (um s) (freep s)) s =
     ' (p, s') ← morecore loops nu s;
     if p =? 0 then Some (0, s') else malloc_loop fuel' loops nu p (ptr (um s') p) s').
Proof.
  intros Hh Hnu Hf. pose proof Hh as [H1 H2 H3 H4 H5 H6 H7 H8].
  destruct (rotate (um s) (frees lo bl) (freep s)) as (ns & R1 & R2 & R3 & R4); [|done..|].
  { eapply frees_incr; [exact H5|lia]. }
  pose proof (length_frees lo bl). destruct (malloc_round fuel loops nu s ns (freep s) R1 R2) as [(y & x & G1 & G2 & G3 & G4 & G5)|[G1 G2]]; [lia| |].
  - left. pose proof (take_block_ok s bl y x nu Hh Hnu) as T. destruct (take_block nu y x s) as [a s'].
    exists a, s'. split; [done|]. apply T; [by apply R4| |done..]. apply R4. apply elem_of_app in G2 as [G2|G2]; [by right|].
    apply list_elem_of_singleton in G2 as ->. by left.
  - right. split; [|eexists; split; [|exact G2]; lia]. eapply no_room_sizes; [exact H5|].
    apply list.Forall_forall. intros x Hx. rewrite list.Forall_forall in G1. apply G1.
    assert (Hx' : x ∈ freep s :: ns) by (apply R4; by right). apply elem_of_cons in Hx' as [->|Hx'].
    + apply elem_of_app. right. by left.
    + apply elem_of_app. by left.
Qed.

Lemma heap_extend s bl m nu :
  heap s bl -> (forall x, x < brk s -> m x = um s x) -> size m (brk s) = nu -> 0 < nu -> brk s + 8 * nu <= KERNBASE ->
  heap (mkust m (freep s) (brk s + 8 * nu)) (bl ++ [(nu, false)]).
Proof.
  intros [H1 H2 H3 H4 H5 H6 H7 H8] Hm Hs Hnu Hk. pose proof (total_nonneg _ _ _ H5).
  assert (Hf : frees lo (bl ++ [(nu, false)]) = frees lo bl) by (rewrite frees_app; apply app_nil_r).
  split; simpl; rewrite ?Hf; try done.
  - rewrite total_app. simpl. lia.
  - rewrite <- H4. apply load32_ext. intros x Hx. apply Hm. lia.
  - apply tiled_app. simpl. rewrite <- H2. split_and!; [|done..]. eapply tiled_ext; [|exact H5]. intros x Hx. apply Hm. lia.
  - apply apart_app. by simpl.
  - eapply chain_ext; [|exact H7]. intros x Hx. pose proof (nodes_below _ _ _ H5 Hx).
    apply load32_ext. intros y Hy. apply Hm. lia.
Qed.

(** The tile that was appended and freed has room. *)
Lemma tfree_room m l n nu : tiled m lo l -> nu <= n -> ~ no_room nu (tfree l n []).
Proof.
  intros Hl Hn Hr. unfold tfree, tjoin_up, tjoin_down in Hr.
  destruct l as [|[n1 f] l0 _] using rev_ind; [inversion_clear Hr as [|? ? E _]; specialize (E eq_refl); simpl in E; lia|].
  apply tiled_app in Hl as [_ (Hn1 & _)].
  rewrite reverse_snoc in Hr. destruct f; apply Forall_app in Hr as [_ Hr]; inversion_clear Hr as [|? ? E _];
    specialize (E eq_refl); simpl in E; lia.
Qed.

Lemma length_tfree l n : (length (tfree l n []) <= S (length l))%nat.
Proof.
  unfold tfree, tjoin_up, tjoin_down. destruct l as [|[n1 f] l0 _] using rev_ind; [done|].
  rewrite reverse_snoc. destruct f; rewrite !length_app; simpl; rewrite ?length_reverse; lia.
Qed.

Context `{!SbrkLaws}.

(** The kernel refuses the memory that [morecore] asks for, at least 4096 headers. *)
Definition refused (nu : Z) (s : ust) : Prop := sbrk (8 * Z.max nu 4096) s = (u32 (-1), s).

Lemma morecore_ok loops nu s bl :
  heap s bl -> 0 < nu -> 8 * nu < 2 ^ 31 -> (length bl < loops)%nat ->
  (morecore loops nu s = Some (0, s) /\ refused nu s) \/
  exists s' bl', morecore loops nu s = Some (freep s', s') /\ freep s' <> 0 /\ heap s' bl' /\ lives lo bl' = lives lo bl /\
    ~ no_room nu bl' /\ (length bl' <= S (length bl))%nat /\ forall x, in_use lo bl x -> um s' x = um s x.
Proof.
  intros Hh Hnu Hk Hf. pose proof Hh as [H1 H2 H3 H4 H5 H6 H7 H8]. pose proof (total_nonneg _ _ _ H5).
  unfold morecore. set (n := if nu <? 4096 then 4096 else nu).
  assert (Hn : n = Z.max nu 4096 /\ nu <= n /\ 0 < n /\ 8 * n < 2 ^ 31)
    by (unfold n; destruct (Z.ltb_spec nu 4096); lia).
  rewrite s32_small by (unfold is_s32; lia).
  destruct (sbrk_law (n * 8) s ltac:(lia)) as [E|(Hb & m & -> & Hm)].
  { left. rewrite E. split; [done|]. unfold refused. by rewrite <- (proj1 Hn), Z.mul_comm. }
  right.
  rewrite (proj2 (Z.eqb_neq _ _)) by (change (u32 (-1)) with 4294967295; unfold KERNBASE in *; lia).
  set (m1 := set_size (um _) _ n). simpl in m1.
  assert (D : header m m1 (brk s) n (ptr m (brk s))) by (apply set_size_header; unfold is_u32; lia).
  assert (Hx : heap (mkust m1 (freep s) (brk s + 8 * n)) (bl ++ [(n, false)])).
  { apply (heap_extend s); [done| |apply D|lia|lia]. intros x Hx. rewrite (hd_else _ _ _ _ _ D) by lia. by apply Hm. }
  destruct (free_ok loops _ bl n [] Hx) as (m2 & F1 & F2 & F3); [rewrite length_app; simpl; lia|].
  simpl. rewrite hplus_small by lia. replace (brk s + n * 8) with (brk s + 8 * n) by lia.
  replace (brk s + 8 * 1) with (lo + 8 * total bl + 8) by lia. rewrite F1. simpl.
  exists (mkust m2 (before bl) (brk s + 8 * n)), (tfree bl n []). split_and!; [reflexivity| |exact F2| | | |]; simpl.
  - pose proof (lst_le _ _ (frees_incr _ base _ _ H5 (proj2 base_ok))). lia.
  - rewrite lives_tfree. simpl. apply app_nil_r.
  - apply (tfree_room (um s)); [done|lia].
  - apply length_tfree.
  - intros x Hu. rewrite F3 by by left. simpl. destruct Hu as (b & k & Hb' & Hx'). pose proof (live_bounds _ _ _ _ _ H5 Hb').
    rewrite (hd_else _ _ _ _ _ D) by lia. apply Hm. lia.
Qed.

Lemma malloc_loop_ok fuel loops nu s bl :
  heap s bl -> 0 < nu -> 8 * nu < 2 ^ 31 -> (2 * length bl + 3 <= fuel)%nat -> (length bl < loops)%nat ->
  (malloc_loop fuel loops nu (freep s) (ptr (um s) (freep s)) s = Some (0, s) /\ no_room nu bl /\ refused nu s) \/
  exists a s', malloc_loop fuel loops nu (freep s) (ptr (um s) (freep s)) s = Some (a, s') /\ grants bl nu s a s'.
Proof.
  intros Hh Hnu Hk Hf Hl. destruct (malloc_search fuel loops nu s bl Hh Hnu) as [?|(Hr & f & Hf' & E)]; [lia|by right|].
  rewrite E. destruct (morecore_ok loops nu s bl Hh Hnu Hk Hl) as [[-> Hno]|(s' & bl' & -> & Hz & Hh' & Hlv & Hr' & Hlen & Hm)]; [by left|].
  right. simpl. rewrite (proj2 (Z.eqb_neq _ _)) by done.
  destruct (malloc_search f loops nu s' bl' Hh' Hnu) as [(a & s2 & E2 & G)|(Hr2 & _)]; [lia| |done].
  exists a, s2. split; [done|]. destruct G as (l & r & G1 & G2 & G3 & G4). exists l, r. split_and!; [done|done|congruence|].
  intros x Hx. rewrite G4, Hm; [done|done|]. unfold in_use. by rewrite Hlv.
Qed.

End Frame.

(** A process before its first [malloc], or with a heap. *)
Definition ready (s : ust) (bl : list tile) : Prop :=
  heap s bl \/
  (freep s = 0 /\ bl = [] /\ 0 < base /\ base + 8 <= lo /\ brk s = lo /\ lo <= KERNBASE).

(** The first [malloc] makes [base] the list. *)
Lemma first_heap m b :
  0 < base -> base + 8 <= lo -> b = lo -> lo <= KERNBASE ->
  heap (mkust (set_size (set_ptr m base base) base 0) base b) [].
Proof.
  intros H1 H2 -> H3. unfold KERNBASE in H3. split; simpl; try done; try lia.
  - by apply size_set_eq.
  - pose proof (set_size_header (set_ptr m base base) base 0 ltac:(done)) as D. rewrite (hd_ptr _ _ _ _ _ D).
    apply load_store32_eq. unfold is_u32. lia.
  - by left.
Qed.

(** The process when [malloc] looks at its free list: the first call makes it. *)
Definition started (s : ust) : ust :=
  if freep s =? 0 then mkust (set_size (set_ptr (um s) base base) base 0) base (brk s) else s.

Lemma started_heap s bl :
  ready s bl -> 0 < base /\ base + 8 <= lo /\ heap (started s) bl /\
    forall x, in_use lo bl x -> um (started s) x = um s x.
Proof.
  unfold started. intros [Hh|(Hz & -> & H1 & H2 & H3 & H4)].
  - pose proof (hp_base _ _ Hh) as [B1 B2]. rewrite (proj2 (Z.eqb_neq _ _)); [done|].
    pose proof (hp_freep _ _ Hh) as [->|Hx]%elem_of_cons; [lia|]. pose proof (frees_lb _ _ _ _ (hp_tiled _ _ Hh) Hx). lia.
  - rewrite Hz. simpl. split_and!; [done|done|by apply first_heap|]. by intros x (? & ? & ?%not_elem_of_nil & _).
Qed.

Context `{SbrkLaws}.

(** C21: [malloc] of the user library, in a heap of tiles [bl] (or before the first
    call), for a request of at most 2^31 - 16 bytes, so that the bytes with
    their header fit an int.  Either it returns the address of a new tile of
    exactly the headers it needs, carved from the memory that no one uses, every
    byte in use is left as it was, and the heap is in order again with the tiles
    in use before and the new one.  Or it returns 0; then no free tile has room,
    the kernel refuses the memory that is asked of it, at least 4096 headers, and
    the process is as it was, but for the empty free list that a first call
    makes.  It returns in two rounds of the free list. *)
Theorem malloc_spec fuel loops nbytes s bl :
  ready s bl -> 0 <= nbytes <= 2 ^ 31 - 16 -> (2 * length bl + 3 <= fuel)%nat -> (length bl < loops)%nat ->
  let nunits := (nbytes + 7) / 8 + 1 in
  exists a s', malloc base fuel loops nbytes s = Some (a, s') /\
    ((a = 0 /\ s' = started s /\ heap s' bl /\ no_room nunits bl /\ refused nunits s' /\
        forall x, in_use lo bl x -> um s' x = um s x) \/
     grants bl nunits s a s').
Proof.
  intros Hs Hn Hf Hl nunits. unfold malloc. rewrite u32_small by (unfold is_u32; lia).
  replace (nbytes + 8 - 1) with (nbytes + 7) by lia. fold nunits. fold (started s).
  assert (Hnu : 0 < nunits /\ 8 * nunits < 2 ^ 31) by (unfold nunits; Z.div_mod_to_equations; lia).
  destruct (started_heap s bl Hs) as (B1 & B2 & Hh & Hm).
  destruct (malloc_loop_ok (conj B1 B2) fuel loops nunits (started s) bl Hh)
    as [(-> & Hr & Hno)|(a & s' & -> & l & r & G1 & G2 & G3 & G4)];
    [lia..|exists 0, (started s); split; [done|left; split_and!; done]|].
  exists a, s'. split; [done|]. right. exists l, r. split_and!; try done. intros x Hx. by rewrite G4, Hm.
Qed.

(** C22: [free] of the user library: given a tile in use, it returns within one
    round of the free list; the tile becomes free and is joined with the free
    tiles it touches, the other tiles in use stay where they are, none of their
    bytes changes and no memory is lost. *)
Theorem free_spec fuel s l n r :
  heap s (l ++ (n, false) :: r) -> (length (l ++ (n, false) :: r) <= fuel)%nat ->
  exists s', free fuel (lo + 8 * total l + 8) s = Some s' /\ brk s' = brk s /\ heap s' (tfree l n r) /\
    lives lo (tfree l n r) = lives lo l ++ lives (lo + 8 * total l + 8 * n) r /\
    forall x, in_use lo l x \/ in_use (lo + 8 * total l + 8 * n) r x -> um s' x = um s x.
Proof.
  intros Hh Hf. destruct (free_ok (hp_base _ _ Hh) fuel s l n r Hh Hf) as (m & F1 & F2 & F3).
  eexists. split_and!; [exact F1|done|exact F2|apply lives_tfree|exact F3].
Qed.
End Heap.

(** A kernel that has memory up to [KERNBASE], cleared as [allocuvm] clears it. *)
#[export] Instance DemoSbrk : Sbrk := fun n s =>
  if (0 <? n) && (brk s + n <? KERNBASE) then
    (brk s, mkust (fun x => if x <? brk s then um s x else 0) (freep s) (brk s + n))
  else (u32 (-1), s).

#[export] Instance DemoSbrk_laws : SbrkLaws.
Proof.
  intros n s Hn. unfold sbrk, DemoSbrk. destruct (Z.ltb_spec (brk s + n) KERNBASE) as [Hb|Hb].
  - right. rewrite (proj2 (Z.ltb_lt _ _)) by lia. split; [done|]. eexists. split; [done|].
    intros x Hx. simpl. by rewrite (proj2 (Z.ltb_lt _ _)) by lia.
  - left. by rewrite andb_false_r.
Qed.

Definition demo_start : ust := mkust (fun _ => 0) 0 0x4000.

Lemma demo_ready : ready 0x1000 0x4000 demo_start [].
Proof. right. by split_and!. Qed.

Lemma malloc_spec_witness :
  exists a s', malloc 0x1000 3 1 100 demo_start = Some (a, s') /\
    (a = 0 \/ grants 0x1000 0x4000 [] 14 demo_start a s').
Proof.
  destruct (malloc_spec 0x1000 0x4000 3 1 100 demo_start [] demo_ready) as (a & s' & H1 & H2);
    [lia|done|by constructor|]. exists a, s'. split; [exact H1|].
  destruct H2 as [[-> _]|H2]; [by left|by right].
Defined.

(** The heap after that. *)
Definition demo_heap : ust :=
  mkust (set_ptr (set_size (set_size (set_ptr (set_size (fun _ => 0) 0x4000 4082) 0x4000 0x1000) 0xbf90 14) 0x1000 0)
    0x1000 0x4000) 0x1000 0xc000.

Lemma demo_heap_ok : heap 0x1000 0x4000 demo_heap [(4082, true); (14, false)].
Proof. split; try (by vm_compute); [by left]. Qed.

Lemma free_spec_witness :
  exists s', free 2 0xbf98 demo_heap = Some s' /\ heap 0x1000 0x4000 s' [(4096, true)].
Proof.
  destruct (free_spec 0x1000 0x4000 2 demo_heap [(4082, true)] 14 [] demo_heap_ok ltac:(done)) as (s' & F1 & _ & F2 & _).
  exists s'. split; [exact F1|exact F2].
Defined.
