(* ===== verification/Unix.v ===== *)
(** * Programs and system calls

    User programs as interaction trees over the system calls of [user.h], which may
    loop for ever; running them on a machine that answers the calls; and the part of
    the user library that is made of system calls. *)

From stdpp Require Import base list numbers strings tactics.
From ITree Require Import ITree.
From Stdlib Require Import Lia Program.Equality.
From S2P Require Import Params Console Ulib.

Local Open Scope Z_scope.

(** ** System calls *)

(** [struct stat] *)
Record stat := mkstat { st_type : Z; st_dev : Z; st_ino : Z; st_nlink : Z; st_size : Z }.

(** The calls of [user.h].  The answer of [Read] is the returned number and the bytes it stands
    for, that of [Pipe] the returned number and the two descriptors, that of [Fork] is 0 in
    the child.  [Load] and [Store] are accesses to memory that the program has from
    [Sbrk]; they have no answer where there is no memory. *)
Inductive sysE : Type -> Type :=
| Open (path : list Z) (mode : Z) : sysE Z
| Close (fd : Z) : sysE Z
| Read (fd n : Z) : sysE (Z * list Z)
| Write (fd : Z) (l : list Z) : sysE Z
| Fstat (fd : Z) : sysE (Z * stat)
| Dup (fd : Z) : sysE Z
| Mknod (path : list Z) (major minor : Z) : sysE Z
| Link (old new : list Z) : sysE Z
| Unlink (path : list Z) : sysE Z
| Mkdir (path : list Z) : sysE Z
| Fork : sysE Z
| Exec (path : list Z) (argv : list (list Z)) : sysE Z
| Wait : sysE Z
| Kill (pid : Z) : sysE Z
| Sleep (n : Z) : sysE Z
| Uptime : sysE Z
| Isatty (fd : Z) : sysE Z
| Procstat : sysE Z
| Chdir (path : list Z) : sysE Z
| Pipe : sysE (Z * (Z * Z))
| Getpid : sysE Z
| Sbrk (n : Z) : sysE Z
| Lseek (fd off whence : Z) : sysE Z
| Set_priority (p : Z) : sysE Z
| Semget (id v : Z) : sysE Z
| Semfree (id : Z) : sysE Z
| Semdown (id : Z) : sysE Z
| Semup (id : Z) : sysE Z
| Load (a : Z) : sysE Z
| Store (a v : Z) : sysE unit
| Exit : sysE Empty_set.

Definition prog := itree sysE.

#[export] Instance prog_ret : MRet prog := fun A x => Ret x.
#[export] Instance prog_bind : MBind prog := fun A B k t => ITree.bind t k.

Definition sys {A} (e : sysE A) : prog A := ITree.trigger e.
Definition exit {A} : prog A := x ← sys Exit; match (x : Empty_set) with end.

(** ** Running a program *)

(** A machine: a state and what each call answers in it, [None] when the call does not
    return: [exit], and an [exec] that works. *)
Class Unix := mkUnix {
  os : Type;
  answer : forall A, sysE A -> os -> option (A * os)
}.

(** [run t s o s']: from [s] the program [t] ends in [s'], with the result [o], or
    [None] when it has called [exit]. *)
Inductive run `{Unix} {A} : prog A -> os -> option A -> os -> Prop :=
| run_ret t s a : observe t = RetF a -> run t s (Some a) s
| run_tau t t' s o s' : observe t = TauF t' -> run t' s o s' -> run t s o s'
| run_exit t k s : observe t = VisF Exit k -> run t s None s
| run_call B t (e : sysE B) k s s1 a o s' :
    observe t = VisF e k -> answer B e s = Some (a, s1) -> run (k a) s1 o s' -> run t s o s'.

Lemma observe_bind {E A B} (t : itree E A) (k : A -> itree E B) :
  observe (ITree.bind t k) =
  match observe t with
  | RetF a => observe (k a)
  | TauF t => TauF (ITree.bind t k)
  | VisF e h => VisF e (fun x => ITree.bind (h x) k)
  end.
Proof. unfold ITree.bind. simpl. by destruct (observe t). Qed.

Section Run.
Context `{U : Unix}.

Lemma run_observe {A} (t u : prog A) s o s' : observe t = observe u -> run t s o s' -> run u s o s'.
Proof. intros E H. destruct H; rewrite E in *; [by apply run_ret|by eapply run_tau|by eapply run_exit|by eapply run_call]. Qed.

Lemma run_mret {A} (a : A) s : run (mret a) s (Some a) s.
Proof. by apply run_ret. Qed.

Lemma run_bind {A B} (t : prog A) (k : A -> prog B) s a s1 o s' :
  run t s (Some a) s1 -> run (k a) s1 o s' -> run (t ≫= k) s o s'.
Proof.
  intros H. remember (Some a) as r eqn:Er. revert Er. induction H as [t s b E|t t' s r s1 E H IH|t k' s E|C t e k' s s2 c r s1 E Ea H IH]; intros Er Hk.
  - injection Er as ->. eapply run_observe; [|exact Hk]. unfold mbind, prog_bind. by rewrite observe_bind, E.
  - eapply run_tau; [unfold mbind, prog_bind; rewrite observe_bind, E; reflexivity|]. by apply IH.
  - done.
  - eapply run_call; [unfold mbind, prog_bind; rewrite observe_bind, E; reflexivity|exact Ea|]. by apply IH.
Qed.

Lemma run_bind_exit {A B} (t : prog A) (k : A -> prog B) s s' : run t s None s' -> run (t ≫= k) s None s'.
Proof.
  intros H. remember None as r eqn:Er. revert Er. induction H as [t s b E|t t' s r s1 E H IH|t k' s E|C t e k' s s2 c r s1 E Ea H IH]; intros Er; [done| | |].
  - eapply run_tau; [unfold mbind, prog_bind; rewrite observe_bind, E; reflexivity|]. by apply IH.
  - eapply run_exit. unfold mbind, prog_bind. rewrite observe_bind, E. reflexivity.
  - eapply run_call; [unfold mbind, prog_bind; rewrite observe_bind, E; reflexivity|exact Ea|]. by apply IH.
Qed.

(** A run of a sequence is a run of its parts. *)
Lemma run_bind_inv {A B} (t : prog A) (k : A -> prog B) s o s' : run (t ≫= k) s o s' ->
  (exists a s1, run t s (Some a) s1 /\ run (k a) s1 o s') \/ (o = None /\ run t s None s').
Proof.
  intros H. remember (t ≫= k) as u eqn:Eu. assert (Ho : observe u = observe (t ≫= k)) by congruence. clear Eu. revert t Ho.
  induction H as [u s b E|u u' s o s' E H IH|u k' s E|C u e k' s s2 c o s' E Ea H IH]; intros t Ho;
    unfold mbind, prog_bind in Ho; rewrite observe_bind, E in Ho; destruct (observe t) as [a|t'|D e' h] eqn:Et.
  all: try (left; exists a, s; split; [by apply run_ret|]; symmetry in Ho;
    first [by apply run_ret; rewrite Ho|eapply run_tau; [exact Ho|done]|eapply run_exit; exact Ho|eapply run_call; [exact Ho|exact Ea|done]]).
  all: try done.
  - injection Ho as ->. destruct (IH t' eq_refl) as [(a & s1 & R1 & R2)|[-> R]].
    + left. exists a, s1. split; [by eapply run_tau|done].
    + right. split; [done|by eapply run_tau].
  - right. split; [done|]. dependent destruction Ho. by eapply run_exit.
  - dependent destruction Ho. destruct (IH (h c) eq_refl) as [(a & s1 & R1 & R2)|[-> R]].
    + left. exists a, s1. split; [by eapply run_call|done].
    + right. split; [done|by eapply run_call].
Qed.

Lemma run_sys {A} (e : sysE A) s a s' : answer A e s = Some (a, s') -> run (sys e) s (Some a) s'.
Proof. intros E. eapply run_call; [reflexivity|exact E|]. by apply run_ret. Qed.

Lemma run_exit_ {A} s : run (A := A) exit s None s.
Proof. apply run_bind_exit. by eapply run_exit. Qed.

(** One round of a loop. *)
Lemma run_iter {I A} (f : I -> prog (I + A)) i s r s1 o s' :
  run (f i) s (Some r) s1 ->
  match r with inl j => run (ITree.iter f j) s1 o s' | inr a => o = Some a /\ s' = s1 end ->
  run (ITree.iter f i) s o s'.
Proof.
  intros H1 H2. apply (run_observe (f i ≫= fun r => match r with inl j => Tau (ITree.iter f j) | inr a => Ret a end)); [reflexivity|].
  eapply run_bind; [exact H1|]. destruct r as [j|a]; [by eapply run_tau|]. destruct H2 as [-> ->]. by apply run_ret.
Qed.

Lemma run_iter_exit {I A} (f : I -> prog (I + A)) i s s' : run (f i) s None s' -> run (ITree.iter f i) s None s'.
Proof.
  intros H. apply (run_observe (f i ≫= fun r => match r with inl j => Tau (ITree.iter f j) | inr a => Ret a end)); [reflexivity|].
  by apply run_bind_exit.
Qed.
End Run.

(** ** The user library *)

(** [printf] writes one character at a time.  [u_printf] is undefined when the arguments
    do not fit the format, which no program here does. *)
Fixpoint put_chars (fd : Z) (l : list Z) : prog unit :=
  match l with
  | [] => mret tt
  | c :: l => _ ← sys (Write fd [c]); put_chars fd l
  end.

Definition printf (fd : Z) (fmt : string) (ap : list carg) : prog unit :=
  match u_printf (chars fmt) ap with
  | Some l => put_chars fd l
  | None => mret tt
  end.

(** [stat] of [ulib.c], into the structure [st]. *)
Definition stat_path (n : list Z) (st : stat) : prog (Z * stat) :=
  fd ← sys (Open n O_RDONLY);
  if fd <? 0 then mret (-1, st) else
  r ← sys (Fstat fd);
  _ ← sys (Close fd);
  mret r.
