(* ===== verification/Progs.v ===== *)
(** * User programs

    Programs under [user/] that are made of system calls: [cat], [wc], [cp], [echo],
    [kill], [ln], [mkdir], [rm], [mv], [sleep], [uptime], [isatty-test], [zombie],
    [init], [forktest] and [ls].  [argv] starts with the name of the program, as in C. *)

From stdpp Require Import base list numbers strings tactics.
From ITree Require Import ITree.
From Stdlib Require Import Lia.
From S2P Require Import Prelude Params FsState Log Fs PathThm Console Ulib Unix.

Local Open Scope Z_scope.

(** [for(i = 1; i < argc; i++)] over the arguments, in order. *)
Fixpoint each {A} (f : A -> prog unit) (l : list A) : prog unit :=
  match l with
  | [] => mret tt
  | a :: l => _ ← f a; each f l
  end.

(** ** cat.c *)

Definition BUFSIZE : Z := 512.

(** [while((n = read(fd, buf, sizeof(buf))) > 0) write(1, buf, n);] *)
Definition cat_round (fd : Z) (_ : unit) : prog (unit + Z) :=
  r ← sys (Read fd BUFSIZE);
  if 0 <? r.1 then _ ← sys (Write 1 r.2); mret (inl tt) else mret (inr r.1).

Definition cat (fd : Z) : prog unit :=
  n ← ITree.iter (cat_round fd) tt;
  if n <? 0 then _ ← printf 1 "cat: read error
" []; exit else mret tt.

Definition cat_file (name : list Z) : prog unit :=
  fd ← sys (Open name 0);
  if fd <? 0 then _ ← printf 1 "cat: cannot open %s
" [AStr name]; exit else
  _ ← cat fd; _ ← sys (Close fd); mret tt.

Definition cat_main (argv : list (list Z)) : prog unit :=
  if (length argv <=? 1)%nat then _ ← cat 0; exit else
  _ ← each cat_file (tail argv); exit.

(** ** wc.c *)

(** The counters [l], [w], [c] and [inword]. *)
Record counts := mkcounts { c_lines : Z; c_words : Z; c_chars : Z; inword : bool }.

(** [strchr] of a blank, a carriage return, a tab, a newline and a vertical tab. *)
Definition blank (c : Z) : bool := bool_decide (c ∈ [32; 13; 9; 10; 11]).

Definition count_char (k : counts) (ch : Z) : counts :=
  let c := s32 (c_chars k + 1) in
  let l := if ch =? 10 then s32 (c_lines k + 1) else c_lines k in
  if blank ch then mkcounts l (c_words k) c false
  else if negb (inword k) then mkcounts l (s32 (c_words k + 1)) c true
  else mkcounts l (c_words k) c true.

Definition wc_round (fd : Z) (k : counts) : prog (counts + Z * counts) :=
  r ← sys (Read fd BUFSIZE);
  if 0 <? r.1 then mret (inl (foldl count_char k r.2)) else mret (inr (r.1, k)).

Definition wc (fd : Z) (name : list Z) : prog unit :=
  r ← ITree.iter (wc_round fd) (mkcounts 0 0 0 false);
  if r.1 <? 0 then _ ← printf 1 "wc: read error
" []; exit else
  printf 1 "%d %d %d %s
" [ANum (c_lines r.2); ANum (c_words r.2); ANum (c_chars r.2); AStr name].

Definition wc_file (name : list Z) : prog unit :=
  fd ← sys (Open name 0);
  if fd <? 0 then _ ← printf 1 "wc: cannot open %s
" [AStr name]; exit else
  _ ← wc fd name; _ ← sys (Close fd); mret tt.

Definition wc_main (argv : list (list Z)) : prog unit :=
  if (length argv <=? 1)%nat then _ ← wc 0 []; exit else
  _ ← each wc_file (tail argv); exit.

(** ** cp.c *)

(** A round returns [r] and [w]; [w0] is the variable [w] before it. *)
Definition cp_round (fd dfd : Z) (w0 : Z) : prog (Z + Z * Z) :=
  r ← sys (Read fd BUFSIZE);
  if 0 <? r.1 then
    w ← sys (Write dfd r.2);
    if negb (w =? r.1) || (w <? 0) then mret (inr (r.1, w)) else mret (inl w)
  else mret (inr (r.1, w0)).

(** [garbage] is the value of the variable [w], which the code does not initialise. *)
Definition cp_main (garbage : Z) (argv : list (list Z)) : prog unit :=
  match argv with
  | [_; src; dest] =>
      fd ← sys (Open src O_RDONLY);
      if fd <? 0 then _ ← printf 2 "cp: cannot open source %s
" [AStr src]; exit else
      dfd ← sys (Open dest (Z.lor O_CREATE O_WRONLY));
      if dfd <? 0 then _ ← printf 2 "cp: cannot open destination %s
" [AStr dest]; exit else
      rw ← ITree.iter (cp_round fd dfd) garbage;
      _ ← (if (rw.1 <? 0) || (rw.2 <? 0) then printf 2 "cp: error copying %s to %s
" [AStr src; AStr dest] else mret tt);
      _ ← sys (Close fd);
      _ ← sys (Close dfd);
      exit
  | _ => _ ← printf 2 "Usage: cp src dest
" []; exit
  end.

(** ** echo.c, kill.c, ln.c, mkdir.c, rm.c, mv.c, sleep.c, uptime.c *)

Fixpoint echo_args (l : list (list Z)) : prog unit :=
  match l with
  | [] => mret tt
  | a :: l => _ ← printf 1 "%s%s" [AStr a; AStr (match l with [] => [10] | _ => [32] end)]; echo_args l
  end.

Definition echo_main (argv : list (list Z)) : prog unit := _ ← echo_args (tail argv); exit.

Definition kill_main (argv : list (list Z)) : prog unit :=
  if (length argv <? 1)%nat then _ ← printf 2 "usage: kill pid...
" []; exit else
  _ ← each (fun a => _ ← sys (Kill (atoi a)); mret tt) (tail argv); exit.

Definition ln_main (argv : list (list Z)) : prog unit :=
  match argv with
  | [_; old; new] =>
      r ← sys (Link old new);
      _ ← (if r <? 0 then printf 2 "link %s %s: failed
" [AStr old; AStr new] else mret tt);
      exit
  | _ => _ ← printf 2 "Usage: ln old new
" []; exit
  end.

(** [call] on each argument until one fails, which is reported with [msg]. *)
Fixpoint until_fails (call : list Z -> prog Z) (msg : string) (l : list (list Z)) : prog unit :=
  match l with
  | [] => mret tt
  | a :: l => r ← call a; if r <? 0 then printf 2 msg [AStr a] else until_fails call msg l
  end.

Definition mkdir_main (argv : list (list Z)) : prog unit :=
  if (length argv <? 2)%nat then _ ← printf 2 "Usage: mkdir files...
" []; exit else
  _ ← until_fails (fun a => sys (Mkdir a)) "mkdir: %s failed to create
" (tail argv); exit.

Definition rm_main (argv : list (list Z)) : prog unit :=
  if (length argv <? 2)%nat then _ ← printf 2 "Usage: rm files...
" []; exit else
  _ ← until_fails (fun a => sys (Unlink a)) "rm: %s failed to delete
" (tail argv); exit.

(** [unlink] is only called when [link] has worked. *)
Definition mv_main (argv : list (list Z)) : prog unit :=
  match argv with
  | [_; old; new] =>
      r ← sys (Link old new);
      r ← (if r <? 0 then mret r else sys (Unlink old));
      _ ← (if r <? 0 then printf 2 "mv %s to %s failed
" [AStr old; AStr new] else mret tt);
      exit
  | _ => _ ← printf 2 "Usage: mv oldname newname
" []; exit
  end.

Definition sleep_main (argv : list (list Z)) : prog unit :=
  match argv with
  | _ :: a :: _ =>
      let sleep_sec := atoi a in
      _ ← (if 0 <? sleep_sec then _ ← sys (Sleep sleep_sec); mret tt else printf 2 "Invalid interval %s
" [AStr a]);
      exit
  | _ => _ ← printf 2 "Usage: sleep seconds
" []; exit
  end.

Definition uptime_main : prog unit := ut ← sys Uptime; _ ← printf 1 "up %d ticks
" [ANum ut]; exit.

Definition isatty_main : prog unit :=
  t ← sys (Isatty 0);
  _ ← (if negb (t =? 0) then printf 1 "stdin is a tty
" [] else printf 1 "stdin is not a tty
" []);
  exit.

(** ** zombie.c and init.c *)

Definition zombie_main : prog unit :=
  pid ← sys Fork;
  _ ← (if 0 <? pid then _ ← sys (Sleep 5); mret tt else mret tt);
  exit.

(** [while((wpid=wait()) >= 0 && wpid != pid) printf(1, "zombie!");] *)
Definition reap_round (pid : Z) (_ : unit) : prog (unit + unit) :=
  wpid ← sys Wait;
  if (0 <=? wpid) && negb (wpid =? pid) then _ ← printf 1 "zombie!
" []; mret (inl tt) else mret (inr tt).

(** The body of [for(;;)]: it starts a shell and waits for it. *)
Definition init_round (_ : unit) : prog (unit + Empty_set) :=
  _ ← printf 1 "init: starting sh
" [];
  pid ← sys Fork;
  if pid <? 0 then _ ← printf 1 "init: fork failed
" []; exit else
  if pid =? 0 then
    _ ← sys (Exec (chars "sh") [chars "sh"]);
    _ ← printf 1 "init: exec sh failed
" [];
    exit
  else
  _ ← ITree.iter (reap_round pid) tt;
  mret (inl tt).

(** Open the console on descriptor 0, making its device first when there is none. *)
Definition init_console : prog unit :=
  fd ← sys (Open (chars "console") O_RDWR);
  _ ← (if fd <? 0 then
         _ ← sys (Mknod (chars "console") 1 1);
         _ ← sys (Open (chars "console") O_RDWR); mret tt
       else mret tt);
  _ ← sys (Dup 0);
  _ ← sys (Dup 0);
  mret tt.

Definition init_main : prog Empty_set := _ ← init_console; ITree.iter init_round tt.

(** ** forktest.c *)

Definition FORKS : Z := 1000.

(** Its own [printf] writes the format as it is. *)
Definition ft_printf (fd : Z) (s : string) : prog unit := _ ← sys (Write fd (chars s)); mret tt.

(** The loop over [n] with [rounds] to go; it returns [n]. *)
Fixpoint fork_loop (rounds : nat) (n : Z) : prog Z :=
  match rounds with
  | O => mret n
  | S rounds =>
      _ ← (if 5 <=? n then
             _ ← ft_printf 1 "new system call procstat
"; _ ← sys Procstat; mret tt
           else mret tt);
      pid ← sys Fork;
      if pid <? 0 then mret n else
      if pid =? 0 then exit else
      fork_loop rounds (n + 1)
  end.

(** [for(; n > 0; n--)] *)
Fixpoint reap_loop (n : nat) : prog unit :=
  match n with
  | O => mret tt
  | S n =>
      r ← sys Wait;
      if r <? 0 then _ ← ft_printf 1 "wait stopped early
"; exit else reap_loop n
  end.

Definition forktest : prog unit :=
  _ ← ft_printf 1 "fork test
";
  n ← fork_loop (Z.to_nat FORKS) 0;
  if n =? FORKS then _ ← ft_printf 1 "fork claimed to work N times!
"; exit else
  _ ← reap_loop (Z.to_nat n);
  r ← sys Wait;
  if negb (r =? -1) then _ ← ft_printf 1 "wait got too many
"; exit else
  ft_printf 1 "fork test OK
".

Definition forktest_main : prog unit := _ ← forktest; exit.

(** ** ls.c *)

(** The search backwards for a slash: [r] is what is before [p], reversed. *)
Fixpoint find_slash (r p : list Z) : list Z :=
  match r with
  | [] => p
  | c :: r => if c =? SLASH then p else find_slash r (c :: p)
  end.

Definition fmtname (path : list Z) : list Z :=
  let p := find_slash (rev path) [] in
  if (Z.to_nat DIRSIZ <=? length p)%nat then p
  else p ++ replicate (Z.to_nat DIRSIZ - length p) 32.

(** [%d] takes the unsigned fields as signed numbers. *)
Definition ls_line (path : list Z) (st : stat) : prog unit :=
  printf 1 "%s %d %d %d
" [AStr (fmtname path); ANum (st_type st); ANum (s32 (st_ino st)); ANum (s32 (st_size st))].

(** One directory entry; [st] is the variable [st]. *)
Definition ls_round (fd : Z) (path : list Z) (st : stat) : prog (stat + unit) :=
  r ← sys (Read fd 16);
  if negb (r.1 =? 16) then mret (inr tt) else
  if rd16 r.2 0 =? 0 then mret (inl st) else
  let buf := path ++ [SLASH] ++ cut (Z.to_nat DIRSIZ) (drop 2 r.2) in
  x ← stat_path buf st;
  if x.1 <? 0 then _ ← printf 1 "ls: cannot stat %s
" [AStr buf]; mret (inl x.2) else
  _ ← ls_line buf x.2; mret (inl x.2).

Definition ls_dir (fd : Z) (path : list Z) (st : stat) : prog unit :=
  if 512 <? Z.of_nat (length path) + 1 + DIRSIZ + 1 then printf 1 "ls: path too long
" [] else
  ITree.iter (ls_round fd path) st.

Definition ls (path : list Z) : prog unit :=
  fd ← sys (Open path 0);
  if fd <? 0 then printf 2 "ls: cannot open %s
" [AStr path] else
  x ← sys (Fstat fd);
  if x.1 <? 0 then _ ← printf 2 "ls: cannot stat %s
" [AStr path]; _ ← sys (Close fd); mret tt else
  _ ← (if st_type x.2 =? T_FILE then ls_line path x.2
       else if st_type x.2 =? T_DIR then ls_dir fd path x.2
       else mret tt);
  _ ← sys (Close fd);
  mret tt.

Definition ls_main (argv : list (list Z)) : prog unit :=
  if (length argv <? 2)%nat then _ ← ls [46]; exit else
  _ ← each ls (tail argv); exit.
