(* ===== verification/ProgsThm.v ===== *)
(** * The user programs at work

    What a file system promises to a program ([Volume]): descriptors with a name and an
    offset, files with their bytes, and the calls that read, write, open and close them;
    a file may have a limit for its size, beyond which a write is refused, and there may
    be names that cannot be created.  [Files] is a volume without limits.  [cp] does its
    work or says why not on every volume; [cat], [wc] and [echo] do theirs on every
    [Files]; [forktest] reports success on every machine with fewer than 1000 processes
    to give ([Procs]).  [Disk] is a machine that keeps the promises of [Volume], with any
    limits, and of [Files] without; [Nursery] keeps those of [Procs]. *)

From stdpp Require Import base list numbers strings tactics gmap.
From ITree Require Import ITree.
From Stdlib Require Import Lia.
From S2P Require Import Prelude Params FsState Log Fs PathThm Console Ulib Unix Progs.

Local Open Scope Z_scope.

(** ** The promises of a file system *)

(** What a process sees: its descriptors, each with the name of a file and an offset of
    its own, and the files. *)
Record fs := mkfsys { fds : gmap Z (list Z * nat); files : gmap (list Z) (list Z) }.

(** The lowest free descriptor. *)
Definition free_fd (v : fs) : option Z := snd <$> list_find (fun fd => fds v !! fd = None) (Z.of_nat <$> seq 0 (Z.to_nat NOFILE)).

Definition set_fd (fd : Z) (x : list Z * nat) (v : fs) : fs := mkfsys (<[fd := x]> (fds v)) (files v).

(** The bytes [l] at offset [o] of a file that has [d]. *)
Definition overwrite (d : list Z) (o : nat) (l : list Z) : list Z := take o d ++ l ++ drop (o + length l) d.

Definition set_file (p d : list Z) (v : fs) : fs := mkfsys (fds v) (<[p := d]> (files v)).

(** A read may be short, but not empty before the end of the file.  A write that stays
    within the limit of the file is whole; one of at most 512 bytes that does not is
    refused, and changes nothing.  ([MAXFILE] blocks are the limit of a file of the
    kernel; a device has none.) *)
Class Volume `{U : Unix} := {
  view : os -> fs;
  limit : list Z -> option nat;
  creates : list Z -> bool;
  fits (p : list Z) (n : nat) : bool := match limit p with Some m => (n <=? m)%nat | None => true end;
  read_ok s fd n p o d :
    fds (view s) !! fd = Some (p, o) -> files (view s) !! p = Some d -> 0 < n ->
    exists k s', answer _ (Read fd n) s = Some ((Z.of_nat (length (take k (drop o d))), take k (drop o d)), s') /\
      (0 < k)%nat /\ Z.of_nat k <= n /\ view s' = set_fd fd (p, o + length (take k (drop o d)))%nat (view s);
  write_ok s fd l p o d :
    fds (view s) !! fd = Some (p, o) -> files (view s) !! p = Some d -> (o <= length d)%nat ->
    fits p (o + length l) = true ->
    exists s', answer _ (Write fd l) s = Some (Z.of_nat (length l), s') /\
      view s' = set_fd fd (p, o + length l)%nat (set_file p (overwrite d o l) (view s));
  write_refused s fd l p o d :
    fds (view s) !! fd = Some (p, o) -> files (view s) !! p = Some d -> (o <= length d)%nat ->
    (length l <= 512)%nat -> fits p (o + length l) = false ->
    exists s', answer _ (Write fd l) s = Some (-1, s') /\ view s' = view s;
  open_ok s p d fd :
    files (view s) !! p = Some d -> free_fd (view s) = Some fd ->
    exists s', answer _ (Open p O_RDONLY) s = Some (fd, s') /\ view s' = set_fd fd (p, 0%nat) (view s);
  open_missing s p :
    files (view s) !! p = None ->
    exists s', answer _ (Open p O_RDONLY) s = Some (-1, s') /\ view s' = view s;
  create_ok s p fd :
    creates p = true -> free_fd (view s) = Some fd ->
    exists s', answer _ (Open p (Z.lor O_CREATE O_WRONLY)) s = Some (fd, s') /\
      view s' = set_fd fd (p, 0%nat) (set_file p (default [] (files (view s) !! p)) (view s));
  create_refused s p :
    creates p = false ->
    exists s', answer _ (Open p (Z.lor O_CREATE O_WRONLY)) s = Some (-1, s') /\ view s' = view s;
  close_ok s fd x :
    fds (view s) !! fd = Some x ->
    exists s', answer _ (Close fd) s = Some (0, s') /\ view s' = mkfsys (delete fd (fds (view s))) (files (view s))
}.

(** Every write is whole. *)
Class Files `{V : Volume} : Prop := no_limit : forall p, limit p = None.

(** ** Lemmas *)

Lemma free_fd_range v fd : free_fd v = Some fd -> 0 <= fd /\ fds v !! fd = None.
Proof.
  unfold free_fd. intros H. apply fmap_Some in H as ([i x] & H & ->). apply list_find_Some in H as (H & E & _).
  split; [|exact E]. rewrite list_lookup_fmap in H. apply fmap_Some in H as (j & _ & ->). simpl. lia.
Qed.

Lemma free_fd_ext v w : (forall fd, fds v !! fd = None <-> fds w !! fd = None) -> free_fd v = free_fd w.
Proof.
  intros H. unfold free_fd. f_equal. induction (Z.of_nat <$> seq 0 (Z.to_nat NOFILE)) as [|x l IH]; [done|].
  simpl. rewrite IH. specialize (H x). repeat case_decide; tauto.
Qed.

Lemma overwrite_end w l : overwrite w (length w) l = w ++ l.
Proof. unfold overwrite. rewrite take_ge, drop_ge, app_nil_r by lia. done. Qed.

(** [v] with the bytes [l] appended to the file [q] through the descriptor [fd]. *)
Definition emit (fd : Z) (q w l : list Z) (v : fs) : fs :=
  set_fd fd (q, length (w ++ l)) (set_file q (w ++ l) v).

(** The descriptor [fd] is at the end of the file [q], which has the bytes [w]. *)
Definition at_end (fd : Z) (q w : list Z) (v : fs) : Prop :=
  fds v !! fd = Some (q, length w) /\ files v !! q = Some w.

Lemma at_end_emit fd q w l v : at_end fd q (w ++ l) (emit fd q w l v).
Proof. split; apply lookup_insert_eq. Qed.

Lemma emit_emit fd q w l l' v : emit fd q (w ++ l) l' (emit fd q w l v) = emit fd q w (l ++ l') v.
Proof. unfold emit, set_fd, set_file. simpl. by rewrite <- app_assoc, !insert_insert_eq. Qed.

Lemma emit_nil fd q w v : at_end fd q w v -> emit fd q w [] v = v.
Proof. intros [E1 E2]. destruct v. unfold emit, set_fd, set_file. simpl in *. rewrite app_nil_r, !insert_id by done. done. Qed.

(** A descriptor opened, used and closed again leaves the others as they were. *)
Lemma close_emit fd fd' x q w l v : fd <> fd' -> fds v !! fd = None ->
  mkfsys (delete fd (fds (emit fd' q w l (set_fd fd x v)))) (files (emit fd' q w l (set_fd fd x v))) = emit fd' q w l v.
Proof.
  intros Hne E. unfold emit, set_fd, set_file. simpl. f_equal.
  rewrite delete_insert_ne by done. rewrite delete_insert_id by done. done.
Qed.

Lemma emit_set_fd fd fd' x q w l v : fd <> fd' -> emit fd' q w l (set_fd fd x v) = set_fd fd x (emit fd' q w l v).
Proof. intros Hne. unfold emit, set_fd, set_file. simpl. f_equal. by apply insert_insert_ne. Qed.

Lemma free_fd_emit fd q w l v : at_end fd q w v -> free_fd (emit fd q w l v) = free_fd v.
Proof.
  intros [E _]. apply free_fd_ext. intros g. unfold emit, set_fd. simpl.
  destruct (decide (g = fd)) as [->|]; [by rewrite lookup_insert_eq, E|by rewrite lookup_insert_ne].
Qed.

Lemma zip_with_second (A B : Type) (l : list A) (k : list B) : length l = length k -> zip_with (fun _ d => d) l k = k.
Proof. revert k. induction l as [|a l IH]; intros [|b k]; simpl; intros; f_equal; auto; lia. Qed.

(** ** Lines, words and characters *)

(** The text between blanks, the empty pieces included. *)
Fixpoint pieces (l : list Z) : list (list Z) :=
  match l with
  | [] => [[]]
  | c :: l =>
      if blank c then [] :: pieces l
      else match pieces l with [] => [[c]] | p :: ps => (c :: p) :: ps end
  end.

Definition lines (l : list Z) : nat := length (filter (fun c => c = 10) l).
Definition words (l : list Z) : nat := length (filter (fun p => p <> []) (pieces l)).

(** 1 when [l] starts inside a word. *)
Definition starts_word (l : list Z) : nat := match l with c :: _ => if blank c then 0 else 1 | [] => 0 end.

Lemma pieces_head l : exists p ps, pieces l = p :: ps /\ (p <> [] <-> starts_word l = 1%nat).
Proof.
  destruct l as [|c l]; simpl; [by exists [], []|]. destruct (blank c); [by exists [], (pieces l)|].
  by destruct (pieces l) as [|p ps]; [exists [c], []|exists (c :: p), ps].
Qed.

Lemma words_cons c l : (words (c :: l) + (if blank c then 0 else starts_word l) = words l + (if blank c then 0 else 1))%nat.
Proof.
  unfold words. simpl pieces. destruct (pieces_head l) as (p & ps & -> & Hp). destruct (blank c).
  - rewrite filter_cons_False by (intros H; by apply H). lia.
  - rewrite (filter_cons_True _ (c :: p)) by done. destruct (decide (p = [])) as [->|Hne].
    + rewrite filter_cons_False by (intros H; by apply H). simpl. destruct (starts_word l) as [|[|]] eqn:E; [lia| |destruct l; simpl in E; try case_match; lia].
      exfalso. by apply Hp.
    + rewrite filter_cons_True by done. simpl. rewrite (proj1 Hp Hne). lia.
Qed.

Lemma count_chars l k : 0 <= c_lines k <= c_chars k -> 0 <= c_words k <= c_chars k -> c_chars k + Z.of_nat (length l) < 2 ^ 31 ->
  let k' := foldl count_char k l in
  c_lines k' = c_lines k + Z.of_nat (lines l) /\
  c_words k' = c_words k + Z.of_nat (words l) - (if inword k then Z.of_nat (starts_word l) else 0) /\
  c_chars k' = c_chars k + Z.of_nat (length l).
Proof.
  revert k. induction l as [|c l IH]; intros k Hl Hw Hc; cbn [foldl length] in *.
  { change (lines []) with 0%nat. change (words []) with 0%nat. simpl. destruct (inword k); lia. }
  pose proof (words_cons c l) as Hwc. assert (Ll : lines (c :: l) = ((if (c =? 10)%Z then 1 else 0) + lines l)%nat).
  { unfold lines. destruct (Z.eqb_spec c 10); [by rewrite filter_cons_True|by rewrite filter_cons_False]. }
  rewrite Ll. destruct (IH (count_char k c)) as (I1 & I2 & I3).
  1-3: unfold count_char; rewrite !s32_small by (unfold is_s32; lia); destruct (blank c), (inword k), (c =? 10); simpl; lia.
  rewrite I1, I2, I3. unfold count_char. rewrite !s32_small by (unfold is_s32; lia).
  cbn [starts_word]. revert Hwc. generalize (words (c :: l)), (words l). intros W W' Hwc.
  destruct (blank c), (inword k), (c =? 10); simpl in *; lia.
Qed.

Section WithVolume.
Context `{V : Volume}.

Lemma fits_device q n : limit q = None -> fits q n = true.
Proof. intros E. unfold fits. by rewrite E. Qed.

Lemma run_write fd q w l s : limit q = None -> at_end fd q w (view s) ->
  exists s', run (sys (Write fd l)) s (Some (Z.of_nat (length l))) s' /\ view s' = emit fd q w l (view s).
Proof.
  intros Hq [E1 E2]. destruct (write_ok s fd l q (length w) w E1 E2 ltac:(lia) (fits_device q _ Hq)) as (s' & Ea & Ev).
  exists s'. split; [by apply run_sys|]. rewrite Ev, overwrite_end. unfold emit. by rewrite length_app.
Qed.

Lemma run_put fd q l : limit q = None -> forall w s, at_end fd q w (view s) ->
  exists s', run (put_chars fd l) s (Some tt) s' /\ view s' = emit fd q w l (view s).
Proof.
  intros Hq. induction l as [|c l IH]; intros w s E.
  - exists s. split; [apply run_mret|]. symmetry. by apply emit_nil.
  - destruct (run_write fd q w [c] s Hq E) as (s1 & R1 & E1).
    destruct (IH (w ++ [c]) s1) as (s2 & R2 & E2); [rewrite E1; apply at_end_emit|].
    exists s2. split; [by eapply run_bind|]. by rewrite E2, E1, emit_emit.
Qed.

Lemma run_printf fd fmt ap t q w s : limit q = None -> u_printf (chars fmt) ap = Some t -> at_end fd q w (view s) ->
  exists s', run (printf fd fmt ap) s (Some tt) s' /\ view s' = emit fd q w t (view s).
Proof. intros Hq Et E. unfold printf. rewrite Et. by apply run_put. Qed.

(** *** Reading a file to its end *)

(** The descriptor [fd] reads the file [p], of bytes [d], at offset [o]. *)
Definition reads (fd : Z) (p : list Z) (o : nat) (d : list Z) (v : fs) : Prop :=
  fds v !! fd = Some (p, o) /\ files v !! p = Some d.

(** A read returns 0 at the end of the file and else a piece [l] of it. *)
Lemma run_read fd p o d s : reads fd p o d (view s) -> (o <= length d)%nat ->
  exists l s', run (sys (Read fd BUFSIZE)) s (Some (Z.of_nat (length l), l)) s' /\
    drop o d = l ++ drop (o + length l) d /\ (o + length l <= length d)%nat /\ (l = [] -> o = length d) /\ (length l <= 512)%nat /\
    view s' = set_fd fd (p, o + length l)%nat (view s).
Proof.
  intros [E1 E2] Ho. destruct (read_ok s fd BUFSIZE p o d E1 E2 ltac:(unfold BUFSIZE; lia)) as (k & s' & Ea & Hk & Hb & Ev).
  exists (take k (drop o d)), s'. assert (L : length (take k (drop o d)) = (k `min` (length d - o))%nat) by (rewrite length_take, length_drop; done).
  split; [by apply run_sys|]. split; [|split; [lia|split; [|split; [unfold BUFSIZE in Hb; lia|done]]]].
  - rewrite <- drop_drop. rewrite <- (take_drop k (drop o d)) at 1. f_equal.
    destruct (decide (k <= length d - o)%nat).
    + rewrite L. f_equal. lia.
    + rewrite !drop_ge; [done| |]; rewrite ?L, length_drop; lia.
  - intros El. rewrite El in L. simpl in L. lia.
Qed.

Lemma reads_emit fd p o d fd' q w l v : fd <> fd' -> p <> q -> reads fd p o d v -> reads fd p o d (emit fd' q w l v).
Proof. intros Hf Hp [E1 E2]. unfold emit, set_fd, set_file. split; simpl; rewrite lookup_insert_ne by done; done. Qed.

Lemma reads_set_fd fd p o o' d v : reads fd p o d v -> reads fd p o' d (set_fd fd (p, o') v).
Proof. intros [_ E2]. split; [apply lookup_insert_eq|done]. Qed.

Lemma at_end_set_fd fd x fd' q w v : fd <> fd' -> at_end fd' q w v -> at_end fd' q w (set_fd fd x v).
Proof. intros Hf [E1 E2]. split; simpl; [by rewrite lookup_insert_ne|done]. Qed.

Lemma set_fd_set_fd fd x y v : set_fd fd x (set_fd fd y v) = set_fd fd x v.
Proof. unfold set_fd. simpl. by rewrite insert_insert_eq. Qed.

Lemma run_close fd x s : fds (view s) !! fd = Some x ->
  exists s', run (sys (Close fd)) s (Some 0) s' /\ view s' = mkfsys (delete fd (fds (view s))) (files (view s)).
Proof. intros E. destruct (close_ok s fd x E) as (s' & Ea & Ev). exists s'. split; [by apply run_sys|done]. Qed.

End WithVolume.

Section WithFiles.
Context `{F : Files}.

(** *** cat *)

Lemma cat_loop fd p d q : fd <> 1 -> p <> q -> forall n o w s, (length d - o < n)%nat ->
  reads fd p o d (view s) -> (o <= length d)%nat -> at_end 1 q w (view s) ->
  exists s', run (ITree.iter (cat_round fd) tt) s (Some 0) s' /\
    view s' = set_fd fd (p, length d) (emit 1 q w (drop o d) (view s)).
Proof.
  intros Hf Hp n. induction n as [|n IH]; intros o w s Hn R Ho E; [lia|].
  destruct (run_read fd p o d s R Ho) as (l & s1 & R1 & El & Hl & Hnil & _ & E1).
  destruct l as [|c l].
  - exists s1. split.
    + eapply run_iter; [eapply run_bind; [exact R1|apply run_mret]|done].
    + rewrite (Hnil eq_refl) in *. rewrite E1, drop_ge, emit_nil by first [exact E|lia]. f_equal. f_equal. simpl. lia.
  - set (m := c :: l) in *. assert (Hm : (0 < length m)%nat) by (simpl; lia). clearbody m.
    destruct (run_write 1 q w m s1 (no_limit q)) as (s2 & R2 & E2); [rewrite E1; by apply at_end_set_fd|].
    destruct (IH (o + length m)%nat (w ++ m) s2) as (s3 & R3 & E3); [lia| |lia| |].
    + rewrite E2, E1. apply reads_emit; [done..|]. by eapply reads_set_fd.
    + rewrite E2. apply at_end_emit.
    + exists s3. split.
      * eapply run_iter; [eapply run_bind; [exact R1|]; simpl; rewrite (proj2 (Z.ltb_lt _ _)) by lia; eapply run_bind; [exact R2|apply run_mret]|exact R3].
      * rewrite E3, E2, emit_emit, <- El, E1, emit_set_fd, set_fd_set_fd by done. done.
Qed.

(** A program that opens a file, works on it and closes it. *)
Lemma run_open_close (body : Z -> prog unit) (fail : prog unit) p d q w l s fd :
  files (view s) !! p = Some d -> free_fd (view s) = Some fd -> at_end 1 q w (view s) ->
  (forall s1, view s1 = set_fd fd (p, 0%nat) (view s) -> exists s2, run (body fd) s1 (Some tt) s2 /\
     view s2 = set_fd fd (p, length d) (emit 1 q w l (view s1))) ->
  exists s', run (fd ← sys (Open p 0); if fd <? 0 then fail else _ ← body fd; _ ← sys (Close fd); mret tt) s (Some tt) s' /\
    view s' = emit 1 q w l (view s).
Proof.
  intros Ed Ef E Hb. pose proof (free_fd_range _ _ Ef) as [Hpos Hnone].
  assert (Hne : fd <> 1) by (intros ->; destruct E; congruence).
  destruct (open_ok s p d fd Ed Ef) as (s1 & Ea & E1). destruct (Hb s1 E1) as (s2 & R2 & E2).
  destruct (run_close fd (p, length d) s2) as (s3 & R3 & E3); [rewrite E2; apply lookup_insert_eq|].
  exists s3. split.
  - eapply run_bind; [by apply run_sys|]. rewrite (proj2 (Z.ltb_ge fd 0)) by lia.
    eapply run_bind; [exact R2|]. eapply run_bind; [exact R3|apply run_mret].
  - rewrite E3, E2, E1, emit_set_fd, set_fd_set_fd, <- emit_set_fd by done. by apply close_emit.
Qed.

Lemma run_cat fd p d q w s : fd <> 1 -> p <> q -> reads fd p 0 d (view s) -> at_end 1 q w (view s) ->
  exists s', run (cat fd) s (Some tt) s' /\ view s' = set_fd fd (p, length d) (emit 1 q w d (view s)).
Proof.
  intros Hf Hp R E. destruct (cat_loop fd p d q Hf Hp (S (length d)) 0 w s) as (s' & R' & E'); [lia|done|lia|done|].
  exists s'. split; [|done]. eapply run_bind; [exact R'|apply run_mret].
Qed.

(** *** One file after the other *)

Lemma run_each_app {A} (f : A -> prog unit) l l' s s1 o s' :
  run (each f l) s (Some tt) s1 -> run (each f l') s1 o s' -> run (each f (l ++ l')) s o s'.
Proof.
  revert s. induction l as [|a l IH]; intros s R R'.
  - simpl in *. inversion R; simplify_eq/=; done.
  - simpl in *. destruct (run_bind_inv _ _ _ _ _ R) as [(x & s2 & R1 & R2)|[? _]]; [|done].
    eapply run_bind; [exact R1|]. by apply IH.
Qed.

(** What the files in [names] hold, none of them the output [q]. *)
Definition all_hold (q : list Z) (names datas : list (list Z)) (v : fs) : Prop :=
  Forall2 (fun p d => p <> q /\ files v !! p = Some d) names datas.

Lemma run_each (f : list Z -> prog unit) (ok : list Z -> Prop) (text : list Z -> list Z -> list Z) q :
  (forall p d w s fd, p <> q -> ok d -> files (view s) !! p = Some d -> free_fd (view s) = Some fd -> at_end 1 q w (view s) ->
     exists s', run (f p) s (Some tt) s' /\ view s' = emit 1 q w (text p d) (view s)) ->
  forall names datas w s fd, all_hold q names datas (view s) -> Forall ok datas -> free_fd (view s) = Some fd -> at_end 1 q w (view s) ->
  exists s', run (each f names) s (Some tt) s' /\
    view s' = emit 1 q w (concat (zip_with text names datas)) (view s).
Proof.
  intros Hf names. induction names as [|p names IH]; intros datas w s fd Hh Hok Ef E; inversion Hh as [|? d ? datas' [Hp Ed] Hh']; subst.
  - exists s. split; [apply run_mret|]. simpl. by rewrite emit_nil.
  - apply list.Forall_cons in Hok as [Hd Hok]. destruct (Hf p d w s fd Hp Hd Ed Ef E) as (s1 & R1 & E1).
    destruct (IH datas' (w ++ text p d) s1 fd) as (s2 & R2 & E2).
    + unfold all_hold. rewrite E1. eapply Forall2_impl; [exact Hh'|]. intros p' d' [Hp' Ed']. split; [done|].
      simpl. by rewrite lookup_insert_ne.
    + done.
    + rewrite E1. by rewrite free_fd_emit.
    + rewrite E1. apply at_end_emit.
    + exists s2. split; [by eapply run_bind|]. by rewrite E2, E1, emit_emit.
Qed.
Lemma run_cat_file p d q w s fd : p <> q -> files (view s) !! p = Some d -> free_fd (view s) = Some fd ->
  at_end 1 q w (view s) -> exists s', run (cat_file p) s (Some tt) s' /\ view s' = emit 1 q w d (view s).
Proof.
  intros Hp Ed Ef E. pose proof (free_fd_range _ _ Ef) as [_ Hnone].
  assert (Hne : fd <> 1) by (intros ->; destruct E; congruence).
  apply (run_open_close cat _ p d q w d s fd Ed Ef E). intros s1 E1.
  apply run_cat; [done..| |]; rewrite E1; [|by apply at_end_set_fd]. split; [apply lookup_insert_eq|done].
Qed.

(** A file that cannot be opened ends the program with a message. *)
Lemma run_missing (body : Z -> prog unit) msg p t q w s :
  u_printf (chars msg) [AStr p] = Some t -> files (view s) !! p = None -> at_end 1 q w (view s) ->
  exists s', run (fd ← sys (Open p 0); if fd <? 0 then _ ← printf 1 msg [AStr p]; exit else body fd) s None s' /\
    view s' = emit 1 q w t (view s).
Proof.
  intros Et Ed E. destruct (open_missing s p Ed) as (s1 & Ea & E1).
  destruct (run_printf 1 msg [AStr p] t q w s1 (no_limit q) Et) as (s2 & R2 & E2); [by rewrite E1|].
  exists s2. split; [|by rewrite E2, E1]. eapply run_bind; [by apply run_sys|]. simpl.
  eapply run_bind; [exact R2|apply run_exit_].
Qed.


(** *** wc *)

Lemma wc_loop fd p d : forall n o k s, (length d - o < n)%nat -> reads fd p o d (view s) -> (o <= length d)%nat ->
  exists s', run (ITree.iter (wc_round fd) k) s (Some (0, foldl count_char k (drop o d))) s' /\
    view s' = set_fd fd (p, length d) (view s).
Proof.
  intros n. induction n as [|n IH]; intros o k s Hn R Ho; [lia|].
  destruct (run_read fd p o d s R Ho) as (l & s1 & R1 & El & Hl & Hnil & _ & E1).
  destruct l as [|c l].
  - exists s1. split.
    + eapply run_iter; [eapply run_bind; [exact R1|apply run_mret]|]. simpl. by rewrite drop_ge by (rewrite (Hnil eq_refl); lia).
    + rewrite E1. f_equal. f_equal. rewrite <- (Hnil eq_refl). simpl. lia.
  - set (m := c :: l) in *. assert (Hm : (0 < length m)%nat) by (simpl; lia). clearbody m.
    destruct (IH (o + length m)%nat (foldl count_char k m) s1) as (s2 & R2 & E2); [lia| |lia|].
    + rewrite E1. by eapply reads_set_fd.
    + exists s2. rewrite El, foldl_app. split; [|by rewrite E2, E1, set_fd_set_fd].
      eapply run_iter; [eapply run_bind; [exact R1|]; simpl; rewrite (proj2 (Z.ltb_lt _ _)) by lia; apply run_mret|exact R2].
Qed.

(** The line [wc] prints for the file [p] with the bytes [d]. *)
Definition wc_text (p d : list Z) : list Z :=
  let num n := u_printint (Z.of_nat n) 10 true in
  num (lines d) ++ [32] ++ num (words d) ++ [32] ++ num (length d) ++ [32] ++ p ++ [10].

Lemma run_wc fd p d q w s : fd <> 1 -> p <> q -> Z.of_nat (length d) < 2 ^ 31 -> reads fd p 0 d (view s) -> at_end 1 q w (view s) ->
  exists s', run (wc fd p) s (Some tt) s' /\ view s' = set_fd fd (p, length d) (emit 1 q w (wc_text p d) (view s)).
Proof.
  intros Hf Hp Hd R E. destruct (wc_loop fd p d (S (length d)) 0 (mkcounts 0 0 0 false) s) as (s1 & R1 & E1); [lia|done|lia|].
  rewrite drop_0 in R1. destruct (count_chars d (mkcounts 0 0 0 false)) as (C1 & C2 & C3); [simpl; lia..|].
  set (k := foldl count_char _ d) in *. simpl in C1, C2, C3. rewrite Z.sub_0_r in C2. clearbody k.
  destruct (run_printf 1 "%d %d %d %s
" [ANum (c_lines k); ANum (c_words k); ANum (c_chars k); AStr p] (wc_text p d) q w s1 (no_limit q)) as (s2 & R2 & E2).
  - rewrite C1, C2, C3. reflexivity.
  - rewrite E1. by apply at_end_set_fd.
  - exists s2. split; [|by rewrite E2, E1, emit_set_fd]. eapply run_bind; [exact R1|exact R2].
Qed.

Lemma run_wc_file p d q w s fd : p <> q -> Z.of_nat (length d) < 2 ^ 31 -> files (view s) !! p = Some d -> free_fd (view s) = Some fd ->
  at_end 1 q w (view s) -> exists s', run (wc_file p) s (Some tt) s' /\ view s' = emit 1 q w (wc_text p d) (view s).
Proof.
  intros Hp Hd Ed Ef E. pose proof (free_fd_range _ _ Ef) as [_ Hnone].
  assert (Hne : fd <> 1) by (intros ->; destruct E; congruence).
  apply (run_open_close (fun fd => wc fd p) _ p d q w _ s fd Ed Ef E). intros s1 E1.
  apply run_wc; [done..| |]; rewrite E1; [|by apply at_end_set_fd]. split; [apply lookup_insert_eq|done].
Qed.

(** C27: [wc] with the names of existing files ends, and has printed for each of them, in
    order, the number of newlines, of words (the non-empty pieces of the text between
    blanks) and of bytes, and the name: counting across the reads, wherever they cut
    the file, gives the counts of the whole file. *)
Theorem wc_counts arg0 names datas q w s fd :
  names <> [] -> all_hold q names datas (view s) -> Forall (fun d => Z.of_nat (length d) < 2 ^ 31) datas ->
  free_fd (view s) = Some fd -> at_end 1 q w (view s) ->
  exists s', run (wc_main (arg0 :: names)) s None s' /\
    view s' = emit 1 q w (concat (zip_with wc_text names datas)) (view s).
Proof.
  intros Hne Hh Hd Ef E.
  destruct (run_each wc_file _ wc_text q (fun p d w s fd => run_wc_file p d q w s fd) names datas w s fd Hh Hd Ef E) as (s1 & R1 & E1).
  exists s1. split; [|exact E1]. unfold wc_main. destruct names; [done|]. simpl length. rewrite (proj2 (Nat.leb_gt _ _)) by lia.
  eapply run_bind; [exact R1|apply run_exit_].
Qed.

(** *** echo *)

(** The arguments with blanks between them and a newline at the end. *)
Fixpoint joined (l : list (list Z)) : list Z :=
  match l with [] => [] | [a] => a ++ [10] | a :: l => a ++ [32] ++ joined l end.

Theorem echo_joins arg0 args q w s : at_end 1 q w (view s) ->
  exists s', run (echo_main (arg0 :: args)) s None s' /\ view s' = emit 1 q w (joined args) (view s).
Proof.
  intros E. enough (exists s', run (echo_args args) s (Some tt) s' /\ view s' = emit 1 q w (joined args) (view s)) as (s' & R & Ev).
  { exists s'. split; [|done]. eapply run_bind; [exact R|apply run_exit_]. }
  revert w s E. induction args as [|a args IH]; intros w s E.
  - exists s. split; [apply run_mret|]. simpl. by rewrite emit_nil.
  - destruct (run_printf 1 "%s%s" [AStr a; AStr (match args with [] => [10] | _ => [32] end)] (a ++ match args with [] => [10] | _ => [32] end) q w s (no_limit q)) as (s1 & R1 & E1); [by destruct args|done|].
    destruct (IH (w ++ a ++ match args with [] => [10] | _ => [32] end) s1) as (s2 & R2 & E2); [rewrite E1; apply at_end_emit|].
    exists s2. split; [by eapply run_bind|]. rewrite E2, E1, emit_emit. f_equal.
    destruct args; simpl; [by rewrite app_nil_r|by rewrite <- app_assoc].
Qed.
End WithFiles.

(** *** cp *)

(** The first [o] bytes of [d] over those of [e]. *)
Definition over (o : nat) (d e : list Z) : list Z := take o d ++ drop o e.

Lemma overwrite_over o d e l : drop o d = l ++ drop (o + length l) d -> (o + length l <= length d)%nat ->
  overwrite (over o d e) o l = over (o + length l) d e.
Proof.
  intros El Hl. unfold overwrite, over. assert (Lo : length (take o d) = o) by (rewrite length_take; lia).
  rewrite take_app_le, take_ge, drop_app_ge, Lo, drop_drop, app_assoc by lia. f_equal.
  - rewrite <- (take_drop o d) at 2. rewrite El, take_app_ge by lia. rewrite Lo.
    replace (o + length l - o)%nat with (length l) by lia. by rewrite take_app_length.
  - f_equal. lia.
Qed.

Section Cp.
Context `{V : Volume}.

Lemma fits_le p n m : (n <= m)%nat -> fits p m = true -> fits p n = true.
Proof. unfold fits. destruct (limit p); [|done]. rewrite !Nat.leb_le. lia. Qed.

(** What the loop of [cp] leaves: [n] bytes have been copied, all of them if they fit; the
    last [write] has returned [w]. *)
Record copied (q : list Z) (d : list Z) (o : nat) (w0 : Z) (n : nat) (w : Z) : Prop := mkcopied {
  cp_range : (o <= n <= length d)%nat;
  cp_all : fits q (length d) = true -> n = length d /\ (if decide (o = length d) then w = w0 else 0 <= w);
  cp_part : fits q (length d) = false -> fits q n = true /\ fits q (n + 512) = false /\ w = -1
}.

Lemma cp_loop fd dfd p q d e : fd <> dfd -> p <> q -> forall k o w0 s, (length d - o < k)%nat -> fits q o = true ->
  reads fd p o d (view s) -> (o <= length d)%nat -> reads dfd q o (over o d e) (view s) ->
  exists r w n m s', run (ITree.iter (cp_round fd dfd) w0) s (Some (r, w)) s' /\ 0 <= r /\ copied q d o w0 n w /\
    view s' = set_fd dfd (q, n) (set_fd fd (p, m) (set_file q (over n d e) (view s))).
Proof.
  intros Hf Hp k. induction k as [|k IH]; intros o w0 s Hk Hfo R Ho [D1 D2]; [lia|].
  destruct (run_read fd p o d s R Ho) as (l & s1 & R1 & El & Hl & Hnil & H512 & E1).
  assert (Ow : (o <= length (over o d e))%nat) by (unfold over; rewrite length_app, length_take; lia).
  assert (G1 : fds (view s1) !! dfd = Some (q, o)) by (rewrite E1; simpl; by rewrite lookup_insert_ne).
  assert (G2 : files (view s1) !! q = Some (over o d e)) by (by rewrite E1).
  assert (Estop : view s1 = set_fd dfd (q, o) (set_fd fd (p, o + length l)%nat (set_file q (over o d e) (view s)))).
  { rewrite E1. unfold set_fd, set_file. simpl. f_equal; [|by rewrite insert_id].
    rewrite (insert_id (<[fd:=_]> _)); [done|]. by rewrite lookup_insert_ne. }
  destruct l as [|c l].
  - exists 0, w0, o, (o + 0)%nat, s1. pose proof (Hnil eq_refl) as Eo. split_and!; [|done| |exact Estop].
    + eapply run_iter; [eapply run_bind; [exact R1|apply run_mret]|done].
    + split; [lia|intros _; by rewrite decide_True|congruence].
  - set (m := c :: l) in *. assert (Hm : (0 < length m)%nat) by (simpl; lia). clearbody m.
    destruct (fits q (o + length m)) eqn:Hfit.
    + destruct (write_ok s1 dfd m q o (over o d e) G1 G2 Ow Hfit) as (s2 & Ea & E2). rewrite overwrite_over in E2 by done.
      destruct (IH (o + length m)%nat (Z.of_nat (length m)) s2) as (r & w & n & m' & s3 & R3 & Hr & [C1 C2 C3] & E3);
        [lia|done| |lia| |].
      { rewrite E2, E1. destruct R. split; simpl; [by rewrite lookup_insert_ne, lookup_insert_eq|by rewrite lookup_insert_ne]. }
      { rewrite E2. split; apply lookup_insert_eq. }
      exists r, w, n, m', s3. split_and!; [|done| |].
      * eapply run_iter; [eapply run_bind; [exact R1|]; simpl; rewrite (proj2 (Z.ltb_lt _ _)) by lia;
          eapply run_bind; [by apply run_sys|]; rewrite Z.eqb_refl, (proj2 (Z.ltb_ge _ _)) by lia; apply run_mret|exact R3].
      * split; [lia| |done]. intros Hd. destruct (C2 Hd) as [-> Hw]. split; [done|]. rewrite decide_False by lia.
        destruct (decide _); [lia|done].
      * rewrite E3, E2, E1. unfold set_fd, set_file. simpl. f_equal; [|by rewrite insert_insert_eq].
        rewrite (insert_insert_ne _ fd dfd), !insert_insert_eq by done. done.
    + destruct (write_refused s1 dfd m q o (over o d e) G1 G2 Ow H512 Hfit) as (s2 & Ea & E2).
      exists (Z.of_nat (length m)), (-1), o, (o + length m)%nat, s2. split_and!; [|lia| |by rewrite E2, Estop].
      * eapply run_iter; [eapply run_bind; [exact R1|]; simpl; rewrite (proj2 (Z.ltb_lt _ _)) by lia;
          eapply run_bind; [by apply run_sys|]; rewrite orb_true_r; apply run_mret|done].
      * assert (Hno : forall j, (o + length m <= j)%nat -> fits q j = false).
        { intros j Hj. apply not_true_is_false. intros Hj'. by rewrite (fits_le q _ j) in Hfit. }
        split; [lia|rewrite Hno by lia; done|]. intros _. split_and!; [done|apply Hno; lia|done].
Qed.

(** The message of [cp] when [write] or [read] fails. *)
Definition cp_error (src dest : list Z) : list Z := chars "cp: error copying " ++ src ++ chars " to " ++ dest ++ [10].

(** From the two descriptors on. *)
Lemma run_cp_copy garbage fd dfd src dest d e q w s :
  fd <> dfd -> fd <> 2 -> dfd <> 2 -> src <> dest -> q <> dest -> limit q = None ->
  fds (view s) !! fd = Some (src, 0%nat) -> fds (view s) !! dfd = Some (dest, 0%nat) ->
  files (view s) !! src = Some d -> files (view s) !! dest = Some e -> at_end 2 q w (view s) ->
  exists n r s', run (rw ← ITree.iter (cp_round fd dfd) garbage;
      _ ← (if (rw.1 <? 0) || (rw.2 <? 0) then printf 2 "cp: error copying %s to %s
" [AStr src; AStr dest] else mret tt);
      _ ← sys (Close fd); _ ← sys (Close dfd); exit (A := unit)) s None s' /\
    copied dest d 0 garbage n r /\
    view s' = emit 2 q w (if r <? 0 then cp_error src dest else [])
      (set_file dest (over n d e) (mkfsys (delete dfd (delete fd (fds (view s)))) (files (view s)))).
Proof.
  intros Hff Hf2 Hd2 Hne Hqd Hq F1 F2 F3 F4 E.
  destruct (cp_loop fd dfd src dest d e Hff Hne (S (length d)) 0 garbage s) as (r & r2 & n & m & s1 & R1 & Hr & C & E1);
    [lia|unfold fits; by destruct (limit dest)|by split|lia|by split|].
  assert (A1 : at_end 2 q w (view s1)).
  { rewrite E1. destruct E as [A1 A2]. split; simpl; rewrite ?lookup_insert_ne by done; done. }
  assert (H2 : exists s2, run (if (r <? 0) || (r2 <? 0) then printf 2 "cp: error copying %s to %s
" [AStr src; AStr dest] else mret tt) s1 (Some tt) s2 /\ view s2 = emit 2 q w (if r2 <? 0 then cp_error src dest else []) (view s1)).
  { rewrite (proj2 (Z.ltb_ge r 0)) by lia. simpl. destruct (r2 <? 0); [by apply run_printf|].
    exists s1. split; [apply run_mret|by rewrite emit_nil]. }
  destruct H2 as (s2 & R2 & E2).
  destruct (run_close fd (src, m) s2) as (s3 & R3 & E3).
  { rewrite E2, E1. simpl. by rewrite !lookup_insert_ne, lookup_insert_eq by done. }
  destruct (run_close dfd (dest, n) s3) as (s4 & R4 & E4).
  { rewrite E3, E2, E1. simpl. by rewrite lookup_delete_ne, lookup_insert_ne, lookup_insert_eq by done. }
  exists n, r2, s4. split_and!; [|done|].
  - eapply run_bind; [exact R1|]. eapply run_bind; [exact R2|]. eapply run_bind; [exact R3|].
    eapply run_bind; [exact R4|apply run_exit_].
  - rewrite E4, E3, E2, E1. unfold emit, set_fd, set_file. simpl. f_equal.
    apply map_eq. intros i. rewrite !lookup_delete, !lookup_insert, !lookup_delete. repeat case_decide; subst; done.
Qed.

(** When [cp] reports an error, and how much it has copied. *)
Lemma cp_verdict q d g n r : copied q d 0 g n r ->
  negb (fits q (length d)) || (bool_decide (d = []) && (g <? 0)) = (r <? 0).
Proof.
  intros [_ C2 C3]. destruct (fits q (length d)); simpl.
  - destruct (C2 eq_refl) as [_ Hw]. destruct d as [|c d]; simpl in *; [by rewrite Hw|].
    symmetry. by apply Z.ltb_ge.
  - by destruct (C3 eq_refl) as (_ & _ & ->).
Qed.

Lemma cp_bytes q d g n r : copied q d 0 g n r ->
  if fits q (length d) then n = length d
  else (n <= length d)%nat /\ fits q n = true /\ fits q (n + 512) = false.
Proof.
  intros [C1 C2 C3]. destruct (fits q (length d)); [by apply C2|]. destruct (C3 eq_refl) as (H1 & H2 & _).
  split_and!; [lia|done|done].
Qed.

(** C28: [cp src dest], with the terminal [q] on descriptor 2, two free descriptors, and two
    different names, neither the terminal's.  If [src] does not exist or [dest] cannot be created,
    it says so and changes no file.  Otherwise, if the bytes of [src] fit in [dest],
    they replace those at the front of [dest], which is created when there was none
    and is not truncated; if they do not fit, [dest] gets as many of them, up to a
    buffer, as it can hold, and [cp] says that there was an error; in both cases the
    two descriptors are closed.  It always ends, and all other files are as before.  (An empty
    [src] is reported as an error when the variable [w], not initialised,
    happens to be negative.) *)
Theorem cp_copies garbage arg0 src dest q w s fd dfd :
  src <> dest -> q <> src -> q <> dest -> limit q = None -> at_end 2 q w (view s) ->
  free_fd (view s) = Some fd -> free_fd (set_fd fd (src, 0%nat) (view s)) = Some dfd ->
  exists s', run (cp_main garbage [arg0; src; dest]) s None s' /\
  match files (view s) !! src with
  | None => view s' = emit 2 q w (chars "cp: cannot open source " ++ src ++ [10]) (view s)
  | Some d =>
      if negb (creates dest) then
        view s' = emit 2 q w (chars "cp: cannot open destination " ++ dest ++ [10]) (set_fd fd (src, 0%nat) (view s))
      else exists n, view s' =
        emit 2 q w (if negb (fits dest (length d)) || (bool_decide (d = []) && (garbage <? 0)) then cp_error src dest else [])
          (set_file dest (take n d ++ drop n (default [] (files (view s) !! dest))) (view s)) /\
        if fits dest (length d) then n = length d
        else (n <= length d)%nat /\ fits dest n = true /\ fits dest (n + 512) = false
  end.
Proof.
  intros Hne Hqs Hqd Hq E Ef Ef'. destruct (free_fd_range _ _ Ef) as [Hfd Nfd]. destruct (free_fd_range _ _ Ef') as [Hdfd Ndfd].
  simpl in Ndfd. apply lookup_insert_None in Ndfd as [Ndfd Hff].
  assert (Hf2 : fd <> 2) by (intros ->; destruct E; congruence). assert (Hd2 : dfd <> 2) by (intros ->; destruct E; congruence).
  destruct (files (view s) !! src) as [d|] eqn:Ed.
  2: { destruct (open_missing s src Ed) as (s1 & Ea & E1). rewrite <- E1 in E.
       destruct (run_printf 2 "cp: cannot open source %s
" [AStr src] _ q w s1 Hq eq_refl E) as (s2 & R2 & E2). exists s2. split; [|by rewrite E2, E1].
       eapply run_bind; [by apply run_sys|]. simpl. eapply run_bind; [exact R2|apply run_exit_]. }
  destruct (open_ok s src d fd Ed Ef) as (s1 & Ea1 & E1).
  assert (A1 : at_end 2 q w (view s1)) by (rewrite E1; by apply at_end_set_fd).
  destruct (creates dest) eqn:Hc; cbn [negb].
  2: { destruct (create_refused s1 dest Hc) as (s2 & Ea2 & E2). rewrite <- E2 in A1.
       destruct (run_printf 2 "cp: cannot open destination %s
" [AStr dest] _ q w s2 Hq eq_refl A1) as (s3 & R3 & E3). exists s3. split; [|by rewrite E3, E2, E1].
       eapply run_bind; [by apply run_sys|]. rewrite (proj2 (Z.ltb_ge fd 0)) by lia.
       eapply run_bind; [by apply run_sys|]. simpl. eapply run_bind; [exact R3|apply run_exit_]. }
  destruct (create_ok s1 dest dfd Hc) as (s2 & Ea2 & E2); [by rewrite E1|]. rewrite E1 in E2. simpl in E2.
  set (e := default [] (files (view s) !! dest)) in *.
  destruct (run_cp_copy garbage fd dfd src dest d e q w s2) as (n & r & s3 & R3 & C & E3); try done.
  1-5: rewrite E2; simpl; rewrite ?lookup_insert_eq, ?lookup_insert_ne, ?lookup_insert_eq by done; try done.
  { destruct E as [A2 A3]. split; simpl; rewrite !lookup_insert_ne by done; done. }
  exists s3. split.
  - eapply run_bind; [by apply run_sys|]. rewrite (proj2 (Z.ltb_ge fd 0)) by lia.
    eapply run_bind; [by apply run_sys|]. rewrite (proj2 (Z.ltb_ge dfd 0)) by lia. exact R3.
  - exists n. rewrite (cp_verdict _ _ _ _ _ C). split; [|apply (cp_bytes _ _ _ _ _ C)].
    rewrite E3, E2. f_equal. unfold set_fd, set_file, over. simpl. f_equal; [|by rewrite insert_insert_eq].
    apply map_eq. intros i. rewrite !lookup_delete, !lookup_insert. repeat case_decide; subst; done.
Qed.
End Cp.


(** ** forktest *)

(** The promises of the process calls to a parent: [kids] children that have not been
    waited for, [slots] processes that can still be created, and [out] written to
    descriptor 1.  A child that ends keeps its slot until it is waited for. *)
Class Procs `{U : Unix} := {
  kids : os -> nat;
  slots : os -> nat;
  out : os -> list Z;
  fork_ok s k : slots s = S k -> exists pid s', answer _ Fork s = Some (pid, s') /\ 0 < pid /\
    kids s' = S (kids s) /\ slots s' = k /\ out s' = out s;
  fork_full s : slots s = 0%nat -> exists s', answer _ Fork s = Some (-1, s') /\
    kids s' = kids s /\ slots s' = 0%nat /\ out s' = out s;
  wait_ok s k : kids s = S k -> exists pid s', answer _ Wait s = Some (pid, s') /\ 0 < pid /\
    kids s' = k /\ slots s' = S (slots s) /\ out s' = out s;
  wait_none s : kids s = 0%nat -> exists s', answer _ Wait s = Some (-1, s') /\
    kids s' = 0%nat /\ slots s' = slots s /\ out s' = out s;
  out_ok s l : exists r s', answer _ (Write 1 l) s = Some (r, s') /\
    kids s' = kids s /\ slots s' = slots s /\ out s' = out s ++ l;
  procstat_ok s : exists r s', answer _ Procstat s = Some (r, s') /\
    kids s' = kids s /\ slots s' = slots s /\ out s' = out s
}.

(** What [n] calls of [procstat] are announced with. *)
Definition announce (n : nat) : list Z := concat (replicate n (chars "new system call procstat
")).

Section WithProcs.
Context `{P : Procs}.

(** The promises in one: a state with these children, slots and output. *)
Definition sees (k c : nat) (t : list Z) (s : os) : Prop := kids s = k /\ slots s = c /\ out s = t.

Lemma run_ft_printf l k c t s : sees k c t s -> exists s', run (ft_printf 1 l) s (Some tt) s' /\ sees k c (t ++ chars l) s'.
Proof.
  intros (E1 & E2 & E3). destruct (out_ok s (chars l)) as (r & s' & Ea & F1 & F2 & F3). exists s'. split.
  - eapply run_bind; [by apply run_sys|apply run_mret].
  - unfold sees. by rewrite F1, F2, F3, E1, E2, E3.
Qed.

(** Before a fork [procstat] is called from the fifth round on. *)
Lemma run_announce (n : nat) k c t s : sees k c t s ->
  exists s', run (if 5 <=? Z.of_nat n then _ ← ft_printf 1 "new system call procstat
"; _ ← sys Procstat; mret tt else mret tt) s (Some tt) s' /\ sees k c (t ++ announce (1 - (5 - n))) s'.
Proof.
  intros E. destruct (Z.leb_spec 5 (Z.of_nat n)).
  - destruct (run_ft_printf "new system call procstat
" k c t s E) as (s1 & R1 & E1 & E2 & E3).
    destruct (procstat_ok s1) as (r & s2 & Ea & F1 & F2 & F3). exists s2. split.
    + eapply run_bind; [exact R1|]. eapply run_bind; [by apply run_sys|apply run_mret].
    + replace (1 - (5 - n))%nat with 1%nat by lia. unfold sees, announce. cbn [replicate concat]. by rewrite F1, F2, F3, E1, E2, E3, app_nil_r.
  - exists s. split; [apply run_mret|]. replace (1 - (5 - n))%nat with 0%nat by lia. unfold announce. simpl. by rewrite app_nil_r.
Qed.

Lemma announce_add a b : announce (a + b) = announce a ++ announce b.
Proof. unfold announce. by rewrite replicate_add, concat_app. Qed.

Lemma run_fork_loop r : forall (n k c : nat) t s, sees k c t s ->
  exists s', run (fork_loop r (Z.of_nat n)) s (Some (Z.of_nat (n + c `min` r))) s' /\
    sees (k + c `min` r) (c - c `min` r) (t ++ announce (S c `min` r - (5 - n))) s'.
Proof.
  induction r as [|r IH]; intros n k c t s E.
  - exists s. rewrite !Nat.min_0_r, !Nat.add_0_r, Nat.sub_0_r. split; [apply run_mret|]. simpl. unfold announce. simpl. by rewrite app_nil_r.
  - destruct (run_announce n k c t s E) as (s1 & R1 & E1 & E2 & E3). destruct c as [|c].
    + destruct (fork_full s1 E2) as (s2 & Ea & F1 & F2 & F3). exists s2. simpl. rewrite !Nat.add_0_r. split.
      * eapply run_bind; [exact R1|]. eapply run_bind; [by apply run_sys|apply run_mret].
      * unfold sees. rewrite F1, F2, F3, E1, E3. done.
    + destruct (fork_ok s1 c E2) as (pid & s2 & Ea & Hp & F1 & F2 & F3).
      destruct (IH (S n) (S k) c (t ++ announce (1 - (5 - n))) s2) as (s3 & R3 & E4).
      { unfold sees. by rewrite F1, F2, F3, E1, E3. }
      exists s3. rewrite <- app_assoc, <- announce_add in E4. split.
      * eapply run_bind; [exact R1|]. eapply run_bind; [by apply run_sys|].
        rewrite (proj2 (Z.ltb_ge pid 0)), (proj2 (Z.eqb_neq pid 0)) by lia.
        replace (Z.of_nat n + 1) with (Z.of_nat (S n)) by lia. replace (n + S c `min` S r)%nat with (S n + c `min` r)%nat by lia. exact R3.
      * replace (k + S c `min` S r)%nat with (S k + c `min` r)%nat by lia. replace (S c - S c `min` S r)%nat with (c - c `min` r)%nat by lia.
        replace (S (S c) `min` S r - (5 - n))%nat with (1 - (5 - n) + (S c `min` r - (5 - S n)))%nat by lia. exact E4.
Qed.

Lemma run_reap_loop n : forall k c t s, sees (n + k) c t s -> exists s', run (reap_loop n) s (Some tt) s' /\ sees k (c + n) t s'.
Proof.
  induction n as [|n IH]; intros k c t s E; [exists s; rewrite Nat.add_0_r; split; [apply run_mret|done]|].
  destruct E as (E1 & E2 & E3). destruct (wait_ok s (n + k) E1) as (pid & s1 & Ea & Hp & F1 & F2 & F3).
  destruct (IH k (S c) t s1) as (s2 & R2 & E4); [unfold sees; by rewrite F1, F2, F3, E2, E3|].
  exists s2. split; [|by rewrite Nat.add_succ_r]. eapply run_bind; [by apply run_sys|]. by rewrite (proj2 (Z.ltb_ge pid 0)) by lia.
Qed.

(** On a machine with fewer than 1000 processes to give, [forktest] creates them
    all, waits for every one of them, and ends with its success message, no child and
    all the processes free again; with 1000 or more it says that fork claimed to work
    and leaves its 1000 children behind. *)
Theorem forktest_reports (c : nat) t s : sees 0 c t s ->
  exists s', run forktest_main s None s' /\
  if bool_decide (c < 1000)%nat
  then sees 0 c (t ++ chars "fork test
" ++ announce (S c - 5) ++ chars "fork test OK
") s'
  else sees 1000 (c - 1000) (t ++ chars "fork test
" ++ announce 995 ++ chars "fork claimed to work N times!
") s'.
Proof.
  intros E. destruct (run_ft_printf "fork test
" _ _ _ _ E) as (s1 & R1 & E1).
  assert (Hf : Z.to_nat FORKS = 1000%nat) by reflexivity.
  destruct (run_fork_loop (Z.to_nat FORKS) 0 _ _ _ _ E1) as (s2 & R2 & E2).
  rewrite Hf, !Nat.add_0_l, <- app_assoc in *. rewrite !Nat.sub_0_r in E2. case_bool_decide as Hc.
  - replace (c `min` 1000)%nat with c in * by lia. replace (S c `min` 1000 - 5)%nat with (S c - 5)%nat in * by lia. rewrite Nat.sub_diag in E2.
    edestruct (run_reap_loop c 0 0) as (s3 & R3 & E3); [rewrite Nat.add_0_r; exact E2|].
    destruct E3 as (G1 & G2 & G3). destruct (wait_none s3 G1) as (s4 & Ea & F1 & F2 & F3).
    destruct (run_ft_printf "fork test OK
" 0 c _ s4 (conj F1 (conj (eq_trans F2 G2) (eq_trans F3 G3)))) as (s5 & R5 & E5).
    exists s5. rewrite <- !app_assoc in E5. split; [|exact E5].
    eapply run_bind; [|apply run_exit_]. eapply run_bind; [exact R1|]. rewrite Hf. eapply run_bind; [exact R2|].
    rewrite (proj2 (Z.eqb_neq _ FORKS)) by (unfold FORKS; lia). rewrite Nat2Z.id.
    eapply run_bind; [exact R3|]. eapply run_bind; [by apply run_sys|]. exact R5.
  - replace (c `min` 1000)%nat with 1000%nat in * by lia. replace (S c `min` 1000 - 5)%nat with 995%nat in * by lia.
    destruct (run_ft_printf "fork claimed to work N times!
" _ _ _ _ E2) as (s3 & R3 & E3).
    exists s3. rewrite <- !app_assoc in E3. split; [|exact E3].
    apply run_bind_exit. eapply run_bind; [exact R1|]. rewrite Hf. eapply run_bind; [exact R2|].
    rewrite (proj2 (Z.eqb_eq _ FORKS)) by (unfold FORKS; lia). eapply run_bind; [exact R3|apply run_exit_].
Qed.
End WithProcs.

(** ** Machines that keep the promises *)

(** A disk whose reads give at most three bytes at a time. *)
Module Disk.

Definition read (fd n : Z) (v : fs) : option ((Z * list Z) * fs) :=
  '(p, o) ← fds v !! fd; d ← files v !! p;
  let l := take (Z.to_nat (Z.min n 3)) (drop o d) in
  Some ((Z.of_nat (length l), l), set_fd fd (p, o + length l)%nat v).

(** The limits of the files, and the names that can be created. *)
Section Limits.
Variables (lim : list Z -> option nat) (cr : list Z -> bool).

Definition within (p : list Z) (n : nat) : bool := match lim p with Some m => (n <=? m)%nat | None => true end.

Definition write (fd : Z) (l : list Z) (v : fs) : option (Z * fs) :=
  '(p, o) ← fds v !! fd; d ← files v !! p;
  if negb (within p (o + length l)) then Some (-1, v)
  else Some (Z.of_nat (length l), set_fd fd (p, o + length l)%nat (set_file p (overwrite d o l) v)).

Definition open_ (p : list Z) (mode : Z) (v : fs) : option (Z * fs) :=
  match free_fd v with
  | Some fd =>
      if negb (mode =? O_RDONLY) then if negb (cr p) then Some (-1, v) else Some (fd, set_fd fd (p, 0%nat) (set_file p (default [] (files v !! p)) v))
      else match files v !! p with Some _ => Some (fd, set_fd fd (p, 0%nat) v) | None => Some (-1, v) end
  | None => Some (-1, v)
  end.

Definition close (fd : Z) (v : fs) : option (Z * fs) := Some (0, mkfsys (delete fd (fds v)) (files v)).

(** The calls that the laws do not speak of do not return. *)
Definition reply A (e : sysE A) : fs -> option (A * fs) :=
  match e with
  | Open p mode => open_ p mode
  | Close fd => close fd
  | Read fd n => read fd n
  | Write fd l => write fd l
  | _ => fun _ => None
  end.

#[local] Instance machine : Unix := mkUnix fs reply.

#[local] Program Instance keeps : Volume (U := machine) := { view := fun v => v; limit := lim; creates := cr }.
Next Obligation.
  intros s fd n p o d E1 E2 Hn. exists (Z.to_nat (Z.min n 3)). eexists. split; [|split; [lia|split; [lia|reflexivity]]].
  simpl. unfold read. rewrite E1. cbn [mbind option_bind]. by rewrite E2.
Qed.
Next Obligation.
  intros s fd l p o d E1 E2 Ho Hw. eexists. split; [|reflexivity].
  simpl. unfold write. rewrite E1. cbn [mbind option_bind]. rewrite E2. cbn [mbind option_bind]. unfold within. by rewrite Hw.
Qed.
Next Obligation.
  intros s fd l p o d E1 E2 Ho _ Hw. eexists. split; [|reflexivity].
  simpl. unfold write. rewrite E1. cbn [mbind option_bind]. rewrite E2. cbn [mbind option_bind]. unfold within. by rewrite Hw.
Qed.
Next Obligation.
  intros s p d fd E1 E2. eexists. split; [|reflexivity]. simpl. unfold open_. by rewrite E2, E1.
Qed.
Next Obligation.
  intros s p E. eexists. split; [|reflexivity]. simpl. unfold open_. rewrite E. by destruct (free_fd s).
Qed.
Next Obligation.
  intros s p fd Hc E. eexists. split; [|reflexivity]. simpl. unfold open_. by rewrite E, Hc.
Qed.
Next Obligation.
  intros s p Hc. eexists. split; [|reflexivity]. simpl. unfold open_. rewrite Hc. by destruct (free_fd s).
Qed.
Next Obligation.
  intros s fd x E. eexists. split; reflexivity.
Qed.
End Limits.

(** Without limits. *)
Definition large : Unix := machine (fun _ => None) (fun _ => true).
Definition large_view : Volume (U := large) := keeps (fun _ => None) (fun _ => true).

Lemma large_keeps : Files (V := large_view).
Proof. by intros p. Qed.

(** A process with the terminal on descriptors 0, 1 and 2 and two files. *)
Definition tty : list Z := chars "tty".
Definition start : fs :=
  mkfsys {[ 0 := (tty, 1%nat); 1 := (tty, 1%nat); 2 := (tty, 1%nat) ]}
    {[ tty := chars "$"; chars "a" := chars "one two"; chars "b" := chars "three
" ]}.

End Disk.

(** A machine with processes only: children, free slots and what was printed. *)
Module Nursery.

Record nursery := mknursery { n_kids : nat; n_slots : nat; n_out : list Z }.

Definition reply A (e : sysE A) : nursery -> option (A * nursery) :=
  match e with
  | Fork => fun s => match n_slots s with S k => Some (2, mknursery (S (n_kids s)) k (n_out s)) | O => Some (-1, s) end
  | Wait => fun s => match n_kids s with S k => Some (2, mknursery k (S (n_slots s)) (n_out s)) | O => Some (-1, s) end
  | Write fd l => fun s => Some (Z.of_nat (length l), mknursery (n_kids s) (n_slots s) (n_out s ++ l))
  | Procstat => fun s => Some (0, s)
  | _ => fun _ => None
  end.

#[export] Instance machine : Unix := mkUnix nursery reply.

#[export] Program Instance keeps : Procs (U := machine) := { kids := n_kids; slots := n_slots; out := n_out }.
Next Obligation. intros s k E. simpl. rewrite E. do 2 eexists. split; [reflexivity|done]. Qed.
Next Obligation. intros s E. simpl. rewrite E. eexists. split; [reflexivity|done]. Qed.
Next Obligation. intros s k E. simpl. rewrite E. do 2 eexists. split; [reflexivity|done]. Qed.
Next Obligation. intros s E. simpl. rewrite E. eexists. split; [reflexivity|done]. Qed.
Next Obligation. intros s l. simpl. do 2 eexists. split; [reflexivity|done]. Qed.
Next Obligation. intros s. simpl. do 2 eexists. split; [reflexivity|done]. Qed.

End Nursery.

Lemma disk_holds : all_hold Disk.tty [chars "a"; chars "b"] [chars "one two"; chars "three
"] Disk.start.
Proof. repeat constructor; try done; vm_compute; reflexivity. Qed.

Lemma disk_small : Forall (fun d => Z.of_nat (length d) < 2 ^ 31) [chars "one two"; chars "three
"].
Proof. repeat (apply Forall_cons_2; [reflexivity|]). apply Forall_nil_2. Qed.

Lemma disk_at_end : at_end 1 Disk.tty (chars "$") Disk.start.
Proof. split; reflexivity. Qed.

Lemma disk_at_end2 : at_end 2 Disk.tty (chars "$") Disk.start.
Proof. split; reflexivity. Qed.


Lemma wc_counts_witness : exists s', run (H := Disk.large) (wc_main [chars "wc"; chars "a"; chars "b"]) Disk.start None s' /\
  files s' !! Disk.tty = Some (chars "$0 2 7 a
1 1 6 b
").
Proof.
  destruct (wc_counts (F := Disk.large_keeps) (chars "wc") [chars "a"; chars "b"] _ Disk.tty (chars "$") Disk.start 3 ltac:(done) disk_holds disk_small eq_refl disk_at_end) as (s' & R & E).
  exists s'. split; [exact R|]. simpl in E. rewrite E. vm_compute. reflexivity.
Defined.

(** A disk on which a file can have eight bytes, and [etc] cannot be created. *)
Definition small_limit (p : list Z) : option nat := if bool_decide (p = Disk.tty) then None else Some 8%nat.
Definition small_names (p : list Z) : bool := negb (bool_decide (p = chars "etc")).
Definition small : Unix := Disk.machine small_limit small_names.
Definition small_view : Volume (U := small) := Disk.keeps small_limit small_names.

Lemma cp_copies_witness : exists s', run (H := small) (cp_main (-7) [chars "cp"; chars "b"; chars "a"]) Disk.start None s' /\
  files s' !! chars "a" = Some (chars "three
o").
Proof.
  assert (Hf : free_fd Disk.start = Some 3) by (vm_compute; reflexivity).
  assert (Hg : free_fd (set_fd 3 (chars "b", 0%nat) Disk.start) = Some 4) by (vm_compute; reflexivity).
  destruct (cp_copies (V := small_view) (-7) (chars "cp") (chars "b") (chars "a") Disk.tty (chars "$") Disk.start 3 4
    ltac:(discriminate) ltac:(discriminate) ltac:(discriminate) eq_refl disk_at_end2 Hf Hg) as (s' & R & E).
  exists s'. split; [exact R|].
  destruct E as (n & E & Hn). change (n = 6%nat) in Hn. subst n.
  change (view s') with s' in E. rewrite E. vm_compute. reflexivity.
Defined.

