(* ===== verification/Usertests.v ===== *)
(** * The tests of the system calls

    The tests of [user/usertests.c], as programs over the system calls.  A test that
    fails prints what it has seen and calls [exit]; one that goes well returns.  The
    array [buf], which the tests share, is passed from one to the next. *)

From stdpp Require Import base list numbers strings tactics.
From ITree Require Import ITree.
From Stdlib Require Import Lia.
From S2P Require Import Prelude Params FsState Log Fs PathThm Console Ulib Unix Progs.

Local Open Scope Z_scope.

(** ** Notation for the tests *)

Definition newline : string := String (Ascii.ascii_of_nat 10) EmptyString.

(** [printf(1, ...)] of a line; the variable [stdout] is 1, too. *)
Definition line (s : string) (ap : list carg) : prog unit := printf 1 (String.append s newline) ap.

(** [{ printf(1, ...); exit(); }] *)
Definition fail {A} (s : string) (ap : list carg) : prog A := _ ← line s ap; exit.

(** [if(b) ...] *)
Definition when (b : bool) (t : prog unit) : prog unit := if b then t else mret tt.

(** [if(b){ printf(1, s); exit(); }] *)
Definition fail_if (b : bool) (s : string) : prog unit := when b (fail s []).

(** [for(i = 0; i < n; i++)] *)
Definition upto (n : nat) : list Z := Z.of_nat <$> seq 0 n.

(** ['0' + i] *)
Definition digit (i : Z) : Z := u8 (48 + i).

(** The bytes of a read at the start of an array, and an array filled with a byte. *)
Definition into (buf l : list Z) : list Z := l ++ drop (length l) buf.
Definition fill (buf : list Z) (c n : Z) : list Z := into buf (replicate (Z.to_nat n) c).

(** A character of type [char]. *)
Definition sc (c : Z) : Z := if c <? 128 then c else c - 256.
Definition char_at (buf : list Z) (i : Z) : Z := sc (byte_at buf i).

Definition RDWR_CREATE : Z := Z.lor O_CREATE O_RDWR.
Definition SIZEOF_BUF : Z := 8192.

(** ** simple file system tests *)

Definition opentest : prog unit :=
  _ ← line "open test" [];
  fd ← sys (Open (chars "echo") 0);
  _ ← fail_if (fd <? 0) "open echo failed!";
  _ ← sys (Close fd);
  fd ← sys (Open (chars "doesnotexist") 0);
  _ ← fail_if (0 <=? fd) "open doesnotexist succeeded!";
  line "open test ok" [].

(** One round of the loop that writes. *)
Definition writetest_round (fd i : Z) : prog unit :=
  w ← sys (Write fd (chars "aaaaaaaaaa"));
  _ ← when (negb (w =? 10)) (fail "error: write aa %d new file failed" [ANum i]);
  w ← sys (Write fd (chars "bbbbbbbbbb"));
  when (negb (w =? 10)) (fail "error: write bb %d new file failed" [ANum i]).

Definition writetest (buf : list Z) : prog (list Z) :=
  _ ← line "small file test" [];
  fd ← sys (Open (chars "small") RDWR_CREATE);
  _ ← (if 0 <=? fd then line "creat small succeeded; ok" [] else fail "error: creat small failed!" []);
  _ ← each (writetest_round fd) (upto 100);
  _ ← line "writes ok" [];
  _ ← sys (Close fd);
  fd ← sys (Open (chars "small") O_RDONLY);
  _ ← (if 0 <=? fd then line "open small succeeded ok" [] else fail "error: open small failed!" []);
  i ← sys (Read fd 2000);
  let buf := into buf i.2 in
  _ ← (if i.1 =? 2000 then line "read succeeded ok" [] else fail "read failed" []);
  _ ← sys (Close fd);
  r ← sys (Unlink (chars "small"));
  _ ← fail_if (r <? 0) "unlink small failed";
  _ ← line "small file test ok" [];
  mret buf.

(** The two loops of [writetest1]; the first four bytes of [buf] are an integer. *)
Fixpoint writetest1_write (rounds : nat) (fd i : Z) (buf : list Z) : prog (list Z) :=
  match rounds with
  | O => mret buf
  | S rounds =>
      let buf := wr32 buf 0 i in
      w ← sys (Write fd (take 512 buf));
      _ ← when (negb (w =? 512)) (fail "error: write big file failed" [ANum i]);
      writetest1_write rounds fd (i + 1) buf
  end.

Definition writetest1_read (fd : Z) (s : Z * list Z) : prog (Z * list Z + list Z) :=
  let '(n, buf) := s in
  i ← sys (Read fd 512);
  let buf := into buf i.2 in
  if i.1 =? 0 then
    _ ← when (n =? MAXFILE - 1) (_ ← printf 1 "read only %d blocks from big" [ANum n]; exit);
    mret (inr buf)
  else
  _ ← when (negb (i.1 =? 512)) (fail "read failed %d" [ANum i.1]);
  _ ← when (negb (s32 (rd32 buf 0) =? n)) (fail "read content of block %d is %d" [ANum n; ANum (s32 (rd32 buf 0))]);
  mret (inl (n + 1, buf)).

Definition writetest1 (buf : list Z) : prog (list Z) :=
  _ ← line "big files test" [];
  fd ← sys (Open (chars "big") RDWR_CREATE);
  _ ← fail_if (fd <? 0) "error: creat big failed!";
  buf ← writetest1_write (Z.to_nat MAXFILE) fd 0 buf;
  _ ← sys (Close fd);
  fd ← sys (Open (chars "big") O_RDONLY);
  _ ← fail_if (fd <? 0) "error: open big failed!";
  buf ← ITree.iter (writetest1_read fd) (0, buf);
  _ ← sys (Close fd);
  r ← sys (Unlink (chars "big"));
  _ ← fail_if (r <? 0) "unlink big failed";
  _ ← line "big files ok" [];
  mret buf.

Definition createtest : prog unit :=
  _ ← line "many creates, followed by unlink test" [];
  _ ← each (fun i => fd ← sys (Open [97; digit i] RDWR_CREATE); _ ← sys (Close fd); mret tt) (upto 52);
  _ ← each (fun i => _ ← sys (Unlink [97; digit i]); mret tt) (upto 52);
  line "many creates, followed by unlink; ok" [].

Definition dirtest : prog unit :=
  _ ← line "mkdir test" [];
  r ← sys (Mkdir (chars "dir0"));
  _ ← fail_if (r <? 0) "mkdir failed";
  r ← sys (Chdir (chars "dir0"));
  _ ← fail_if (r <? 0) "chdir dir0 failed";
  r ← sys (Chdir (chars ".."));
  _ ← fail_if (r <? 0) "chdir .. failed";
  r ← sys (Unlink (chars "dir0"));
  _ ← fail_if (r <? 0) "unlink dir0 failed";
  line "mkdir test" [].

Definition echoargv : list (list Z) := [chars "echo"; chars "ALL"; chars "TESTS"; chars "PASSED"].

Definition exectest : prog unit :=
  _ ← line "exec test" [];
  r ← sys (Exec (chars "echo") echoargv);
  fail_if (r <? 0) "exec echo failed".

(** ** simple fork and pipe read/write *)

(** The numbers [seq], [seq + 1], ... as bytes. *)
Definition counting (seq n : Z) : list Z := (fun i => u8 (seq + Z.of_nat i)) <$> List.seq 0 (Z.to_nat n).

Fixpoint pipe1_child (rounds : nat) (fd seq : Z) : prog unit :=
  match rounds with
  | O => mret tt
  | S rounds =>
      w ← sys (Write fd (counting seq 1033));
      _ ← fail_if (negb (w =? 1033)) "pipe1 oops 1";
      pipe1_child rounds fd (seq + 1033)
  end.

(** A round of the reader, with [seq], [cc], [total] and [buf]; no total is its [return]. *)
Definition pipe1_round (fd : Z) (s : Z * Z * Z * list Z) : prog (Z * Z * Z * list Z + option Z * list Z) :=
  let '(seq, cc, total, buf) := s in
  r ← sys (Read fd cc);
  let n := r.1 in let buf := into buf r.2 in
  if n <=? 0 then mret (inr (Some total, buf)) else
  if negb (bool_decide (take (Z.to_nat n) buf = counting seq n)) then
    _ ← line "pipe1 oops 2" []; mret (inr (None, buf))
  else
  let cc := cc * 2 in
  mret (inl (seq + n, (if SIZEOF_BUF <? cc then SIZEOF_BUF else cc), total + n, buf)).

Definition pipe1 (buf : list Z) : prog (list Z) :=
  p ← sys Pipe;
  _ ← fail_if (negb (p.1 =? 0)) "pipe() failed";
  let '(fd0, fd1) := p.2 in
  pid ← sys Fork;
  if pid =? 0 then
    _ ← sys (Close fd0);
    _ ← pipe1_child 5 fd1 0;
    exit
  else if 0 <? pid then
    _ ← sys (Close fd1);
    r ← ITree.iter (pipe1_round fd0) (0, 1, 0, buf);
    match r with
    | (None, buf) => mret buf
    | (Some total, buf) =>
        _ ← when (negb (total =? 5 * 1033)) (fail "pipe1 oops 3 total %d" [ANum total]);
        _ ← sys (Close fd0);
        _ ← sys Wait;
        _ ← line "pipe1 ok" [];
        mret buf
    end
  else fail "fork() failed" [].

(** [for(;;);] *)
Definition forever {A} : prog A := ITree.spin.

Definition preempt (buf : list Z) : prog (list Z) :=
  _ ← printf 1 "preempt: " [];
  pid1 ← sys Fork;
  if pid1 =? 0 then forever else
  pid2 ← sys Fork;
  if pid2 =? 0 then forever else
  p ← sys Pipe;
  let '(pfd0, pfd1) := p.2 in
  pid3 ← sys Fork;
  if pid3 =? 0 then
    _ ← sys (Close pfd0);
    w ← sys (Write pfd1 (chars "x"));
    _ ← when (negb (w =? 1)) (printf 1 "preempt write error" []);
    _ ← sys (Close pfd1);
    forever
  else
  _ ← sys (Close pfd1);
  r ← sys (Read pfd0 SIZEOF_BUF);
  let buf := into buf r.2 in
  if negb (r.1 =? 1) then _ ← printf 1 "preempt read error" []; mret buf else
  _ ← sys (Close pfd0);
  _ ← printf 1 "kill... " [];
  _ ← sys (Kill pid1);
  _ ← sys (Kill pid2);
  _ ← sys (Kill pid3);
  _ ← printf 1 "wait... " [];
  _ ← sys Wait;
  _ ← sys Wait;
  _ ← sys Wait;
  _ ← line "preempt ok" [];
  mret buf.

Fixpoint exitwait_loop (rounds : nat) : prog unit :=
  match rounds with
  | O => line "exitwait ok" []
  | S rounds =>
      pid ← sys Fork;
      if pid <? 0 then line "fork failed" [] else
      if negb (pid =? 0) then
        w ← sys Wait;
        if negb (w =? pid) then line "wait wrong pid" [] else exitwait_loop rounds
      else exit
  end.

Definition exitwait : prog unit := exitwait_loop 100.

(** ** More file system tests *)

(** [for(i = 0; i < 1000; i++)] with its [break]. *)
Fixpoint sharedfd_write (rounds : nat) (fd : Z) (buf : list Z) : prog unit :=
  match rounds with
  | O => mret tt
  | S rounds =>
      w ← sys (Write fd buf);
      if negb (w =? 10) then line "fstests: write sharedfd failed" [] else sharedfd_write rounds fd buf
  end.

Definition count_in (c : Z) (l : list Z) : Z := Z.of_nat (length (filter (fun x => x = c) l)).

(** All ten bytes of the local array are counted, however many the read has brought. *)
Definition sharedfd_round (fd : Z) (s : Z * Z * list Z) : prog (Z * Z * list Z + Z * Z) :=
  let '(nc, np, buf) := s in
  r ← sys (Read fd 10);
  if r.1 <=? 0 then mret (inr (nc, np)) else
  let buf := into buf r.2 in
  mret (inl (nc + count_in 99 buf, np + count_in 112 buf, buf)).

Definition sharedfd : prog unit :=
  _ ← line "sharedfd test" [];
  _ ← sys (Unlink (chars "sharedfd"));
  fd ← sys (Open (chars "sharedfd") RDWR_CREATE);
  if fd <? 0 then printf 1 "fstests: cannot open sharedfd for writing" [] else
  pid ← sys Fork;
  let buf := replicate 10 (if pid =? 0 then 99 else 112) in
  _ ← sharedfd_write 1000 fd buf;
  _ ← (if pid =? 0 then exit else _ ← sys Wait; mret tt);
  _ ← sys (Close fd);
  fd ← sys (Open (chars "sharedfd") 0);
  if fd <? 0 then line "fstests: cannot open sharedfd for reading" [] else
  r ← ITree.iter (sharedfd_round fd) (0, 0, buf);
  _ ← sys (Close fd);
  _ ← sys (Unlink (chars "sharedfd"));
  if (r.1 =? 10000) && (r.2 =? 10000) then line "sharedfd ok" []
  else fail "sharedfd oops %d %d" [ANum r.1; ANum r.2].

Definition twofiles_write (fd : Z) (buf : list Z) : prog unit :=
  n ← sys (Write fd (take 500 buf));
  when (negb (n =? 500)) (fail "write failed %d" [ANum n]).

Definition twofiles_read (fd c : Z) (s : Z * list Z) : prog (Z * list Z + Z * list Z) :=
  let '(total, buf) := s in
  r ← sys (Read fd SIZEOF_BUF);
  let buf := into buf r.2 in
  if r.1 <=? 0 then mret (inr (total, buf)) else
  _ ← when (negb (forallb (fun x => x =? c) (take (Z.to_nat r.1) buf))) (fail "wrong char" []);
  mret (inl (total + r.1, buf)).

(** One file of the second loop. *)
Definition twofiles_check (name : list Z) (c : Z) (buf : list Z) : prog (list Z) :=
  fd ← sys (Open name 0);
  r ← ITree.iter (twofiles_read fd c) (0, buf);
  _ ← sys (Close fd);
  _ ← when (negb (r.1 =? 12 * 500)) (fail "wrong length %d" [ANum r.1]);
  mret r.2.

Definition twofiles (buf : list Z) : prog (list Z) :=
  _ ← line "twofiles test" [];
  _ ← sys (Unlink (chars "f1"));
  _ ← sys (Unlink (chars "f2"));
  pid ← sys Fork;
  _ ← fail_if (pid <? 0) "fork failed";
  let fname := if negb (pid =? 0) then chars "f1" else chars "f2" in
  fd ← sys (Open fname RDWR_CREATE);
  _ ← fail_if (fd <? 0) "create failed";
  let buf := fill buf (if negb (pid =? 0) then 112 else 99) 512 in
  _ ← each (fun _ => twofiles_write fd buf) (upto 12);
  _ ← sys (Close fd);
  _ ← (if negb (pid =? 0) then _ ← sys Wait; mret tt else exit);
  buf ← twofiles_check (chars "f2") 99 buf;
  buf ← twofiles_check (chars "f1") 112 buf;
  _ ← sys (Unlink (chars "f1"));
  _ ← sys (Unlink (chars "f2"));
  _ ← line "twofiles ok" [];
  mret buf.

Definition createdelete_make (pid i : Z) : prog unit :=
  let c := if negb (pid =? 0) then 112 else 99 in
  fd ← sys (Open [c; digit i] RDWR_CREATE);
  _ ← fail_if (fd <? 0) "create failed";
  _ ← sys (Close fd);
  when ((0 <? i) && (i mod 2 =? 0)) (
    r ← sys (Unlink [c; digit (i / 2)]);
    fail_if (r <? 0) "unlink failed").

(** One of the two names of a round of the second loop. *)
Definition createdelete_see (c i : Z) : prog unit :=
  let name := [c; digit i] in
  fd ← sys (Open name 0);
  _ ← (if ((i =? 0) || (20 / 2 <=? i)) && (fd <? 0) then fail "oops createdelete %s didn't exist" [AStr name]
       else when (((1 <=? i) && (i <? 20 / 2)) && (0 <=? fd)) (fail "oops createdelete %s did exist" [AStr name]));
  when (0 <=? fd) (_ ← sys (Close fd); mret tt).

Definition createdelete : prog unit :=
  _ ← line "createdelete test" [];
  pid ← sys Fork;
  _ ← fail_if (pid <? 0) "fork failed";
  _ ← each (createdelete_make pid) (upto 20);
  _ ← (if pid =? 0 then exit else _ ← sys Wait; mret tt);
  _ ← each (fun i => _ ← createdelete_see 112 i; createdelete_see 99 i) (upto 20);
  _ ← each (fun i => _ ← sys (Unlink [112; digit i]); _ ← sys (Unlink [99; digit i]); mret tt) (upto 20);
  line "createdelete ok" [].

Definition unlinkread (buf : list Z) : prog (list Z) :=
  let name := chars "unlinkread" in
  _ ← line "unlinkread test" [];
  fd ← sys (Open name RDWR_CREATE);
  _ ← fail_if (fd <? 0) "create unlinkread failed";
  _ ← sys (Write fd (chars "hello"));
  _ ← sys (Close fd);
  fd ← sys (Open name O_RDWR);
  _ ← fail_if (fd <? 0) "open unlinkread failed";
  r ← sys (Unlink name);
  _ ← fail_if (negb (r =? 0)) "unlink unlinkread failed";
  fd1 ← sys (Open name RDWR_CREATE);
  _ ← sys (Write fd1 (chars "yyy"));
  _ ← sys (Close fd1);
  r ← sys (Read fd SIZEOF_BUF);
  let buf := into buf r.2 in
  _ ← when (negb (r.1 =? 5)) (_ ← printf 1 "unlinkread read failed" []; exit);
  _ ← fail_if (negb (char_at buf 0 =? 104)) "unlinkread wrong data";
  w ← sys (Write fd (take 10 buf));
  _ ← fail_if (negb (w =? 10)) "unlinkread write failed";
  _ ← sys (Close fd);
  _ ← sys (Unlink name);
  _ ← line "unlinkread ok" [];
  mret buf.

Definition linktest (buf : list Z) : prog (list Z) :=
  _ ← line "linktest" [];
  _ ← sys (Unlink (chars "lf1"));
  _ ← sys (Unlink (chars "lf2"));
  fd ← sys (Open (chars "lf1") RDWR_CREATE);
  _ ← fail_if (fd <? 0) "create lf1 failed";
  w ← sys (Write fd (chars "hello"));
  _ ← fail_if (negb (w =? 5)) "write lf1 failed";
  _ ← sys (Close fd);
  r ← sys (Link (chars "lf1") (chars "lf2"));
  _ ← fail_if (r <? 0) "link lf1 lf2 failed";
  _ ← sys (Unlink (chars "lf1"));
  r ← sys (Open (chars "lf1") 0);
  _ ← fail_if (0 <=? r) "unlinked lf1 but it is still there!";
  fd ← sys (Open (chars "lf2") 0);
  _ ← fail_if (fd <? 0) "open lf2 failed";
  r ← sys (Read fd SIZEOF_BUF);
  let buf := into buf r.2 in
  _ ← fail_if (negb (r.1 =? 5)) "read lf2 failed";
  _ ← sys (Close fd);
  r ← sys (Link (chars "lf2") (chars "lf2"));
  _ ← fail_if (0 <=? r) "link lf2 lf2 succeeded! oops";
  _ ← sys (Unlink (chars "lf2"));
  r ← sys (Link (chars "lf2") (chars "lf1"));
  _ ← fail_if (0 <=? r) "link non-existant succeeded! oops";
  r ← sys (Link (chars ".") (chars "lf1"));
  _ ← fail_if (0 <=? r) "link . lf1 succeeded! oops";
  _ ← line "linktest ok" [];
  mret buf.

(** *** concreate *)

Definition concreate_make (i : Z) : prog unit :=
  let file := [67; digit i] in
  _ ← sys (Unlink file);
  pid ← sys Fork;
  _ ← (if negb (pid =? 0) && (i mod 3 =? 1) then _ ← sys (Link (chars "C0") file); mret tt
       else if (pid =? 0) && (i mod 5 =? 1) then _ ← sys (Link (chars "C0") file); mret tt
       else
         fd ← sys (Open file RDWR_CREATE);
         _ ← when (fd <? 0) (fail "concreate create %s failed" [AStr file]);
         _ ← sys (Close fd); mret tt);
  if pid =? 0 then exit else _ ← sys Wait; mret tt.

(** One entry of the directory, which a read brings as a whole; [fa] has the files that have
    been seen. *)
Definition concreate_entry (fd : Z) (s : list bool * Z) : prog (list bool * Z + Z) :=
  let '(fa, n) := s in
  r ← sys (Read fd 16);
  if r.1 <=? 0 then mret (inr n) else
  let de := r.2 in
  if rd16 de 0 =? 0 then mret (inl (fa, n)) else
  if (byte_at de 2 =? 67) && (byte_at de 4 =? 0) then
    let name := cut (Z.to_nat DIRSIZ) (drop 2 de) in
    let i := sc (byte_at de 3) - 48 in
    _ ← when ((i <? 0) || (40 <=? i)) (fail "concreate weird file %s" [AStr name]);
    _ ← when (default false (fa !! Z.to_nat i)) (fail "concreate duplicate file %s" [AStr name]);
    mret (inl (<[Z.to_nat i := true]> fa, n + 1))
  else mret (inl (fa, n)).

(** [close(open(file, 0));] *)
Definition open_close (file : list Z) : prog unit := fd ← sys (Open file 0); _ ← sys (Close fd); mret tt.

Definition concreate_remove (i : Z) : prog unit :=
  let file := [67; digit i] in
  pid ← sys Fork;
  _ ← fail_if (pid <? 0) "fork failed";
  _ ← (if ((i mod 3 =? 0) && (pid =? 0)) || ((i mod 3 =? 1) && negb (pid =? 0)) then each (fun _ => open_close file) (upto 4)
       else each (fun _ => _ ← sys (Unlink file); mret tt) (upto 4));
  if pid =? 0 then exit else _ ← sys Wait; mret tt.

Definition concreate : prog unit :=
  _ ← line "concreate test" [];
  _ ← each concreate_make (upto 40);
  fd ← sys (Open (chars ".") 0);
  n ← ITree.iter (concreate_entry fd) (replicate 40 false, 0);
  _ ← sys (Close fd);
  _ ← fail_if (negb (n =? 40)) "concreate not enough files in directory listing";
  _ ← each concreate_remove (upto 40);
  line "concreate ok" [].

Fixpoint linkunlink_loop (rounds : nat) (x : Z) : prog unit :=
  match rounds with
  | O => mret tt
  | S rounds =>
      let x := u32 (x * 1103515245 + 12345) in
      _ ← (if x mod 3 =? 0 then fd ← sys (Open (chars "x") RDWR_CREATE); _ ← sys (Close fd); mret tt
           else if x mod 3 =? 1 then _ ← sys (Link (chars "cat") (chars "x")); mret tt
           else _ ← sys (Unlink (chars "x")); mret tt);
      linkunlink_loop rounds x
  end.

Definition linkunlink : prog unit :=
  _ ← line "linkunlink test" [];
  _ ← sys (Unlink (chars "x"));
  pid ← sys Fork;
  _ ← fail_if (pid <? 0) "fork failed";
  _ ← linkunlink_loop 100 (if negb (pid =? 0) then 1 else 97);
  _ ← (if negb (pid =? 0) then _ ← sys Wait; mret tt else exit);
  line "linkunlink ok" [].

(** ** Directories *)

(** The names of the links: ['x'], two digits in base 64. *)
Definition bigdir_name (i : Z) : list Z := [120; digit (i / 64); digit (i mod 64)].

Definition bigdir : prog unit :=
  _ ← line "bigdir test" [];
  _ ← sys (Unlink (chars "bd"));
  fd ← sys (Open (chars "bd") O_CREATE);
  _ ← fail_if (fd <? 0) "bigdir create failed";
  _ ← sys (Close fd);
  _ ← each (fun i => r ← sys (Link (chars "bd") (bigdir_name i)); fail_if (negb (r =? 0)) "bigdir link failed") (upto 500);
  _ ← sys (Unlink (chars "bd"));
  _ ← each (fun i => r ← sys (Unlink (bigdir_name i));
      when (negb (r =? 0)) (_ ← printf 1 "bigdir unlink failed" []; exit)) (upto 500);
  line "bigdir ok" [].

(** [subdir] up to the first [chdir] ... *)
Definition subdir_make (buf : list Z) : prog (list Z) :=
  _ ← sys (Unlink (chars "ff"));
  r ← sys (Mkdir (chars "dd"));
  _ ← fail_if (negb (r =? 0)) "subdir mkdir dd failed";
  fd ← sys (Open (chars "dd/ff") RDWR_CREATE);
  _ ← fail_if (fd <? 0) "create dd/ff failed";
  _ ← sys (Write fd (chars "ff"));
  _ ← sys (Close fd);
  r ← sys (Unlink (chars "dd"));
  _ ← fail_if (0 <=? r) "unlink dd (non-empty dir) succeeded!";
  r ← sys (Mkdir (chars "/dd/dd"));
  _ ← fail_if (negb (r =? 0)) "subdir mkdir dd/dd failed";
  fd ← sys (Open (chars "dd/dd/ff") RDWR_CREATE);
  _ ← fail_if (fd <? 0) "create dd/dd/ff failed";
  _ ← sys (Write fd (chars "FF"));
  _ ← sys (Close fd);
  fd ← sys (Open (chars "dd/dd/../ff") 0);
  _ ← fail_if (fd <? 0) "open dd/dd/../ff failed";
  cc ← sys (Read fd SIZEOF_BUF);
  let buf := into buf cc.2 in
  _ ← fail_if (negb (cc.1 =? 2) || negb (char_at buf 0 =? 102)) "dd/dd/../ff wrong content";
  _ ← sys (Close fd);
  r ← sys (Link (chars "dd/dd/ff") (chars "dd/dd/ffff"));
  _ ← fail_if (negb (r =? 0)) "link dd/dd/ff dd/dd/ffff failed";
  r ← sys (Unlink (chars "dd/dd/ff"));
  _ ← fail_if (negb (r =? 0)) "unlink dd/dd/ff failed";
  r ← sys (Open (chars "dd/dd/ff") O_RDONLY);
  _ ← fail_if (0 <=? r) "open (unlinked) dd/dd/ff succeeded";
  mret buf.

(** ... the [chdir]s and what follows them ... *)
Definition subdir_move (buf : list Z) : prog (list Z) :=
  r ← sys (Chdir (chars "dd"));
  _ ← fail_if (negb (r =? 0)) "chdir dd failed";
  r ← sys (Chdir (chars "dd/../../dd"));
  _ ← fail_if (negb (r =? 0)) "chdir dd/../../dd failed";
  r ← sys (Chdir (chars "dd/../../../dd"));
  _ ← fail_if (negb (r =? 0)) "chdir dd/../../dd failed";
  r ← sys (Chdir (chars "./.."));
  _ ← fail_if (negb (r =? 0)) "chdir ./.. failed";
  fd ← sys (Open (chars "dd/dd/ffff") 0);
  _ ← fail_if (fd <? 0) "open dd/dd/ffff failed";
  r ← sys (Read fd SIZEOF_BUF);
  let buf := into buf r.2 in
  _ ← fail_if (negb (r.1 =? 2)) "read dd/dd/ffff wrong len";
  _ ← sys (Close fd);
  mret buf.

(** ... the calls that must fail ... *)
Definition subdir_wrong : prog unit :=
  r ← sys (Open (chars "dd/dd/ff") O_RDONLY);
  _ ← fail_if (0 <=? r) "open (unlinked) dd/dd/ff succeeded!";
  r ← sys (Open (chars "dd/ff/ff") RDWR_CREATE);
  _ ← fail_if (0 <=? r) "create dd/ff/ff succeeded!";
  r ← sys (Open (chars "dd/xx/ff") RDWR_CREATE);
  _ ← fail_if (0 <=? r) "create dd/xx/ff succeeded!";
  r ← sys (Open (chars "dd") O_CREATE);
  _ ← fail_if (0 <=? r) "create dd succeeded!";
  r ← sys (Open (chars "dd") O_RDWR);
  _ ← fail_if (0 <=? r) "open dd rdwr succeeded!";
  r ← sys (Open (chars "dd") O_WRONLY);
  _ ← fail_if (0 <=? r) "open dd wronly succeeded!";
  r ← sys (Link (chars "dd/ff/ff") (chars "dd/dd/xx"));
  _ ← fail_if (r =? 0) "link dd/ff/ff dd/dd/xx succeeded!";
  r ← sys (Link (chars "dd/xx/ff") (chars "dd/dd/xx"));
  _ ← fail_if (r =? 0) "link dd/xx/ff dd/dd/xx succeeded!";
  r ← sys (Link (chars "dd/ff") (chars "dd/dd/ffff"));
  _ ← fail_if (r =? 0) "link dd/ff dd/dd/ffff succeeded!";
  r ← sys (Mkdir (chars "dd/ff/ff"));
  _ ← fail_if (r =? 0) "mkdir dd/ff/ff succeeded!";
  r ← sys (Mkdir (chars "dd/xx/ff"));
  _ ← fail_if (r =? 0) "mkdir dd/xx/ff succeeded!";
  r ← sys (Mkdir (chars "dd/dd/ffff"));
  _ ← fail_if (r =? 0) "mkdir dd/dd/ffff succeeded!";
  r ← sys (Unlink (chars "dd/xx/ff"));
  _ ← fail_if (r =? 0) "unlink dd/xx/ff succeeded!";
  r ← sys (Unlink (chars "dd/ff/ff"));
  _ ← fail_if (r =? 0) "unlink dd/ff/ff succeeded!";
  r ← sys (Chdir (chars "dd/ff"));
  _ ← fail_if (r =? 0) "chdir dd/ff succeeded!";
  r ← sys (Chdir (chars "dd/xx"));
  fail_if (r =? 0) "chdir dd/xx succeeded!".

(** ... and the end. *)
Definition subdir_remove : prog unit :=
  r ← sys (Unlink (chars "dd/dd/ffff"));
  _ ← fail_if (negb (r =? 0)) "unlink dd/dd/ff failed";
  r ← sys (Unlink (chars "dd/ff"));
  _ ← fail_if (negb (r =? 0)) "unlink dd/ff failed";
  r ← sys (Unlink (chars "dd"));
  _ ← fail_if (r =? 0) "unlink non-empty dd succeeded!";
  r ← sys (Unlink (chars "dd/dd"));
  _ ← fail_if (r <? 0) "unlink dd/dd failed";
  r ← sys (Unlink (chars "dd"));
  fail_if (r <? 0) "unlink dd failed".

Definition subdir (buf : list Z) : prog (list Z) :=
  _ ← line "subdir test" [];
  buf ← subdir_make buf;
  buf ← subdir_move buf;
  _ ← subdir_wrong;
  _ ← subdir_remove;
  _ ← line "subdir ok" [];
  mret buf.

(** ** Writes larger than the log, files larger than twelve blocks *)

Definition bigwrite_write (fd sz : Z) (buf : list Z) : prog unit :=
  cc ← sys (Write fd (take (Z.to_nat sz) buf));
  when (negb (cc =? sz)) (fail "write(%d) ret %d" [ANum sz; ANum cc]).

Definition bigwrite_size (buf : list Z) (sz : Z) : prog unit :=
  fd ← sys (Open (chars "bigwrite") RDWR_CREATE);
  _ ← fail_if (fd <? 0) "cannot create bigwrite";
  _ ← bigwrite_write fd sz buf;
  _ ← bigwrite_write fd sz buf;
  _ ← sys (Close fd);
  _ ← sys (Unlink (chars "bigwrite"));
  mret tt.

(** [for(sz = 499; sz < 12*512; sz += 471)] *)
Definition bigwrite (buf : list Z) : prog unit :=
  _ ← line "bigwrite test" [];
  _ ← sys (Unlink (chars "bigwrite"));
  _ ← each (fun i => bigwrite_size buf (499 + 471 * i)) (upto 12);
  line "bigwrite ok" [].

Fixpoint bigfile_write (rounds : nat) (fd i : Z) (buf : list Z) : prog (list Z) :=
  match rounds with
  | O => mret buf
  | S rounds =>
      let buf := fill buf i 600 in
      w ← sys (Write fd (take 600 buf));
      _ ← fail_if (negb (w =? 600)) "write bigfile failed";
      bigfile_write rounds fd (i + 1) buf
  end.

Definition bigfile_read (fd : Z) (s : Z * Z * list Z) : prog (Z * Z * list Z + Z * list Z) :=
  let '(i, total, buf) := s in
  cc ← sys (Read fd 300);
  let buf := into buf cc.2 in
  _ ← fail_if (cc.1 <? 0) "read bigfile failed";
  if cc.1 =? 0 then mret (inr (total, buf)) else
  _ ← fail_if (negb (cc.1 =? 300)) "short read bigfile";
  _ ← fail_if (negb (char_at buf 0 =? i / 2) || negb (char_at buf 299 =? i / 2)) "read bigfile wrong data";
  mret (inl (i + 1, total + cc.1, buf)).

Definition bigfile (buf : list Z) : prog (list Z) :=
  _ ← line "bigfile test" [];
  _ ← sys (Unlink (chars "bigfile"));
  fd ← sys (Open (chars "bigfile") RDWR_CREATE);
  _ ← when (fd <? 0) (_ ← printf 1 "cannot create bigfile" []; exit);
  buf ← bigfile_write 20 fd 0 buf;
  _ ← sys (Close fd);
  fd ← sys (Open (chars "bigfile") 0);
  _ ← fail_if (fd <? 0) "cannot open bigfile";
  r ← ITree.iter (bigfile_read fd) (0, 0, buf);
  _ ← sys (Close fd);
  _ ← fail_if (negb (r.1 =? 20 * 600)) "read bigfile wrong total";
  _ ← sys (Unlink (chars "bigfile"));
  _ ← line "bigfile test ok" [];
  mret r.2.

Definition fourteen : prog unit :=
  _ ← line "fourteen test" [];
  r ← sys (Mkdir (chars "12345678901234"));
  _ ← fail_if (negb (r =? 0)) "mkdir 12345678901234 failed";
  r ← sys (Mkdir (chars "12345678901234/123456789012345"));
  _ ← fail_if (negb (r =? 0)) "mkdir 12345678901234/123456789012345 failed";
  fd ← sys (Open (chars "123456789012345/123456789012345/123456789012345") O_CREATE);
  _ ← fail_if (fd <? 0) "create 123456789012345/123456789012345/123456789012345 failed";
  _ ← sys (Close fd);
  fd ← sys (Open (chars "12345678901234/12345678901234/12345678901234") 0);
  _ ← fail_if (fd <? 0) "open 12345678901234/12345678901234/12345678901234 failed";
  _ ← sys (Close fd);
  r ← sys (Mkdir (chars "12345678901234/12345678901234"));
  _ ← fail_if (r =? 0) "mkdir 12345678901234/12345678901234 succeeded!";
  r ← sys (Mkdir (chars "123456789012345/12345678901234"));
  _ ← fail_if (r =? 0) "mkdir 12345678901234/123456789012345 succeeded!";
  line "fourteen ok" [].

Definition rmdot : prog unit :=
  _ ← line "rmdot test" [];
  r ← sys (Mkdir (chars "dots"));
  _ ← fail_if (negb (r =? 0)) "mkdir dots failed";
  r ← sys (Chdir (chars "dots"));
  _ ← fail_if (negb (r =? 0)) "chdir dots failed";
  r ← sys (Unlink (chars "."));
  _ ← fail_if (r =? 0) "rm . worked!";
  r ← sys (Unlink (chars ".."));
  _ ← fail_if (r =? 0) "rm .. worked!";
  r ← sys (Chdir (chars "/"));
  _ ← fail_if (negb (r =? 0)) "chdir / failed";
  r ← sys (Unlink (chars "dots/."));
  _ ← fail_if (r =? 0) "unlink dots/. worked!";
  r ← sys (Unlink (chars "dots/.."));
  _ ← fail_if (r =? 0) "unlink dots/.. worked!";
  r ← sys (Unlink (chars "dots"));
  _ ← fail_if (negb (r =? 0)) "unlink dots failed!";
  line "rmdot ok" [].

Definition dirfile : prog unit :=
  _ ← line "dir vs file" [];
  fd ← sys (Open (chars "dirfile") O_CREATE);
  _ ← fail_if (fd <? 0) "create dirfile failed";
  _ ← sys (Close fd);
  r ← sys (Chdir (chars "dirfile"));
  _ ← fail_if (r =? 0) "chdir dirfile succeeded!";
  fd ← sys (Open (chars "dirfile/xx") 0);
  _ ← fail_if (0 <=? fd) "create dirfile/xx succeeded!";
  fd ← sys (Open (chars "dirfile/xx") O_CREATE);
  _ ← fail_if (0 <=? fd) "create dirfile/xx succeeded!";
  r ← sys (Mkdir (chars "dirfile/xx"));
  _ ← fail_if (r =? 0) "mkdir dirfile/xx succeeded!";
  r ← sys (Unlink (chars "dirfile/xx"));
  _ ← fail_if (r =? 0) "unlink dirfile/xx succeeded!";
  r ← sys (Link (chars "README") (chars "dirfile/xx"));
  _ ← fail_if (r =? 0) "link to dirfile/xx succeeded!";
  r ← sys (Unlink (chars "dirfile"));
  _ ← fail_if (negb (r =? 0)) "unlink dirfile failed!";
  fd ← sys (Open (chars ".") O_RDWR);
  _ ← fail_if (0 <=? fd) "open . for writing succeeded!";
  fd ← sys (Open (chars ".") 0);
  w ← sys (Write fd (chars "x"));
  _ ← fail_if (0 <? w) "write . succeeded!";
  _ ← sys (Close fd);
  line "dir vs file OK" [].

Definition close_if (fd : Z) : prog unit := when (0 <=? fd) (_ ← sys (Close fd); mret tt).

Definition iref_round (_ : Z) : prog unit :=
  r ← sys (Mkdir (chars "irefd"));
  _ ← fail_if (negb (r =? 0)) "mkdir irefd failed";
  r ← sys (Chdir (chars "irefd"));
  _ ← fail_if (negb (r =? 0)) "chdir irefd failed";
  _ ← sys (Mkdir []);
  _ ← sys (Link (chars "README") []);
  fd ← sys (Open [] O_CREATE);
  _ ← close_if fd;
  fd ← sys (Open (chars "xx") O_CREATE);
  _ ← close_if fd;
  _ ← sys (Unlink (chars "xx"));
  mret tt.

Definition iref : prog unit :=
  _ ← line "empty file name" [];
  _ ← each iref_round (upto 51);
  _ ← sys (Chdir (chars "/"));
  line "empty file name OK" [].

(** ** Processes and memory *)

(** [for(n=0; n<1000; n++)]: the number of children. *)
Fixpoint forktest_fork (rounds : nat) (n : Z) : prog Z :=
  match rounds with
  | O => mret n
  | S rounds =>
      pid ← sys Fork;
      if pid <? 0 then mret n else
      if pid =? 0 then exit else
      forktest_fork rounds (n + 1)
  end.

Fixpoint forktest_wait (n : nat) : prog unit :=
  match n with
  | O => mret tt
  | S n => r ← sys Wait; _ ← fail_if (r <? 0) "wait stopped early"; forktest_wait n
  end.

Definition forktest : prog unit :=
  _ ← line "fork test" [];
  n ← forktest_fork 1000 0;
  _ ← fail_if (n =? 1000) "fork claimed to work 1000 times!";
  _ ← forktest_wait (Z.to_nat n);
  r ← sys Wait;
  _ ← fail_if (negb (r =? -1)) "wait got too many";
  line "fork test OK" [].

(** *** sbrktest *)

Definition BIG : Z := 100 * 1024 * 1024.
Definition FAILED : Z := 0xffffffff.

(** can one sbrk() less than a page?  It returns [a]. *)
Fixpoint sbrk_bytes (rounds : nat) (i a : Z) : prog Z :=
  match rounds with
  | O => mret a
  | S rounds =>
      b ← sys (Sbrk 1);
      _ ← when (negb (b =? a)) (fail "sbrk test failed %d %x %x" [ANum i; ANum a; ANum b]);
      _ ← sys (Store b 1);
      sbrk_bytes rounds (i + 1) (u32 (b + 1))
  end.

Definition sbrk_small : prog unit :=
  a ← sys (Sbrk 0);
  a ← sbrk_bytes 5000 0 a;
  pid ← sys Fork;
  _ ← fail_if (pid <? 0) "sbrk test fork failed";
  _ ← sys (Sbrk 1);
  c ← sys (Sbrk 1);
  _ ← fail_if (negb (c =? u32 (a + 1))) "sbrk test failed post-fork";
  if pid =? 0 then exit else _ ← sys Wait; mret tt.

(** can one grow address space to something big, de-allocate, re-allocate? *)
Definition sbrk_big (oldbrk : Z) : prog unit :=
  a ← sys (Sbrk 0);
  p ← sys (Sbrk (s32 (BIG - a)));
  _ ← fail_if (negb (p =? a)) "sbrk test failed to grow big address space; enough phys mem?";
  let lastaddr := BIG - 1 in
  _ ← sys (Store lastaddr 99);
  a ← sys (Sbrk 0);
  c ← sys (Sbrk (-4096));
  _ ← fail_if (c =? FAILED) "sbrk could not deallocate";
  c ← sys (Sbrk 0);
  _ ← when (negb (c =? u32 (a - 4096))) (fail "sbrk deallocation produced wrong address, a %x c %x" [ANum a; ANum c]);
  a ← sys (Sbrk 0);
  c ← sys (Sbrk 4096);
  wrong ← (if negb (c =? a) then mret true else x ← sys (Sbrk 0); mret (negb (x =? u32 (a + 4096))));
  _ ← when wrong (fail "sbrk re-allocation failed, a %x c %x" [ANum a; ANum c]);
  v ← sys (Load lastaddr);
  _ ← fail_if (v =? 99) "sbrk de-allocation didn't really deallocate";
  a ← sys (Sbrk 0);
  x ← sys (Sbrk 0);
  c ← sys (Sbrk (s32 (- (x - oldbrk))));
  when (negb (c =? a)) (fail "sbrk downsize failed, a %x c %x" [ANum a; ANum c]).

(** can we read the kernel's memory?  One address. *)
Definition sbrk_kernel (a : Z) : prog unit :=
  ppid ← sys Getpid;
  pid ← sys Fork;
  _ ← fail_if (pid <? 0) "fork failed";
  _ ← when (pid =? 0) (
    v ← sys (Load a);
    _ ← line "oops could read %x = %x" [ANum a; ANum (sc v)];
    _ ← sys (Kill ppid);
    exit);
  _ ← sys Wait;
  mret tt.

(** The child that allocates a lot of memory and sits around until killed. *)
Definition sbrk_hog (fd1 : Z) : prog Z :=
  x ← sys (Sbrk 0);
  _ ← sys (Sbrk (s32 (BIG - x)));
  _ ← sys (Write fd1 (chars "x"));
  ITree.iter (fun _ : unit => _ ← sys (Sleep 1000); mret (inl tt)) tt.

Fixpoint sbrk_hogs (rounds : nat) (fd0 fd1 : Z) (pids : list Z) : prog (list Z) :=
  match rounds with
  | O => mret pids
  | S rounds =>
      pid ← sys Fork;
      pid ← (if pid =? 0 then sbrk_hog fd1 else mret pid);
      _ ← when (negb (pid =? -1)) (_ ← sys (Read fd0 1); mret tt);
      sbrk_hogs rounds fd0 fd1 (pids ++ [pid])
  end.

(** if we run the system out of memory, does it clean up the last failed allocation? *)
Definition sbrk_full : prog unit :=
  p ← sys Pipe;
  _ ← fail_if (negb (p.1 =? 0)) "pipe() failed";
  pids ← sbrk_hogs 10 p.2.1 p.2.2 [];
  c ← sys (Sbrk 4096);
  _ ← each (fun pid => when (negb (pid =? -1)) (_ ← sys (Kill pid); _ ← sys Wait; mret tt)) pids;
  fail_if (c =? FAILED) "failed sbrk leaked memory".

Definition sbrktest : prog unit :=
  _ ← line "sbrk test" [];
  oldbrk ← sys (Sbrk 0);
  _ ← sbrk_small;
  _ ← sbrk_big oldbrk;
  _ ← each (fun i => sbrk_kernel (KERNBASE + 50000 * i)) (upto 40);
  _ ← sbrk_full;
  x ← sys (Sbrk 0);
  _ ← when (oldbrk <? x) (x ← sys (Sbrk 0); _ ← sys (Sbrk (s32 (- (x - oldbrk)))); mret tt);
  line "sbrk test OK" [].

(** [uninit] is the array that the loader has made. *)
Definition bsstest (uninit : list Z) : prog unit :=
  _ ← line "bss test" [];
  _ ← fail_if (negb (forallb (fun c => c =? 0) uninit)) "bss test failed";
  line "bss test ok" [].

Definition bigarg : list Z := chars "bigargs test: failed" ++ 10 :: replicate 199 32.

Definition bigargtest : prog unit :=
  _ ← sys (Unlink (chars "bigarg-ok"));
  pid ← sys Fork;
  if pid =? 0 then
    _ ← line "bigarg test" [];
    _ ← sys (Exec (chars "echo") (replicate (Z.to_nat MAXARG - 1) bigarg));
    _ ← line "bigarg test ok" [];
    fd ← sys (Open (chars "bigarg-ok") O_CREATE);
    _ ← sys (Close fd);
    exit
  else
  _ ← fail_if (pid <? 0) "bigargtest: fork failed";
  _ ← sys Wait;
  fd ← sys (Open (chars "bigarg-ok") 0);
  _ ← fail_if (fd <? 0) "bigarg test failed!";
  _ ← sys (Close fd);
  _ ← sys (Unlink (chars "bigarg-ok"));
  mret tt.

(** ** When the file system is full *)

Definition fsfull_name (n : Z) : list Z := [102; digit (n / 1000); digit (n mod 1000 / 100); digit (n mod 100 / 10); digit (n mod 10)].

(** [while(1)]: it returns [total]. *)
Definition fsfull_write (fd : Z) (buf : list Z) (total : Z) : prog (Z + Z) :=
  cc ← sys (Write fd (take 512 buf));
  if cc <? 512 then mret (inr total) else mret (inl (total + cc)).

Definition fsfull_file (buf : list Z) (nfiles : Z) : prog (Z + Z) :=
  let name := fsfull_name nfiles in
  _ ← line "writing %s" [AStr name];
  fd ← sys (Open name RDWR_CREATE);
  if fd <? 0 then _ ← line "open %s failed" [AStr name]; mret (inr nfiles) else
  total ← ITree.iter (fsfull_write fd buf) 0;
  _ ← line "wrote %d bytes" [ANum total];
  _ ← sys (Close fd);
  if total =? 0 then mret (inr nfiles) else mret (inl (nfiles + 1)).

Definition fsfull (buf : list Z) : prog unit :=
  _ ← line "fsfull test" [];
  nfiles ← ITree.iter (fsfull_file buf) 0;
  _ ← each (fun i => _ ← sys (Unlink (fsfull_name (nfiles - i))); mret tt) (upto (Z.to_nat (nfiles + 1)));
  line "fsfull test finished" [].

(** [rand], with the new value of [randstate]. *)
Definition rand (randstate : Z) : Z := u32 (randstate * 1664525 + 1013904223).
