(* ===== verification/UsertestsThm.v ===== *)
(** * The tests of files at work

    A machine with a tree of directories and files in memory, which answers the calls as
    Unix means them, and the tests of [user/usertests.c] that need one process, run on
    it one after the other: each of them goes through and says so. *)

From stdpp Require Import base list numbers strings tactics gmap.
From ITree Require Import ITree.
From Stdlib Require Import Lia Program.Equality.
From S2P Require Import Prelude Params FsState Log Fs PathThm Console Ulib Unix Progs Usertests.

Local Open Scope Z_scope.

(** ** Running by computation *)

Definition is_exit {A} (e : sysE A) : bool := match e with Exit => true | _ => false end.

(** At most [fuel] steps of a program. *)
Fixpoint eval `{U : Unix} {A} (fuel : nat) (t : prog A) (s : os) : option (option A * os) :=
  match fuel with
  | O => None
  | S fuel =>
      match observe t with
      | RetF a => Some (Some a, s)
      | TauF t => eval fuel t s
      | VisF e k =>
          if is_exit e then Some (None, s) else
          match answer _ e s with
          | Some (a, s) => eval fuel (k a) s
          | None => None
          end
      end
  end.

Lemma eval_run `{U : Unix} {A} fuel (t : prog A) s o s' : eval fuel t s = Some (o, s') -> run t s o s'.
Proof.
  revert t s. induction fuel as [|fuel IH]; intros t s H; [done|]. simpl in H. destruct (observe t) as [a|t'|B e k] eqn:Et.
  - injection H as <- <-. by apply run_ret.
  - eapply run_tau; [exact Et|]. by apply IH.
  - destruct (is_exit e) eqn:Ee.
    + dependent destruction e; try done. injection H as <- <-. by eapply run_exit.
    + destruct (answer B e s) as [[a s1]|] eqn:Ea; [|done]. eapply run_call; [exact Et|exact Ea|]. by apply IH.
Qed.

(** ** A tree of files *)

Inductive node := NFile (l : list Z) | NDir (l : list (list Z * nat)).

(** A descriptor: the node with the offset, and whether it may be read and written. *)
Record desc := mkdesc { d_node : nat; d_off : nat; d_read : bool; d_write : bool }.

(** [limit] is the largest number of bytes a file keeps, [tty] what has been written to
    descriptor 1. *)
Record world := mkworld {
  w_limit : nat;
  w_nodes : gmap nat node;
  w_next : nat;
  w_fds : gmap Z desc;
  w_cwd : nat;
  w_tty : list Z
}.

Definition w_set_node (i : nat) (n : node) (w : world) : world :=
  mkworld (w_limit w) (<[i := n]> (w_nodes w)) (w_next w) (w_fds w) (w_cwd w) (w_tty w).
Definition w_set_fds (f : gmap Z desc) (w : world) : world :=
  mkworld (w_limit w) (w_nodes w) (w_next w) f (w_cwd w) (w_tty w).
Definition w_new (n : node) (w : world) : world :=
  mkworld (w_limit w) (<[w_next w := n]> (w_nodes w)) (S (w_next w)) (w_fds w) (w_cwd w) (w_tty w).

Definition dir_at (w : world) (d : nat) : option (list (list Z * nat)) :=
  match w_nodes w !! d with Some (NDir l) => Some l | _ => None end.

Definition in_dir (name : list Z) (l : list (list Z * nat)) : option nat :=
  snd <$> head (filter (fun x => x.1 = name) l).

(** From the node [d] along the names, each cut to [DIRSIZ]. *)
Fixpoint follow (w : world) (d : nat) (els : list (list Z)) : option nat :=
  match els with
  | [] => Some d
  | e :: els => l ← dir_at w d; n ← in_dir (take (Z.to_nat DIRSIZ) e) l; follow w n els
  end.

Definition start_of (w : world) (path : list Z) : nat := if bool_decide (head path = Some SLASH) then 1%nat else w_cwd w.

(** [namei("")] is the current directory, too. *)
Definition find (w : world) (path : list Z) : option nat := follow w (start_of w path) (elements path).

(** The directory of the last element, with its entries and the name. *)
Definition find_parent (w : world) (path : list Z) : option (nat * list (list Z * nat) * list Z) :=
  e ← head (rev (elements path));
  d ← follow w (start_of w path) (removelast (elements path));
  l ← dir_at w d;
  Some (d, l, take (Z.to_nat DIRSIZ) e).

(** *** The calls *)

Definition new_fd (w : world) : option Z := head (filter (fun fd => w_fds w !! fd = None) (upto (Z.to_nat NOFILE))).

(** A descriptor for the node [i], or -1. *)
Definition opened (i : nat) (mode : Z) (w : world) : Z * world :=
  match new_fd w with
  | None => (-1, w)
  | Some fd => (fd, w_set_fds (<[fd := mkdesc i 0 (negb (bset mode O_WRONLY)) (bset mode O_WRONLY || bset mode O_RDWR)]> (w_fds w)) w)
  end.

Definition w_open (path : list Z) (mode : Z) (w : world) : Z * world :=
  if bset mode O_CREATE then
    match find_parent w path with
    | None => (-1, w)
    | Some (d, l, name) =>
        match in_dir name l with
        | Some i => match w_nodes w !! i with Some (NFile _) => opened i mode w | _ => (-1, w) end
        | None => opened (w_next w) mode (w_new (NFile []) (w_set_node d (NDir (l ++ [(name, w_next w)])) w))
        end
    end
  else
    match find w path with
    | None => (-1, w)
    | Some i =>
        match w_nodes w !! i with
        | Some (NDir _) => if mode =? O_RDONLY then opened i mode w else (-1, w)
        | _ => opened i mode w
        end
    end.

Definition w_read (fd n : Z) (w : world) : (Z * list Z) * world :=
  match w_fds w !! fd with
  | Some d =>
      match w_nodes w !! d_node d with
      | Some (NFile l) =>
          if negb (d_read d) then ((-1, []), w) else
          let b := take (Z.to_nat n) (drop (d_off d) l) in
          ((Z.of_nat (length b), b),
           w_set_fds (<[fd := mkdesc (d_node d) (d_off d + length b) (d_read d) (d_write d)]> (w_fds w)) w)
      | _ => ((-1, []), w)
      end
  | None => ((-1, []), w)
  end.

Definition w_write (fd : Z) (b : list Z) (w : world) : Z * world :=
  if fd =? 1 then
    (Z.of_nat (length b), mkworld (w_limit w) (w_nodes w) (w_next w) (w_fds w) (w_cwd w) (rev_append b (w_tty w)))
  else
  match w_fds w !! fd with
  | Some d =>
      match w_nodes w !! d_node d with
      | Some (NFile l) =>
          if negb (d_write d) then (-1, w) else
          let l := take (w_limit w) (take (d_off d) l ++ b ++ drop (d_off d + length b) l) in
          (Z.of_nat (length b),
           w_set_fds (<[fd := mkdesc (d_node d) (d_off d + length b) (d_read d) (d_write d)]> (w_fds w)) (w_set_node (d_node d) (NFile l) w))
      | _ => (-1, w)
      end
  | None => (-1, w)
  end.

Definition w_link (old new : list Z) (w : world) : Z * world :=
  match find w old with
  | Some i =>
      match w_nodes w !! i, find_parent w new with
      | Some (NFile _), Some (d, l, name) =>
          if in_dir name l then (-1, w) else (0, w_set_node d (NDir (l ++ [(name, i)])) w)
      | _, _ => (-1, w)
      end
  | None => (-1, w)
  end.

Definition w_unlink (path : list Z) (w : world) : Z * world :=
  match find_parent w path with
  | Some (d, l, name) =>
      if bool_decide (name = [46]) || bool_decide (name = [46; 46]) then (-1, w) else
      match in_dir name l with
      | Some i =>
          let full := match w_nodes w !! i with Some (NDir m) => (2 <? length m)%nat | _ => false end in
          if full then (-1, w) else (0, w_set_node d (NDir (filter (fun x => x.1 <> name) l)) w)
      | None => (-1, w)
      end
  | None => (-1, w)
  end.

Definition w_mkdir (path : list Z) (w : world) : Z * world :=
  match find_parent w path with
  | Some (d, l, name) =>
      if in_dir name l then (-1, w) else
      let i := w_next w in
      (0, w_new (NDir [([46], i); ([46; 46], d)]) (w_set_node d (NDir (l ++ [(name, i)])) w))
  | None => (-1, w)
  end.

Definition w_chdir (path : list Z) (w : world) : Z * world :=
  match find w path with
  | Some i =>
      match w_nodes w !! i with
      | Some (NDir _) => (0, mkworld (w_limit w) (w_nodes w) (w_next w) (w_fds w) i (w_tty w))
      | _ => (-1, w)
      end
  | None => (-1, w)
  end.

Definition w_close (fd : Z) (w : world) : Z * world :=
  match w_fds w !! fd with Some _ => (0, w_set_fds (delete fd (w_fds w)) w) | None => (-1, w) end.

(** One process: the calls about processes do not return. *)
Definition w_answer A (e : sysE A) : world -> option (A * world) :=
  match e with
  | Open path mode => fun w => Some (w_open path mode w)
  | Close fd => fun w => Some (w_close fd w)
  | Read fd n => fun w => Some (w_read fd n w)
  | Write fd b => fun w => Some (w_write fd b w)
  | Link old new => fun w => Some (w_link old new w)
  | Unlink path => fun w => Some (w_unlink path w)
  | Mkdir path => fun w => Some (w_mkdir path w)
  | Chdir path => fun w => Some (w_chdir path w)
  | _ => fun _ => None
  end.

#[export] Instance World : Unix := mkUnix world w_answer.

(** Programs and a text in the root directory, three descriptors for the terminal. *)
Definition world0 (limit : nat) : world :=
  mkworld limit
    {[ 1%nat := NDir [([46], 1%nat); ([46; 46], 1%nat); (chars "echo", 2%nat); (chars "cat", 3%nat); (chars "README", 4%nat)];
       2%nat := NFile []; 3%nat := NFile []; 4%nat := NFile [] ]} 5
    {[ 0 := mkdesc 0 0 true true; 1 := mkdesc 0 0 true true; 2 := mkdesc 0 0 true true ]} 1 [].

(** ** The tests *)

(** Tests of [main] that need no second process, in its order. *)
Definition file_tests (buf : list Z) : prog (list Z) :=
  _ ← bigwrite buf;
  _ ← opentest;
  buf ← writetest buf;
  _ ← createtest;
  _ ← rmdot;
  _ ← fourteen;
  buf ← bigfile buf;
  buf ← subdir buf;
  buf ← linktest buf;
  buf ← unlinkread buf;
  _ ← dirfile;
  _ ← iref;
  mret buf.

Definition zero_buf : list Z := replicate (Z.to_nat SIZEOF_BUF) 0.
Definition max_file : nat := Z.to_nat (MAXFILE * 512).

(** The lines on the terminal. *)
Fixpoint lines (cur l : list Z) : list (list Z) :=
  match l with
  | [] => []
  | c :: l => if c =? 10 then rev cur :: lines [] l else lines (c :: cur) l
  end.

Definition shown (w : world) : list (list Z) := lines [] (rev (w_tty w)).

Definition ok_lines : list (list Z) := chars <$> [
  "bigwrite test"; "bigwrite ok"; "open test"; "open test ok";
  "small file test"; "creat small succeeded; ok"; "writes ok"; "open small succeeded ok"; "read succeeded ok"; "small file test ok";
  "many creates, followed by unlink test"; "many creates, followed by unlink; ok";
  "rmdot test"; "rmdot ok"; "fourteen test"; "fourteen ok"; "bigfile test"; "bigfile test ok"; "subdir test"; "subdir ok";
  "linktest"; "linktest ok"; "unlinkread test"; "unlinkread ok"; "dir vs file"; "dir vs file OK";
  "empty file name"; "empty file name OK" ]%string.

Definition says (t : prog (list Z)) (w : world) (l : list (list Z)) : bool :=
  match eval (U := World) (Z.to_nat 100000) t w with
  | Some (Some _, w) => bool_decide (shown w = l)
  | _ => false
  end.

Lemma says_run t w l : says t w l = true -> exists buf (w' : world), @run World _ t w (Some buf) w' /\ shown w' = l.
Proof.
  unfold says. destruct (eval (U := World) _ t w) as [[[buf|] w']|] eqn:E; try done. intros H%bool_decide_eq_true_1.
  exists buf, w'. split; [by eapply eval_run|done].
Qed.

(** The tests go through on a Unix file system, and say so. *)
Theorem file_tests_pass :
  exists buf (w : world), @run World _ (file_tests zero_buf) (world0 max_file) (Some buf) w /\ shown w = ok_lines.
Proof. apply says_run. vm_compute. reflexivity. Qed.

(** [writetest1] also goes through on a machine that keeps only the first block
    of a file: one block too few is the only loss it sees. *)
Theorem writetest1_misses_blocks :
  exists buf (w : world), @run World _ (writetest1 zero_buf) (world0 512) (Some buf) w /\
    shown w = [chars "big files test"; chars "big files ok"].
Proof. apply says_run. vm_compute. reflexivity. Qed.
