(* ===== verification/KernelRun.v ===== *)
(** * User programs on the kernel

    A machine for the programs of [Unix] that is the model of the kernel: a call puts
    its arguments on the stack of a process, runs [syscall], and gives the program what
    the kernel has put into [eax] and into its memory.  A disk that [mkfs] has made is
    booted, and [init.c], [cat.c] and tests of [usertests.c] run on it. *)

From stdpp Require Import base list numbers strings tactics gmap functions.
From ITree Require Import ITree.
From Stdlib Require Import Lia.
From S2P Require Import Prelude Params StringC FsState KState Spinlock Mmu Kalloc Sched Bio Log Fs Mkfs Console Pipe ConsoleIn File Proc Syscall Sysfile Trap Ulib Unix Progs Usertests UsertestsThm.

Local Open Scope Z_scope.
Local Open Scope xv6_scope.

(** ** The memory of the process *)

(** Four pages from user address 0 on, behind a page directory with one page table.  The
    arguments of a call are on the stack at address 0, two strings at [0x100] and
    [0x800], data at [0x1000]. *)
Definition PGDIR : Z := 0x400000.
Definition PGTAB : Z := 0x401000.
Definition UPAGES : Z := 0x402000.
Definition USIZE : Z := 0x4000.
Definition STR1 : Z := 0x100.
Definition STR2 : Z := 0x800.
Definition DATA : Z := 0x1000.

Definition word_byte (w o : Z) : Z := u8 (Z.shiftr w (8 * o)).

Definition user_mem (args : list Z) (str1 str2 data : list Z) (a : Z) : Z :=
  let pa := a - KERNBASE in
  if (UPAGES <=? pa) && (pa <? UPAGES + USIZE) then
    let o := pa - UPAGES in
    if o <? STR1 then word_byte (default 0 (args !! Z.to_nat (o / 4 - 1))) (o mod 4)
    else if o <? STR2 then byte_at str1 (o - STR1)
    else if o <? DATA then byte_at str2 (o - STR2)
    else byte_at data (o - DATA)
  else if (PGTAB <=? pa) && (pa <? PGTAB + 16) then
    word_byte (Z.lor (UPAGES + PGSIZE * ((pa - PGTAB) / 4)) 7) (pa mod 4)
  else if (PGDIR <=? pa) && (pa <? PGDIR + 4) then word_byte (Z.lor PGTAB 7) (pa mod 4)
  else 0.

(** ** Calls *)

#[local] Existing Instance ConsoleDev.
#[local] Instance RamDisk : Disk := MemDisk size.

Definition ksyscall : M kst unit := syscall 0 0 0 0.

(** The call with that number; the answer is [eax]. *)
Definition call (num : Z) (args : list Z) (str1 str2 data : list Z) (s : kst) : option (Z * kst) :=
  let s := upd_proc 0 (fun p => set_p_tf (set_tf_esp 0 (set_tf_eax num (p_tf p))) p) s in
  match ksyscall (set_mem (user_mem args str1 str2 data) s) with
  | Ret _ s =>
      match procs s !! 0%nat with
      | Some p => Some (s32 (tf_eax (p_tf p)), s)
      | None => None
      end
  | _ => None
  end.

(** The bytes that a call has put at [DATA]. *)
Definition data_of (n : Z) (s : kst) : list Z := (fun i => mem s (KERNBASE + UPAGES + DATA + i)) <$> seqZ 0 n.

Definition k_answer A (e : sysE A) : kst -> option (A * kst) :=
  match e with
  | Read fd n => fun s => '(r, s) ← call 5 [fd; DATA; n] [] [] [] s; Some ((r, data_of r s), s)
  | Chdir path => call 9 [STR1] path [] []
  | Dup fd => call 10 [fd] [] [] []
  | Getpid => call 11 [] [] [] []
  | Open path mode => call 15 [STR1; mode] path [] []
  | Write fd l => call 16 [fd; DATA; Z.of_nat (length l)] [] [] l
  | Mknod path major minor => call 17 [STR1; major; minor] path [] []
  | Unlink path => call 18 [STR1] path [] []
  | Link old new => call 19 [STR1; STR2] old new []
  | Mkdir path => call 20 [STR1] path [] []
  | Close fd => call 21 [fd] [] [] []
  | Lseek fd off whence => call 22 [fd; off; whence] [] [] []
  | Isatty fd => call 23 [fd] [] [] []
  | Semget id v => call 26 [id; v] [] [] []
  | Semfree id => call 27 [id] [] [] []
  | Semdown id => call 28 [id] [] [] []
  | Semup id => call 29 [id] [] [] []
  | _ => fun _ => None
  end.

#[export] Instance Kernel : Unix := mkUnix kst k_answer.

(** ** Booting *)

(** The initialisations of [main] and [forkret] that concern files, with a process that
    has its memory and the root directory, as [userinit] makes it. *)
Definition boot_files : M kst unit :=
  consoleinit ;;;
  binit ;;;
  fileinit ;;;
  iinit ;;;
  initlog ;;;
  ip <- namei [SLASH] ;;
  modp 0 (set_p_cwd ip).

(** A machine with that disk, a serial port and a free page. *)
Definition FREEPAGE : Z := KERNBASE + 0x410000.

Definition power (dk : Z -> list Z) : kst :=
  set_freelist FREEPAGE (set_mem (user_mem [] [] [] []) (set_cr3 PGDIR (set_curproc (Some 0%nat)
    (upd_proc 0 (fun p => set_p_sz USIZE (set_p_pid 1 (set_p_state RUNNING p)))
      (set_fs (set_uart 1 (fsst0 (fun _ => dk))) kst0))))).

Definition booted (files : list (list Z * list Z)) : option kst :=
  m ← mkfs files;
  match boot_files (power (img m)) with Ret _ s => Some s | _ => None end.

(** A program of the first process, after [init] has opened the console. *)
Definition session {A} (t : prog A) : prog A := (_ ← init_console; t)%stdpp.

(** Whether it ends on a machine with those files, having sent [l] to the serial port. *)
Definition shows {A} (files : list (list Z * list Z)) (fuel : nat) (t : prog A) (l : list Z) : bool :=
  match booted files with
  | Some s => match eval (U := Kernel) fuel (session t) s with
              | Some (_, s) => bool_decide (tty (fs s) = l)
              | None => false
              end
  | None => false
  end.

Lemma shows_run {A} files fuel (t : prog A) l :
  shows files fuel t l = true ->
  exists s r s', booted files = Some s /\ @run Kernel _ (session t) s r s' /\ tty (fs s') = l.
Proof.
  unfold shows. destruct (booted files) as [s|]; [|done].
  destruct (eval (U := Kernel) fuel (session t) s) as [[r s']|] eqn:E; [|done]. intros H%bool_decide_eq_true_1.
  exists s, r, s'. split_and!; [done|by eapply eval_run|done].
Qed.

(** ** Programs at work *)

Definition small_image : list (list Z * list Z) :=
  [(chars "_echo", [1; 2; 3]); (chars "_cat", [4]); (chars "README", chars "read me")].

(** Tests of [usertests.c], then [cat README]. *)
Definition programs : prog unit :=
  (_ ← opentest;
   buf ← linktest zero_buf;
   _ ← unlinkread buf;
   cat_main [chars "cat"; chars "README"])%stdpp.

(** The kernel, booted from a disk that [mkfs] has made, runs the programs: the tests say
    that they are content, and [cat] prints the file. *)
Theorem kernel_runs_programs :
  exists s r s', booted small_image = Some s /\ @run Kernel _ (session programs) s r s' /\
    tty (fs s') = chars "open test
open test ok
linktest
linktest ok
unlinkread test
unlinkread ok
read me".
Proof. apply (shows_run _ (Z.to_nat 10000)). vm_compute. reflexivity. Qed.
