(* ===== verification/Smalltests.v ===== *)
(** * The small tests

    The programs [stressfs.c], [sema-test.c], [sema-prue.c], [quantum-test.c], [lseek-test.c] and
    [zz.c] of [user/], and the tests of semaphores run on the kernel. *)

From stdpp Require Import base list numbers strings tactics.
From ITree Require Import ITree.
From Stdlib Require Import Lia.
From S2P Require Import Prelude Params FsState KState Log PathThm Console Ulib Unix Progs Sysfile Usertests UsertestsThm KernelRun.

Local Open Scope Z_scope.

(** ** stressfs.c *)

(** [for(i = 0; i < 4; i++) if(fork() > 0) break;]: the [i] after the loop. *)
Fixpoint stress_fork (n : nat) (i : Z) : prog Z :=
  match n with
  | O => mret i
  | S n => pid ← sys Fork; if 0 <? pid then mret i else stress_fork n (i + 1)
  end.

Definition stressfs_main : prog unit :=
  _ ← line "stressfs starting" [];
  let data := replicate 512 97 in
  i ← stress_fork 4 0;
  _ ← line "write %d" [ANum i];
  let path := chars "stressfs" ++ [digit i] in
  fd ← sys (Open path RDWR_CREATE);
  _ ← each (fun _ => _ ← sys (Write fd data); mret tt) (upto 20);
  _ ← sys (Close fd);
  _ ← line "read" [];
  fd ← sys (Open path O_RDONLY);
  _ ← each (fun _ => _ ← sys (Read fd 512); mret tt) (upto 20);
  _ ← sys (Close fd);
  _ ← sys Wait;
  exit.

(** ** sema-test.c *)

(** The identifiers of the semaphores, which are variables of the program. *)
Record sems3 := mksems3 { semprod : Z; semcom : Z; sembuff : Z }.

Definition productor (x : sems3) (val : Z) : prog unit :=
  _ ← line "-- INICIA PRODUCTOR --" [];
  _ ← sys (Semdown (semprod x));
  _ ← sys (Semdown (sembuff x));
  let val := s32 (val + 1) in
  _ ← line "-- Produce: %d" [ANum val];
  _ ← sys (Semup (sembuff x));
  _ ← sys (Semup (semcom x));
  line "-- FIN PRODUCTOR --" [].

Definition consumidor (x : sems3) (val : Z) : prog unit :=
  _ ← line "-- INICIA CONSUMIDOR --" [];
  _ ← sys (Semdown (semcom x));
  _ ← sys (Semdown (sembuff x));
  let val := s32 (val - 1) in
  _ ← line "-- Consume: %d" [ANum val];
  _ ← sys (Semup (sembuff x));
  _ ← sys (Semup (semprod x));
  line "-- FIN CONSUMIDOR --" [].

(** The three calls of [semget] in front of the forks. *)
Definition make_sems : prog sems3 :=
  p ← sys (Semget (-1) 4);
  _ ← fail_if (p <? 0) "invalid semprod ";
  c ← sys (Semget (-1) 0);
  _ ← fail_if (c <? 0) "invalid semcom";
  b ← sys (Semget (-1) 1);
  _ ← fail_if (b <? 0) "invalid sembuff";
  mret (mksems3 p c b).

(** What a child does: it gets the semaphores and plays its part. *)
Definition sema_child (hello : string) (x : sems3) (part : prog unit) : prog unit :=
  _ ← line hello [];
  _ ← sys (Semget (semprod x) 0);
  _ ← sys (Semget (semcom x) 0);
  _ ← sys (Semget (sembuff x) 0);
  _ ← part;
  exit.

(** One round of a loop that forks. *)
Definition sema_fork (failed hello : string) (x : sems3) (part : prog unit) : prog unit :=
  pid ← sys Fork;
  _ ← fail_if (pid <? 0) failed;
  when (pid =? 0) (sema_child hello x part).

Definition sema_main : prog unit :=
  let val := 8 in
  _ ← line "-------------------------- VALOR INICIAL: [%d] " [ANum val];
  _ ← line "--- Tamaño de buffer: %d" [ANum 4];
  x ← make_sems;
  _ ← each (fun _ => sema_fork "can't create producer process" " # hijo productor" x (productor x val)) (upto 4);
  _ ← each (fun _ => sema_fork "can't create consumer process" " # hijo consumidor" x (consumidor x val)) (upto 2);
  _ ← each (fun _ => _ ← sys Wait; mret tt) (upto 6);
  _ ← line "-------------------------- VALOR FINAL: [%x]  " [ANum val];
  exit.

(** ** sema-prue.c *)

(** [semget], the number it returns in a message, and the check that it is an identifier. *)
Definition prue_get (v : Z) (log err : string) : prog Z :=
  r ← sys (Semget (-1) v);
  _ ← line log [ANum r];
  _ ← fail_if (r <? 0) err;
  mret r.

Definition test_0 : prog unit :=
  _ ← prue_get 4 "LOG semaforo: %d" "invalid semprod ";
  _ ← prue_get 0 "LOG semaforo: %d" "invalid semcom";
  _ ← prue_get 1 "LOG semaforo: %d" "invalid sembuff";
  _ ← prue_get 5 "LOG: semaforo: %d" "invalid semprueba1";
  r ← sys (Semget (-1) 6);
  _ ← line "LOG: semaforo: %d" [ANum r];
  _ ← fail_if (r =? -2) "ERROR el proceso corriente ya obtuvo el numero maximo de semaforos";
  fail_if (r =? -3) "ERROR no ahi mas semaforos disponibles en el sistema".

Definition prue_create : prog Z :=
  prue_get 4 "El identificador del semaforo creado es: %d" "Error! en la creacion del semaforo".

Definition test_1 : prog unit :=
  _ ← prue_create;
  res ← sys (Semget 1 0);
  _ ← fail_if (res =? -1) "ERROR, el semaforo con ese identificador no esta en uso";
  _ ← fail_if (res =? -2) "ERROR, el proceso ya obtuvo el maximo de semaforos";
  line "El identificador del semaforo obtenido es: %d" [ANum res].

Definition test_2 : prog unit := _ ← prue_create; mret tt.

Definition test_3 : prog unit :=
  _ ← prue_create;
  _ ← sys (Semget 0 4);
  _ ← sys (Semget 0 4);
  _ ← sys (Semget 0 4);
  mret tt.

(** ** quantum-test.c, lseek-test.c, zz.c *)

(** [while(count<1000)], of which [n] rounds are left. *)
Fixpoint quantum_loop (n : nat) (t1 t2 : Z) : prog unit :=
  match n with
  | O => mret tt
  | S n =>
      let display := s32 (t1 + t2) in
      _ ← line "display %d" [ANum display];
      quantum_loop n t2 display
  end.

Definition quantum_main : prog unit := _ ← quantum_loop 998 0 1; exit.

Definition lseek_main : prog unit :=
  fd ← sys (Open (chars "file") RDWR_CREATE);
  _ ← sys (Lseek fd 500 SEEK_CUR);
  _ ← printf fd "stuff

" [];
  _ ← sys (Lseek fd 1000 SEEK_END);
  _ ← printf fd "moar stuff
" [];
  _ ← sys (Close fd);
  exit.

Definition zz_main : prog unit := _ ← line "foo" []; exit.

(** ** On the kernel *)

(** [sema-prue.c]'s test of the limit on a kernel that has just booted: the process gets
    four semaphores and the error -2 for the fifth. *)
Theorem kernel_limits_semaphores :
  exists s r s', booted small_image = Some s /\ @run Kernel _ (session test_0) s r s' /\
    tty (fs s') = chars "LOG semaforo: 0
LOG semaforo: 1
LOG semaforo: 2
LOG: semaforo: 3
LOG: semaforo: -2
ERROR el proceso corriente ya obtuvo el numero maximo de semaforos
".
Proof. apply (shows_run _ (Z.to_nat 10000)). vm_compute. reflexivity. Qed.

(** The parts of [sema-test.c], one after the other: no call blocks. *)
Theorem kernel_runs_semaphores :
  exists s r s', booted small_image = Some s /\
    @run Kernel _ (session (x ← make_sems; _ ← productor x 8; consumidor x 8)) s r s' /\
    tty (fs s') = chars "-- INICIA PRODUCTOR --
-- Produce: 9
-- FIN PRODUCTOR --
-- INICIA CONSUMIDOR --
-- Consume: 7
-- FIN CONSUMIDOR --
".
Proof. apply (shows_run _ (Z.to_nat 10000)). vm_compute. reflexivity. Qed.

(** The start of a file. *)
Definition read_file (name : list Z) (n : Z) : prog (Z * list Z) := fd ← sys (Open name 0); sys (Read fd n).

(** A program that ends in [exit], and then the bytes of a file. *)
Definition leaves (files : list (list Z * list Z)) (fuel : nat) (t : prog unit) (name : list Z) (n : Z) (x : Z * list Z) : bool :=
  match booted files with
  | Some s =>
      match eval (U := Kernel) fuel (session t) s with
      | Some (None, s) =>
          match eval (U := Kernel) fuel (read_file name n) s with
          | Some (Some r, _) => bool_decide (r = x)
          | _ => false
          end
      | _ => false
      end
  | None => false
  end.

Lemma leaves_run files fuel t name n x :
  leaves files fuel t name n x = true ->
  exists s s' s'', booted files = Some s /\ @run Kernel _ (session t) s None s' /\
    @run Kernel _ (read_file name n) s' (Some x) s''.
Proof.
  unfold leaves. destruct (booted files) as [s|]; [|done].
  destruct (eval (U := Kernel) fuel (session t) s) as [[[r|] s']|] eqn:E1; [done| |done].
  destruct (eval (U := Kernel) fuel (read_file name n) s') as [[[r|] s'']|] eqn:E2; [|done..].
  intros ->%bool_decide_eq_true_1. exists s, s', s''. split_and!; [done|by eapply eval_run..].
Qed.

(** What [lseek-test.c] leaves in its file: the kernel has put zeros where [lseek] went past the
    end, through a page of its own. *)
Theorem kernel_lseek_zeros :
  exists s s' s'', booted small_image = Some s /\ @run Kernel _ (session lseek_main) s None s' /\
    @run Kernel _ (read_file (chars "file") 3000) s' (Some (1518,
      replicate 500 0 ++ chars "stuff

" ++ replicate 1000 0 ++ chars "moar stuff
")) s''.
Proof. apply (leaves_run _ (Z.to_nat 10000)). vm_compute. reflexivity. Qed.
