(* ===== verification/Grep.v ===== *)
(** * grep

    [user/grep.c]: the matcher of regular expressions with [^ . * $] and the
    loop over the lines of a file.  Strings are lists of characters without the
    zero byte that ends them. *)

From stdpp Require Import base list numbers strings tactics sets gmap.
From Stdlib Require Import Lia.
From S2P Require Import Prelude StringC.

Local Open Scope Z_scope.

Definition CARET : Z := 94.
Definition DOT : Z := 46.
Definition STAR : Z := 42.
Definition DOLLAR : Z := 36.
Definition NL : Z := 10.

(** ** The matcher *)

(** [matchstar], with [matchhere(re, .)] for the rest of the expression. *)
Fixpoint star_loop (here : list Z -> bool) (c : Z) (text : list Z) : bool :=
  here text ||
  match text with
  | [] => false
  | t :: text => ((t =? c) || (c =? DOT)) && star_loop here c text
  end.

Fixpoint matchhere (re text : list Z) {struct re} : bool :=
  match re with
  | [] => true
  | r0 :: re1 =>
      match re1 with
      | r1 :: re2 =>
          if r1 =? STAR then star_loop (matchhere re2) r0 text
          else match text with
               | t :: text => ((r0 =? DOT) || (r0 =? t)) && matchhere re1 text
               | [] => false
               end
      | [] =>
          if r0 =? DOLLAR then bool_decide (text = [])
          else match text with
               | t :: text => ((r0 =? DOT) || (r0 =? t)) && matchhere re1 text
               | [] => false
               end
      end
  end.

Definition matchstar (c : Z) (re text : list Z) : bool := star_loop (matchhere re) c text.

(** The loop of [match]; the empty string is looked at, too. *)
Fixpoint match_loop (re text : list Z) {struct text} : bool :=
  matchhere re text ||
  match text with
  | [] => false
  | _ :: text => match_loop re text
  end.

Definition grep_match (re text : list Z) : bool :=
  match re with
  | r0 :: re' => if r0 =? CARET then matchhere re' text else match_loop re text
  | [] => match_loop re text
  end.

(** ** What a pattern means *)

Inductive atom := Lit (c : Z) | Any.
Inductive item := One (a : atom) | Many (a : atom).

Definition atom_of (c : Z) : atom := if c =? DOT then Any else Lit c.

(** The items of a pattern after [^], and whether it ends in [$]. *)
Fixpoint items (re : list Z) : list item * bool :=
  match re with
  | [] => ([], false)
  | r0 :: re1 =>
      match re1 with
      | r1 :: re2 =>
          if r1 =? STAR then let '(l, e) := items re2 in (Many (atom_of r0) :: l, e)
          else let '(l, e) := items re1 in (One (atom_of r0) :: l, e)
      | [] => if r0 =? DOLLAR then ([], true) else ([One (atom_of r0)], false)
      end
  end.

Definition atom_ok (a : atom) (c : Z) : Prop :=
  match a with Lit c' => c = c' | Any => True end.

(** The words of a list of items. *)
Fixpoint in_lang (l : list item) (w : list Z) : Prop :=
  match l with
  | [] => w = []
  | One a :: l => exists c w', w = c :: w' /\ atom_ok a c /\ in_lang l w'
  | Many a :: l => exists u w', w = u ++ w' /\ Forall (atom_ok a) u /\ in_lang l w'
  end.

(** A word of the pattern stands in the text, at its beginning after [^] and at
    its end before [$]. *)
Definition occurs (re text : list Z) : Prop :=
  let '(bol, body) := match re with
                      | r0 :: re' => if r0 =? CARET then (true, re') else (false, re)
                      | [] => (false, [])
                      end in
  let '(l, eol) := items body in
  exists pre w post, text = pre ++ w ++ post /\ in_lang l w /\ (bol = true -> pre = []) /\ (eol = true -> post = []).

Lemma atom_of_ok c t : atom_ok (atom_of c) t <-> ((t =? c) || (c =? DOT)) = true.
Proof.
  unfold atom_of, atom_ok. rewrite orb_true_iff, !Z.eqb_eq. destruct (Z.eqb_spec c DOT); naive_solver.
Qed.

Lemma star_loop_ok here c text :
  star_loop here c text = true <->
  exists u rest, text = u ++ rest /\ Forall (atom_ok (atom_of c)) u /\ here rest = true.
Proof.
  induction text as [|t text IH]; simpl; rewrite orb_true_iff.
  - split; [|intros (u & rest & E & _ & H); symmetry in E; apply app_nil in E as [_ ->]; by left].
    intros [H|]; [|done]. by exists [], [].
  - rewrite andb_true_iff, IH, <- atom_of_ok. split.
    + intros [H|(Ht & u & rest & -> & Hu & H)]; [by exists [], (t :: text)|].
      exists (t :: u), rest. split_and!; [done|by constructor|done].
    + intros (u & rest & E & Hu & H). destruct u as [|t' u]; simpl in E; simplify_eq; [by left|].
      right. apply Forall_cons_1 in Hu as [Ht Hu]. split; [done|]. by exists u, rest.
Qed.

(** A prefix of the text is a word, followed by the end where the pattern says so. *)
Definition prefix_word (re text : list Z) : Prop :=
  exists w post, text = w ++ post /\ in_lang (fst (items re)) w /\ (snd (items re) = true -> post = []).

Lemma one_ok r0 l (eol : bool) text here :
  (forall text, here text = true <-> exists w post, text = w ++ post /\ in_lang l w /\ (eol = true -> post = [])) ->
  match text with
  | t :: text => ((r0 =? DOT) || (r0 =? t)) && here text
  | [] => false
  end = true <->
  exists w post, text = w ++ post /\ in_lang (One (atom_of r0) :: l) w /\ (eol = true -> post = []).
Proof.
  intros Hh. destruct text as [|t text].
  - split; [done|]. intros (w & post & E & (c & w' & -> & _) & _). done.
  - rewrite andb_true_iff, Hh, orb_comm, (Z.eqb_sym r0 t), <- atom_of_ok. split.
    + intros (Ht & w & post & -> & Hw & He). exists (t :: w), post. split_and!; [done| |done]. by exists t, w.
    + intros (w & post & E & (c & w' & -> & Hc & Hw) & He). simpl in E. simplify_eq. split; [done|]. by exists w', post.
Qed.

Lemma matchhere_ok re text : matchhere re text = true <-> prefix_word re text.
Proof.
  remember (length re) as n eqn:Hn. revert re text Hn.
  induction n as [n IH] using lt_wf_ind; intros re text ->. unfold prefix_word in *.
  destruct re as [|r0 re1]; simpl.
  { split; [|done]. intros _. by exists [], text. }
  assert (H1 : forall text, matchhere re1 text = true <->
    exists w post, text = w ++ post /\ in_lang (fst (items re1)) w /\ (snd (items re1) = true -> post = [])).
  { intros text'. by apply (IH (length re1)); [simpl; lia|]. }
  destruct re1 as [|r1 re2].
  - destruct (Z.eqb_spec r0 DOLLAR) as [->|Hd].
    + rewrite bool_decide_eq_true. split; [intros ->; by exists [], []|].
      intros (w & post & -> & Hw & He). simpl in Hw. subst w. by rewrite He.
    + apply (one_ok r0 [] false); done.
  - destruct (Z.eqb_spec r1 STAR) as [->|Hs].
    + rewrite star_loop_ok. destruct (items re2) as [l e] eqn:El. simpl.
      assert (H2 : forall text, matchhere re2 text = true <->
        exists w post, text = w ++ post /\ in_lang l w /\ (e = true -> post = [])).
      { intros text'. pose proof (IH (length re2) ltac:(simpl; lia) re2 text' eq_refl) as H. by rewrite El in H. }
      setoid_rewrite H2. split.
      * intros (u & rest & -> & Hu & w & post & -> & Hw & He). exists (u ++ w), post.
        split_and!; [by rewrite app_assoc| |done]. by exists u, w.
      * intros (w & post & -> & (u & w' & -> & Hu & Hw) & He). exists u, (w' ++ post).
        split_and!; [by rewrite app_assoc|done|]. by exists w', post.
    + destruct (items (r1 :: re2)) as [l e] eqn:El. apply (one_ok r0 l e). intros text'. by rewrite H1.
Qed.

Lemma match_loop_ok re text :
  match_loop re text = true <-> exists pre rest, text = pre ++ rest /\ matchhere re rest = true.
Proof.
  induction text as [|t text IH]; simpl; rewrite orb_true_iff.
  - split; [|intros (pre & rest & E & H); symmetry in E; apply app_nil in E as [_ ->]; by left].
    intros [H|]; [|done]. by exists [], [].
  - rewrite IH. split.
    + intros [H|(pre & rest & -> & H)]; [by exists [], (t :: text)|by exists (t :: pre), rest].
    + intros (pre & rest & E & H). destruct pre as [|t' pre]; simpl in E; simplify_eq; [by left|].
      right. by exists pre, rest.
Qed.

(** C35: the backtracking matcher of grep finds exactly the lines in which the
    regular expression occurs: a word of the language of its items, at the
    beginning of the line if the expression starts with [^] and at its end if it
    ends with [$]. *)
Theorem grep_match_correct re text : grep_match re text = true <-> occurs re text.
Proof.
  assert (Hf : forall re, match_loop re text = true <-> let '(l, eol) := items re in
    exists pre w post, text = pre ++ w ++ post /\ in_lang l w /\ (false = true -> pre = []) /\ (eol = true -> post = [])).
  { intros re'. rewrite match_loop_ok. setoid_rewrite matchhere_ok. unfold prefix_word.
    destruct (items re') as [l eol]. simpl. split.
    - intros (pre & rest & -> & w & post & -> & Hw & He). by exists pre, w, post.
    - intros (pre & w & post & -> & Hw & _ & He). exists pre, (w ++ post). split; [done|]. by exists w, post. }
  unfold grep_match, occurs. destruct re as [|r0 re']; [apply Hf|].
  destruct (r0 =? CARET); [|apply Hf]. rewrite matchhere_ok. unfold prefix_word.
  destruct (items re') as [l eol]. simpl. split.
  - intros (w & post & -> & Hw & He). by exists [], w, post.
  - intros (pre & w & post & -> & Hw & -> & He); [|done]. by exists w, post.
Qed.

(** ** The lines of a file *)

Definition BUF : Z := 1024.

(** [strchr] on the characters from a pointer to the end of the array: [None]
    when it runs past the end, [Some None] for the null pointer. *)
Fixpoint strchr (l : list Z) (c : Z) : option (option nat) :=
  match l with
  | [] => None
  | x :: l =>
      if x =? 0 then Some None
      else if x =? c then Some (Some 0%nat)
      else option_map (option_map S) (strchr l c)
  end.

(** Bytes [l] stored at index [i]. *)
Definition store_at (i : nat) (l b : list Z) : list Z := take i b ++ l ++ drop (i + length l) b.

(** The loop over the newlines of the buffer [b] from index [p]. *)
Fixpoint grep_lines (fuel : nat) (pattern b : list Z) (p : nat) (out : list Z) : option (list Z * nat * list Z) :=
  match strchr (drop p b) NL with
  | None => None
  | Some None => Some (b, p, out)
  | Some (Some k) =>
      match fuel with
      | O => None
      | S fuel =>
          let q := (p + k)%nat in
          let b := <[q := 0]> b in
          let line := take k (drop p b) in
          if grep_match pattern line then
            let b := <[q := NL]> b in
            grep_lines fuel pattern b (S q) (out ++ take (S k) (drop p b))
          else grep_lines fuel pattern b (S q) out
      end
  end.

(** One round of the outer loop for the bytes [d] that [read] returns; [m] is the
    number of characters kept from the round before. *)
Definition grep_round (pattern d b : list Z) (m : Z) (out : list Z) : option (list Z * Z * list Z) :=
  if m <? 0 then None else
  let b := store_at (Z.to_nat m) d b in
  let m := m + Z.of_nat (length d) in
  ' (b, p, out) ← grep_lines (length b) pattern b 0 out;
  let m := if (p =? 0)%nat then 0 else m in
  if 0 <? m then
    let m := m - Z.of_nat p in
    Some (store_at 0 (take (Z.to_nat m) (drop p b)) b, m, out)
  else Some (b, m, out).

(** The input arrives in pieces; a read returns at most what it asks for. *)
Fixpoint grep_loop (fuel : nat) (pattern : list Z) (input : list (list Z)) (b : list Z) (m : Z) (out : list Z) :
    option (list Z) :=
  match fuel with
  | O => None
  | S fuel =>
      match input with
      | [] => Some out
      | piece :: input =>
          let n := Z.to_nat (BUF - m) in
          let d := take n piece in
          if bool_decide (d = []) then Some out else
          ' (b, m, out) ← grep_round pattern d b m out;
          let rest := drop n piece in
          grep_loop fuel pattern (if bool_decide (rest = []) then input else rest :: input) b m out
      end
  end.

(** The output of [grep(pattern, fd)] run on a fresh buffer. *)
Definition grep (pattern : list Z) (input : list (list Z)) : option (list Z) :=
  grep_loop (S (length (concat input))) pattern input (replicate (Z.to_nat BUF) 0) 0 [].

(** The lines of a text that end in a newline, and those a pattern selects. *)
Fixpoint lines_of (cur text : list Z) : list (list Z) :=
  match text with
  | [] => []
  | c :: text => if c =? NL then cur :: lines_of [] text else lines_of (cur ++ [c]) text
  end.

Definition selected (pattern text : list Z) : list Z :=
  concat ((fun l => l ++ [NL]) <$> filter (fun l => grep_match pattern l = true) (lines_of [] text)).

Lemma lines_app cur l text :
  NL ∉ l -> lines_of cur (l ++ NL :: text) = (cur ++ l) :: lines_of [] text.
Proof.
  revert cur. induction l as [|c l IH]; intros cur Hl; simpl; [by rewrite app_nil_r|].
  destruct (Z.eqb_spec c NL); [set_solver|]. rewrite IH by set_solver. by rewrite <- app_assoc.
Qed.

Lemma lines_none cur l : NL ∉ l -> lines_of cur l = [].
Proof.
  revert cur. induction l as [|c l IH]; intros cur Hl; simpl; [done|].
  destruct (Z.eqb_spec c NL); [set_solver|]. apply IH. set_solver.
Qed.

Lemma selected_cons pattern l text :
  NL ∉ l -> selected pattern (l ++ NL :: text) =
    (if grep_match pattern l then l ++ [NL] else []) ++ selected pattern text.
Proof.
  intros Hl. unfold selected. rewrite lines_app by done. simpl.
  rewrite filter_cons. destruct (grep_match pattern l); simpl; done.
Qed.

Lemma strchr_none l rest : 0 ∉ l -> NL ∉ l -> strchr (l ++ 0 :: rest) NL = Some None.
Proof.
  induction l as [|c l IH]; intros H0 Hn; simpl; [done|].
  destruct (Z.eqb_spec c 0); [set_solver|]. destruct (Z.eqb_spec c NL); [set_solver|].
  by rewrite IH by set_solver.
Qed.

Lemma strchr_some l rest : 0 ∉ l -> NL ∉ l -> strchr (l ++ NL :: rest) NL = Some (Some (length l)).
Proof.
  induction l as [|c l IH]; intros H0 Hn; simpl; [done|].
  destruct (Z.eqb_spec c 0); [set_solver|]. destruct (Z.eqb_spec c NL); [set_solver|].
  by rewrite IH by set_solver.
Qed.

(** A list with a newline has a first one. *)
Lemma first_newline (l : list Z) : NL ∈ l -> exists a b, l = a ++ NL :: b /\ NL ∉ a.
Proof.
  induction l as [|c l IH]; intros H; [set_solver|]. destruct (decide (c = NL)) as [->|Hc].
  - exists [], l. split; [done|set_solver].
  - destruct IH as (a & b & -> & Ha); [set_solver|]. exists (c :: a), b. split; [done|set_solver].
Qed.

Lemma drop_insert_split (b : list Z) p l x rest y :
  drop p b = l ++ x :: rest -> drop p (<[(p + length l)%nat := y]> b) = l ++ y :: rest.
Proof.
  intros E. assert (Hl : forall i, b !! (p + i)%nat = (l ++ x :: rest) !! i) by (intros i; by rewrite <- E, lookup_drop).
  assert (Hlt : (p + length l < length b)%nat).
  { apply lookup_lt_is_Some_1. rewrite Hl, lookup_app_r, Nat.sub_diag by lia. by eexists. }
  apply list_eq. intros i. rewrite lookup_drop. destruct (decide (i = length l)) as [->|Hi].
  - rewrite list_lookup_insert_eq by done. by rewrite lookup_app_r, Nat.sub_diag by lia.
  - rewrite list_lookup_insert_ne, Hl by lia. destruct (decide (i < length l)%nat).
    + by rewrite !lookup_app_l by lia.
    + rewrite !lookup_app_r by lia. destruct (i - length l)%nat eqn:Ei; [lia|done].
Qed.

Lemma drop_more (b : list Z) p l x rest : drop p b = l ++ x :: rest -> drop (S (p + length l)) b = rest.
Proof.
  intros E. replace (S (p + length l)) with (p + S (length l))%nat by lia. rewrite <- drop_drop, E.
  rewrite drop_app_ge by lia. by replace (S (length l) - length l)%nat with 1%nat by lia.
Qed.

(** The text up to the first zero byte is searched line by line. *)
Lemma grep_lines_ok fuel pattern b p out text rest :
  drop p b = text ++ 0 :: rest -> 0 ∉ text -> (length text <= fuel)%nat ->
  exists b' p', grep_lines fuel pattern b p out = Some (b', p', out ++ selected pattern text).
Proof.
  revert b p out text. induction fuel as [|fuel IH]; intros b p out text Hb H0 Hf.
  - destruct text; [|simpl in Hf; lia]. simpl. rewrite Hb. simpl. exists b, p. by rewrite app_nil_r.
  - destruct (decide (NL ∈ text)) as [(l & text' & -> & Hl)%first_newline|Hn].
    + rewrite <- app_assoc in Hb. simpl in Hb. simpl. rewrite Hb, strchr_some by set_solver.
      rewrite length_app in Hf. simpl in Hf. rewrite (drop_insert_split b p l NL _ 0) by done.
      rewrite take_app_length. rewrite selected_cons by done.
      destruct (grep_match pattern l).
      * rewrite list_insert_insert_eq, (drop_insert_split b p l NL _ NL) by done.
        rewrite (firstn_app (S (length l))), take_ge by lia. replace (S (length l) - length l)%nat with 1%nat by lia.
        edestruct (IH (<[(p + length l)%nat := NL]> b) (S (p + length l)) (out ++ l ++ [NL]) text') as (b' & p' & E);
          [apply (drop_more _ _ l NL), drop_insert_split with NL; exact Hb|set_solver|lia|].
        exists b', p'. simpl. rewrite take_0, E. by rewrite !app_assoc.
      * edestruct (IH (<[(p + length l)%nat := 0]> b) (S (p + length l)) out text') as (b' & p' & E);
          [apply (drop_more _ _ l 0), drop_insert_split with NL; exact Hb|set_solver|lia|].
        by exists b', p'.
    + simpl. rewrite Hb, strchr_none by done. exists b, p. unfold selected. rewrite lines_none by done.
      by rewrite app_nil_r.
Qed.

(** Grep prints the matching lines of a file that fits in its buffer, in
    order and nothing else; a last line without a newline is not looked at. *)
Lemma grep_small_file pattern file :
  0 ∉ file -> Z.of_nat (length file) < BUF -> grep pattern [file] = Some (selected pattern file).
Proof.
  intros H0 Hlen. unfold BUF in *. unfold grep. simpl concat. rewrite app_nil_r. cbn [grep_loop].
  replace (Z.to_nat (BUF - 0)) with 1024%nat by (unfold BUF; lia). rewrite take_ge, drop_ge by lia.
  case_bool_decide as Hf; [by subst|]. rewrite bool_decide_true by done.
  assert (Hpos : (0 < length file)%nat) by (destruct file; [done|simpl; lia]).
  unfold grep_round. rewrite (proj2 (Z.ltb_ge 0 0)) by lia. rewrite Z.add_0_l. change (Z.to_nat 0) with 0%nat.
  set (b := store_at 0 file (replicate (Z.to_nat BUF) 0)).
  assert (Hb : drop 0 b = file ++ 0 :: replicate (1023 - length file) 0).
  { unfold b, store_at. rewrite drop_0, take_0, drop_replicate. simpl app. f_equal. change (Z.to_nat BUF) with 1024%nat.
    by replace (1024 - length file)%nat with (S (1023 - length file)) by lia. }
  destruct (grep_lines_ok (length b) pattern b 0 [] file _ Hb H0) as (b' & p' & ->).
  { rewrite drop_0 in Hb. rewrite Hb, length_app. lia. }
  cbn [mbind option_bind]. destruct (length file); [lia|].
  by destruct (0 <? _).
Qed.

(** When the input arrives in pieces, grep reads on in what earlier pieces
    left in its buffer, which it does not end with a zero byte: here the line
    [b] comes out twice. *)
Theorem grep_rereads_input :
  let input := [[97; NL; 98; NL; 99]; [NL]] in
  grep [98] input = Some [98; NL; 98; NL] /\ selected [98] (concat input) = [98; NL].
Proof. split; vm_compute; reflexivity. Qed.
