(* ===== verification/GrepMain.v ===== *)
(** * grep: the program

    [grep] and [main] of [user/grep.c] over the system calls, with the loops of [Grep]: the
    program that reads pieces of its input and writes line by line prints the text
    that [Grep.grep] computes. *)

From stdpp Require Import base list numbers strings tactics sets.
From ITree Require Import ITree.
From Stdlib Require Import Lia.
From S2P Require Import Prelude Params Console Ulib Unix Progs Grep.

Local Open Scope Z_scope.

(** ** The program *)

(** The inner loop: the buffer and [p] after it; [None] when [strchr] leaves the array. *)
Fixpoint put_lines (fuel : nat) (pattern b : list Z) (p : nat) : prog (option (list Z * nat)) :=
  match strchr (drop p b) NL with
  | None => mret None
  | Some None => mret (Some (b, p))
  | Some (Some k) =>
      match fuel with
      | O => mret None
      | S fuel =>
          let q := (p + k)%nat in
          let b := <[q := 0]> b in
          if grep_match pattern (take k (drop p b)) then
            let b := <[q := NL]> b in
            _ ← sys (Write 1 (take (S k) (drop p b)));
            put_lines fuel pattern b (S q)
          else put_lines fuel pattern b (S q)
      end
  end.

(** One round of [while((n = read(fd, buf+m, sizeof(buf)-m)) > 0)]. *)
Definition file_round (pattern : list Z) (fd : Z) (bm : list Z * Z) : prog ((list Z * Z) + option (list Z)) :=
  let '(b, m) := bm in
  r ← sys (Read fd (BUF - m));
  let '(n, d) := r in
  if n <=? 0 then mret (inr (Some b)) else
  if m <? 0 then mret (inr None) else
  let b := store_at (Z.to_nat m) d b in
  let m := m + n in
  o ← put_lines (length b) pattern b 0;
  match o with
  | None => mret (inr None)
  | Some (b, p) =>
      let m := if (p =? 0)%nat then 0 else m in
      if 0 <? m then
        let m := m - Z.of_nat p in
        mret (inl (store_at 0 (take (Z.to_nat m) (drop p b)) b, m))
      else mret (inl (b, m))
  end.

(** [grep(pattern, fd)] with what is in [buf]: what it leaves there. *)
Definition grep_file (pattern : list Z) (fd : Z) (b : list Z) : prog (option (list Z)) :=
  ITree.iter (file_round pattern fd) (b, 0).

(** The files of the command line; a run that leaves the array is undefined from there on. *)
Fixpoint grep_files (pattern : list Z) (l : list (list Z)) (b : list Z) : prog unit :=
  match l with
  | [] => mret tt
  | name :: l =>
      fd ← sys (Open name 0);
      if fd <? 0 then _ ← printf 1 "grep: cannot open %s
" [AStr name]; exit else
      o ← grep_file pattern fd b;
      match o with
      | None => mret tt
      | Some b => _ ← sys (Close fd); grep_files pattern l b
      end
  end.

Definition zeros : list Z := replicate (Z.to_nat BUF) 0.

Definition grep_main (argv : list (list Z)) : prog unit :=
  match argv with
  | _ :: pattern :: [] => _ ← grep_file pattern 0 zeros; exit
  | _ :: pattern :: files => _ ← grep_files pattern files zeros; exit
  | _ => _ ← printf 2 "usage: grep pattern [file ...]
" []; exit
  end.

(** ** It prints what [Grep.grep] computes *)

(** A machine with one input, the descriptor [source], that arrives in pieces: every read
    gives what there is of the next piece, and 0 after the last one.  Descriptor 3 is
    the file that the program opens, descriptor 1 its output, which takes every write
    whole. *)
Record pipe_st := mkpipe { source : Z; pieces : list (list Z); printed : list Z }.

Definition p_answer A (e : sysE A) : pipe_st -> option (A * pipe_st) :=
  match e with
  | Read fd n => fun s =>
      if negb (fd =? source s) then None else
      match pieces s with
      | [] => Some ((0, []), s)
      | x :: l =>
          let n := Z.to_nat n in
          Some ((Z.of_nat (length (take n x)), take n x),
                mkpipe (source s) (if bool_decide (drop n x = []) then l else drop n x :: l) (printed s))
      end
  | Write fd l => fun s =>
      if negb (fd =? 1) then None else
      Some (Z.of_nat (length l), mkpipe (source s) (pieces s) (printed s ++ l))
  | Open _ mode => fun s => if negb (mode =? 0) then None else Some (3, s)
  | Close fd => fun s => if negb (fd =? 3) then None else Some (0, s)
  | _ => fun _ => None
  end.

#[local] Instance Piped : Unix := mkUnix pipe_st p_answer.

(** A read from the input. *)
Lemma run_input fd n i out :
  run (sys (Read fd n)) (mkpipe fd i out)
    (Some (match i with [] => (0, []) | x :: _ => (Z.of_nat (length (take (Z.to_nat n) x)), take (Z.to_nat n) x) end))
    (mkpipe fd (match i with [] => [] | x :: l => if bool_decide (drop (Z.to_nat n) x = []) then l else drop (Z.to_nat n) x :: l end) out).
Proof. apply run_sys. simpl. rewrite Z.eqb_refl. by destruct i. Qed.

Lemma put_lines_run c fuel pattern b p i out b' p' out' :
  grep_lines fuel pattern b p out = Some (b', p', out') ->
  run (put_lines fuel pattern b p) (mkpipe c i out) (Some (Some (b', p'))) (mkpipe c i out').
Proof.
  revert b p out. induction fuel as [|fuel IH]; intros b p out; simpl;
    destruct (strchr (drop p b) NL) as [[k|]|]; intros E; simplify_eq; try apply run_mret.
  destruct (grep_match _ _); [|by apply IH]. eapply run_bind; [by apply run_sys|]. by apply IH.
Qed.

(** A round of the program is a round of the function. *)
Lemma file_round_run pattern fd b m x i i' out b' m' out' :
  let n := Z.to_nat (BUF - m) in
  take n x <> [] -> i' = (if bool_decide (drop n x = []) then i else drop n x :: i) ->
  grep_round pattern (take n x) b m out = Some (b', m', out') ->
  run (file_round pattern fd (b, m)) (mkpipe fd (x :: i) out) (Some (inl (b', m'))) (mkpipe fd i' out').
Proof.
  cbv zeta. intros Hx -> E. unfold grep_round in E. eapply run_bind; [apply run_input|]. cbn -[take].
  rewrite (proj2 (Z.leb_gt _ _)) by (destruct (take _ x); [done|simpl; lia]).
  destruct (m <? 0); [done|]. apply bind_Some in E as ([[b1 p1] out1] & E1 & E).
  eapply run_bind; [by apply put_lines_run|]. cbv beta iota.
  destruct (0 <? _); simplify_eq; apply run_mret.
Qed.

Lemma file_loop_run fuel pattern fd i b m out out' :
  grep_loop fuel pattern i b m out = Some out' ->
  exists b' i', run (ITree.iter (file_round pattern fd) (b, m)) (mkpipe fd i out) (Some (Some b')) (mkpipe fd i' out').
Proof.
  revert i b m out. induction fuel as [|fuel IH]; [done|]. intros [|x i] b m out; cbn [grep_loop]; intros E.
  - simplify_eq. exists b, []. eapply (run_iter _ _ _ (inr (Some b))); [|split; reflexivity].
    eapply run_bind; [apply run_input|]. apply run_mret.
  - case_bool_decide as Hx.
    + simplify_eq. eexists b, _. eapply (run_iter _ _ _ (inr (Some b))); [|split; reflexivity].
      eapply run_bind; [apply run_input|]. cbn -[take]. rewrite Hx. apply run_mret.
    + apply bind_Some in E as ([[b1 m1] out1] & E1 & E). destruct (IH _ _ _ _ E) as (b' & i' & R).
      exists b', i'. eapply (run_iter _ _ _ (inl (b1, m1))); [by eapply file_round_run|exact R].
Qed.

(** [grep pattern] and [grep pattern file] as programs: they end, and have printed the
    text of [Grep.grep], however the input arrives. *)
Lemma grep_main_prints name pattern f input out :
  grep pattern input = Some out ->
  (exists i', run (grep_main [name; pattern]) (mkpipe 0 input []) None (mkpipe 0 i' out)) /\
  (exists i', run (grep_main [name; pattern; f]) (mkpipe 3 input []) None (mkpipe 3 i' out)).
Proof.
  intros E. split; [destruct (file_loop_run _ _ 0 _ _ _ _ _ E) as (b' & i' & R)
    |destruct (file_loop_run _ _ 3 _ _ _ _ _ E) as (b' & i' & R)]; exists i'.
  - eapply run_bind; [exact R|]. apply run_exit_.
  - eapply (run_bind (grep_files pattern [f] zeros)); [|apply run_exit_]. cbn [grep_files].
    eapply run_bind; [by apply run_sys|]. cbv beta iota. change (3 <? 0) with false. cbv iota.
    eapply run_bind; [exact R|]. cbv beta iota.
    eapply run_bind; [by apply run_sys|]. apply run_mret.
Qed.

(** C36: the program [grep] with a pattern, run on an input with no zero byte that is
    shorter than its buffer and that the first [read] delivers whole, from standard
    input or from the one file named: it ends, having printed the lines that match
    the pattern, in order and nothing else; a last line without a newline is not
    looked at. *)
Theorem grep_main_selects name pattern f file :
  0 ∉ file -> Z.of_nat (length file) < BUF ->
  (exists i', run (grep_main [name; pattern]) (mkpipe 0 [file] []) None (mkpipe 0 i' (selected pattern file))) /\
  (exists i', run (grep_main [name; pattern; f]) (mkpipe 3 [file] []) None (mkpipe 3 i' (selected pattern file))).
Proof. intros H0 Hlen. by apply grep_main_prints, grep_small_file. Qed.

Lemma grep_main_selects_witness :
  exists i', run (grep_main [chars "grep"; chars "a.*$"]) (mkpipe 0 [chars "b
ab
a"] []) None (mkpipe 0 i' (chars "ab
")).
Proof.
  destruct (grep_main_selects (chars "grep") (chars "a.*$") (chars "f") (chars "b
ab
a")) as [[i' H] _]; [vm_compute; set_solver|vm_compute; done|]. exists i'. exact H.
Defined.
