(* ===== verification/Sh.v ===== *)
(** * The shell: parsing

    The parser of [user/sh.c].  A command line is an array of characters without
    its final zero byte, a pointer into it an index, and a word the pair of
    indices that [argv] and [eargv] hold.  The functions that call [panic]
    return its message. *)

From stdpp Require Import base list numbers strings tactics sets.
From Stdlib Require Import Lia.
From S2P Require Import Prelude Params.

Local Open Scope Z_scope.

(** ** Parsers *)

Inductive pres (A : Type) := POk (a : A) | PPanic (msg : string) | PFuel.
Arguments POk {_} _.
Arguments PPanic {_} _.
Arguments PFuel {_}.

Definition pbind {A B} (m : pres A) (f : A -> pres B) : pres B :=
  match m with
  | POk a => f a
  | PPanic s => PPanic s
  | PFuel => PFuel
  end.

Declare Scope sh_scope.
Notation "' p <- m ;; k" := (pbind m (fun p => k)) : sh_scope.
Local Open Scope sh_scope.

(** ** Commands *)

Definition word : Type := nat * nat.

Record redir := mkredir { r_file : word; r_mode : Z; r_fd : Z }.

Inductive cmd :=
| EXEC (argv : list word)
| REDIR (c : cmd) (r : redir)
| PIPE (left right : cmd)
| LIST (left right : cmd)
| BACK (c : cmd).

Definition MAXARGS : nat := 10.

(** ** Characters *)

Definition SPACE : Z := 32.
Definition LT : Z := 60.
Definition BAR : Z := 124.
Definition GT : Z := 62.
Definition AMP : Z := 38.
Definition SEMI : Z := 59.
Definition LPAR : Z := 40.
Definition RPAR : Z := 41.
Definition PLUS : Z := 43.
Definition WORD : Z := 97.

Definition whitespace : list Z := [SPACE; 9; 13; 10; 11].
Definition symbols : list Z := [LT; BAR; GT; AMP; SEMI; LPAR; RPAR].

Definition is_in (set : list Z) (c : Z) : bool := bool_decide (c ∈ set).

(** How long a [while(s < es && p( *s )) s++] runs. *)
Fixpoint span (p : Z -> bool) (l : list Z) : nat :=
  match l with
  | c :: l => if p c then S (span p l) else 0
  | [] => 0
  end.

(** [*s]; the array ends with a zero byte. *)
Definition ch (b : list Z) (i : nat) : Z := default 0 (b !! i).

Definition skip (p : Z -> bool) (b : list Z) (i : nat) : nat := (i + span p (drop i b))%nat.
Definition skipws : list Z -> nat -> nat := skip (is_in whitespace).
Definition skipword : list Z -> nat -> nat := skip (fun c => negb (is_in whitespace c) && negb (is_in symbols c)).

(** The token, where it begins and ends, and the next position. *)
Definition gettoken (b : list Z) (s : nat) : Z * word * nat :=
  let s := skipws b s in
  let q := s in
  let c := ch b s in
  let '(ret, s) :=
    if c =? 0 then (c, s)
    else if is_in [BAR; LPAR; RPAR; SEMI; AMP; LT] c then (c, S s)
    else if c =? GT then (if ch b (S s) =? GT then (PLUS, S (S s)) else (c, S s))
    else (WORD, skipword b s) in
  (ret, (q, s), skipws b s).

Definition peek (b : list Z) (s : nat) (toks : list Z) : bool * nat :=
  let s := skipws b s in
  (negb (ch b s =? 0) && is_in toks (ch b s), s).

(** ** The grammar *)

Definition redircmd (tok : Z) (file : word) : redir :=
  if tok =? LT then mkredir file O_RDONLY 0 else mkredir file (Z.lor O_WRONLY O_CREATE) 1.

(** The redirections found at [s]; [parseredirs] puts them around its command in
    this order. *)
Fixpoint parseredirs (fuel : nat) (b : list Z) (s : nat) : pres (list redir * nat) :=
  let '(more, s) := peek b s [LT; GT] in
  if negb more then POk ([], s) else
  match fuel with
  | O => PFuel
  | S fuel =>
      let '(tok, _, s) := gettoken b s in
      let '(tok', file, s) := gettoken b s in
      if negb (tok' =? WORD) then PPanic "missing file for redirection" else
      ' (rs, s) <- parseredirs fuel b s ;;
      POk (redircmd tok file :: rs, s)
  end.

Definition wrap (c : cmd) (rs : list redir) : cmd := foldl REDIR c rs.

(** [while(peek(ps, es, "&"))] *)
Fixpoint parseback (fuel : nat) (b : list Z) (c : cmd) (s : nat) : pres (cmd * nat) :=
  let '(more, s) := peek b s [AMP] in
  if negb more then POk (c, s) else
  match fuel with
  | O => PFuel
  | S fuel =>
      let '(_, _, s) := gettoken b s in
      parseback fuel b (BACK c) s
  end.

(** The loop of [parseexec]: the command's words and the redirections around it.
    The command is changed while it is inside its redirections already. *)
Fixpoint parseargs (fuel : nat) (b : list Z) (argv : list word) (rs : list redir) (s : nat) :
    pres (cmd * nat) :=
  let '(stop, s) := peek b s [BAR; RPAR; AMP; SEMI] in
  if stop then POk (wrap (EXEC argv) rs, s) else
  let '(tok, w, s) := gettoken b s in
  if tok =? 0 then POk (wrap (EXEC argv) rs, s)
  else if negb (tok =? WORD) then PPanic "syntax"
  else
    let argv := argv ++ [w] in
    if (MAXARGS <=? length argv)%nat then PPanic "too many args" else
    match fuel with
    | O => PFuel
    | S fuel =>
        ' (rs', s) <- parseredirs (length b) b s ;;
        parseargs fuel b argv (rs ++ rs') s
    end.

Fixpoint parseline (fuel : nat) (b : list Z) (s : nat) : pres (cmd * nat) :=
  match fuel with
  | O => PFuel
  | S fuel =>
      ' (c, s) <- parsepipe fuel b s ;;
      ' (c, s) <- parseback (length b) b c s ;;
      let '(more, s) := peek b s [SEMI] in
      if more then
        let '(_, _, s) := gettoken b s in
        ' (r, s) <- parseline fuel b s ;;
        POk (LIST c r, s)
      else POk (c, s)
  end
with parsepipe (fuel : nat) (b : list Z) (s : nat) : pres (cmd * nat) :=
  match fuel with
  | O => PFuel
  | S fuel =>
      ' (c, s) <- parseexec fuel b s ;;
      let '(more, s) := peek b s [BAR] in
      if more then
        let '(_, _, s) := gettoken b s in
        ' (r, s) <- parsepipe fuel b s ;;
        POk (PIPE c r, s)
      else POk (c, s)
  end
with parseexec (fuel : nat) (b : list Z) (s : nat) : pres (cmd * nat) :=
  match fuel with
  | O => PFuel
  | S fuel =>
      let '(block, s) := peek b s [LPAR] in
      if block then parseblock fuel b s else
      ' (rs, s) <- parseredirs (length b) b s ;;
      parseargs (length b) b [] rs s
  end
with parseblock (fuel : nat) (b : list Z) (s : nat) : pres (cmd * nat) :=
  match fuel with
  | O => PFuel
  | S fuel =>
      let '(open, s) := peek b s [LPAR] in
      if negb open then PPanic "parseblock" else
      let '(_, _, s) := gettoken b s in
      ' (c, s) <- parseline fuel b s ;;
      let '(close, s) := peek b s [RPAR] in
      if negb close then PPanic "syntax - missing )" else
      let '(_, _, s) := gettoken b s in
      ' (rs, s) <- parseredirs (length b) b s ;;
      POk (wrap c rs, s)
  end.

(** Every level of the grammar costs at most four calls per character. *)
Definition parse_fuel (b : list Z) : nat := (4 * length b + 4)%nat.

Definition parsecmd (b : list Z) : pres cmd :=
  ' (c, s) <- parseline (parse_fuel b) b 0 ;;
  let '(_, s) := peek b s [] in
  if negb (s =? length b)%nat then PPanic "syntax" else POk c.

(** [nulterminate]: a zero byte after every word. *)
Definition put0 (b : list Z) (i : nat) : list Z := <[i := 0]> b.

Fixpoint nulterminate (c : cmd) (b : list Z) : list Z :=
  match c with
  | EXEC argv => foldl (fun b w => put0 b (snd w)) b argv
  | REDIR c r => put0 (nulterminate c b) (snd (r_file r))
  | PIPE l r => nulterminate r (nulterminate l b)
  | LIST l r => nulterminate r (nulterminate l b)
  | BACK c => nulterminate c b
  end.

(** ** The parser terminates *)

Lemma span_le p l : (span p l <= length l)%nat.
Proof. induction l as [|c l IH]; simpl; [lia|]. destruct (p c); lia. Qed.

Lemma skip_le p b s : (s <= length b)%nat -> (s <= skip p b s <= length b)%nat.
Proof. intros H. unfold skip. pose proof (span_le p (drop s b)). rewrite length_drop in *. lia. Qed.

Lemma skip_stop p b s : (skip p b s < length b)%nat -> p (ch b (skip p b s)) = false.
Proof.
  unfold skip, ch. intros H. rewrite <- lookup_drop.
  assert (Hs : (span p (drop s b) < length (drop s b))%nat) by (rewrite length_drop; lia). clear H.
  induction (drop s b) as [|c l IH]; simpl in *; [lia|]. destruct (p c) eqn:E; simpl; [|done].
  apply IH. lia.
Qed.

Lemma skip_first p b s : p (ch b s) = true -> (s < length b)%nat -> (s < skip p b s)%nat.
Proof.
  intros Hp Hs. unfold skip. destruct (lookup_lt_is_Some_2 b s Hs) as [c Hc].
  rewrite (drop_S b c s Hc). unfold ch in Hp. rewrite Hc in Hp. simpl in *. rewrite Hp. lia.
Qed.

Lemma ch_lt b s : ch b s <> 0 -> (s < length b)%nat.
Proof. unfold ch. intros H. destruct (b !! s) eqn:E; [by eapply lookup_lt_Some|done]. Qed.

Lemma peek_le b s toks : (s <= length b)%nat -> (s <= snd (peek b s toks) <= length b)%nat.
Proof. intros H. by apply skip_le. Qed.

(** After [peek] has seen a token, the next [gettoken] moves on. *)
Lemma peek_more b s toks : fst (peek b s toks) = true -> ch b (skipws b (snd (peek b s toks))) <> 0.
Proof.
  simpl. intros [H _]%andb_true_iff. apply negb_true_iff, Z.eqb_neq in H.
  assert (E : skipws b (skipws b s) = skipws b s); [|by rewrite E].
  pose proof (ch_lt _ _ H) as Hl. unfold skipws at 1, skip.
  destruct (lookup_lt_is_Some_2 b _ Hl) as [c Hc]. rewrite (drop_S b c _ Hc). simpl.
  assert (is_in whitespace c = false) as ->; [|lia].
  pose proof (skip_stop _ _ _ Hl) as Hs. unfold ch in Hs. unfold skipws in Hc. by rewrite Hc in Hs.
Qed.

Lemma gettoken_le b s :
  (s <= length b)%nat -> let '(tok, _, s') := gettoken b s in
  (s <= s' <= length b)%nat /\ (tok <> 0 -> (s < s')%nat) /\ (ch b (skipws b s) <> 0 -> (s < s')%nat).
Proof.
  intros Hs. unfold gettoken. pose proof (skip_le (is_in whitespace) b s Hs) as H1. fold (skipws b s) in H1.
  set (q := skipws b s) in *.
  assert (Hq : ch b q = 0 \/ (q < length b)%nat).
  { destruct (decide (ch b q = 0)); [by left|right; by apply ch_lt]. }
  assert (Htail : forall s', (q <= s' <= length b)%nat -> (s' <= skipws b s' <= length b)%nat) by (intros; apply skip_le; lia).
  destruct (Z.eqb_spec (ch b q) 0) as [E|E]; [specialize (Htail q); split_and!; [lia|lia|done|done]|].
  destruct Hq as [|Hq]; [done|].
  destruct (is_in _ _) eqn:Es; [specialize (Htail (S q)); split_and!; intros; lia|].
  destruct (Z.eqb_spec (ch b q) GT) as [Eg|Eg].
  - destruct (Z.eqb_spec (ch b (S q)) GT) as [Eg'|].
    + assert (S q < length b)%nat by (apply ch_lt; by rewrite Eg').
      specialize (Htail (S (S q))). split_and!; intros; lia.
    + specialize (Htail (S q)). split_and!; intros; lia.
  - pose proof (skip_le (fun c => negb (is_in whitespace c) && negb (is_in symbols c)) b q) as H2.
    fold (skipword b q) in H2. assert (q < skipword b q)%nat.
    { apply skip_first; [|done]. pose proof (skip_stop _ _ _ Hq) as Hw. fold (skipws b s) in Hw. fold q in Hw.
      rewrite Hw. simpl. unfold is_in in *. rewrite bool_decide_eq_false in Es. rewrite bool_decide_false; [done|].
      unfold symbols. set_solver. }
    specialize (Htail (skipword b q)). split_and!; intros; lia.
Qed.

(** A result that is not short of fuel, at a position not before [s]. *)
Definition fine {A} (b : list Z) (s : nat) (r : pres (A * nat)) : Prop :=
  match r with
  | POk (_, s') => (s <= s' <= length b)%nat
  | PPanic _ => True
  | PFuel => False
  end.

Lemma fine_le {A} b s s0 (r : pres (A * nat)) : fine b s r -> (s0 <= s)%nat -> fine b s0 r.
Proof. destruct r as [[a s']| |]; simpl; [lia|done..]. Qed.

Lemma fine_bind {A B} b s s1 (r : pres (A * nat)) (f : A * nat -> pres (B * nat)) :
  fine b s1 r -> (forall a s', (s1 <= s' <= length b)%nat -> fine b s (f (a, s'))) -> fine b s (pbind r f).
Proof. intros Hr Hf. destruct r as [[a s']| |]; simpl in *; auto. Qed.

Lemma parseredirs_fine fuel b s : (s <= length b)%nat -> (length b - s <= fuel)%nat -> fine b s (parseredirs fuel b s).
Proof.
  revert s. induction fuel as [|fuel IH]; intros s Hs Hf;
    pose proof (peek_le b s [LT; GT] Hs) as H1; pose proof (peek_more b s [LT; GT]) as H2;
    cbn [parseredirs]; destruct (peek b s [LT; GT]) as [[] s1]; simpl in H1, H2 |- *; try done.
  - specialize (H2 eq_refl). apply ch_lt in H2. pose proof (skip_le (is_in whitespace) b s1). unfold skipws in H2. lia.
  - pose proof (gettoken_le b s1 ltac:(lia)) as H3. destruct (gettoken b s1) as [[tok w] s2].
    destruct H3 as (H3 & _ & H4). specialize (H4 (H2 eq_refl)).
    pose proof (gettoken_le b s2 ltac:(lia)) as H5. destruct (gettoken b s2) as [[tok' w'] s3].
    destruct (negb (tok' =? WORD)); [done|]. apply (fine_bind b s s3); [apply IH; lia|simpl; intros; lia].
Qed.

Lemma parseback_fine fuel b c s : (s <= length b)%nat -> (length b - s <= fuel)%nat -> fine b s (parseback fuel b c s).
Proof.
  revert c s. induction fuel as [|fuel IH]; intros c s Hs Hf;
    pose proof (peek_le b s [AMP] Hs) as H1; pose proof (peek_more b s [AMP]) as H2;
    cbn [parseback]; destruct (peek b s [AMP]) as [[] s1]; simpl in H1, H2 |- *; try done.
  - specialize (H2 eq_refl). apply ch_lt in H2. pose proof (skip_le (is_in whitespace) b s1). unfold skipws in H2. lia.
  - pose proof (gettoken_le b s1 ltac:(lia)) as H3. destruct (gettoken b s1) as [[tok w] s2].
    destruct H3 as (H3 & _ & H4). specialize (H4 (H2 eq_refl)). apply (fine_le b s2); [apply IH; lia|lia].
Qed.

Lemma parseargs_fine fuel b argv rs s :
  (s <= length b)%nat -> (length b - s <= fuel)%nat -> fine b s (parseargs fuel b argv rs s).
Proof.
  revert argv rs s. induction fuel as [|fuel IH]; intros argv rs s Hs Hf;
    pose proof (peek_le b s [BAR; RPAR; AMP; SEMI] Hs) as H1;
    cbn [parseargs]; destruct (peek b s [BAR; RPAR; AMP; SEMI]) as [[] s1]; cbn [snd] in H1; cbn iota; try done;
    pose proof (gettoken_le b s1 ltac:(lia)) as H3; destruct (gettoken b s1) as [[tok w] s2];
    destruct H3 as (H3 & H4 & _); (destruct (Z.eqb_spec tok 0); [simpl; lia|]);
    (destruct (negb (tok =? WORD)); [done|]); specialize (H4 ltac:(done)).
  - exfalso. lia.
  - destruct (MAXARGS <=? length (argv ++ [w]))%nat; [done|]. apply (fine_bind b s s2); [apply parseredirs_fine; lia|].
    intros rs' s3 Hs3. apply (fine_le b s3); [apply IH; lia|lia].
Qed.

(** The token that [peek] has seen is taken. *)
Lemma take_token b s toks :
  (s <= length b)%nat -> fst (peek b s toks) = true ->
  let '(_, _, s') := gettoken b (snd (peek b s toks)) in (s < s' <= length b)%nat.
Proof.
  intros Hs Hp. pose proof (peek_le b s toks Hs). pose proof (peek_more b s toks Hp) as Hm.
  pose proof (gettoken_le b (snd (peek b s toks)) ltac:(lia)) as H3.
  destruct (gettoken b (snd (peek b s toks))) as [[tok w] s2]. destruct H3 as (H3 & _ & H4).
  specialize (H4 Hm). lia.
Qed.

#[local] Opaque peek gettoken.

Lemma parse_fine fuel b : forall s, (s <= length b)%nat ->
  ((4 * (length b - s) + 4 <= fuel)%nat -> fine b s (parseline fuel b s)) /\
  ((4 * (length b - s) + 3 <= fuel)%nat -> fine b s (parsepipe fuel b s)) /\
  ((4 * (length b - s) + 2 <= fuel)%nat -> fine b s (parseexec fuel b s)) /\
  ((4 * (length b - s) + 1 <= fuel)%nat -> fine b s (parseblock fuel b s)).
Proof.
  induction fuel as [|fuel IH]; intros s Hs; [split_and!; intros; lia|].
  split_and!; intros Hf; cbn [parseline parsepipe parseexec parseblock].
  - apply (fine_bind b s s); [apply IH; lia|]. intros c s1 H1. apply (fine_bind b s s1); [apply parseback_fine; lia|].
    intros c' s2 H2. pose proof (peek_le b s2 [SEMI] ltac:(lia)) as H3.
    pose proof (take_token b s2 [SEMI] ltac:(lia)) as T. destruct (peek b s2 [SEMI]) as [[] s3]; simpl in *; [|lia].
    destruct (gettoken b s3) as [[tok w] s4]. specialize (T eq_refl).
    apply (fine_bind b s s4); [apply IH; lia|simpl; intros; lia].
  - apply (fine_bind b s s); [apply IH; lia|]. intros c s2 H2. pose proof (peek_le b s2 [BAR] ltac:(lia)) as H3.
    pose proof (take_token b s2 [BAR] ltac:(lia)) as T. destruct (peek b s2 [BAR]) as [[] s3]; simpl in *; [|lia].
    destruct (gettoken b s3) as [[tok w] s4]. specialize (T eq_refl).
    apply (fine_bind b s s4); [apply IH; lia|simpl; intros; lia].
  - pose proof (peek_le b s [LPAR] Hs) as H3. destruct (peek b s [LPAR]) as [[] s3]; simpl in *.
    + apply (fine_le b s3); [apply IH; lia|lia].
    + apply (fine_bind b s s3); [apply parseredirs_fine; lia|]. intros rs s4 H4.
      apply (fine_le b s4); [apply parseargs_fine; lia|lia].
  - pose proof (take_token b s [LPAR] Hs) as T. destruct (peek b s [LPAR]) as [[] s3]; simpl in *; [|done].
    destruct (gettoken b s3) as [[tok w] s4]. specialize (T eq_refl).
    apply (fine_bind b s s4); [apply IH; lia|].
    intros c s5 H5. pose proof (take_token b s5 [RPAR] ltac:(lia)) as T'.
    destruct (peek b s5 [RPAR]) as [[] s6]; simpl in *; [|done].
    destruct (gettoken b s6) as [[tok' w'] s7]. specialize (T' eq_refl).
    apply (fine_bind b s s7); [apply parseredirs_fine; lia|simpl; intros; lia].
Qed.

(** C37: the shell's parser terminates on every command line, with a command or
    one of its syntax errors: each call of its mutually recursive functions
    within the bound of four per character. *)
Theorem parsecmd_terminates b : parsecmd b <> PFuel.
Proof.
  unfold parsecmd, parse_fuel. destruct (parse_fine (4 * length b + 4) b 0) as (H & _); [lia|].
  specialize (H ltac:(lia)). destruct (parseline _ b 0) as [[c s]| |]; simpl in *; [|done..].
  destruct (peek b s []) as [t s1]. by destruct (s1 =? length b)%nat.
Qed.
