(* ===== verification/ShThm.v ===== *)
(** * The shell: printing and parsing

    Every command tree can be written down as a command line that the parser of
    [Sh] reads back as that tree, with parentheses where the grammar needs them;
    and [nulterminate] turns the words of the result into C strings. *)

From stdpp Require Import base list numbers strings tactics sets.
From Stdlib Require Import Lia.
From S2P Require Import Prelude Params Sh.

Local Open Scope Z_scope.
Local Open Scope sh_scope.

(** ** Command trees *)

Inductive ast :=
| AExec (argv : list (list Z))
| ARedir (a : ast) (file : list Z) (mode fd : Z)
| APipe (left right : ast)
| AList (left right : ast)
| ABack (a : ast).

(** The characters of a word. *)
Definition word_of (b : list Z) (w : word) : list Z := take (snd w - fst w) (drop (fst w) b).

Fixpoint tree (b : list Z) (c : cmd) : ast :=
  match c with
  | EXEC argv => AExec (word_of b <$> argv)
  | REDIR c r => ARedir (tree b c) (word_of b (r_file r)) (r_mode r) (r_fd r)
  | PIPE l r => APipe (tree b l) (tree b r)
  | LIST l r => AList (tree b l) (tree b r)
  | BACK c => ABack (tree b c)
  end.

Definition word_char (c : Z) : Prop := c <> 0 /\ c ∉ whitespace /\ c ∉ symbols.
Definition word_ok (w : list Z) : Prop := w <> [] /\ Forall word_char w.
Definition redir_ok (mode fd : Z) : Prop := (mode = O_RDONLY /\ fd = 0) \/ (mode = Z.lor O_WRONLY O_CREATE /\ fd = 1).

(** Trees the grammar can express. *)
Fixpoint ast_ok (a : ast) : Prop :=
  match a with
  | AExec argv => Forall word_ok argv /\ (length argv < MAXARGS)%nat
  | ARedir a file mode fd => ast_ok a /\ word_ok file /\ redir_ok mode fd
  | APipe l r => ast_ok l /\ ast_ok r
  | AList l r => ast_ok l /\ ast_ok r
  | ABack a => ast_ok a
  end.

(** ** Tokens *)

Inductive token := TSym (c : Z) | TWord (w : list Z).

Definition render (t : token) : list Z :=
  match t with TSym c => [c; SPACE] | TWord w => w ++ [SPACE] end.

Definition token_ok (t : token) : Prop :=
  match t with TSym c => c ∈ symbols | TWord w => word_ok w end.

(** The tokens [ts] are what is left of the line [b] at [i]. *)
Definition left_at (b : list Z) (i : nat) (ts : list token) : Prop :=
  drop i b = concat (render <$> ts) /\ (i <= length b)%nat.

Lemma left_ch b i ts : left_at b i ts -> ch b i = default 0 (concat (render <$> ts) !! 0%nat).
Proof. intros [E _]. unfold ch. rewrite <- E, lookup_drop. by rewrite Nat.add_0_r. Qed.

(** The first character of what is left. *)
Lemma left_first b i ts :
  left_at b i ts -> Forall token_ok ts ->
  match ts with
  | [] => ch b i = 0
  | TSym c :: _ => ch b i = c
  | TWord _ :: _ => word_char (ch b i)
  end.
Proof.
  intros Ha Hts. rewrite (left_ch _ _ _ Ha). destruct ts as [|[c|w] ts]; [done..|].
  apply Forall_cons_1 in Hts as [[Hw Hc] _]. destruct w as [|x w]; [done|]. simpl. by apply Forall_cons_1 in Hc as [? _].
Qed.

Lemma symbols_ok c : c ∈ symbols -> c <> 0 /\ c ∉ whitespace.
Proof. intros H. unfold symbols, whitespace in *. set_unfold. unfold LT, BAR, GT, AMP, SEMI, LPAR, RPAR, SPACE in *. lia. Qed.

Lemma skip_none p b i : p (ch b i) = false -> skip p b i = i.
Proof.
  intros H. unfold skip. assert (span p (drop i b) = 0%nat) as ->; [|lia].
  destruct (drop i b) as [|c l] eqn:E; [done|]. simpl.
  assert (ch b i = c) as Hc; [|by rewrite <- Hc, H].
  unfold ch. rewrite <- (Nat.add_0_r i), <- lookup_drop, E. done.
Qed.

Lemma skipws_left b i ts : left_at b i ts -> Forall token_ok ts -> skipws b i = i.
Proof.
  intros Ha Hts. apply skip_none. pose proof (left_first _ _ _ Ha Hts) as H. unfold is_in.
  apply bool_decide_eq_false. destruct ts as [|[c|w] ts].
  - rewrite H. unfold whitespace, SPACE. set_unfold. lia.
  - rewrite H. apply Forall_cons_1 in Hts as [Hc _]. by apply symbols_ok.
  - apply H.
Qed.

(** ** Looking at tokens *)

Definition sees (toks : list Z) (ts : list token) : bool :=
  match ts with TSym c :: _ => is_in toks c | _ => false end.

Lemma peek_left b i ts toks :
  left_at b i ts -> Forall token_ok ts -> (forall c, c ∈ toks -> c ∈ symbols) -> peek b i toks = (sees toks ts, i).
Proof.
  intros Ha Hts Ht. unfold peek. rewrite (skipws_left b i ts) by done. f_equal.
  pose proof (left_first _ _ _ Ha Hts) as H. destruct ts as [|[c|w] ts]; simpl.
  - by rewrite H.
  - rewrite H. apply Forall_cons_1 in Hts as [Hc _]. destruct (symbols_ok c Hc) as [H0 _].
    by rewrite (proj2 (Z.eqb_neq c 0) H0).
  - destruct H as (_ & _ & H). unfold is_in. rewrite bool_decide_false by naive_solver. apply andb_false_r.
Qed.

Lemma left_next b i t ts n :
  left_at b i (t :: ts) -> length (render t) = n -> left_at b (i + n) ts.
Proof.
  intros [E Hl] <-. simpl in E. split.
  - rewrite <- drop_drop, E. by rewrite drop_app_length.
  - apply (f_equal length) in E. rewrite length_drop, length_app in E. lia.
Qed.

Lemma gettoken_sym b i c ts :
  left_at b i (TSym c :: ts) -> Forall token_ok (TSym c :: ts) ->
  exists w, gettoken b i = (c, w, (i + 2)%nat) /\ left_at b (i + 2) ts.
Proof.
  intros Ha Hts. pose proof (left_next b i _ _ 2 Ha eq_refl) as Hn. pose proof Hts as [Hc Hts']%Forall_cons_1.
  pose proof (left_first _ _ _ Ha Hts) as Hch. simpl in Hch.
  assert (Hsp : ch b (S i) = SPACE).
  { destruct Ha as [E _]. unfold ch. replace (S i) with (i + 1)%nat by lia. by rewrite <- lookup_drop, E. }
  assert (Hws : skipws b (S i) = (i + 2)%nat).
  { unfold skipws, skip. replace (drop (S i) b) with (SPACE :: drop (i + 2) b).
    - simpl. fold skipws. pose proof (skipws_left b (i + 2) ts Hn Hts') as E. unfold skipws, skip in E. lia.
    - destruct Ha as [E _]. destruct Hn as [E' _]. rewrite E'. replace (S i) with (i + 1)%nat by lia.
      by rewrite <- drop_drop, E. }
  unfold gettoken. rewrite (skipws_left b i _ Ha Hts), Hch.
  destruct (symbols_ok c Hc) as [H0 _]. rewrite (proj2 (Z.eqb_neq c 0) H0).
  destruct (is_in _ c) eqn:Es; [eexists; rewrite Hws; done|].
  assert (c = GT) as ->.
  { unfold is_in in Es. rewrite bool_decide_eq_false in Es. unfold symbols in Hc. set_solver. }
  rewrite Z.eqb_refl, Hsp. change (SPACE =? GT) with false. cbn iota. rewrite Hws. by eexists.
Qed.

Lemma span_word p w c l : Forall (fun x => p x = true) w -> p c = false -> span p (w ++ c :: l) = length w.
Proof. intros Hw Hc. induction Hw as [|x w Hx _ IH]; simpl; [by rewrite Hc|]. by rewrite Hx, IH. Qed.

Lemma gettoken_word b i w ts :
  left_at b i (TWord w :: ts) -> Forall token_ok (TWord w :: ts) ->
  gettoken b i = (WORD, (i, i + length w)%nat, (i + S (length w))%nat) /\ left_at b (i + S (length w)) ts /\
  word_of b (i, i + length w)%nat = w.
Proof.
  intros Ha Hts. assert (Hn : left_at b (i + S (length w)) ts).
  { apply (left_next b i _ _ _ Ha). simpl. rewrite length_app. simpl. lia. }
  pose proof (left_first _ _ _ Ha Hts) as (H0 & Hw & Hs).
  pose proof Hts as [[Hne Hc] Hts']%Forall_cons_1. destruct Ha as [E Hl]. simpl in E. rewrite <- app_assoc in E. simpl in E.
  split_and!; [|done|unfold word_of; simpl; rewrite E; replace (i + length w - i)%nat with (length w) by lia;
    by rewrite take_app_length].
  unfold gettoken. rewrite (skipws_left b i (TWord w :: ts)) by (first [done | split; [simpl; by rewrite <- app_assoc|done]]).
  rewrite (proj2 (Z.eqb_neq _ 0) H0).
  assert (is_in [BAR; LPAR; RPAR; SEMI; AMP; LT] (ch b i) = false) as ->
    by (apply bool_decide_eq_false; unfold symbols in Hs; set_solver).
  rewrite (proj2 (Z.eqb_neq (ch b i) GT)) by (unfold symbols in Hs; set_solver).
  assert (skipword b i = (i + length w)%nat) as ->.
  { unfold skipword, skip. rewrite E, span_word; [done| |done]. eapply Forall_impl; [exact Hc|].
    intros x (_ & Hx1 & Hx2). unfold is_in. by rewrite !bool_decide_false. }
  f_equal. unfold skipws, skip. replace (drop (i + length w) b) with (SPACE :: drop (i + S (length w)) b).
  - simpl. pose proof (skipws_left b (i + S (length w)) ts Hn Hts') as E'. unfold skipws, skip in E'. lia.
  - rewrite <- (drop_drop b (length w) i), E, drop_app_length. f_equal. destruct Hn as [-> _]. done.
Qed.

Lemma gettoken_end b i : left_at b i [] -> exists w, gettoken b i = (0, w, i).
Proof.
  intros Ha. unfold gettoken. rewrite (skipws_left b i [] Ha) by constructor.
  rewrite (left_first _ _ _ Ha) by constructor. simpl. rewrite (skipws_left b i [] Ha) by constructor. by eexists.
Qed.

(** ** Redirections *)

Definition redir_tokens (r : list Z * Z * Z) : list token :=
  let '(file, mode, fd) := r in [TSym (if fd =? 0 then LT else GT); TWord file].

Definition aredir (a : ast) (r : list Z * Z * Z) : ast := let '(file, mode, fd) := r in ARedir a file mode fd.

Definition rd_ok (r : list Z * Z * Z) : Prop := let '(file, mode, fd) := r in word_ok file /\ redir_ok mode fd.

Definition rd_of (b : list Z) (r : redir) : list Z * Z * Z := (word_of b (r_file r), r_mode r, r_fd r).

#[local] Opaque peek gettoken.

Lemma redir_tokens_ok rs : Forall rd_ok rs -> Forall token_ok (concat (redir_tokens <$> rs)).
Proof.
  induction 1 as [|[[file mode] fd] rs [Hw Hr] _ IH]; simpl; [constructor|].
  constructor; [simpl; unfold symbols; destruct (fd =? 0); set_solver|by constructor].
Qed.

Lemma parseredirs_left rs fuel b i ts :
  left_at b i (concat (redir_tokens <$> rs) ++ ts) -> Forall rd_ok rs -> Forall token_ok ts ->
  sees [LT; GT] ts = false -> (length rs <= fuel)%nat ->
  exists rs' j, parseredirs fuel b i = POk (rs', j) /\ rd_of b <$> rs' = rs /\ left_at b j ts.
Proof.
  intros Ha Hrs Hts Hno. revert fuel i Ha. induction Hrs as [|[[file mode] fd] rs [Hw Hr] Hrs IH]; intros fuel i Ha Hf.
  - simpl in Ha. exists [], i. destruct fuel; simpl;
      rewrite (peek_left b i ts) by (first [done | unfold symbols; set_solver]); rewrite Hno; done.
  - destruct fuel as [|fuel]; [simpl in Hf; lia|]. simpl in Ha.
    set (sym := if fd =? 0 then LT else GT) in *.
    assert (Hsym : sym ∈ symbols /\ is_in [LT; GT] sym = true) by (unfold sym, symbols; destruct (fd =? 0); split; [set_solver|done..|set_solver|done]).
    assert (Htl : Forall token_ok (TWord file :: concat (redir_tokens <$> rs) ++ ts))
      by (constructor; [done|apply Forall_app; split; [by apply redir_tokens_ok|done]]).
    assert (Hall : Forall token_ok (TSym sym :: TWord file :: concat (redir_tokens <$> rs) ++ ts)) by (constructor; [apply Hsym|done]).
    cbn [parseredirs]. rewrite (peek_left b i _ [LT; GT] Ha Hall) by (unfold symbols; set_solver).
    cbn [sees]. rewrite (proj2 Hsym). cbn [negb].
    destruct (gettoken_sym b i _ _ Ha Hall) as (w & -> & Ha2).
    destruct (gettoken_word b _ _ _ Ha2 Htl) as (-> & Ha3 & Hword).
    rewrite Z.eqb_refl. cbn [negb]. destruct (IH fuel _ Ha3 ltac:(simpl in Hf; lia)) as (rs' & j & -> & Hrs' & Hj).
    simpl. eexists _, j. split_and!; [done| |done]. rewrite fmap_cons, Hrs'. f_equal.
    unfold rd_of, redircmd, sym. destruct Hr as [[-> ->]|[-> ->]]; simpl; by rewrite Hword.
Qed.

Lemma tree_wrap b c rs : tree b (wrap c rs) = foldl aredir (tree b c) (rd_of b <$> rs).
Proof. revert c. induction rs as [|r rs IH]; intros c; simpl; [done|]. by rewrite IH. Qed.

(** ** Simple commands *)

(** The tokens that may follow a command of level 3, 2, 1 and 0. *)
Definition stops (lvl : nat) : list Z :=
  match lvl with
  | 0 => [RPAR]
  | 1 => [RPAR; SEMI]
  | 2 => [RPAR; SEMI; AMP]
  | _ => [RPAR; SEMI; AMP; BAR]
  end%nat.

Definition stop (lvl : nat) (ts : list token) : Prop :=
  match ts with [] => True | t :: _ => exists c, t = TSym c /\ c ∈ stops lvl end.

Lemma stop_sees lvl ts toks : stop lvl ts -> (forall c, c ∈ toks -> c ∉ stops lvl) -> sees toks ts = false.
Proof.
  intros Hs Ht. destruct ts as [|t ts]; [done|]. destruct Hs as (c & -> & Hc). simpl.
  apply bool_decide_eq_false. naive_solver.
Qed.

Lemma stop_le lvl lvl' ts : stop lvl ts -> (lvl <= lvl')%nat -> stop lvl' ts.
Proof.
  intros Hs Hl. destruct ts as [|t ts]; [done|]. destruct Hs as (c & -> & Hc). exists c. split; [done|].
  destruct lvl as [|[|[|]]], lvl' as [|[|[|]]]; try lia; simpl in *; set_solver.
Qed.

Lemma parseargs_stop fuel b i ts argv rs :
  left_at b i ts -> Forall token_ok ts -> stop 3 ts ->
  parseargs fuel b argv rs i = POk (wrap (EXEC argv) rs, i).
Proof.
  intros Ha Hts Hs.
  assert (Hp : peek b i [BAR; RPAR; AMP; SEMI] = (match ts with [] => false | _ => true end, i)).
  { rewrite (peek_left b i ts) by (first [done | unfold symbols; set_solver]). f_equal.
    destruct ts as [|t ts]; [done|]. destruct Hs as (c & -> & Hc). apply bool_decide_eq_true.
    simpl in Hc. set_solver. }
  destruct fuel; cbn [parseargs]; rewrite Hp; (destruct ts; [|done]);
    destruct (gettoken_end b i Ha) as [w ->]; done.
Qed.

Lemma parseargs_words w ws rs fuel b i ts argv rs0 :
  left_at b i ((TWord <$> w :: ws) ++ concat (redir_tokens <$> rs) ++ ts) ->
  Forall word_ok (w :: ws) -> Forall rd_ok rs -> Forall token_ok ts -> stop 3 ts ->
  (length (w :: ws) <= fuel)%nat -> (length rs <= length b)%nat -> (length argv + length (w :: ws) < MAXARGS)%nat ->
  exists ws' rs' j, parseargs fuel b argv rs0 i = POk (wrap (EXEC (argv ++ ws')) (rs0 ++ rs'), j) /\
    word_of b <$> ws' = w :: ws /\ rd_of b <$> rs' = rs /\ left_at b j ts.
Proof.
  intros Ha Hws Hrs Hts Hs Hf Hlen. revert w fuel i argv rs0 Ha Hws Hf.
  induction ws as [|w' ws IH]; intros w fuel i argv rs0 Ha Hws Hf Hmax;
    (destruct fuel as [|fuel]; [simpl in Hf; lia|]); apply Forall_cons_1 in Hws as [Hw Hws].
  all: assert (Htl : Forall token_ok ((TWord <$> w :: _) ++ concat (redir_tokens <$> rs) ++ ts))
    by (apply Forall_app; split; [apply Forall_fmap; by constructor|apply Forall_app; split; [by apply redir_tokens_ok|done]]).
  all: cbn [parseargs]; rewrite (peek_left b i _ _ Ha Htl) by (unfold symbols; set_solver).
  all: cbn [fmap list_fmap app sees]; destruct (gettoken_word b i w _ Ha Htl) as (-> & Ha2 & Hword).
  all: cbv beta iota zeta; change (WORD =? 0) with false; rewrite Z.eqb_refl; cbn [negb].
  all: rewrite (proj2 (Nat.leb_gt _ _)) by (rewrite length_app; simpl in *; lia).
  - destruct (parseredirs_left rs (length b) b _ ts Ha2 Hrs Hts) as (rs' & j & -> & Hrs' & Hj);
      [by eapply stop_sees; [exact Hs|]; simpl; set_solver|done|].
    simpl. rewrite (parseargs_stop fuel b j ts) by done. exists [(i, (i + length w)%nat)], rs', j.
    split_and!; [done| |done|done]. simpl. by rewrite Hword.
  - destruct (parseredirs_left [] (length b) b _ _ Ha2) as (rs' & j & -> & Hrs' & Hj);
      [constructor|by inversion Htl|done|simpl; lia|].
    apply fmap_nil_inv in Hrs' as ->. simpl.
    destruct (IH w' fuel j (@app word argv (@cons word (i, i + length w)%nat [])) (rs0 ++ [])) as (ws' & rs' & j' & -> & H1 & H2 & H3);
      [done|done|simpl in *; lia|rewrite length_app; simpl in *; lia|].
    exists ((i, (i + length w)%nat) :: ws'), rs', j'. split_and!; [|by rewrite fmap_cons, Hword, H1|done|done].
    by rewrite app_nil_r, <- app_assoc.
Qed.

(** ** Printing *)

Definition level (a : ast) : nat :=
  match a with AList _ _ => 0 | ABack _ => 1 | APipe _ _ => 2 | _ => 3 end%nat.

Definition paren (lvl : nat) (a : ast) (body : list token) : list token :=
  if (lvl <=? level a)%nat then body else TSym LPAR :: body ++ [TSym RPAR].

Fixpoint toks (lvl : nat) (a : ast) : list token :=
  paren lvl a
    match a with
    | AExec argv => TWord <$> argv
    | ARedir a file mode fd => toks 3 a ++ redir_tokens (file, mode, fd)
    | APipe l r => toks 3 l ++ TSym BAR :: toks 2 r
    | AList l r => toks 1 l ++ TSym SEMI :: toks 0 r
    | ABack a => toks 1 a ++ [TSym AMP]
    end.

Definition print (a : ast) : list Z := concat (render <$> toks 0 a).

Lemma toks_ok lvl a : ast_ok a -> Forall token_ok (toks lvl a).
Proof.
  assert (Hp : forall lvl a body, Forall token_ok body -> Forall token_ok (paren lvl a body)).
  { intros lvl' a' body H. unfold paren. destruct (_ <=? _)%nat; [done|].
    constructor; [simpl; unfold symbols; set_solver|]. apply Forall_app. split; [done|].
    constructor; [simpl; unfold symbols; set_solver|constructor]. }
  revert lvl. induction a as [argv|a IH file mode fd|l IHl r IHr|l IHl r IHr|a IH]; intros lvl Ha; simpl; apply Hp.
  - apply Forall_fmap. apply Ha.
  - destruct Ha as (Ha & Hf & Hr). apply Forall_app. split; [auto|].
    pose proof (redir_tokens_ok [(file, mode, fd)] ltac:(apply Forall_cons_2; [done|apply Forall_nil_2])) as H.
    simpl in H. done.
  - destruct Ha as [Hl Hr]. apply Forall_app. split; [auto|constructor; [simpl; unfold symbols; set_solver|auto]].
  - destruct Ha as [Hl Hr]. apply Forall_app. split; [auto|constructor; [simpl; unfold symbols; set_solver|auto]].
  - apply Forall_app. split; [by apply IH|constructor; [simpl; unfold symbols; set_solver|constructor]].
Qed.

(** ** Parsing what is printed *)

(** The parser of a level: a pipeline with its [&]s has none of its own. *)
Definition parse1 (fuel : nat) (b : list Z) (i : nat) : pres (cmd * nat) :=
  ' (c, s) <- parsepipe fuel b i ;; parseback (length b) b c s.

Definition parser (lvl : nat) : nat -> list Z -> nat -> pres (cmd * nat) :=
  match lvl with 0 => parseline | 1 => parse1 | 2 => parsepipe | _ => parseexec end%nat.

Definition extra (lvl : nat) : nat := match lvl with 0 => 4 | 1 | 2 => 3 | _ => 2 end%nat.

Definition parses (lvl : nat) (a : ast) : Prop :=
  forall fuel b i ts, left_at b i (toks lvl a ++ ts) -> Forall token_ok ts -> stop lvl ts ->
    (4 * (length b - i) + extra lvl <= fuel)%nat ->
    exists c j, parser lvl fuel b i = POk (c, j) /\ tree b c = a /\ left_at b j ts.

Lemma left_lt b i ts1 ts2 j : left_at b i (ts1 ++ ts2) -> left_at b j ts2 ->
  (length b - j + length (concat (render <$> ts1)) = length b - i)%nat.
Proof.
  intros [E1 H1] [E2 H2]. apply (f_equal length) in E1, E2. rewrite fmap_app, concat_app, length_app in E1.
  rewrite length_drop in *. lia.
Qed.

(** A pipeline of one command. *)
Lemma parses_2_3 a : ast_ok a -> toks 2 a = toks 3 a -> parses 3 a -> parses 2 a.
Proof.
  intros Ha Et H3 fuel b i ts Hat Hts Hs Hf. simpl in Hf. destruct fuel as [|fuel]; [lia|].
  rewrite Et in Hat. destruct (H3 fuel b i ts) as (c & j & E & Ht & Hj);
    [done|done|by apply (stop_le 2); [|lia]|simpl; lia|].
  cbn [parser] in E |- *. exists c, j. cbn [parsepipe]. rewrite E. cbn [pbind].
  rewrite (peek_left b j ts) by (first [done | unfold symbols; set_solver]).
  rewrite (stop_sees 2 ts) by (first [done | simpl; set_solver]). done.
Qed.

Lemma parseback_left n fuel b c i ts :
  left_at b i (replicate n (TSym AMP) ++ ts) -> Forall token_ok ts -> sees [AMP] ts = false -> (n <= fuel)%nat ->
  exists j, parseback fuel b c i = POk (Nat.iter n BACK c, j) /\ left_at b j ts.
Proof.
  intros Ha Hts Hs. revert fuel c i Ha. induction n as [|n IH]; intros fuel c i Ha Hf; simpl in Ha.
  - exists i. destruct fuel; cbn [parseback];
      rewrite (peek_left b i ts) by (first [done | unfold symbols; set_solver]); rewrite Hs; done.
  - destruct fuel as [|fuel]; [lia|]. assert (Hall : Forall token_ok (TSym AMP :: replicate n (TSym AMP) ++ ts)).
    { constructor; [simpl; unfold symbols; set_solver|]. apply Forall_app. split; [|done].
      apply Forall_replicate. simpl. unfold symbols. set_solver. }
    cbn [parseback]. rewrite (peek_left b i _ _ Ha Hall) by (unfold symbols; set_solver).
    destruct (gettoken_sym b i _ _ Ha Hall) as (w & -> & Ha2). simpl.
    destruct (IH fuel (BACK c) _ Ha2 ltac:(lia)) as (j & E & Hj). exists j. split; [|done].
    rewrite E. by rewrite Nat.iter_swap.
Qed.

Fixpoint asize (a : ast) : nat :=
  match a with
  | AExec _ => 1
  | ARedir a _ _ _ | ABack a => S (asize a)
  | APipe l r | AList l r => S (asize l + asize r)
  end.

(** A command and the [&]s after it. *)
Lemma backs a : ast_ok a -> exists n base, a = Nat.iter n ABack base /\ (n + asize base = asize a)%nat /\ ast_ok base /\
  toks 1 a = toks 2 base ++ replicate n (TSym AMP) /\ (level base <> 1)%nat.
Proof.
  induction a as [argv|a IH file mode fd|l IHl r IHr|l IHl r IHr|a IH]; intros Ha.
  1-4: exists 0%nat; eexists; split; [reflexivity|]; rewrite app_nil_r; split_and!; [lia|done|done|done].
  destruct (IH Ha) as (n & base & -> & Hs & Hok & Et & Hl). exists (S n), base.
  split_and!; [done|simpl; lia|done| |done]. cbn [toks]. unfold paren. simpl level. rewrite Et.
  replace (S n) with (n + 1)%nat by lia. by rewrite replicate_add, app_assoc.
Qed.

Lemma tree_backs b c n : tree b (Nat.iter n BACK c) = Nat.iter n ABack (tree b c).
Proof. induction n as [|n IH]; simpl; [done|]. by rewrite IH. Qed.

Lemma length_render_ge ts : (length ts <= length (concat (render <$> ts)))%nat.
Proof.
  induction ts as [|t ts IH]; [simpl; lia|]. rewrite fmap_cons. cbn [concat length]. rewrite length_app.
  assert (1 <= length (render t))%nat by (destruct t; simpl; rewrite ?length_app; simpl; lia). lia.
Qed.

Lemma parses_1 a n base :
  toks 1 a = toks 2 base ++ replicate n (TSym AMP) -> a = Nat.iter n ABack base -> parses 2 base -> parses 1 a.
Proof.
  intros Et -> H2 fuel b i ts Hat Hts Hs Hf. rewrite Et, <- app_assoc in Hat.
  assert (Hs2 : stop 2 (replicate n (TSym AMP) ++ ts)).
  { destruct n; [by apply (stop_le 1); [|lia]|]. exists AMP. split; [done|]. simpl. set_solver. }
  destruct (H2 fuel b i _ Hat) as (c & j & E & Ht & Hj); [|done|done|].
  { apply Forall_app. split; [|done]. apply Forall_replicate. simpl. unfold symbols. set_solver. }
  cbn [parser] in E |- *. unfold parse1. rewrite E. cbn [pbind].
  destruct (parseback_left n (length b) b c j ts Hj Hts) as (j' & -> & Hj');
    [apply (stop_sees 1); [done|simpl; set_solver]| |exists (Nat.iter n BACK c), j'; split_and!; [done|by rewrite tree_backs, Ht|done]].
  destruct Hj as [Ej _]. apply (f_equal length) in Ej. rewrite length_drop in Ej.
  pose proof (length_render_ge (replicate n (TSym AMP) ++ ts)) as Hg. rewrite length_app, length_replicate in Hg. lia.
Qed.

Lemma parse1_inv fuel b i c j :
  parse1 fuel b i = POk (c, j) ->
  exists c0 s0, parsepipe fuel b i = POk (c0, s0) /\ parseback (length b) b c0 s0 = POk (c, j).
Proof. unfold parse1. destruct (parsepipe fuel b i) as [[c0 s0]| |]; simpl; [|done..]. intros E. by exists c0, s0. Qed.

(** A line of one command. *)
Lemma parses_0_1 a : toks 0 a = toks 1 a -> parses 1 a -> parses 0 a.
Proof.
  intros Et H1 fuel b i ts Hat Hts Hs Hf. simpl in Hf. destruct fuel as [|fuel]; [lia|].
  rewrite Et in Hat. destruct (H1 fuel b i ts) as (c & j & E & Ht & Hj);
    [done|done|by apply (stop_le 0); [|lia]|simpl; lia|].
  cbn [parser] in E |- *. apply parse1_inv in E as (c0 & s0 & E1 & E2). exists c, j. cbn [parseline]. rewrite E1.
  cbn [pbind]. rewrite E2. cbn [pbind].
  rewrite (peek_left b j ts) by (first [done | unfold symbols; set_solver]).
  rewrite (stop_sees 0 ts) by (first [done | simpl; set_solver]). done.
Qed.

(** A block and its redirections. *)
Lemma parses_block a rs fuel b i ts :
  parses 0 a -> ast_ok a -> Forall rd_ok rs ->
  left_at b i (TSym LPAR :: toks 0 a ++ TSym RPAR :: concat (redir_tokens <$> rs) ++ ts) ->
  Forall token_ok ts -> stop 3 ts -> (4 * (length b - i) + 2 <= fuel)%nat ->
  exists c j, parseexec fuel b i = POk (c, j) /\ tree b c = foldl aredir a rs /\ left_at b j ts.
Proof.
  intros H0 Ha Hrs Hat Hts Hs Hf. destruct fuel as [|[|fuel]]; [lia|lia|].
  assert (Htail : Forall token_ok (concat (redir_tokens <$> rs) ++ ts)) by (apply Forall_app; split; [by apply redir_tokens_ok|done]).
  assert (Hr : Forall token_ok (TSym RPAR :: concat (redir_tokens <$> rs) ++ ts)) by (constructor; [simpl; unfold symbols; set_solver|done]).
  assert (Hall : Forall token_ok (TSym LPAR :: toks 0 a ++ TSym RPAR :: concat (redir_tokens <$> rs) ++ ts)).
  { constructor; [simpl; unfold symbols; set_solver|]. apply Forall_app. split; [by apply toks_ok|done]. }
  assert (Hpk : peek b i [LPAR] = (true, i)) by (rewrite (peek_left b i _ _ Hat Hall) by (unfold symbols; set_solver); done).
  cbn [parseexec]. rewrite Hpk. cbn [parseblock]. rewrite Hpk. cbn [negb].
  destruct (gettoken_sym b i _ _ Hat Hall) as (w & -> & Hat2).
  assert (i + 2 <= length b)%nat by apply Hat2.
  destruct (H0 fuel b (i + 2)%nat _ Hat2 Hr) as (c & j & E & Ht & Hj); [exists RPAR; split; [done|simpl; set_solver]|simpl; lia|].
  cbn [parser] in E. rewrite E. cbn [pbind].
  rewrite (peek_left b j _ _ Hj Hr) by (unfold symbols; set_solver). cbn [sees].
  destruct (gettoken_sym b j _ _ Hj Hr) as (w' & -> & Hj2). simpl.
  destruct (parseredirs_left rs (length b) b _ ts Hj2 Hrs Hts) as (rs' & j' & -> & Hrs' & Hj');
    [apply (stop_sees 3); [done|simpl; set_solver]| |].
  { destruct Hj2 as [Ej _]. apply (f_equal length) in Ej. rewrite length_drop in Ej.
    pose proof (length_render_ge (concat (redir_tokens <$> rs) ++ ts)) as Hg. rewrite length_app in Hg.
    assert (length rs <= length (concat (redir_tokens <$> rs)))%nat.
    { clear. induction rs as [|[[? ?] ?] rs IH]; [done|]. rewrite fmap_cons. cbn [concat redir_tokens app length]. lia. }
    lia. }
  exists (wrap c rs'), j'. split_and!; [done| |done]. by rewrite tree_wrap, Ht, Hrs'.
Qed.

Lemma toks_paren a : (level a < 3)%nat -> toks 3 a = TSym LPAR :: toks 0 a ++ [TSym RPAR].
Proof. by destruct a; simpl; try lia. Qed.

(** A command of level 3 is a simple command or a block, with redirections. *)
Lemma redirs a : ast_ok a -> level a = 3%nat -> exists base rs, a = foldl aredir base rs /\ ast_ok base /\
  Forall rd_ok rs /\ toks 3 a = toks 3 base ++ concat (redir_tokens <$> rs) /\
  ((exists argv, base = AExec argv) \/ ((level base < 3)%nat /\ (asize base < asize a)%nat)).
Proof.
  induction a as [argv|a IH file mode fd| | |]; intros Ha Hl; simpl in Hl; try lia.
  - exists (AExec argv), []. split_and!; [done|done|constructor|by rewrite app_nil_r|]. left. by eexists.
  - destruct Ha as (Ha & Hf & Hr).
    assert (Hone : Forall rd_ok [(file, mode, fd)]) by (apply Forall_cons_2; [done|apply Forall_nil_2]).
    destruct (decide (level a = 3%nat)) as [E|E].
    + destruct (IH Ha E) as (base & rs & -> & Hb & Hrs & Et & Hor). exists base, (rs ++ [(file, mode, fd)]).
      split_and!; [by rewrite foldl_snoc|done|by apply Forall_app| |].
      * cbn [toks]. unfold paren. simpl level. rewrite Et. rewrite fmap_app, concat_app. simpl. by rewrite <- app_assoc.
      * destruct Hor as [|[? ?]]; [by left|right; split; [done|simpl; lia]].
    + exists a, [(file, mode, fd)]. split_and!; [done|done|done|done|]. right. split; [destruct a; simpl in *; lia|simpl; lia].
Qed.

Lemma parses_exec argv rs fuel b i ts :
  Forall word_ok argv -> (length argv < MAXARGS)%nat -> Forall rd_ok rs ->
  left_at b i ((TWord <$> argv) ++ concat (redir_tokens <$> rs) ++ ts) -> Forall token_ok ts -> stop 3 ts ->
  (2 <= fuel)%nat ->
  exists c j, parseexec fuel b i = POk (c, j) /\ tree b c = foldl aredir (AExec argv) rs /\ left_at b j ts.
Proof.
  intros Hw Hmax Hrs Hat Hts Hs Hf. destruct fuel as [|fuel]; [lia|].
  assert (Hall : Forall token_ok ((TWord <$> argv) ++ concat (redir_tokens <$> rs) ++ ts)).
  { apply Forall_app; split; [by apply Forall_fmap|apply Forall_app; split; [by apply redir_tokens_ok|done]]. }
  assert (Hno : sees [LPAR] ((TWord <$> argv) ++ concat (redir_tokens <$> rs) ++ ts) = false).
  { destruct argv; [|done]. destruct rs as [|[[f m] fd] rs]; [apply (stop_sees 3); [done|simpl; set_solver]|].
    simpl. by destruct (fd =? 0). }
  assert (Hlen : forall k, left_at b k ((TWord <$> argv) ++ concat (redir_tokens <$> rs) ++ ts) ->
    (length argv + length rs <= length b)%nat).
  { intros k [E _]. apply (f_equal length) in E. rewrite length_drop in E.
    pose proof (length_render_ge ((TWord <$> argv) ++ concat (redir_tokens <$> rs) ++ ts)) as Hg.
    rewrite !length_app, length_fmap in Hg.
    assert (length rs <= length (concat (redir_tokens <$> rs)))%nat; [|lia].
    clear. induction rs as [|[[? ?] ?] rs IH]; [done|]. rewrite fmap_cons. cbn [concat redir_tokens app length]. lia. }
  specialize (Hlen i Hat). cbn [parseexec].
  rewrite (peek_left b i _ _ Hat Hall) by (unfold symbols; set_solver). rewrite Hno.
  destruct argv as [|w ws].
  - destruct (parseredirs_left rs (length b) b i ts Hat Hrs Hts) as (rs' & j & -> & Hrs' & Hj);
      [apply (stop_sees 3); [done|simpl; set_solver]|simpl in Hlen; lia|].
    simpl. rewrite (parseargs_stop _ b j ts) by done. exists (wrap (EXEC []) rs'), j. split_and!; [done| |done].
    by rewrite tree_wrap, Hrs'.
  - destruct (parseredirs_left [] (length b) b i _ Hat) as (rs0 & j & -> & Hrs0 & Hj); [constructor|done|done|simpl; lia|].
    apply fmap_nil_inv in Hrs0 as ->. cbn [pbind].
    destruct (parseargs_words w ws rs (length b) b j ts [] [] Hj) as (ws' & rs' & j' & -> & H1 & H2 & H3);
      [done..|simpl in *; lia|lia|simpl in *; lia|].
    exists (wrap (EXEC ([] ++ ws')) ([] ++ rs')), j'. split_and!; [done| |done]. rewrite tree_wrap. simpl. by rewrite H1, H2.
Qed.

Lemma parses_3 a : ast_ok a -> level a = 3%nat ->
  (forall a', (asize a' < asize a)%nat -> ast_ok a' -> parses 0 a') -> parses 3 a.
Proof.
  intros Ha Hl IH fuel b i ts Hat Hts Hs Hf. simpl in Hf.
  destruct (redirs a Ha Hl) as (base & rs & E & Hb & Hrs & Et & Hor). rewrite Et in Hat. cbn [parser].
  rewrite E. destruct Hor as [[argv ->]|[Hl' Hsz]].
  - destruct Hb as [Hw Hm]. apply parses_exec; [done..|by rewrite <- app_assoc in Hat|done|done|lia].
  - rewrite (toks_paren base Hl') in Hat. apply parses_block; [by apply IH|done|done| |done|done|lia].
    simpl in Hat. by rewrite <- !app_assoc in Hat.
Qed.

Lemma parses_paren a : ast_ok a -> (level a < 3)%nat -> parses 0 a -> parses 3 a.
Proof.
  intros Ha Hl H0 fuel b i ts Hat Hts Hs Hf. simpl in Hf. rewrite (toks_paren a Hl) in Hat. cbn [parser].
  apply (parses_block a []); [done|done|constructor| |done|done|lia]. simpl in *. by rewrite <- app_assoc in Hat.
Qed.

Lemma parses_pipe l r : ast_ok l -> ast_ok r -> parses 3 l -> parses 2 r -> parses 2 (APipe l r).
Proof.
  intros Hl Hr H3 H2 fuel b i ts Hat Hts Hs Hf. simpl in Hf. destruct fuel as [|fuel]; [lia|].
  change (toks 2 (APipe l r)) with (toks 3 l ++ TSym BAR :: toks 2 r) in Hat. rewrite <- app_assoc in Hat. simpl in Hat.
  assert (Hall : Forall token_ok (TSym BAR :: toks 2 r ++ ts)).
  { constructor; [simpl; unfold symbols; set_solver|]. apply Forall_app. split; [by apply toks_ok|done]. }
  destruct (H3 fuel b i _ Hat Hall) as (c & j & E & Ht & Hj); [exists BAR; split; [done|simpl; set_solver]|simpl; lia|].
  pose proof (left_lt b i _ _ j Hat Hj) as Hlt.
  cbn [parser] in E |- *. cbn [parsepipe]. rewrite E. cbn [pbind].
  rewrite (peek_left b j _ _ Hj Hall) by (unfold symbols; set_solver). cbn [sees].
  destruct (gettoken_sym b j _ _ Hj Hall) as (w & -> & Hj2). assert (j + 2 <= length b)%nat by apply Hj2.
  destruct (H2 fuel b (j + 2)%nat ts Hj2 Hts Hs) as (c' & j' & E' & Ht' & Hj'); [simpl; lia|].
  cbn [parser] in E'. change (is_in [BAR] BAR) with true. cbn iota. rewrite E'. exists (PIPE c c'), j'.
  split_and!; [done| |done]. simpl. by rewrite Ht, Ht'.
Qed.

Lemma parses_list l r : ast_ok l -> ast_ok r -> parses 1 l -> parses 0 r -> parses 0 (AList l r).
Proof.
  intros Hl Hr H1 H0 fuel b i ts Hat Hts Hs Hf. simpl in Hf. destruct fuel as [|fuel]; [lia|].
  change (toks 0 (AList l r)) with (toks 1 l ++ TSym SEMI :: toks 0 r) in Hat. rewrite <- app_assoc in Hat. simpl in Hat.
  assert (Hall : Forall token_ok (TSym SEMI :: toks 0 r ++ ts)).
  { constructor; [simpl; unfold symbols; set_solver|]. apply Forall_app. split; [by apply toks_ok|done]. }
  destruct (H1 fuel b i _ Hat Hall) as (c & j & E & Ht & Hj); [exists SEMI; split; [done|simpl; set_solver]|simpl; lia|].
  pose proof (left_lt b i _ _ j Hat Hj) as Hlt.
  cbn [parser] in E |- *. apply parse1_inv in E as (c0 & s0 & E1 & E2). cbn [parseline]. rewrite E1. cbn [pbind].
  rewrite E2. cbn [pbind]. rewrite (peek_left b j _ _ Hj Hall) by (unfold symbols; set_solver). cbn [sees].
  destruct (gettoken_sym b j _ _ Hj Hall) as (w & -> & Hj2). assert (j + 2 <= length b)%nat by apply Hj2.
  destruct (H0 fuel b (j + 2)%nat ts Hj2 Hts Hs) as (c' & j' & E' & Ht' & Hj'); [simpl; lia|].
  cbn [parser] in E'. change (is_in [SEMI] SEMI) with true. cbn iota. rewrite E'. exists (LIST c c'), j'.
  split_and!; [done| |done]. simpl. by rewrite Ht, Ht'.
Qed.

Lemma parses_all a : ast_ok a -> parses 0 a /\ parses 1 a /\ parses 2 a /\ parses 3 a.
Proof.
  remember (asize a) as n eqn:Hn. revert a Hn. induction n as [n IH] using lt_wf_ind; intros a -> Ha.
  assert (IH' : forall a', (asize a' < asize a)%nat -> ast_ok a' -> parses 0 a' /\ parses 1 a' /\ parses 2 a' /\ parses 3 a')
    by (intros a' Hlt; by apply (IH (asize a'))).
  assert (H12 : forall n base, toks 1 a = toks 2 base ++ replicate n (TSym AMP) -> a = Nat.iter n ABack base -> parses 2 base -> parses 1 a)
    by (intros; by eapply parses_1).
  assert (Hflat : toks 1 a = toks 2 a -> parses 2 a -> parses 1 a).
  { intros Et H2. apply (H12 0%nat a); [by rewrite app_nil_r|done|done]. }
  destruct a as [argv|a file mode fd|l r|l r|a].
  1-2: match goal with |- parses 0 ?a /\ _ =>
    assert (H3 : parses 3 a) by (apply parses_3; [exact Ha|reflexivity|intros a' Hlt Hok; exact (proj1 (IH' a' Hlt Hok))]);
    assert (H2 : parses 2 a) by (by apply (parses_2_3 _ Ha eq_refl));
    assert (H1 : parses 1 a) by (by apply Hflat) end; split_and!; [by apply parses_0_1|done..].
  - destruct Ha as [Hl Hr]. assert (H2 : parses 2 (APipe l r)).
    { apply parses_pipe; [done|done|apply IH'; [simpl; lia|done]|apply IH'; [simpl; lia|done]]. }
    assert (H1 : parses 1 (APipe l r)) by (by apply Hflat). assert (H0 : parses 0 (APipe l r)) by (by apply parses_0_1).
    split_and!; [done..|]. apply parses_paren; [done|simpl; lia|done].
  - destruct Ha as [Hl Hr]. assert (H0 : parses 0 (AList l r)).
    { apply parses_list; [done|done|apply IH'; [simpl; lia|done]|apply IH'; [simpl; lia|done]]. }
    assert (H3 : parses 3 (AList l r)) by (apply parses_paren; [done|simpl; lia|done]).
    assert (H2 : parses 2 (AList l r)) by (by apply parses_2_3). split_and!; [done|by apply Hflat|done|done].
  - destruct (backs (ABack a) Ha) as (n & base & E & Hs & Hok & Et & Hl).
    assert (H1 : parses 1 (ABack a)).
    { apply (H12 n base); [done|done|]. apply IH'; [|done]. destruct n; [|lia]. simpl in E. by rewrite <- E in Hl. }
    assert (H0 : parses 0 (ABack a)) by (by apply parses_0_1).
    assert (H3 : parses 3 (ABack a)) by (apply parses_paren; [done|simpl; lia|done]). split_and!; [done|done|by apply parses_2_3|done].
Qed.

(** C30: the shell's parser reads back every command tree that its grammar can
    express from the line that prints it: [;], [&], [|] and redirections bind as
    they should, parentheses override them, and every word and redirection of the
    tree is the one of the line. *)
Theorem parse_print a : ast_ok a -> exists c, parsecmd (print a) = POk c /\ tree (print a) c = a.
Proof.
  intros Ha. destruct (parses_all a Ha) as (H0 & _).
  destruct (H0 (parse_fuel (print a)) (print a) 0%nat []) as (c & j & E & Ht & Hj).
  - split; [|lia]. by rewrite app_nil_r, drop_0.
  - constructor.
  - done.
  - unfold parse_fuel. simpl. lia.
  - exists c. split; [|done]. unfold parsecmd. cbn [parser] in E. rewrite E. cbn [pbind].
    rewrite (peek_left _ j [] [] Hj) by (first [apply Forall_nil_2 | set_solver]).
    destruct Hj as [Ej Hl]. apply (f_equal length) in Ej. rewrite length_drop in Ej. simpl in Ej.
    rewrite (proj2 (Nat.eqb_eq _ _)) by lia. done.
Qed.

(** [( a < f ; b & ) | c], with the block as the left side of the pipe. *)
Definition demo_ast : ast :=
  APipe (AList (ARedir (AExec [[97]]) [102] O_RDONLY 0) (ABack (AExec [[98]]))) (AExec [[99]; [100]]).

Lemma parse_print_witness : exists c, parsecmd (print demo_ast) = POk c /\ tree (print demo_ast) c = demo_ast.
Proof.
  apply (parse_print demo_ast). unfold demo_ast. simpl. unfold MAXARGS, word_ok, redir_ok.
  assert (W : forall c, 97 <= c <= 102 -> [c] <> [] /\ Forall word_char [c]).
  { intros c Hc. split; [done|]. apply Forall_cons_2; [|apply Forall_nil_2]. unfold word_char, whitespace, symbols.
    set_unfold. unfold LT, BAR, GT, AMP, SEMI, LPAR, RPAR, SPACE. lia. }
  repeat split; try (left; done); try lia; repeat (apply Forall_cons_2; [apply W; lia|]);
    try apply Forall_nil_2; apply W; lia.
Defined.

(** ** Words become strings *)

#[local] Transparent peek gettoken.

(** The words of a command. *)
Fixpoint words (c : cmd) : list word :=
  match c with
  | EXEC argv => argv
  | REDIR c r => words c ++ [r_file r]
  | PIPE l r | LIST l r => words l ++ words r
  | BACK c => words c
  end.

Definition wordb (c : Z) : bool := negb (is_in whitespace c) && negb (is_in symbols c).

(** A word in the line: a longest run of word characters. *)
Definition proper (b : list Z) (w : word) : Prop :=
  (fst w < snd w <= length b)%nat /\ (forall i, (fst w <= i < snd w)%nat -> wordb (ch b i) = true) /\
  ((snd w < length b)%nat -> wordb (ch b (snd w)) = false).

Lemma skip_run p b s i : (s <= i < skip p b s)%nat -> p (ch b i) = true.
Proof.
  unfold skip, ch. intros H. replace i with (s + (i - s))%nat by lia. rewrite <- lookup_drop.
  assert (Hi : (i - s < span p (drop s b))%nat) by lia. clear H. revert Hi. generalize (i - s)%nat as k.
  induction (drop s b) as [|x l IH]; intros k Hk; simpl in *; [lia|].
  destruct (p x) eqn:E; [|lia]. destruct k as [|k]; [done|]. simpl. apply IH. lia.
Qed.

Lemma gettoken_proper b s tok w s' :
  gettoken b s = (tok, w, s') -> tok = WORD -> (s <= length b)%nat -> proper b w.
Proof.
  intros E -> Hs. unfold gettoken in E. set (q := skipws b s) in *.
  assert (Hq : (s <= q <= length b)%nat) by (by apply skip_le).
  destruct (Z.eqb_spec (ch b q) 0) as [E0|E0]; [rewrite E0 in E; by simplify_eq|].
  assert (Hlt : (q < length b)%nat) by (by apply ch_lt).
  destruct (is_in _ (ch b q)) eqn:Es.
  { assert (Ec : ch b q = WORD) by (by simplify_eq). rewrite Ec in Es. done. }
  destruct (Z.eqb_spec (ch b q) GT) as [Eg|Eg].
  { destruct (ch b (S q) =? GT); [by simplify_eq|]. rewrite Eg in E. by simplify_eq. }
  simplify_eq. unfold proper. simpl. pose proof (skip_le wordb b q ltac:(lia)) as Hw.
  split_and!.
  - apply skip_first; [|done]. pose proof (skip_stop (is_in whitespace) b s Hlt) as Hws. fold (skipws b s) in Hws. fold q in Hws.
    rewrite Hws. simpl. unfold is_in in *. rewrite bool_decide_eq_false in Es. rewrite bool_decide_false; [done|].
    unfold symbols. set_solver.
  - apply Hw.
  - intros i Hi. by apply (skip_run wordb b q).
  - intros Hl. by apply (skip_stop wordb b q).
Qed.

Section Proper.
Variable b : list Z.

Definition rs_proper (rs : list redir) : Prop := Forall (fun r => proper b (r_file r)) rs.

Lemma words_wrap c rs : words (wrap c rs) = words c ++ (r_file <$> rs).
Proof. revert c. induction rs as [|r rs IH]; intros c; simpl; [by rewrite app_nil_r|]. rewrite IH. simpl. by rewrite <- app_assoc. Qed.

Lemma redircmd_file tok w : r_file (redircmd tok w) = w.
Proof. unfold redircmd. by destruct (_ =? _). Qed.

Lemma parseredirs_proper fuel s rs s' :
  (s <= length b)%nat -> parseredirs fuel b s = POk (rs, s') -> rs_proper rs /\ (s <= s' <= length b)%nat.
Proof.
  revert s rs s'. induction fuel as [|fuel IH]; intros s rs s' Hs E;
    pose proof (peek_le b s [LT; GT] Hs) as Hp; cbn [parseredirs] in E; destruct (peek b s [LT; GT]) as [[] s1]; simpl in Hp, E;
    simplify_eq; try (split; [by constructor|lia]).
  pose proof (gettoken_le b s1 ltac:(lia)) as H1. destruct (gettoken b s1) as [[tok w] s2]. destruct H1 as (H1 & _).
  pose proof (gettoken_le b s2 ltac:(lia)) as H2. destruct (gettoken b s2) as [[tok' w'] s3] eqn:E3. destruct H2 as (H2 & _).
  destruct (Z.eqb_spec tok' WORD); [|done]. simpl in E.
  destruct (parseredirs fuel b s3) as [[rs1 s4]| |] eqn:E4; simpl in E; simplify_eq.
  destruct (IH s3 rs1 s' ltac:(lia) E4) as [Hr Hl]. split; [|lia]. constructor; [|done].
  rewrite redircmd_file. by eapply gettoken_proper; [exact E3|done|lia].
Qed.

Lemma parseargs_proper fuel argv rs s c s' :
  (s <= length b)%nat -> Forall (proper b) argv -> rs_proper rs ->
  parseargs fuel b argv rs s = POk (c, s') -> Forall (proper b) (words c) /\ (s <= s' <= length b)%nat.
Proof.
  revert argv rs s. induction fuel as [|fuel IH]; intros argv rs s Hs Ha Hr E;
    pose proof (peek_le b s [BAR; RPAR; AMP; SEMI] Hs) as Hp; cbn [parseargs] in E;
    destruct (peek b s [BAR; RPAR; AMP; SEMI]) as [[] s1]; cbn [snd] in Hp; cbv beta iota zeta in E.
  1,3: simplify_eq; split; [rewrite words_wrap; apply Forall_app; split; [done|by apply Forall_fmap]|lia].
  all: pose proof (gettoken_le b s1 ltac:(lia)) as H1; destruct (gettoken b s1) as [[tok w] s2] eqn:E2; destruct H1 as (H1 & _).
  all: destruct (tok =? 0); [simplify_eq; split; [rewrite words_wrap; apply Forall_app; split; [done|by apply Forall_fmap]|lia]|].
  all: destruct (Z.eqb_spec tok WORD) as [Hw|]; [|done]; cbn [negb] in E.
  all: destruct (MAXARGS <=? length (argv ++ [w]))%nat; [done|].
  - done.
  - destruct (parseredirs (length b) b s2) as [[rs1 s3]| |] eqn:E3; cbn [pbind] in E; [|done..].
    apply parseredirs_proper in E3 as [Hr1 H3]; [|lia]. apply IH in E as [Hc H4]; [split; [done|lia]|lia| |by apply Forall_app].
    apply Forall_app. split; [done|]. constructor; [by eapply gettoken_proper; [exact E2|done|lia]|constructor].
Qed.

Lemma parseback_words fuel c s c' s' :
  (s <= length b)%nat -> parseback fuel b c s = POk (c', s') -> words c' = words c /\ (s <= s' <= length b)%nat.
Proof.
  revert c s. induction fuel as [|fuel IH]; intros c s Hs E; pose proof (peek_le b s [AMP] Hs) as Hp;
    cbn [parseback] in E; destruct (peek b s [AMP]) as [[] s1]; simpl in Hp, E; simplify_eq; try done.
  pose proof (gettoken_le b s1 ltac:(lia)) as H1. destruct (gettoken b s1) as [[tok w] s2]. destruct H1 as (H1 & _).
  apply IH in E as [-> H2]; [split; [done|lia]|lia].
Qed.

Definition yields (r : pres (cmd * nat)) : Prop :=
  match r with POk (c, s) => Forall (proper b) (words c) /\ (s <= length b)%nat | _ => True end.

Lemma yields_bind r f : yields r ->
  (forall c s, Forall (proper b) (words c) -> (s <= length b)%nat -> yields (f (c, s))) -> yields (pbind r f).
Proof. intros Hr Hf. destruct r as [[c s]| |]; simpl in *; [|done..]. apply Hf; apply Hr. Qed.

Lemma token_le s : (s <= length b)%nat -> (snd (gettoken b s) <= length b)%nat.
Proof. intros Hs. pose proof (gettoken_le b s Hs) as H. destruct (gettoken b s) as [[tok w] s']. simpl. lia. Qed.

#[local] Opaque peek gettoken.

Lemma parse_proper fuel : forall s, (s <= length b)%nat ->
  yields (parseline fuel b s) /\ yields (parsepipe fuel b s) /\ yields (parseexec fuel b s) /\ yields (parseblock fuel b s).
Proof.
  induction fuel as [|fuel IH]; intros s Hs; [done|].
  assert (Hpk : forall s toks, (s <= length b)%nat -> (snd (peek b s toks) <= length b)%nat) by (intros; by apply peek_le).
  split_and!; cbn [parseline parsepipe parseexec parseblock].
  - apply yields_bind; [by apply IH|]. intros c s1 Hc H1. destruct (parseback (length b) b c s1) as [[c' s2]| |] eqn:E; [|done..].
    apply parseback_words in E as [Ew H2]; [|done]. cbn [pbind]. specialize (Hpk s2 [SEMI] ltac:(lia)).
    destruct (peek b s2 [SEMI]) as [[] s3]; [|split; [by rewrite Ew|done]].
    pose proof (token_le s3 Hpk) as H4. destruct (gettoken b s3) as [[tok w] s4]. apply yields_bind; [by apply IH|].
    intros r s5 Hr H5. split; [|done]. simpl. rewrite Ew. by apply Forall_app.
  - apply yields_bind; [by apply IH|]. intros c s1 Hc H1. specialize (Hpk s1 [BAR] ltac:(lia)).
    destruct (peek b s1 [BAR]) as [[] s3]; [|done].
    pose proof (token_le s3 Hpk) as H4. destruct (gettoken b s3) as [[tok w] s4]. apply yields_bind; [by apply IH|].
    intros r s5 Hr H5. split; [|done]. simpl. by apply Forall_app.
  - specialize (Hpk s [LPAR] Hs). destruct (peek b s [LPAR]) as [[] s1]; [by apply IH|].
    destruct (parseredirs (length b) b s1) as [[rs s2]| |] eqn:E; [|done..]. apply parseredirs_proper in E as [Hr H2]; [|done].
    cbn [pbind]. destruct (parseargs (length b) b [] rs s2) as [[c s3]| |] eqn:E; [|done..].
    apply parseargs_proper in E as [Hc H3]; [split; [done|lia]|lia|constructor|done].
  - pose proof (Hpk s [LPAR] Hs) as H1. destruct (peek b s [LPAR]) as [[] s1]; [|done]. cbn [negb].
    pose proof (token_le s1 H1) as H2. destruct (gettoken b s1) as [[tok w] s2]. apply yields_bind; [by apply IH|].
    intros c s3 Hc H3. specialize (Hpk s3 [RPAR] H3). destruct (peek b s3 [RPAR]) as [[] s4]; [|done]. cbn [negb].
    pose proof (token_le s4 Hpk) as H5. destruct (gettoken b s4) as [[tok' w'] s5].
    destruct (parseredirs (length b) b s5) as [[rs s6]| |] eqn:E; [|done..]. apply parseredirs_proper in E as [Hr H6]; [|done].
    cbn [pbind]. split; [|lia]. rewrite words_wrap. apply Forall_app. split; [done|by apply Forall_fmap].
Qed.
End Proper.

(** [nulterminate] writes zero bytes after words and nowhere else. *)
Lemma nulterminate_fold c b : nulterminate c b = foldl put0 b (snd <$> words c).
Proof.
  revert b. induction c as [argv|c IH r|l IHl r IHr|l IHl r IHr|c IH]; intros b; simpl.
  - by rewrite foldl_fmap.
  - by rewrite IH, fmap_app, foldl_app.
  - by rewrite IHl, IHr, fmap_app, foldl_app.
  - by rewrite IHl, IHr, fmap_app, foldl_app.
  - apply IH.
Qed.

Lemma put0_lookup l b i :
  Forall (fun j => (j < length b)%nat) l ->
  foldl put0 b l !! i = if bool_decide (i ∈ l) then Some 0 else b !! i.
Proof.
  revert b. induction l as [|j l IH]; intros b Hl; simpl; [done|].
  apply Forall_cons_1 in Hl as [Hj Hl]. rewrite IH by (unfold put0; by rewrite length_insert). unfold put0.
  destruct (decide (i ∈ l)); [rewrite !bool_decide_true by set_solver; done|].
  rewrite (bool_decide_false (i ∈ l)) by done. destruct (decide (i = j)) as [->|].
  - rewrite bool_decide_true by set_solver. by apply list_lookup_insert_eq.
  - rewrite bool_decide_false by set_solver. by apply list_lookup_insert_ne.
Qed.

(** The C string at the beginning of an array. *)
Fixpoint cstring (l : list Z) : list Z :=
  match l with
  | c :: l => if c =? 0 then [] else c :: cstring l
  | [] => []
  end.

Lemma cstring_take l n :
  (forall i, (i < n)%nat -> exists c, l !! i = Some c /\ c <> 0) -> l !! n = Some 0 -> cstring l = take n l.
Proof.
  revert l. induction n as [|n IH]; intros l Hl Hn; destruct l as [|c l]; try done; simpl in *.
  - simplify_eq. done.
  - destruct (Hl 0%nat ltac:(lia)) as (c' & Ec & Hc). simpl in Ec. simplify_eq.
    rewrite (proj2 (Z.eqb_neq _ _) Hc). f_equal. apply IH; [|done]. intros i Hi. apply (Hl (S i)). lia.
Qed.

(** After [nulterminate] the pointers of the parsed command are C strings:
    each argument and each file name reads as exactly the characters of its word
    in the command line, although the words are terminated in place. *)
Theorem nulterminate_strings b c w :
  0 ∉ b -> parsecmd b = POk c -> w ∈ words c ->
  cstring (drop (fst w) (nulterminate c (b ++ [0]))) = word_of b w.
Proof.
  intros H0 E Hw. unfold parsecmd in E. destruct (parse_proper b (parse_fuel b) 0 ltac:(lia)) as (Hp & _).
  destruct (parseline (parse_fuel b) b 0) as [[c' s]| |]; cbn [pbind] in E; [|done..].
  destruct (peek b s []) as [t s']. destruct (negb (s' =? length b)%nat); simplify_eq. destruct Hp as [Hp _].
  rewrite nulterminate_fold. set (ends := snd <$> words c).
  assert (Hends : Forall (fun j => (j < length (b ++ [0%Z]))%nat) ends).
  { apply Forall_fmap. eapply Forall_impl; [exact Hp|]. intros v [Hv _]. simpl. rewrite length_app. simpl. lia. }
  assert (Hch : forall i, (i < length b)%nat -> b !! i = Some (ch b i)).
  { intros i Hi. destruct (lookup_lt_is_Some_2 b i Hi) as [x Hx]. unfold ch. by rewrite Hx. }
  pose proof Hp as Hall. rewrite Forall_forall in Hall. destruct (Hall w Hw) as ((Hlt & Hle) & Hin & _).
  assert (Hno : forall i, (fst w <= i < snd w)%nat -> foldl put0 (b ++ [0]) ends !! i = b !! i).
  { intros i Hi. rewrite put0_lookup by done. rewrite bool_decide_false, lookup_app_l by (first [lia | done
      | intros Hi'; apply list_elem_of_fmap in Hi' as (v & -> & Hv); destruct (Hall v Hv) as (_ & _ & Hv');
        rewrite Hin in Hv' by done; by specialize (Hv' ltac:(lia))]). done. }
  unfold word_of. rewrite (cstring_take _ (snd w - fst w)).
  - apply list_eq. intros i. destruct (decide (i < snd w - fst w)%nat).
    + rewrite !lookup_take_lt, !lookup_drop by done. apply Hno. lia.
    + rewrite !lookup_take_ge by lia. done.
  - intros i Hi. rewrite lookup_drop, Hno by lia. exists (ch b (fst w + i)). split; [apply Hch; lia|].
    intros Ez. apply H0. eapply list_elem_of_lookup_2. rewrite (Hch (fst w + i)%nat) by lia. by rewrite Ez.
  - rewrite lookup_drop, put0_lookup by done. rewrite bool_decide_true; [done|].
    replace (fst w + (snd w - fst w))%nat with (snd w) by lia. apply list_elem_of_fmap. by exists w.
Qed.

(** [a>f], whose words touch the symbol between them. *)
