(* ===== verification/ShRun.v ===== *)
(** * The shell: running commands

    [runcmd] of [user/sh.c] as the system calls a process makes, with those of the
    processes it forks, and a specification of which programs are executed, with
    which open files, and after which others have ended. *)

From stdpp Require Import base list numbers strings tactics gmap.
From Stdlib Require Import Lia.
From S2P Require Import Prelude Params Sh ShThm.

Local Open Scope Z_scope.

(** ** System calls *)

(** What a process does.  [PExec] goes on when [exec] fails; the numbers a call
    returns are passed on. *)
Inductive prog :=
| PExit
| PPrint (msg : list (list Z)) (k : prog)
| PExec (argv : list (list Z)) (k : prog)
| PClose (fd : nat) (k : prog)
| POpen (file : list Z) (mode : Z) (k : option nat -> prog)
| PPipe (k : option (nat * nat) -> prog)
| PDup (fd : nat) (k : prog)
| PFork (child k fail : prog)
| PWait (k : prog).

Definition str (s : string) : list Z := (fun c => Z.of_N (Ascii.N_of_ascii c)) <$> String.list_ascii_of_string s.

Definition panic_prog (s : string) : prog := PPrint [str s] PExit.

(** [if(fork1() == 0) child; k]: [fork1] panics when there is no process. *)
Definition fork1 (child k : prog) : prog := PFork child k (panic_prog "fork").

Fixpoint runcmd (c : ast) : prog :=
  match c with
  | AExec argv =>
      match argv with
      | [] => PExit
      | a0 :: _ => PExec argv (PPrint [str "exec "; a0; str " failed"] PExit)
      end
  | ARedir c file mode fd =>
      PClose (Z.to_nat fd)
        (POpen file mode (fun r =>
           match r with
           | None => PPrint [str "open "; file; str " failed"] PExit
           | Some _ => runcmd c
           end))
  | AList l r => fork1 (runcmd l) (PWait (runcmd r))
  | APipe l r =>
      PPipe (fun r' =>
        match r' with
        | None => panic_prog "pipe"
        | Some (p0, p1) =>
            fork1 (PClose 1 (PDup p1 (PClose p0 (PClose p1 (runcmd l)))))
              (fork1 (PClose 0 (PDup p0 (PClose p0 (PClose p1 (runcmd r)))))
                 (PClose p0 (PClose p1 (PWait (PWait PExit)))))
        end)
  | ABack c => fork1 (runcmd c) PExit
  end.

(** ** Open files *)

(** What a descriptor stands for: an end of a pipe, a file opened by name, or
    something from before. *)
Inductive obj := PipeRead (id : nat) | PipeWrite (id : nat) | Opened (file : list Z) (mode : Z) | Inherited (n : nat).

Notation fdtable := (gmap nat obj).

(** The lowest free descriptor below [NOFILE]. *)
Definition lowest_fd (t : fdtable) : option nat :=
  scan (fun i => bool_decide (t !! i = None)) (seq 0 (Z.to_nat NOFILE)).

(** What the processes of a command do that can be seen: they run a program, until it
    ends, or print a message. *)
Inductive act := Runs (argv : list (list Z)) | Says (msg : list (list Z)).

(** An act with the open files of its process, and the acts, by number, that have ended
    before it begins, whatever the order the processes run in. *)
Record event := mkevent { ev_act : act; ev_fds : fdtable; ev_after : gset nat }.

(** Pipes and events are numbered. *)
Record counts := mkcounts { pipes : nat; events : nat }.

(** What a process has seen end: [past] are the acts that have ended, [kids] those that
    have ended when each of its children has, and [waited] the number of times it has
    waited.  [wait] returns when one of the children has ended, and does not say which: the
    acts of the children are over when it has waited as often as it has forked. *)
Record seen := mkseen { past : gset nat; kids : list (gset nat); waited : nat }.

Definition alone (d : gset nat) : seen := mkseen d [] 0.

Definition forked (e : gset nat) (h : seen) : seen := mkseen (past h) (e :: kids h) (waited h).

Definition has_waited (h : seen) : seen :=
  if (S (waited h) =? length (kids h))%nat then alone (past h ∪ ⋃ kids h)
  else mkseen (past h) (kids h) (S (waited h)).

(** The result of a process: the events of it and its children, the acts that have ended
    when it has, and the next numbers. *)
Notation outcome := (list event * gset nat * counts)%type.

Section Running.
(** The files that can be opened and the programs that there are. *)
Variables (openable : list Z -> Z -> bool) (runnable : list (list Z) -> bool).

(** One act, after which the process goes on as [k]. *)
Definition acts (a : act) (t : fdtable) (d : gset nat) (x : counts) (k : gset nat -> counts -> outcome) : outcome :=
  let '(l, d', x') := k ({[events x]} ∪ d) (mkcounts (pipes x) (S (events x))) in
  (mkevent a t d :: l, d', x').

(** The processes of a program, when the kernel has processes and pipes for them. *)
Fixpoint executes (p : prog) (t : fdtable) (h : seen) (x : counts) : outcome :=
  match p with
  | PExit => ([], past h, x)
  | PPrint msg k => acts (Says msg) t (past h) x (fun d => executes k t (mkseen d (kids h) (waited h)))
  | PWait k => executes k t (has_waited h) x
  | PExec argv k =>
      if runnable argv then acts (Runs argv) t (past h) x (fun d x => ([], d, x)) else executes k t h x
  | PClose fd k => executes k (delete fd t) h x
  | POpen file mode k =>
      match lowest_fd t with
      | Some fd =>
          if openable file mode then executes (k (Some fd)) (<[fd := Opened file mode]> t) h x
          else executes (k None) t h x
      | None => executes (k None) t h x
      end
  | PPipe k =>
      match lowest_fd t with
      | Some p0 =>
          let t' := <[p0 := PipeRead (pipes x)]> t in
          match lowest_fd t' with
          | Some p1 => executes (k (Some (p0, p1))) (<[p1 := PipeWrite (pipes x)]> t') h (mkcounts (S (pipes x)) (events x))
          | None => executes (k None) t h x
          end
      | None => executes (k None) t h x
      end
  | PDup fd k =>
      match t !! fd, lowest_fd t with
      | Some o, Some fd' => executes k (<[fd' := o]> t) h x
      | _, _ => executes k t h x
      end
  | PFork child k _ =>
      let '(l1, d1, x) := executes child t (alone (past h)) x in
      let '(l2, d2, x) := executes k t (forked d1 h) x in
      (l1 ++ l2, d2, x)
  end.

(** ** What a command means *)

(** A program or a message, after the acts [d]. *)
Definition one (a : act) (t : fdtable) (d : gset nat) (x : counts) : outcome :=
  ([mkevent a t d], {[events x]} ∪ d, mkcounts (pipes x) (S (events x))).

(** The command [c], with the open files [t], when the acts [d] have ended.  Both sides of
    [|] run at the same time with the two ends of one pipe as output and input, and the
    command ends with both; the right side of [;] begins when the left side has ended; a
    command in the background has not ended when the shell goes on; a redirection
    replaces one descriptor.  Nothing else changes.  For a program that there is not
    and for a file that cannot be opened there is a message instead. *)
Fixpoint meaning (c : ast) (t : fdtable) (d : gset nat) (x : counts) : outcome :=
  match c with
  | AExec argv =>
      match argv with
      | [] => ([], d, x)
      | a0 :: _ =>
          if runnable argv then one (Runs argv) t d x else one (Says [str "exec "; a0; str " failed"]) t d x
      end
  | ARedir c file mode fd =>
      if openable file mode then meaning c (<[Z.to_nat fd := Opened file mode]> t) d x
      else one (Says [str "open "; file; str " failed"]) (delete (Z.to_nat fd) t) d x
  | APipe l r =>
      let n := pipes x in
      let '(l1, d1, x) := meaning l (<[1%nat := PipeWrite n]> t) d (mkcounts (S n) (events x)) in
      let '(l2, d2, x) := meaning r (<[0%nat := PipeRead n]> t) d x in
      (l1 ++ l2, d ∪ d1 ∪ d2, x)
  | AList l r =>
      let '(l1, d1, x) := meaning l t d x in
      let '(l2, d2, x) := meaning r t (d ∪ d1) x in
      (l1 ++ l2, d2, x)
  | ABack c =>
      let '(l, _, x) := meaning c t d x in
      (l, d, x)
  end.
End Running.

(** ** The shell implements it *)

(** Standard input and output are open, and two more descriptors are free. *)
Record std (t : fdtable) : Prop := mkstd {
  std_in : is_Some (t !! 0%nat);
  std_out : is_Some (t !! 1%nat);
  std_free : exists i j, (i < j < Z.to_nat NOFILE)%nat /\ t !! i = None /\ t !! j = None
}.

Lemma lowest_fd_Some t i :
  lowest_fd t = Some i <-> (i < Z.to_nat NOFILE)%nat /\ t !! i = None /\ forall j, (j < i)%nat -> is_Some (t !! j).
Proof.
  unfold lowest_fd. rewrite scan_Some. split.
  - intros [(x & Hx & Hp) Hno]. apply lookup_seq in Hx as [-> Hi]. apply bool_decide_eq_true in Hp.
    split_and!; [done|done|]. intros j Hj. specialize (Hno j (0 + j)%nat Hj).
    rewrite lookup_seq_lt in Hno by lia. specialize (Hno eq_refl). apply bool_decide_eq_false in Hno.
    by apply not_eq_None_Some.
  - intros (Hi & Hn & Hlt). split.
    + exists i. rewrite lookup_seq_lt by done. split; [done|]. by apply bool_decide_eq_true.
    + intros j x Hj Hx. apply lookup_seq in Hx as [-> _]. apply bool_decide_eq_false. by apply not_eq_None_Some, Hlt.
Qed.

Lemma lowest_fd_free t i : (i < Z.to_nat NOFILE)%nat -> t !! i = None -> exists j, lowest_fd t = Some j.
Proof.
  intros Hi Hn. destruct (lowest_fd t) as [j|] eqn:E; [by exists j|]. unfold lowest_fd in E.
  apply (proj1 (scan_None _ _)) with (i := i) (x := i) in E; [|by rewrite lookup_seq_lt].
  by apply bool_decide_eq_false in E.
Qed.

(** A closed standard descriptor is the next one to be used. *)
Lemma lowest_fd_std (t : fdtable) (fd : nat) :
  is_Some (t !! 0%nat) -> (fd = 0 \/ fd = 1)%nat -> lowest_fd (delete fd t) = Some fd.
Proof.
  intros H0 Hfd. apply lowest_fd_Some. split_and!; [unfold NOFILE; lia|apply lookup_delete_eq|].
  intros j Hj. assert (j = 0 /\ fd = 1)%nat as [-> ->] by lia. by rewrite lookup_delete_ne.
Qed.

Lemma std_insert (t : fdtable) fd o : std t -> (fd = 0 \/ fd = 1)%nat -> std (<[fd := o]> t).
Proof.
  intros [H0 H1 (i & j & Hij & Hi & Hj)] Hfd.
  assert (Hne : (forall k, t !! k = None -> fd <> k)).
  { intros k Hk <-. destruct Hfd as [-> | ->]; [rewrite Hk in H0|rewrite Hk in H1]; by eapply is_Some_None. }
  split; [| |exists i, j; rewrite !lookup_insert_ne by auto; done].
  - destruct Hfd as [-> | ->]; [by rewrite lookup_insert_eq|by rewrite lookup_insert_ne].
  - destruct Hfd as [-> | ->]; [by rewrite lookup_insert_ne|by rewrite lookup_insert_eq].
Qed.

Lemma pipe_fds t :
  std t -> exists p0 p1, lowest_fd t = Some p0 /\ (forall o, lowest_fd (<[p0 := o]> t) = Some p1) /\
    t !! p0 = None /\ t !! p1 = None /\ (2 <= p0)%nat /\ (2 <= p1)%nat /\ p0 <> p1.
Proof.
  intros [H0 H1 (i & j & Hij & Hi & Hj)]. destruct (lowest_fd_free t i) as [p0 E0]; [lia|done|].
  pose proof (proj1 (lowest_fd_Some _ _) E0) as (L0 & N0 & F0).
  assert (Hge : forall k, t !! k = None -> (2 <= k)%nat).
  { intros [|[|k]] Hk; [| |lia]; rewrite Hk in *; exfalso; by eapply is_Some_None. }
  assert (Hk : exists k, (k < Z.to_nat NOFILE)%nat /\ t !! k = None /\ k <> p0).
  { destruct (decide (i = p0)); [exists j|exists i]; split_and!; try done; lia. }
  destruct Hk as (k & Lk & Nk & Hkp). destruct (lowest_fd_free (<[p0 := PipeRead 0]> t) k Lk) as [p1 E1]; [by rewrite lookup_insert_ne|].
  exists p0, p1. pose proof (proj1 (lowest_fd_Some _ _) E1) as (L1 & N1 & F1).
  assert (Hne : p0 <> p1) by (intros ->; by rewrite lookup_insert_eq in N1).
  rewrite lookup_insert_ne in N1 by done. split_and!; [exact E0| |exact N0|exact N1|by apply Hge|by apply Hge|exact Hne].
  intros o. apply lowest_fd_Some. split_and!; [done|by rewrite lookup_insert_ne|].
  intros x Hx. specialize (F1 x Hx). destruct (decide (p0 = x)) as [->|]; [by rewrite lookup_insert_eq|].
  by rewrite lookup_insert_ne in F1 |- * by done.
Qed.

(** One end of the pipe takes the place of a standard descriptor. *)
Lemma rewired (t : fdtable) p0 p1 o0 o1 (fd : nat) o :
  t !! p0 = None -> t !! p1 = None -> (2 <= p0)%nat -> (2 <= p1)%nat -> p0 <> p1 -> (fd = 0 \/ fd = 1)%nat ->
  delete p1 (delete p0 (<[fd := o]> (delete fd (<[p1 := o1]> (<[p0 := o0]> t))))) = <[fd := o]> t.
Proof.
  intros N0 N1 L0 L1 Hne Hfd. apply map_eq. intros i.
  destruct (decide (p1 = i)) as [<-|]; [rewrite lookup_delete_eq, lookup_insert_ne by lia; done|].
  rewrite lookup_delete_ne by done.
  destruct (decide (p0 = i)) as [<-|]; [rewrite lookup_delete_eq, lookup_insert_ne by lia; done|].
  rewrite lookup_delete_ne by done.
  destruct (decide (fd = i)) as [<-|]; [by rewrite !lookup_insert_eq|].
  by rewrite !lookup_insert_ne, lookup_delete_ne, !lookup_insert_ne by done.
Qed.

(** The two children of a pipe and the process that waits for them. *)
Lemma pipe_waits d d1 d2 : past (has_waited (has_waited (forked d2 (forked d1 (alone d))))) = d ∪ d1 ∪ d2.
Proof. unfold has_waited, forked, alone. simpl. set_solver. Qed.

(** The child of a list. *)
Lemma list_waits d d1 : has_waited (forked d1 (alone d)) = alone (d ∪ d1).
Proof. unfold has_waited, forked, alone. simpl. f_equal. set_solver. Qed.

Section Plumbing.
Variables (openable : list Z -> Z -> bool) (runnable : list (list Z) -> bool).

(** One side of a pipe: the process closes a standard descriptor, and the end of the pipe
    takes its place. *)
Lemma pipe_side t p0 p1 n (fd p : nat) o c h x :
  is_Some (t !! 0%nat) -> t !! p0 = None -> t !! p1 = None -> (2 <= p0)%nat -> (2 <= p1)%nat -> p0 <> p1 ->
  (fd = 0 \/ fd = 1)%nat -> (2 <= p)%nat -> <[p1 := PipeWrite n]> (<[p0 := PipeRead n]> t) !! p = Some o ->
  executes openable runnable (PClose fd (PDup p (PClose p0 (PClose p1 c)))) (<[p1 := PipeWrite n]> (<[p0 := PipeRead n]> t)) h x =
  executes openable runnable c (<[fd := o]> t) h x.
Proof.
  intros H0 N0 N1 L0 L1 Hne Hfd Hp Ho. cbn [executes]. rewrite lookup_delete_ne by lia. rewrite Ho.
  rewrite lowest_fd_std; [|rewrite !lookup_insert_ne by lia; done|done]. by rewrite (rewired t p0 p1).
Qed.

End Plumbing.

Definition demo_fds : fdtable := {[0%nat := Inherited 0; 1%nat := Inherited 1; 2%nat := Inherited 2]}.

