(* ===== verification/ShMain.v ===== *)
(** * The shell: its main loop

    [getcmd] and [main] of [user/sh.c] and [gets] of [user/ulib.c] as programs over the
    system calls, with the calls of [runcmd] ([ShRun]) in the child. *)

From stdpp Require Import base list numbers strings tactics.
From ITree Require Import ITree.
From Stdlib Require Import Lia.
From S2P Require Import Prelude Params FsState Log PathThm Console Ulib Unix Sh ShThm ShRun.

Local Open Scope Z_scope.

Notation uprog := Unix.prog.

(** ** The calls of [runcmd] *)

(** The message of [printf(2, ...)] ends in a newline; an [open] or [pipe] that fails is
    negative. *)
Fixpoint calls (p : ShRun.prog) : uprog unit :=
  match p with
  | PExit => exit
  | PPrint msg k => _ ← put_chars 2 (concat msg ++ [10]); calls k
  | PExec argv k => _ ← sys (Exec (default [] (head argv)) argv); calls k
  | PClose fd k => _ ← sys (Close (Z.of_nat fd)); calls k
  | POpen file mode k => fd ← sys (Open file mode); calls (k (if fd <? 0 then None else Some (Z.to_nat fd)))
  | PPipe k =>
      p ← sys Pipe;
      calls (k (if p.1 <? 0 then None else Some (Z.to_nat p.2.1, Z.to_nat p.2.2)))
  | PDup fd k => _ ← sys (Dup (Z.of_nat fd)); calls k
  | PFork child k fail =>
      pid ← sys Fork;
      if pid =? -1 then calls fail else if pid =? 0 then calls child else calls k
  | PWait k => _ ← sys Wait; calls k
  end.

(** ** Reading a line *)

(** [for(i=0; i+1 < max; )] with [n] characters still to come; the characters that have
    been stored. *)
Fixpoint gets_chars (n : nat) : uprog (list Z) :=
  match n with
  | O => mret []
  | S n =>
      r ← sys (Read 0 1);
      if r.1 <? 1 then mret [] else
      let c := byte_at r.2 0 in
      if (c =? 10) || (c =? 13) then mret [c] else
      l ← gets_chars n; mret (c :: l)
  end.

(** The characters in front of the final zero. *)
Definition u_gets (max : Z) : uprog (list Z) := gets_chars (Z.to_nat (max - 1)).

(** The string in [buf], and whether there was one. *)
Definition getcmd (nbuf : Z) : uprog (bool * list Z) :=
  _ ← printf 2 "$ " [];
  l ← u_gets nbuf;
  let buf := cut (Z.to_nat nbuf) l in
  mret (negb (bool_decide (buf = [])), buf).

(** ** main *)

Definition NBUF_SH : Z := 100.

(** [while((fd = open("console", O_RDWR)) >= 0)] *)
Definition open_console (_ : unit) : uprog (unit + unit) :=
  fd ← sys (Open (chars "console") O_RDWR);
  if 0 <=? fd then
    if 3 <=? fd then _ ← sys (Close fd); mret (inr tt) else mret (inl tt)
  else mret (inr tt).

(** What [parsecmd] prints in front of [panic("syntax")]: the rest of a line of which it has
    parsed only a part. *)
Definition leftovers (buf : list Z) : list Z :=
  match parseline (parse_fuel buf) buf 0 with
  | POk (_, s) =>
      let '(_, s) := peek buf s [] in
      if (s =? length buf)%nat then [] else chars "leftovers: " ++ drop s buf ++ [10]
  | _ => []
  end.

(** [runcmd(parsecmd(buf));] in the child.  For a syntax error [parsecmd] has its message;
    it does not run out of fuel. *)
Definition child (buf : list Z) : uprog unit :=
  match parsecmd buf with
  | POk c => calls (runcmd (tree buf c))
  | PPanic msg => _ ← put_chars 2 (leftovers buf ++ chars msg ++ [10]); exit
  | PFuel => mret tt
  end.

Definition CD : list Z := [99; 100; 32].

(** One command; [inr] when the input has ended. *)
Definition main_round (_ : unit) : uprog (unit + unit) :=
  r ← getcmd NBUF_SH;
  let '(more, buf) := r in
  if negb more then mret (inr tt) else
  if bool_decide (take 3 buf = CD) then
    let dir := drop 3 (removelast buf) in
    c ← sys (Chdir dir);
    _ ← (if c <? 0 then printf 2 "cannot cd %s
" [AStr dir] else mret tt);
    mret (inl tt)
  else
  pid ← sys Fork;
  _ ← (if pid =? -1 then _ ← printf 2 "fork
" []; exit
       else if pid =? 0 then child buf else mret tt);
  _ ← sys Wait;
  mret (inl tt).

Definition sh_main : uprog unit :=
  _ ← ITree.iter open_console tt;
  _ ← ITree.iter main_round tt;
  exit.

(** ** Sessions *)

(** A terminal with a shell: the characters to be typed, and what the shell has asked for so
    far.  Every child does its work while it is waited for. *)
Inductive event := Cd (dir : list Z) | Command.

Record term := mkterm { typed : list Z; asked : list event }.

Definition ask (e : event) (s : term) : term := mkterm (typed s) (asked s ++ [e]).

Definition t_answer A (e : sysE A) : term -> option (A * term) :=
  match e with
  | Open _ _ => fun s => Some (3, s)
  | Close _ => fun s => Some (0, s)
  | Write _ l => fun s => Some (Z.of_nat (length l), s)
  | Read _ _ => fun s =>
      match typed s with
      | [] => Some ((0, []), s)
      | c :: l => Some ((1, [c]), mkterm l (asked s))
      end
  | Chdir dir => fun s => Some (0, ask (Cd dir) s)
  | Fork => fun s => Some (5, ask Command s)
  | Wait => fun s => Some (5, s)
  | _ => fun _ => None
  end.

#[local] Instance Term : Unix := mkUnix term t_answer.

(** A line that can be typed: it fits the buffer. *)
Definition line_ok (l : list Z) : Prop := (length l <= 98)%nat /\ Forall (fun c => c <> 0 /\ c <> 10 /\ c <> 13) l.

Definition event_of (l : list Z) : event := if bool_decide (take 3 l = CD) then Cd (drop 3 l) else Command.

Lemma run_put_chars fd l (s : term) : run (put_chars fd l) s (Some tt) s.
Proof. induction l as [|c l IH]; [by apply run_mret|]. eapply run_bind; [by apply run_sys|exact IH]. Qed.

Lemma run_message fd fmt ap (s : term) : run (printf fd fmt ap) s (Some tt) s.
Proof. unfold printf. destruct (u_printf _ _); [apply run_put_chars|apply run_mret]. Qed.

Lemma run_gets l n rest ev :
  Forall (fun c => c <> 0 /\ c <> 10 /\ c <> 13) l -> (length l < n)%nat ->
  run (gets_chars n) (mkterm (l ++ 10 :: rest) ev) (Some (l ++ [10])) (mkterm rest ev).
Proof.
  revert n. induction l as [|c l IH]; intros n Hl Hn; destruct n as [|n]; simpl in Hn; try lia.
  - eapply run_bind; [by apply run_sys|]. by apply run_mret.
  - apply Forall_cons_1 in Hl as [(H0 & H1 & H2) Hl]. eapply run_bind; [by apply run_sys|]. simpl.
    change (byte_at [c] 0) with c. rewrite (proj2 (Z.eqb_neq c 10)), (proj2 (Z.eqb_neq c 13)) by done. simpl.
    eapply run_bind; [apply IH; [done|lia]|]. by apply run_mret.
Qed.

Lemma run_getcmd l rest ev :
  line_ok l -> run (getcmd NBUF_SH) (mkterm (l ++ 10 :: rest) ev) (Some (true, l ++ [10])) (mkterm rest ev).
Proof.
  intros [Hn Hl]. eapply run_bind; [apply run_message|]. eapply run_bind; [apply run_gets; [done|change (Z.to_nat (NBUF_SH - 1)) with 99%nat; lia]|].
  rewrite cut_full by (apply Forall_app_2; [eapply list.Forall_impl; [exact Hl|by intros c (H & _)]|by apply Forall_cons_2]).
  rewrite take_ge by (rewrite length_app; change (Z.to_nat NBUF_SH) with 100%nat; simpl; lia).
  cbv zeta. rewrite bool_decide_false by (by destruct l). apply run_mret.
Qed.

Lemma run_round l rest ev :
  line_ok l -> run (main_round tt) (mkterm (l ++ 10 :: rest) ev) (Some (inl tt)) (mkterm rest (ev ++ [event_of l])).
Proof.
  intros Hl. eapply run_bind; [by apply run_getcmd|]. cbn [negb]. unfold event_of.
  assert (E : bool_decide (take 3 (l ++ [10]) = CD) = bool_decide (take 3 l = CD)).
  { apply bool_decide_ext. unfold CD. destruct l as [|a [|b [|c l]]]; simpl; split; intros H; first [congruence|discriminate|done]. }
  rewrite E. destruct (bool_decide (take 3 l = CD)).
  - rewrite removelast_last. eapply run_bind; [by apply run_sys|]. eapply run_bind; [apply run_mret|]. by apply run_mret.
  - eapply run_bind; [by apply run_sys|]. eapply run_bind; [apply run_mret|]. eapply run_bind; [by apply run_sys|]. by apply run_mret.
Qed.

Lemma run_end ev : run (main_round tt) (mkterm [] ev) (Some (inr tt)) (mkterm [] ev).
Proof.
  eapply (run_bind _ _ _ (false, [])); [|by apply run_mret]. eapply run_bind; [apply run_message|].
  eapply (run_bind _ _ _ []); [|by apply run_mret]. unfold u_gets. change (Z.to_nat (NBUF_SH - 1)) with 99%nat.
  eapply run_bind; [by apply run_sys|]. by apply run_mret.
Qed.

(** The shell runs a session: it changes the directory for every line that starts with
    [cd], itself, starts a child and waits for it for every other line, in the order of
    the lines, and ends with the input. *)
Theorem sh_session ls :
  Forall line_ok ls -> run sh_main (mkterm (concat ((.++ [10]) <$> ls)) []) None (mkterm [] (event_of <$> ls)).
Proof.
  intros Hls. eapply run_bind.
  { eapply (run_iter _ _ _ (inr tt)); [|split; reflexivity]. eapply run_bind; [by apply run_sys|]. eapply run_bind; [by apply run_sys|]. by apply run_mret. }
  eapply run_bind; [|apply run_exit_].
  assert (H : forall ev, run (ITree.iter main_round tt) (mkterm (concat ((.++ [10]) <$> ls)) ev) (Some tt) (mkterm [] (ev ++ (event_of <$> ls)))).
  { induction Hls as [|l ls Hl _ IH]; intros ev.
    - rewrite app_nil_r. eapply (run_iter _ _ _ (inr tt)); [apply run_end|split; reflexivity].
    - rewrite fmap_cons. simpl. rewrite <- (assoc_L app). eapply run_iter; [by apply run_round|]. simpl.
      change (list_fmap _ _ event_of ls) with (event_of <$> ls). rewrite (cons_middle (event_of l) ev (event_of <$> ls)), (assoc_L app). apply IH. }
  apply (H []).
Qed.
